(* ===== verification/_CoqProject ===== *)
-Q . S2P
Prelude.v
GoStrings.v
GoNumbers.v
Programs.v
GoJson.v
GoCodec.v
Ports.v
LedgerTables.v
LedgerWithdraw.v
LedgerQueue.v
LedgerDeposit.v
LedgerVault.v
Calls.v
Orchestrator.v
Dispatcher.v
DispatcherTraces.v
Handlers.v
TreasuryHandlers.v
HandlerTraces.v
KeyRef.v
ChainClient.v
RegistryKeys.v
KeyPaths.v
HDDerive.v
HdPub.v
KeyAgreement.v
ScanStore.v
Registry.v
RegistrySystem.v
RegistryProperties.v
PolicyEngine.v
KeyStore.v
Signer.v
SignerProperties.v
AddressHandler.v
AddressSystem.v
LedgerAccounting.v
LedgerSystem.v
VaultAccounting.v
LedgerProperties.v
DispatcherSystem.v
HandlerSystem.v
Site.v
AddressProperties.v
Endpoint.v
EndpointSystem.v
EvmReader.v
Normalize.v
EvmPlugin.v
EvmSend.v
ChainService.v
UtxoPlugins.v
Zen.v
Tron.v
ZenProperties.v
GatewayPages.v
EvmPayments.v
PaymentProperties.v
CoreProperties.v
ScanEvents.v
Scanner.v
ScanOutbox.v
UtxoScanner.v
UtxoPayments.v
TronProperties.v
ScanInvariant.v
ScanGateway.v
ScanCore.v
UtxoProperties.v
ScanGatewayProperties.v
ApiSecurity.v
ApiProxy.v
CoreServer.v
ApiProperties.v
CoreAuth.v
ApiPolicies.v
ApiIdempotency.v
TenantScope.v
ApiSystem.v
ApiSite.v
