(* ===== verification/Prelude.v ===== *)
(** * A wallet back end: ledger, withdrawals, keys and deposits

    The repository is a custodial wallet.  [wallet-core] keeps the ledger and
    sends withdrawals; [sign-service] derives keys and signs; the scanners
    watch the chains and report deposits and confirmations to [wallet-core];
    [chain-gateway] translates between these services and the chains;
    [api-gateway] is the public entry.  This library models, from the Go
    sources, the parts that decide about money and keys, and proves what they
    promise one another.

    ** Parts and files

    - Shared: this file (results, errors, record update, list and map lemmas,
      tactics), [GoStrings] (package strings and hex), [GoNumbers] (big
      integers in decimal, machine integers with their wrap-around),
      [Programs] (programs over calls and their runs), [GoJson] and [GoCodec]
      (encoding/json and base64, reading and writing).
    - api-gateway: [ApiSecurity] ([internal/security]: tokens, key permissions,
      chain policies, idempotency), [ApiProxy] ([transport/http]: the proxy and
      its routes).
    - wallet-core's server: [CoreServer] ([transport/http/router.go] and the
      JSON of [handler_types.go] around the handlers), [CoreAuth]
      ([internal/adapters/auth], [internal/adapters/idempotency]).
    - wallet-core ledger, [internal/adapters/ledger/postgres.go]:
      [LedgerTables] (rows and the database state), [LedgerWithdraw] (freeze,
      confirm, fail, release), [LedgerQueue] (claiming and retrying jobs),
      [LedgerDeposit] (the deposit life cycle), [LedgerVault] (sweeps and
      treasury transfers).  A method is a function from the state before its
      transaction to the state it commits, or an error, which rolls back.
    - wallet-core programs: [Ports] and [Calls] (the interfaces of
      [internal/ports] as typed calls; a function that uses them is a program
      over those calls), [Orchestrator], [Dispatcher] ([internal/orchestrator],
      [internal/dispatcher]), [Handlers], [TreasuryHandlers]
      ([transport/http]); [Calls] runs programs against the real ledger.
    - wallet-core's client of the chain gateway: [ChainClient]
      ([internal/adapters/chain]: the transaction payloads and the four calls).
    - wallet-core registry, [internal/adapters/registry]: [RegistryKeys] (key
      ids and normalisations), [Registry] (accounts, addresses, chain settings
      and policies), [RegistrySystem] (the rows of start-up); [AddressHandler]
      (creating an address; the handler over registry and sign service).
    - Keys: [KeyRef], [HDDerive] (sign-service [internal/hd]; slots of
      [internal/hsm]), [HdPub] (wallet-core's side),
      [KeyStore] ([internal/keystore] and the two seed backends of
      [internal/hsm] behind one class), [PolicyEngine] ([internal/policy]) and
      [Signer] ([internal/custody], [internal/crypto], the gRPC server).
    - scan-account-service: [ScanStore] (pure helpers of [internal/worker] and
      the watches), [ScanEvents] ([internal/store]), [Scanner], [ScanOutbox]
      ([internal/worker]: a tick is a state-passing program over the tables and
      the outside), [ScanCore], [ScanGateway] ([internal/client]: the
      scanner's calls as requests to wallet-core's modelled handlers and to the
      modelled service of the chain gateway).
    - scan-utxo-service: [UtxoScanner] (its [internal/store] and
      [internal/worker]; functions that are word for word those of the account
      scanner are aliases of them).
    - chain-gateway: [Endpoint] ([internal/controlplane], [internal/endpoint]:
      the endpoints, their choice by weight and their circuit breakers),
      [EvmReader] (reading an EVM chain over a node that is a parameter),
      [EvmPlugin] (its results as JSON), [EvmSend] ([internal/clients]; building,
      signing and sending a transaction), [Normalize] ([internal/normalize]: JSON
      of any plugin as transfers), [ChainService] ([internal/dispatcher],
      [internal/service], the account adapter, [internal/bootstrap]),
      [EvmPayments.gatewayClient] ([transport/grpc]).
    - chain-gateway's UTXO chains, [internal/adapters/utxo]: [UtxoPlugins] (the
      adapter, the bridge to the source adaptors, the adaptors of Bitcoin,
      Litecoin, Dash and Bitcoin Cash), [Zen] (Horizen: [zen/util], the explorer
      and [zen.go]; the UTXO plugins of start-up); the Tron plugin of the account
      chains, [Tron] ([account/chains/tron]).  A plugin is a call that may
      panic, and a panic ends the process ([UtxoPlugins.hosted]).

    ** Interfaces

    [Calls.port] indexes what programs may ask and by what type it is answered;
    [Crypto]/[CryptoLaws], [VaultCrypto], [Signatures] and [Backend] are classes
    for the crypto libraries and the seed backends, with the laws the code
    relies on; [ScanOutside] is the scanner's outside, which [ScanCore.withCore]
    implements by wallet-core and [ScanGateway.withGateway] by the chain
    gateway, one on top of the other; [EvmNode] is a node, [ChainPlugin] a
    plugin of the gateway, [Geth]/[GethLaws] go-ethereum,
    [Btcd], [Base58], [Gob], [ProtoJSON] and the explorers' clients the libraries of
    the UTXO plugins, [Resty] (a node behind an HTTP client, its law that the
    decoded answer is the answer's text), [TronExplorer], [TronKit] and
    [AccountProtoJSON] those of the Tron plugin; [ChainClient.withChain]
    puts the chain client under wallet-core's outside, and [EvmPayments.journal]
    adds to a node the list of what it was handed.  [Provider] is the security
    of the proxy, implemented by the tables ([Postgres], over a [Connection] that
    may fail) and by the provider of a gateway without a database; [Upstream] and
    [Network] are what is behind the proxy's HTTP client, [PayloadCodec] the
    dispatcher's JSON, which [ChainClient.jsonCodec] implements.  Libraries and services that are not under
    [src/] are parameters; where a theorem needs a law of them its witness
    instantiates it with concrete functions.

    ** What is shown

    - Ledger ([LedgerAccounting], [LedgerSystem], [VaultAccounting],
      [LedgerDeposit], [LedgerQueue], [LedgerProperties]): after every run of the
      methods, one transaction after the other, whose callers keep to the account
      of an order and to the terms of a credited deposit
      ([LedgerSystem.agreeing], which the methods do not check), frozen is the
      sum of the open freezes, money is conserved and locked is the sum of the
      deposits that are not final; vaults balance unless a finished sweep is
      started again; an order follows its life cycle and is paid once; deposits
      are idempotent and joined by rank; claims are serial per sender and make
      progress.  What breaks outside these conditions is shown beside them.
    - Programs ([DispatcherTraces], [HandlerTraces], [DispatcherSystem],
      [HandlerSystem], [CoreProperties], [Dispatcher]): what a job or a request may do in which
      order, for any answers from outside: a broadcast counts when it is called,
      whatever came back ([DispatcherTraces.sent]); any interleaving of jobs keeps
      the accounting; a job settles its order, after at most the configured
      attempts, or strands it when a reverted deposit has locked the account out
      ([CoreProperties.stranded]); retry delays, fee bumps and amounts are exact and bounded.
    - Payments ([EvmPayments], [PaymentProperties]): orchestrator, chain client,
      gateway, plugin and node as one system.  What a node is handed for a job is
      signed for itself and pays what the order says; a replacement pays the same;
      the texts between the programs lose nothing; token calls are well-formed.
    - Keys ([KeyPaths], [KeyAgreement], [SignerProperties]): the
      published and the signing key are one pair, key ids are read back as
      they were written, and both services name and derive the same keys.
    - Signing ([PolicyEngine], [KeyStore], [Signer],
      [SignerProperties]): signatures verify under the derived key, nothing is
      signed without authorisation, the limiter is a fixed window per caller
      and bounds what a caller gets, provisioned seeds stay.
    - Addresses ([RegistrySystem], [RegistryProperties], [AddressSystem],
      [AddressProperties]): accounts have keys of their own; a created address
      is watched by the scanner and can be signed for.
    - Scanners ([ScanInvariant], [ScanCore], [UtxoProperties]): with both
      scanners on one database, their ticks in any order, an event is done only
      when wallet-core acknowledged it, whatever the outside does; where a tick of
      one falls between two statements of the other an announcement is lost; what
      the UTXO scanner announces is credited but never unlocked; where the two
      read a status differently.
    - Gateway ([EndpointSystem], [EvmReader], [EvmPlugin], [GatewayPages]):
      selections answer configured
      endpoints and avoid open circuits, breakers count their own failures;
      following the cursor through the service answers exactly the transfers of
      an EVM chain.  [ScanGatewayProperties] runs node, gateway, scanner and
      wallet-core as one system.
    - UTXO chains ([ZenProperties], [UtxoPayments]): what is serialised of a
      Horizen transaction is read back, and reading ends whatever lengths the
      bytes announce; a signed payment is the one that was asked for, and an
      address made from a key is paid to that key; the service's transfers are
      the explorer's unspent outputs.  Through the whole service: what the
      scanners are told of the finality of deposits and payments, which payments
      cannot be sent, and which requests end the gateway.
    - Tron ([TronProperties]): the transaction a node built for an order comes
      back to it as it was read, with one signature more; examples of what the
      plugin's readers lose.
    - Public entry ([ApiProperties], [ApiPolicies], [ApiIdempotency],
      [TenantScope], [ApiSystem], on the site of [ApiSite]): what reaches
      wallet-core was authorised for its tenant, keys and chain; a repeated
      request is answered from the record; tenants stay apart in the ledger,
      however requests interleave.
    Theorems about executions in which the code does not do what it means to
    are stated as what it does, on concrete or general inputs; the manifest
    lists them as findings.

    ** Bounds, fuel and representation

    [int64], [uint32] and [time.Duration] are [Z], with [wrap64]/[wrapu32] where
    the code can overflow; amounts are decimal strings over [math/big], as in
    the code.  Recursion over fuel occurs in decimal printing and in the bytes
    of a big integer (fuel: more than the number's bits, which is enough
    because each step at least halves it) and in the pages of a scan (fuel: the
    configured number of pages, which is the code's loop bound), in retries
    (fuel: the attempts that are left) and in the blocks of a page (fuel: their
    number; the code's counter would wrap only at block 2^64 - 1).  Database
    time is an argument of every operation.  JSON between the gateway's plugins
    and its service is a tree whose numbers are the integers a [float64] rounds
    to; typed decoding matches keys as they are written, not ignoring case.  JSON
    of requests and payloads is text: its parser recurses over a fuel that is the
    length of the text, more than the nesting it can have, and the round trip in
    [GoCodec] shows that what is printed is read.  A transaction of Horizen is
    read with one round of fuel per byte and one more, and
    [ZenProperties.DeserializeTx_rounds] shows that more change nothing.

    ** Not modelled

    Connections, contexts and logging; the wording of the standard library's
    errors (positions in a text are left out); failures of a database
    connection are an outcome of a call in [Calls] and [Scanner].  Goroutines
    are interleavings of programs in [DispatcherSystem]; the scanner's are run
    in sequence.  Postgres locking is modelled by the rows a statement skips.
    The gateway's plugins of Solana, Aptos, Sui, TON, Cosmos, Stellar and
    BTT, which are calls of SDKs and node APIs that are not under [src/]:
    theorems about the gateway allow any plugins in their place.  The
    gateway's HTTP transport, which no other program uses; getters of blocks in
    the UTXO plugins, which nothing calls; generated protobuf code beyond the
    messages used; process start-up and configuration; the transport of HTTP and
    gRPC; the PKCS#11 module behind cgo. 
    Of the Tron plugin the stubs that answer that a call is not supported and
    the helpers that nothing calls are left out, as are resty's own repetitions
    of a request.
*)
From stdpp Require Export base gmap strings list fin_maps numbers sorting.
From Stdlib Require Export Lia ZArith.
From Stdlib Require Export Ascii.
From Stdlib Require String.

#[global] Open Scope string_scope.
#[global] Open Scope list_scope.
#[global] Open Scope Z_scope.
#[global] Set Default Goal Selector "!".

(** ** Go errors and fallible results *)

(** A Go [error] value.  [sql.ErrNoRows] is compared by identity in the code;
    [Unsupported] is chain-gateway's [ports.ErrUnsupported] or an error that
    wraps it; every other error is only looked at through its message. *)
Inductive error : Type :=
  | ErrNoRows
  | Unsupported (msg : string)
  | Errorf (msg : string).

#[export] Instance error_eq_dec : EqDecision error.
Proof. solve_decision. Defined.

(** [err.Error()] *)
Definition error_text (e : error) : string :=
  match e with
  | ErrNoRows => "sql: no rows in result set"
  | Unsupported msg => msg
  | Errorf msg => msg
  end.

(** [fmt.Errorf("<what>: %w", err)] and [errors.Is(err, ports.ErrUnsupported)] *)
Definition wrap_error (what : string) (e : error) : error :=
  match e with
  | Unsupported msg => Unsupported (String.append what (String.append ": " msg))
  | _ => Errorf (String.append what (String.append ": " (error_text e)))
  end.
Definition is_unsupported (e : error) : bool := match e with Unsupported _ => true | _ => false end.

(** A Go function returning [(A, error)]. *)
Inductive result (A : Type) : Type :=
  | Ok (a : A)
  | Err (e : error).
Arguments Ok {A} a.
Arguments Err {A} e.

#[export] Instance result_eq_dec {A} `{EqDecision A} : EqDecision (result A).
Proof. solve_decision. Defined.
#[export] Instance result_ret : MRet result := λ A a, Ok a.
#[export] Instance result_bind : MBind result :=
  λ A B f r, match r with Ok a => f a | Err e => Err e end.
#[export] Instance result_fmap : FMap result :=
  λ A B f r, match r with Ok a => Ok (f a) | Err e => Err e end.

Definition is_ok {A} (r : result A) : bool :=
  match r with Ok _ => true | Err _ => false end.

(** [if err != nil { return err }] over an optional row. *)
Definition from_option_err {A} (e : error) (o : option A) : result A :=
  match o with Some a => Ok a | None => Err e end.

Lemma bind_ok_inv {A B} (f : A → result B) (r : result A) (b : B) :
  (r ≫= f) = Ok b → ∃ a, r = Ok a ∧ f a = Ok b.
Proof. destruct r as [a|e]; intros H; [by exists a|discriminate H]. Qed.

Lemma bind_ok {A B} (f : A → result B) (a : A) : (Ok a ≫= f) = f a.
Proof. done. Qed.

Lemma bind_err {A B} (f : A → result B) (e : error) : (Err e ≫= f) = Err e.
Proof. done. Qed.

Lemma from_option_err_ok {A} (e : error) (o : option A) (a : A) :
  from_option_err e o = Ok a ↔ o = Some a.
Proof. destruct o; simpl; split; congruence. Qed.

(** Running a database transaction: an error rolls back to the state before. *)
Definition run_tx {S} (op : S → result S) (s : S) : S :=
  match op s with Ok s' => s' | Err _ => s end.

Lemma run_tx_ok {S} (op : S → result S) (s : S) : is_ok (op s) = true → op s = Ok (run_tx op s).
Proof. unfold run_tx. by destruct (op s). Qed.

(** A run on a concrete state succeeds: only the outcome is evaluated. *)
Ltac run_tx_ok := apply (run_tx_ok _ _); vm_compute; reflexivity.

(** ** Record update *)

(** [Rebuild] is the eta expansion of a record type, declared once per record;
    [Updater] is derived from it for each field by replacing the projection. *)
Class Rebuild (R : Type) := rebuild : R → R.
Class Updater {R T : Type} (field : R → T) := update : (T → T) → R → R.
Arguments update {R T} field {_} g r.

Ltac solve_updater field :=
  lazymatch type of field with
  | ?R → ?T =>
      let e := eval hnf in (@rebuild R _) in
      lazymatch eval pattern field in e with
      | ?h _ =>
          let t := eval cbv beta in
            (fun (g : T → T) (r : R) => h (fun r' => g (field r')) r) in
          exact t
      end
  end.
#[global] Hint Extern 1 (Updater ?field) => solve_updater field : typeclass_instances.

Declare Scope record_scope.
Notation "r <| f ::= g |>" := (update f g r)
  (at level 1, left associativity, f at level 10, g at level 99) : record_scope.
Notation "r <| f := v |>" := (update f (fun _ => v) r)
  (at level 1, left associativity, f at level 10, v at level 99) : record_scope.
#[global] Open Scope record_scope.

(** ** Tactics *)

(** Invert one step of a successful monadic computation in [H]. *)
Ltac mbind_inv H :=
  let a := fresh "a" in let Ha := fresh "Ha" in
  apply bind_ok_inv in H as (a & Ha & H).

(** Case on the first [decide] of a hypothesis or of the goal. *)
Ltac decide_in H :=
  match type of H with
  | context [decide ?P] => destruct (decide P)
  end.

(** Close goals with an impossible equation between results. *)
Ltac no_err := try discriminate; try congruence.

(** Unfold the record updates of the goal and the hypotheses. *)
Ltac upd := unfold update in *; cbn in *.

(** ** 64-bit signed integers *)

Definition int64_min : Z := -(2 ^ 63).
Definition int64_max : Z := 2 ^ 63 - 1.
Definition in_int64 (z : Z) : Prop := int64_min ≤ z ≤ int64_max.
#[export] Instance in_int64_dec z : Decision (in_int64 z).
Proof. unfold in_int64. apply _. Defined.

(** Two's complement wrap-around of an [int64] operation. *)
Definition wrap64 (z : Z) : Z := (z + 2 ^ 63) mod 2 ^ 64 - 2 ^ 63.
(** Wrap-around of a [uint32] operation. *)
Definition wrapu32 (z : Z) : Z := z mod 2 ^ 32.

Lemma wrap64_id z : in_int64 z → wrap64 z = z.
Proof.
  unfold in_int64, wrap64, int64_min, int64_max. intros H.
  rewrite Z.mod_small; lia.
Qed.

Lemma wrap64_range z : in_int64 (wrap64 z).
Proof.
  unfold in_int64, wrap64, int64_min, int64_max.
  pose proof (Z.mod_pos_bound (z + 2 ^ 63) (2 ^ 64)). lia.
Qed.

(** ** Sums over finite maps *)

Section msum.
Context {K V : Type} `{Countable K}.
Implicit Types (m : gmap K V) (f : K → V → Z).

(** [msum f m] is the sum of [f k v] over the entries of [m]; it is what the
    accounting invariants are stated with ([SELECT SUM(...)] over a table). *)
Definition msum f m : Z := map_fold (λ k v acc, f k v + acc) 0 m.

(** The contribution of the row under [k], [0] when there is none. *)
Definition mterm f m (k : K) : Z :=
  match m !! k with Some v => f k v | None => 0 end.

Lemma msum_empty f : msum f ∅ = 0.
Proof. apply map_fold_empty. Qed.

Lemma msum_insert_new f m k v :
  m !! k = None → msum f (<[k:=v]> m) = f k v + msum f m.
Proof.
  intros Hk. unfold msum. rewrite map_fold_insert_L; [done| |done].
  intros. lia.
Qed.

Lemma msum_delete f m k v :
  m !! k = Some v → msum f (delete k m) = msum f m - f k v.
Proof.
  intros Hk. unfold msum.
  rewrite (map_fold_delete_L _ _ k v m); [lia| |done].
  intros. lia.
Qed.

Lemma msum_insert f m k v :
  msum f (<[k:=v]> m) = msum f m - mterm f m k + f k v.
Proof.
  unfold mterm. destruct (m !! k) as [v0|] eqn:Hk.
  - rewrite <- (insert_delete_eq m), msum_insert_new by apply lookup_delete_eq.
    rewrite (msum_delete _ _ _ v0) by done. lia.
  - rewrite msum_insert_new by done. lia.
Qed.

Lemma msum_nonneg f m : (∀ k v, m !! k = Some v → 0 ≤ f k v) → 0 ≤ msum f m.
Proof.
  induction m as [|k v m Hk IH] using map_ind; intros Hf.
  - rewrite msum_empty. lia.
  - rewrite msum_insert_new by done.
    assert (0 ≤ f k v) by (apply Hf, lookup_insert_eq).
    assert (0 ≤ msum f m); [|lia].
    apply IH. intros k' v' Hk'. apply Hf.
    rewrite lookup_insert_ne; [done|]. intros ->. congruence.
Qed.

Lemma msum_zero f m : (∀ k v, m !! k = Some v → f k v = 0) → msum f m = 0.
Proof.
  induction m as [|k v m Hk IH] using map_ind; intros Hf.
  - apply msum_empty.
  - rewrite msum_insert_new by done.
    rewrite Hf by apply lookup_insert_eq.
    rewrite IH; [lia|]. intros k' v' Hk'. apply Hf.
    rewrite lookup_insert_ne; [done|]. intros ->. congruence.
Qed.

Lemma msum_ge f m k v :
  (∀ k v, m !! k = Some v → 0 ≤ f k v) → m !! k = Some v → f k v ≤ msum f m.
Proof.
  intros Hf Hk. pose proof (msum_delete f m k v Hk).
  assert (0 ≤ msum f (delete k m)); [|lia].
  apply msum_nonneg. intros k' v' [_ Hk']%lookup_delete_Some. by eapply Hf.
Qed.

Lemma msum_update f m k v0 v :
  m !! k = Some v0 → msum f (<[k:=v]> m) = msum f m - f k v0 + f k v.
Proof. intros Hk. rewrite msum_insert. unfold mterm. by rewrite Hk. Qed.

(** Rewriting a row without changing its contribution. *)
Lemma msum_update_same f m k v0 v :
  m !! k = Some v0 → f k v = f k v0 → msum f (<[k:=v]> m) = msum f m.
Proof. intros Hk Hf. rewrite (msum_update _ _ _ v0) by done. lia. Qed.
End msum.

(** [UPDATE t SET row = g row WHERE pk = k]: no row is created. *)
Definition sql_update {K V} `{Countable K} (k : K) (g : V → V) (m : gmap K V) : gmap K V :=
  match m !! k with Some v => <[k:=g v]> m | None => m end.

(** [INSERT ... ON CONFLICT (pk) DO NOTHING]. *)
Definition sql_insert_nothing {K V} `{Countable K} (k : K) (v : V) (m : gmap K V) : gmap K V :=
  match m !! k with Some _ => m | None => <[k:=v]> m end.

(** [INSERT ... ON CONFLICT (pk) DO UPDATE SET row = g row]. *)
Definition sql_upsert {K V} `{Countable K} (k : K) (v : V) (g : V → V) (m : gmap K V) : gmap K V :=
  match m !! k with Some v0 => <[k:=g v0]> m | None => <[k:=v]> m end.

Section sql.
Context {K V : Type} `{Countable K}.
Implicit Types (m : gmap K V).

Lemma sql_update_lookup k g m k' :
  sql_update k g m !! k' = if decide (k = k') then g <$> m !! k' else m !! k'.
Proof.
  unfold sql_update. case_decide as Hk; [subst k'|].
  - destruct (m !! k) eqn:Hm; simpl; [by rewrite lookup_insert_eq|by rewrite Hm].
  - destruct (m !! k); [by rewrite lookup_insert_ne|done].
Qed.

Lemma sql_update_ne k g m k' : k ≠ k' → sql_update k g m !! k' = m !! k'.
Proof. intros. rewrite sql_update_lookup. by rewrite decide_False. Qed.

Lemma sql_update_eq k g m : sql_update k g m !! k = g <$> m !! k.
Proof. rewrite sql_update_lookup. by rewrite decide_True. Qed.

Lemma sql_update_some k g m v :
  m !! k = Some v → sql_update k g m = <[k:=g v]> m.
Proof. unfold sql_update. by intros ->. Qed.

Lemma sql_insert_nothing_keeps k v m k' v' :
  m !! k' = Some v' → sql_insert_nothing k v m !! k' = Some v'.
Proof.
  unfold sql_insert_nothing. intros Hk'. destruct (m !! k) eqn:Hm; [done|].
  rewrite lookup_insert_ne; [done|]. intros ->. congruence.
Qed.

Lemma sql_insert_nothing_is_Some k v m : is_Some (sql_insert_nothing k v m !! k).
Proof.
  unfold sql_insert_nothing. destruct (m !! k) eqn:Hm; [by rewrite Hm|].
  rewrite lookup_insert_eq. eauto.
Qed.

Lemma sql_insert_nothing_new k v m :
  m !! k = None → sql_insert_nothing k v m = <[k:=v]> m.
Proof. unfold sql_insert_nothing. by intros ->. Qed.

Lemma sql_insert_nothing_old k v m v0 :
  m !! k = Some v0 → sql_insert_nothing k v m = m.
Proof. unfold sql_insert_nothing. by intros ->. Qed.

Lemma msum_sql_update (f : K → V → Z) k g m :
  (∀ v, f k (g v) = f k v) → msum f (sql_update k g m) = msum f m.
Proof.
  intros Hf. unfold sql_update. destruct (m !! k) eqn:Hk; [|done].
  by eapply msum_update_same.
Qed.
End sql.

Create HintDb ledger.
Create Rewrite HintDb ledger.
#[export] Hint Rewrite @lookup_insert_eq @bind_ok @bind_err : ledger.
#[export] Hint Resolve sql_insert_nothing_keeps : ledger.
