(* ===== verification/GoStrings.v ===== *)
(** * Go's [strings] package, as far as the services use it

    A Go string is a byte sequence; it is modelled by [string], a list of 8-bit
    [ascii] characters.  Trimming is exact for every byte sequence: it removes
    the UTF-8 encodings of the runes of [unicode.IsSpace] at both ends.  Case
    mapping is exact on ASCII and on the non-ASCII runes whose image is ASCII
    (so a comparison with an ASCII literal is exact for every input); any other
    non-ASCII rune is kept as it is. *)
From S2P Require Import Prelude.

Abbreviation bytes := (list ascii).
Abbreviation of_bytes := String.string_of_list_ascii.
Abbreviation to_bytes := String.list_ascii_of_string.

Definition byte_of (n : N) : ascii := ascii_of_N n.

(** ** [strings.TrimSpace] *)

(** The one-byte spaces: \t \n \v \f \r and ' '. *)
Definition is_space1 (a : ascii) : bool :=
  let n := N_of_ascii a in (((9 <=? n) && (n <=? 13)) || (n =? 32))%N.
(** U+0085 and U+00A0. *)
Definition is_space2 (a b : ascii) : bool :=
  ((N_of_ascii a =? 194) && ((N_of_ascii b =? 133) || (N_of_ascii b =? 160)))%N.
(** U+1680, U+2000..U+200A, U+2028, U+2029, U+202F, U+205F and U+3000. *)
Definition is_space3 (a b c : ascii) : bool :=
  let a := N_of_ascii a in let b := N_of_ascii b in let c := N_of_ascii c in
  (((a =? 225) && (b =? 154) && (c =? 128))
   || ((a =? 226) && (b =? 128) && ((128 <=? c) && (c <=? 138) || (c =? 168) || (c =? 169) || (c =? 175)))
   || ((a =? 226) && (b =? 129) && (c =? 159))
   || ((a =? 227) && (b =? 128) && (c =? 128)))%N.

(** Drop the leading spaces; [s2]/[s3] say whether two or three bytes, in the
    order in which they are read, encode a space. *)
Fixpoint trim_with (s2 : ascii → ascii → bool) (s3 : ascii → ascii → ascii → bool) (l : bytes) : bytes :=
  match l with
  | [] => []
  | a :: l1 =>
      if is_space1 a then trim_with s2 s3 l1 else
      match l1 with
      | [] => l
      | b :: l2 =>
          if s2 a b then trim_with s2 s3 l2 else
          match l2 with
          | [] => l
          | c :: l3 => if s3 a b c then trim_with s2 s3 l3 else l
          end
      end
  end.

Definition trim_left : bytes → bytes := trim_with is_space2 is_space3.
Definition trim_right (l : bytes) : bytes :=
  List.rev (trim_with (λ a b, is_space2 b a) (λ a b c, is_space3 c b a) (List.rev l)).

Definition TrimSpace (s : string) : string := of_bytes (trim_right (trim_left (to_bytes s))).

(** ** Case mapping *)

Definition ascii_upper (a : ascii) : ascii :=
  let n := N_of_ascii a in
  if ((97 <=? n) && (n <=? 122))%N then ascii_of_N (n - 32) else a.
Definition ascii_lower (a : ascii) : ascii :=
  let n := N_of_ascii a in
  if ((65 <=? n) && (n <=? 90))%N then ascii_of_N (n + 32) else a.

(** [U+0131] and [U+017F] are the non-ASCII runes with an ASCII upper case. *)
Fixpoint upper_bytes (l : bytes) : bytes :=
  match l with
  | [] => []
  | a :: l1 =>
      match l1 with
      | b :: l2 =>
          if ((N_of_ascii a =? 196) && (N_of_ascii b =? 177))%N then "I"%char :: upper_bytes l2
          else if ((N_of_ascii a =? 197) && (N_of_ascii b =? 191))%N then "S"%char :: upper_bytes l2
          else ascii_upper a :: upper_bytes l1
      | [] => [ascii_upper a]
      end
  end.

(** [U+0130] and the Kelvin sign [U+212A] are the ones with an ASCII lower case. *)
Fixpoint lower_bytes (l : bytes) : bytes :=
  match l with
  | [] => []
  | a :: l1 =>
      match l1 with
      | b :: l2 =>
          if ((N_of_ascii a =? 196) && (N_of_ascii b =? 176))%N then "i"%char :: lower_bytes l2 else
          match l2 with
          | c :: l3 =>
              if ((N_of_ascii a =? 226) && (N_of_ascii b =? 132) && (N_of_ascii c =? 170))%N
              then "k"%char :: lower_bytes l3
              else ascii_lower a :: lower_bytes l1
          | [] => ascii_lower a :: lower_bytes l1
          end
      | [] => [ascii_lower a]
      end
  end.

Definition ToUpper (s : string) : string := of_bytes (upper_bytes (to_bytes s)).
Definition ToLower (s : string) : string := of_bytes (lower_bytes (to_bytes s)).

(** Simple case folding, to compare with [strings.EqualFold]: the Kelvin sign
    folds with k and [U+017F] with s. *)
Fixpoint fold_bytes (l : bytes) : bytes :=
  match l with
  | [] => []
  | a :: l1 =>
      match l1 with
      | b :: l2 =>
          if ((N_of_ascii a =? 197) && (N_of_ascii b =? 191))%N then "s"%char :: fold_bytes l2 else
          match l2 with
          | c :: l3 =>
              if ((N_of_ascii a =? 226) && (N_of_ascii b =? 132) && (N_of_ascii c =? 170))%N
              then "k"%char :: fold_bytes l3
              else ascii_lower a :: fold_bytes l1
          | [] => ascii_lower a :: fold_bytes l1
          end
      | [] => [ascii_lower a]
      end
  end.

Definition EqualFold (s t : string) : bool :=
  bool_decide (fold_bytes (to_bytes s) = fold_bytes (to_bytes t)).

(** ** Searching, splitting and building *)

Fixpoint bytes_prefix (p l : bytes) : bool :=
  match p, l with
  | [], _ => true
  | a :: p', b :: l' => Ascii.eqb a b && bytes_prefix p' l'
  | _ :: _, [] => false
  end.

Fixpoint bytes_contain (p l : bytes) : bool :=
  bytes_prefix p l || match l with [] => false | _ :: l' => bytes_contain p l' end.

Definition HasPrefix (s p : string) : bool := bytes_prefix (to_bytes p) (to_bytes s).
Definition Contains (s sub : string) : bool := bytes_contain (to_bytes sub) (to_bytes s).
Definition TrimPrefix (s p : string) : string :=
  if HasPrefix s p then of_bytes (drop (List.length (to_bytes p)) (to_bytes s)) else s.

(** [strings.Split] with a one-byte separator: never the empty list. *)
Fixpoint split_bytes (sep : ascii) (l : bytes) : list bytes :=
  match l with
  | [] => [[]]
  | a :: l' =>
      if Ascii.eqb a sep then [] :: split_bytes sep l'
      else match split_bytes sep l' with
           | part :: parts => (a :: part) :: parts
           | [] => [[a]]
           end
  end.
Definition Split (s : string) (sep : ascii) : list string :=
  of_bytes <$> split_bytes sep (to_bytes s).

Definition Repeat (s : string) (n : nat) : string := String.concat "" (replicate n s).

(** ** Hexadecimal *)

Definition hexChar (n : N) : ascii := ascii_of_N (if (n <? 10)%N then 48 + n else 87 + n).

(** [hex.EncodeToString] *)
Definition hexEncode (l : bytes) : string :=
  of_bytes (flat_map (λ a, [hexChar (N_of_ascii a / 16); hexChar (N_of_ascii a mod 16)]) l).

Definition hexDigit (a : ascii) : option N :=
  let n := N_of_ascii a in
  if decide (48 ≤ n ≤ 57)%N then Some (n - 48)%N
  else if decide (97 ≤ n ≤ 102)%N then Some (n - 87)%N
  else if decide (65 ≤ n ≤ 70)%N then Some (n - 55)%N
  else None.

(** [hex.DecodeString] *)
Fixpoint hexDecode (l : bytes) : option bytes :=
  match l with
  | [] => Some []
  | [_] => None
  | a :: b :: l' =>
      x ← hexDigit a; y ← hexDigit b; rest ← hexDecode l';
      Some (ascii_of_N (16 * x + y) :: rest)
  end.

(** ** Laws *)

Lemma of_to_bytes s : of_bytes (to_bytes s) = s.
Proof. apply String.string_of_list_ascii_of_string. Qed.
Lemma to_of_bytes l : to_bytes (of_bytes l) = l.
Proof. apply String.list_ascii_of_string_of_list_ascii. Qed.
#[export] Hint Rewrite of_to_bytes to_of_bytes : ledger.

Lemma to_bytes_app s t : to_bytes (s +:+ t) = to_bytes s ++ to_bytes t.
Proof. induction s as [|a s IH]; [done|]. change (String a s +:+ t) with (String a (s +:+ t)). cbn. by rewrite IH. Qed.

Lemma append_inj_r s t u : s +:+ u = t +:+ u → s = t.
Proof.
  intros E%(f_equal to_bytes). rewrite !to_bytes_app in E. apply (inj (.++ to_bytes u)), (f_equal of_bytes) in E.
  by rewrite !of_to_bytes in E.
Qed.

(** A suffix of a trimmed-from-the-left word that starts with no space. *)
Lemma trim_with_idem s2 s3 l : trim_with s2 s3 (trim_with s2 s3 l) = trim_with s2 s3 l.
Proof.
  remember (List.length l) as n eqn:Hn.
  assert (List.length l ≤ n)%nat as Hle by lia. clear Hn. revert l Hle.
  induction n as [|n IH]; intros l Hle.
  { destruct l; [done|simpl in Hle; lia]. }
  destruct l as [|a l1]; [done|]. simpl.
  destruct (is_space1 a) eqn:H1; [apply IH; simpl in Hle; lia|].
  destruct l1 as [|b l2]; [simpl; by rewrite H1|].
  destruct (s2 a b) eqn:H2; [apply IH; simpl in Hle; lia|].
  destruct l2 as [|c l3]; [simpl; by rewrite H1, H2|].
  destruct (s3 a b c) eqn:H3; [apply IH; simpl in Hle; lia|].
  simpl. by rewrite H1, H2, H3.
Qed.

Lemma Split_cons s sep : Split s sep ≠ [].
Proof.
  unfold Split. destruct (to_bytes s) as [|a l]; [done|]. simpl.
  destruct (Ascii.eqb a sep); [done|]. by destruct (split_bytes sep l).
Qed.

Example TrimSpace_ex : TrimSpace "  0x1 " = "0x1". Proof. reflexivity. Qed.
Example ToUpper_ex : ToUpper "Confirmed" = "CONFIRMED". Proof. reflexivity. Qed.
Example EqualFold_ex : EqualFold "REPLACED" "replaced" = true. Proof. reflexivity. Qed.
Example Split_ex : Split "a:b::c" ":" = ["a"; "b"; ""; "c"]. Proof. reflexivity. Qed.

(** Trimming removes a prefix. *)
Lemma trim_with_suffix s2 s3 l : ∃ p, l = p ++ trim_with s2 s3 l.
Proof.
  remember (List.length l) as n eqn:Hn.
  assert (List.length l ≤ n)%nat as Hle by lia. clear Hn. revert l Hle.
  induction n as [|n IH]; intros l Hle.
  { destruct l; [by exists []|simpl in Hle; lia]. }
  destruct l as [|a l1]; [by exists []|]. simpl.
  destruct (is_space1 a).
  { destruct (IH l1) as [p Hp]; [simpl in Hle; lia|]. exists (a :: p).
    simpl. by rewrite <- Hp. }
  destruct l1 as [|b l2]; [by exists []|].
  destruct (s2 a b).
  { destruct (IH l2) as [p Hp]; [simpl in Hle; lia|]. exists (a :: b :: p).
    simpl. by rewrite <- Hp. }
  destruct l2 as [|c l3]; [by exists []|].
  destruct (s3 a b c); [|by exists []].
  destruct (IH l3) as [p Hp]; [simpl in Hle; lia|]. exists (a :: b :: c :: p).
  simpl. by rewrite <- Hp.
Qed.

(** Shortening a word on the right cannot expose a leading space. *)
Lemma trim_with_prefix s2 s3 l l' :
  trim_with s2 s3 (l ++ l') = l ++ l' → trim_with s2 s3 l = l.
Proof.
  assert (Hlen : ∀ m, (List.length (trim_with s2 s3 m) ≤ List.length m)%nat).
  { intros m. destruct (trim_with_suffix s2 s3 m) as [p Hp].
    apply (f_equal List.length) in Hp. rewrite List.length_app in Hp. lia. }
  intros H. destruct l as [|a l]; [done|].
  destruct l as [|b l]; [|destruct l as [|c l]]; simpl in *.
  - destruct (is_space1 a); [|done]. apply (f_equal List.length) in H.
    pose proof (Hlen l'). simpl in H. lia.
  - destruct (is_space1 a).
    { apply (f_equal List.length) in H. pose proof (Hlen (b :: l')).
      simpl in *. lia. }
    destruct (s2 a b); [|done]. apply (f_equal List.length) in H.
    pose proof (Hlen l'). simpl in H. lia.
  - destruct (is_space1 a).
    { apply (f_equal List.length) in H.
      pose proof (Hlen (b :: c :: l ++ l')). simpl in *. lia. }
    destruct (s2 a b).
    { apply (f_equal List.length) in H.
      pose proof (Hlen (c :: l ++ l')). simpl in *. lia. }
    destruct (s3 a b c); [|done].
    apply (f_equal List.length) in H.
    pose proof (Hlen (l ++ l')). simpl in *. lia.
Qed.

Lemma trim_right_prefix l : ∃ q, l = trim_right l ++ q.
Proof.
  unfold trim_right.
  destruct (trim_with_suffix (λ a b, is_space2 b a) (λ a b c, is_space3 c b a) (List.rev l))
    as [p Hp].
  exists (List.rev p). rewrite <- List.rev_app_distr, <- Hp. by rewrite List.rev_involutive.
Qed.

Lemma TrimSpace_idem s : TrimSpace (TrimSpace s) = TrimSpace s.
Proof.
  unfold TrimSpace. rewrite to_of_bytes. f_equal.
  set (l := trim_left (to_bytes s)).
  assert (trim_left (trim_right l) = trim_right l) as ->.
  { destruct (trim_right_prefix l) as [q Hq]. eapply trim_with_prefix.
    rewrite <- Hq. apply trim_with_idem. }
  unfold trim_right. by rewrite List.rev_involutive, trim_with_idem.
Qed.

(** A word of printable ASCII characters is already trimmed. *)
Definition clean_char (a : ascii) : bool :=
  let n := N_of_ascii a in ((33 <=? n) && (n <=? 126))%N.

Lemma trim_with_clean s2 s3 a l :
  is_space1 a = false → (∀ b, s2 a b = false) → (∀ b c, s3 a b c = false) →
  trim_with s2 s3 (a :: l) = a :: l.
Proof.
  intros H1 H2 H3. simpl. rewrite H1. destruct l as [|b [|c l]]; [done| |]; rewrite H2; [done|].
  by rewrite H3.
Qed.

Lemma clean_char_spaces a : clean_char a = true →
  is_space1 a = false ∧ (∀ b, is_space2 a b = false) ∧ (∀ b, is_space2 b a = false)
  ∧ (∀ b c, is_space3 a b c = false) ∧ (∀ b c, is_space3 c b a = false).
Proof.
  unfold clean_char, is_space1, is_space2, is_space3.
  rewrite andb_true_iff, !N.leb_le. intros [Hl Hu].
  assert (∀ k, (127 <= k)%N → (N_of_ascii a =? k)%N = false) as Hne
    by (intros; apply N.eqb_neq; lia).
  assert (∀ k, (127 <= k)%N → (k <=? N_of_ascii a)%N = false) as Hle
    by (intros; apply N.leb_gt; lia).
  repeat split; intros; rewrite ?Hne, ?Hle by lia; simpl; rewrite ?andb_false_r; try done.
  apply orb_false_iff. rewrite andb_false_iff, !N.leb_gt, N.eqb_neq. lia.
Qed.

Lemma TrimSpace_clean l :
  Forall (λ a, clean_char a = true) l → TrimSpace (of_bytes l) = of_bytes l.
Proof.
  intros Hl. unfold TrimSpace. rewrite to_of_bytes. f_equal.
  assert (trim_left l = l) as ->.
  { unfold trim_left. destruct l as [|a l]; [done|].
    apply Forall_cons in Hl as [(H1 & H2 & _ & H3 & _)%clean_char_spaces _].
    by apply trim_with_clean. }
  unfold trim_right. assert (Forall (λ a, clean_char a = true) (List.rev l)) as Hr.
  { apply Forall_forall. intros x Hx. apply list_elem_of_In, List.in_rev in Hx.
    rewrite Forall_forall in Hl. by apply Hl, list_elem_of_In. }
  destruct (List.rev l) as [|a r] eqn:Hrev.
  { simpl. apply (f_equal (@List.rev ascii)) in Hrev. by rewrite List.rev_involutive in Hrev. }
  rewrite trim_with_clean.
  - rewrite <- Hrev. apply List.rev_involutive.
  - by apply Forall_cons in Hr as [(H1 & _)%clean_char_spaces _].
  - by apply Forall_cons in Hr as [(_ & _ & H2 & _)%clean_char_spaces _].
  - by apply Forall_cons in Hr as [(_ & _ & _ & _ & H3)%clean_char_spaces _].
Qed.

Lemma split_no_sep sep l : sep ∉ l → split_bytes sep l = [l].
Proof.
  induction l as [|a l IH]; intros Hn; [done|]. apply not_elem_of_cons in Hn as [Ha Hn]. cbn.
  destruct (Ascii.eqb_spec a sep) as [->|]; [done|]. by rewrite IH.
Qed.

Lemma split_app_sep sep l1 l2 : sep ∉ l1 → split_bytes sep (l1 ++ sep :: l2) = l1 :: split_bytes sep l2.
Proof.
  induction l1 as [|a l1 IH]; intros Hn; cbn; [by rewrite Ascii.eqb_refl|].
  apply not_elem_of_cons in Hn as [Ha Hn]. destruct (Ascii.eqb_spec a sep) as [->|]; [done|]. by rewrite IH.
Qed.

(** *** Reading back hexadecimal digits *)

Lemma hexDigit_char n : (n < 16)%N → hexDigit (hexChar n) = Some n.
Proof.
  intros Hn.
  assert (Hall : forallb (λ k, bool_decide (hexDigit (hexChar (N.of_nat k)) = Some (N.of_nat k))) (seq 0 16) = true)
    by (vm_compute; done).
  rewrite forallb_forall in Hall. specialize (Hall (N.to_nat n)). rewrite N2Nat.id in Hall.
  apply (bool_decide_eq_true (hexDigit (hexChar n) = Some n)), Hall, List.in_seq. lia.
Qed.

Lemma byte_halves a : (N_of_ascii a / 16 < 16)%N ∧ (N_of_ascii a mod 16 < 16)%N.
Proof.
  pose proof (Ascii.N_ascii_bounded a).
  split; [apply N.Div0.div_lt_upper_bound; lia|by apply N.mod_upper_bound].
Qed.

Lemma hexDecode_Encode l : hexDecode (to_bytes (hexEncode l)) = Some l.
Proof.
  unfold hexEncode. rewrite to_of_bytes. induction l as [|a l IH]; [done|].
  destruct (byte_halves a) as [H1 H2]. cbn [flat_map app hexDecode].
  rewrite !hexDigit_char by done. cbn. rewrite IH. cbn. do 2 f_equal.
  rewrite <- N.div_mod' by done. apply Ascii.ascii_N_embedding.
Qed.

(** Lower case and case folding agree on texts both make ASCII. *)
Lemma lower_fold l :
  Forall (λ a, N_of_ascii a < 128)%N (lower_bytes l) → Forall (λ a, N_of_ascii a < 128)%N (fold_bytes l) →
  fold_bytes l = lower_bytes l.
Proof.
  remember (List.length l) as n eqn:Hn. assert (List.length l ≤ n)%nat as Hle by lia. clear Hn. revert l Hle.
  assert (∀ a, 128 ≤ N_of_ascii a → N_of_ascii (ascii_lower a) = N_of_ascii a)%N as Hhigh.
  { intros a Ha. unfold ascii_lower. by rewrite (proj2 (N.leb_gt (N_of_ascii a) 90)), andb_false_r by lia. }
  induction n as [|n IH]; intros l Hle; [by destruct l; [|cbn in Hle; lia]|].
  destruct l as [|a [|b l]]; [done..|]. cbn [lower_bytes fold_bytes List.length] in *.
  assert (IH1 := IH (b :: l) ltac:(cbn; lia)). assert (IH2 := IH l ltac:(lia)).
  assert (∀ x, N_of_ascii a = x → (128 ≤ x)%N → ∀ m, ¬ Forall (λ a, N_of_ascii a < 128)%N (ascii_lower a :: m)) as Hno.
  { intros x Hx Hx' m [Ha _]%Forall_cons. rewrite Hhigh in Ha by lia. lia. }
  destruct ((N_of_ascii a =? 196) && (N_of_ascii b =? 176))%N eqn:E1.
  { apply andb_prop in E1 as [H1%N.eqb_eq _]. rewrite H1. cbn [N.eqb Pos.eqb andb]. intros _ Hf. exfalso.
    destruct l as [|c l]; by eapply (Hno _ H1). }
  destruct ((N_of_ascii a =? 197) && (N_of_ascii b =? 191))%N eqn:E2.
  { apply andb_prop in E2 as [H1%N.eqb_eq _]. rewrite H1. cbn [N.eqb Pos.eqb andb]. intros Hf _. exfalso.
    destruct l as [|c l]; by eapply (Hno _ H1). }
  destruct l as [|c l]; [intros [_ H1]%Forall_cons [_ H2]%Forall_cons; f_equal; by apply IH1|].
  destruct ((N_of_ascii a =? 226) && (N_of_ascii b =? 132) && (N_of_ascii c =? 170))%N.
  - intros [_ H1]%Forall_cons [_ H2]%Forall_cons. f_equal. apply IH; [cbn in Hle; lia|done..].
  - intros [_ H1]%Forall_cons [_ H2]%Forall_cons. f_equal. by apply IH1.
Qed.

(** Hexadecimal text is already trimmed. *)
Lemma hexChar_clean n : (n < 16)%N → clean_char (hexChar n) = true.
Proof.
  intros Hn. unfold clean_char, hexChar. destruct (n <? 10)%N eqn:H; [apply N.ltb_lt in H|apply N.ltb_ge in H];
    rewrite N_ascii_embedding by lia; rewrite andb_true_iff, !N.leb_le; lia.
Qed.

Lemma TrimSpace_0xhex l : TrimSpace (String.append "0x" (hexEncode l)) = String.append "0x" (hexEncode l).
Proof.
  rewrite <- (of_to_bytes (String.append "0x" _)). apply TrimSpace_clean.
  change (to_bytes (String.append "0x" (hexEncode l))) with ("0" :: "x" :: to_bytes (hexEncode l))%char.
  do 2 (constructor; [done|]). unfold hexEncode. rewrite to_of_bytes.
  induction l as [|a l IH]; cbn [flat_map app]; [constructor|].
  assert (N_of_ascii a < 256)%N by apply N_ascii_bounded.
  constructor; [apply hexChar_clean, N.Div0.div_lt_upper_bound; lia|].
  constructor; [apply hexChar_clean, N.mod_lt; lia|done].
Qed.
