(* ===== verification/GoNumbers.v ===== *)
(** * Decimal strings and big integers

    [big.Int]'s [SetString(s, 10)] and [String()], [strconv.ParseUint] in base
    10, and the amount arithmetic that wallet-core builds on them: the ledger
    stores every amount as a decimal string and computes on it with
    [addDecimalString], [subDecimalString] and [parseIntString]. *)
From S2P Require Import Prelude GoStrings.

(** ** Digits *)

Definition digit_of (a : ascii) : option Z :=
  let n := Z.of_N (N_of_ascii a) in
  if decide (48 ≤ n ∧ n ≤ 57) then Some (n - 48) else None.

Definition digit_char (d : Z) : ascii := ascii_of_N (Z.to_N (d + 48)).

(** Read digits after the value [acc] read so far. *)
Fixpoint parse_digits (acc : Z) (l : bytes) : option Z :=
  match l with
  | [] => Some acc
  | a :: l' =>
      match digit_of a with
      | Some d => parse_digits (acc * 10 + d) l'
      | None => None
      end
  end.

(** A non-empty string of digits. *)
Definition parse_nat10 (l : bytes) : option Z :=
  match l with [] => None | _ :: _ => parse_digits 0 l end.

(** [new(big.Int).SetString(s, 10)]: an optional sign and digits, nothing else. *)
Definition SetString10 (s : string) : option Z :=
  match to_bytes s with
  | [] => None
  | a :: l =>
      if Ascii.eqb a "-" then Z.opp <$> parse_nat10 l
      else if Ascii.eqb a "+" then parse_nat10 l
      else parse_nat10 (a :: l)
  end.

(** The digits of [n] in front of [acc]. *)
Fixpoint print_digits (fuel : nat) (n : Z) (acc : bytes) : bytes :=
  match fuel with
  | O => acc
  | S fuel' =>
      let acc' := digit_char (n mod 10) :: acc in
      if decide (n / 10 = 0) then acc' else print_digits fuel' (n / 10) acc'
  end.

(** [2 ^ print_fuel n > n], so the fuel covers every digit. *)
Definition print_fuel (n : Z) : nat := S (Z.to_nat (Z.log2 n)).

(** [String()] of a big integer. *)
Definition BigString (z : Z) : string :=
  of_bytes (if decide (z < 0) then "-"%char :: print_digits (print_fuel (- z)) (- z) []
            else print_digits (print_fuel z) z []).

(** ** Round trip *)

Lemma digit_char_of d : 0 ≤ d < 10 → digit_of (digit_char d) = Some d.
Proof.
  intros Hd. unfold digit_of, digit_char.
  rewrite N_ascii_embedding by lia.
  rewrite decide_True by lia. f_equal. lia.
Qed.

Lemma digit_of_range a d : digit_of a = Some d → 0 ≤ d < 10.
Proof. unfold digit_of. case_decide; intros [= <-]. lia. Qed.

Lemma print_digits_cons fuel n acc :
  (0 < fuel)%nat → 0 ≤ n → ∃ d l, print_digits fuel n acc = digit_char d :: l ∧ 0 ≤ d < 10.
Proof.
  revert n acc. induction fuel as [|fuel IH]; intros n acc Hf Hn; [lia|]. simpl.
  pose proof (Z.mod_pos_bound n 10). case_decide as Hq.
  - exists (n mod 10), acc. split; [done|lia].
  - destruct fuel as [|fuel]; [|apply IH; [lia|apply Z.div_pos; lia]].
    exists (n mod 10), acc. split; [done|lia].
Qed.

Lemma parse_print_digits fuel n acc :
  0 ≤ n < 2 ^ Z.of_nat fuel → (0 < fuel)%nat →
  parse_digits 0 (print_digits fuel n acc) = parse_digits n acc.
Proof.
  revert n acc. induction fuel as [|fuel IH]; intros n acc [Hn Hb] Hf; [lia|]. simpl.
  pose proof (Z.mod_pos_bound n 10 ltac:(lia)) as Hm.
  pose proof (Z.div_mod n 10 ltac:(lia)) as Hdm.
  case_decide as Hq.
  - cbn [parse_digits]. rewrite digit_char_of by lia. f_equal. lia.
  - assert (n / 10 < 2 ^ Z.of_nat fuel).
    { rewrite Nat2Z.inj_succ, Z.pow_succ_r in Hb by lia.
      apply Z.div_lt_upper_bound; lia. }
    assert (0 ≤ n / 10) by (apply Z.div_pos; lia).
    assert (0 < fuel)%nat.
    { destruct fuel; [|lia]. change (2 ^ Z.of_nat 0) with 1 in *. lia. }
    rewrite IH by lia.
    cbn [parse_digits]. rewrite digit_char_of by lia. f_equal. lia.
Qed.

Lemma print_fuel_ok n : 0 ≤ n → n < 2 ^ Z.of_nat (print_fuel n).
Proof.
  intros Hn. unfold print_fuel. rewrite Nat2Z.inj_succ, Z2Nat.id by apply Z.log2_nonneg.
  destruct (decide (n = 0)) as [->|]; [by compute|].
  apply Z.log2_spec. lia.
Qed.

Lemma parse_nat10_print n : 0 ≤ n → parse_nat10 (print_digits (print_fuel n) n []) = Some n.
Proof.
  intros Hn.
  destruct (print_digits_cons (print_fuel n) n []) as (d & l & Hl & Hd); [unfold print_fuel; lia|done|].
  unfold parse_nat10. rewrite Hl, <- Hl.
  rewrite parse_print_digits; [done| |unfold print_fuel; lia].
  split; [done|by apply print_fuel_ok].
Qed.

Lemma digit_char_sign d : 0 ≤ d < 10 →
  Ascii.eqb (digit_char d) "-" = false ∧ Ascii.eqb (digit_char d) "+" = false.
Proof.
  intros Hd.
  assert (d = 0 ∨ d = 1 ∨ d = 2 ∨ d = 3 ∨ d = 4 ∨ d = 5 ∨ d = 6 ∨ d = 7 ∨ d = 8 ∨ d = 9) as HH by lia.
  repeat destruct HH as [->|HH]; [done..|]. by subst d.
Qed.

(** Reading back what [String()] wrote. *)
Lemma SetString_String z : SetString10 (BigString z) = Some z.
Proof.
  unfold SetString10, BigString. rewrite to_of_bytes. case_decide as Hz.
  - rewrite Ascii.eqb_refl, parse_nat10_print by lia. simpl. f_equal. lia.
  - destruct (print_digits_cons (print_fuel z) z []) as (d & l & Hl & Hd); [unfold print_fuel; lia|lia|].
    rewrite Hl. destruct (digit_char_sign d Hd) as [-> ->]. rewrite <- Hl.
    apply parse_nat10_print. lia.
Qed.

Lemma parse_digits_mono acc l v : 0 ≤ acc → parse_digits acc l = Some v → 0 ≤ v.
Proof.
  revert acc. induction l as [|a l IH]; simpl; intros acc Hacc Hp; [congruence|].
  destruct (digit_of a) eqn:Hd; [|done]. apply digit_of_range in Hd.
  eapply IH; [|done]. lia.
Qed.

Lemma BigString_inj z1 z2 : BigString z1 = BigString z2 → z1 = z2.
Proof. intros H. apply (f_equal SetString10) in H. rewrite !SetString_String in H. congruence. Qed.

Lemma digit_char_clean d : 0 ≤ d < 10 → clean_char (digit_char d) = true.
Proof.
  intros Hd. unfold clean_char, digit_char. rewrite N_ascii_embedding by lia.
  rewrite andb_true_iff, !N.leb_le. lia.
Qed.

Lemma print_digits_clean fuel n acc :
  0 ≤ n → Forall (λ a, clean_char a = true) acc →
  Forall (λ a, clean_char a = true) (print_digits fuel n acc).
Proof.
  revert n acc. induction fuel as [|fuel IH]; intros n acc Hn Hacc; [done|]. simpl.
  pose proof (Z.mod_pos_bound n 10 ltac:(lia)).
  assert (Forall (λ a, clean_char a = true) (digit_char (n mod 10) :: acc)).
  { constructor; [by apply digit_char_clean|done]. }
  case_decide; [done|]. apply IH; [|done]. apply Z.div_pos; lia.
Qed.

Lemma TrimSpace_BigString z : TrimSpace (BigString z) = BigString z.
Proof.
  unfold BigString. case_decide; apply TrimSpace_clean; [constructor; [done|]|];
    apply print_digits_clean; [lia|done|lia|done].
Qed.
#[export] Hint Rewrite TrimSpace_BigString SetString_String : ledger.

(** ** wallet-core's amount arithmetic on decimal strings *)

Definition parseIntString (v : string) : result Z :=
  match SetString10 (TrimSpace v) with
  | None => Err (Errorf ("invalid integer amount: " +:+ v))
  | Some n =>
      if decide (n < 0) then Err (Errorf ("negative amount not allowed: " +:+ v))
      else Ok n
  end.

Definition addDecimalString (a b : string) : result string :=
  aa ← parseIntString a;
  bb ← parseIntString b;
  Ok (BigString (aa + bb)).

Definition subDecimalString (a b : string) : result string :=
  aa ← parseIntString a;
  bb ← parseIntString b;
  if decide (aa < bb) then Err (Errorf "insufficient balance")
  else Ok (BigString (aa - bb)).

Definition computeWithdrawable (available withdrawLocked : string) : result string :=
  subDecimalString available withdrawLocked.

(** The number an amount column stands for; [0] for a malformed column, which
    the invariants exclude. *)
Definition amount (s : string) : Z :=
  match parseIntString s with Ok n => n | Err _ => 0 end.

(** A column that [parseIntString] accepts. *)
Definition is_amount (s : string) : bool := is_ok (parseIntString s).

Lemma parseIntString_nonneg v n : parseIntString v = Ok n → 0 ≤ n.
Proof.
  unfold parseIntString. destruct (SetString10 _); [|done]. case_decide; [done|].
  intros [= <-]. lia.
Qed.

Lemma parse_amount v n : parseIntString v = Ok n → amount v = n.
Proof. unfold amount. by intros ->. Qed.

Lemma amount_nonneg v : 0 ≤ amount v.
Proof.
  unfold amount. destruct (parseIntString v) eqn:H; [|done]. by eapply parseIntString_nonneg.
Qed.

Lemma is_amount_parse v : is_amount v = true → parseIntString v = Ok (amount v).
Proof. unfold is_amount, amount. by destruct (parseIntString v). Qed.

Lemma parse_is_amount v n : parseIntString v = Ok n → is_amount v = true.
Proof. unfold is_amount. by intros ->. Qed.

(** The ledger reads back exactly the amounts it writes. *)
Lemma parse_BigString n : 0 ≤ n → parseIntString (BigString n) = Ok n.
Proof.
  intros Hn. unfold parseIntString. rewrite TrimSpace_BigString, SetString_String.
  by rewrite decide_False by lia.
Qed.

Lemma amount_BigString n : 0 ≤ n → amount (BigString n) = n.
Proof. intros Hn. by apply parse_amount, parse_BigString. Qed.

Lemma is_amount_BigString n : 0 ≤ n → is_amount (BigString n) = true.
Proof. intros Hn. by eapply parse_is_amount, parse_BigString. Qed.

Lemma addDecimalString_ok a b c :
  addDecimalString a b = Ok c →
  is_amount a = true ∧ is_amount b = true ∧ is_amount c = true ∧ amount c = amount a + amount b.
Proof.
  unfold addDecimalString. intros H. mbind_inv H. mbind_inv H. injection H as <-.
  pose proof (parseIntString_nonneg _ _ Ha). pose proof (parseIntString_nonneg _ _ Ha0).
  rewrite (parse_amount _ _ Ha), (parse_amount _ _ Ha0).
  rewrite amount_BigString, is_amount_BigString by lia.
  split_and!; [by eapply parse_is_amount|by eapply parse_is_amount|done|done].
Qed.

Lemma subDecimalString_ok a b c :
  subDecimalString a b = Ok c →
  is_amount a = true ∧ is_amount b = true ∧ is_amount c = true
  ∧ amount b ≤ amount a ∧ amount c = amount a - amount b.
Proof.
  unfold subDecimalString. intros H. mbind_inv H. mbind_inv H.
  case_decide; [done|]. injection H as <-.
  pose proof (parseIntString_nonneg _ _ Ha). pose proof (parseIntString_nonneg _ _ Ha0).
  rewrite (parse_amount _ _ Ha), (parse_amount _ _ Ha0).
  rewrite amount_BigString, is_amount_BigString by lia.
  split_and!; [by eapply parse_is_amount|by eapply parse_is_amount|done|lia|done].
Qed.

Lemma addDecimalString_succeeds a b :
  is_amount a = true → is_amount b = true → ∃ c, addDecimalString a b = Ok c.
Proof.
  intros Ha%is_amount_parse Hb%is_amount_parse. unfold addDecimalString.
  rewrite Ha, Hb. by eexists.
Qed.

Lemma subDecimalString_succeeds a b :
  is_amount a = true → is_amount b = true → amount b ≤ amount a →
  ∃ c, subDecimalString a b = Ok c.
Proof.
  intros Ha%is_amount_parse Hb%is_amount_parse Hle. unfold subDecimalString.
  rewrite Ha, Hb, !bind_ok, decide_False by lia. by eexists.
Qed.

(** A debit that exceeds the balance is refused. *)
Lemma subDecimalString_insufficient a b :
  is_amount a = true → is_amount b = true → amount a < amount b →
  subDecimalString a b = Err (Errorf "insufficient balance").
Proof.
  intros Ha%is_amount_parse Hb%is_amount_parse Hlt. unfold subDecimalString.
  by rewrite Ha, Hb, !bind_ok, decide_True by lia.
Qed.

Lemma amount_zero : amount "0" = 0 ∧ is_amount "0" = true.
Proof. done. Qed.

Definition maxInt64 (a b : Z) : Z := if decide (a > b) then a else b.

Lemma maxInt64_max a b : maxInt64 a b = Z.max a b.
Proof. unfold maxInt64. case_decide; lia. Qed.

(** [strconv.ParseInt(s, 10, 64)], and [Atoi] where an [int] has 64 bits. *)
Definition parseInt64 (s : string) : result Z :=
  match SetString10 s with
  | None => Err (Errorf ("strconv.ParseInt: parsing " +:+ s +:+ ": invalid syntax"))
  | Some v => if decide (int64_min ≤ v ∧ v ≤ int64_max) then Ok v
              else Err (Errorf ("strconv.ParseInt: parsing " +:+ s +:+ ": value out of range"))
  end.

(** A number's text is ASCII without spaces. *)
Lemma SetString10_clean s n : SetString10 s = Some n → Forall (λ a, clean_char a = true) (to_bytes s).
Proof.
  assert (∀ acc l v, parse_digits acc l = Some v → Forall (λ a, clean_char a = true) l) as Hd.
  { intros acc l. revert acc. induction l as [|a l IH]; intros acc v; cbn; [constructor|].
    destruct (digit_of a) as [d|] eqn:Ha; [|done]. intros Hx. constructor; [|by eapply IH].
    unfold digit_of in Ha. unfold clean_char. case_decide; [|done]. rewrite andb_true_iff, !N.leb_le. lia. }
  unfold SetString10. intros Hs.
  destruct (to_bytes s) as [|a l]; [done|].
  destruct (Ascii.eqb_spec a "-") as [->|].
  { constructor; [done|]. destruct (parse_nat10 l) as [v|] eqn:Hl; [|done].
    destruct l as [|b l]; [done|]. by eapply Hd. }
  destruct (Ascii.eqb_spec a "+") as [->|]; [constructor; [done|]; destruct l as [|b l]; [done|]|]; by eapply Hd.
Qed.
Lemma SetString10_trimmed s n : SetString10 s = Some n → TrimSpace s = s.
Proof. intros Hs%SetString10_clean. rewrite <- (of_to_bytes s). by apply TrimSpace_clean. Qed.
