(* ===== verification/Programs.v ===== *)
(** * Programs over calls of any signature

    A service that reaches the outside through calls [E R] (a call that answers
    an [R]) is a program over those calls, as in [Calls] for wallet-core's
    ports: run in a world, interleaved with other programs, or described by
    what it may still do. *)
From S2P Require Import Prelude.

Section programs.
Context {E : Type → Type}.

Inductive program (A : Type) : Type :=
  | Done (a : A)
  | Ask {R : Type} (c : E R) (k : R → program A).
#[global] Arguments Done {A} a.
#[global] Arguments Ask {A R} c k.

Fixpoint program_bind_ {A B} (f : A → program B) (p : program A) : program B :=
  match p with
  | Done a => f a
  | Ask c k => Ask c (λ r, program_bind_ f (k r))
  end.
#[export] Instance program_ret : MRet program := @Done.
#[export] Instance program_bind : MBind program := @program_bind_.

Definition ask {R} (c : E R) : program R := Ask c Done.

(** What answers the calls of a world. *)
Class Answers (W : Type) := answer : ∀ R, E R → W → R * W.
#[global] Arguments answer {W _ R} c w.

Fixpoint runs {W} `{Answers W} {A} (p : program A) (w : W) : A * W :=
  match p with
  | Done a => (a, w)
  | Ask c k => let '(r, w) := answer c w in runs (k r) w
  end.

Lemma runs_bind {W} `{Answers W} {A B} (p : program A) (f : A → program B) (w : W) :
  runs (p ≫= f) w = runs (f (runs p w).1) (runs p w).2.
Proof.
  revert w. induction p as [a|R c k IH]; intros w; cbn; [done|].
  destruct (answer c w) as [r w']. apply IH.
Qed.

(** ** Demands on every call

    [Pre] says when a call may be made, [Post] what an answer teaches: a
    program is [allowed] from a state of knowledge when each of its calls may
    be made with what the answers so far have taught, and [Q] holds of what it
    returns. *)
Section demands.
Context {K : Type}.
Variables (Pre : ∀ R, E R → K → Prop) (Post : ∀ R, E R → R → K → K → Prop).

Fixpoint allowed {A} (Q : A → K → Prop) (p : program A) (k : K) : Prop :=
  match p with
  | Done a => Q a k
  | Ask c f => Pre _ c k ∧ ∀ r k', Post _ c r k k' → allowed Q (f r) k'
  end.

Lemma allowed_bind {A B} (Q : B → K → Prop) (p : program A) (f : A → program B) k :
  allowed (λ a, allowed Q (f a)) p k → allowed Q (p ≫= f) k.
Proof.
  revert k. induction p as [a|R c g IH]; intros k; cbn; [done|]. intros [Hpre Hk].
  split; [done|]. intros r k' Hpost. apply IH. by apply Hk.
Qed.

Lemma allowed_weaken {A} (Q Q' : A → K → Prop) (p : program A) k :
  (∀ a k, Q a k → Q' a k) → allowed Q p k → allowed Q' p k.
Proof.
  intros HQ. revert k. induction p as [a|R c g IH]; intros k; cbn; [apply HQ|]. intros [Hpre Hk].
  split; [done|]. intros r k' Hpost. apply IH. by apply Hk.
Qed.

(** A run in a world that teaches what it should. *)
Lemma runs_allowed {W} `{Answers W} {A} (I : W → K → Prop) (Q : A → K → Prop) (p : program A) w k :
  (∀ R (c : E R) w k, I w k → Pre _ c k → ∃ k', Post _ c (answer c w).1 k k' ∧ I (answer c w).2 k') →
  I w k → allowed Q p k → ∃ k', Q (runs p w).1 k' ∧ I (runs p w).2 k'.
Proof.
  intros Hstep. revert w k. induction p as [a|R c g IH]; intros w k HI; cbn; [by exists k|].
  intros [Hpre Hk]. destruct (Hstep R c w k HI Hpre) as (k' & Hpost & HI').
  destruct (answer c w) as [r w']. cbn in *. by eapply IH; [|apply Hk].
Qed.
End demands.

(** ** The calls of a run, with their answers *)

Inductive happening : Type :=
  | Happened {R : Type} (c : E R) (r : R).

Fixpoint calls_of {W} `{Answers W} {A} (p : program A) (w : W) : list happening :=
  match p with
  | Done a => []
  | Ask c k => let '(r, w) := answer c w in Happened c r :: calls_of (k r) w
  end.

Lemma calls_bind {W} `{Answers W} {A B} (p : program A) (f : A → program B) (w : W) :
  calls_of (p ≫= f) w = calls_of p w ++ calls_of (f (runs p w).1) (runs p w).2.
Proof.
  revert w. induction p as [a|R c k IH]; intros w; cbn; [done|].
  destruct (answer c w) as [r w']. cbn. f_equal. apply IH.
Qed.

(** Knowledge that is the calls made so far. *)
Definition logs R (c : E R) (r : R) (k k' : list happening) : Prop := k' = k ++ [Happened c r].

(** Every call of a run was allowed by the calls before it. *)
Lemma calls_allowed {W} `{Answers W} {A} (Pre : ∀ R, E R → list happening → Prop) Q (p : program A) w k tr1 x tr2 :
  allowed Pre logs Q p k → calls_of p w = tr1 ++ x :: tr2 →
  match x with Happened c _ => Pre _ c (k ++ tr1) end.
Proof.
  revert w k tr1. induction p as [a|R' c' g IH]; intros w k tr1; cbn; [by destruct tr1|].
  intros [Hpre Hk]. destruct (answer c' w) as [r' w'] eqn:Hc. destruct tr1 as [|y tr1]; cbn.
  - intros [= <- _]. by rewrite app_nil_r.
  - intros [= <- Hrest]. specialize (IH r' w' _ tr1 (Hk r' _ eq_refl) Hrest). by rewrite <- app_assoc in IH.
Qed.

(** ** Interleaving: one call of one of the programs at a time *)

Inductive interleave {W} `{Answers W} {A} : list (program A) * W → list (program A) * W → Prop :=
  | interleave_ask i R (c : E R) k ps w :
      ps !! i = Some (Ask c k) →
      interleave (ps, w) (<[i := k (answer c w).1]> ps, (answer c w).2).

(** An invariant that every call of every program keeps is kept by every
    interleaving. *)
Lemma interleave_invariant {W} `{Answers W} {A} (P : program A → Prop) (Inv : W → Prop) ps w ps' w' :
  (∀ R (c : E R) k w, P (Ask c k) → Inv w → Inv (answer c w).2 ∧ P (k (answer c w).1)) →
  rtc interleave (ps, w) (ps', w') → Forall P ps → Inv w → Forall P ps' ∧ Inv w'.
Proof.
  intros Hstep Hr. remember (ps, w) as x eqn:Hx. remember (ps', w') as y eqn:Hy.
  revert ps w Hx. induction Hr as [x|x y' z Hs Hr IH]; intros ps w -> HP HI.
  - by injection Hy as -> ->.
  - inversion Hs as [i R c k ps0 w0 Hi]; subst.
    assert (HPi := Forall_lookup_1 _ _ _ _ HP Hi).
    destruct (Hstep R c k w HPi HI) as [HI' HP'].
    eapply IH; [done|done| |done]. by apply Forall_insert.
Qed.

(** Executing a schedule: which program makes its next call. *)
Fixpoint scheduled {W} `{Answers W} {A} (s : list nat) (ps : list (program A)) (w : W) : list (program A) * W :=
  match s with
  | [] => (ps, w)
  | i :: s =>
      match ps !! i with
      | Some (Ask c k) => scheduled s (<[i := k (answer c w).1]> ps) (answer c w).2
      | _ => scheduled s ps w
      end
  end.

Lemma scheduled_steps {W} `{Answers W} {A} s (ps : list (program A)) (w : W) :
  rtc interleave (ps, w) (scheduled s ps w).
Proof.
  revert ps w. induction s as [|i s IH]; intros ps w; cbn; [done|].
  destruct (ps !! i) as [[a|R c k]|] eqn:Hi; [apply IH| |apply IH].
  eapply rtc_l; [by apply interleave_ask|]. apply IH.
Qed.
End programs.
Arguments program E A : clear implicits.
Arguments Answers E W : clear implicits.
