(* ===== verification/GoJson.v ===== *)
(** * Go's [encoding/json], as far as requests are decoded with it

    The syntax of a JSON text ([parseText], [Unmarshal]'s check of the whole
    input) and decoding into structs: members are matched to field tags
    without regard to case, later members overwrite earlier ones, [null]
    leaves a scalar as it is, and any other mismatch of types is an error.
    Numbers keep their literal, as decoding into an integer reads it. *)
From S2P Require Import Prelude GoStrings GoNumbers.

Inductive doc : Type :=
  | DNull
  | DBool (b : bool)
  | DNum (literal : string)
  | DStr (s : string)
  | DArr (l : list doc)
  | DObj (m : list (string * doc)).

(** ** Strings *)

Definition chr (n : N) : ascii := ascii_of_N n.
Definition is_chr (n : N) (a : ascii) : bool := (N_of_ascii a =? n)%N.
Definition within (lo hi : N) (a : ascii) : bool := ((lo <=? N_of_ascii a) && (N_of_ascii a <=? hi))%N.

(** [utf8.DecodeRune]'s length of the rune at the head, 0 if there is none. *)
Definition rune_len (l : bytes) : nat :=
  match l with
  | [] => 0
  | a :: l1 =>
      if within 0 127 a then 1 else
      match l1 with
      | [] => 0
      | b :: l2 =>
          if within 194 223 a && within 128 191 b then 2 else
          match l2 with
          | [] => 0
          | c :: l3 =>
              if (is_chr 224 a && within 160 191 b || (within 225 236 a || within 238 239 a) && within 128 191 b
                  || is_chr 237 a && within 128 159 b) && within 128 191 c then 3 else
              match l3 with
              | [] => 0
              | d :: _ =>
                  if (is_chr 240 a && within 144 191 b || within 241 243 a && within 128 191 b
                      || is_chr 244 a && within 128 143 b) && within 128 191 c && within 128 191 d then 4 else 0
              end
          end
      end
  end.

(** [utf8.EncodeRune]. *)
Definition rune_bytes (r : N) : bytes :=
  (if r <? 128 then [chr r]
   else if r <? 2048 then [chr (192 + r / 64); chr (128 + r mod 64)]
   else if r <? 65536 then [chr (224 + r / 4096); chr (128 + (r / 64) mod 64); chr (128 + r mod 64)]
   else [chr (240 + r / 262144); chr (128 + (r / 4096) mod 64); chr (128 + (r / 64) mod 64); chr (128 + r mod 64)])%N.

(** [unicode.ReplacementChar]. *)
Definition replacement : N := 65533.

Definition hex4 (a b c d : ascii) : option N :=
  w ← hexDigit a; x ← hexDigit b; y ← hexDigit c; z ← hexDigit d; Some (4096 * w + 256 * x + 16 * y + z)%N.

(** The text of a string literal up to its closing quote, as it is written. *)
Fixpoint raw_string (l : bytes) : option (bytes * bytes) :=
  match l with
  | [] => None
  | a :: l1 =>
      if is_chr 34 a then Some ([], l1)
      else if is_chr 92 a then
        match l1 with
        | [] => None
        | e :: l2 =>
            if existsb (λ n, is_chr n e) [34; 92; 47; 98; 102; 110; 114; 116]%N then
              '(raw, rest) ← raw_string l2; Some (a :: e :: raw, rest)
            else if is_chr 117 e then
              match l2 with
              | h1 :: h2 :: h3 :: h4 :: l6 =>
                  _ ← hex4 h1 h2 h3 h4;
                  '(raw, rest) ← raw_string l6; Some (a :: e :: h1 :: h2 :: h3 :: h4 :: raw, rest)
              | _ => None
              end
            else None
        end
      else if within 0 31 a then None
      else '(raw, rest) ← raw_string l1; Some (a :: raw, rest)
  end.

(** What the escapes of one letter stand for. *)
Definition escape_of (e : ascii) : ascii :=
  if is_chr 98 e then chr 8 else if is_chr 102 e then chr 12 else if is_chr 110 e then chr 10
  else if is_chr 114 e then chr 13 else if is_chr 116 e then chr 9 else e.

(** The text behind a [\u]. *)
Definition after_u (l : bytes) : option (N * bytes) :=
  match l with
  | s :: u :: a :: b :: c :: d :: rest =>
      if is_chr 92 s && is_chr 117 u then r ← hex4 a b c d; Some (r, rest) else None
  | _ => None
  end.

(** [unquoteBytes]: escapes are replaced, and what is no UTF-8 becomes
    [U+FFFD].  Every round takes at least one byte. *)
Fixpoint unquote (fuel : nat) (l : bytes) : bytes :=
  match fuel, l with
  | O, _ | _, [] => []
  | S fuel, a :: l1 =>
      if is_chr 92 a then
        match after_u l with
        | Some (r, rest) =>
            if ((55296 <=? r) && (r <? 57344))%N then
              match after_u rest with
              | Some (r2, rest2) =>
                  if ((r <? 56320) && (56320 <=? r2) && (r2 <? 57344))%N
                  then rune_bytes (65536 + (r - 55296) * 1024 + (r2 - 56320))%N ++ unquote fuel rest2
                  else rune_bytes replacement ++ unquote fuel rest
              | None => rune_bytes replacement ++ unquote fuel rest
              end
            else rune_bytes r ++ unquote fuel rest
        | None => match l1 with e :: l2 => escape_of e :: unquote fuel l2 | [] => [] end
        end
      else
        match rune_len l with
        | O => rune_bytes replacement ++ unquote fuel l1
        | n => take n l ++ unquote fuel (drop n l)
        end
  end.

Definition parse_string (l : bytes) : option (string * bytes) :=
  '(raw, rest) ← raw_string l; Some (of_bytes (unquote (length raw) raw), rest).

(** ** Numbers *)

Fixpoint span_digits (l : bytes) : bytes * bytes :=
  match l with
  | a :: l1 => if within 48 57 a then let '(d, rest) := span_digits l1 in (a :: d, rest) else ([], l)
  | [] => ([], [])
  end.

Definition some_digits (l : bytes) : option (bytes * bytes) :=
  match span_digits l with ([], _) => None | p => Some p end.

Definition parse_int_part (l : bytes) : option (bytes * bytes) :=
  match l with
  | a :: l1 => if is_chr 48 a then Some ([a], l1) else some_digits l
  | [] => None
  end.
Definition parse_fraction (l : bytes) : option (bytes * bytes) :=
  match l with
  | a :: l1 => if is_chr 46 a then '(d, rest) ← some_digits l1; Some (a :: d, rest) else Some ([], l)
  | [] => Some ([], [])
  end.
Definition parse_exponent (l : bytes) : option (bytes * bytes) :=
  match l with
  | a :: l1 =>
      if is_chr 101 a || is_chr 69 a then
        match l1 with
        | s :: l2 =>
            if is_chr 43 s || is_chr 45 s then '(d, rest) ← some_digits l2; Some (a :: s :: d, rest)
            else '(d, rest) ← some_digits l1; Some (a :: d, rest)
        | [] => None
        end
      else Some ([], l)
  | [] => Some ([], [])
  end.

Definition parse_number (l : bytes) : option (string * bytes) :=
  let '(sign, l0) := match l with a :: l1 => if is_chr 45 a then ([a], l1) else ([], l) | [] => ([], []) end in
  '(i, l1) ← parse_int_part l0;
  '(f, l2) ← parse_fraction l1;
  '(e, l3) ← parse_exponent l2;
  Some (of_bytes (sign ++ i ++ f ++ e), l3).

(** ** Values *)

Fixpoint skip_space (l : bytes) : bytes :=
  match l with
  | a :: l1 => if existsb (λ n, is_chr n a) [32; 9; 10; 13]%N then skip_space l1 else l
  | [] => []
  end.

(** The literal [w] at the head. *)
Definition literal (w : string) (l : bytes) : option bytes :=
  if bytes_prefix (to_bytes w) l then Some (drop (length (to_bytes w)) l) else None.

(** [maxNestingDepth]. *)
Definition maxNestingDepth : N := 10000.

(** One value; [depth] objects and arrays are open.  Two calls read at least
    one byte. *)
Fixpoint parse_value (fuel : nat) (depth : N) (l : bytes) : option (doc * bytes) :=
  match fuel with
  | O => None
  | S fuel =>
      match skip_space l with
      | [] => None
      | a :: l1 =>
          if is_chr 123 a then
            if (maxNestingDepth <=? depth)%N then None else
            match skip_space l1 with
            | b :: l2 =>
                if is_chr 125 b then Some (DObj [], l2)
                else '(m, rest) ← parse_members fuel (depth + 1) l1; Some (DObj m, rest)
            | [] => None
            end
          else if is_chr 91 a then
            if (maxNestingDepth <=? depth)%N then None else
            match skip_space l1 with
            | b :: l2 =>
                if is_chr 93 b then Some (DArr [], l2)
                else '(xs, rest) ← parse_elements fuel (depth + 1) l1; Some (DArr xs, rest)
            | [] => None
            end
          else if is_chr 34 a then '(s, rest) ← parse_string l1; Some (DStr s, rest)
          else if is_chr 116 a then rest ← literal "rue" l1; Some (DBool true, rest)
          else if is_chr 102 a then rest ← literal "alse" l1; Some (DBool false, rest)
          else if is_chr 110 a then rest ← literal "ull" l1; Some (DNull, rest)
          else '(n, rest) ← parse_number (a :: l1); Some (DNum n, rest)
      end
  end
with parse_members (fuel : nat) (depth : N) (l : bytes) : option (list (string * doc) * bytes) :=
  match fuel with
  | O => None
  | S fuel =>
      match skip_space l with
      | a :: l1 =>
          if is_chr 34 a then
            '(k, l2) ← parse_string l1;
            match skip_space l2 with
            | c :: l3 =>
                if is_chr 58 c then
                  '(v, l4) ← parse_value fuel depth l3;
                  match skip_space l4 with
                  | e :: l5 =>
                      if is_chr 125 e then Some ([(k, v)], l5)
                      else if is_chr 44 e then '(m, rest) ← parse_members fuel depth l5; Some ((k, v) :: m, rest)
                      else None
                  | [] => None
                  end
                else None
            | [] => None
            end
          else None
      | [] => None
      end
  end
with parse_elements (fuel : nat) (depth : N) (l : bytes) : option (list doc * bytes) :=
  match fuel with
  | O => None
  | S fuel =>
      '(v, l1) ← parse_value fuel depth l;
      match skip_space l1 with
      | e :: l2 =>
          if is_chr 93 e then Some ([v], l2)
          else if is_chr 44 e then '(xs, rest) ← parse_elements fuel depth l2; Some (v :: xs, rest)
          else None
      | [] => None
      end
  end.

Definition parse_fuel (l : bytes) : nat := S (2 * length l).

(** The whole text is one value. *)
Definition parseText (s : string) : option doc :=
  let l := to_bytes s in
  '(v, rest) ← parse_value (parse_fuel l) 0 l;
  match skip_space rest with [] => Some v | _ => None end.

(** ** Decoding into structs *)

(** The members for a field, in the order of the text. *)
Definition members_of (tag : string) (m : list (string * doc)) : list doc :=
  snd <$> List.filter (λ e, EqualFold (fst e) tag) m.

(** Decoding one after the other into what is already there. *)
Fixpoint decode_all {A} (into : A → doc → option A) (cur : A) (l : list doc) : option A :=
  match l with
  | [] => Some cur
  | d :: l => cur ← into cur d; decode_all into cur l
  end.

Definition decode_field {A} (into : A → doc → option A) (zero : A) (tag : string) (m : list (string * doc)) : option A :=
  decode_all into zero (members_of tag m).

Definition into_string (cur : string) (d : doc) : option string :=
  match d with DStr s => Some s | DNull => Some cur | _ => None end.

(** Integers between [lo] and [hi]: the literal has to be one of digits, with
    a sign only where [signed]. *)
Definition into_int (signed : bool) (lo hi : Z) (cur : Z) (d : doc) : option Z :=
  match d with
  | DNum s =>
      if negb signed && HasPrefix s "-" then None else
      v ← SetString10 s; if decide (lo ≤ v ∧ v ≤ hi) then Some v else None
  | DNull => Some cur
  | _ => None
  end.
Definition into_int64 := into_int true int64_min int64_max.
Definition into_uint32 := into_int false 0 (2 ^ 32 - 1).
Definition into_uint64 := into_int false 0 (2 ^ 64 - 1).

(** A slice is its backing array and its length: elements are decoded into
    what the array holds; [null] and an empty array drop it. *)
Fixpoint into_elements {A} (zero : A) (into : A → doc → option A) (backing : list A) (l : list doc) : option (list A) :=
  match l with
  | [] => Some backing
  | d :: l =>
      x ← into (default zero (head backing)) d;
      rest ← into_elements zero into (tail backing) l;
      Some (x :: rest)
  end.
Definition into_slice {A} (zero : A) (into : A → doc → option A) (cur : list A * nat) (d : doc) : option (list A * nat) :=
  match d with
  | DArr [] => Some ([], 0%nat)
  | DArr l => backing ← into_elements zero into (fst cur) l; Some (backing, length l)
  | DNull => Some ([], 0%nat)
  | _ => None
  end.
Definition slice_field {A} (zero : A) (into : A → doc → option A) (tag : string) (m : list (string * doc)) : option (list A) :=
  '(backing, n) ← decode_field (into_slice zero into) ([], 0%nat) tag m; Some (take n backing).

(** Decoding an object into a struct that is already there. *)
Definition into_struct {A} (fields : A → list (string * doc) → option A) (cur : A) (d : doc) : option A :=
  match d with DObj m => fields cur m | DNull => Some cur | _ => None end.

Definition string_field : string → list (string * doc) → option string := decode_field into_string "".
Definition int64_field : string → list (string * doc) → option Z := decode_field into_int64 0.
Definition uint32_field : string → list (string * doc) → option Z := decode_field into_uint32 0.
Definition uint64_field : string → list (string * doc) → option Z := decode_field into_uint64 0.

(** Decoding a text into a struct: [null] leaves it zero. *)
Definition struct_of {A} (fields : list (string * doc) → option A) (d : doc) : option A :=
  match d with
  | DObj m => fields m
  | DNull => fields []
  | _ => None
  end.
Definition Unmarshal {A} (fields : list (string * doc) → option A) (body : string) : option A :=
  d ← parseText body; struct_of fields d.

(** ** Encoding *)

(** Four hexadecimal digits behind a [\u]. *)
Definition u_escape (r : N) : bytes :=
  chr 92 :: chr 117 :: List.map hexChar [r / 4096; (r / 256) mod 16; (r / 16) mod 16; r mod 16]%N.

(** One rune of an encoded string: [<], [>] and [&] are escaped, and so are
    the line separators U+2028 and U+2029. *)
Definition quote_rune (l : bytes) : bytes :=
  match l with
  | [a] =>
      if is_chr 34 a || is_chr 92 a then [chr 92; a]
      else if is_chr 8 a then [chr 92; chr 98] else if is_chr 12 a then [chr 92; chr 102]
      else if is_chr 10 a then [chr 92; chr 110] else if is_chr 13 a then [chr 92; chr 114]
      else if is_chr 9 a then [chr 92; chr 116]
      else if within 0 31 a || is_chr 60 a || is_chr 62 a || is_chr 38 a then u_escape (N_of_ascii a)
      else [a]
  | [a; b; c] =>
      if is_chr 226 a && is_chr 128 b && (is_chr 168 c || is_chr 169 c) then u_escape (8192 + N_of_ascii c - 128)
      else l
  | _ => l
  end.

Fixpoint quote (fuel : nat) (l : bytes) : bytes :=
  match fuel, l with
  | O, _ | _, [] => []
  | S fuel, a :: l1 =>
      match rune_len l with
      | O => u_escape replacement ++ quote fuel l1
      | n => quote_rune (take n l) ++ quote fuel (drop n l)
      end
  end.
Definition print_string (s : string) : bytes :=
  let l := to_bytes s in chr 34 :: quote (length l) l ++ [chr 34].

(** Joining with commas. *)
Fixpoint commas (l : list bytes) : bytes :=
  match l with
  | [] => []
  | [x] => x
  | x :: l => x ++ chr 44 :: commas l
  end.

Fixpoint print_doc (d : doc) : bytes :=
  match d with
  | DNull => to_bytes "null"
  | DBool b => to_bytes (if b then "true" else "false")
  | DNum n => to_bytes n
  | DStr s => print_string s
  | DArr l => chr 91 :: commas (List.map print_doc l) ++ [chr 93]
  | DObj m => chr 123 :: commas (List.map (λ e, print_string (fst e) ++ chr 58 :: print_doc (snd e)) m) ++ [chr 125]
  end.

(** [json.Marshal], and [Encode], which adds a newline. *)
Definition Marshal (d : doc) : string := of_bytes (print_doc d).
Definition Encode (d : doc) : string := of_bytes (print_doc d ++ [chr 10]).

Definition DInt (z : Z) : doc := DNum (BigString z).
(** A field with [omitempty]. *)
Definition unless_empty (tag s : string) : list (string * doc) := if decide (s = "") then [] else [(tag, DStr s)].

(** ** Laws *)

Lemma Unmarshal_fields {A B} (f : list (string * doc) → option A) (g : list (string * doc) → option B) body a b :
  Unmarshal f body = Some a → Unmarshal g body = Some b →
  ∃ m, f m = Some a ∧ g m = Some b ∧ ∀ C (h : list (string * doc) → option C), Unmarshal h body = h m.
Proof.
  unfold Unmarshal. destruct (parseText body) as [d|]; cbn; [|done].
  destruct d; cbn; try done; intros Hf Hg; by eexists.
Qed.

(** * Query strings: [net/url]'s [Values.Get] over [ParseQuery] *)

(** [QueryUnescape]. *)
Fixpoint unescape (l : bytes) : option bytes :=
  match l with
  | [] => Some []
  | a :: l1 =>
      if Ascii.eqb a "%" then
        match l1 with
        | b :: c :: l3 => x ← hexDigit b; y ← hexDigit c; rest ← unescape l3; Some (byte_of (16 * x + y) :: rest)
        | _ => None
        end
      else rest ← unescape l1; Some ((if Ascii.eqb a "+" then " "%char else a) :: rest)
  end.
Definition QueryUnescape (s : string) : option string := of_bytes <$> unescape (to_bytes s).

(** [strings.Cut] at the first [sep]. *)
Fixpoint cut_bytes (sep : ascii) (l : bytes) : bytes * bytes :=
  match l with
  | [] => ([], [])
  | a :: l => if Ascii.eqb a sep then ([], l) else let '(b, c) := cut_bytes sep l in (a :: b, c)
  end.
Definition Cut (s : string) (sep : ascii) : string * string :=
  let '(a, b) := cut_bytes sep (to_bytes s) in (of_bytes a, of_bytes b).

(** One [key=value]; [None] for what is skipped. *)
Definition parsePair (part : string) : option (string * string) :=
  if Contains part ";" then None else
  if decide (part = "") then None else
  let '(key, value) := Cut part "=" in
  key ← QueryUnescape key;
  value ← QueryUnescape value;
  Some (key, value).

Definition ParseQuery (raw : string) : list (string * string) := omap parsePair (Split raw "&").

(** [Get]: the first value of the key. *)
Definition Get (values : list (string * string)) (key : string) : string :=
  match List.find (λ e, bool_decide (fst e = key)) values with Some e => snd e | None => "" end.
Definition QueryGet (raw key : string) : string := Get (ParseQuery raw) key.
