(* ===== verification/GoCodec.v ===== *)
(** * Encodings that are read back

    [encoding/base64]'s [StdEncoding], and the laws of [GoJson]: a flat object
    that was printed is parsed to the members it was printed from. *)
From Stdlib Require Import ZifyN.
From S2P Require Import Prelude GoStrings GoNumbers GoJson.

(** ** base64 *)

Definition char64 (n : N) : ascii :=
  chr (if n <? 26 then 65 + n else if n <? 52 then 71 + n else if n <? 62 then n - 4 else if n =? 62 then 43 else 47)%N.

Definition digit64 (a : ascii) : option N :=
  let n := N_of_ascii a in
  if within 65 90 a then Some (n - 65)%N
  else if within 97 122 a then Some (n - 71)%N
  else if within 48 57 a then Some (n + 4)%N
  else if is_chr 43 a then Some 62%N
  else if is_chr 47 a then Some 63%N
  else None.

(** [EncodeToString]. *)
Fixpoint encode64 (l : bytes) : bytes :=
  match l with
  | [] => []
  | [a] => let x := N_of_ascii a in [char64 (x / 4); char64 (x mod 4 * 16); "="; "="]%char%N
  | [a; b] =>
      let x := N_of_ascii a in let y := N_of_ascii b in
      [char64 (x / 4); char64 (x mod 4 * 16 + y / 16); char64 (y mod 16 * 4); "="]%char%N
  | a :: b :: c :: l =>
      let x := N_of_ascii a in let y := N_of_ascii b in let z := N_of_ascii c in
      char64 (x / 4) :: char64 (x mod 4 * 16 + y / 16) :: char64 (y mod 16 * 4 + z / 64) :: char64 (z mod 64)
      :: encode64 l
  end%N.
Definition EncodeToString (l : bytes) : string := of_bytes (encode64 l).

(** [DecodeString] of what is left without line breaks: groups of four, the
    last one padded; the bits behind the last byte are ignored. *)
Fixpoint decode64 (l : bytes) : option bytes :=
  match l with
  | [] => Some []
  | a :: b :: c :: d :: l =>
      x ← digit64 a; y ← digit64 b;
      let first := chr (x * 4 + y / 16) in
      if Ascii.eqb c "=" then if Ascii.eqb d "=" && bool_decide (l = []) then Some [first] else None else
      z ← digit64 c;
      let second := chr (y mod 16 * 16 + z / 4) in
      if Ascii.eqb d "=" then if bool_decide (l = []) then Some [first; second] else None else
      w ← digit64 d;
      rest ← decode64 l;
      Some (first :: second :: chr (z mod 4 * 64 + w) :: rest)
  | _ => None
  end%N.
Definition DecodeString (s : string) : option bytes :=
  decode64 (List.filter (λ a, negb (is_chr 10 a || is_chr 13 a)) (to_bytes s)).

(** *** The round trip *)

Lemma below_64 (P : N → bool) n : (n < 64)%N → forallb (λ k, P (N.of_nat k)) (seq 0 64) = true → P n = true.
Proof.
  intros Hn Hall. rewrite forallb_forall in Hall. rewrite <- (N2Nat.id n). apply Hall, List.in_seq. lia.
Qed.

(** A character of the alphabet stands for its digit, and is no padding and no
    line break. *)
Definition plain64 (a : ascii) : bool := negb (Ascii.eqb a "=") && negb (is_chr 10 a || is_chr 13 a).
Lemma char64_spec n : (n < 64)%N → digit64 (char64 n) = Some n ∧ plain64 (char64 n) = true.
Proof.
  intros Hn. pose proof (below_64 (λ n, match digit64 (char64 n) with Some m => (m =? n)%N | None => false end
    && plain64 (char64 n)) n Hn eq_refl) as [Hd Hp]%andb_prop.
  split; [|done]. destruct (digit64 (char64 n)) as [m|]; [|done]. f_equal. by apply N.eqb_eq.
Qed.

Lemma byte_N (a : ascii) : (N_of_ascii a < 256)%N.
Proof. apply N_ascii_bounded. Qed.

(** Three bytes, from the end of the list. *)
Lemma three_bytes_ind (P : bytes → Prop) :
  P [] → (∀ a, P [a]) → (∀ a b, P [a; b]) → (∀ a b c l, P l → P (a :: b :: c :: l)) → ∀ l, P l.
Proof.
  intros H0 H1 H2 H3. fix IH 1. intros [|a [|b [|c l]]]; [done|apply H1|apply H2|apply H3, IH].
Qed.

(** The digits of one, two and three bytes. *)
Definition d1 (a : ascii) : N := (N_of_ascii a / 4)%N.
Definition d2 (a b : ascii) : N := (N_of_ascii a mod 4 * 16 + N_of_ascii b / 16)%N.
Definition d3 (b c : ascii) : N := (N_of_ascii b mod 16 * 4 + N_of_ascii c / 64)%N.
Definition d4 (c : ascii) : N := (N_of_ascii c mod 64)%N.

Ltac byte_bounds := repeat match goal with a : ascii |- _ => lazymatch goal with H : (N_of_ascii a < 256)%N |- _ => fail | _ => pose proof (byte_N a) end end.
Ltac byte_arith := byte_bounds; zify; Z.to_euclidean_division_equations; lia.

Lemma digits_small a b : (d1 a < 64 ∧ d2 a b < 64 ∧ d3 a b < 64 ∧ d4 a < 64)%N.
Proof. unfold d1, d2, d3, d4. split_and!; byte_arith. Qed.

Lemma digits_back a b c :
  (d1 a * 4 + d2 a b / 16 = N_of_ascii a ∧ d2 a b mod 16 * 16 + d3 b c / 4 = N_of_ascii b
   ∧ d3 b c mod 4 * 64 + d4 c = N_of_ascii c)%N.
Proof. unfold d1, d2, d3, d4. split_and!; byte_arith. Qed.

Lemma chr_byte a : chr (N_of_ascii a) = a.
Proof. apply ascii_N_embedding. Qed.

(** What holds of the alphabet and of the padding holds of an encoded text. *)
Lemma encode64_all (P : ascii → bool) l :
  (∀ n, (n < 64)%N → P (char64 n) = true) → P "="%char = true → Forall (λ a, P a = true) (encode64 l).
Proof.
  intros Hc Hp.
  assert (∀ a b, (N_of_ascii a mod 4 * 16 < 64 ∧ N_of_ascii b mod 16 * 4 < 64)%N) as Hm by (intros; split; byte_arith).
  induction l as [|a|a b|a b c l IH] using three_bytes_ind; cbn [encode64]; cbv zeta.
  - constructor.
  - destruct (digits_small a a) as (H1 & _), (Hm a a) as [H2 _]. repeat constructor; auto.
  - destruct (digits_small a b) as (H1 & H2 & _), (Hm a b) as [_ H3]. repeat constructor; auto.
  - destruct (digits_small a b) as (H1 & H2 & _), (digits_small b c) as (_ & _ & H3 & _), (digits_small c c) as (_ & _ & _ & H4).
    repeat constructor; auto.
Qed.

Lemma digits_tail a b :
  (N_of_ascii a mod 4 * 16 < 64 ∧ d1 a * 4 + (N_of_ascii a mod 4 * 16) / 16 = N_of_ascii a
   ∧ N_of_ascii b mod 16 * 4 < 64 ∧ d2 a b mod 16 * 16 + (N_of_ascii b mod 16 * 4) / 4 = N_of_ascii b)%N.
Proof. unfold d1, d2. split_and!; byte_arith. Qed.

Lemma decode_encode64 l : decode64 (encode64 l) = Some l.
Proof.
  assert (∀ n, (n < 64)%N → digit64 (char64 n) = Some n) as Hd by (intros n Hn; by apply char64_spec).
  assert (∀ n, (n < 64)%N → Ascii.eqb (char64 n) "=" = false) as He.
  { intros n Hn. destruct (char64_spec n Hn) as [_ Hp]. apply andb_prop in Hp as [Hp _]. by apply negb_true_iff. }
  induction l as [|a|a b|a b c l IH] using three_bytes_ind; cbn [encode64]; cbv zeta; cbn [decode64].
  - done.
  - destruct (digits_small a a) as (H1 & _), (digits_tail a a) as (H2 & B1 & _).
    fold (d1 a). rewrite (Hd _ H1), (Hd _ H2). cbn [mbind option_bind]. cbv zeta. rewrite Ascii.eqb_refl. cbn [andb].
    rewrite bool_decide_eq_true_2 by done. by rewrite B1, chr_byte.
  - destruct (digits_small a b) as (H1 & H2 & _), (digits_back a b b) as (B1 & _), (digits_tail a b) as (_ & _ & H3 & B2).
    fold (d1 a) (d2 a b). rewrite (Hd _ H1), (Hd _ H2), (Hd _ H3), (He _ H3). cbn [mbind option_bind]. cbv zeta.
    rewrite Ascii.eqb_refl, bool_decide_eq_true_2 by done. by rewrite B1, B2, !chr_byte.
  - destruct (digits_small a b) as (H1 & H2 & _), (digits_small b c) as (_ & _ & H3 & _), (digits_small c c) as (_ & _ & _ & H4).
    destruct (digits_back a b c) as (B1 & B2 & B3). fold (d1 a) (d2 a b) (d3 b c) (d4 c).
    rewrite (Hd _ H1), (Hd _ H2), (He _ H3), (He _ H4), (Hd _ H3), (Hd _ H4), IH. cbn [mbind option_bind]. cbv zeta.
    by rewrite B1, B2, B3, !chr_byte.
Qed.

Lemma filter_all {A} (f : A → bool) l : Forall (λ a, f a = true) l → List.filter f l = l.
Proof. induction 1 as [|a l Ha _ IH]; cbn; [done|]. by rewrite Ha, IH. Qed.

Lemma DecodeString_EncodeToString l : DecodeString (EncodeToString l) = Some l.
Proof.
  unfold DecodeString, EncodeToString. rewrite to_of_bytes, filter_all; [apply decode_encode64|].
  apply encode64_all; [|done]. intros n Hn. destruct (char64_spec n Hn) as [_ Hp]. by apply andb_prop in Hp as [_ Hp].
Qed.

(** An encoded text is not trimmed. *)
Lemma TrimSpace_EncodeToString l : TrimSpace (EncodeToString l) = EncodeToString l.
Proof.
  apply TrimSpace_clean, encode64_all; [|done]. intros n Hn. by apply (below_64 (λ n, clean_char (char64 n))).
Qed.

(** ** JSON strings *)

(** The bytes of one rune, and text made of runes. *)
Definition is_rune (r : bytes) : Prop := r ≠ [] ∧ rune_len r = length r.
Definition valid_utf8 (s : string) : Prop := ∃ rs, to_bytes s = concat rs ∧ Forall is_rune rs.

Lemma is_rune_shape r : is_rune r → ∃ a l, r = a :: l ∧ (length l ≤ 3)%nat.
Proof.
  intros [Hne Hl]. destruct r as [|a l]; [done|]. exists a, l. split; [done|].
  cbn [rune_len length] in Hl. repeat case_match; cbn in *; lia.
Qed.

Lemma rune_len_app r x : is_rune r → rune_len (r ++ x) = length r.
Proof.
  intros Hr. pose proof (is_rune_shape r Hr) as (a & l & -> & Hl). destruct Hr as [_ Hr].
  destruct l as [|b [|c [|d [|e l]]]]; cbn [length] in Hl; [..|lia]; cbn [rune_len app length] in *;
    repeat case_match; try done; try discriminate.
Qed.

(** A byte of a longer rune has its high bit set. *)
Definition high (a : ascii) : bool := (128 <=? N_of_ascii a)%N.

Lemma rune_bytes_high r : is_rune r → (1 < length r)%nat → Forall (λ a, high a = true) r.
Proof.
  intros Hr Hlen. pose proof (is_rune_shape r Hr) as (a & l & -> & Hl). destruct Hr as [_ Hr].
  unfold high. destruct l as [|b [|c [|d [|e l]]]]; cbn [length] in Hl, Hlen; [lia|..|lia];
    cbn [rune_len length] in Hr; repeat case_match; try discriminate; unfold within, is_chr in *;
    repeat match goal with H : _ && _ = true |- _ => apply andb_prop in H as [??] | H : _ || _ = true |- _ => apply orb_prop in H as [?|?] end;
    repeat constructor; apply N.leb_le;
    repeat match goal with H : (_ <=? _)%N = true |- _ => apply N.leb_le in H | H : (_ =? _)%N = true |- _ => apply N.eqb_eq in H end; lia.
Qed.

Lemma is_chr_eq n a : is_chr n a = true → a = chr n.
Proof. unfold is_chr, chr. intros <-%N.eqb_eq. by rewrite ascii_N_embedding. Qed.

(** What [raw_string] passes. *)
Definition raw_app (q l : bytes) : Prop :=
  raw_string (q ++ l) = '(raw, rest) ← raw_string l; Some (q ++ raw, rest).

Lemma raw_app_plain a l : is_chr 34 a = false → is_chr 92 a = false → within 0 31 a = false → raw_app [a] l.
Proof. intros H1 H2 H3. unfold raw_app. cbn [app raw_string]. by rewrite H1, H2, H3. Qed.

Lemma raw_app_cons a q l : raw_app [a] (q ++ l) → raw_app q l → raw_app (a :: q) l.
Proof.
  unfold raw_app. cbn [app]. intros -> ->. by destruct (raw_string l) as [[raw rest]|].
Qed.

Lemma raw_app_escape e l : existsb (λ n, is_chr n e) [34; 92; 47; 98; 102; 110; 114; 116]%N = true → raw_app [chr 92; e] l.
Proof. intros He. unfold raw_app. cbn [app raw_string]. rewrite He. by cbn. Qed.

Lemma hex4_escape r : (r < 65536)%N →
  hex4 (hexChar (r / 4096)) (hexChar ((r / 256) mod 16)) (hexChar ((r / 16) mod 16)) (hexChar (r mod 16)) = Some r.
Proof.
  intros Hr. unfold hex4. rewrite !hexDigit_char by (zify; Z.to_euclidean_division_equations; lia). cbn. f_equal.
  zify; Z.to_euclidean_division_equations; lia.
Qed.

Lemma raw_app_u r l : (r < 65536)%N → raw_app (u_escape r) l.
Proof.
  intros Hr. unfold raw_app, u_escape. cbn [List.map app raw_string]. rewrite hex4_escape by done.
  by destruct (raw_string l) as [[raw rest]|].
Qed.

Lemma raw_app_high r l : Forall (λ a, high a = true) r → raw_app r l.
Proof.
  induction 1 as [|a r Ha _ IH]; [by unfold raw_app; cbn; destruct (raw_string l) as [[]|]|].
  apply raw_app_cons; [|exact IH]. unfold high in Ha. apply N.leb_le in Ha.
  apply raw_app_plain; unfold is_chr, within; [by apply N.eqb_neq; lia..|].
  apply andb_false_iff. right. apply N.leb_gt. lia.
Qed.

(** A printed rune is passed as a whole. *)
Lemma raw_app_rune r l : is_rune r → raw_app (quote_rune r) l.
Proof.
  intros Hr. destruct (decide (1 < length r)%nat) as [Hlen|Hlen].
  - pose proof (rune_bytes_high r Hr Hlen) as Hh. unfold quote_rune.
    destruct r as [|a [|b [|c [|]]]]; [by destruct Hr|cbn in Hlen; lia|by apply raw_app_high| |by apply raw_app_high].
    destruct (is_chr 226 a && is_chr 128 b && _) eqn:Hsep; [|by apply raw_app_high].
    apply raw_app_u. byte_bounds. lia.
  - destruct (is_rune_shape r Hr) as (a & l' & -> & _). destruct l' as [|]; [|cbn in Hlen; lia].
    unfold quote_rune. destruct (is_chr 34 a || is_chr 92 a) eqn:H1.
    { apply raw_app_escape. cbn [existsb]. by rewrite orb_assoc, H1. }
    apply orb_false_iff in H1 as [H34 H92].
    destruct (is_chr 8 a); [by apply raw_app_escape|]. destruct (is_chr 12 a); [by apply raw_app_escape|].
    destruct (is_chr 10 a); [by apply raw_app_escape|]. destruct (is_chr 13 a); [by apply raw_app_escape|].
    destruct (is_chr 9 a); [by apply raw_app_escape|]. destruct (within 0 31 a) eqn:Hctl; cbn [orb].
    { apply raw_app_u. byte_bounds. lia. }
    destruct (is_chr 60 a || is_chr 62 a || is_chr 38 a); [apply raw_app_u; byte_bounds; lia|].
    by apply raw_app_plain.
Qed.

Lemma after_u_other e l : is_chr 117 e = false → after_u (chr 92 :: e :: l) = None.
Proof. intros He. unfold after_u. do 4 (destruct l as [|? l]; [done|]). by rewrite He, andb_false_r. Qed.

Lemma unquote_escape fuel e l : is_chr 117 e = false →
  unquote (S fuel) (chr 92 :: e :: l) = escape_of e :: unquote fuel l.
Proof. intros He. cbn [unquote]. by rewrite after_u_other. Qed.

Lemma unquote_u fuel r l : (r < 55296)%N → unquote (S fuel) (u_escape r ++ l) = rune_bytes r ++ unquote fuel l.
Proof.
  intros Hr. unfold u_escape. cbn [List.map app unquote after_u].
  change (is_chr 92 (chr 92)) with true. change (is_chr 117 (chr 117)) with true. cbn [andb].
  rewrite hex4_escape by lia. cbn [mbind option_bind].
  destruct ((55296 <=? r) && (r <? 57344))%N eqn:Hs; [|done].
  apply andb_prop in Hs as [Hs _]. apply N.leb_le in Hs. lia.
Qed.

Lemma unquote_plain fuel r l : is_rune r → is_chr 92 (default zero (head r)) = false →
  unquote (S fuel) (r ++ l) = r ++ unquote fuel l.
Proof.
  intros Hr Ha. pose proof (rune_len_app r l Hr) as Hlen. destruct (is_rune_shape r Hr) as (a & r' & -> & _). cbn in Ha.
  cbn [app unquote]. rewrite Ha. change (a :: r' ++ l) with ((a :: r') ++ l). rewrite Hlen. cbn [length].
  change (Datatypes.S (length r')) with (length (a :: r')). by rewrite take_app_length, drop_app_length.
Qed.

Lemma high_not n a : (n < 128)%N → high a = true → is_chr n a = false.
Proof. unfold high, is_chr. intros Hn Ha%N.leb_le. apply N.eqb_neq. lia. Qed.

(** A printed rune is read as itself. *)
Lemma unquote_rune fuel r l : is_rune r → unquote (S fuel) (quote_rune r ++ l) = r ++ unquote fuel l.
Proof.
  intros Hr. destruct (decide (1 < length r)%nat) as [Hlen|Hlen].
  - pose proof (rune_bytes_high r Hr Hlen) as Hh.
    assert (unquote (S fuel) (r ++ l) = r ++ unquote fuel l) as Hp.
    { apply unquote_plain; [done|]. destruct Hh; [by destruct Hr|]. by apply high_not. }
    unfold quote_rune. destruct r as [|a [|b [|c [|]]]]; [by destruct Hr|cbn in Hlen; lia|exact Hp| |exact Hp].
    destruct (is_chr 226 a && is_chr 128 b && _) eqn:Hsep; [|exact Hp].
    apply andb_prop in Hsep as [[->%is_chr_eq ->%is_chr_eq]%andb_prop Hc].
    apply orb_prop in Hc as [->%is_chr_eq| ->%is_chr_eq]; by rewrite unquote_u.
  - destruct (is_rune_shape r Hr) as (a & l' & -> & _). destruct l' as [|]; [|cbn in Hlen; lia].
    unfold quote_rune. destruct (is_chr 34 a || is_chr 92 a) eqn:H1.
    { apply orb_prop in H1 as [->%is_chr_eq| ->%is_chr_eq]; cbn [app]; by rewrite unquote_escape. }
    apply orb_false_iff in H1 as [H34 H92].
    destruct (is_chr 8 a) eqn:E; [apply is_chr_eq in E as ->; cbn [app]; by rewrite unquote_escape|clear E].
    destruct (is_chr 12 a) eqn:E; [apply is_chr_eq in E as ->; cbn [app]; by rewrite unquote_escape|clear E].
    destruct (is_chr 10 a) eqn:E; [apply is_chr_eq in E as ->; cbn [app]; by rewrite unquote_escape|clear E].
    destruct (is_chr 13 a) eqn:E; [apply is_chr_eq in E as ->; cbn [app]; by rewrite unquote_escape|clear E].
    destruct (is_chr 9 a) eqn:E; [apply is_chr_eq in E as ->; cbn [app]; by rewrite unquote_escape|clear E].
    destruct (within 0 31 a || is_chr 60 a || is_chr 62 a || is_chr 38 a) eqn:Hesc.
    + assert (N_of_ascii a < 128)%N as Hlow.
      { unfold within, is_chr in Hesc. repeat (apply orb_prop in Hesc as [Hesc|Hesc]);
          try (apply andb_prop in Hesc as [_ Hesc]; apply N.leb_le in Hesc); try (apply N.eqb_eq in Hesc); lia. }
      rewrite unquote_u by lia. unfold rune_bytes. rewrite (proj2 (N.ltb_lt _ _) Hlow). by rewrite chr_byte.
    + by apply unquote_plain.
Qed.

(** A printed string is read back, with what follows it. *)
Lemma quote_runes rs fuel : Forall is_rune rs → (length (concat rs) ≤ fuel)%nat →
  quote fuel (concat rs) = concat (quote_rune <$> rs).
Proof.
  intros Hrs. revert fuel. induction Hrs as [|r rs Hr _ IH]; intros fuel Hf; cbn [concat fmap list_fmap]; [by destruct fuel|].
  destruct (is_rune_shape r Hr) as (a & r' & -> & _). cbn [concat] in Hf. rewrite length_app in Hf. cbn [length] in Hf.
  destruct fuel as [|fuel]; [lia|]. pose proof (rune_len_app _ (concat rs) Hr) as Hlen. cbn [app quote].
  change (a :: r' ++ concat rs) with ((a :: r') ++ concat rs). rewrite Hlen. cbn [length].
  change (Datatypes.S (length r')) with (length (a :: r')). rewrite take_app_length, drop_app_length. f_equal. apply IH. lia.
Qed.

Lemma raw_string_runes rs l : Forall is_rune rs →
  raw_string (concat (quote_rune <$> rs) ++ chr 34 :: l) = Some (concat (quote_rune <$> rs), l).
Proof.
  induction 1 as [|r rs Hr _ IH]; [done|]. cbn [fmap list_fmap concat]. rewrite <- app_assoc.
  pose proof (raw_app_rune r (concat (quote_rune <$> rs) ++ chr 34 :: l) Hr) as Ha. unfold raw_app in Ha.
  rewrite Ha. change (list_fmap _ _ quote_rune rs) with (quote_rune <$> rs). by rewrite IH.
Qed.

Lemma unquote_runes rs fuel : Forall is_rune rs → (length rs ≤ fuel)%nat → unquote fuel (concat (quote_rune <$> rs)) = concat rs.
Proof.
  intros Hrs. revert fuel. induction Hrs as [|r rs Hr _ IH]; intros fuel Hf; cbn in *; [by destruct fuel|].
  destruct fuel as [|fuel]; [lia|]. rewrite unquote_rune by done. f_equal. apply IH. lia.
Qed.

Lemma runes_length rs : Forall is_rune rs → (length rs ≤ length (concat (quote_rune <$> rs)))%nat.
Proof.
  induction 1 as [|r rs Hr _ IH]; [done|]. cbn. rewrite length_app.
  assert (quote_rune r ≠ []) as Hq.
  { destruct (is_rune_shape r Hr) as (a & l & -> & _). unfold quote_rune, u_escape. by repeat case_match. }
  destruct (quote_rune r); [done|]. cbn in *. lia.
Qed.

Lemma parse_print_string s l : valid_utf8 s → ∃ q, print_string s ++ l = chr 34 :: q ∧ parse_string q = Some (s, l).
Proof.
  intros (rs & Hs & Hrs). exists (concat (quote_rune <$> rs) ++ chr 34 :: l). split.
  - unfold print_string. rewrite Hs, quote_runes by done. cbn. by rewrite <- app_assoc.
  - unfold parse_string. rewrite raw_string_runes by done. cbn. rewrite unquote_runes; [|done|by apply runes_length].
    rewrite <- Hs. by rewrite of_to_bytes.
Qed.

(** ** JSON numbers *)

Definition is_digit (a : ascii) : bool := within 48 57 a.
(** What may follow a number: nothing that continues it. *)
Definition ends_number (l : bytes) : bool :=
  match l with [] => true | a :: _ => negb (is_digit a || is_chr 46 a || is_chr 101 a || is_chr 69 a) end.

Lemma digit_char_digit d : 0 ≤ d < 10 → is_digit (digit_char d) = true ∧ (is_chr 48 (digit_char d) = true ↔ d = 0).
Proof.
  intros Hd. unfold is_digit, within, is_chr, digit_char. rewrite N_ascii_embedding by lia. rewrite N.eqb_eq.
  split; [apply andb_true_intro; split; apply N.leb_le; lia|lia].
Qed.

(** The digits of a number: a zero in front only alone. *)
Lemma print_digits_shape fuel n acc : 0 ≤ n < 2 ^ Z.of_nat fuel → (0 < fuel)%nat →
  ∃ a ds, print_digits fuel n acc = a :: ds ++ acc ∧ is_digit a = true ∧ Forall (λ a, is_digit a = true) ds
          ∧ (is_chr 48 a = true → n = 0).
Proof.
  revert n acc. induction fuel as [|fuel IH]; intros n acc [Hn Hb] Hf; [lia|]. cbn [print_digits].
  pose proof (Z.mod_pos_bound n 10 ltac:(lia)) as Hm. destruct (digit_char_digit (n mod 10) Hm) as [Hd Hz].
  case_decide as Hq.
  { exists (digit_char (n mod 10)), []. split_and!; [done|done|done|]. intros H0%Hz. pose proof (Z.div_mod n 10). lia. }
  assert (n / 10 < 2 ^ Z.of_nat fuel) as Hb'.
  { rewrite Nat2Z.inj_succ, Z.pow_succ_r in Hb by lia. apply Z.div_lt_upper_bound; lia. }
  assert (0 ≤ n / 10) as Hpos by (apply Z.div_pos; lia).
  assert (0 < fuel)%nat by (destruct fuel; [change (2 ^ Z.of_nat 0) with 1 in *; lia|lia]).
  destruct (IH (n / 10) (digit_char (n mod 10) :: acc)) as (a & ds & Hp & Ha & Hds & H0); [lia..|].
  exists a, (ds ++ [digit_char (n mod 10)]). rewrite Hp, <- app_assoc.
  split_and!; [done|done|by apply Forall_app; repeat constructor|]. intros Hz0. specialize (H0 Hz0). lia.
Qed.

Lemma span_digits_app ds l : Forall (λ a, is_digit a = true) ds → ends_number l = true → span_digits (ds ++ l) = (ds, l).
Proof.
  intros Hds Hl. induction Hds as [|a ds Ha _ IH]; cbn [app span_digits].
  - destruct l as [|a l]; [done|]. cbn in Hl. unfold span_digits.
    destruct (is_digit a) eqn:Ha; [done|]. unfold is_digit in Ha. by rewrite Ha.
  - unfold is_digit in Ha. by rewrite Ha, IH.
Qed.

Lemma parse_no_fraction l : ends_number l = true → parse_fraction l = Some ([], l) ∧ parse_exponent l = Some ([], l).
Proof.
  unfold ends_number. destruct l as [|a l]; [done|]. intros Ha%negb_true_iff. apply orb_false_iff in Ha as [Ha H69].
  apply orb_false_iff in Ha as [Ha H101]. apply orb_false_iff in Ha as [_ H46]. cbn. by rewrite H46, H101, H69.
Qed.

(** A printed number is read as its text. *)
Lemma parse_print_number z l : 0 ≤ z → ends_number l = true →
  parse_number (to_bytes (BigString z) ++ l) = Some (BigString z, l)
  ∧ ∃ a q, to_bytes (BigString z) = a :: q ∧ is_digit a = true.
Proof.
  intros Hz Hl. destruct (parse_no_fraction l Hl) as [Hfr Hex].
  assert (to_bytes (BigString z) = print_digits (print_fuel z) z []) as Hb.
  { unfold BigString. rewrite decide_False by lia. by rewrite to_of_bytes. }
  destruct (print_digits_shape (print_fuel z) z []) as (a & ds & Hp & Ha & Hds & H0);
    [split; [done|by apply print_fuel_ok]|unfold print_fuel; lia|].
  rewrite app_nil_r in Hp. rewrite Hb, Hp. split; [|eauto].
  assert (is_chr 45 a = false) as H45.
  { unfold is_digit, within, is_chr in *. apply andb_prop in Ha as [Ha _]. apply N.leb_le in Ha. apply N.eqb_neq. lia. }
  unfold parse_number. cbn [app]. rewrite H45.
  assert (parse_int_part (a :: ds ++ l) = Some (a :: ds, l)) as Hint.
  { unfold parse_int_part. destruct (is_chr 48 a) eqn:Hz0.
    - rewrite (H0 eq_refl) in Hp. cbn in Hp. injection Hp as _ <-. done.
    - unfold some_digits. change (a :: ds ++ l) with ((a :: ds) ++ l). by rewrite span_digits_app by (done || by constructor). }
  rewrite Hint. cbn [mbind option_bind]. rewrite Hfr. cbn [mbind option_bind]. rewrite Hex. cbn [mbind option_bind].
  cbn [app]. rewrite !app_nil_r, <- Hp, <- Hb. by rewrite of_to_bytes.
Qed.

(** ** Nested documents *)

Lemma doc_induction (P : doc → Prop) :
  P DNull → (∀ b, P (DBool b)) → (∀ n, P (DNum n)) → (∀ s, P (DStr s)) →
  (∀ l, Forall P l → P (DArr l)) → (∀ m, Forall (λ e, P (snd e)) m → P (DObj m)) → ∀ d, P d.
Proof.
  intros Hnull Hbool Hnum Hstr Harr Hobj. fix go 1. intros [|b|n|s|l|m]; [done|done|done|done| |].
  - apply Harr. induction l as [|x l IH]; constructor; [apply go|exact IH].
  - apply Hobj. induction m as [|[k x] m IH]; constructor; [apply go|exact IH].
Qed.

Lemma skip_space_plain a l : existsb (λ n, is_chr n a) [32; 9; 10; 13]%N = false → skip_space (a :: l) = a :: l.
Proof. intros Ha. cbn [skip_space]. by rewrite Ha. Qed.

Definition print_member (e : string * doc) : bytes := print_string (fst e) ++ chr 58 :: print_doc (snd e).

Lemma commas_cons x l : l ≠ [] → commas (x :: l) = x ++ chr 44 :: commas l.
Proof. by destruct l. Qed.

(** What [Marshal] is given: integers and valid strings, in any nesting. *)
Inductive printable : doc → Prop :=
  | printable_null : printable DNull
  | printable_bool b : printable (DBool b)
  | printable_int z : printable (DInt z)
  | printable_str s : valid_utf8 s → printable (DStr s)
  | printable_arr l : Forall printable l → printable (DArr l)
  | printable_obj m : Forall (λ e, valid_utf8 (fst e) ∧ printable (snd e)) m → printable (DObj m).

Fixpoint nesting (d : doc) : nat :=
  match d with
  | DArr l => S (list_max (List.map nesting l))
  | DObj m => S (list_max (List.map (λ e, nesting (snd e)) m))
  | _ => 0
  end.

Lemma list_max_le_in n l x : (list_max l ≤ n)%nat → x ∈ l → (x ≤ n)%nat.
Proof. intros Hn Hx. rewrite List.list_max_le, List.Forall_forall in Hn. by apply Hn, list_elem_of_In. Qed.

Lemma parse_print_int z l : ends_number l = true →
  parse_number (to_bytes (BigString z) ++ l) = Some (BigString z, l)
  ∧ ∃ a q, to_bytes (BigString z) = a :: q ∧ (is_digit a || is_chr 45 a) = true.
Proof.
  intros Hl. destruct (decide (0 ≤ z)) as [Hz|Hz].
  { destruct (parse_print_number z l Hz Hl) as (Hp & a & q & Hb & Ha). split; [done|]. exists a, q. by rewrite Ha. }
  assert (Hs : BigString z = of_bytes (chr 45 :: to_bytes (BigString (- z)))).
  { unfold BigString. rewrite decide_True, decide_False by lia. rewrite to_of_bytes. done. }
  destruct (parse_print_number (- z) l ltac:(lia) Hl) as (Hp & a & q & Hb & Ha).
  assert (H45 : is_chr 45 a = false).
  { unfold is_digit, within, is_chr in *. apply andb_prop in Ha as [Ha _]. apply N.leb_le in Ha. apply N.eqb_neq. lia. }
  rewrite Hs, to_of_bytes. split; [|by eexists _, _]. revert Hp. rewrite Hb. unfold parse_number. cbn [app]. rewrite H45.
  change (is_chr 45 (chr 45)) with true. cbn iota.
  destruct (parse_int_part (a :: q ++ l)) as [[i l1]|]; [|done]. cbn [mbind option_bind].
  destruct (parse_fraction l1) as [[f l2]|]; [|done]. cbn [mbind option_bind].
  destruct (parse_exponent l2) as [[e l3]|]; [|done]. cbn [mbind option_bind app]. intros [= Hx ->].
  apply (f_equal to_bytes) in Hx. rewrite to_of_bytes, Hb in Hx. by rewrite Hx.
Qed.

(** The first byte of a document. *)
Definition starts (a : ascii) : Prop := existsb (λ n, is_chr n a) [32; 9; 10; 13; 93; 125]%N = false.
Lemma print_starts d : printable d → ∃ a q, print_doc d = a :: q ∧ starts a.
Proof.
  intros [| [|] | z | s Hs | l Hl | m Hm]; try (by eexists _, _).
  destruct (parse_print_int z [] eq_refl) as (_ & a & q & Hb & Ha). exists a, q. split; [exact Hb|]. unfold starts.
  cbn [existsb]. unfold is_digit, within, is_chr in *. apply orb_true_iff in Ha as [[H1%N.leb_le H2%N.leb_le]%andb_prop|Ha%N.eqb_eq].
  - rewrite !(proj2 (N.eqb_neq _ _)) by lia. done.
  - by rewrite Ha.
Qed.
Lemma starts_spec a l : starts a → skip_space (a :: l) = a :: l ∧ is_chr 93 a = false ∧ is_chr 125 a = false.
Proof.
  unfold starts. cbn [existsb]. rewrite !orb_false_iff. intros (H1 & H2 & H3 & H4 & H5 & H6 & _). split_and!; [|done..].
  apply skip_space_plain. cbn [existsb]. by rewrite H1, H2, H3, H4.
Qed.

(** Reading a document of any nesting that is allowed, with fuel for it. *)
Definition reads_back (d : doc) : Prop := ∀ fuel depth l,
  (2 * length (print_doc d) ≤ fuel)%nat → (depth + N.of_nat (nesting d) ≤ maxNestingDepth)%N → ends_number l = true →
  parse_value fuel depth (print_doc d ++ l) = Some (d, l).

Lemma parse_elements_read xs fuel depth l :
  xs ≠ [] → Forall printable xs → Forall reads_back xs →
  (2 * length (commas (List.map print_doc xs)) + 1 ≤ fuel)%nat →
  Forall (λ x, (depth + N.of_nat (nesting x) ≤ maxNestingDepth)%N) xs →
  parse_elements fuel depth (commas (List.map print_doc xs) ++ chr 93 :: l) = Some (xs, l).
Proof.
  intros Hne Hp Hr. revert fuel. induction Hr as [|x xs Hx Hr IH]; intros fuel Hf Hd; [done|].
  apply Forall_cons in Hp as [Hpx Hp]. apply Forall_cons in Hd as [Hdx Hd].
  destruct fuel as [|fuel]; [lia|]. cbn [parse_elements]. destruct (decide (xs = [])) as [->|Hxs].
  - cbn [List.map commas] in *. rewrite Hx by (done || lia). cbn [mbind option_bind]. rewrite skip_space_plain by done. done.
  - assert (Hm : List.map print_doc xs ≠ []) by (by destruct xs). cbn [List.map] in *. rewrite commas_cons in * by done.
    rewrite length_app in Hf. cbn [length] in Hf. rewrite <- app_assoc. cbn [app]. rewrite Hx by (done || lia).
    cbn [mbind option_bind]. rewrite skip_space_plain by done. change (is_chr 93 (chr 44)) with false.
    change (is_chr 44 (chr 44)) with true. cbn iota. rewrite IH by (done || lia). done.
Qed.

Lemma parse_members_read m fuel depth l :
  m ≠ [] → Forall (λ e, valid_utf8 (fst e) ∧ printable (snd e)) m → Forall (λ e, reads_back (snd e)) m →
  (2 * length (commas (List.map print_member m)) + 1 ≤ fuel)%nat →
  Forall (λ e, (depth + N.of_nat (nesting (snd e)) ≤ maxNestingDepth)%N) m →
  parse_members fuel depth (commas (List.map print_member m) ++ chr 125 :: l) = Some (m, l).
Proof.
  intros Hne Hp Hr. revert fuel. induction Hr as [|[k v] m Hv Hr IH]; intros fuel Hf Hd; [done|].
  apply Forall_cons in Hp as [[Hk Hpv] Hp]. apply Forall_cons in Hd as [Hdv Hd]. cbn [fst snd] in *.
  destruct fuel as [|fuel]; [lia|].
  assert (∃ tl, commas (List.map print_member ((k, v) :: m)) ++ chr 125 :: l = print_string k ++ chr 58 :: print_doc v ++ tl
    ∧ ends_number tl = true ∧ (2 * length (print_doc v) ≤ fuel)%nat
    ∧ ((m = [] ∧ tl = chr 125 :: l) ∨ (m ≠ [] ∧ tl = chr 44 :: commas (List.map print_member m) ++ chr 125 :: l
         ∧ (2 * length (commas (List.map print_member m)) + 1 ≤ fuel)%nat))) as (tl & -> & Hends & Hfv & Htl).
  { assert (Hlen : length (print_member (k, v)) = (length (print_string k) + S (length (print_doc v)))%nat).
    { unfold print_member. rewrite length_app. done. }
    destruct (decide (m = [])) as [->|Hm].
    - exists (chr 125 :: l). cbn [List.map commas] in *. rewrite Hlen in Hf.
      repeat split; [|lia|by left]. unfold print_member. cbn [fst snd]. by rewrite <- app_assoc.
    - assert (Hm' : List.map print_member m ≠ []) by (by destruct m). cbn [List.map] in *. rewrite commas_cons in * by done.
      rewrite length_app, Hlen in Hf. cbn [length] in Hf.
      exists (chr 44 :: commas (List.map print_member m) ++ chr 125 :: l).
      repeat split; [|lia|right; repeat split; [done|lia]]. unfold print_member at 1. cbn [fst snd]. rewrite <- !app_assoc. cbn [app].
      by rewrite <- ?app_assoc. }
  destruct (parse_print_string k (chr 58 :: print_doc v ++ tl) Hk) as (q & -> & Hq). cbn [parse_members].
  rewrite skip_space_plain by done. change (is_chr 34 (chr 34)) with true. cbn iota. rewrite Hq. cbn [mbind option_bind].
  rewrite skip_space_plain by done. change (is_chr 58 (chr 58)) with true. cbn iota. rewrite Hv by done. cbn [mbind option_bind].
  destruct Htl as [[-> ->]|(Hm0 & -> & Hfm)]; rewrite skip_space_plain by done; [done|].
  change (is_chr 125 (chr 44)) with false. change (is_chr 44 (chr 44)) with true. cbn iota. by rewrite IH.
Qed.

Lemma nesting_max {A} (f : A → nat) depth n l :
  (depth + N.of_nat (S (list_max (List.map f l))) ≤ n)%N → Forall (λ x, (depth + 1 + N.of_nat (f x) ≤ n)%N) l.
Proof.
  intros Hn. apply Forall_forall. intros x Hx.
  pose proof (list_max_le_in _ (List.map f l) (f x) (Nat.le_refl _)) as Hle. specialize (Hle ltac:(by apply list_elem_of_fmap_2)). lia.
Qed.

(** The head of a list that is printed. *)
Lemma commas_head (l : list bytes) (P : ascii → Prop) :
  l ≠ [] → Forall (λ x, ∃ a q, x = a :: q ∧ P a) l → ∃ a q, commas l = a :: q ∧ P a.
Proof.
  intros Hne Hl. destruct Hl as [|x l (a & q & -> & Ha) _]; [done|]. destruct l; cbn [commas app]; eauto.
Qed.

Lemma elements_read xs : Forall printable xs → Forall reads_back xs → reads_back (DArr xs).
Proof.
  intros Hp Hr fuel depth l Hf Hd _. cbn [print_doc nesting] in *. destruct fuel as [|fuel]; [cbn in Hf; lia|].
  cbn [app parse_value]. rewrite skip_space_plain by done. change (is_chr 123 (chr 91)) with false.
  change (is_chr 91 (chr 91)) with true. cbn iota. rewrite (proj2 (N.leb_gt _ _)) by lia.
  destruct (decide (xs = [])) as [->|Hne]; [done|]. rewrite <- app_assoc. cbn [app].
  destruct (commas_head (List.map print_doc xs) starts) as (a & q & Hb & Ha); [by destruct xs| |].
  { apply Forall_map. eapply Forall_impl; [exact Hp|]. intros x Hx. by apply print_starts. }
  pose proof (parse_elements_read xs fuel (depth + 1) l Hne Hp Hr) as Hx. rewrite Hb in *. cbn [app] in *.
  destruct (starts_spec a (q ++ chr 93 :: l) Ha) as (-> & -> & _). rewrite Hx; [done| |by apply nesting_max].
  cbn [length] in *. rewrite length_app in Hf. cbn [length] in Hf. lia.
Qed.

Lemma members_read m :
  Forall (λ e, valid_utf8 (fst e) ∧ printable (snd e)) m → Forall (λ e, reads_back (snd e)) m → reads_back (DObj m).
Proof.
  intros Hp Hr fuel depth l Hf Hd _. cbn [print_doc nesting] in *. change (List.map (λ e, print_string (fst e) ++ chr 58 :: print_doc (snd e)) m) with (List.map print_member m) in *.
  destruct fuel as [|fuel]; [cbn in Hf; lia|].
  cbn [app parse_value]. rewrite skip_space_plain by done. change (is_chr 123 (chr 123)) with true. cbn iota.
  rewrite (proj2 (N.leb_gt _ _)) by lia. destruct (decide (m = [])) as [->|Hne]; [done|]. rewrite <- app_assoc. cbn [app].
  destruct (commas_head (List.map print_member m) (λ a, a = chr 34)) as (a & q & Hb & ->); [by destruct m| |].
  { apply Forall_map, Forall_forall. intros [k v] _. unfold print_member, print_string. cbn [app]. eauto. }
  pose proof (parse_members_read m fuel (depth + 1) l Hne Hp Hr) as Hx. rewrite Hb in *. cbn [app] in *.
  rewrite skip_space_plain by done. change (is_chr 125 (chr 34)) with false. cbn iota. rewrite Hx; [done| |].
  - cbn [length] in *. rewrite length_app in Hf. cbn [length] in Hf. lia.
  - by apply (nesting_max (λ e : string * doc, nesting (snd e))).
Qed.

Lemma printable_reads d : printable d → reads_back d.
Proof.
  induction d as [|b|n|s|xs IH|m IH] using doc_induction; intros Hp.
  5: { inversion Hp as [| | | |? Hxs|]; subst. apply elements_read; [done|]. rewrite Forall_forall in *. auto. }
  5: { inversion Hp as [| | | | |? Hm]; subst. apply members_read; [done|]. rewrite Forall_forall in *. intros e He. apply IH, Hm; done. }
  all: intros fuel depth l Hf Hd Hl;
    (destruct fuel as [|fuel]; [destruct (print_starts _ Hp) as (a & q & Hq & _); rewrite Hq in Hf; cbn in Hf; lia|]).
  - done.
  - by destruct b.
  - inversion Hp; subst. destruct (parse_print_int z l Hl) as (Hn & a & q & Hb & Ha). cbn [print_doc].
    rewrite Hb in Hn |- *. cbn [app parse_value] in Hn |- *.
    assert (∀ k, (k < 45 ∨ k = 46 ∨ k = 47 ∨ 57 < k)%N → is_chr k a = false) as Hne.
    { intros k Hk. unfold is_digit, within, is_chr in *. apply N.eqb_neq.
      apply orb_true_iff in Ha as [[H1%N.leb_le H2%N.leb_le]%andb_prop|Ha%N.eqb_eq]; lia. }
    rewrite skip_space_plain by (cbn [existsb]; rewrite !Hne by lia; done).
    rewrite (Hne 123%N), (Hne 91%N), (Hne 34%N), (Hne 116%N), (Hne 102%N), (Hne 110%N) by lia. cbn iota. by rewrite Hn.
  - inversion Hp; subst. cbn [print_doc]. destruct (parse_print_string s l) as (q & -> & Hq); [done|]. cbn [parse_value].
    rewrite skip_space_plain by done. change (is_chr 34 (chr 34)) with true. cbn iota. by rewrite Hq.
Qed.

(** A document that was printed is parsed to itself. *)
Lemma parseText_Marshal d : printable d → (N.of_nat (nesting d) ≤ maxNestingDepth)%N → parseText (Marshal d) = Some d.
Proof.
  intros Hp Hn. unfold parseText, Marshal. rewrite to_of_bytes.
  pose proof (printable_reads d Hp (parse_fuel (print_doc d)) 0%N []) as Hx. rewrite app_nil_r in Hx.
  rewrite Hx; [done|unfold parse_fuel; lia|lia|done].
Qed.

(** ** Flat objects *)

(** Strings and natural numbers. *)
Inductive flat : doc → Prop :=
  | flat_str s : valid_utf8 s → flat (DStr s)
  | flat_int z : 0 ≤ z → flat (DInt z).
Definition flat_members (m : list (string * doc)) : Prop := Forall (λ e, valid_utf8 (fst e) ∧ flat (snd e)) m.

Lemma flat_printable m : flat_members m → printable (DObj m) ∧ (nesting (DObj m) ≤ 1)%nat.
Proof.
  intros Hm. split.
  - constructor. eapply Forall_impl; [exact Hm|]. intros [k v] [Hk Hv]. split; [done|]. destruct Hv; by constructor.
  - cbn [nesting]. enough (list_max (List.map (λ e, nesting (snd e)) m) ≤ 0)%nat by lia. apply List.list_max_le, Forall_map.
    eapply Forall_impl; [exact Hm|]. intros [k v] [_ Hv]. by destruct Hv.
Qed.

(** A flat object that was printed is parsed to itself. *)
Lemma parse_Marshal m : flat_members m → parseText (Marshal (DObj m)) = Some (DObj m).
Proof. intros [Hp Hn]%flat_printable. apply parseText_Marshal; [done|]. unfold maxNestingDepth. lia. Qed.

Lemma Unmarshal_Marshal {A} (fields : list (string * doc) → option A) m :
  flat_members m → Unmarshal fields (Marshal (DObj m)) = fields m.
Proof. intros Hm. unfold Unmarshal. by rewrite parse_Marshal. Qed.

(** *** JSON in base64 *)

Definition encode64doc (m : list (string * doc)) : string := EncodeToString (to_bytes (Marshal (DObj m))).

Lemma decode_encode64doc {A} (fields : list (string * doc) → option A) m :
  flat_members m → TrimSpace (encode64doc m) = encode64doc m
  ∧ (raw ← DecodeString (encode64doc m); Unmarshal fields (of_bytes raw)) = fields m.
Proof.
  intros Hm. split; [apply TrimSpace_EncodeToString|]. unfold encode64doc. rewrite DecodeString_EncodeToString.
  cbn [mbind option_bind]. rewrite of_to_bytes. by apply Unmarshal_Marshal.
Qed.

(** ** What is read is UTF-8 *)

Lemma valid_utf8_nil : valid_utf8 "".
Proof. by exists []. Qed.

Definition utf8 (l : bytes) : Prop := ∃ rs, l = concat rs ∧ Forall is_rune rs.

Lemma utf8_app r l : is_rune r → utf8 l → utf8 (r ++ l).
Proof. intros Hr (rs & -> & Hrs). exists (r :: rs). split; [done|by constructor]. Qed.

Lemma within_chr lo hi n : (n < 256)%N → within lo hi (chr n) = ((lo <=? n) && (n <=? hi))%N.
Proof. intros Hn. unfold within, chr. by rewrite N_ascii_embedding. Qed.
Lemma is_chr_chr k n : (n < 256)%N → is_chr k (chr n) = (n =? k)%N.
Proof. intros Hn. unfold is_chr, chr. by rewrite N_ascii_embedding. Qed.

(** A check of all numbers below [n]. *)
Lemma all_below (P : N → bool) n k : (k < n)%N → forallb (λ i, P (N.of_nat i)) (seq 0 (N.to_nat n)) = true → P k = true.
Proof. intros Hk Hall. rewrite forallb_forall in Hall. rewrite <- (N2Nat.id k). apply Hall, List.in_seq. lia. Qed.

(** The first two bytes of a rune of three or four decide whether it is one. *)
Lemma rune3 k c : (32 <= k < 864 ∨ 896 <= k < 1024)%N → (128 <= c < 192)%N →
  is_rune [chr (224 + k / 64); chr (128 + k mod 64); chr c].
Proof.
  intros Hk Hc. split; [done|]. cbn [rune_len length].
  pose proof (all_below (λ k, if ((k <? 32) || (864 <=? k) && (k <? 896))%N then true else
    let a := chr (224 + k / 64) in let b := chr (128 + k mod 64) in
    negb (within 0 127 a) && negb (within 194 223 a && within 128 191 b)
    && (is_chr 224 a && within 160 191 b || (within 225 236 a || within 238 239 a) && within 128 191 b
        || is_chr 237 a && within 128 159 b)) 1024 k ltac:(lia) ltac:(vm_compute; reflexivity)) as Ha.
  cbv beta zeta in Ha. replace ((k <? 32)%N || (864 <=? k)%N && (k <? 896)%N) with false in Ha
    by (symmetry; apply orb_false_iff; rewrite andb_false_iff, N.ltb_ge, N.leb_gt, N.ltb_ge; lia).
  apply andb_prop in Ha as [[H1%negb_true_iff H2%negb_true_iff]%andb_prop H3]. rewrite H1, H2, H3.
  rewrite within_chr by lia. by rewrite (proj2 (N.leb_le _ _)), (proj2 (N.leb_le _ _)) by lia.
Qed.

Lemma rune4 k c d : (16 <= k < 272)%N → (128 <= c < 192)%N → (128 <= d < 192)%N →
  is_rune [chr (240 + k / 64); chr (128 + k mod 64); chr c; chr d].
Proof.
  intros Hk Hc Hd. split; [done|]. cbn [rune_len length].
  pose proof (all_below (λ k, if (k <? 16)%N then true else
    let a := chr (240 + k / 64) in let b := chr (128 + k mod 64) in
    negb (within 0 127 a) && negb (within 194 223 a && within 128 191 b)
    && negb (is_chr 224 a && within 160 191 b || (within 225 236 a || within 238 239 a) && within 128 191 b
        || is_chr 237 a && within 128 159 b)
    && (is_chr 240 a && within 144 191 b || within 241 243 a && within 128 191 b || is_chr 244 a && within 128 143 b))
    272 k ltac:(lia) ltac:(vm_compute; reflexivity)) as Ha.
  cbv beta zeta in Ha. rewrite (proj2 (N.ltb_ge k 16)) in Ha by lia.
  apply andb_prop in Ha as [[[H1%negb_true_iff H2%negb_true_iff]%andb_prop H3%negb_true_iff]%andb_prop H4].
  rewrite H1, H2, H3, H4. rewrite !within_chr by lia.
  by rewrite (proj2 (N.leb_le _ c)), (proj2 (N.leb_le c _)), (proj2 (N.leb_le _ d)), (proj2 (N.leb_le d _)) by lia.
Qed.

Lemma rune_bytes_rune r : (r < 55296 ∨ 57344 <= r < 1114112)%N → is_rune (rune_bytes r).
Proof.
  intros Hr. unfold rune_bytes. destruct (r <? 128)%N eqn:H1; [apply N.ltb_lt in H1|apply N.ltb_ge in H1].
  { split; [done|]. cbn [rune_len length]. rewrite within_chr by lia.
    by rewrite (proj2 (N.leb_le _ _)), (proj2 (N.leb_le _ _)) by lia. }
  destruct (r <? 2048)%N eqn:H2; [apply N.ltb_lt in H2|apply N.ltb_ge in H2].
  { assert (2 <= r / 64 < 32)%N by (zify; Z.to_euclidean_division_equations; lia).
    pose proof (N.mod_lt r 64). split; [done|]. cbn [rune_len length]. rewrite !within_chr by lia.
    rewrite (proj2 (N.leb_gt (192 + r / 64) 127)), andb_false_r by lia.
    by rewrite !(proj2 (N.leb_le _ _)) by lia. }
  destruct (r <? 65536)%N eqn:H3; [apply N.ltb_lt in H3|apply N.ltb_ge in H3].
  - replace (r / 4096)%N with (r / 64 / 64)%N by (by rewrite N.Div0.div_div). pose proof (N.mod_lt r 64).
    apply rune3; [|lia]. zify; Z.to_euclidean_division_equations; lia.
  - replace (r / 262144)%N with (r / 4096 / 64)%N by (by rewrite N.Div0.div_div).
    pose proof (N.mod_lt r 64). pose proof (N.mod_lt (r / 64) 64).
    apply rune4; [|lia..]. zify; Z.to_euclidean_division_equations; lia.
Qed.

(** A literal's text as [raw_string] passes it. *)
Inductive raw_ok : bytes → Prop :=
  | raw_nil : raw_ok []
  | raw_plain a l : is_chr 92 a = false → raw_ok l → raw_ok (a :: l)
  | raw_escape e l : existsb (λ n, is_chr n e) [34; 92; 47; 98; 102; 110; 114; 116]%N = true → raw_ok l → raw_ok (chr 92 :: e :: l)
  | raw_u a b c d r l : hex4 a b c d = Some r → raw_ok l → raw_ok (chr 92 :: chr 117 :: a :: b :: c :: d :: l).

Lemma raw_string_ok l : ∀ raw rest, raw_string l = Some (raw, rest) → raw_ok raw.
Proof.
  remember (length l) as n eqn:Hn. assert (length l ≤ n)%nat as Hle by lia. clear Hn. revert l Hle.
  induction n as [|n IH]; intros l Hle raw rest Hx; [by destruct l; [|cbn in Hle; lia]|].
  destruct l as [|a l1]; [done|]. cbn [raw_string length] in Hx, Hle.
  destruct (is_chr 34 a); [injection Hx as <- _; constructor|]. destruct (is_chr 92 a) eqn:H92.
  - apply is_chr_eq in H92 as ->. destruct l1 as [|e l2]; [done|]. cbn [length] in Hle.
    destruct (existsb _ _) eqn:He.
    + destruct (raw_string l2) as [[raw' rest']|] eqn:Hr; [|done]. injection Hx as <- _.
      constructor; [done|]. eapply (IH l2); [lia|done].
    + destruct (is_chr 117 e) eqn:Hu; [|done]. apply is_chr_eq in Hu as ->.
      destruct l2 as [|h1 [|h2 [|h3 [|h4 l6]]]]; [done..|]. cbn [length] in Hle.
      destruct (hex4 h1 h2 h3 h4) as [r|] eqn:Hh; [|done]. cbn in Hx.
      destruct (raw_string l6) as [[raw' rest']|] eqn:Hr; [|done]. injection Hx as <- _.
      econstructor; [done|]. eapply (IH l6); [lia|done].
  - destruct (within 0 31 a); [done|]. destruct (raw_string l1) as [[raw' rest']|] eqn:Hr; [|done]. injection Hx as <- _.
    constructor; [done|]. eapply (IH l1); [lia|done].
Qed.

Lemma hexDigit_below a w : hexDigit a = Some w → (w < 16)%N.
Proof.
  unfold hexDigit. intros Hx. repeat case_match; simplify_eq;
    repeat match goal with H : _ && _ = true |- _ => apply andb_prop in H as [?%N.leb_le ?%N.leb_le] end; lia.
Qed.

Lemma hex4_below a b c d r : hex4 a b c d = Some r → (r < 65536)%N.
Proof.
  unfold hex4. destruct (hexDigit a) eqn:Ha; [|done]. destruct (hexDigit b) eqn:Hb; [|done].
  destruct (hexDigit c) eqn:Hc; [|done]. destruct (hexDigit d) eqn:Hd; [|done]. cbn. intros [= <-].
  apply hexDigit_below in Ha, Hb, Hc, Hd. lia.
Qed.

Lemma ascii_rune a : (N_of_ascii a < 128)%N → is_rune [a].
Proof.
  intros Ha. split; [done|]. cbn [rune_len length]. unfold within.
  by rewrite (proj2 (N.leb_le _ _)), (proj2 (N.leb_le _ _)) by lia.
Qed.

Lemma escape_rune e : existsb (λ n, is_chr n e) [34; 92; 47; 98; 102; 110; 114; 116]%N = true → is_rune [escape_of e].
Proof.
  intros He. apply ascii_rune. unfold escape_of. repeat (case_match; [done|]).
  cbn [existsb] in He. repeat (apply orb_prop in He as [He|He]; [apply N.eqb_eq in He; lia|]). done.
Qed.

(** What follows the rune at the head of a text. *)
Lemma raw_ok_rune a l n : raw_ok (a :: l) → is_chr 92 a = false → rune_len (a :: l) = S n →
  raw_ok (drop n l) ∧ is_rune (a :: take n l).
Proof.
  intros Hok Ha Hn.
  assert (raw_ok l) as Hl by (inversion Hok; subst; [done|discriminate..]).
  assert (is_rune (a :: take n l)) as Hr.
  { split; [done|]. clear Hok Ha Hl. cbn [rune_len] in Hn. destruct l as [|b [|c [|d l]]]; repeat case_match; simplify_eq;
      cbn [take rune_len length]; repeat match goal with H : _ = true |- _ => rewrite H | H : _ = false |- _ => rewrite H end; done. }
  split; [|done].
  assert (Forall (λ b, is_chr 92 b = false) (take n l)) as Hhigh.
  { destruct n as [|n]; [constructor|]. destruct l as [|b l]; [constructor|].
    pose proof (rune_bytes_high _ Hr ltac:(cbn; lia)) as Hh. inversion Hh as [|? ? _ Hh']; subst.
    eapply Forall_impl; [exact Hh'|]. intros x Hx. by apply high_not. }
  clear Hr Hn Hok. revert n Hhigh. induction l as [|b l IH]; intros n Hhigh; [by rewrite drop_nil|].
  destruct n as [|n]; [done|]. cbn [take drop] in *. apply Forall_cons in Hhigh as [Hb Hhigh]. apply IH; [|done].
  inversion Hl; subst; [done|discriminate..].
Qed.

Lemma after_u_ok l r rest : raw_ok l → after_u l = Some (r, rest) → raw_ok rest ∧ (r < 65536)%N ∧ (length rest < length l)%nat.
Proof.
  intros Hok Hu. unfold after_u in Hu. destruct l as [|s [|u [|a [|b [|c [|d l]]]]]]; try done.
  destruct (is_chr 92 s && is_chr 117 u) eqn:Hs; [|done]. apply andb_prop in Hs as [->%is_chr_eq ->%is_chr_eq].
  destruct (hex4 a b c d) as [r'|] eqn:Hh; [|done]. injection Hu as -> ->.
  inversion Hok as [|? ? H1 _|? ? H1 _|]; subst; [discriminate..|].
  split_and!; [done|by eapply hex4_below|cbn; lia].
Qed.

Lemma unquote_utf8 fuel : ∀ l, raw_ok l → utf8 (unquote fuel l).
Proof.
  assert (utf8 []) as Hnil by (by exists []).
  assert (is_rune (rune_bytes replacement)) as Hrep by (by apply rune_bytes_rune; right).
  induction fuel as [|fuel IH]; intros l Hl; [done|]. destruct l as [|a l1]; [done|]. cbn [unquote].
  destruct (is_chr 92 a) eqn:Ha.
  - destruct (after_u (a :: l1)) as [[r rest]|] eqn:Hu.
    + apply after_u_ok in Hu as (Hrest & Hr & _); [|done]. destruct ((55296 <=? r) && (r <? 57344))%N eqn:Hs.
      * apply andb_prop in Hs as [H1%N.leb_le H2%N.ltb_lt]. destruct (after_u rest) as [[r2 rest2]|] eqn:Hu2; [|by apply utf8_app, IH].
        apply after_u_ok in Hu2 as (Hrest2 & Hr2 & _); [|done].
        destruct ((r <? 56320) && (56320 <=? r2) && (r2 <? 57344))%N eqn:Hp; [|by apply utf8_app, IH].
        apply andb_prop in Hp as [[H3%N.ltb_lt H4%N.leb_le]%andb_prop H5%N.ltb_lt].
        apply utf8_app; [|by apply IH]. apply rune_bytes_rune. lia.
      * apply utf8_app; [|by apply IH]. apply rune_bytes_rune. apply andb_false_iff in Hs as [Hs%N.leb_gt|Hs%N.ltb_ge]; lia.
    + apply is_chr_eq in Ha as ->. inversion Hl as [|? ? H1 _|e l2 He Hl2|? ? ? ? r l2 Hh Hl2]; subst; [discriminate|..].
      * apply (utf8_app [escape_of e]); [by apply escape_rune|by apply IH].
      * exfalso. cbn [after_u] in Hu. change (is_chr 92 (chr 92) && is_chr 117 (chr 117)) with true in Hu.
        cbn iota in Hu. by rewrite Hh in Hu.
  - destruct (rune_len (a :: l1)) as [|n] eqn:Hn.
    + apply utf8_app; [done|]. apply IH. inversion Hl; subst; [done|discriminate..].
    + destruct (raw_ok_rune a l1 n Hl Ha Hn) as [Hrest Hr]. cbn [take drop].
      by apply (utf8_app (a :: take n l1)), IH.
Qed.

Lemma parse_string_utf8 l s rest : parse_string l = Some (s, rest) → valid_utf8 s.
Proof.
  unfold parse_string. destruct (raw_string l) as [[raw rest']|] eqn:Hr; [|done]. cbn. intros [= <- _].
  unfold valid_utf8. rewrite to_of_bytes. apply unquote_utf8. by eapply raw_string_ok.
Qed.

Definition utf8_doc (d : doc) : Prop := match d with DStr s => valid_utf8 s | _ => True end.

Lemma parse_value_utf8 fuel depth l d rest : parse_value fuel depth l = Some (d, rest) → utf8_doc d.
Proof.
  destruct fuel as [|fuel]; [done|]. cbn [parse_value]. intros Hx.
  repeat (case_match; try done); cbn in Hx;
    try (apply bind_Some in Hx as ([? ?] & ? & Hx)); try (apply bind_Some in Hx as (? & ? & Hx)); simplify_eq; try done.
  by eapply parse_string_utf8.
Qed.

Lemma parse_members_utf8 fuel depth l m rest :
  parse_members fuel depth l = Some (m, rest) → Forall (λ e, utf8_doc (snd e)) m.
Proof.
  revert depth l m rest. induction fuel as [|fuel IH]; intros depth l m rest; [done|]. cbn [parse_members]. intros Hx.
  destruct (skip_space l) as [|a l1]; [done|]. destruct (is_chr 34 a); [|done].
  apply bind_Some in Hx as ([k l2] & _ & Hx). destruct (skip_space l2) as [|c l3]; [done|]. destruct (is_chr 58 c); [|done].
  apply bind_Some in Hx as ([v l4] & Hv & Hx). apply parse_value_utf8 in Hv.
  destruct (skip_space l4) as [|e l5]; [done|]. destruct (is_chr 125 e); [injection Hx as <- _; by repeat constructor|].
  destruct (is_chr 44 e); [|done]. apply bind_Some in Hx as ([m' rest'] & Hm & Hx). injection Hx as <- _.
  constructor; [done|by eapply IH].
Qed.

Lemma parseText_utf8 s m : parseText s = Some (DObj m) → Forall (λ e, utf8_doc (snd e)) m.
Proof.
  unfold parseText. intros Hx. apply bind_Some in Hx as ([d rest] & Hd & Hx).
  assert (d = DObj m) as -> by (by destruct (skip_space rest); simplify_eq). clear Hx.
  destruct (parse_fuel (to_bytes s)) as [|fuel]; [done|]. cbn [parse_value] in Hd.
  repeat (case_match; try done); cbn in Hd;
    try (apply bind_Some in Hd as ([? ?] & Hm & Hd)); try (apply bind_Some in Hd as (? & ? & Hd)); simplify_eq; try constructor.
  by eapply parse_members_utf8.
Qed.

(** A struct's fields from a text: the members' strings are UTF-8. *)
Lemma Unmarshal_utf8 {A} (fields : list (string * doc) → option A) body a :
  Unmarshal fields body = Some a → ∃ m, fields m = Some a ∧ Forall (λ e, utf8_doc (snd e)) m.
Proof.
  unfold Unmarshal. intros (d & Hd & Hx)%bind_Some. destruct d; try done; cbn in Hx.
  - by exists [].
  - exists m. split; [done|]. by eapply parseText_utf8.
Qed.

Lemma string_field_utf8 tag m s :
  Forall (λ e, utf8_doc (snd e)) m → string_field tag m = Some s → valid_utf8 s.
Proof.
  unfold string_field, decode_field, members_of. intros Hm. assert (valid_utf8 "") as H0 by exact valid_utf8_nil. revert H0.
  generalize "" as cur. induction Hm as [|[k d] m Hd Hm IH]; intros cur Hcur; [by intros [= <-]|].
  cbn [List.filter fst]. destruct (EqualFold k tag); [|by apply IH]. cbn.
  destruct (into_string cur d) as [cur'|] eqn:Hi; [|done]. apply IH.
  destruct d; simplify_eq/=; done.
Qed.

Lemma into_uint64_DInt cur z : 0 ≤ z < 2 ^ 64 → into_uint64 cur (DInt z) = Some z.
Proof.
  intros Hz. unfold into_uint64, DInt, into_int. cbn [negb andb]. destruct (parse_print_number z [] ltac:(lia) eq_refl) as (_ & a & q & Hb & Ha).
  assert (Ascii.eqb "-"%char a = false) as He by (apply Ascii.eqb_neq; intros <-; by vm_compute in Ha).
  assert (HasPrefix (BigString z) "-" = false) as ->.
  { unfold HasPrefix. rewrite Hb. change (Ascii.eqb "-"%char a && bytes_prefix [] q = false). by rewrite He. }
  rewrite SetString_String. cbn. by rewrite decide_True by lia.
Qed.

Lemma uint64_field_range tag m v : uint64_field tag m = Some v → 0 ≤ v < 2 ^ 64.
Proof.
  unfold uint64_field, decode_field. assert (0 ≤ 0 < 2 ^ 64) as H0 by lia. revert H0. generalize 0 at 2 3 4 as cur.
  induction (members_of tag m) as [|d l IH]; intros cur Hcur; [by intros [= <-]|]. cbn [decode_all].
  destruct (into_uint64 cur d) as [cur'|] eqn:Hi; [|done]. apply IH.
  destruct d; simplify_eq/=; [done|]. destruct (HasPrefix _ _); [done|]. destruct (SetString10 _); [|done]. cbn in Hi.
  case_decide; simplify_eq. lia.
Qed.
