(* ===== verification/Ports.v ===== *)
(** * The data that crosses wallet-core's ports

    The structs of [internal/ports/ports.go] that the ledger, the orchestrator
    and the dispatcher exchange.  [int64] fields are integers of [Z]; JSON tags
    and the context argument carry no behaviour and are left out. *)
From S2P Require Import Prelude.

Record SignerRef := { sr_KeyID : string; sr_PublicKey : string }.

Record TxVin := { vin_Hash : string; vin_Index : Z; vin_Amount : Z; vin_Address : string }.
Record TxVout := { vout_Address : string; vout_Amount : Z; vout_Index : Z }.

Record BuildUnsignedParams := {
  bp_Chain : string;
  bp_Network : string;
  bp_Coin : string;
  bp_From : string;
  bp_To : string;
  bp_Amount : string;
  bp_Base64Tx : string;
  bp_ContractAddress : string;
  bp_AmountUnit : string;
  bp_TokenDecimals : Z;
  bp_Fee : string;
  bp_Vin : list TxVin;
  bp_Vout : list TxVout;
}.

Record WithdrawQueueInput := {
  wq_TenantID : string;
  wq_AccountID : string;
  wq_OrderID : string;
  wq_RequiredConfs : Z;
  wq_Signers : list SignerRef;
  wq_SignType : string;
  wq_Tx : BuildUnsignedParams;
}.

Record WithdrawJob := {
  wj_ID : Z;
  wj_TenantID : string;
  wj_AccountID : string;
  wj_OrderID : string;
  wj_TxHash : string;
  wj_RequiredConfs : Z;
  wj_AttemptCount : Z;
  wj_ReplaceCount : Z;
  wj_Signers : list SignerRef;
  wj_SignType : string;
  wj_Tx : BuildUnsignedParams;
}.

Record BuildUnsignedResult := { br_UnsignedTx : string; br_SignHashes : list string }.

Record ChainBalance := { cb_Balance : string; cb_Network : string; cb_Sequence : string }.

Record LedgerStatus := {
  ls_Status : string;
  ls_TxHash : string;
  ls_Reason : string;
  ls_Amount : string;
  ls_QueueStatus : string;
  ls_AttemptCount : Z;
  ls_LastError : string;
}.

Record BalanceSnapshot := {
  bs_Available : string;
  bs_Frozen : string;
  bs_WithdrawLocked : string;
  bs_Withdrawable : string;
}.

Record AccountAsset := {
  aa_Asset : string;
  aa_Available : string;
  aa_Frozen : string;
  aa_WithdrawLocked : string;
  aa_Withdrawable : string;
  aa_VaultAvailable : string;
}.

Record DepositCreditInput := {
  dc_TenantID : string;
  dc_AccountID : string;
  dc_OrderID : string;
  dc_Chain : string;
  dc_Network : string;
  dc_Coin : string;
  dc_Amount : string;
  dc_TxHash : string;
  dc_FromAddress : string;
  dc_ToAddress : string;
  dc_Confirmations : Z;
  dc_RequiredConfs : Z;
  dc_UnlockConfs : Z;
  dc_ScanStatus : string;
  dc_Status : string;
}.

Record SweepCollectInput := {
  sc_TenantID : string;
  sc_FromAccountID : string;
  sc_TreasuryAccountID : string;
  sc_SweepOrderID : string;
  sc_Chain : string;
  sc_Network : string;
  sc_Asset : string;
  sc_Amount : string;
  sc_TxHash : string;
  sc_RequiredConfs : Z;
}.

Record SweepReserveInput := {
  sv_TenantID : string;
  sv_FromAccountID : string;
  sv_TreasuryAccountID : string;
  sv_SweepOrderID : string;
  sv_Chain : string;
  sv_Network : string;
  sv_Asset : string;
  sv_Amount : string;
  sv_RequiredConfs : Z;
}.

Record SweepConfirmInput := {
  sf_TenantID : string;
  sf_SweepOrderID : string;
  sf_TxHash : string;
  sf_Confirmations : Z;
  sf_RequiredConfs : Z;
}.

Record TreasuryTransferReserveInput := {
  tr_TenantID : string;
  tr_TransferOrderID : string;
  tr_FromAccountID : string;
  tr_ToAccountID : string;
  tr_Chain : string;
  tr_Network : string;
  tr_Asset : string;
  tr_Amount : string;
  tr_RequiredConfirmations : Z;
  tr_SourceTier : string;
  tr_DestinationTier : string;
}.

Record TreasuryTransferConfirmInput := {
  tc_TenantID : string;
  tc_TransferOrderID : string;
  tc_TxHash : string;
  tc_Confirmations : Z;
  tc_RequiredConfs : Z;
}.

Record TreasuryTransferStatus := {
  ts_Status : string;
  ts_TxHash : string;
  ts_Reason : string;
  ts_Amount : string;
  ts_FromAccountID : string;
  ts_ToAccountID : string;
  ts_SourceTier : string;
  ts_DestinationTier : string;
  ts_Confirmations : Z;
  ts_RequiredConfs : Z;
}.

Record BroadcastParams := {
  bc_Chain : string;
  bc_Network : string;
  bc_Coin : string;
  bc_RawTx : string;
  bc_UnsignedTx : string;
  bc_Signatures : list string;
  bc_PublicKeys : list string;
}.

Record IdemResult := { ir_State : string; ir_Response : string; ir_RequestID : string }.

Record WalletAccount := {
  wa_TenantID : string;
  wa_AccountID : string;
  wa_AccountTag : string;
  wa_Status : string;
  wa_Remark : string;
  wa_CreatedAt : string;
  wa_UpdatedAt : string;
}.

Record WalletAddress := {
  wd_TenantID : string;
  wd_AccountID : string;
  wd_Model : string;
  wd_Chain : string;
  wd_Coin : string;
  wd_Network : string;
  wd_Address : string;
  wd_KeyID : string;
  wd_PublicKey : string;
  wd_SignType : string;
  wd_AddressType : string;
  wd_DerivationPath : string;
  wd_ChangeIndex : Z;
  wd_AddressIndex : Z;
  wd_Status : string;
  wd_CreatedAt : string;
  wd_UpdatedAt : string;
}.

Record ChainMetadata := {
  cm_Chain : string;
  cm_Network : string;
  cm_Model : string;
  cm_NativeAsset : string;
  cm_MinConfirmations : Z;
  cm_Enabled : bool;
}.

Record ChainPolicy := {
  cp_Chain : string;
  cp_Network : string;
  cp_RequiredConfirmations : Z;
  cp_UnlockConfirmations : Z;
  cp_SafeDepth : Z;
  cp_ReorgWindow : Z;
  cp_FeePolicy : string;
  cp_Enabled : bool;
}.

(** [ports.DerivedKey]: what the key manager answers. *)
Record ManagedKey := {
  mk_KeyID : string;
  mk_PublicKey : string;
  mk_AlternatePublicKey : string;
  mk_DerivationPath : string;
  mk_PublicDerivationSupported : bool;
  mk_AccountPublicKey : string;
  mk_AccountAlternatePublicKey : string;
  mk_AccountChainCode : string;
  mk_AccountDerivationPath : string;
  mk_CustodyScheme : string;
}.

Record WatchAddressInput := {
  wi_TenantID : string;
  wi_AccountID : string;
  wi_Model : string;
  wi_Chain : string;
  wi_Coin : string;
  wi_Network : string;
  wi_Address : string;
  wi_KeyID : string;
  wi_PublicKey : string;
  wi_SignType : string;
  wi_AddressType : string;
  wi_DerivationPath : string;
  wi_ChangeIndex : Z;
  wi_AddressIndex : Z;
  wi_MinConfirmations : Z;
  wi_UnlockConfirmations : Z;
  wi_TreasuryAccountID : string;
  wi_ColdAccountID : string;
  wi_AutoSweep : bool;
  wi_SweepThreshold : string;
  wi_HotBalanceCap : string;
}.

Record PrepareAddressInput := {
  pi_TenantID : string;
  pi_AccountID : string;
  pi_Model : string;
  pi_Chain : string;
  pi_Network : string;
  pi_SignType : string;
  pi_AddressType : string;
}.

Record PreparedAddress := { pa_Address : WalletAddress; pa_Existing : bool }.

#[export] Instance SignerRef_eq : EqDecision SignerRef. Proof. solve_decision. Defined.
#[export] Instance TxVin_eq : EqDecision TxVin. Proof. solve_decision. Defined.
#[export] Instance TxVout_eq : EqDecision TxVout. Proof. solve_decision. Defined.
#[export] Instance BuildUnsignedParams_eq : EqDecision BuildUnsignedParams. Proof. solve_decision. Defined.
#[export] Instance IdemResult_eq : EqDecision IdemResult. Proof. solve_decision. Defined.

#[export] Instance BuildUnsignedParams_rebuild : Rebuild BuildUnsignedParams := λ r,
  {| bp_Chain := bp_Chain r; bp_Network := bp_Network r; bp_Coin := bp_Coin r;
     bp_From := bp_From r; bp_To := bp_To r; bp_Amount := bp_Amount r;
     bp_Base64Tx := bp_Base64Tx r; bp_ContractAddress := bp_ContractAddress r;
     bp_AmountUnit := bp_AmountUnit r; bp_TokenDecimals := bp_TokenDecimals r;
     bp_Fee := bp_Fee r; bp_Vin := bp_Vin r; bp_Vout := bp_Vout r |}.
