(* ===== verification/LedgerTables.v ===== *)
(** * The ledger's tables

    The rows of the tables that [PostgresLedger.ensureSchema] creates, one
    record each, and the database state: every table is a finite map from its
    unique key to the row.  The key columns are in the key only.  The columns
    [id], [created_at] and [updated_at] are kept for [withdraw_jobs], whose
    queries read them; [now] values are microseconds since the epoch.
    JSONB columns hold the decoded value. *)
From S2P Require Import Prelude Ports.

Record freeze_row := {
  fz_account_id : string;
  fz_chain : string;
  fz_network : string;
  fz_asset : string;
  fz_amount : string;
  fz_status : string;
  fz_tx_hash : string;
  fz_reason : string;
  fz_confirmations : Z;
  fz_required_confirmations : Z;
}.

Record entry_row := {
  en_account_id : string;
  en_asset : string;
  en_amount : string;
  en_status : string;
}.

Record balance_row := {
  ba_available : string;
  ba_frozen : string;
  ba_withdraw_locked : string;
}.

Record journal_row := {
  jo_asset : string;
  jo_amount : string;
  jo_balance_after : string;
}.

Record job_row := {
  jb_id : Z;
  jb_account_id : string;
  jb_tx : BuildUnsignedParams;
  jb_signers : list SignerRef;
  jb_sign_type : string;
  jb_required_confirmations : Z;
  jb_status : string;
  jb_tx_hash : string;
  jb_last_error : string;
  jb_attempt_count : Z;
  jb_replacement_count : Z;
  jb_next_retry_at : Z;
  jb_processing_started_at : option Z;
  jb_created_at : Z;
  jb_updated_at : Z;
}.

Record attempt_row := {
  at_order_id : string;
  at_unsigned_tx : string;
  at_status : string;
}.

Record deposit_row := {
  de_account_id : string;
  de_chain : string;
  de_network : string;
  de_coin : string;
  de_amount : string;
  de_tx_hash : string;
  de_from_address : string;
  de_to_address : string;
  de_confirmations : Z;
  de_required_confirmations : Z;
  de_unlock_confirmations : Z;
  de_status : string;
  de_credited : bool;
  de_unlocked : bool;
}.

Record audit_row := {
  au_account_id : string;
  au_chain : string;
  au_network : string;
  au_asset : string;
  au_amount : string;
  au_detail : string;
}.

Record sweep_row := {
  sw_from_account_id : string;
  sw_treasury_account_id : string;
  sw_chain : string;
  sw_network : string;
  sw_asset : string;
  sw_amount : string;
  sw_tx_hash : string;
  sw_reason : string;
  sw_confirmations : Z;
  sw_required_confirmations : Z;
  sw_status : string;
}.

Record transfer_row := {
  tt_from_account_id : string;
  tt_to_account_id : string;
  tt_chain : string;
  tt_network : string;
  tt_asset : string;
  tt_amount : string;
  tt_tx_hash : string;
  tt_reason : string;
  tt_confirmations : Z;
  tt_required_confirmations : Z;
  tt_source_tier : string;
  tt_destination_tier : string;
  tt_status : string;
}.

(** Unique keys: [(tenant_id, order_id)], [(tenant_id, account_id, asset)], ... *)
Abbreviation order_key := (string * string)%type.
Abbreviation account_key := (string * string * string)%type.
Abbreviation entry_key := (string * string * string)%type.
Abbreviation journal_key := (string * string * string * string * string)%type.

Record ledger := {
  ledger_freezes : gmap order_key freeze_row;
  ledger_entries : gmap entry_key entry_row;
  ledger_balances : gmap account_key balance_row;
  ledger_journals : gmap journal_key journal_row;
  withdraw_jobs : gmap order_key job_row;
  withdraw_jobs_id_seq : Z;
  withdraw_tx_attempts : gmap order_key attempt_row;
  deposit_events : gmap order_key deposit_row;
  ledger_audit_events : gmap entry_key audit_row;
  sweep_orders : gmap order_key sweep_row;
  treasury_transfer_orders : gmap order_key transfer_row;
  vault_balances : gmap account_key string;
  vault_journals : gmap journal_key journal_row;
}.

(** The database right after [ensureSchema] on an empty server. *)
Definition empty_ledger : ledger := {|
  ledger_freezes := ∅; ledger_entries := ∅; ledger_balances := ∅; ledger_journals := ∅;
  withdraw_jobs := ∅; withdraw_jobs_id_seq := 1; withdraw_tx_attempts := ∅;
  deposit_events := ∅; ledger_audit_events := ∅; sweep_orders := ∅;
  treasury_transfer_orders := ∅; vault_balances := ∅; vault_journals := ∅;
|}.

(** Record update over the rows and over the state. *)
#[export] Instance freeze_row_rebuild : Rebuild freeze_row := λ r,
  {|  fz_account_id := fz_account_id r; fz_chain := fz_chain r; fz_network := fz_network r;
     fz_asset := fz_asset r; fz_amount := fz_amount r; fz_status := fz_status r;
     fz_tx_hash := fz_tx_hash r; fz_reason := fz_reason r; fz_confirmations :=
     fz_confirmations r; fz_required_confirmations := fz_required_confirmations r |}.
#[export] Instance entry_row_rebuild : Rebuild entry_row := λ r,
  {|  en_account_id := en_account_id r; en_asset := en_asset r; en_amount := en_amount r;
     en_status := en_status r |}.
#[export] Instance balance_row_rebuild : Rebuild balance_row := λ r,
  {|  ba_available := ba_available r; ba_frozen := ba_frozen r; ba_withdraw_locked :=
     ba_withdraw_locked r |}.
#[export] Instance journal_row_rebuild : Rebuild journal_row := λ r,
  {|  jo_asset := jo_asset r; jo_amount := jo_amount r; jo_balance_after :=
     jo_balance_after r |}.
#[export] Instance job_row_rebuild : Rebuild job_row := λ r,
  {|  jb_id := jb_id r; jb_account_id := jb_account_id r; jb_tx := jb_tx r; jb_signers :=
     jb_signers r; jb_sign_type := jb_sign_type r; jb_required_confirmations :=
     jb_required_confirmations r; jb_status := jb_status r; jb_tx_hash := jb_tx_hash r;
     jb_last_error := jb_last_error r; jb_attempt_count := jb_attempt_count r;
     jb_replacement_count := jb_replacement_count r; jb_next_retry_at := jb_next_retry_at
     r; jb_processing_started_at := jb_processing_started_at r; jb_created_at :=
     jb_created_at r; jb_updated_at := jb_updated_at r |}.
#[export] Instance attempt_row_rebuild : Rebuild attempt_row := λ r,
  {|  at_order_id := at_order_id r; at_unsigned_tx := at_unsigned_tx r; at_status :=
     at_status r |}.
#[export] Instance deposit_row_rebuild : Rebuild deposit_row := λ r,
  {|  de_account_id := de_account_id r; de_chain := de_chain r; de_network := de_network r;
     de_coin := de_coin r; de_amount := de_amount r; de_tx_hash := de_tx_hash r;
     de_from_address := de_from_address r; de_to_address := de_to_address r;
     de_confirmations := de_confirmations r; de_required_confirmations :=
     de_required_confirmations r; de_unlock_confirmations := de_unlock_confirmations r;
     de_status := de_status r; de_credited := de_credited r; de_unlocked := de_unlocked r |}.
#[export] Instance audit_row_rebuild : Rebuild audit_row := λ r,
  {|  au_account_id := au_account_id r; au_chain := au_chain r; au_network := au_network r;
     au_asset := au_asset r; au_amount := au_amount r; au_detail := au_detail r |}.
#[export] Instance sweep_row_rebuild : Rebuild sweep_row := λ r,
  {|  sw_from_account_id := sw_from_account_id r; sw_treasury_account_id :=
     sw_treasury_account_id r; sw_chain := sw_chain r; sw_network := sw_network r;
     sw_asset := sw_asset r; sw_amount := sw_amount r; sw_tx_hash := sw_tx_hash r;
     sw_reason := sw_reason r; sw_confirmations := sw_confirmations r;
     sw_required_confirmations := sw_required_confirmations r; sw_status := sw_status r |}.
#[export] Instance transfer_row_rebuild : Rebuild transfer_row := λ r,
  {|  tt_from_account_id := tt_from_account_id r; tt_to_account_id := tt_to_account_id r;
     tt_chain := tt_chain r; tt_network := tt_network r; tt_asset := tt_asset r; tt_amount
     := tt_amount r; tt_tx_hash := tt_tx_hash r; tt_reason := tt_reason r;
     tt_confirmations := tt_confirmations r; tt_required_confirmations :=
     tt_required_confirmations r; tt_source_tier := tt_source_tier r; tt_destination_tier
     := tt_destination_tier r; tt_status := tt_status r |}.
#[export] Instance ledger_rebuild : Rebuild ledger := λ r,
  {|  ledger_freezes := ledger_freezes r; ledger_entries := ledger_entries r;
     ledger_balances := ledger_balances r; ledger_journals := ledger_journals r;
     withdraw_jobs := withdraw_jobs r; withdraw_jobs_id_seq := withdraw_jobs_id_seq r;
     withdraw_tx_attempts := withdraw_tx_attempts r; deposit_events := deposit_events r;
     ledger_audit_events := ledger_audit_events r; sweep_orders := sweep_orders r;
     treasury_transfer_orders := treasury_transfer_orders r; vault_balances :=
     vault_balances r; vault_journals := vault_journals r |}.
