(* ===== verification/LedgerWithdraw.v ===== *)
(** * Withdrawals: [PostgresLedger]'s freeze, confirm, fail and release

    One definition per method of [internal/adapters/ledger/postgres.go]; a
    method is a function from the state before the transaction to the state
    it commits, or an error, which rolls back.  [now] is the transaction's
    [NOW()].  Failures of the connection itself are not modelled: they leave
    the state as it was, like any other error. *)
From S2P Require Import Prelude GoStrings GoNumbers Ports LedgerTables.

(** ** Balances *)

Definition getBalanceTx (tenantID accountID asset : string) (d : ledger) : result BalanceSnapshot :=
  match ledger_balances d !! (tenantID, accountID, asset) with
  | None =>
      Ok {| bs_Available := "0"; bs_Frozen := "0"; bs_WithdrawLocked := "0"; bs_Withdrawable := "0" |}
  | Some b =>
      withdrawable ← computeWithdrawable (ba_available b) (ba_withdraw_locked b);
      Ok {| bs_Available := ba_available b; bs_Frozen := ba_frozen b;
            bs_WithdrawLocked := ba_withdraw_locked b; bs_Withdrawable := withdrawable |}
  end.

Definition upsertBalanceTx (tenantID accountID asset available frozen withdrawLocked : string)
    (d : ledger) : ledger :=
  d <| ledger_balances ::=
        <[(tenantID, accountID, asset) :=
            {| ba_available := available; ba_frozen := frozen; ba_withdraw_locked := withdrawLocked |}]> |>.

(** [INSERT INTO ledger_journals ... ON CONFLICT DO NOTHING] *)
Definition insertJournal (tenantID bizType bizID accountID asset entrySide amt balanceAfter : string)
    (d : ledger) : ledger :=
  d <| ledger_journals ::=
        sql_insert_nothing (tenantID, bizType, bizID, accountID, entrySide)
          {| jo_asset := asset; jo_amount := amt; jo_balance_after := balanceAfter |} |>.

(** [INSERT INTO ledger_entries ... ON CONFLICT DO NOTHING] *)
Definition insertEntry (tenantID accountID orderID asset entryType amt status : string)
    (d : ledger) : ledger :=
  d <| ledger_entries ::=
        sql_insert_nothing (tenantID, orderID, entryType)
          {| en_account_id := accountID; en_asset := asset; en_amount := amt; en_status := status |} |>.

(** [UPDATE ledger_entries SET status ... WHERE entry_type='WITHDRAW_FREEZE'] *)
Definition setFreezeEntryStatus (tenantID orderID status : string) (d : ledger) : ledger :=
  d <| ledger_entries ::=
        sql_update (tenantID, orderID, "WITHDRAW_FREEZE") (λ r, r <| en_status := status |>) |>.

Definition updateFreeze (tenantID orderID : string) (g : freeze_row → freeze_row) (d : ledger) : ledger :=
  d <| ledger_freezes ::= sql_update (tenantID, orderID) g |>.

Definition updateJob (tenantID orderID : string) (g : job_row → job_row) (d : ledger) : ledger :=
  d <| withdraw_jobs ::= sql_update (tenantID, orderID) g |>.

(** [UPDATE withdraw_tx_attempts SET status WHERE tenant_id, order_id, tx_hash] *)
Definition setAttemptStatus (tenantID orderID txHash status : string) (d : ledger) : ledger :=
  d <| withdraw_tx_attempts ::=
        sql_update (tenantID, txHash)
          (λ r, if decide (at_order_id r = orderID) then r <| at_status := status |> else r) |>.

(** ** Freezing *)

(** The transaction after [SELECT status FROM ledger_freezes ... FOR UPDATE]
    found no row (which locks nothing). *)
Definition freezeNewOrder (tenantID accountID orderID chain network asset amt : string)
    (requiredConfs : Z) (d : ledger) : result ledger :=
  current ← getBalanceTx tenantID accountID asset d;
  withdrawable ← computeWithdrawable (bs_Available current) (bs_WithdrawLocked current);
  _ ← subDecimalString withdrawable amt;
  avail ← subDecimalString (bs_Available current) amt;
  frozen ← addDecimalString (bs_Frozen current) amt;
  let d := upsertBalanceTx tenantID accountID asset avail frozen (bs_WithdrawLocked current) d in
  let d := d <| ledger_freezes ::=
        sql_insert_nothing (tenantID, orderID)
          {| fz_account_id := accountID; fz_chain := chain; fz_network := network;
             fz_asset := asset; fz_amount := amt; fz_status := "FROZEN"; fz_tx_hash := "";
             fz_reason := ""; fz_confirmations := 0; fz_required_confirmations := requiredConfs |} |> in
  let d := insertEntry tenantID accountID orderID asset "WITHDRAW_FREEZE" amt "PENDING" d in
  let d := insertJournal tenantID "WITHDRAW" orderID accountID asset "FREEZE" amt avail d in
  Ok d.

Definition freezeWithdrawTx (tenantID accountID orderID chain network asset amt : string)
    (requiredConfs : Z) (d : ledger) : result ledger :=
  if decide (asset = "" ∨ chain = "" ∨ network = "") then
    Err (Errorf "chain/network/asset are required")
  else
  let requiredConfs := if decide (requiredConfs ≤ 0) then 1 else requiredConfs in
  match ledger_freezes d !! (tenantID, orderID) with
  | Some f =>
      if decide (fz_status f = "FROZEN" ∨ fz_status f = "BROADCASTED" ∨ fz_status f = "CONFIRMED")
      then Ok d
      else Err (Errorf ("withdraw order already exists with status=" +:+ fz_status f))
  | None => freezeNewOrder tenantID accountID orderID chain network asset amt requiredConfs d
  end.

Definition FreezeWithdraw (tenantID accountID orderID chain network asset amt : string)
    (requiredConfs : Z) (d : ledger) : result ledger :=
  freezeWithdrawTx tenantID accountID orderID chain network asset amt requiredConfs d.

(** The row a fresh order enters the queue with. *)
Definition newJob (now : Z) (id : Z) (inp : WithdrawQueueInput) : job_row := {|
  jb_id := id;
  jb_account_id := wq_AccountID inp;
  jb_tx := wq_Tx inp;
  jb_signers := wq_Signers inp;
  jb_sign_type := wq_SignType inp;
  jb_required_confirmations := maxInt64 (wq_RequiredConfs inp) 1;
  jb_status := "QUEUED";
  jb_tx_hash := "";
  jb_last_error := "";
  jb_attempt_count := 0;
  jb_replacement_count := 0;
  jb_next_retry_at := now;
  jb_processing_started_at := None;
  jb_created_at := now;
  jb_updated_at := now;
|}.

(** [ON CONFLICT (tenant_id, order_id) DO UPDATE SET ...] *)
Definition requeueJob (now : Z) (inp : WithdrawQueueInput) (r : job_row) : job_row := {|
  jb_id := jb_id r;
  jb_account_id := wq_AccountID inp;
  jb_tx := wq_Tx inp;
  jb_signers := wq_Signers inp;
  jb_sign_type := wq_SignType inp;
  jb_required_confirmations := maxInt64 (wq_RequiredConfs inp) 1;
  jb_status :=
    if decide (jb_status r = "QUEUED" ∨ jb_status r = "PROCESSING"
               ∨ jb_status r = "BROADCASTED" ∨ jb_status r = "DONE")
    then jb_status r else "QUEUED";
  jb_tx_hash := jb_tx_hash r;
  jb_last_error := "";
  jb_attempt_count := jb_attempt_count r;
  jb_replacement_count :=
    if decide (jb_status r = "BROADCASTED" ∨ jb_status r = "DONE")
    then jb_replacement_count r else 0;
  jb_next_retry_at := now;
  jb_processing_started_at := None;
  jb_created_at := jb_created_at r;
  jb_updated_at := now;
|}.

Definition QueueWithdraw (now : Z) (inp : WithdrawQueueInput) (d : ledger) : result ledger :=
  let tx := wq_Tx inp in
  d ← freezeWithdrawTx (wq_TenantID inp) (wq_AccountID inp) (wq_OrderID inp)
        (bp_Chain tx) (bp_Network tx) (bp_Coin tx) (bp_Amount tx) (wq_RequiredConfs inp) d;
  let id := withdraw_jobs_id_seq d in
  Ok (d <| withdraw_jobs_id_seq := id + 1 |>
        <| withdraw_jobs ::=
             sql_upsert (wq_TenantID inp, wq_OrderID inp) (newJob now id inp) (requeueJob now inp) |>).

(** ** Confirming, failing, releasing *)

(** [SET status=..., tx_hash=..., last_error='', processing_started_at=NULL] *)
Definition jobOnChain (now : Z) (status txHash : string) (r : job_row) : job_row :=
  r <| jb_status := status |> <| jb_tx_hash := txHash |> <| jb_last_error := "" |>
    <| jb_processing_started_at := None |> <| jb_updated_at := now |>.

(** [SET status=..., last_error=..., processing_started_at=NULL] *)
Definition jobStopped (now : Z) (status reason : string) (r : job_row) : job_row :=
  r <| jb_status := status |> <| jb_last_error := reason |>
    <| jb_processing_started_at := None |> <| jb_updated_at := now |>.

Definition ConfirmWithdraw (now : Z) (tenantID accountID orderID txHash : string)
    (d : ledger) : result ledger :=
  f ← from_option_err ErrNoRows (ledger_freezes d !! (tenantID, orderID));
  if decide (fz_status f = "BROADCASTED" ∨ fz_status f = "CONFIRMED") then Ok d else
  if decide (fz_status f ≠ "FROZEN") then
    Err (Errorf ("withdraw status invalid for confirm: " +:+ fz_status f))
  else
  let d := updateFreeze tenantID orderID
             (λ r, r <| fz_status := "BROADCASTED" |> <| fz_tx_hash := txHash |>) d in
  let d := updateJob tenantID orderID (jobOnChain now "BROADCASTED" txHash) d in
  Ok d.

Definition ConfirmWithdrawOnChain (now : Z) (tenantID orderID txHash : string)
    (confirmations requiredConfs : Z) (d : ledger) : result ledger :=
  f ← from_option_err ErrNoRows (ledger_freezes d !! (tenantID, orderID));
  let requiredConfs := if decide (requiredConfs ≤ 0) then fz_required_confirmations f else requiredConfs in
  let requiredConfs := if decide (requiredConfs ≤ 0) then 1 else requiredConfs in
  let confirmations := if decide (confirmations < fz_confirmations f) then fz_confirmations f else confirmations in
  if decide (fz_status f = "CONFIRMED") then
    let d := updateFreeze tenantID orderID
               (λ r, r <| fz_confirmations := Z.max (fz_confirmations r) confirmations |>
                       <| fz_required_confirmations := requiredConfs |>) d in
    Ok (setAttemptStatus tenantID orderID txHash "CONFIRMED" d)
  else
  if decide (fz_status f ≠ "BROADCASTED" ∧ fz_status f ≠ "FROZEN") then
    Err (Errorf ("withdraw status invalid for onchain confirm: " +:+ fz_status f))
  else
  if decide (confirmations < requiredConfs) then
    let d := updateFreeze tenantID orderID
               (λ r, r <| fz_status := "BROADCASTED" |> <| fz_tx_hash := txHash |>
                       <| fz_confirmations := Z.max (fz_confirmations r) confirmations |>
                       <| fz_required_confirmations := requiredConfs |>) d in
    let d := updateJob tenantID orderID (jobOnChain now "BROADCASTED" txHash) d in
    Ok (setAttemptStatus tenantID orderID txHash "BROADCASTED" d)
  else
  current ← getBalanceTx tenantID (fz_account_id f) (fz_asset f) d;
  frozen ← subDecimalString (bs_Frozen current) (fz_amount f);
  let d := upsertBalanceTx tenantID (fz_account_id f) (fz_asset f)
             (bs_Available current) frozen (bs_WithdrawLocked current) d in
  let d := updateFreeze tenantID orderID
             (λ r, r <| fz_status := "CONFIRMED" |> <| fz_tx_hash := txHash |>
                     <| fz_confirmations := Z.max (fz_confirmations r) confirmations |>
                     <| fz_required_confirmations := requiredConfs |>) d in
  let d := setFreezeEntryStatus tenantID orderID "DONE" d in
  let d := insertEntry tenantID (fz_account_id f) orderID (fz_asset f) "WITHDRAW_CONFIRM" (fz_amount f) "DONE" d in
  let d := insertJournal tenantID "WITHDRAW" orderID (fz_account_id f) (fz_asset f) "DEBIT"
             (fz_amount f) (bs_Available current) d in
  let d := updateJob tenantID orderID (jobOnChain now "DONE" txHash) d in
  Ok (setAttemptStatus tenantID orderID txHash "CONFIRMED" d).

(** Giving the frozen amount back, shared by [FailWithdrawOnChain] and
    [ReleaseWithdraw]: the balance of [accountID], then the entries.  The first
    passes the order's account, the second the account it was called with. *)
Definition unfreezeBalance (tenantID accountID : string) (f : freeze_row) (d : ledger)
    : result (string * ledger) :=
  current ← getBalanceTx tenantID accountID (fz_asset f) d;
  avail ← addDecimalString (bs_Available current) (fz_amount f);
  frozen ← subDecimalString (bs_Frozen current) (fz_amount f);
  Ok (avail, upsertBalanceTx tenantID accountID (fz_asset f) avail frozen (bs_WithdrawLocked current) d).

Definition cancelEntries (tenantID accountID orderID : string) (f : freeze_row) (d : ledger) : ledger :=
  let d := setFreezeEntryStatus tenantID orderID "CANCELLED" d in
  insertEntry tenantID accountID orderID (fz_asset f) "WITHDRAW_RELEASE" (fz_amount f) "DONE" d.

Definition FailWithdrawOnChain (now : Z) (tenantID orderID txHash reason : string)
    (confirmations : Z) (d : ledger) : result ledger :=
  f ← from_option_err ErrNoRows (ledger_freezes d !! (tenantID, orderID));
  if decide (fz_status f = "RELEASED") then Ok (setAttemptStatus tenantID orderID txHash "FAILED" d) else
  if decide (fz_status f = "CONFIRMED") then Ok (setAttemptStatus tenantID orderID txHash "FAILED" d) else
  if decide (TrimSpace txHash ≠ "" ∧ TrimSpace (fz_tx_hash f) ≠ ""
             ∧ EqualFold (TrimSpace (fz_tx_hash f)) (TrimSpace txHash) = false)
  then Ok (setAttemptStatus tenantID orderID txHash "FAILED" d)
  else
  '(avail, d) ← unfreezeBalance tenantID (fz_account_id f) f d;
  let d := updateFreeze tenantID orderID
             (λ r, r <| fz_status := "RELEASED" |> <| fz_reason := reason |>
                     <| fz_confirmations := Z.max (fz_confirmations r) confirmations |>) d in
  let d := cancelEntries tenantID (fz_account_id f) orderID f d in
  let d := insertJournal tenantID "WITHDRAW" orderID (fz_account_id f) (fz_asset f) "UNFREEZE"
             (fz_amount f) avail d in
  let d := updateJob tenantID orderID (jobStopped now "FAILED" reason) d in
  Ok (setAttemptStatus tenantID orderID txHash "FAILED" d).

Definition ReleaseWithdraw (now : Z) (tenantID accountID orderID reason : string)
    (d : ledger) : result ledger :=
  f ← from_option_err ErrNoRows (ledger_freezes d !! (tenantID, orderID));
  if decide (fz_status f = "RELEASED") then Ok d else
  if decide (fz_status f ≠ "FROZEN" ∧ fz_status f ≠ "BROADCASTED") then
    Err (Errorf ("withdraw status invalid for release: " +:+ fz_status f))
  else
  let d := updateFreeze tenantID orderID
             (λ r, r <| fz_status := "RELEASED" |> <| fz_reason := reason |>) d in
  let d := cancelEntries tenantID accountID orderID f d in
  '(avail, d) ← unfreezeBalance tenantID accountID f d;
  let d := insertJournal tenantID "WITHDRAW" orderID accountID (fz_asset f) "UNFREEZE"
             (fz_amount f) avail d in
  Ok (updateJob tenantID orderID (jobStopped now "RELEASED" reason) d).

(** ** Reading *)

Definition GetWithdrawStatus (tenantID orderID : string) (d : ledger) : result LedgerStatus :=
  f ← from_option_err ErrNoRows (ledger_freezes d !! (tenantID, orderID));
  let job := withdraw_jobs d !! (tenantID, orderID) in
  let queue := default "" (jb_status <$> job) in
  let q := ToUpper (TrimSpace queue) in
  Ok {|
    ls_Status := if decide (fz_status f = "FROZEN" ∧ (q = "QUEUED" ∨ q = "PROCESSING")) then q else fz_status f;
    ls_TxHash := fz_tx_hash f;
    ls_Reason := fz_reason f;
    ls_Amount := fz_amount f;
    ls_QueueStatus := queue;
    ls_AttemptCount := default 0 (jb_attempt_count <$> job);
    ls_LastError := default "" (jb_last_error <$> job);
  |}.

Definition GetBalance (tenantID accountID asset : string) (d : ledger) : result BalanceSnapshot :=
  getBalanceTx tenantID accountID asset d.
