(* ===== verification/LedgerQueue.v ===== *)
(** * The withdraw queue: [PostgresLedger]'s claims and job bookkeeping

    [ClaimQueuedWithdraws] and [ClaimStaleBroadcastedWithdraws] are the two
    [WITH eligible ... picked ... UPDATE ... RETURNING] statements, clause by
    clause.  Postgres' [LOWER] is a parameter of the model; rows locked by a
    concurrent transaction ([FOR UPDATE SKIP LOCKED]) are given by [locked]. *)
From S2P Require Import Prelude GoStrings GoNumbers Ports LedgerTables LedgerWithdraw.

(** Microseconds. *)
Definition millisecond : Z := 1000.
(** [withdrawJobLease], 30 seconds. *)
Definition withdrawJobLease : Z := 30000 * millisecond.

Abbreviation job_entry := (order_key * job_row)%type.

(** ** Query helpers shared by the two claims *)

Section claim.
Context (lower : string → string).

(** [PARTITION BY tenant_id, LOWER(chain), LOWER(network), LOWER(from_address)] *)
Definition sender (e : job_entry) : string * string * string * string :=
  let tx := jb_tx (snd e) in
  (fst (fst e), lower (bp_Chain tx), lower (bp_Network tx), lower (bp_From tx)).

(** [NOT EXISTS (SELECT 1 FROM withdraw_jobs active WHERE same sender AND
    active.order_id <> wj.order_id AND active.status IN (...))] *)
Definition sender_busy (statuses : list string) (jobs : list job_entry) (e : job_entry) : Prop :=
  Exists (λ a, sender a = sender e ∧ snd (fst a) ≠ snd (fst e) ∧ jb_status (snd a) ∈ statuses) jobs.
#[export] Instance sender_busy_dec statuses jobs e : Decision (sender_busy statuses jobs e).
Proof. unfold sender_busy. apply _. Defined.

(** [ORDER BY key, id]: strictly before. *)
Definition row_before (key : job_row → Z) (a b : job_entry) : Prop :=
  key (snd a) < key (snd b) ∨ key (snd a) = key (snd b) ∧ jb_id (snd a) < jb_id (snd b).
Definition row_le (key : job_row → Z) (a b : job_entry) : Prop := ¬ row_before key b a.
#[export] Instance row_before_dec key a b : Decision (row_before key a b).
Proof. unfold row_before. apply _. Defined.
#[export] Instance row_le_dec key a b : Decision (row_le key a b).
Proof. unfold row_le. apply _. Defined.

(** [ROW_NUMBER() OVER (PARTITION BY sender ORDER BY key, id) = 1] *)
Definition first_of_sender (key : job_row → Z) (eligible : list job_entry) (e : job_entry) : Prop :=
  Forall (λ a, sender a = sender e → row_le key e a) eligible.
#[export] Instance first_of_sender_dec key eligible e : Decision (first_of_sender key eligible e).
Proof. unfold first_of_sender. apply _. Defined.

(** [ORDER BY key, id LIMIT limit FOR UPDATE SKIP LOCKED] *)
Definition pick (key : job_row → Z) (locked : order_key → bool) (limit : Z)
    (eligible : list job_entry) : list job_entry :=
  take (Z.to_nat limit)
    (filter (λ e, locked (fst e) = false)
      (merge_sort (row_le key)
        (filter (first_of_sender key eligible) eligible))).

(** [ledger_freezes lf JOIN ... WHERE lf.status = st] *)
Definition freeze_is (d : ledger) (k : order_key) (P : freeze_row → Prop) : Prop :=
  match ledger_freezes d !! k with Some f => P f | None => False end.
#[export] Instance freeze_is_dec d k P `{∀ f, Decision (P f)} : Decision (freeze_is d k P).
Proof. unfold freeze_is. destruct (ledger_freezes d !! k); apply _. Defined.

(** A lease that started [age] ago or earlier; [NULL] compares to nothing. *)
Definition started_before (now age : Z) (j : job_row) : Prop :=
  match jb_processing_started_at j with Some t => t ≤ now - age | None => False end.
#[export] Instance started_before_dec now age j : Decision (started_before now age j).
Proof. unfold started_before. destruct (jb_processing_started_at j); apply _. Defined.

(** The claimed row as the struct [rows.Scan] fills. *)
Definition scanJob (e : job_entry) : WithdrawJob := {|
  wj_ID := jb_id (snd e);
  wj_TenantID := fst (fst e);
  wj_AccountID := jb_account_id (snd e);
  wj_OrderID := snd (fst e);
  wj_TxHash := jb_tx_hash (snd e);
  wj_RequiredConfs := jb_required_confirmations (snd e);
  wj_AttemptCount := jb_attempt_count (snd e);
  wj_ReplaceCount := jb_replacement_count (snd e);
  wj_Signers := jb_signers (snd e);
  wj_SignType := jb_sign_type (snd e);
  wj_Tx := jb_tx (snd e);
|}.

(** [UPDATE withdraw_jobs SET ... FROM picked ... RETURNING ...] *)
Definition claim_rows (g : job_row → job_row) (picked : list job_entry) (d : ledger)
    : list WithdrawJob * ledger :=
  ((λ e, scanJob (fst e, g (snd e))) <$> picked,
   foldr (λ e d, updateJob (fst (fst e)) (snd (fst e)) g d) d picked).

(** *** [ClaimQueuedWithdraws] *)

Definition queued_claimable (now : Z) (d : ledger) (e : job_entry) : Prop :=
  freeze_is d (fst e) (λ f, fz_status f = "FROZEN") ∧
  (jb_status (snd e) = "QUEUED" ∧ jb_next_retry_at (snd e) ≤ now
   ∨ jb_status (snd e) = "PROCESSING" ∧ started_before now withdrawJobLease (snd e)) ∧
  ¬ sender_busy ["PROCESSING"] (map_to_list (withdraw_jobs d)) e.
#[export] Instance queued_claimable_dec now d e : Decision (queued_claimable now d e).
Proof. unfold queued_claimable. apply _. Defined.

Definition startProcessing (now : Z) (r : job_row) : job_row :=
  r <| jb_status := "PROCESSING" |> <| jb_attempt_count ::= Z.succ |>
    <| jb_processing_started_at := Some now |> <| jb_next_retry_at := now |>
    <| jb_updated_at := now |>.

Definition queued_picked (now : Z) (locked : order_key → bool) (limit : Z) (d : ledger)
    : list job_entry :=
  let limit := if decide (limit ≤ 0) then 10 else limit in
  pick jb_created_at locked limit (filter (queued_claimable now d) (map_to_list (withdraw_jobs d))).

Definition ClaimQueuedWithdraws (now : Z) (locked : order_key → bool) (limit : Z) (d : ledger)
    : result (list WithdrawJob * ledger) :=
  Ok (claim_rows (startProcessing now) (queued_picked now locked limit d) d).

(** *** [ClaimStaleBroadcastedWithdraws] *)

Definition evm_chains : list string :=
  ["ethereum"; "binance"; "polygon"; "arbitrum"; "optimism"; "linea"; "scroll"; "mantle"; "zksync"].

Definition stale_claimable (now minAge maxReplacements : Z) (d : ledger) (e : job_entry) : Prop :=
  freeze_is d (fst e) (λ f, fz_status f = "BROADCASTED" ∧ fz_confirmations f = 0) ∧
  lower (bp_Chain (jb_tx (snd e))) ∈ evm_chains ∧
  bp_Base64Tx (jb_tx (snd e)) ≠ "" ∧
  jb_replacement_count (snd e) < maxReplacements ∧
  (jb_status (snd e) = "BROADCASTED" ∧ jb_updated_at (snd e) ≤ now - minAge
   ∨ jb_status (snd e) = "ACCELERATING" ∧ started_before now withdrawJobLease (snd e)) ∧
  ¬ sender_busy ["PROCESSING"; "ACCELERATING"] (map_to_list (withdraw_jobs d)) e.
#[export] Instance stale_claimable_dec now a b d e : Decision (stale_claimable now a b d e).
Proof. unfold stale_claimable. apply _. Defined.

Definition startAccelerating (now : Z) (r : job_row) : job_row :=
  r <| jb_status := "ACCELERATING" |> <| jb_processing_started_at := Some now |>
    <| jb_updated_at := now |>.

(** [minAge] is a [time.Duration]: [int64(minAge/time.Millisecond)]
    milliseconds reach the query. *)
Definition stale_picked (now : Z) (locked : order_key → bool) (limit minAge maxReplacements : Z)
    (d : ledger) : list job_entry :=
  let limit := if decide (limit ≤ 0) then 10 else limit in
  let minAge := if decide (minAge ≤ 0) then 60000000000 else minAge in
  let maxReplacements := if decide (maxReplacements ≤ 0) then 3 else maxReplacements in
  pick jb_updated_at locked limit
    (filter (stale_claimable now (Z.quot minAge 1000000 * millisecond) maxReplacements d)
      (map_to_list (withdraw_jobs d))).

Definition ClaimStaleBroadcastedWithdraws (now : Z) (locked : order_key → bool)
    (limit minAge maxReplacements : Z) (d : ledger) : result (list WithdrawJob * ledger) :=
  Ok (claim_rows (startAccelerating now) (stale_picked now locked limit minAge maxReplacements d) d).
End claim.

(** ** Job bookkeeping *)

(** [INSERT INTO withdraw_tx_attempts ... ON CONFLICT (tenant_id, tx_hash) DO UPDATE] *)
Definition upsertAttempt (tenantID orderID txHash unsignedTx : string) (d : ledger) : ledger :=
  d <| withdraw_tx_attempts ::=
        sql_upsert (tenantID, txHash)
          {| at_order_id := orderID; at_unsigned_tx := unsignedTx; at_status := "BROADCASTED" |}
          (λ r, r <| at_unsigned_tx := unsignedTx |> <| at_status := "BROADCASTED" |>) |>.

Definition setBase64 (unsignedTx : string) (r : job_row) : job_row :=
  r <| jb_tx ::= λ t, t <| bp_Base64Tx := unsignedTx |> |>.

Definition MarkQueuedWithdrawDone (now : Z) (tenantID orderID txHash unsignedTx : string)
    (d : ledger) : result ledger :=
  let d := updateJob tenantID orderID
             (λ r, setBase64 (TrimSpace unsignedTx) (jobOnChain now "BROADCASTED" txHash r)) d in
  Ok (upsertAttempt tenantID orderID txHash (TrimSpace unsignedTx) d).

(** [delay] is a [time.Duration] in nanoseconds. *)
Definition RescheduleQueuedWithdraw (now : Z) (tenantID orderID reason : string) (delay : Z)
    (d : ledger) : result ledger :=
  let delay := if decide (delay < 0) then 0 else delay in
  Ok (updateJob tenantID orderID
        (λ r, jobStopped now "QUEUED" reason r
                <| jb_next_retry_at := now + Z.quot delay 1000000 * millisecond |>) d).

Definition MarkQueuedWithdrawFailed (now : Z) (tenantID orderID reason : string)
    (d : ledger) : result ledger :=
  Ok (updateJob tenantID orderID (jobStopped now "FAILED" reason) d).

Definition ReplaceBroadcastedWithdraw (now : Z)
    (tenantID orderID oldTxHash newTxHash unsignedTx : string) (d : ledger) : result ledger :=
  let d := updateFreeze tenantID orderID
             (λ r, if decide (fz_status r = "BROADCASTED") then r <| fz_tx_hash := newTxHash |> else r) d in
  let d := updateJob tenantID orderID
             (λ r, setBase64 (TrimSpace unsignedTx) (jobOnChain now "BROADCASTED" newTxHash r)
                     <| jb_replacement_count ::= Z.succ |>) d in
  let d := if decide (TrimSpace oldTxHash ≠ "") then
             d <| withdraw_tx_attempts ::=
                   sql_update (tenantID, oldTxHash)
                     (λ r, if decide (at_order_id r = orderID ∧ at_status r = "BROADCASTED")
                           then r <| at_status := "REPLACED" |> else r) |>
           else d in
  Ok (upsertAttempt tenantID orderID newTxHash (TrimSpace unsignedTx) d).

Definition ResetBroadcastedWithdraw (now : Z) (tenantID orderID reason : string)
    (d : ledger) : result ledger :=
  Ok (updateJob tenantID orderID (jobStopped now "BROADCASTED" reason) d).

(** * What a claim takes from the queue

    A claim takes at most [limit] rows, each claimable, one per sender, and
    something whenever something is claimable and not locked. *)

Section claims.
Context (lower : string → string).
Implicit Types (d : ledger) (e : job_entry) (key : job_row → Z).

Definition unique_ids (d : ledger) : Prop :=
  ∀ k1 k2 j1 j2, withdraw_jobs d !! k1 = Some j1 → withdraw_jobs d !! k2 = Some j2 →
    jb_id j1 = jb_id j2 → k1 = k2.

(** At most one job per sender has a status in [sts]. *)
Definition one_per_sender (sts : list string) (d : ledger) : Prop :=
  ∀ k1 k2 j1 j2, withdraw_jobs d !! k1 = Some j1 → withdraw_jobs d !! k2 = Some j2 →
    jb_status j1 ∈ sts → jb_status j2 ∈ sts → sender lower (k1, j1) = sender lower (k2, j2) → k1 = k2.

(** ** [pick] *)

Lemma elem_of_pick key locked limit eligible e :
  e ∈ pick lower key locked limit eligible →
  e ∈ eligible ∧ first_of_sender lower key eligible e ∧ locked (fst e) = false.
Proof.
  unfold pick. intros (i & He & _)%elem_of_take. apply list_elem_of_lookup_2 in He.
  apply list_elem_of_filter in He as [Hl He].
  rewrite merge_sort_Permutation in He. apply list_elem_of_filter in He as [? ?]. done.
Qed.

Lemma pick_NoDup key locked limit eligible :
  NoDup eligible → NoDup (pick lower key locked limit eligible).
Proof.
  intros H. unfold pick. eapply sublist_NoDup; [|apply sublist_take].
  apply NoDup_filter. rewrite merge_sort_Permutation. by apply NoDup_filter.
Qed.

Lemma pick_length key locked limit eligible :
  0 ≤ limit → Z.of_nat (length (pick lower key locked limit eligible)) ≤ limit.
Proof. intros H. unfold pick. rewrite length_take. lia. Qed.

(** The first row of the table order is the first of its sender. *)
Lemma exists_first key (l : list job_entry) :
  l ≠ [] → ∃ e, e ∈ l ∧ Forall (λ a, row_le key e a) l.
Proof.
  induction l as [|a l IH]; [done|]. intros _.
  destruct l as [|b l]; [exists a; split; [left|]|].
  { constructor; [unfold row_le, row_before; lia|done]. }
  destruct IH as (e & He & Hall); [done|].
  destruct (decide (row_le key e a)) as [Hle|Hle].
  - exists e. split; [by right|by constructor].
  - exists a. split; [left|]. constructor; [unfold row_le, row_before; lia|].
    eapply Forall_impl; [exact Hall|]. intros x Hx. unfold row_le, row_before in *; cbn in *. lia.
Qed.

Lemma pick_progress key limit eligible :
  0 < limit → eligible ≠ [] → pick lower key (λ _, false) limit eligible ≠ [].
Proof.
  intros Hl Hne Hp. destruct (exists_first key eligible Hne) as (e & He & Hall).
  assert (Hin : e ∈ filter (λ x : job_entry, false = false)
                  (merge_sort (row_le key) (filter (first_of_sender lower key eligible) eligible))).
  { apply list_elem_of_filter. split; [done|]. rewrite merge_sort_Permutation. apply list_elem_of_filter.
    split; [|done]. eapply Forall_impl; [exact Hall|]. done. }
  unfold pick in Hp. destruct (filter _ _) as [|x l]; [by apply elem_of_nil in Hin|].
  destruct (Z.to_nat limit) eqn:Hz; [lia|done].
Qed.

(** ** [claim_rows] *)

Lemma claim_rows_lookup g picked d k :
  NoDup picked.*1 →
  withdraw_jobs (claim_rows g picked d).2 !! k =
  if decide (k ∈ picked.*1) then g <$> withdraw_jobs d !! k else withdraw_jobs d !! k.
Proof.
  unfold claim_rows; cbn [snd]. induction picked as [|e picked IH]; intros Hnd.
  { rewrite decide_False; [done|]. apply not_elem_of_nil. }
  cbn [foldr fmap list_fmap] in *. apply NoDup_cons in Hnd as [Hnin Hnd].
  unfold updateJob at 1; unfold update; cbn [withdraw_jobs].
  rewrite sql_update_lookup, <- surjective_pairing. destruct (decide (e.1 = k)) as [Hk|Hk].
  - subst k. rewrite (decide_True (P := _ ∈ _ :: _)) by left. rewrite IH by done. by rewrite decide_False.
  - rewrite IH by done. destruct (decide (k ∈ picked.*1)) as [Hin|Hin].
    + by rewrite (decide_True (P := _ ∈ _ :: _)) by by right.
    + rewrite (decide_False (P := _ ∈ _ :: _)); [done|]. intros [?|?]%elem_of_cons; done.
Qed.

(** Rows picked from those of the table satisfying [P]. *)
Definition picked_from (P : job_entry → Prop) `{!∀ e, Decision (P e)} key locked limit d : list job_entry :=
  pick lower key locked limit (filter P (map_to_list (withdraw_jobs d))).

Section picked.
Context (P : job_entry → Prop) `{!∀ e, Decision (P e)} (key : job_row → Z)
  (locked : order_key → bool) (limit : Z) (d : ledger).

Lemma picked_spec e :
  e ∈ picked_from P key locked limit d →
  withdraw_jobs d !! fst e = Some (snd e) ∧ P e ∧ locked (fst e) = false
  ∧ first_of_sender lower key (filter P (map_to_list (withdraw_jobs d))) e.
Proof.
  intros (He & Hf & Hl)%elem_of_pick. apply list_elem_of_filter in He as [HP He].
  destruct e as [k j]. by apply elem_of_map_to_list in He.
Qed.

Lemma picked_NoDup : NoDup (picked_from P key locked limit d).*1.
Proof.
  apply NoDup_fmap_2_strong.
  - intros [k1 j1] [k2 j2] H1%picked_spec H2%picked_spec. cbn. intros ->.
    destruct H1 as [H1 _], H2 as [H2 _]. cbn in *. congruence.
  - apply pick_NoDup, NoDup_filter, NoDup_map_to_list.
Qed.

Lemma picked_in k : k ∈ (picked_from P key locked limit d).*1 →
  ∃ j, withdraw_jobs d !! k = Some j ∧ P (k, j)
       ∧ first_of_sender lower key (filter P (map_to_list (withdraw_jobs d))) (k, j).
Proof.
  intros ([k' j] & -> & Hj)%list_elem_of_fmap. apply picked_spec in Hj as (? & ? & _ & ?).
  by exists j.
Qed.

(** Two picked rows of one sender are the same row. *)
Lemma picked_one_per_sender k1 k2 j1 j2 :
  unique_ids d →
  k1 ∈ (picked_from P key locked limit d).*1 → k2 ∈ (picked_from P key locked limit d).*1 →
  withdraw_jobs d !! k1 = Some j1 → withdraw_jobs d !! k2 = Some j2 →
  sender lower (k1, j1) = sender lower (k2, j2) → k1 = k2.
Proof.
  intros Hids (x1 & Hx1 & HP1 & Hf1)%picked_in (x2 & Hx2 & HP2 & Hf2)%picked_in H1 H2 Hs.
  rewrite Hx1 in H1. injection H1 as <-. rewrite Hx2 in H2. injection H2 as <-.
  assert (Hin : ∀ k j, withdraw_jobs d !! k = Some j → P (k, j) →
            (k, j) ∈ filter P (map_to_list (withdraw_jobs d))).
  { intros k j Hk HPk. apply list_elem_of_filter. split; [done|]. by apply elem_of_map_to_list. }
  unfold first_of_sender in Hf1, Hf2. rewrite Forall_forall in Hf1, Hf2.
  specialize (Hf1 (k2, x2) ltac:(auto) ltac:(done)). specialize (Hf2 (k1, x1) ltac:(auto) ltac:(done)).
  unfold row_le, row_before in *; cbn in *. apply (Hids k1 k2 x1 x2); [done..|lia].
Qed.
End picked.

(** A claim that gives its rows a status of [busy], and takes no row whose
    sender has another row in [busy], keeps one row per sender in [busy]. *)
Lemma claim_one_per_sender (P : job_entry → Prop) `{!∀ e, Decision (P e)} key locked limit d g busy :
  unique_ids d → one_per_sender busy d →
  (∀ e, P e → ¬ sender_busy lower busy (map_to_list (withdraw_jobs d)) e) →
  (∀ j, jb_tx (g j) = jb_tx j) →
  one_per_sender busy (claim_rows g (picked_from P key locked limit d) d).2.
Proof.
  intros Hids Hone Hfree Hg k1 k2 j1 j2.
  rewrite !claim_rows_lookup by apply picked_NoDup.
  assert (Hclash : ∀ ka kb ja jb, ka ∈ (picked_from P key locked limit d).*1 →
            withdraw_jobs d !! ka = Some ja → withdraw_jobs d !! kb = Some jb → jb_status jb ∈ busy →
            sender lower (ka, ja) = sender lower (kb, jb) → ka = kb).
  { intros ka kb ja jb (x & Hx & HP & _)%picked_in Ha Hb Hst Hs.
    rewrite Hx in Ha. injection Ha as <-.
    destruct (decide (ka = kb)) as [|Hne]; [done|]. exfalso. apply (Hfree _ HP).
    apply Exists_exists. exists (kb, jb). split; [by apply elem_of_map_to_list|].
    split_and!; [done| |done]. cbn. intros Ho. apply Hne.
    destruct ka, kb; unfold sender in Hs; cbn in *; congruence. }
  assert (Hsender : ∀ k j, sender lower (k, g j) = sender lower (k, j)).
  { intros k j. unfold sender; cbn. by rewrite Hg. }
  repeat case_decide; intros L1 L2 Hst1 Hst2 Hs.
  - apply fmap_Some in L1 as (x1 & L1 & ->). apply fmap_Some in L2 as (x2 & L2 & ->).
    rewrite !Hsender in Hs. by eapply picked_one_per_sender.
  - apply fmap_Some in L1 as (x1 & L1 & ->). rewrite Hsender in Hs. by eapply Hclash.
  - apply fmap_Some in L2 as (x2 & L2 & ->). rewrite Hsender in Hs. symmetry. eapply Hclash; eauto.
  - by eapply Hone.
Qed.
End claims.
