(* ===== verification/LedgerDeposit.v ===== *)
(** * Deposits: [PostgresLedger.CreditDeposit] and its state machine

    A deposit notification carries a scan status, a fallback status and
    confirmation counts.  [normalizeDepositLifecycleStatus] turns them into a
    target status, [resolveEffectiveDepositStatus] joins it with the stored
    one, and [CreditDeposit] moves the balance: credit and lock once at
    CONFIRMED, unlock once at FINALIZED, take the credit back at REVERTED. *)
From S2P Require Import Prelude GoStrings GoNumbers Ports LedgerTables LedgerWithdraw.

(** ** The lifecycle of one deposit *)

Definition normalizeStoredDepositStatus (v : string) : string :=
  let u := ToUpper (TrimSpace v) in
  if decide (u = "REVERTED" ∨ u = "REORGED" ∨ u = "FAILED") then "REVERTED"
  else if decide (u = "FINALIZED") then "FINALIZED"
  else if decide (u = "CONFIRMED") then "CONFIRMED"
  else "PENDING".

(** The first candidate of [scanStatus, fallbackStatus] the switch recognises. *)
Fixpoint candidateStatus (candidates : list string) (confirmations unlockConfs : Z) : option string :=
  match candidates with
  | [] => None
  | candidate :: rest =>
      let u := ToUpper (TrimSpace candidate) in
      if decide (u = "REVERTED" ∨ u = "REORGED" ∨ u = "FAILED") then Some "REVERTED"
      else if decide (u = "FINALIZED") then Some "FINALIZED"
      else if decide (u = "CONFIRMED") then
        if decide (unlockConfs > 0 ∧ unlockConfs ≤ confirmations) then Some "FINALIZED"
        else Some "CONFIRMED"
      else candidateStatus rest confirmations unlockConfs
  end.

Definition normalizeDepositLifecycleStatus (scanStatus fallbackStatus : string)
    (confirmations requiredConfs unlockConfs : Z) : string :=
  match candidateStatus [scanStatus; fallbackStatus] confirmations unlockConfs with
  | Some st => st
  | None =>
      let requiredConfs := if decide (requiredConfs ≤ 0) then 1 else requiredConfs in
      let unlockConfs :=
        if decide (unlockConfs > 0 ∧ unlockConfs < requiredConfs) then requiredConfs else unlockConfs in
      if decide (unlockConfs > 0 ∧ unlockConfs ≤ confirmations) then "FINALIZED"
      else if decide (requiredConfs ≤ confirmations) then "CONFIRMED"
      else "PENDING"
  end.

Definition resolveEffectiveDepositStatus (oldStatus targetStatus : string) : string :=
  let oldStatus := normalizeStoredDepositStatus oldStatus in
  let targetStatus := normalizeStoredDepositStatus targetStatus in
  if decide (targetStatus = "REVERTED") then "REVERTED"
  else if decide (oldStatus = "REVERTED") then "REVERTED"
  else if decide (oldStatus = "FINALIZED") then "FINALIZED"
  else if decide (oldStatus = "CONFIRMED") then
    if decide (targetStatus = "FINALIZED") then "FINALIZED" else "CONFIRMED"
  else targetStatus.

Definition depositStatusCredits (status : string) : bool :=
  let st := normalizeStoredDepositStatus status in
  bool_decide (st = "CONFIRMED" ∨ st = "FINALIZED").

(** ** [CreditDeposit] *)

(** The thresholds after the defaulting at the top of [CreditDeposit]. *)
Definition depositRequired (inp : DepositCreditInput) : Z :=
  if decide (dc_RequiredConfs inp ≤ 0) then 1 else dc_RequiredConfs inp.
Definition depositUnlock (inp : DepositCreditInput) : Z :=
  if decide (dc_UnlockConfs inp > 0 ∧ dc_UnlockConfs inp < depositRequired inp)
  then depositRequired inp else dc_UnlockConfs inp.
Definition depositTarget (inp : DepositCreditInput) : string :=
  normalizeDepositLifecycleStatus (dc_ScanStatus inp) (dc_Status inp)
    (dc_Confirmations inp) (depositRequired inp) (depositUnlock inp).

Definition depositKey (inp : DepositCreditInput) : order_key := (dc_TenantID inp, dc_OrderID inp).

(** [INSERT INTO deposit_events] for an order seen the first time. *)
Definition newDeposit (inp : DepositCreditInput) : deposit_row := {|
  de_account_id := dc_AccountID inp;
  de_chain := dc_Chain inp;
  de_network := dc_Network inp;
  de_coin := dc_Coin inp;
  de_amount := dc_Amount inp;
  de_tx_hash := dc_TxHash inp;
  de_from_address := dc_FromAddress inp;
  de_to_address := dc_ToAddress inp;
  de_confirmations := dc_Confirmations inp;
  de_required_confirmations := depositRequired inp;
  de_unlock_confirmations := maxInt64 (depositUnlock inp) (depositRequired inp);
  de_status := depositTarget inp;
  de_credited := false;
  de_unlocked := false;
|}.

(** The closing [UPDATE deposit_events]. *)
Definition refreshDeposit (inp : DepositCreditInput) (status : string) (credited unlocked : bool)
    (r : deposit_row) : deposit_row := {|
  de_account_id := dc_AccountID inp;
  de_chain := dc_Chain inp;
  de_network := dc_Network inp;
  de_coin := dc_Coin inp;
  de_amount := dc_Amount inp;
  de_tx_hash := dc_TxHash inp;
  de_from_address := dc_FromAddress inp;
  de_to_address := dc_ToAddress inp;
  de_confirmations := Z.max (de_confirmations r) (dc_Confirmations inp);
  de_required_confirmations := depositRequired inp;
  de_unlock_confirmations := maxInt64 (depositUnlock inp) (depositRequired inp);
  de_status := status;
  de_credited := credited;
  de_unlocked := unlocked;
|}.

Definition creditStep (inp : DepositCreditInput) (d : ledger) : result ledger :=
  bal ← getBalanceTx (dc_TenantID inp) (dc_AccountID inp) (dc_Coin inp) d;
  avail ← addDecimalString (bs_Available bal) (dc_Amount inp);
  locked ← addDecimalString (bs_WithdrawLocked bal) (dc_Amount inp);
  let d := upsertBalanceTx (dc_TenantID inp) (dc_AccountID inp) (dc_Coin inp) avail (bs_Frozen bal) locked d in
  Ok (insertJournal (dc_TenantID inp) "DEPOSIT" (dc_OrderID inp) (dc_AccountID inp) (dc_Coin inp)
        "CREDIT" (dc_Amount inp) avail d).

Definition unlockStep (inp : DepositCreditInput) (d : ledger) : result ledger :=
  bal ← getBalanceTx (dc_TenantID inp) (dc_AccountID inp) (dc_Coin inp) d;
  locked ← subDecimalString (bs_WithdrawLocked bal) (dc_Amount inp);
  let d := upsertBalanceTx (dc_TenantID inp) (dc_AccountID inp) (dc_Coin inp)
             (bs_Available bal) (bs_Frozen bal) locked d in
  withdrawable ← computeWithdrawable (bs_Available bal) locked;
  Ok (insertJournal (dc_TenantID inp) "DEPOSIT" (dc_OrderID inp) (dc_AccountID inp) (dc_Coin inp)
        "UNLOCK" (dc_Amount inp) withdrawable d).

(** [recordReorgAuditEvent] *)
Definition recordReorgAuditEvent (inp : DepositCreditInput) (d : ledger) : ledger :=
  d <| ledger_audit_events ::=
        <[(dc_TenantID inp, dc_OrderID inp, "DEPOSIT_REORG_REVERTED") :=
            {| au_account_id := dc_AccountID inp; au_chain := dc_Chain inp; au_network := dc_Network inp;
               au_asset := dc_Coin inp; au_amount := dc_Amount inp; au_detail := TrimSpace (dc_TxHash inp) |}]> |>.

Definition revertStep (inp : DepositCreditInput) (oldUnlock : bool) (d : ledger) : result ledger :=
  bal ← getBalanceTx (dc_TenantID inp) (dc_AccountID inp) (dc_Coin inp) d;
  avail ← subDecimalString (bs_Available bal) (dc_Amount inp);
  locked ← (if oldUnlock then Ok (bs_WithdrawLocked bal)
            else subDecimalString (bs_WithdrawLocked bal) (dc_Amount inp));
  let d := upsertBalanceTx (dc_TenantID inp) (dc_AccountID inp) (dc_Coin inp) avail (bs_Frozen bal) locked d in
  let d := insertJournal (dc_TenantID inp) "DEPOSIT_REVERT" (dc_OrderID inp) (dc_AccountID inp) (dc_Coin inp)
             "DEBIT" (dc_Amount inp) avail d in
  Ok (recordReorgAuditEvent inp d).

(** What [CreditDeposit] does once the effective status is known. *)
Definition applyDeposit (inp : DepositCreditInput) (effectiveStatus : string)
    (oldCredit oldUnlock : bool) (d : ledger) : result ledger :=
  let credits := negb oldCredit && depositStatusCredits effectiveStatus in
  d ← (if credits then creditStep inp d else Ok d);
  let newCredited := oldCredit || credits in
  let unlocks := newCredited && negb oldUnlock && bool_decide (effectiveStatus = "FINALIZED") in
  d ← (if unlocks then unlockStep inp d else Ok d);
  let reverts := oldCredit && bool_decide (effectiveStatus = "REVERTED") in
  d ← (if reverts then revertStep inp oldUnlock d else Ok d);
  let newCredited := if reverts then false else newCredited in
  let newUnlocked := if reverts then false else oldUnlock || unlocks in
  Ok (d <| deposit_events ::=
            sql_update (depositKey inp) (refreshDeposit inp effectiveStatus newCredited newUnlocked) |>).

Definition CreditDeposit (inp : DepositCreditInput) (d : ledger) : result ledger :=
  match deposit_events d !! depositKey inp with
  | Some r =>
      applyDeposit inp (resolveEffectiveDepositStatus (de_status r) (depositTarget inp))
        (de_credited r) (de_unlocked r) d
  | None =>
      applyDeposit inp (resolveEffectiveDepositStatus "" (depositTarget inp)) false false
        (d <| deposit_events ::= <[depositKey inp := newDeposit inp]> |>)
  end.

(** * The deposit lifecycle

    Statuses are joined by rank, PENDING below CONFIRMED below FINALIZED below
    REVERTED; a repeated notification changes nothing. *)

(** ** The join of two statuses *)

Definition lifecycle : list string := ["PENDING"; "CONFIRMED"; "FINALIZED"; "REVERTED"].

(** The place of a stored status in the lifecycle. *)
Definition rank (st : string) : nat :=
  let u := normalizeStoredDepositStatus st in
  if decide (u = "REVERTED") then 3 else if decide (u = "FINALIZED") then 2
  else if decide (u = "CONFIRMED") then 1 else 0.

Definition of_rank (n : nat) : string := nth n lifecycle "PENDING".

Lemma normalizeStored_cases st :
  normalizeStoredDepositStatus st = "PENDING" ∨ normalizeStoredDepositStatus st = "CONFIRMED"
  ∨ normalizeStoredDepositStatus st = "FINALIZED" ∨ normalizeStoredDepositStatus st = "REVERTED".
Proof. unfold normalizeStoredDepositStatus. repeat case_decide; auto. Qed.

Lemma of_rank_rank st : of_rank (rank st) = normalizeStoredDepositStatus st.
Proof. unfold rank. by destruct (normalizeStored_cases st) as [->|[->|[->| ->]]]. Qed.

Lemma rank_le st : (rank st ≤ 3)%nat.
Proof. unfold rank. repeat case_decide; lia. Qed.

Lemma rank_of_rank n : (n ≤ 3)%nat → rank (of_rank n) = n.
Proof. intros Hn. do 4 (destruct n as [|n]; [by vm_compute|]). lia. Qed.

Lemma resolve_rank old target :
  resolveEffectiveDepositStatus old target = of_rank (Nat.max (rank old) (rank target)).
Proof.
  unfold resolveEffectiveDepositStatus, rank.
  destruct (normalizeStored_cases old) as [->|[->|[->| ->]]];
    by destruct (normalizeStored_cases target) as [->|[->|[->| ->]]].
Qed.

Lemma rank_resolve old target :
  rank (resolveEffectiveDepositStatus old target) = Nat.max (rank old) (rank target).
Proof.
  rewrite resolve_rank. apply rank_of_rank.
  pose proof (rank_le old). pose proof (rank_le target). lia.
Qed.

Lemma resolve_again old target :
  resolveEffectiveDepositStatus (resolveEffectiveDepositStatus old target) target
  = resolveEffectiveDepositStatus old target.
Proof. rewrite !resolve_rank, rank_of_rank; [f_equal; lia|pose proof (rank_le old); pose proof (rank_le target); lia]. Qed.

(** ** A notification twice *)

Lemma refreshDeposit_again inp st c u r :
  refreshDeposit inp st c u (refreshDeposit inp st c u r) = refreshDeposit inp st c u r.
Proof. unfold refreshDeposit; cbn. f_equal. lia. Qed.

(** The steps that move the balance leave the deposits alone. *)
Lemma creditStep_events inp d d' : creditStep inp d = Ok d' → deposit_events d' = deposit_events d.
Proof. intros Hx. unfold creditStep in Hx. do 3 mbind_inv Hx. by injection Hx as <-. Qed.

Lemma unlockStep_events inp d d' : unlockStep inp d = Ok d' → deposit_events d' = deposit_events d.
Proof. intros Hx. unfold unlockStep in Hx. do 3 mbind_inv Hx. by injection Hx as <-. Qed.

Lemma revertStep_events inp ou d d' : revertStep inp ou d = Ok d' → deposit_events d' = deposit_events d.
Proof. intros Hx. unfold revertStep in Hx. do 3 mbind_inv Hx. by injection Hx as <-. Qed.

Lemma if_events (b : bool) (step : result ledger) d d' :
  (step = Ok d' → deposit_events d' = deposit_events d) →
  (if b then step else Ok d) = Ok d' → deposit_events d' = deposit_events d.
Proof. destruct b; [done|]. by intros _ [= <-]. Qed.

(** Only the row of the deposit is written; it is unlocked when it was or when
    the deposit becomes final, and what is left to do at its status is
    nothing. *)
Lemma applyDeposit_events inp eff oc ou d d' :
  applyDeposit inp eff oc ou d = Ok d' →
  ∃ c u, deposit_events d' = sql_update (depositKey inp) (refreshDeposit inp eff c u) (deposit_events d)
    ∧ (u = true → ou = true ∨ eff = "FINALIZED")
    ∧ (negb c && depositStatusCredits eff) = false
    ∧ (c && negb u && bool_decide (eff = "FINALIZED")) = false
    ∧ (c && bool_decide (eff = "REVERTED")) = false.
Proof.
  intros H. unfold applyDeposit in H. do 3 mbind_inv H. injection H as <-.
  apply if_events in Ha; [|apply creditStep_events]. apply if_events in Ha0; [|apply unlockStep_events].
  apply if_events in Ha1; [|apply revertStep_events].
  do 2 eexists. split.
  { unfold update; cbn. by rewrite Ha1, Ha0, Ha. }
  assert (Hx : eff = "REVERTED" → depositStatusCredits eff = false) by (by intros ->).
  destruct oc, ou, (depositStatusCredits eff) eqn:Hcr, (bool_decide_reflect (eff = "FINALIZED")) as [Hf|],
    (bool_decide_reflect (eff = "REVERTED")) as [Hrv|]; cbn;
    try (split_and!; try done; by auto); try (by specialize (Hx Hrv)); try (subst; done).
Qed.

(** The closing update leaves the row it will find again. *)
Lemma applyDeposit_row inp eff oc ou d d' r :
  deposit_events d !! depositKey inp = Some r → applyDeposit inp eff oc ou d = Ok d' →
  ∃ c u, deposit_events d' !! depositKey inp = Some (refreshDeposit inp eff c u r)
    ∧ (negb c && depositStatusCredits eff) = false
    ∧ (c && negb u && bool_decide (eff = "FINALIZED")) = false
    ∧ (c && bool_decide (eff = "REVERTED")) = false.
Proof.
  intros Hr (c & u & He & _ & Hs)%applyDeposit_events. exists c, u. split; [|exact Hs].
  by rewrite He, sql_update_eq, Hr.
Qed.

Lemma applyDeposit_settled inp eff c u d r :
  deposit_events d !! depositKey inp = Some (refreshDeposit inp eff c u r) →
  (negb c && depositStatusCredits eff) = false →
  (c && negb u && bool_decide (eff = "FINALIZED")) = false →
  (c && bool_decide (eff = "REVERTED")) = false →
  applyDeposit inp eff c u d = Ok d.
Proof.
  intros Hr H1 H2 H3. unfold applyDeposit. rewrite H1. cbn [mbind result_bind].
  rewrite !orb_false_r, H2. cbn [mbind result_bind]. rewrite H3. cbn [mbind result_bind].
  rewrite orb_false_r. f_equal. destruct d. unfold update; cbn in *. f_equal.
  unfold sql_update. rewrite Hr, refreshDeposit_again. by apply insert_id.
Qed.

Lemma CreditDeposit_settled inp d r eff c u :
  deposit_events d !! depositKey inp = Some (refreshDeposit inp eff c u r) →
  resolveEffectiveDepositStatus eff (depositTarget inp) = eff →
  (negb c && depositStatusCredits eff) = false →
  (c && negb u && bool_decide (eff = "FINALIZED")) = false →
  (c && bool_decide (eff = "REVERTED")) = false →
  CreditDeposit inp d = Ok d.
Proof.
  intros Hr He H1 H2 H3. unfold CreditDeposit. rewrite Hr. cbn [refreshDeposit de_status de_credited de_unlocked].
  rewrite He. by eapply applyDeposit_settled.
Qed.

(** ** The thresholds *)

(** A notification whose statuses say nothing is judged by its confirmations:
    FINALIZED from [max required unlock] on when an unlock depth is set. *)
Definition byConfirmations (confirmations required unlock : Z) : string :=
  if decide (0 < unlock ∧ Z.max (Z.max 1 required) unlock ≤ confirmations) then "FINALIZED"
  else if decide (Z.max 1 required ≤ confirmations) then "CONFIRMED" else "PENDING".

Lemma normalize_by_confirmations st fb cf req unl :
  candidateStatus [st; fb] cf unl = None →
  normalizeDepositLifecycleStatus st fb cf req unl = byConfirmations cf req unl.
Proof.
  intros Hn. unfold normalizeDepositLifecycleStatus. rewrite Hn. unfold byConfirmations.
  repeat case_decide; try done; lia.
Qed.
