(* ===== verification/LedgerVault.v ===== *)
(** * Vaults: sweeps and treasury transfers

    [ReserveSweep], [StartSweep], [ConfirmSweepOnChain], [FailSweepOnChain] and
    the four treasury transfer methods of [PostgresLedger], over the vault
    balances and the two order tables. *)
From S2P Require Import Prelude GoStrings GoNumbers Ports LedgerTables LedgerWithdraw.

Definition getVaultBalanceTx (tenantID accountID asset : string) (d : ledger) : result BalanceSnapshot :=
  let mk := λ avail, {| bs_Available := avail; bs_Frozen := "0"; bs_WithdrawLocked := ""; bs_Withdrawable := "" |} in
  Ok (mk (default "0" (vault_balances d !! (tenantID, accountID, asset)))).

Definition upsertVaultBalanceTx (tenantID accountID asset available : string) (d : ledger) : ledger :=
  d <| vault_balances ::= <[(tenantID, accountID, asset) := available]> |>.

(** [INSERT INTO vault_journals ... ON CONFLICT DO NOTHING] *)
Definition insertVaultJournal (tenantID bizType bizID accountID asset entrySide amt balanceAfter : string)
    (d : ledger) : ledger :=
  d <| vault_journals ::=
        sql_insert_nothing (tenantID, bizType, bizID, accountID, entrySide)
          {| jo_asset := asset; jo_amount := amt; jo_balance_after := balanceAfter |} |>.

Definition updateSweep (tenantID sweepOrderID : string) (g : sweep_row → sweep_row) (d : ledger) : ledger :=
  d <| sweep_orders ::= sql_update (tenantID, sweepOrderID) g |>.
Definition updateTransfer (tenantID transferOrderID : string) (g : transfer_row → transfer_row)
    (d : ledger) : ledger :=
  d <| treasury_transfer_orders ::= sql_update (tenantID, transferOrderID) g |>.

Definition orAtLeastOne (requiredConfs : Z) : Z := if decide (requiredConfs ≤ 0) then 1 else requiredConfs.

(** ** Sweeps *)

Definition ReserveSweep (inp : SweepReserveInput) (d : ledger) : result ledger :=
  let requiredConfs := orAtLeastOne (sv_RequiredConfs inp) in
  let k := (sv_TenantID inp, sv_SweepOrderID inp) in
  match sweep_orders d !! k with
  | Some r =>
      let st := ToUpper (TrimSpace (sw_status r)) in
      if decide (st = "RESERVED" ∨ st = "BROADCASTED" ∨ st = "DONE") then Ok d
      else Err (Errorf ("sweep order already exists with status=" +:+ sw_status r))
  | None =>
      Ok (d <| sweep_orders ::=
            <[k := {| sw_from_account_id := sv_FromAccountID inp;
                      sw_treasury_account_id := sv_TreasuryAccountID inp;
                      sw_chain := sv_Chain inp; sw_network := sv_Network inp;
                      sw_asset := sv_Asset inp; sw_amount := sv_Amount inp;
                      sw_tx_hash := ""; sw_reason := ""; sw_confirmations := 0;
                      sw_required_confirmations := requiredConfs; sw_status := "RESERVED" |}]> |>)
  end.

(** [SET tx_hash, chain, network, required_confirmations, status='BROADCASTED'],
    the same in the update and in the upsert. *)
Definition markSwept (inp : SweepCollectInput) (requiredConfs : Z) (r : sweep_row) : sweep_row :=
  r <| sw_tx_hash := sc_TxHash inp |> <| sw_chain := sc_Chain inp |> <| sw_network := sc_Network inp |>
    <| sw_required_confirmations := requiredConfs |> <| sw_status := "BROADCASTED" |>.

Definition StartSweep (inp : SweepCollectInput) (d : ledger) : result ledger :=
  let requiredConfs := orAtLeastOne (sc_RequiredConfs inp) in
  let k := (sc_TenantID inp, sc_SweepOrderID inp) in
  (* UPDATE ... WHERE status IN ('RESERVED', 'BROADCASTED') *)
  let hit := match sweep_orders d !! k with
             | Some r => bool_decide (sw_status r = "RESERVED" ∨ sw_status r = "BROADCASTED")
             | None => false
             end in
  if hit then Ok (d <| sweep_orders ::= sql_update k (markSwept inp requiredConfs) |>)
  else
    (* rows == 0: INSERT ... ON CONFLICT DO UPDATE *)
    Ok (d <| sweep_orders ::=
          sql_upsert k
            {| sw_from_account_id := sc_FromAccountID inp;
               sw_treasury_account_id := sc_TreasuryAccountID inp;
               sw_chain := sc_Chain inp; sw_network := sc_Network inp;
               sw_asset := sc_Asset inp; sw_amount := sc_Amount inp;
               sw_tx_hash := sc_TxHash inp; sw_reason := ""; sw_confirmations := 0;
               sw_required_confirmations := requiredConfs; sw_status := "BROADCASTED" |}
            (markSwept inp requiredConfs) |>).

Definition ConfirmSweepOnChain (inp : SweepConfirmInput) (d : ledger) : result ledger :=
  let t := sf_TenantID inp in let o := sf_SweepOrderID inp in
  r ← from_option_err ErrNoRows (sweep_orders d !! (t, o));
  let requiredConfs := if decide (sf_RequiredConfs inp ≤ 0) then sw_required_confirmations r else sf_RequiredConfs inp in
  let requiredConfs := orAtLeastOne requiredConfs in
  let confirmations := if decide (sf_Confirmations inp < sw_confirmations r) then sw_confirmations r else sf_Confirmations inp in
  if decide (sw_status r = "DONE") then
    Ok (updateSweep t o (λ r, r <| sw_confirmations := Z.max (sw_confirmations r) confirmations |>
                                <| sw_required_confirmations := requiredConfs |>) d)
  else
  if decide (confirmations < requiredConfs) then
    Ok (updateSweep t o (λ r, r <| sw_status := "BROADCASTED" |> <| sw_tx_hash := sf_TxHash inp |>
                                <| sw_confirmations := Z.max (sw_confirmations r) confirmations |>
                                <| sw_required_confirmations := requiredConfs |>) d)
  else
  treasuryBal ← getVaultBalanceTx t (sw_treasury_account_id r) (sw_asset r) d;
  treasuryAvail ← addDecimalString (bs_Available treasuryBal) (sw_amount r);
  let d := upsertVaultBalanceTx t (sw_treasury_account_id r) (sw_asset r) treasuryAvail d in
  let d := updateSweep t o (λ r, r <| sw_status := "DONE" |> <| sw_tx_hash := sf_TxHash inp |>
                                   <| sw_confirmations := Z.max (sw_confirmations r) confirmations |>
                                   <| sw_required_confirmations := requiredConfs |>) d in
  Ok (insertVaultJournal t "SWEEP" o (sw_treasury_account_id r) (sw_asset r) "CREDIT"
        (sw_amount r) treasuryAvail d).

Definition FailSweepOnChain (tenantID sweepOrderID reason : string) (confirmations : Z)
    (d : ledger) : result ledger :=
  Ok (updateSweep tenantID sweepOrderID
        (λ r, if decide (sw_status r = "DONE") then r
              else r <| sw_status := "FAILED" |> <| sw_reason := reason |>
                     <| sw_confirmations := Z.max (sw_confirmations r) confirmations |>) d).

(** ** Treasury transfers *)

Definition ReserveTreasuryTransfer (inp : TreasuryTransferReserveInput) (d : ledger) : result ledger :=
  let t := tr_TenantID inp in let o := tr_TransferOrderID inp in
  let requiredConfs := orAtLeastOne (tr_RequiredConfirmations inp) in
  match treasury_transfer_orders d !! (t, o) with
  | Some r =>
      let st := ToUpper (TrimSpace (tt_status r)) in
      if decide (st = "RESERVED" ∨ st = "BROADCASTED" ∨ st = "DONE") then Ok d
      else Err (Errorf ("treasury transfer already exists with status=" +:+ tt_status r))
  | None =>
      let d := d <| treasury_transfer_orders ::=
        <[(t, o) := {| tt_from_account_id := tr_FromAccountID inp; tt_to_account_id := tr_ToAccountID inp;
                       tt_chain := tr_Chain inp; tt_network := tr_Network inp;
                       tt_asset := tr_Asset inp; tt_amount := tr_Amount inp;
                       tt_tx_hash := ""; tt_reason := ""; tt_confirmations := 0;
                       tt_required_confirmations := requiredConfs;
                       tt_source_tier := TrimSpace (tr_SourceTier inp);
                       tt_destination_tier := TrimSpace (tr_DestinationTier inp);
                       tt_status := "RESERVED" |}]> |> in
      sourceBal ← getVaultBalanceTx t (tr_FromAccountID inp) (tr_Asset inp) d;
      nextSourceAvail ← subDecimalString (bs_Available sourceBal) (tr_Amount inp);
      let d := upsertVaultBalanceTx t (tr_FromAccountID inp) (tr_Asset inp) nextSourceAvail d in
      Ok (insertVaultJournal t "TREASURY_TRANSFER" o (tr_FromAccountID inp) (tr_Asset inp)
            "DEBIT_PENDING" (tr_Amount inp) nextSourceAvail d)
  end.

Definition MarkTreasuryTransferBroadcasted (tenantID transferOrderID txHash : string) (requiredConfs : Z)
    (d : ledger) : result ledger :=
  let requiredConfs := orAtLeastOne requiredConfs in
  let hit := match treasury_transfer_orders d !! (tenantID, transferOrderID) with
             | Some r => bool_decide (tt_status r = "RESERVED" ∨ tt_status r = "BROADCASTED")
             | None => false
             end in
  if hit then
    Ok (updateTransfer tenantID transferOrderID
          (λ r, r <| tt_status := "BROADCASTED" |> <| tt_tx_hash := txHash |>
                  <| tt_required_confirmations := requiredConfs |> <| tt_reason := "" |>) d)
  else Err (Errorf "treasury transfer not reserved").

Definition ConfirmTreasuryTransferOnChain (inp : TreasuryTransferConfirmInput) (d : ledger) : result ledger :=
  let t := tc_TenantID inp in let o := tc_TransferOrderID inp in
  r ← from_option_err ErrNoRows (treasury_transfer_orders d !! (t, o));
  let requiredConfs := if decide (tc_RequiredConfs inp ≤ 0) then tt_required_confirmations r else tc_RequiredConfs inp in
  let requiredConfs := orAtLeastOne requiredConfs in
  let confirmations := if decide (tc_Confirmations inp < tt_confirmations r) then tt_confirmations r else tc_Confirmations inp in
  if decide (tt_status r = "DONE") then
    Ok (updateTransfer t o (λ r, r <| tt_confirmations := Z.max (tt_confirmations r) confirmations |>
                                   <| tt_required_confirmations := requiredConfs |>) d)
  else
  if decide (tt_status r ≠ "BROADCASTED" ∧ tt_status r ≠ "RESERVED") then
    Err (Errorf ("treasury transfer status invalid for onchain confirm: " +:+ tt_status r))
  else
  if decide (confirmations < requiredConfs) then
    Ok (updateTransfer t o (λ r, r <| tt_status := "BROADCASTED" |> <| tt_tx_hash := tc_TxHash inp |>
                                   <| tt_confirmations := Z.max (tt_confirmations r) confirmations |>
                                   <| tt_required_confirmations := requiredConfs |>) d)
  else
  destinationBal ← getVaultBalanceTx t (tt_to_account_id r) (tt_asset r) d;
  sourceBal ← getVaultBalanceTx t (tt_from_account_id r) (tt_asset r) d;
  nextDestinationAvail ← addDecimalString (bs_Available destinationBal) (tt_amount r);
  let d := upsertVaultBalanceTx t (tt_to_account_id r) (tt_asset r) nextDestinationAvail d in
  let d := updateTransfer t o (λ r, r <| tt_status := "DONE" |> <| tt_tx_hash := tc_TxHash inp |>
                                      <| tt_confirmations := Z.max (tt_confirmations r) confirmations |>
                                      <| tt_required_confirmations := requiredConfs |>) d in
  let d := insertVaultJournal t "TREASURY_TRANSFER" o (tt_from_account_id r) (tt_asset r) "DEBIT"
             (tt_amount r) (bs_Available sourceBal) d in
  Ok (insertVaultJournal t "TREASURY_TRANSFER" o (tt_to_account_id r) (tt_asset r) "CREDIT"
        (tt_amount r) nextDestinationAvail d).

Definition FailTreasuryTransferOnChain (tenantID transferOrderID reason : string) (confirmations : Z)
    (d : ledger) : result ledger :=
  r ← from_option_err ErrNoRows (treasury_transfer_orders d !! (tenantID, transferOrderID));
  if decide (tt_status r = "FAILED") then Ok d else
  if decide (tt_status r = "DONE") then Ok d else
  if decide (¬ (tt_status r = "RESERVED" ∨ tt_status r = "BROADCASTED")) then
    Err (Errorf ("treasury transfer status invalid for fail: " +:+ tt_status r))
  else
  sourceBal ← getVaultBalanceTx tenantID (tt_from_account_id r) (tt_asset r) d;
  nextSourceAvail ← addDecimalString (bs_Available sourceBal) (tt_amount r);
  let d := upsertVaultBalanceTx tenantID (tt_from_account_id r) (tt_asset r) nextSourceAvail d in
  let d := updateTransfer tenantID transferOrderID
             (λ r, r <| tt_status := "FAILED" |> <| tt_reason := reason |>
                     <| tt_confirmations := Z.max (tt_confirmations r) confirmations |>) d in
  Ok (insertVaultJournal tenantID "TREASURY_TRANSFER" transferOrderID (tt_from_account_id r) (tt_asset r)
        "ROLLBACK" (tt_amount r) nextSourceAvail d).

Definition GetTreasuryTransferStatus (tenantID transferOrderID : string) (d : ledger)
    : result TreasuryTransferStatus :=
  r ← from_option_err ErrNoRows (treasury_transfer_orders d !! (tenantID, transferOrderID));
  Ok {| ts_Status := tt_status r; ts_TxHash := tt_tx_hash r; ts_Reason := tt_reason r;
        ts_Amount := tt_amount r; ts_FromAccountID := tt_from_account_id r;
        ts_ToAccountID := tt_to_account_id r; ts_SourceTier := tt_source_tier r;
        ts_DestinationTier := tt_destination_tier r; ts_Confirmations := tt_confirmations r;
        ts_RequiredConfs := tt_required_confirmations r |}.

(** ** [ListAccountAssets] *)

(** The [FULL OUTER JOIN] of the two balance tables on one account: the assets
    with a row in either, in ascending order ([asset_le] is the database's
    collation). *)
Section assets.
Context (asset_le : string → string → Prop) `{!RelDecision asset_le}.

Definition accountAssetNames (tenantID accountID : string) (d : ledger) : list string :=
  let own : account_key → bool := λ k, bool_decide (k.1 = (tenantID, accountID)) in
  let names : gset string :=
    list_to_set (snd <$> filter (λ k, own k = true) (elements (dom (ledger_balances d))))
    ∪ list_to_set (snd <$> filter (λ k, own k = true) (elements (dom (vault_balances d)))) in
  merge_sort asset_le (elements names).

Definition accountAsset (tenantID accountID asset : string) (d : ledger) : result AccountAsset :=
  let k := (tenantID, accountID, asset) in
  let lb := ledger_balances d !! k in
  let available := default "0" (ba_available <$> lb) in
  let frozen := default "0" (ba_frozen <$> lb) in
  let locked := default "0" (ba_withdraw_locked <$> lb) in
  withdrawable ← computeWithdrawable available locked;
  Ok {| aa_Asset := asset; aa_Available := available; aa_Frozen := frozen;
        aa_WithdrawLocked := locked; aa_Withdrawable := withdrawable;
        aa_VaultAvailable := default "0" (vault_balances d !! k) |}.

Fixpoint collectAssets (tenantID accountID : string) (names : list string) (d : ledger)
    : result (list AccountAsset) :=
  match names with
  | [] => Ok []
  | asset :: rest =>
      item ← accountAsset tenantID accountID asset d;
      items ← collectAssets tenantID accountID rest d;
      Ok (item :: items)
  end.

Definition ListAccountAssets (tenantID accountID : string) (d : ledger) : result (list AccountAsset) :=
  collectAssets tenantID accountID (accountAssetNames tenantID accountID d) d.
End assets.
