(* ===== verification/Calls.v ===== *)
(** * Programs over the ports

    wallet-core reaches everything outside its own memory through the
    interfaces of [internal/ports]: the ledger, the chain gateway, the sign
    service and the address registry.  A function of the orchestrator, of the
    dispatcher or of the HTTP handlers is a program over those calls ([prog]).
    What the calls answer is a handler's business ([PortHandler]): an arbitrary
    trace ([exec]), or a world holding a real ledger ([run], [thread_step]). *)
From S2P Require Import Prelude GoStrings GoNumbers Ports LedgerTables LedgerWithdraw LedgerQueue.
From S2P Require Import LedgerDeposit LedgerVault.

(** ** Calls *)

(** The methods of [LedgerPort] that write and return only an error. *)
Inductive ledger_call : Type :=
  | FreezeWithdrawCall (tenantID accountID orderID chain network asset amt : string) (requiredConfs : Z)
  | QueueWithdrawCall (inp : WithdrawQueueInput)
  | MarkQueuedWithdrawDoneCall (tenantID orderID txHash unsignedTx : string)
  | RescheduleQueuedWithdrawCall (tenantID orderID reason : string) (delay : Z)
  | MarkQueuedWithdrawFailedCall (tenantID orderID reason : string)
  | ReplaceBroadcastedWithdrawCall (tenantID orderID oldTxHash newTxHash unsignedTx : string)
  | ResetBroadcastedWithdrawCall (tenantID orderID reason : string)
  | ConfirmWithdrawCall (tenantID accountID orderID txHash : string)
  | ConfirmWithdrawOnChainCall (tenantID orderID txHash : string) (confirmations requiredConfs : Z)
  | FailWithdrawOnChainCall (tenantID orderID txHash reason : string) (confirmations : Z)
  | ReleaseWithdrawCall (tenantID accountID orderID reason : string)
  | CreditDepositCall (inp : DepositCreditInput)
  | ReserveSweepCall (inp : SweepReserveInput)
  | StartSweepCall (inp : SweepCollectInput)
  | ConfirmSweepOnChainCall (inp : SweepConfirmInput)
  | FailSweepOnChainCall (tenantID sweepOrderID reason : string) (confirmations : Z)
  | ReserveTreasuryTransferCall (inp : TreasuryTransferReserveInput)
  | MarkTreasuryTransferBroadcastedCall (tenantID transferOrderID txHash : string) (requiredConfs : Z)
  | ConfirmTreasuryTransferOnChainCall (inp : TreasuryTransferConfirmInput)
  | FailTreasuryTransferOnChainCall (tenantID transferOrderID reason : string) (confirmations : Z).

(** [PostgresLedger]'s implementation of the interface; [now] is the
    transaction's [NOW()]. *)
Definition run_ledger (now : Z) (c : ledger_call) : ledger → result ledger :=
  match c with
  | FreezeWithdrawCall t a o ch n s amt req => FreezeWithdraw t a o ch n s amt req
  | QueueWithdrawCall inp => QueueWithdraw now inp
  | MarkQueuedWithdrawDoneCall t o h u => MarkQueuedWithdrawDone now t o h u
  | RescheduleQueuedWithdrawCall t o r delay => RescheduleQueuedWithdraw now t o r delay
  | MarkQueuedWithdrawFailedCall t o r => MarkQueuedWithdrawFailed now t o r
  | ReplaceBroadcastedWithdrawCall t o h h' u => ReplaceBroadcastedWithdraw now t o h h' u
  | ResetBroadcastedWithdrawCall t o r => ResetBroadcastedWithdraw now t o r
  | ConfirmWithdrawCall t a o h => ConfirmWithdraw now t a o h
  | ConfirmWithdrawOnChainCall t o h cf req => ConfirmWithdrawOnChain now t o h cf req
  | FailWithdrawOnChainCall t o h r cf => FailWithdrawOnChain now t o h r cf
  | ReleaseWithdrawCall t a o r => ReleaseWithdraw now t a o r
  | CreditDepositCall inp => CreditDeposit inp
  | ReserveSweepCall inp => ReserveSweep inp
  | StartSweepCall inp => StartSweep inp
  | ConfirmSweepOnChainCall inp => ConfirmSweepOnChain inp
  | FailSweepOnChainCall t o r cf => FailSweepOnChain t o r cf
  | ReserveTreasuryTransferCall inp => ReserveTreasuryTransfer inp
  | MarkTreasuryTransferBroadcastedCall t o h req => MarkTreasuryTransferBroadcasted t o h req
  | ConfirmTreasuryTransferOnChainCall inp => ConfirmTreasuryTransferOnChain inp
  | FailTreasuryTransferOnChainCall t o r cf => FailTreasuryTransferOnChain t o r cf
  end.

(** A port call, indexed by what it returns. *)
Inductive port : Type → Type :=
  | LedgerCall (c : ledger_call) : port (result ())
  | ClaimQueued (limit : Z) : port (result (list WithdrawJob))
  | ClaimStale (limit minAge maxReplacements : Z) : port (result (list WithdrawJob))
  | WithdrawStatusOf (tenantID orderID : string) : port (result LedgerStatus)
  | TransferStatusOf (tenantID transferOrderID : string) : port (result TreasuryTransferStatus)
  | AssetsOf (tenantID accountID : string) : port (result (list AccountAsset))
  | BalanceOf (tenantID accountID asset : string) : port (result BalanceSnapshot)
  | BuildUnsignedTx (params : BuildUnsignedParams) : port (result BuildUnsignedResult)
  | Broadcast (params : BroadcastParams) : port (result string)
  | ChainBalanceOf (chain coin network address contractAddress : string) : port (result ChainBalance)
  | SignMessage (tenantID signType keyID messageHash : string) : port (result string)
  | AccountOf (tenantID accountID : string) : port (result WalletAccount)
  | ChainPolicyOf (chain network : string) : port (result ChainPolicy)
  | AddressesOf (tenantID accountID : string) : port (result (list WalletAddress))
  | AddressByKeyID (tenantID accountID keyID : string) : port (result WalletAddress)
  | UpsertAccount (inp : WalletAccount) : port (result WalletAccount)
  | ListAccounts (tenantID : string) (limit offset : Z) : port (result (list WalletAccount))
  | FreshRequestID (prefix : string) : port string
  | ChainMetadataOf (chain network : string) : port (result ChainMetadata)
  | PrepareAddressCall (inp : PrepareAddressInput) : port (result PreparedAddress)
  | UpsertWatchAddressCall (inp : WatchAddressInput) : port (result ())
  | DeriveKeyCall (tenantID signType keyID : string) : port (result ManagedKey)
  | ConvertAddressCall (chain network addrType publicKey : string) : port (result string)
  | BindTenantKeyCall (tenantID keyID : string) : port (result ()).

(** ** Programs *)

Inductive prog (A : Type) : Type :=
  | Ret (a : A)
  | Call {R : Type} (c : port R) (k : R → prog A).
Arguments Ret {A} a.
Arguments Call {A R} c k.

Fixpoint prog_bind_ {A B} (f : A → prog B) (p : prog A) : prog B :=
  match p with
  | Ret a => f a
  | Call c k => Call c (λ r, prog_bind_ f (k r))
  end.
#[export] Instance prog_ret : MRet prog := @Ret.
#[export] Instance prog_bind : MBind prog := @prog_bind_.

Definition call {R} (c : port R) : prog R := Call c Ret.

(** A program that can fail: [x, err := ...; if err != nil { return err }]. *)
Definition bind_ok_or {A B} (p : prog (result A)) (f : A → prog (result B)) : prog (result B) :=
  r ← p; match r with Ok a => f a | Err e => Ret (Err e) end.
Notation "x ⇐ p ; q" := (bind_ok_or p (λ x, q))
  (at level 20, p at level 100, q at level 200, right associativity).

(** ** Traces: any answers at all *)

Inductive event : Type :=
  | Ev {R : Type} (c : port R) (r : R).

(** [exec p tr a]: answering [p]'s calls as in [tr], it returns [a]. *)
Fixpoint exec {A} (p : prog A) (tr : list event) (a : A) : Prop :=
  match p with
  | Ret a' => tr = [] ∧ a = a'
  | Call c k => ∃ r tr', tr = Ev c r :: tr' ∧ exec (k r) tr' a
  end.

Lemma exec_bind {A B} (p : prog A) (f : A → prog B) tr b :
  exec (p ≫= f) tr b ↔ ∃ tr1 tr2 a, tr = tr1 ++ tr2 ∧ exec p tr1 a ∧ exec (f a) tr2 b.
Proof.
  revert tr. induction p as [a|R c k IH]; intros tr; cbn.
  - split; [intros H; by exists [], tr, a|]. by intros (tr1 & tr2 & a' & -> & [-> ->] & H).
  - split.
    + intros (r & tr' & -> & H). apply IH in H as (tr1 & tr2 & a & -> & H1 & H2).
      exists (Ev c r :: tr1), tr2, a. split_and!; [done| |done]. by exists r, tr1.
    + intros (tr1 & tr2 & a & -> & (r & tr' & -> & H1) & H2).
      exists r, (tr' ++ tr2). split; [done|]. apply IH. by exists tr', tr2, a.
Qed.

Lemma exec_bind_ok {A B} (p : prog (result A)) (f : A → prog (result B)) tr b :
  exec (x ⇐ p; f x) tr b ↔
  ∃ tr1 tr2 r, tr = tr1 ++ tr2 ∧ exec p tr1 r
    ∧ match r with Ok a => exec (f a) tr2 b | Err e => tr2 = [] ∧ b = Err e end.
Proof.
  unfold bind_ok_or. rewrite exec_bind.
  split; intros (tr1 & tr2 & [a|e] & ? & ? & H); exists tr1, tr2; eauto.
Qed.

(** Every program has a trace for any way of answering. *)
Lemma exec_total {A} (p : prog A) (answer : ∀ R, port R → R) : ∃ tr a, exec p tr a.
Proof.
  induction p as [a|R c k IH]; [by exists [], a|].
  destruct (IH (answer R c)) as (tr & a & H). exists (Ev c (answer R c) :: tr), a. cbn. eauto.
Qed.

(** ** Worlds *)

(** What answers the calls. *)
Class PortHandler (W : Type) := on_port : ∀ R, port R → W → R * W.
Arguments on_port {W _ R} c w.

Fixpoint run {W} `{PortHandler W} {A} (p : prog A) (w : W) : A * W :=
  match p with
  | Ret a => (a, w)
  | Call c k => let '(r, w) := on_port c w in run (k r) w
  end.

Lemma run_bind {W} `{PortHandler W} {A B} (p : prog A) (f : A → prog B) (w : W) :
  run (p ≫= f) w = run (f (run p w).1) (run p w).2.
Proof.
  revert w. induction p as [a|R c k IH]; intros w; cbn; [done|].
  destruct (on_port c w) as [r w']. apply IH.
Qed.

Lemma run_bind_ok {W} `{PortHandler W} {A B} (p : prog (result A)) (f : A → prog (result B)) (w : W) :
  run (x ⇐ p; f x) w = match (run p w).1 with Ok a => run (f a) (run p w).2 | Err e => (Err e, (run p w).2) end.
Proof. unfold bind_ok_or. rewrite run_bind. by destruct (run p w).1. Qed.

Lemma run_call {W} `{PortHandler W} {R} (c : port R) (w : W) : run (call c) w = on_port c w.
Proof. cbn. by destruct (on_port c w). Qed.

(** The calls of a run with their answers. *)
Fixpoint traced {W} `{PortHandler W} {A} (p : prog A) (w : W) : list event :=
  match p with
  | Ret a => []
  | Call c k => let '(r, w) := on_port c w in Ev c r :: traced (k r) w
  end.

Lemma traced_bind {W} `{PortHandler W} {A B} (p : prog A) (f : A → prog B) (w : W) :
  traced (p ≫= f) w = traced p w ++ traced (f (run p w).1) (run p w).2.
Proof.
  revert w. induction p as [a|R c k IH]; intros w; cbn; [done|].
  destruct (on_port c w) as [r w']. cbn. f_equal. apply IH.
Qed.

Lemma traced_exec {W} `{PortHandler W} {A} (p : prog A) (w : W) : exec p (traced p w) (run p w).1.
Proof.
  revert w. induction p as [a|R c k IH]; intros w; cbn; [done|].
  destruct (on_port c w) as [r w']. eauto.
Qed.

(** Goroutines: one call of one of the programs at a time. *)
Inductive thread_step {W} `{PortHandler W} {A} : list (prog A) * W → list (prog A) * W → Prop :=
  | thread_call i R (c : port R) k ps w :
      ps !! i = Some (Call c k) →
      thread_step (ps, w) (<[i := k (on_port c w).1]> ps, (on_port c w).2).

(** An invariant of the world that every call of every thread keeps, is kept
    by every interleaving.  [P] says which calls a thread may still make. *)
Lemma threads_invariant {W} `{PortHandler W} {A} (P : prog A → Prop) (Inv : W → Prop) ps w ps' w' :
  (∀ R (c : port R) k w, P (Call c k) → Inv w → Inv (on_port c w).2 ∧ P (k (on_port c w).1)) →
  rtc thread_step (ps, w) (ps', w') → Forall P ps → Inv w → Forall P ps' ∧ Inv w'.
Proof.
  intros Hstep Hr. remember (ps, w) as x eqn:Hx. remember (ps', w') as y eqn:Hy.
  revert ps w Hx. induction Hr as [x|x y' z Hs Hr IH]; intros ps w -> HP HI.
  - by injection Hy as -> ->.
  - inversion Hs as [i R c k ps0 w0 Hi]; subst.
    assert (HPi := Forall_lookup_1 _ _ _ _ HP Hi).
    destruct (Hstep R c k w HPi HI) as [HI' HP'].
    eapply IH; [done|done| |done]. by apply Forall_insert.
Qed.

(** Executing a schedule: which thread makes its next call. *)
Fixpoint schedule {W} `{PortHandler W} {A} (s : list nat) (ps : list (prog A)) (w : W) : list (prog A) * W :=
  match s with
  | [] => (ps, w)
  | i :: s =>
      match ps !! i with
      | Some (Call c k) => schedule s (<[i := k (on_port c w).1]> ps) (on_port c w).2
      | _ => schedule s ps w
      end
  end.

Lemma schedule_steps {W} `{PortHandler W} {A} s (ps : list (prog A)) (w : W) :
  rtc thread_step (ps, w) (schedule s ps w).
Proof.
  revert ps w. induction s as [|i s IH]; intros ps w; cbn; [done|].
  destruct (ps !! i) as [[a|R c k]|] eqn:Hi; [apply IH| |apply IH].
  eapply rtc_l; [by apply thread_call|]. apply IH.
Qed.

(** * A world with a ledger

    [PostgresLedger] answering the ledger calls, and everything else ([Outside])
    answering the rest.  Every ledger call runs in one transaction: the
    database either gives it a [NOW()] and commits, or fails and rolls back. *)

(** What the queries use of the database server. *)
Class Postgres := {
  pg_lower : string → string;
  pg_collate : string → string → Prop;
  pg_collate_dec :: RelDecision pg_collate;
}.

(** The database connection and the other services, with a state [C] of their
    own. *)
Class Outside (C : Type) := {
  out_db : C → result Z * C;
  out_locked : C → order_key → bool;
  out_call : ∀ R, port R → C → R * C;
}.
Arguments out_call {C _ R} c s.

Record world (C : Type) := World { w_ledger : ledger; w_out : C }.
Arguments World {C} w_ledger w_out.
Arguments w_ledger {C} w.
Arguments w_out {C} w.

Section world.
Context `{Postgres} {C : Type} `{Outside C}.

(** One transaction.  A failure of the connection is not [sql.ErrNoRows]. *)
Definition in_tx {A} (op : Z → ledger → result (A * ledger)) (w : world C) : result A * world C :=
  let '(r, c) := out_db (w_out w) in
  match r with
  | Err e => (Err (Errorf (error_text e)), World (w_ledger w) c)
  | Ok now =>
      match op now (w_ledger w) with
      | Ok (a, l) => (Ok a, World l c)
      | Err e => (Err e, World (w_ledger w) c)
      end
  end.

(** A query: it reads and leaves the ledger alone. *)
Definition in_query {A} (q : ledger → result A) : world C → result A * world C :=
  in_tx (λ _ l, a ← q l; Ok (a, l)).

Definition outside {A} (f : C → A * C) (w : world C) : A * world C :=
  let '(a, c) := f (w_out w) in (a, World (w_ledger w) c).

#[export] Instance world_handler : PortHandler (world C) := λ R c,
  match c in port R return world C → R * world C with
  | LedgerCall c => in_tx (λ now l, l' ← run_ledger now c l; Ok ((), l'))
  | ClaimQueued limit => λ w,
      in_tx (λ now l, ClaimQueuedWithdraws pg_lower now (out_locked (w_out w)) limit l) w
  | ClaimStale limit minAge maxReplacements => λ w,
      in_tx (λ now l, ClaimStaleBroadcastedWithdraws pg_lower now (out_locked (w_out w)) limit minAge maxReplacements l) w
  | WithdrawStatusOf t o => in_query (GetWithdrawStatus t o)
  | TransferStatusOf t o => in_query (GetTreasuryTransferStatus t o)
  | AssetsOf t a => in_query (ListAccountAssets pg_collate t a)
  | BalanceOf t a s => in_query (GetBalance t a s)
  | c => outside (out_call c)
  end.

(** What a transaction leaves in the ledger: the old one, or what the
    operation returned. *)
Lemma in_tx_ledger {A} (op : Z → ledger → result (A * ledger)) (w : world C) :
  w_ledger (in_tx op w).2 = w_ledger w ∨
  ∃ now a, op now (w_ledger w) = Ok (a, w_ledger (in_tx op w).2).
Proof.
  unfold in_tx. destruct (out_db (w_out w)) as [[now|e] c]; [|by left].
  destruct (op now (w_ledger w)) as [[a l]|e] eqn:Hop; [|by left]. right. exists now, a. by rewrite Hop.
Qed.

Lemma in_query_ledger {A} (q : ledger → result A) (w : world C) : w_ledger (in_query q w).2 = w_ledger w.
Proof.
  destruct (in_tx_ledger (λ _ l, a ← q l; Ok (a, l)) w) as [?|(now & a & Hq)]; [done|].
  unfold in_query. apply bind_ok_inv in Hq as (a' & _ & Hq). by injection Hq as _ <-.
Qed.

Lemma outside_ledger {A} (f : C → A * C) (w : world C) : w_ledger (outside f w).2 = w_ledger w.
Proof. unfold outside. by destruct (f (w_out w)). Qed.
End world.
