(* ===== verification/Orchestrator.v ===== *)
(** * The withdraw orchestrator

    [internal/orchestrator]: pre-checks of the source's funds, building,
    signing and broadcasting a transaction, and the ledger calls around it, as
    programs over the ports.  The Solana library and base58 are parameters. *)
From S2P Require Import Prelude GoStrings GoNumbers Ports LedgerTables Calls.

Record WithdrawRequest := {
  rq_TenantID : string;
  rq_AccountID : string;
  rq_OrderID : string;
  rq_RequiredConfs : Z;
  rq_Signers : list SignerRef;
  rq_SignType : string;
  rq_Tx : BuildUnsignedParams;
}.

Record BroadcastResult := { bd_TxHash : string; bd_UnsignedTx : string }.

(** What the code uses of solana-go and base58. *)
Class SolanaLib := {
  solana_key : Type;
  PublicKeyFromBase58 : string → result solana_key;
  FindAssociatedTokenAddress : solana_key → solana_key → result solana_key;
  solana_key_String : solana_key → string;
  base58_Encode : bytes → string;
}.

(** ** Amounts *)

Definition isZeroBalance (v : string) : bool :=
  match SetString10 (TrimSpace v) with
  | None => true
  | Some n => bool_decide (n ≤ 0)
  end.

Definition gteAmount (actual expected : string) : result bool :=
  actualInt ← from_option_err (Errorf ("invalid integer amount: " +:+ actual)) (SetString10 (TrimSpace actual));
  expectedInt ← from_option_err (Errorf ("invalid integer amount: " +:+ expected)) (SetString10 (TrimSpace expected));
  Ok (bool_decide (expectedInt ≤ actualInt)).

(** [tokenDecimals] is a [uint32]. *)
Definition normalizeDisplayAmount (value : string) (tokenDecimals : Z) : result string :=
  if HasPrefix value "-" then Err (Errorf "token amount must be non-negative") else
  let parts := Split value "."%char in
  if decide (2 < List.length parts)%nat then
    Err (Errorf ("invalid display token amount: " +:+ value))
  else
  let intPart := nth 0 parts "" in
  let intPart := if decide (intPart = "") then "0" else intPart in
  let fracPart := if decide (List.length parts = 2%nat) then nth 1 parts "" else "" in
  let fracLen := Z.of_nat (String.length fracPart) in
  if decide (tokenDecimals < fracLen) then
    Err (Errorf ("display token amount exceeds supported precision: decimals=" +:+ BigString tokenDecimals))
  else
  let fracPart := fracPart +:+ Repeat "0" (Z.to_nat (tokenDecimals - fracLen)) in
  intValue ← from_option_err (Errorf ("invalid integer token amount: " +:+ value)) (SetString10 intPart);
  let total := intValue * 10 ^ tokenDecimals in
  if decide (fracPart = "") then Ok (BigString total) else
  fracValue ← from_option_err (Errorf ("invalid fractional token amount: " +:+ value)) (SetString10 fracPart);
  Ok (BigString (total + fracValue)).

Definition normalizeSolanaTokenAmount (value amountUnit : string) (tokenDecimals : Z) : result string :=
  let normalizedValue := TrimSpace value in
  if decide (normalizedValue = "") then Err (Errorf "token amount is required") else
  let unit := ToLower (TrimSpace amountUnit) in
  if decide (unit ∈ [""; "raw"; "base"; "base_unit"; "base_units"; "smallest"]) then
    if bool_decide (TrimSpace amountUnit = "") && Contains normalizedValue "." then
      if decide (tokenDecimals = 0) then
        Err (Errorf "token_decimals is required when token amount uses display notation")
      else normalizeDisplayAmount normalizedValue tokenDecimals
    else
      match SetString10 normalizedValue with
      | None => Err (Errorf ("invalid integer amount: " +:+ normalizedValue))
      | Some _ => Ok normalizedValue
      end
  else if decide (unit ∈ ["display"; "ui"; "human"]) then
    if decide (tokenDecimals = 0) then Err (Errorf "token_decimals is required when amount_unit=display")
    else normalizeDisplayAmount normalizedValue tokenDecimals
  else Err (Errorf ("unsupported token amount unit: " +:+ amountUnit)).

(** ** Signing *)

Definition chainUsesEdDSA (chain : string) : bool :=
  bool_decide (ToLower (TrimSpace chain) ∈ ["sol"; "solana"; "apt"; "aptos"; "sui"; "ton"; "xlm"; "stellar"]).

Definition resolveSignType (signType chain : string) (signHashes : list string) : string :=
  if decide (signType ≠ "") then signType
  else if chainUsesEdDSA chain then "eddsa"
  else if decide (signHashes ≠ []) then "ecdsa" else "eddsa".

Definition isSolanaChain (chain : string) : bool :=
  bool_decide (ToLower (TrimSpace chain) ∈ ["sol"; "solana"]).

Section orchestrator.
Context `{SolanaLib}.

Definition normalizeBroadcastPublicKey (chain key : string) : string :=
  if negb (isSolanaChain chain) then key else
  let k := TrimSpace key in
  let h := TrimPrefix (ToLower k) "0x" in
  if decide (String.length h ≠ 64%nat) then key else
  match hexDecode (to_bytes h) with
  | None => key
  | Some raw =>
      if decide (List.length raw ≠ 32%nat) then key else
      let out := base58_Encode raw in
      if decide (TrimSpace out ≠ "") then out else key
  end.

Definition resolveSigners (req : WithdrawRequest) : result (list SignerRef) :=
  match rq_Signers req with
  | [] => Err (Errorf "missing key id")
  | signers => Ok signers
  end.

(** The loop of [buildSignatures] from index [i] on. *)
Fixpoint signEach (tenantID signType chain : string) (signers : list SignerRef) (i : nat)
    (signHashes : list string) : prog (result (list string * list string)) :=
  match signHashes with
  | [] => Ret (Ok ([], []))
  | signHash :: rest =>
      let keyIdx := if decide (List.length signers ≤ i)%nat then (List.length signers - 1)%nat else i in
      match signers !! keyIdx with
      | None => Ret (Err (Errorf "index out of range"))
      | Some signer =>
          sig ⇐ call (SignMessage tenantID signType (sr_KeyID signer) signHash);
          out ⇐ signEach tenantID signType chain signers (S i) rest;
          Ret (Ok (sig :: fst out, normalizeBroadcastPublicKey chain (sr_PublicKey signer) :: snd out))
      end
  end.

Definition buildSignatures (tenantID signType chain : string) (signers : list SignerRef)
    (signHashes : list string) : prog (result (list string * list string)) :=
  if decide (signers = []) then Ret (Err (Errorf "no signers provided")) else
  if decide (List.length signers < List.length signHashes ∧ 1 < List.length signers)%nat then
    Ret (Err (Errorf ("signHashes count (" +:+ BigString (Z.of_nat (List.length signHashes))
      +:+ ") exceeds signers count (" +:+ BigString (Z.of_nat (List.length signers)) +:+ ") with ambiguous mapping")))
  else signEach tenantID signType chain signers 0 signHashes.

(** ** Broadcasting *)

Definition broadcastRawTx (req : WithdrawRequest) (rawTx : string) : prog (result string) :=
  call (Broadcast {| bc_Chain := bp_Chain (rq_Tx req); bc_Network := bp_Network (rq_Tx req);
                     bc_Coin := bp_Coin (rq_Tx req); bc_RawTx := rawTx; bc_UnsignedTx := "";
                     bc_Signatures := []; bc_PublicKeys := [] |}).

Definition broadcastUnsignedTx (req : WithdrawRequest) (unsignedTx : string)
    (signatures publicKeys : list string) : prog (result string) :=
  call (Broadcast {| bc_Chain := bp_Chain (rq_Tx req); bc_Network := bp_Network (rq_Tx req);
                     bc_Coin := bp_Coin (rq_Tx req); bc_RawTx := ""; bc_UnsignedTx := unsignedTx;
                     bc_Signatures := signatures; bc_PublicKeys := publicKeys |}).

Definition signAndBroadcastRaw (req : WithdrawRequest) (signType : string) (signer : SignerRef)
    (unsigned : BuildUnsignedResult) : prog (result string) :=
  sig ⇐ call (SignMessage (rq_TenantID req) signType (sr_KeyID signer) (br_UnsignedTx unsigned));
  broadcastRawTx req sig.

Definition buildSignAndBroadcast (req : WithdrawRequest) : prog (result BroadcastResult) :=
  unsignedResult ⇐ call (BuildUnsignedTx (rq_Tx req));
  signers ⇐ Ret (resolveSigners req);
  let signType := resolveSignType (rq_SignType req) (bp_Chain (rq_Tx req)) (br_SignHashes unsignedResult) in
  if decide (br_SignHashes unsignedResult = []) then
    match signers with
    | [] => Ret (Err (Errorf "index out of range"))
    | signer :: _ =>
        txHash ⇐ signAndBroadcastRaw req signType signer unsignedResult;
        Ret (Ok {| bd_TxHash := txHash; bd_UnsignedTx := br_UnsignedTx unsignedResult |})
    end
  else
  sigs ⇐ buildSignatures (rq_TenantID req) signType (bp_Chain (rq_Tx req)) signers (br_SignHashes unsignedResult);
  txHash ⇐ broadcastUnsignedTx req (br_UnsignedTx unsignedResult) (fst sigs) (snd sigs);
  Ret (Ok {| bd_TxHash := txHash; bd_UnsignedTx := br_UnsignedTx unsignedResult |}).

(** ** The pre-check of Solana token withdrawals *)

Definition solanaTokenFeeReserveLamports : Z := 1000000.
Definition solanaAssociatedTokenRentLamports : Z := 2039280.

Definition isSolanaTokenWithdraw (tx : BuildUnsignedParams) : bool :=
  EqualFold (TrimSpace (bp_Chain tx)) "solana" && bool_decide (TrimSpace (bp_ContractAddress tx) ≠ "").

Definition solanaAssociatedTokenAddress (ownerAddress mintAddress : string) : result string :=
  owner ← PublicKeyFromBase58 (TrimSpace ownerAddress);
  mint ← PublicKeyFromBase58 (TrimSpace mintAddress);
  ata ← FindAssociatedTokenAddress owner mint;
  Ok (solana_key_String ata).

(** [fmt.Errorf(prefix + "%w", err)] on the error of a call. *)
Definition wrapErr {A} (prefix : string) (r : result A) : result A :=
  match r with Ok a => Ok a | Err e => Err (Errorf (prefix +:+ error_text e)) end.

(** The lamports the source must hold: the fee, and the rent of the
    destination's token account when that is missing or cannot be checked. *)
Definition requiredLamports (tx : BuildUnsignedParams) : prog (result Z) :=
  match solanaAssociatedTokenAddress (bp_To tx) (bp_ContractAddress tx) with
  | Err _ => Ret (Ok (solanaTokenFeeReserveLamports + solanaAssociatedTokenRentLamports))
  | Ok ataAddress =>
      ataBalance ← call (ChainBalanceOf (bp_Chain tx) "SOL" (bp_Network tx) ataAddress "");
      Ret (Ok (match ataBalance with
               | Err _ => solanaTokenFeeReserveLamports + solanaAssociatedTokenRentLamports
               | Ok b => if isZeroBalance (cb_Balance b)
                         then solanaTokenFeeReserveLamports + solanaAssociatedTokenRentLamports
                         else solanaTokenFeeReserveLamports
               end))
  end.

Definition ensureChainFunds (req : WithdrawRequest) : prog (result ()) :=
  let tx := rq_Tx req in
  if negb (isSolanaTokenWithdraw tx) then Ret (Ok ()) else
  if decide (TrimSpace (bp_From tx) = "" ∨ TrimSpace (bp_To tx) = "") then
    Ret (Err (Errorf "solana token withdraw requires from/to address"))
  else
  requiredTokenAmount ⇐ Ret (normalizeSolanaTokenAmount (bp_Amount tx) (bp_AmountUnit tx) (bp_TokenDecimals tx));
  tokenBalance ⇐ (r ← call (ChainBalanceOf (bp_Chain tx) (bp_Coin tx) (bp_Network tx) (bp_From tx) (bp_ContractAddress tx));
                  Ret (wrapErr "query source token balance: " r));
  ok ⇐ Ret (gteAmount (cb_Balance tokenBalance) requiredTokenAmount);
  if negb ok then
    Ret (Err (Errorf ("insufficient source token balance on chain: need at least " +:+ requiredTokenAmount
                      +:+ ", got " +:+ cb_Balance tokenBalance)))
  else
  nativeBalance ⇐ (r ← call (ChainBalanceOf (bp_Chain tx) "SOL" (bp_Network tx) (bp_From tx) "");
                   Ret (wrapErr "query source native balance: " r));
  lamports ⇐ requiredLamports tx;
  let requiredBalance := BigString lamports in
  ok ⇐ Ret (gteAmount (cb_Balance nativeBalance) requiredBalance);
  if negb ok then
    Ret (Err (Errorf ("insufficient source SOL for fee/rent: need at least " +:+ requiredBalance
                      +:+ " lamports, got " +:+ cb_Balance nativeBalance)))
  else Ret (Ok ()).

(** ** The entry points *)

Definition freezeWithdraw (req : WithdrawRequest) : prog (result ()) :=
  let requiredConfs := if decide (rq_RequiredConfs req ≤ 0) then 1 else rq_RequiredConfs req in
  call (LedgerCall (FreezeWithdrawCall (rq_TenantID req) (rq_AccountID req) (rq_OrderID req)
    (bp_Chain (rq_Tx req)) (bp_Network (rq_Tx req)) (bp_Coin (rq_Tx req)) (bp_Amount (rq_Tx req)) requiredConfs)).

Definition releaseWithdraw (req : WithdrawRequest) (reason : string) : prog (result ()) :=
  call (LedgerCall (ReleaseWithdrawCall (rq_TenantID req) (rq_AccountID req) (rq_OrderID req) reason)).

Definition confirmWithdraw (req : WithdrawRequest) (txHash : string) : prog (result ()) :=
  call (LedgerCall (ConfirmWithdrawCall (rq_TenantID req) (rq_AccountID req) (rq_OrderID req) txHash)).

Definition ReleaseQueued (req : WithdrawRequest) (reason : string) : prog (result ()) :=
  releaseWithdraw req reason.

Definition confirmFailed {A} (txHash : string) (e : error) : result A :=
  Err (Errorf ("withdraw broadcasted but ledger confirm failed, txHash=" +:+ txHash +:+ ": " +:+ error_text e)).

(** The deferred release runs when an error is returned after the freeze and
    before the broadcast. *)
Definition CreateAndBroadcast (req : WithdrawRequest) : prog (result string) :=
  _ ⇐ ensureChainFunds req;
  _ ⇐ freezeWithdraw req;
  broadcast ← buildSignAndBroadcast req;
  match broadcast with
  | Err e =>
      released ← releaseWithdraw req (error_text e);
      match released with
      | Ok _ => Ret (Err e)
      | Err re => Ret (Err (Errorf (error_text e +:+ "; release failed: " +:+ error_text re)))
      end
  | Ok b =>
      confirmed ← confirmWithdraw req (bd_TxHash b);
      match confirmed with
      | Ok _ => Ret (Ok (bd_TxHash b))
      | Err e => Ret (confirmFailed (bd_TxHash b) e)
      end
  end.

Definition ExecuteQueuedWithUnsigned (req : WithdrawRequest) : prog (result BroadcastResult) :=
  _ ⇐ ensureChainFunds req;
  broadcast ⇐ buildSignAndBroadcast req;
  confirmed ← confirmWithdraw req (bd_TxHash broadcast);
  match confirmed with
  | Ok _ => Ret (Ok broadcast)
  | Err e => Ret (confirmFailed (bd_TxHash broadcast) e)
  end.

Definition ExecuteQueued (req : WithdrawRequest) : prog (result string) :=
  _ ⇐ ensureChainFunds req;
  broadcast ⇐ buildSignAndBroadcast req;
  confirmed ← confirmWithdraw req (bd_TxHash broadcast);
  match confirmed with
  | Ok _ => Ret (Ok (bd_TxHash broadcast))
  | Err e => Ret (confirmFailed (bd_TxHash broadcast) e)
  end.

Definition SpeedUpBroadcasted (req : WithdrawRequest) : prog (result BroadcastResult) :=
  _ ⇐ ensureChainFunds req;
  buildSignAndBroadcast req.

Definition BroadcastOnly (req : WithdrawRequest) : prog (result BroadcastResult) :=
  _ ⇐ ensureChainFunds req;
  buildSignAndBroadcast req.
End orchestrator.
