(* ===== verification/Dispatcher.v ===== *)
(** * The withdraw dispatcher

    [internal/dispatcher]: retry policy, fee bumping, and what one claimed job
    does.  [dispatchOnce] and [accelerateOnce] start a goroutine per claimed
    job; they return the goroutines' programs, and [thread_step] interleaves
    them (the semaphore only restricts which interleavings happen).  The
    base64/JSON form of the EVM payload is a parameter. *)
From S2P Require Import Prelude GoStrings GoNumbers Ports LedgerTables Calls Orchestrator.

(** Durations are [int64] nanoseconds. *)
Definition second : Z := 1000000000.

Record WithdrawDispatcher := {
  ds_Batch : Z;
  ds_AccelerateBatch : Z;
  ds_Parallelism : Z;
  ds_MaxAttempts : Z;
  ds_BaseBackoff : Z;
  ds_MaxBackoff : Z;
  ds_AccelerateAfter : Z;
  ds_AccelerateMaxAttempts : Z;
  ds_AccelerateGasBumpBps : Z;
}.

(** ** Policy *)

Definition minInt (a b : Z) : Z := if decide (a < b) then a else b.

Definition shouldRetry (d : WithdrawDispatcher) (attempt : Z) : bool :=
  let maxAttempts := if decide (ds_MaxAttempts d ≤ 0) then 5 else ds_MaxAttempts d in
  bool_decide (attempt < maxAttempts).

Definition retryDelay (d : WithdrawDispatcher) (attempt : Z) : Z :=
  let base := if decide (ds_BaseBackoff d ≤ 0) then second else ds_BaseBackoff d in
  let maxDelay := if decide (ds_MaxBackoff d ≤ 0) then 30 * second else ds_MaxBackoff d in
  let attempt := if decide (attempt < 1) then 1 else attempt in
  let delay := wrap64 (base * Z.shiftl 1 (minInt (attempt - 1) 6)) in
  if decide (maxDelay < delay) then maxDelay else delay.

Definition parallelism (d : WithdrawDispatcher) (jobCount : Z) : Z :=
  let parallelism := if decide (ds_Parallelism d ≤ 0) then 4 else ds_Parallelism d in
  if decide (0 < jobCount ∧ jobCount < parallelism) then jobCount else parallelism.

Definition accelerateAfter (d : WithdrawDispatcher) : Z :=
  if decide (ds_AccelerateAfter d ≤ 0) then 60 * second else ds_AccelerateAfter d.
Definition accelerateMaxAttempts (d : WithdrawDispatcher) : Z :=
  if decide (ds_AccelerateMaxAttempts d ≤ 0) then 3 else ds_AccelerateMaxAttempts d.
Definition accelerateGasBumpBps (d : WithdrawDispatcher) : Z :=
  if decide (ds_AccelerateGasBumpBps d ≤ 0) then 2000 else ds_AccelerateGasBumpBps d.

(** ** Fee bumping *)

Record evmDynamicFeePayload := {
  ev_ChainID : string;
  ev_NonceMode : string;
  ev_FromAddress : string;
  ev_Nonce : Z;
  ev_MaxPriorityFeePerGas : string;
  ev_MaxFeePerGas : string;
  ev_GasLimit : Z;
  ev_ToAddress : string;
  ev_Amount : string;
  ev_ContractAddress : string;
}.

(** [base64.StdEncoding] over [encoding/json] of that struct. *)
Class PayloadCodec := {
  decodePayload : string → result evmDynamicFeePayload;
  encodePayload : evmDynamicFeePayload → result string;
}.

Definition bumpDecimalString (v : string) (bumpBps : Z) : result string :=
  match SetString10 v with
  | None => Err (Errorf ("invalid integer amount: " +:+ v))
  | Some n =>
      if decide (n < 0) then Err (Errorf ("invalid negative integer amount: " +:+ v)) else
      if decide (n = 0) then Ok "1" else
      let multiplier := wrap64 (10000 + bumpBps) in
      let out := n * multiplier / 10000 in
      let out := if decide (out ≤ n) then n + 1 else out in
      Ok (BigString out)
  end.

Definition compareDecimalString (a b : string) : Z :=
  match SetString10 a, SetString10 b with
  | Some aa, Some bb => match aa ?= bb with Lt => -1 | Eq => 0 | Gt => 1 end
  | _, _ => 0
  end.

Section dispatcher.
Context `{SolanaLib} `{PayloadCodec}.

Definition bumpEVMReplacementPayload (base64Tx : string) (bumpBps : Z) : result string :=
  payload ← decodePayload base64Tx;
  let bumpBps := if decide (bumpBps ≤ 0) then 2000 else bumpBps in
  priority ← wrapErr "bump priority fee: " (bumpDecimalString (ev_MaxPriorityFeePerGas payload) bumpBps);
  maxFee ← wrapErr "bump max fee: " (bumpDecimalString (ev_MaxFeePerGas payload) bumpBps);
  let maxFee := if decide (compareDecimalString maxFee priority < 0) then priority else maxFee in
  encodePayload
    {| ev_ChainID := ev_ChainID payload; ev_NonceMode := "fixed"; ev_FromAddress := ev_FromAddress payload;
       ev_Nonce := ev_Nonce payload; ev_MaxPriorityFeePerGas := priority; ev_MaxFeePerGas := maxFee;
       ev_GasLimit := ev_GasLimit payload; ev_ToAddress := ev_ToAddress payload; ev_Amount := ev_Amount payload;
       ev_ContractAddress := ev_ContractAddress payload |}.

(** ** Jobs *)

Definition jobRequest (job : WithdrawJob) (tx : BuildUnsignedParams) : WithdrawRequest := {|
  rq_TenantID := wj_TenantID job;
  rq_AccountID := wj_AccountID job;
  rq_OrderID := wj_OrderID job;
  rq_RequiredConfs := wj_RequiredConfs job;
  rq_Signers := wj_Signers job;
  rq_SignType := wj_SignType job;
  rq_Tx := tx;
|}.

(** The branch of [handleJob] after [ExecuteQueuedWithUnsigned] failed. *)
Definition jobFailed (d : WithdrawDispatcher) (job : WithdrawJob) (reason : string) : prog () :=
  let req := jobRequest job (wj_Tx job) in
  if shouldRetry d (wj_AttemptCount job) then
    _ ← call (LedgerCall (RescheduleQueuedWithdrawCall (wj_TenantID job) (wj_OrderID job) reason
               (retryDelay d (wj_AttemptCount job))));
    Ret ()
  else
    released ← ReleaseQueued req reason;
    let reason := match released with
                  | Ok _ => reason
                  | Err e => reason +:+ "; release failed: " +:+ error_text e
                  end in
    _ ← call (LedgerCall (MarkQueuedWithdrawFailedCall (wj_TenantID job) (wj_OrderID job) reason));
    Ret ().

Definition handleJob (d : WithdrawDispatcher) (job : WithdrawJob) : prog () :=
  broadcast ← ExecuteQueuedWithUnsigned (jobRequest job (wj_Tx job));
  match broadcast with
  | Err e => jobFailed d job (error_text e)
  | Ok b =>
      _ ← call (LedgerCall (MarkQueuedWithdrawDoneCall (wj_TenantID job) (wj_OrderID job)
                 (bd_TxHash b) (bd_UnsignedTx b)));
      Ret ()
  end.

Definition dispatchOnce (d : WithdrawDispatcher) : prog (list (prog ())) :=
  let batch := if decide (ds_Batch d ≤ 0) then 8 else ds_Batch d in
  jobs ← call (ClaimQueued batch);
  match jobs with
  | Err _ => Ret []
  | Ok jobs => Ret (List.map (handleJob d) jobs)
  end.

Definition handleAcceleration (d : WithdrawDispatcher) (job : WithdrawJob) : prog () :=
  match bumpEVMReplacementPayload (bp_Base64Tx (wj_Tx job)) (accelerateGasBumpBps d) with
  | Err e =>
      _ ← call (LedgerCall (ResetBroadcastedWithdrawCall (wj_TenantID job) (wj_OrderID job) (error_text e)));
      Ret ()
  | Ok replacementPayload =>
      let req := jobRequest job ((wj_Tx job) <| bp_Base64Tx := replacementPayload |>) in
      broadcast ← SpeedUpBroadcasted req;
      match broadcast with
      | Err e =>
          _ ← call (LedgerCall (ResetBroadcastedWithdrawCall (wj_TenantID job) (wj_OrderID job) (error_text e)));
          Ret ()
      | Ok b =>
          _ ← call (LedgerCall (ReplaceBroadcastedWithdrawCall (wj_TenantID job) (wj_OrderID job)
                     (wj_TxHash job) (bd_TxHash b) (bd_UnsignedTx b)));
          Ret ()
      end
  end.

Definition accelerateOnce (d : WithdrawDispatcher) : prog (list (prog ())) :=
  let batch := if decide (ds_AccelerateBatch d ≤ 0) then 8 else ds_AccelerateBatch d in
  jobs ← call (ClaimStale batch (accelerateAfter d) (accelerateMaxAttempts d));
  match jobs with
  | Err _ => Ret []
  | Ok jobs => Ret (List.map (handleAcceleration d) jobs)
  end.
End dispatcher.

(** * Fees, delays and display amounts

    The arithmetic of the dispatcher's and the orchestrator's policies: retry
    delays, fee bumping, and amounts written with a decimal point. *)

(** ** Fee bumping *)

Lemma bumpDecimalString_spec v bps out :
  bumpDecimalString v bps = Ok out →
  ∃ n m, SetString10 v = Some n ∧ out = BigString m ∧ 0 ≤ n < m
    ∧ (in_int64 (10000 + bps) → n * (10000 + bps) / 10000 ≤ m).
Proof.
  unfold bumpDecimalString. destruct (SetString10 v) as [n|]; [|done].
  case_decide as Hn; [done|]. case_decide as H0; intros [= <-]; exists n.
  - exists 1. subst n. split_and!; [done|done|lia..|]. intros _. by rewrite Z.mul_0_l.
  - eexists. split_and!; [done|done|lia|case_decide; lia|].
    intros Hr. rewrite (wrap64_id _ Hr). case_decide; lia.
Qed.

Lemma compareDecimalString_lt a b m n :
  SetString10 a = Some m → SetString10 b = Some n → (compareDecimalString a b < 0 ↔ m < n).
Proof.
  intros Ha Hb. unfold compareDecimalString. rewrite Ha, Hb.
  destruct (Z.compare_spec m n); lia.
Qed.

Lemma bumpEVMReplacementPayload_spec `{PayloadCodec} tx bps out :
  bumpEVMReplacementPayload tx bps = Ok out →
  ∃ p p' tip fee tip' fee',
    decodePayload tx = Ok p ∧ encodePayload p' = Ok out
    ∧ SetString10 (ev_MaxPriorityFeePerGas p) = Some tip ∧ SetString10 (ev_MaxFeePerGas p) = Some fee
    ∧ SetString10 (ev_MaxPriorityFeePerGas p') = Some tip' ∧ SetString10 (ev_MaxFeePerGas p') = Some fee'
    ∧ tip < tip' ∧ fee < fee' ∧ tip' ≤ fee'
    ∧ ev_NonceMode p' = "fixed" ∧ ev_ChainID p' = ev_ChainID p ∧ ev_FromAddress p' = ev_FromAddress p
    ∧ ev_Nonce p' = ev_Nonce p ∧ ev_ToAddress p' = ev_ToAddress p ∧ ev_Amount p' = ev_Amount p
    ∧ ev_ContractAddress p' = ev_ContractAddress p ∧ ev_GasLimit p' = ev_GasLimit p.
Proof.
  unfold bumpEVMReplacementPayload. intros Hx. mbind_inv Hx. mbind_inv Hx. mbind_inv Hx. rename a into p, a0 into tip', a1 into fee'.
  set (b := if decide (bps ≤ 0) then 2000 else bps) in *.
  assert (Hw : ∀ pre (r : result string) x, wrapErr pre r = Ok x → r = Ok x) by (by intros pre [] x).
  apply Hw, bumpDecimalString_spec in Ha0 as (tip & t' & Ht & -> & Htip & _).
  apply Hw, bumpDecimalString_spec in Ha1 as (fee & f' & Hf & -> & Hfee & _).
  pose proof (compareDecimalString_lt _ _ _ _ (SetString_String f') (SetString_String t')) as Hcmp.
  exists p. eexists. exists tip, fee, t', (Z.max f' t'). split_and!; [done|exact Hx|..]; try done; cbn.
  - apply SetString_String.
  - rewrite <- (SetString_String (Z.max f' t')). f_equal. case_decide; f_equal; lia.
  - lia.
  - lia.
  - lia.
Qed.

(** ** Retry delays *)

Section backoff.
Variable d : WithdrawDispatcher.

Definition baseDelay : Z := if decide (ds_BaseBackoff d ≤ 0) then second else ds_BaseBackoff d.
Definition topDelay : Z := if decide (ds_MaxBackoff d ≤ 0) then 30 * second else ds_MaxBackoff d.
Definition doublings (attempt : Z) : Z := Z.min 6 (Z.max 0 (attempt - 1)).

(** Below two and a bit years of base delay nothing overflows. *)
Lemma retryDelay_eq attempt :
  ds_BaseBackoff d ≤ 2 ^ 56 → retryDelay d attempt = Z.min topDelay (baseDelay * 2 ^ doublings attempt).
Proof.
  intros Hb. unfold retryDelay. fold baseDelay topDelay.
  assert (H0 : 0 < baseDelay ≤ 2 ^ 56) by (unfold baseDelay, second; case_decide; lia).
  replace (minInt ((if decide (attempt < 1) then 1 else attempt) - 1) 6) with (doublings attempt)
    by (unfold minInt, doublings; repeat case_decide; lia).
  assert (Hd : 0 ≤ doublings attempt ≤ 6) by (unfold doublings; lia).
  rewrite Z.shiftl_1_l. assert (2 ^ doublings attempt ≤ 2 ^ 6) by (apply Z.pow_le_mono_r; lia).
  assert (0 < 2 ^ doublings attempt) by (apply Z.pow_pos_nonneg; lia).
  rewrite wrap64_id by (unfold in_int64, int64_min, int64_max; nia).
  case_decide; lia.
Qed.

Lemma baseDelay_pos : 0 < baseDelay.
Proof. unfold baseDelay, second. case_decide; lia. Qed.
Lemma topDelay_pos : 0 < topDelay.
Proof. unfold topDelay, second. case_decide; lia. Qed.

Lemma doublings_mono a b : a ≤ b → 0 ≤ doublings a ≤ doublings b.
Proof. unfold doublings. lia. Qed.
End backoff.

(** ** Display amounts *)

Definition is_digits (l : bytes) : Prop := Forall (λ a, is_Some (digit_of a)) l.

Lemma parse_digits_app acc l1 l2 :
  parse_digits acc (l1 ++ l2) = (v ← parse_digits acc l1; parse_digits v l2).
Proof.
  revert acc. induction l1 as [|a l1 IH]; intros acc; cbn; [done|]. destruct (digit_of a); [apply IH|done].
Qed.

(** The value of digits read after [acc]. *)
Lemma parse_digits_acc acc l :
  is_digits l → ∃ v, parse_digits 0 l = Some v ∧ 0 ≤ v < 10 ^ Z.of_nat (List.length l)
    ∧ parse_digits acc l = Some (acc * 10 ^ Z.of_nat (List.length l) + v).
Proof.
  revert acc. induction l as [|a l IH] using rev_ind; intros acc Hl; [exists 0; cbn; split_and!; [done|lia..|f_equal; lia]|].
  apply Forall_app in Hl as [Hl [d Hd]%Forall_singleton].
  destruct (IH acc Hl) as (v & H1 & H2 & H3). apply digit_of_range in Hd as Hr.
  rewrite List.length_app, Nat2Z.inj_add. cbn [List.length]. rewrite Z.pow_add_r by lia. change (10 ^ Z.of_nat 1) with 10.
  exists (v * 10 + d). rewrite !parse_digits_app, H1, H3. cbn. rewrite Hd. split_and!; [done|lia..|f_equal; lia].
Qed.

Lemma digits_no_char l c : digit_of c = None → is_digits l → c ∉ l.
Proof. intros Hc Hl Hin. unfold is_digits in Hl. rewrite Forall_forall in Hl. destruct (Hl _ Hin). congruence. Qed.

Lemma digits_SetString l v : is_digits l → l ≠ [] → parse_digits 0 l = Some v → SetString10 (of_bytes l) = Some v.
Proof.
  intros Hl Hne Hv. unfold SetString10. rewrite to_of_bytes. destruct l as [|a l]; [done|].
  apply Forall_cons in Hl as [[d Hd] _].
  destruct (Ascii.eqb_spec a "-") as [->|]; [by vm_compute in Hd|].
  destruct (Ascii.eqb_spec a "+") as [->|]; [by vm_compute in Hd|done].
Qed.

Lemma to_bytes_length s : List.length (to_bytes s) = String.length s.
Proof. induction s as [|a s IH]; cbn; [done|]. by f_equal. Qed.

Lemma to_bytes_Repeat n : to_bytes (Repeat "0" n) = replicate n "0"%char.
Proof.
  unfold Repeat. induction n as [|n IH]; [done|]. cbn [replicate String.concat] in *.
  destruct (replicate n "0") as [|s l] eqn:Hn; [by destruct n|]. rewrite <- IH. reflexivity.
Qed.

Lemma zeros_digits n : is_digits (replicate n "0"%char).
Proof. apply Forall_replicate. by exists 0. Qed.

Lemma parse_zeros acc n : parse_digits acc (replicate n "0"%char) = Some (acc * 10 ^ Z.of_nat n).
Proof.
  destruct (parse_digits_acc acc _ (zeros_digits n)) as (v & Hv & _ & ->).
  rewrite length_replicate. f_equal. replace v with 0; [lia|].
  assert (Hz : parse_digits 0 (replicate n "0"%char) = Some 0) by (clear; induction n; [done|]; exact IHn). congruence.
Qed.

(** [i.f] with at most [dec] fraction digits, or just [i]. *)
Lemma normalizeDisplayAmount_digits i f dec v :
  is_digits i → i ≠ [] → is_digits f → Z.of_nat (List.length f) ≤ dec → parse_digits 0 (i ++ f) = Some v →
  normalizeDisplayAmount (of_bytes (i ++ "."%char :: f)) dec
  = Ok (BigString (v * 10 ^ (dec - Z.of_nat (List.length f)))).
Proof.
  intros Hi Hne Hf Hdec Hv. unfold normalizeDisplayAmount.
  assert (Hneg : HasPrefix (of_bytes (i ++ "."%char :: f)) "-" = false).
  { unfold HasPrefix. rewrite to_of_bytes. destruct i as [|a i]; [done|].
    apply Forall_cons in Hi as [[d Hd] _]. cbn [app bytes_prefix to_bytes String.list_ascii_of_string].
    destruct (Ascii.eqb_spec "-" a) as [<-|]; [by vm_compute in Hd|done]. }
  rewrite Hneg. unfold Split. rewrite to_of_bytes, split_app_sep, split_no_sep by by apply digits_no_char.
  cbn [fmap list_fmap List.length nth]. rewrite decide_False by lia.
  destruct (parse_digits_acc 0 i Hi) as (vi & Hvi & Hi0 & _).
  rewrite parse_digits_app, Hvi in Hv. cbn in Hv.
  destruct (parse_digits_acc vi f Hf) as (vf & Hvf & Hf0 & Hv'). rewrite Hv in Hv'. injection Hv' as ->.
  rewrite (decide_False (P := of_bytes i = "")) by (by destruct i).
  rewrite (decide_True (P := 2%nat = 2%nat)) by done.
  rewrite <- (to_bytes_length (of_bytes f)), to_of_bytes.
  rewrite decide_False by lia. rewrite (digits_SetString _ _ Hi Hne Hvi). cbn [from_option_err]. rewrite bind_ok.
  set (k := dec - Z.of_nat (List.length f)).
  assert (Hk : dec = Z.of_nat (List.length f) + k) by lia.
  assert (Hpad : of_bytes f +:+ Repeat "0" (Z.to_nat k) = of_bytes (f ++ replicate (Z.to_nat k) "0"%char)).
  { rewrite <- (of_to_bytes (_ +:+ _)), to_bytes_app, to_of_bytes, to_bytes_Repeat. done. }
  rewrite Hpad. case_decide as He.
  - assert (f = [] ∧ k = 0) as [-> Hk0].
    { destruct f; [|done]. destruct (decide (k = 0)); [done|]. destruct (Z.to_nat k) eqn:Hn; [lia|done]. }
    rewrite Hk0 in *. cbn in Hvf. injection Hvf as <-. do 2 f_equal. rewrite Hk. cbn. lia.
  - assert (Hnil : f ++ replicate (Z.to_nat k) "0"%char ≠ []) by (intros Hn; by rewrite Hn in He).
    rewrite (digits_SetString _ (vf * 10 ^ k)); [|apply Forall_app; split; [done|apply zeros_digits]|done|].
    + cbn [from_option_err]. rewrite bind_ok. do 2 f_equal. rewrite Hk, Z.pow_add_r by lia. lia.
    + rewrite parse_digits_app, Hvf. cbn. rewrite parse_zeros. do 3 f_equal. lia.
Qed.
