(* ===== verification/DispatcherTraces.v ===== *)
(** * What a withdrawal job can do

    The possible traces of the orchestrator's and the dispatcher's programs,
    whatever the chain gateway, the sign service and the database answer. *)
From S2P Require Import Prelude GoStrings GoNumbers Ports LedgerTables Calls Orchestrator Dispatcher.

(** ** Observations on traces *)

(** A transaction handed to the chain gateway, with what came back: its hash,
    or an error.  An error may be the chain's refusal or an answer that was lost
    on the way; the caller cannot tell them apart, so both count. *)
Definition sent_of {R} (c : port R) : R → option (BroadcastParams * result string) :=
  match c in port R return R → option (BroadcastParams * result string) with
  | Broadcast p => λ r, Some (p, r)
  | _ => λ _, None
  end.
Definition sent (tr : list event) : list (BroadcastParams * result string) :=
  omap (λ e, match e with Ev c r => sent_of c r end) tr.

(** Nothing was handed over, or one transaction and the answer was this error. *)
Definition unsent (e : error) (l : list (BroadcastParams * result string)) : Prop :=
  l = [] ∨ ∃ p, l = [(p, Err e)].

Lemma unsent_length e l : unsent e l → (List.length l ≤ 1)%nat.
Proof. intros [->|[p ->]]; cbn; lia. Qed.

(** The writing ledger calls with their answers. *)
Definition ledger_call_of {R} (c : port R) : R → option (ledger_call * result ()) :=
  match c in port R return R → option (ledger_call * result ()) with
  | LedgerCall c => λ r, Some (c, r)
  | _ => λ _, None
  end.
Definition ledger_calls (tr : list event) : list (ledger_call * result ()) :=
  omap (λ e, match e with Ev c r => ledger_call_of c r end) tr.

Lemma sent_app tr1 tr2 : sent (tr1 ++ tr2) = sent tr1 ++ sent tr2.
Proof. apply omap_app. Qed.
Lemma ledger_calls_app tr1 tr2 : ledger_calls (tr1 ++ tr2) = ledger_calls tr1 ++ ledger_calls tr2.
Proof. apply omap_app. Qed.
#[export] Hint Rewrite sent_app ledger_calls_app : ledger.

Lemma exec_call {R} (c : port R) tr r : exec (call c) tr r ↔ tr = [Ev c r].
Proof.
  cbn. split.
  - by intros (r' & tr' & -> & -> & ->).
  - intros ->. by exists r, [].
Qed.

(** *** Programs that only read *)

(** Every call of [p], under any answers, satisfies [Q]. *)
Fixpoint all_calls (Q : ∀ R, port R → Prop) {A} (p : prog A) : Prop :=
  match p with
  | Ret _ => True
  | Call c k => Q _ c ∧ ∀ r, all_calls Q (k r)
  end.

Lemma all_calls_bind Q {A B} (p : prog A) (f : A → prog B) :
  all_calls Q p → (∀ a, all_calls Q (f a)) → all_calls Q (p ≫= f).
Proof.
  intros Hp Hf. induction p as [a|R c k IH]; cbn in *; [apply Hf|].
  destruct Hp as [Hc Hk]. split; [done|]. intros r. by apply IH.
Qed.

Lemma all_calls_bind_ok Q {A B} (p : prog (result A)) (f : A → prog (result B)) :
  all_calls Q p → (∀ a, all_calls Q (f a)) → all_calls Q (x ⇐ p; f x).
Proof. intros Hp Hf. apply all_calls_bind; [done|]. by intros [a|e]. Qed.

Lemma all_calls_mono (Q Q' : ∀ R, port R → Prop) {A} (p : prog A) :
  (∀ R c, Q R c → Q' R c) → all_calls Q p → all_calls Q' p.
Proof.
  intros HQ. induction p as [a|R c k IH]; cbn; [done|]. intros [? Hk]. split; [auto|]. eauto.
Qed.

Lemma exec_all_calls Q {A} (p : prog A) tr a :
  all_calls Q p → exec p tr a → Forall (λ e, match e with Ev c _ => Q _ c end) tr.
Proof.
  revert tr. induction p as [a'|R c k IH]; intros tr Hp; cbn in *.
  - by intros [-> _].
  - intros (r & tr' & -> & H). destruct Hp as [Hc Hk]. constructor; [done|]. eapply IH; eauto.
Qed.

(** Reads of the chain and signatures: neither a broadcast nor a write. *)
Definition silent {R} (c : port R) : Prop :=
  match c with LedgerCall _ | Broadcast _ | ClaimQueued _ | ClaimStale _ _ _ => False | _ => True end.

Lemma silent_trace {A} (p : prog A) tr a :
  all_calls (@silent) p → exec p tr a → sent tr = [] ∧ ledger_calls tr = [].
Proof.
  intros Hp H. pose proof (exec_all_calls _ _ _ _ Hp H) as Hall. clear H.
  induction Hall as [|[R c r] tr Hc _ [IH1 IH2]]; [done|]. cbn.
  destruct c; by try destruct Hc.
Qed.

(** ** The orchestrator *)

Section traces.
Context `{SolanaLib} `{PayloadCodec}.

Lemma ensureChainFunds_silent req : all_calls (@silent) (ensureChainFunds req).
Proof.
  unfold ensureChainFunds. destruct (negb _); [done|]. case_decide; [done|].
  apply all_calls_bind_ok; [done|]. intros amt.
  apply all_calls_bind_ok; [apply all_calls_bind; by try intros|]. intros bal.
  apply all_calls_bind_ok; [done|]. intros []; cbn; [|done].
  split; [done|]. intros [native|]; cbn; [|done].
  apply all_calls_bind_ok.
  - unfold requiredLamports. destruct (solanaAssociatedTokenAddress _ _); [|done]. by cbn.
  - intros lamports. by destruct (gteAmount _ _) as [[]|].
Qed.

Lemma signEach_silent t st ch signers i hashes : all_calls (@silent) (signEach t st ch signers i hashes).
Proof.
  revert i. induction hashes as [|h hashes IH]; intros i; cbn [signEach]; [done|].
  destruct (signers !! _) as [s|]; [|done].
  apply all_calls_bind_ok; [by cbn|]. intros sig.
  apply all_calls_bind_ok; [apply IH|]. done.
Qed.

Lemma buildSignatures_silent t st ch signers hashes :
  all_calls (@silent) (buildSignatures t st ch signers hashes).
Proof. unfold buildSignatures. do 2 (case_decide; [done|]). apply signEach_silent. Qed.

(** Building, signing and broadcasting reaches the ledger never and hands over
    one transaction at most; it succeeds with the hash that came back, and every
    error of the broadcast is its own. *)
Lemma buildSignAndBroadcast_trace req tr r :
  exec (buildSignAndBroadcast req) tr r →
  ledger_calls tr = [] ∧
  match r with
  | Ok b => ∃ p, sent tr = [(p, Ok (bd_TxHash b))]
  | Err e => unsent e (sent tr)
  end.
Proof.
  unfold buildSignAndBroadcast. intros Hx.
  apply exec_bind_ok in Hx as (tr1 & tr2 & [u|e] & -> & C1%exec_call & Hx);
    [subst tr1|destruct Hx as [-> ->]; subst tr1; split; [done|by left]].
  apply exec_bind_ok in Hx as (tr1 & tr3 & [signers|e] & -> & [-> _] & Hx);
    [|destruct Hx as [-> ->]; split; [done|by left]].
  case_decide.
  - destruct signers as [|s signers]; [destruct Hx as [-> ->]; split; [done|by left]|].
    apply exec_bind_ok in Hx as (tr1 & tr2 & h & -> & Hs & Hx).
    unfold signAndBroadcastRaw in Hs.
    apply exec_bind_ok in Hs as (tr4 & tr5 & [sig|e] & -> & C1%exec_call & Hs); subst tr4.
    + apply exec_call in Hs. subst tr5. unfold unsent.
      destruct h as [h|e]; destruct Hx as [-> ->]; cbn; eauto.
    + destruct Hs as [-> ->], Hx as [-> ->]. split; [done|by left].
  - apply exec_bind_ok in Hx as (tr1 & tr2 & sigs & -> & Hs & Hx).
    destruct (silent_trace _ _ _ (buildSignatures_silent _ _ _ _ _) Hs) as [E1 E2].
    destruct sigs as [sigs|e].
    + apply exec_bind_ok in Hx as (tr4 & tr5 & h & -> & C1%exec_call & Hx). subst tr4.
      unfold unsent.
      destruct h as [h|e]; destruct Hx as [-> ->]; autorewrite with ledger; rewrite E1, E2; cbn; eauto.
    + destruct Hx as [-> ->]. autorewrite with ledger. rewrite E1, E2. split; [done|by left].
Qed.

(** [ensureChainFunds] in front of it changes nothing of that. *)
Lemma BroadcastOnly_trace req tr r :
  exec (BroadcastOnly req) tr r →
  ledger_calls tr = [] ∧
  match r with
  | Ok b => ∃ p, sent tr = [(p, Ok (bd_TxHash b))]
  | Err e => unsent e (sent tr)
  end.
Proof.
  unfold BroadcastOnly. intros (tr1 & tr2 & [u|e] & -> & H1 & Hx)%exec_bind_ok;
    destruct (silent_trace _ _ _ (ensureChainFunds_silent _) H1) as [E1 E2]; autorewrite with ledger; rewrite E1, E2.
  - by apply buildSignAndBroadcast_trace in Hx.
  - destruct Hx as [-> ->]. split; [done|by left].
Qed.

(** [ExecuteQueuedWithUnsigned] is [BroadcastOnly] and, after a broadcast, one
    [ConfirmWithdraw]. *)
Lemma ExecuteQueued_trace req tr r :
  exec (ExecuteQueuedWithUnsigned req) tr r →
  (∃ e, r = Err e ∧ unsent e (sent tr) ∧ ledger_calls tr = []) ∨
  (∃ p b c, sent tr = [(p, Ok (bd_TxHash b))]
     ∧ ledger_calls tr = [(ConfirmWithdrawCall (rq_TenantID req) (rq_AccountID req) (rq_OrderID req) (bd_TxHash b), c)]
     ∧ r = match c with Ok _ => Ok b | Err e => confirmFailed (bd_TxHash b) e end).
Proof.
  unfold ExecuteQueuedWithUnsigned. intros (tr1 & tr2 & [u|e] & -> & H1 & Hx)%exec_bind_ok;
    destruct (silent_trace _ _ _ (ensureChainFunds_silent _) H1) as [E1 E2]; autorewrite with ledger; rewrite E1, E2;
    cbn [app].
  2: { destruct Hx as [-> ->]. left. exists e. split_and!; [done|by left|done]. }
  apply exec_bind_ok in Hx as (tr3 & tr4 & [b|e] & -> & Hb & Hx);
    apply buildSignAndBroadcast_trace in Hb as [E3 Hs]; autorewrite with ledger; rewrite E3; cbn [app].
  - destruct Hs as [p Hs]. rewrite Hs. right.
    apply exec_bind in Hx as (tr5 & tr6 & c & -> & Hc%exec_call & Hx). subst tr5. exists p, b, c.
    destruct c; destruct Hx as [-> ->]; done.
  - destruct Hx as [-> ->]. left. exists e. cbn. rewrite app_nil_r. by split_and!.
Qed.

(** ** The dispatcher *)

(** What follows a failed attempt. *)
Definition after_failure (d : WithdrawDispatcher) (job : WithdrawJob) (reason : string)
    (calls : list (ledger_call * result ())) : Prop :=
  if shouldRetry d (wj_AttemptCount job) then
    ∃ r, calls = [(RescheduleQueuedWithdrawCall (wj_TenantID job) (wj_OrderID job) reason
                    (retryDelay d (wj_AttemptCount job)), r)]
  else
    ∃ released r, calls =
      [(ReleaseWithdrawCall (wj_TenantID job) (wj_AccountID job) (wj_OrderID job) reason, released);
       (MarkQueuedWithdrawFailedCall (wj_TenantID job) (wj_OrderID job)
          (match released with Ok _ => reason | Err e => reason +:+ "; release failed: " +:+ error_text e end), r)].

Lemma jobFailed_trace d job reason tr u :
  exec (jobFailed d job reason) tr u → sent tr = [] ∧ after_failure d job reason (ledger_calls tr).
Proof.
  unfold jobFailed, after_failure. destruct (shouldRetry d _).
  - intros (tr1 & tr2 & r & -> & C1%exec_call & [-> _])%exec_bind. subst tr1. cbn. eauto.
  - intros (tr1 & tr2 & r & -> & C1%exec_call & H2)%exec_bind. subst tr1.
    apply exec_bind in H2 as (tr3 & tr4 & r2 & -> & H3%exec_call & [-> _]). subst tr3. cbn. eauto.
Qed.

Lemma handleJob_trace d job tr u :
  exec (handleJob d job) tr u →
  let confirm h := ConfirmWithdrawCall (wj_TenantID job) (wj_AccountID job) (wj_OrderID job) h in
  (∃ e, unsent e (sent tr) ∧ after_failure d job (error_text e) (ledger_calls tr)) ∨
  (∃ p h unsigned r, sent tr = [(p, Ok h)] ∧ ledger_calls tr =
     [(confirm h, Ok ());
      (MarkQueuedWithdrawDoneCall (wj_TenantID job) (wj_OrderID job) h unsigned, r)]) ∨
  (∃ p h e rest, sent tr = [(p, Ok h)] ∧ ledger_calls tr = (confirm h, Err e) :: rest
     ∧ after_failure d job ("withdraw broadcasted but ledger confirm failed, txHash=" +:+ h +:+ ": " +:+ error_text e) rest).
Proof.
  unfold handleJob. intros (tr1 & tr2 & r & -> & Hx & H2)%exec_bind.
  apply ExecuteQueued_trace in Hx as [(e & -> & E1 & E2)|(p & b & c & E1 & E2 & ->)];
    autorewrite with ledger; rewrite E2; [|rewrite E1]; cbn [app].
  - apply jobFailed_trace in H2 as [-> ?]. rewrite app_nil_r. left. eauto.
  - destruct c as [[]|e]; cbn in H2.
    + destruct H2 as (r & tr3 & -> & [-> _]). right; left. cbn. eauto 10.
    + apply jobFailed_trace in H2 as [-> ?]. right; right. eauto 10.
Qed.
End traces.
