(* ===== verification/Handlers.v ===== *)
(** * Requests and responses of wallet-core's HTTP API

    The structs of [transport/http/handler_types.go], field by field; JSON
    encoding is the standard library's. *)
From S2P Require Import Prelude Ports.

Record vin := {
  hvin_Hash : string;
  hvin_Index : Z;
  hvin_Amount : Z;
  hvin_Address : string;
}.

Record vout := {
  hvout_Address : string;
  hvout_Amount : Z;
  hvout_Index : Z;
}.

Record CreateWithdrawRequest := {
  cwq_TenantID : string;
  cwq_AccountID : string;
  cwq_OrderID : string;
  cwq_KeyID : string;
  cwq_KeyIDs : list string;
  cwq_SignType : string;
  cwq_Chain : string;
  cwq_Network : string;
  cwq_Coin : string;
  cwq_From : string;
  cwq_To : string;
  cwq_Amount : string;
  cwq_ContractAddress : string;
  cwq_AmountUnit : string;
  cwq_TokenDecimals : Z;
  cwq_Base64Tx : string;
  cwq_Fee : string;
  cwq_Vin : list vin;
  cwq_Vout : list vout;
}.

Record DepositNotifyRequest := {
  dnq_TenantID : string;
  dnq_AccountID : string;
  dnq_OrderID : string;
  dnq_Chain : string;
  dnq_Network : string;
  dnq_Coin : string;
  dnq_Amount : string;
  dnq_TxHash : string;
  dnq_FromAddress : string;
  dnq_ToAddress : string;
  dnq_Confirmations : Z;
  dnq_RequiredConfs : Z;
  dnq_UnlockConfs : Z;
  dnq_ScanStatus : string;
  dnq_Status : string;
}.

Record SweepRunRequest := {
  srq_TenantID : string;
  srq_SweepOrderID : string;
  srq_FromAccountID : string;
  srq_TreasuryAccountID : string;
  srq_ColdAccountID : string;
  srq_HotBalanceCap : string;
  srq_Chain : string;
  srq_Network : string;
  srq_Asset : string;
  srq_Amount : string;
}.

Record WithdrawOnchainNotifyRequest := {
  wnq_TenantID : string;
  wnq_OrderID : string;
  wnq_TxHash : string;
  wnq_Status : string;
  wnq_Reason : string;
  wnq_Confirmations : Z;
  wnq_RequiredConfs : Z;
}.

Record SweepOnchainNotifyRequest := {
  snq_TenantID : string;
  snq_SweepOrderID : string;
  snq_TxHash : string;
  snq_Status : string;
  snq_Reason : string;
  snq_Confirmations : Z;
  snq_RequiredConfs : Z;
}.

Record TreasuryTransferRequest := {
  ttq_TenantID : string;
  ttq_TransferOrderID : string;
  ttq_FromAccountID : string;
  ttq_ToAccountID : string;
  ttq_Chain : string;
  ttq_Network : string;
  ttq_Asset : string;
  ttq_Amount : string;
  ttq_SourceTier : string;
  ttq_DestinationTier : string;
}.

Record TreasuryTransferOnchainNotifyRequest := {
  tnq_TenantID : string;
  tnq_TransferOrderID : string;
  tnq_TxHash : string;
  tnq_Status : string;
  tnq_Reason : string;
  tnq_Confirmations : Z;
  tnq_RequiredConfs : Z;
}.

Record CreateWithdrawResponse := {
  cwr_TxHash : string;
  cwr_Status : string;
}.

Record WithdrawStatusResponse := {
  wsr_TenantID : string;
  wsr_OrderID : string;
  wsr_Ledger : LedgerStatus;
}.

Record SweepRunResponse := {
  srr_Status : string;
  srr_TxHash : string;
  srr_DestinationAccountID : string;
  srr_DestinationTier : string;
}.

Record TreasuryTransferResponse := {
  ttr_Status : string;
  ttr_TxHash : string;
  ttr_TransferOrderID : string;
  ttr_SourceTier : string;
  ttr_DestinationTier : string;
}.

Record TreasuryTransferStatusResponse := {
  tsr_TenantID : string;
  tsr_TransferOrderID : string;
  tsr_Transfer : TreasuryTransferStatus;
}.

Record TreasuryWaterlineResponse := {
  twr_TenantID : string;
  twr_Asset : string;
  twr_HotAccountID : string;
  twr_ColdAccountID : string;
  twr_HotVaultAvailable : string;
  twr_ColdVaultAvailable : string;
  twr_HotBalanceCap : string;
  twr_HotBalanceFloor : string;
  twr_State : string;
  twr_RecommendedAction : string;
  twr_SuggestedTransferAmount : string;
}.

Record BalanceResponse := {
  blr_TenantID : string;
  blr_AccountID : string;
  blr_Asset : string;
  blr_Available : string;
  blr_Frozen : string;
  blr_WithdrawLocked : string;
  blr_Withdrawable : string;
}.

Record AccountUpsertRequest := {
  auq_TenantID : string;
  auq_AccountID : string;
  auq_AccountTag : string;
  auq_Status : string;
  auq_Remark : string;
}.

Record AccountResponse := {
  acr_TenantID : string;
  acr_AccountID : string;
  acr_AccountTag : string;
  acr_Status : string;
  acr_Remark : string;
  acr_CreatedAt : string;
  acr_UpdatedAt : string;
}.

Record AccountListResponse := {
  alr_Items : list AccountResponse;
}.

Record AccountAddressesResponse := {
  aar_Items : list WalletAddress;
}.

Record AccountAssetsResponse := {
  asr_Items : list AccountAsset;
}.

(** * HTTP handlers: withdrawals, deposits, accounts

    [transport/http]: each handler as a program from a request to a response.
    A request is its method, its query, its [X-Request-ID] header and its body
    as [json.Decode] leaves it ([None] when that fails); a response is either
    [http.Error]'s status and message or the encoded value. *)
From S2P Require Import GoStrings GoNumbers LedgerTables Calls.

Record http_request (B : Type) := {
  hq_Method : string;
  hq_RequestID : string;
  hq_Query : string → string;
  hq_Body : option B;
}.
Arguments hq_Method {B} h. Arguments hq_RequestID {B} h. Arguments hq_Query {B} h. Arguments hq_Body {B} h.

Inductive reply (A : Type) : Type :=
  | HttpOk (a : A)
  | HttpError (status : Z) (msg : string).
Arguments HttpOk {A} a.
Arguments HttpError {A} status msg.

Definition is_reply {A} (r : reply A) : bool := match r with HttpOk _ => true | HttpError _ _ => false end.

Definition bind_reply {A B} (p : prog (reply A)) (f : A → prog (reply B)) : prog (reply B) :=
  r ← p; match r with HttpOk a => f a | HttpError s m => Ret (HttpError s m) end.
Notation "x ↢ p ; q" := (bind_reply p (λ x, q))
  (at level 20, p at level 100, q at level 200, right associativity).

(** [if err != nil { http.Error(w, err.Error(), status); return }] *)
Definition orHttp {A} (status : Z) (p : prog (result A)) : prog (reply A) :=
  r ← p; Ret (match r with Ok a => HttpOk a | Err e => HttpError status (error_text e) end).

Definition guard_http (ok : bool) (status : Z) (msg : string) : prog (reply ()) :=
  Ret (if ok then HttpOk () else HttpError status msg).

Definition isMethod {B} (r : http_request B) (m : string) : prog (reply ()) :=
  guard_http (bool_decide (hq_Method r = m)) 405 "method not allowed".

Definition decodeJSONBody {B} (r : http_request B) : prog (reply B) :=
  Ret (match hq_Body r with Some b => HttpOk b | None => HttpError 400 "invalid json" end).

(** None of the required fields is empty. *)
Definition all_set (fields : list string) : bool := forallb (λ s, bool_decide (s ≠ "")) fields.

(** Which optional ports are wired. *)
Record WithdrawHandler := { wh_Registry : bool; wh_Ledger : bool; wh_KeyManager : bool; wh_ChainAddr : bool }.

(** ** Shared checks *)

Section handlers.
Variable h : WithdrawHandler.

Definition ensureAccountActive (tenantID accountID action : string) : prog (reply ()) :=
  if negb (wh_Registry h) then Ret (HttpOk ()) else
  acc ← call (AccountOf tenantID accountID);
  Ret (match acc with
       | Err ErrNoRows => HttpError 404 "account not found"
       | Err e => HttpError 500 (error_text e)
       | Ok a =>
           if decide (ToUpper (TrimSpace (wa_Status a)) = "ACTIVE") then HttpOk ()
           else HttpError 403 ("account is not active for " +:+ action)
       end).

(** The required confirmations of a chain that is enabled. *)
Definition policyConfirmations (chain network : string) : prog (reply Z) :=
  if negb (wh_Registry h) then Ret (HttpOk 1) else
  policy ↢ orHttp 400 (call (ChainPolicyOf chain network));
  if negb (cp_Enabled policy) then Ret (HttpError 400 "chain/network policy disabled") else
  Ret (HttpOk (if decide (0 < cp_RequiredConfirmations policy) then cp_RequiredConfirmations policy else 1)).

(** [generateRequestID]: the random part is the port's. *)
Definition generateRequestID (prefix : string) : prog string :=
  let p := TrimSpace prefix in
  call (FreshRequestID (if decide (p = "") then "req" else p)).

Definition requestIDFrom (header fallback : string) : prog string :=
  let v := TrimSpace header in
  if decide (v ≠ "") then Ret v
  else if decide (TrimSpace fallback ≠ "") then generateRequestID fallback
  else Ret fallback.

(** [attempts] tries with a pause in between. *)
Fixpoint retryFrom (n : nat) (fn : prog (result ())) : prog (result ()) :=
  match n with
  | O => Ret (Ok ())
  | S n' =>
      r ← fn;
      match r with
      | Ok u => Ret (Ok u)
      | Err e => match n' with O => Ret (Err e) | S _ => retryFrom n' fn end
      end
  end.
Definition retryLedgerMutation (attempts : Z) (fn : prog (result ())) : prog (result ()) :=
  retryFrom (Z.to_nat (if decide (attempts ≤ 0) then 1 else attempts)) fn.

(** ** Addresses *)

Definition isActiveAddress (it : WalletAddress) : bool := bool_decide (ToUpper (TrimSpace (wd_Status it)) = "ACTIVE").

Definition matchesAddress (chain network : string) (it : WalletAddress) : bool :=
  isActiveAddress it
  && bool_decide (ToLower (TrimSpace (wd_Chain it)) = chain)
  && bool_decide (ToLower (TrimSpace (wd_Network it)) = network)
  && bool_decide (TrimSpace (wd_Address it) ≠ "") && bool_decide (TrimSpace (wd_PublicKey it) ≠ "").

Definition findAccountAddress (tenantID accountID chain network coin : string) : prog (result WalletAddress) :=
  items ⇐ call (AddressesOf tenantID accountID);
  let chain := ToLower (TrimSpace chain) in
  let network := ToLower (TrimSpace network) in
  Ret (from_option_err
         (Errorf ("active address not found for account=" +:+ accountID +:+ " chain=" +:+ chain
                  +:+ " network=" +:+ network +:+ " coin=" +:+ coin))
         (List.find (matchesAddress chain network) items)).

Definition findAccountAddressByKeyID (tenantID accountID keyID : string) : prog (result WalletAddress) :=
  let keyID := TrimSpace keyID in
  if decide (keyID = "") then Ret (Err (Errorf "key_id is required")) else
  if negb (wh_Registry h) then Ret (Err (Errorf "address registry not enabled")) else
  item ← call (AddressByKeyID tenantID accountID keyID);
  match item with
  | Ok it => Ret (Ok it)
  | Err err =>
      items ← call (AddressesOf tenantID accountID);
      match items with
      | Err _ => Ret (Err err)
      | Ok items =>
          Ret (from_option_err err
                 (List.find (λ it, bool_decide (TrimSpace (wd_KeyID it) = keyID) && isActiveAddress it) items))
      end
  end.

(** ** Withdrawals *)

(** The loop over the requested key ids. *)
Fixpoint signersOf (tenantID accountID : string) (keyIDs : list string) : prog (result (list SignerRef)) :=
  match keyIDs with
  | [] => Ret (Ok [])
  | keyID :: rest =>
      addr ⇐ findAccountAddressByKeyID tenantID accountID keyID;
      if decide (TrimSpace (wd_PublicKey addr) = "") then
        Ret (Err (Errorf ("public key not found for key_id=" +:+ keyID)))
      else
        signers ⇐ signersOf tenantID accountID rest;
        Ret (Ok ({| sr_KeyID := keyID; sr_PublicKey := wd_PublicKey addr |} :: signers))
  end.

Definition requestedKeys (req : CreateWithdrawRequest) : list string :=
  List.filter (λ k, bool_decide (k ≠ "")) (List.map TrimSpace (cwq_KeyID req :: cwq_KeyIDs req)).

Definition resolveWithdrawSigners (req : CreateWithdrawRequest) : prog (result (list SignerRef)) :=
  match requestedKeys req with
  | [] => Ret (Err (Errorf "missing key id"))
  | keyIDs => signersOf (cwq_TenantID req) (cwq_AccountID req) keyIDs
  end.

Definition withdrawTx (req : CreateWithdrawRequest) : BuildUnsignedParams := {|
  bp_Chain := cwq_Chain req; bp_Network := cwq_Network req; bp_Coin := cwq_Coin req; bp_From := cwq_From req;
  bp_To := cwq_To req; bp_Amount := cwq_Amount req; bp_Base64Tx := cwq_Base64Tx req;
  bp_ContractAddress := cwq_ContractAddress req; bp_AmountUnit := cwq_AmountUnit req;
  bp_TokenDecimals := cwq_TokenDecimals req; bp_Fee := cwq_Fee req;
  bp_Vin := List.map (λ x, {| vin_Hash := hvin_Hash x; vin_Index := hvin_Index x; vin_Amount := hvin_Amount x;
                              vin_Address := hvin_Address x |}) (cwq_Vin req);
  bp_Vout := List.map (λ x, {| vout_Address := hvout_Address x; vout_Amount := hvout_Amount x;
                               vout_Index := hvout_Index x |}) (cwq_Vout req) |}.

Definition Create (r : http_request CreateWithdrawRequest) : prog (reply CreateWithdrawResponse) :=
  _ ↢ isMethod r "POST";
  req ↢ decodeJSONBody r;
  _ ↢ guard_http (all_set [cwq_TenantID req; cwq_AccountID req; cwq_OrderID req; cwq_Chain req; cwq_Network req;
                           cwq_Coin req; cwq_Amount req]) 400
        "tenant_id/account_id/order_id/chain/network/coin/amount are required";
  _ ↢ guard_http (bool_decide (TrimSpace (cwq_KeyID req) ≠ "") || bool_decide (cwq_KeyIDs req ≠ [])) 400
        "key_id or key_ids are required";
  _ ↢ ensureAccountActive (cwq_TenantID req) (cwq_AccountID req) "withdraw";
  requiredConfs ↢ policyConfirmations (cwq_Chain req) (cwq_Network req);
  existing ← call (WithdrawStatusOf (cwq_TenantID req) (cwq_OrderID req));
  match existing with
  | Ok st =>
      if decide (ls_Status st ∈ ["CONFIRMED"; "BROADCASTED"; "QUEUED"; "PROCESSING"; "FROZEN"]) then
        Ret (HttpOk {| cwr_TxHash := ls_TxHash st; cwr_Status := ls_Status st |})
      else Ret (HttpError 409 ("withdraw order already exists with status=" +:+ ls_Status st))
  | Err (Errorf msg | Unsupported msg) => Ret (HttpError 500 msg)
  | Err ErrNoRows =>
      signers ↢ orHttp 400 (resolveWithdrawSigners req);
      _ ↢ orHttp 400 (call (LedgerCall (QueueWithdrawCall
            {| wq_TenantID := cwq_TenantID req; wq_AccountID := cwq_AccountID req; wq_OrderID := cwq_OrderID req;
               wq_RequiredConfs := requiredConfs; wq_Signers := signers; wq_SignType := cwq_SignType req;
               wq_Tx := withdrawTx req |})));
      Ret (HttpOk {| cwr_TxHash := ""; cwr_Status := "QUEUED" |})
  end.

(** [strings.ToUpper(strings.TrimSpace(req.Status))], [CONFIRMED] by default. *)
Definition notifiedStatus (status : string) : string :=
  let status := ToUpper (TrimSpace status) in if decide (status = "") then "CONFIRMED" else status.
Definition notifiedReason (reason : string) : string :=
  let reason := TrimSpace reason in if decide (reason = "") then "onchain failed" else reason.

(** The switch shared by the three on-chain notifications. *)
Definition onchainNotify (status : string) (confirm fail : ledger_call) : prog (reply ()) :=
  let status := notifiedStatus status in
  if decide (status = "CONFIRMED") then orHttp 400 (call (LedgerCall confirm))
  else if decide (status = "FAILED" ∨ status = "REVERTED") then orHttp 400 (call (LedgerCall fail))
  else Ret (HttpError 400 "invalid status").

Definition WithdrawOnchainNotify (r : http_request WithdrawOnchainNotifyRequest) : prog (reply ()) :=
  _ ↢ isMethod r "POST";
  req ↢ decodeJSONBody r;
  _ ↢ guard_http (all_set [wnq_TenantID req; wnq_OrderID req; wnq_TxHash req]) 400
        "tenant_id/order_id/tx_hash are required";
  onchainNotify (wnq_Status req)
    (ConfirmWithdrawOnChainCall (wnq_TenantID req) (wnq_OrderID req) (wnq_TxHash req)
       (wnq_Confirmations req) (wnq_RequiredConfs req))
    (FailWithdrawOnChainCall (wnq_TenantID req) (wnq_OrderID req) (wnq_TxHash req)
       (notifiedReason (wnq_Reason req)) (wnq_Confirmations req)).

Definition Status (r : http_request ()) : prog (reply WithdrawStatusResponse) :=
  _ ↢ isMethod r "GET";
  let tenantID := hq_Query r "tenant_id" in
  let orderID := hq_Query r "order_id" in
  _ ↢ guard_http (all_set [tenantID; orderID]) 400 "tenant_id and order_id are required";
  ledgerStatus ← call (WithdrawStatusOf tenantID orderID);
  Ret (match ledgerStatus with
       | Err (Errorf msg | Unsupported msg) => HttpError 500 msg
       | Err ErrNoRows => HttpError 404 "withdraw order not found"
       | Ok st => HttpOk {| wsr_TenantID := tenantID; wsr_OrderID := orderID; wsr_Ledger := st |}
       end).

(** ** Deposits *)

Definition creditInput (req : DepositNotifyRequest) : DepositCreditInput :=
  {| dc_TenantID := dnq_TenantID req; dc_AccountID := dnq_AccountID req; dc_OrderID := dnq_OrderID req;
     dc_Chain := dnq_Chain req; dc_Network := dnq_Network req; dc_Coin := dnq_Coin req;
     dc_Amount := dnq_Amount req; dc_TxHash := dnq_TxHash req; dc_FromAddress := dnq_FromAddress req;
     dc_ToAddress := dnq_ToAddress req; dc_Confirmations := dnq_Confirmations req;
     dc_RequiredConfs := dnq_RequiredConfs req; dc_UnlockConfs := dnq_UnlockConfs req;
     dc_ScanStatus := dnq_ScanStatus req; dc_Status := dnq_Status req |}.

Definition DepositNotify (r : http_request DepositNotifyRequest) : prog (reply ()) :=
  _ ↢ isMethod r "POST";
  req ↢ decodeJSONBody r;
  _ ↢ guard_http (all_set [dnq_TenantID req; dnq_AccountID req; dnq_OrderID req; dnq_Chain req; dnq_Network req;
                           dnq_Coin req; dnq_Amount req]) 400
        "tenant_id/account_id/order_id/chain/network/coin/amount are required";
  _ ↢ ensureAccountActive (dnq_TenantID req) (dnq_AccountID req) "deposit_notify";
  orHttp 400 (call (LedgerCall (CreditDepositCall (creditInput req)))).

(** ** Accounts *)

Definition Balance (r : http_request ()) : prog (reply BalanceResponse) :=
  _ ↢ isMethod r "GET";
  let tenantID := hq_Query r "tenant_id" in
  let accountID := hq_Query r "account_id" in
  let asset := hq_Query r "asset" in
  _ ↢ guard_http (all_set [tenantID; accountID; asset]) 400 "tenant_id, account_id and asset are required";
  bal ↢ orHttp 500 (call (BalanceOf tenantID accountID asset));
  Ret (HttpOk {| blr_TenantID := tenantID; blr_AccountID := accountID; blr_Asset := asset;
                 blr_Available := bs_Available bal; blr_Frozen := bs_Frozen bal;
                 blr_WithdrawLocked := bs_WithdrawLocked bal; blr_Withdrawable := bs_Withdrawable bal |}).

Definition accountResponse (out : WalletAccount) : AccountResponse := {|
  acr_TenantID := wa_TenantID out; acr_AccountID := wa_AccountID out; acr_AccountTag := wa_AccountTag out;
  acr_Status := wa_Status out; acr_Remark := wa_Remark out; acr_CreatedAt := wa_CreatedAt out;
  acr_UpdatedAt := wa_UpdatedAt out |}.

Definition AccountUpsert (r : http_request AccountUpsertRequest) : prog (reply AccountResponse) :=
  _ ↢ isMethod r "POST";
  _ ↢ guard_http (wh_Registry h) 501 "account registry not enabled";
  req ↢ decodeJSONBody r;
  _ ↢ guard_http (all_set [auq_TenantID req; auq_AccountID req]) 400 "tenant_id/account_id are required";
  out ↢ orHttp 400 (call (UpsertAccount
    {| wa_TenantID := auq_TenantID req; wa_AccountID := auq_AccountID req; wa_AccountTag := auq_AccountTag req;
       wa_Status := auq_Status req; wa_Remark := auq_Remark req; wa_CreatedAt := ""; wa_UpdatedAt := "" |}));
  Ret (HttpOk (accountResponse out)).

Definition AccountGet (r : http_request ()) : prog (reply AccountResponse) :=
  _ ↢ isMethod r "GET";
  let tenantID := hq_Query r "tenant_id" in
  let accountID := hq_Query r "account_id" in
  _ ↢ guard_http (all_set [tenantID; accountID]) 400 "tenant_id/account_id are required";
  out ← call (AccountOf tenantID accountID);
  Ret (match out with
       | Err ErrNoRows => HttpError 404 "account not found"
       | Err (Errorf msg | Unsupported msg) => HttpError 500 msg
       | Ok out => HttpOk (accountResponse out)
       end).

Definition AccountList (r : http_request ()) : prog (reply AccountListResponse) :=
  _ ↢ isMethod r "GET";
  let tenantID := hq_Query r "tenant_id" in
  _ ↢ guard_http (all_set [tenantID]) 400 "tenant_id is required";
  items ↢ orHttp 500 (call (ListAccounts tenantID 100 0));
  Ret (HttpOk {| alr_Items := List.map accountResponse items |}).

Definition AccountAddresses (r : http_request ()) : prog (reply AccountAddressesResponse) :=
  _ ↢ isMethod r "GET";
  let tenantID := hq_Query r "tenant_id" in
  let accountID := hq_Query r "account_id" in
  _ ↢ guard_http (all_set [tenantID; accountID]) 400 "tenant_id/account_id are required";
  items ↢ orHttp 500 (call (AddressesOf tenantID accountID));
  Ret (HttpOk {| aar_Items := items |}).

Definition AccountAssets (r : http_request ()) : prog (reply AccountAssetsResponse) :=
  _ ↢ isMethod r "GET";
  let tenantID := hq_Query r "tenant_id" in
  let accountID := hq_Query r "account_id" in
  _ ↢ guard_http (all_set [tenantID; accountID]) 400 "tenant_id/account_id are required";
  items ↢ orHttp 500 (call (AssetsOf tenantID accountID));
  Ret (HttpOk {| asr_Items := items |}).
End handlers.
