(* ===== verification/TreasuryHandlers.v ===== *)
(** * HTTP handlers: sweeps and treasury transfers

    [handler_deposit_sweep.go] from [SweepRun] on and [handler_treasury.go]. *)
From S2P Require Import Prelude GoStrings GoNumbers Ports LedgerTables Calls Orchestrator Handlers.

(** ** Integer strings *)

Definition addIntegerStrings (a b : string) : result string :=
  aa ← from_option_err (Errorf ("invalid integer amount: " +:+ a)) (SetString10 (TrimSpace a));
  bb ← from_option_err (Errorf ("invalid integer amount: " +:+ b)) (SetString10 (TrimSpace b));
  if decide (aa < 0 ∨ bb < 0) then Err (Errorf "negative amount not allowed")
  else Ok (BigString (aa + bb)).

Definition subIntegerStrings (a b : string) : result string :=
  aa ← from_option_err (Errorf ("invalid integer amount: " +:+ a)) (SetString10 (TrimSpace a));
  bb ← from_option_err (Errorf ("invalid integer amount: " +:+ b)) (SetString10 (TrimSpace b));
  if decide (aa < 0 ∨ bb < 0) then Err (Errorf "negative amount not allowed")
  else if decide (aa < bb) then Err (Errorf "insufficient balance")
  else Ok (BigString (aa - bb)).

Definition compareIntegerStrings (a b : string) : Z :=
  match SetString10 (TrimSpace a), SetString10 (TrimSpace b) with
  | Some aa, Some bb => match aa ?= bb with Lt => -1 | Eq => 0 | Gt => 1 end
  | _, _ => 0
  end.

Definition normalizeTreasuryTier (requestTier accountID fallback : string) : string :=
  let tier := ToUpper (TrimSpace requestTier) in
  if decide (tier = "HOT" ∨ tier = "COLD") then tier else
  let accountID := ToLower (TrimSpace accountID) in
  if Contains accountID "cold" then "COLD"
  else if Contains accountID "hot" then "HOT"
  else ToUpper (TrimSpace fallback).

Section handlers.
Context `{SolanaLib} (h : WithdrawHandler).

(** The loop of [getVaultAvailable] over the account's assets. *)
Definition vaultAvailableIn (asset : string) (items : list AccountAsset) : string :=
  match List.find (λ item, EqualFold (TrimSpace (aa_Asset item)) (TrimSpace asset)) items with
  | Some item => let v := TrimSpace (aa_VaultAvailable item) in if decide (v = "") then "0" else v
  | None => "0"
  end.

Definition getVaultAvailable (tenantID accountID asset : string) : prog (result string) :=
  items ⇐ call (AssetsOf tenantID accountID);
  Ret (Ok (vaultAvailableIn asset items)).

(** ** Sweeps *)

Definition resolveSweepDestinationAccount (req : SweepRunRequest) : prog (result (string * string)) :=
  let hotAccountID := TrimSpace (srq_TreasuryAccountID req) in
  let hotAccountID := if decide (hotAccountID = "") then "treasury-main" else hotAccountID in
  let coldAccountID := TrimSpace (srq_ColdAccountID req) in
  let hotBalanceCap := TrimSpace (srq_HotBalanceCap req) in
  if decide (coldAccountID = "" ∨ hotBalanceCap = "" ∨ hotBalanceCap = "0" ∨ wh_Ledger h = false) then
    Ret (Ok (hotAccountID, "HOT"))
  else
  currentHotVault ⇐ getVaultAvailable (srq_TenantID req) hotAccountID (srq_Asset req);
  projectedHotVault ⇐ Ret (addIntegerStrings currentHotVault (srq_Amount req));
  Ret (Ok (if decide (0 < compareIntegerStrings projectedHotVault hotBalanceCap)
           then (coldAccountID, "COLD") else (hotAccountID, "HOT"))).

(** The unsigned transfer from one account's address to another's. *)
Definition transferRequest (tenantID accountID orderID : string) (requiredConfs : Z)
    (chain network asset amt : string) (fromAddr toAddr : WalletAddress) : WithdrawRequest := {|
  rq_TenantID := tenantID; rq_AccountID := accountID; rq_OrderID := orderID; rq_RequiredConfs := requiredConfs;
  rq_Signers := [{| sr_KeyID := wd_KeyID fromAddr; sr_PublicKey := wd_PublicKey fromAddr |}];
  rq_SignType := wd_SignType fromAddr;
  rq_Tx := {| bp_Chain := chain; bp_Network := network; bp_Coin := asset; bp_From := wd_Address fromAddr;
              bp_To := wd_Address toAddr; bp_Amount := amt; bp_Base64Tx := ""; bp_ContractAddress := "";
              bp_AmountUnit := ""; bp_TokenDecimals := 0; bp_Fee := ""; bp_Vin := []; bp_Vout := [] |} |}.

(** [SweepRun] from the reservation on. *)
Definition sweepReserved (req : SweepRunRequest) (requiredConfs : Z) (fromAddr treasuryAddr : WalletAddress)
    (destination : string * string) : prog (reply SweepRunResponse) :=
  _ ↢ orHttp 400 (call (LedgerCall (ReserveSweepCall
        {| sv_TenantID := srq_TenantID req; sv_FromAccountID := srq_FromAccountID req;
           sv_TreasuryAccountID := fst destination; sv_SweepOrderID := srq_SweepOrderID req;
           sv_Chain := srq_Chain req; sv_Network := srq_Network req; sv_Asset := srq_Asset req;
           sv_Amount := srq_Amount req; sv_RequiredConfs := requiredConfs |})));
  broadcast ← BroadcastOnly (transferRequest (srq_TenantID req) (srq_FromAccountID req) (srq_SweepOrderID req)
                requiredConfs (srq_Chain req) (srq_Network req) (srq_Asset req) (srq_Amount req) fromAddr treasuryAddr);
  match broadcast with
  | Err e =>
      _ ← call (LedgerCall (FailSweepOnChainCall (srq_TenantID req) (srq_SweepOrderID req) (error_text e) 0));
      Ret (HttpError 400 (error_text e))
  | Ok b =>
      marked ← retryLedgerMutation 3 (call (LedgerCall (StartSweepCall
        {| sc_TenantID := srq_TenantID req; sc_FromAccountID := srq_FromAccountID req;
           sc_TreasuryAccountID := fst destination; sc_SweepOrderID := srq_SweepOrderID req;
           sc_Chain := srq_Chain req; sc_Network := srq_Network req; sc_Asset := srq_Asset req;
           sc_Amount := srq_Amount req; sc_TxHash := bd_TxHash b; sc_RequiredConfs := requiredConfs |})));
      Ret (match marked with
           | Err e => HttpError 500 ("sweep broadcasted but ledger mark failed, tx_hash=" +:+ bd_TxHash b
                                     +:+ ": " +:+ error_text e)
           | Ok _ => HttpOk {| srr_Status := "BROADCASTED"; srr_TxHash := bd_TxHash b;
                               srr_DestinationAccountID := fst destination; srr_DestinationTier := snd destination |}
           end)
  end.

Definition setTreasury (req : SweepRunRequest) : SweepRunRequest :=
  if decide (srq_TreasuryAccountID req = "") then
    {| srq_TenantID := srq_TenantID req; srq_SweepOrderID := srq_SweepOrderID req;
       srq_FromAccountID := srq_FromAccountID req; srq_TreasuryAccountID := "treasury-main";
       srq_ColdAccountID := srq_ColdAccountID req; srq_HotBalanceCap := srq_HotBalanceCap req;
       srq_Chain := srq_Chain req; srq_Network := srq_Network req; srq_Asset := srq_Asset req;
       srq_Amount := srq_Amount req |}
  else req.
Definition setSweepOrder (req : SweepRunRequest) (id : string) : SweepRunRequest :=
  {| srq_TenantID := srq_TenantID req; srq_SweepOrderID := id;
     srq_FromAccountID := srq_FromAccountID req; srq_TreasuryAccountID := srq_TreasuryAccountID req;
     srq_ColdAccountID := srq_ColdAccountID req; srq_HotBalanceCap := srq_HotBalanceCap req;
     srq_Chain := srq_Chain req; srq_Network := srq_Network req; srq_Asset := srq_Asset req;
     srq_Amount := srq_Amount req |}.

Definition SweepRun (r : http_request SweepRunRequest) : prog (reply SweepRunResponse) :=
  _ ↢ isMethod r "POST";
  _ ↢ guard_http (wh_Registry h) 501 "sweep run not enabled";
  req ↢ decodeJSONBody r;
  _ ↢ ensureAccountActive h (srq_TenantID req) (srq_FromAccountID req) "sweep_run";
  let req := setTreasury req in
  _ ↢ guard_http (all_set [srq_Chain req; srq_Network req; srq_Asset req; srq_Amount req]) 400
        "chain/network/asset/amount are required";
  _ ↢ (if decide (srq_TreasuryAccountID req ≠ srq_FromAccountID req)
       then ensureAccountActive h (srq_TenantID req) (srq_TreasuryAccountID req) "sweep_run" else Ret (HttpOk ()));
  _ ↢ (if decide (TrimSpace (srq_ColdAccountID req) ≠ "" ∧ srq_ColdAccountID req ≠ srq_FromAccountID req
                  ∧ srq_ColdAccountID req ≠ srq_TreasuryAccountID req)
       then ensureAccountActive h (srq_TenantID req) (srq_ColdAccountID req) "sweep_run" else Ret (HttpOk ()));
  requiredConfs ↢ policyConfirmations h (srq_Chain req) (srq_Network req);
  orderID ← (if decide (srq_SweepOrderID req = "") then requestIDFrom (hq_RequestID r) "sweep_run"
             else Ret (srq_SweepOrderID req));
  let req := setSweepOrder req orderID in
  fromAddr ↢ orHttp 400 (findAccountAddress (srq_TenantID req) (srq_FromAccountID req) (srq_Chain req)
                           (srq_Network req) (srq_Asset req));
  destination ↢ orHttp 400 (resolveSweepDestinationAccount req);
  treasuryAddr ↢ orHttp 400 (findAccountAddress (srq_TenantID req) (fst destination) (srq_Chain req)
                               (srq_Network req) (srq_Asset req));
  sweepReserved req requiredConfs fromAddr treasuryAddr destination.

Definition SweepOnchainNotify (r : http_request SweepOnchainNotifyRequest) : prog (reply ()) :=
  _ ↢ isMethod r "POST";
  req ↢ decodeJSONBody r;
  _ ↢ guard_http (all_set [snq_TenantID req; snq_SweepOrderID req; snq_TxHash req]) 400
        "tenant_id/sweep_order_id/tx_hash are required";
  onchainNotify (snq_Status req)
    (ConfirmSweepOnChainCall {| sf_TenantID := snq_TenantID req; sf_SweepOrderID := snq_SweepOrderID req;
       sf_TxHash := snq_TxHash req; sf_Confirmations := snq_Confirmations req;
       sf_RequiredConfs := snq_RequiredConfs req |})
    (FailSweepOnChainCall (snq_TenantID req) (snq_SweepOrderID req) (notifiedReason (snq_Reason req))
       (snq_Confirmations req)).

(** ** Treasury transfers *)

(** [TreasuryTransfer] for an order that does not exist yet. *)
Definition transferNew (req : TreasuryTransferRequest) (orderID : string) : prog (reply TreasuryTransferResponse) :=
  requiredConfs ↢ policyConfirmations h (ttq_Chain req) (ttq_Network req);
  fromAddr ↢ orHttp 400 (findAccountAddress (ttq_TenantID req) (ttq_FromAccountID req) (ttq_Chain req)
                           (ttq_Network req) (ttq_Asset req));
  toAddr ↢ orHttp 400 (findAccountAddress (ttq_TenantID req) (ttq_ToAccountID req) (ttq_Chain req)
                         (ttq_Network req) (ttq_Asset req));
  let sourceTier := normalizeTreasuryTier (ttq_SourceTier req) (ttq_FromAccountID req) "HOT" in
  let destinationTier := normalizeTreasuryTier (ttq_DestinationTier req) (ttq_ToAccountID req) "COLD" in
  _ ↢ orHttp 400 (call (LedgerCall (ReserveTreasuryTransferCall
        {| tr_TenantID := ttq_TenantID req; tr_TransferOrderID := orderID;
           tr_FromAccountID := ttq_FromAccountID req; tr_ToAccountID := ttq_ToAccountID req;
           tr_Chain := ttq_Chain req; tr_Network := ttq_Network req; tr_Asset := ttq_Asset req;
           tr_Amount := ttq_Amount req; tr_RequiredConfirmations := requiredConfs;
           tr_SourceTier := sourceTier; tr_DestinationTier := destinationTier |})));
  broadcast ← BroadcastOnly (transferRequest (ttq_TenantID req) (ttq_FromAccountID req) orderID 0
                (ttq_Chain req) (ttq_Network req) (ttq_Asset req) (ttq_Amount req) fromAddr toAddr);
  match broadcast with
  | Err e =>
      _ ← call (LedgerCall (FailTreasuryTransferOnChainCall (ttq_TenantID req) orderID (error_text e) 0));
      Ret (HttpError 400 (error_text e))
  | Ok b =>
      marked ← retryLedgerMutation 3 (call (LedgerCall
                 (MarkTreasuryTransferBroadcastedCall (ttq_TenantID req) orderID (bd_TxHash b) requiredConfs)));
      Ret (match marked with
           | Err e => HttpError 500 ("treasury transfer broadcasted but ledger mark failed, tx_hash=" +:+ bd_TxHash b
                                     +:+ ": " +:+ error_text e)
           | Ok _ => HttpOk {| ttr_Status := "BROADCASTED"; ttr_TxHash := bd_TxHash b; ttr_TransferOrderID := orderID;
                               ttr_SourceTier := sourceTier; ttr_DestinationTier := destinationTier |}
           end)
  end.

Definition TreasuryTransfer (r : http_request TreasuryTransferRequest) : prog (reply TreasuryTransferResponse) :=
  _ ↢ isMethod r "POST";
  _ ↢ guard_http (wh_Registry h) 501 "treasury transfer not enabled";
  req ↢ decodeJSONBody r;
  _ ↢ guard_http (all_set [ttq_TenantID req; ttq_FromAccountID req; ttq_ToAccountID req; ttq_Chain req;
                           ttq_Network req; ttq_Asset req; ttq_Amount req]) 400
        "tenant_id/from_account_id/to_account_id/chain/network/asset/amount are required";
  _ ↢ guard_http (bool_decide (ttq_FromAccountID req ≠ ttq_ToAccountID req)) 400
        "from_account_id and to_account_id must differ";
  _ ↢ ensureAccountActive h (ttq_TenantID req) (ttq_FromAccountID req) "treasury_transfer";
  _ ↢ ensureAccountActive h (ttq_TenantID req) (ttq_ToAccountID req) "treasury_transfer";
  orderID ← (if decide (TrimSpace (ttq_TransferOrderID req) = "")
             then requestIDFrom (hq_RequestID r) "treasury_transfer" else Ret (ttq_TransferOrderID req));
  existing ← call (TransferStatusOf (ttq_TenantID req) orderID);
  match existing with
  | Ok st =>
      Ret (HttpOk {| ttr_Status := ts_Status st; ttr_TxHash := ts_TxHash st; ttr_TransferOrderID := orderID;
                     ttr_SourceTier := ts_SourceTier st; ttr_DestinationTier := ts_DestinationTier st |})
  | Err (Errorf msg | Unsupported msg) => Ret (HttpError 500 msg)
  | Err ErrNoRows => transferNew req orderID
  end.

Definition TreasuryTransferOnchainNotify (r : http_request TreasuryTransferOnchainNotifyRequest) : prog (reply ()) :=
  _ ↢ isMethod r "POST";
  req ↢ decodeJSONBody r;
  _ ↢ guard_http (all_set [tnq_TenantID req; tnq_TransferOrderID req; tnq_TxHash req]) 400
        "tenant_id/transfer_order_id/tx_hash are required";
  onchainNotify (tnq_Status req)
    (ConfirmTreasuryTransferOnChainCall {| tc_TenantID := tnq_TenantID req;
       tc_TransferOrderID := tnq_TransferOrderID req; tc_TxHash := tnq_TxHash req;
       tc_Confirmations := tnq_Confirmations req; tc_RequiredConfs := tnq_RequiredConfs req |})
    (FailTreasuryTransferOnChainCall (tnq_TenantID req) (tnq_TransferOrderID req) (notifiedReason (tnq_Reason req))
       (tnq_Confirmations req)).

Definition TreasuryTransferStatusHandler (r : http_request ()) : prog (reply TreasuryTransferStatusResponse) :=
  _ ↢ isMethod r "GET";
  let tenantID := hq_Query r "tenant_id" in
  let transferOrderID := hq_Query r "transfer_order_id" in
  _ ↢ guard_http (all_set [tenantID; transferOrderID]) 400 "tenant_id and transfer_order_id are required";
  status ← call (TransferStatusOf tenantID transferOrderID);
  Ret (match status with
       | Err ErrNoRows => HttpError 404 "treasury transfer order not found"
       | Err (Errorf msg | Unsupported msg) => HttpError 500 msg
       | Ok st => HttpOk {| tsr_TenantID := tenantID; tsr_TransferOrderID := transferOrderID; tsr_Transfer := st |}
       end).

(** State, recommended action and suggested amount of a hot vault between its
    floor and its cap. *)
Definition waterline (hotVault hotBalanceFloor hotBalanceCap : string) : result (string * string * string) :=
  if decide (0 < compareIntegerStrings hotBalanceFloor "0" ∧ compareIntegerStrings hotVault hotBalanceFloor < 0) then
    amt ← subIntegerStrings hotBalanceFloor hotVault; Ok ("LOW", "COLD_TO_HOT", amt)
  else if decide (0 < compareIntegerStrings hotBalanceCap "0" ∧ 0 < compareIntegerStrings hotVault hotBalanceCap) then
    amt ← subIntegerStrings hotVault hotBalanceCap; Ok ("HIGH", "HOT_TO_COLD", amt)
  else Ok ("NORMAL", "NONE", "0").

Definition TreasuryWaterline (r : http_request ()) : prog (reply TreasuryWaterlineResponse) :=
  _ ↢ isMethod r "GET";
  let q := λ k, TrimSpace (hq_Query r k) in
  let tenantID := q "tenant_id" in let hotAccountID := q "hot_account_id" in
  let coldAccountID := q "cold_account_id" in let asset := q "asset" in
  let hotBalanceCap := q "hot_balance_cap" in let hotBalanceFloor := q "hot_balance_floor" in
  _ ↢ guard_http (all_set [tenantID; hotAccountID; coldAccountID; asset]) 400
        "tenant_id/hot_account_id/cold_account_id/asset are required";
  _ ↢ guard_http (bool_decide (¬ (hotBalanceCap = "" ∧ hotBalanceFloor = ""))) 400
        "hot_balance_cap or hot_balance_floor is required";
  let hotBalanceCap := if decide (hotBalanceCap = "") then "0" else hotBalanceCap in
  let hotBalanceFloor := if decide (hotBalanceFloor = "") then "0" else hotBalanceFloor in
  _ ↢ guard_http (bool_decide (¬ (0 < compareIntegerStrings hotBalanceCap "0"
                                  ∧ 0 < compareIntegerStrings hotBalanceFloor hotBalanceCap))) 400
        "hot_balance_floor cannot exceed hot_balance_cap";
  hotVault ↢ orHttp 500 (getVaultAvailable tenantID hotAccountID asset);
  coldVault ↢ orHttp 500 (getVaultAvailable tenantID coldAccountID asset);
  out ↢ orHttp 500 (Ret (waterline hotVault hotBalanceFloor hotBalanceCap));
  let '(state, action, amt) := out in
  Ret (HttpOk {| twr_TenantID := tenantID; twr_Asset := asset; twr_HotAccountID := hotAccountID;
                 twr_ColdAccountID := coldAccountID; twr_HotVaultAvailable := hotVault;
                 twr_ColdVaultAvailable := coldVault; twr_HotBalanceCap := hotBalanceCap;
                 twr_HotBalanceFloor := hotBalanceFloor; twr_State := state;
                 twr_RecommendedAction := action; twr_SuggestedTransferAmount := amt |}).
End handlers.
