(* ===== verification/HandlerTraces.v ===== *)
(** * What a request can do

    The traces of the HTTP handlers, and their runs against a world: which
    calls that write or broadcast a handler makes, and in which order. *)
From S2P Require Import Prelude GoStrings GoNumbers Ports LedgerTables LedgerWithdraw LedgerVault.
From S2P Require Import Calls Orchestrator DispatcherTraces Handlers TreasuryHandlers.

(** ** Programs that return a response *)

Lemma exec_bind_reply {A B} (p : prog (reply A)) (f : A → prog (reply B)) tr b :
  exec (x ↢ p; f x) tr b ↔
  ∃ tr1 tr2 r, tr = tr1 ++ tr2 ∧ exec p tr1 r
    ∧ match r with HttpOk a => exec (f a) tr2 b | HttpError s m => tr2 = [] ∧ b = HttpError s m end.
Proof.
  unfold bind_reply. rewrite exec_bind.
  split; intros (tr1 & tr2 & [a|s m] & ? & ? & H); exists tr1, tr2; eauto.
Qed.

Lemma all_calls_bind_reply Q {A B} (p : prog (reply A)) (f : A → prog (reply B)) :
  all_calls Q p → (∀ a, all_calls Q (f a)) → all_calls Q (x ↢ p; f x).
Proof. intros Hp Hf. apply all_calls_bind; [done|]. by intros [a|s m]. Qed.

Lemma all_calls_orHttp Q {A} status (p : prog (result A)) : all_calls Q p → all_calls Q (orHttp status p).
Proof. intros Hp. by apply all_calls_bind. Qed.

(** A decoded request: what follows is proved for its body. *)
Lemma all_calls_decode Q {B C} (r : http_request B) (f : B → prog (reply C)) :
  (∀ req, hq_Body r = Some req → all_calls Q (f req)) → all_calls Q (x ↢ decodeJSONBody r; f x).
Proof. intros Hf. unfold decodeJSONBody. destruct (hq_Body r); [by apply Hf|done]. Qed.

(** What a trace tells about money: broadcasts and ledger writes. *)
Definition observed (tr : list event) : list (BroadcastParams * result string) * list (ledger_call * result ()) :=
  (sent tr, ledger_calls tr).

(** A silent step in front either ends the request or is not seen. *)
Lemma exec_quiet_reply {A B} (p : prog (reply A)) (f : A → prog (reply B)) tr b :
  all_calls (@silent) p → exec (x ↢ p; f x) tr b →
  (observed tr = ([], []) ∧ is_reply b = false) ∨ (∃ a tr', exec (f a) tr' b ∧ observed tr = observed tr').
Proof.
  intros Hp (tr1 & tr2 & r & -> & H1 & H2)%exec_bind_reply. destruct (silent_trace _ _ _ Hp H1) as [E1 E2].
  unfold observed. autorewrite with ledger. rewrite E1, E2.
  destruct r as [a|s m]; [right; eauto|]. destruct H2 as [-> ->]. by left.
Qed.

Lemma exec_quiet {A B} (p : prog A) (f : A → prog B) tr b :
  all_calls (@silent) p → exec (p ≫= f) tr b → ∃ a tr', exec (f a) tr' b ∧ observed tr = observed tr'.
Proof.
  intros Hp (tr1 & tr2 & r & -> & H1 & H2)%exec_bind. destruct (silent_trace _ _ _ Hp H1) as [E1 E2].
  exists r, tr2. split; [done|]. unfold observed. autorewrite with ledger. by rewrite E1, E2.
Qed.

Lemma exec_orHttp {A} status (p : prog (result A)) tr r :
  exec (orHttp status p) tr r → ∃ x, exec p tr x
    ∧ r = match x with Ok a => HttpOk a | Err e => HttpError status (error_text e) end.
Proof.
  intros (tr1 & tr2 & x & -> & H1 & [-> ->])%exec_bind. exists x. by rewrite app_nil_r.
Qed.

(** ** Silent parts *)

Section silent.
Variable h : WithdrawHandler.

Lemma guard_silent ok s m : all_calls (@silent) (guard_http ok s m).
Proof. done. Qed.
Lemma isMethod_silent {B} (r : http_request B) m : all_calls (@silent) (isMethod r m).
Proof. done. Qed.
Lemma decode_silent {B} (r : http_request B) : all_calls (@silent) (decodeJSONBody r).
Proof. done. Qed.

Lemma ensureAccountActive_silent t a action : all_calls (@silent) (ensureAccountActive h t a action).
Proof. unfold ensureAccountActive. by destruct (negb _). Qed.

Lemma policyConfirmations_silent ch n : all_calls (@silent) (policyConfirmations h ch n).
Proof.
  unfold policyConfirmations. destruct (negb _); [done|].
  apply all_calls_bind_reply; [by apply all_calls_orHttp|]. intros p. by destruct (negb _).
Qed.

Lemma requestIDFrom_silent header fallback : all_calls (@silent) (requestIDFrom header fallback).
Proof. unfold requestIDFrom. by repeat case_decide. Qed.

Lemma findAccountAddress_silent t a ch n c : all_calls (@silent) (findAccountAddress t a ch n c).
Proof. by apply all_calls_bind_ok. Qed.

Lemma findAccountAddressByKeyID_silent t a k : all_calls (@silent) (findAccountAddressByKeyID h t a k).
Proof.
  unfold findAccountAddressByKeyID. case_decide; [done|]. destruct (negb _); [done|].
  cbn. split; [done|]. intros [it|e]; [done|]. cbn. split; [done|]. by intros [].
Qed.

Lemma signersOf_silent t a ks : all_calls (@silent) (signersOf h t a ks).
Proof.
  induction ks as [|k ks IH]; [done|]. apply all_calls_bind_ok; [apply findAccountAddressByKeyID_silent|].
  intros addr. case_decide; [done|]. by apply all_calls_bind_ok.
Qed.

Lemma resolveWithdrawSigners_silent req : all_calls (@silent) (resolveWithdrawSigners h req).
Proof. unfold resolveWithdrawSigners. destruct (requestedKeys req); [done|]. apply signersOf_silent. Qed.

Lemma resolveSweepDestinationAccount_silent req : all_calls (@silent) (resolveSweepDestinationAccount h req).
Proof.
  unfold resolveSweepDestinationAccount. case_decide; [done|].
  apply all_calls_bind_ok; [by apply all_calls_bind_ok|]. intros v. by apply all_calls_bind_ok.
Qed.
End silent.
Create HintDb silent.
#[export] Hint Resolve guard_silent isMethod_silent decode_silent ensureAccountActive_silent
  policyConfirmations_silent requestIDFrom_silent findAccountAddress_silent findAccountAddressByKeyID_silent
  signersOf_silent resolveWithdrawSigners_silent resolveSweepDestinationAccount_silent all_calls_orHttp : silent.

(** Drop the silent steps in front of a handler's trace [Hx]; the requests that
    end there are left to the lemma [Hend] about an unobserved error. *)
Ltac quiet Hx :=
  let a := fresh "a" in let tr := fresh "tr" in let E := fresh "E" in
  first
    [ apply exec_quiet_reply in Hx as [Hx|(a & tr & Hx & E)]; [| |try case_decide; by eauto with silent];
      [first [left; exact Hx|left; apply Hx]|rewrite E; clear E]
    | apply exec_quiet in Hx as (a & tr & Hx & E); [|try case_decide; by eauto with silent]; rewrite E; clear E ].

(** ** Writes *)

(** The attempts of [retryLedgerMutation]: failures, then one that decides. *)
Lemma retry_trace n c tr r :
  (0 < n)%nat → exec (retryFrom n (call (LedgerCall c))) tr r →
  sent tr = [] ∧ ∃ errs, ledger_calls tr = ((λ e, (c, Err e)) <$> errs) ++ [(c, r)] ∧ (List.length errs < n)%nat.
Proof.
  intros Hn. revert tr. induction n as [|n IH]; intros tr Hx; [lia|]. cbn [retryFrom] in Hx.
  apply exec_bind in Hx as (tr1 & tr2 & x & -> & Hc%exec_call & Hx). subst tr1.
  destruct x as [[]|e]; [destruct Hx as [-> ->]; split; [done|]; exists []; cbn; split; [done|lia]|].
  destruct n as [|n]; [destruct Hx as [-> ->]; split; [done|]; exists []; cbn; split; [done|lia]|].
  apply IH in Hx as (E1 & errs & E2 & Hlen); [|lia]. autorewrite with ledger. rewrite E1, E2. split; [done|].
  exists (e :: errs). cbn. split; [done|lia].
Qed.

Lemma retryLedgerMutation_3 fn : retryLedgerMutation 3 fn = retryFrom 3 fn.
Proof. done. Qed.

Section traces.
Context `{SolanaLib} (h : WithdrawHandler).

(** Reserve, broadcast, record: the shape of sweeps and treasury transfers. *)
Definition transfer_trace (reserve : ledger_call) (failed : string → ledger_call) (mark : string → ledger_call)
    (ok : bool) (obs : list (BroadcastParams * result string) * list (ledger_call * result ())) : Prop :=
  (∃ e, obs = ([], [(reserve, Err e)]) ∧ ok = false) ∨
  (∃ e l r, unsent e l ∧ obs = (l, [(reserve, Ok ()); (failed (error_text e), r)]) ∧ ok = false) ∨
  (∃ p hash errs r, obs = ([(p, Ok hash)], (reserve, Ok ()) :: ((λ e, (mark hash, Err e)) <$> errs) ++ [(mark hash, r)])
     ∧ (List.length errs < 3)%nat ∧ ok = is_ok r).

(** What the handlers do with their unsigned transfer. *)
Definition reserve_and_send {A} (reserve : ledger_call) (failed mark : string → ledger_call) (q : WithdrawRequest)
    (resp : BroadcastResult → result () → reply A) : prog (reply A) :=
  _ ↢ orHttp 400 (call (LedgerCall reserve));
  broadcast ← BroadcastOnly q;
  match broadcast with
  | Err e => _ ← call (LedgerCall (failed (error_text e))); Ret (HttpError 400 (error_text e))
  | Ok b => marked ← retryLedgerMutation 3 (call (LedgerCall (mark (bd_TxHash b)))); Ret (resp b marked)
  end.

Lemma reserve_and_send_trace {A} reserve failed mark q (resp : BroadcastResult → result () → reply A) tr a :
  (∀ b m, is_reply (resp b m) = is_ok m) → exec (reserve_and_send reserve failed mark q resp) tr a →
  transfer_trace reserve failed mark (is_reply a) (observed tr).
Proof.
  intros Hresp (tr1 & tr2 & r & -> & Hr & Hx)%exec_bind_reply. unfold transfer_trace, observed.
  apply exec_orHttp in Hr as (x & Hc%exec_call & ->). subst tr1. autorewrite with ledger.
  destruct x as [[]|e]; [|destruct Hx as [-> ->]; left; eauto]. right.
  apply exec_bind in Hx as (tr3 & tr4 & b & -> & Hb & Hx). apply BroadcastOnly_trace in Hb as [E1 Hs].
  autorewrite with ledger. rewrite E1. destruct b as [b|e].
  - destruct Hs as [p ->]. right.
    apply exec_bind in Hx as (tr5 & tr6 & m & -> & Hm & [-> ->]).
    rewrite retryLedgerMutation_3 in Hm. apply retry_trace in Hm as (E2 & errs & E3 & Hl); [|lia].
    autorewrite with ledger. rewrite E2, E3. exists p, (bd_TxHash b), errs, m. cbn. rewrite app_nil_r.
    by split_and!.
  - apply exec_bind in Hx as (tr5 & tr6 & r & -> & Hc%exec_call & [-> ->]). subst tr5.
    left. exists e, (sent tr3), r. cbn. rewrite app_nil_r. by split_and!.
Qed.

Definition sweepReserve (req : SweepRunRequest) (requiredConfs : Z) (destination : string) : ledger_call :=
  ReserveSweepCall
    {| sv_TenantID := srq_TenantID req; sv_FromAccountID := srq_FromAccountID req;
       sv_TreasuryAccountID := destination; sv_SweepOrderID := srq_SweepOrderID req;
       sv_Chain := srq_Chain req; sv_Network := srq_Network req; sv_Asset := srq_Asset req;
       sv_Amount := srq_Amount req; sv_RequiredConfs := requiredConfs |}.
Definition sweepMark (req : SweepRunRequest) (requiredConfs : Z) (destination hash : string) : ledger_call :=
  StartSweepCall
    {| sc_TenantID := srq_TenantID req; sc_FromAccountID := srq_FromAccountID req;
       sc_TreasuryAccountID := destination; sc_SweepOrderID := srq_SweepOrderID req;
       sc_Chain := srq_Chain req; sc_Network := srq_Network req; sc_Asset := srq_Asset req;
       sc_Amount := srq_Amount req; sc_TxHash := hash; sc_RequiredConfs := requiredConfs |}.

Lemma sweepReserved_trace req confs fa ta dest tr a :
  exec (sweepReserved req confs fa ta dest) tr a →
  transfer_trace (sweepReserve req confs (fst dest))
    (λ reason, FailSweepOnChainCall (srq_TenantID req) (srq_SweepOrderID req) reason 0)
    (sweepMark req confs (fst dest)) (is_reply a) (observed tr).
Proof.
  intros Hx. refine (reserve_and_send_trace (sweepReserve _ _ _) (λ reason, FailSweepOnChainCall _ _ reason 0)
    (sweepMark _ _ _) _ (λ b m, _) tr a _ Hx). by intros b [].
Qed.

Lemma exec_decode {B C} (r : http_request B) (f : B → prog (reply C)) tr c :
  exec (req ↢ decodeJSONBody r; f req) tr c →
  (observed tr = ([], []) ∧ is_reply c = false) ∨ ∃ req, hq_Body r = Some req ∧ exec (f req) tr c.
Proof.
  intros (tr1 & tr2 & x & -> & [-> ->] & Hx)%exec_bind_reply. destruct (hq_Body r) as [req|].
  - right. eauto.
  - destruct Hx as [-> ->]. by left.
Qed.

(** The order id that is used: the request's, or a fresh one. *)
Lemma exec_order_id {B} (P : Prop) `{Decision P} (id header fallback : string) (f : string → prog B) tr b :
  exec ((if decide P then requestIDFrom header fallback else Ret id) ≫= f) tr b →
  ∃ o tr', (¬ P → o = id) ∧ exec (f o) tr' b ∧ observed tr = observed tr'.
Proof.
  case_decide.
  - intros Hx. quiet Hx. exists a, tr0. tauto.
  - intros Hx. exists id, tr. tauto.
Qed.

Lemma SweepRun_trace r tr a :
  exec (SweepRun h r) tr a →
  (observed tr = ([], []) ∧ is_reply a = false) ∨
  ∃ req orderID confs dest,
    hq_Body r = Some req ∧ (srq_SweepOrderID req ≠ "" → orderID = srq_SweepOrderID req) ∧
    let req' := setSweepOrder (setTreasury req) orderID in
    transfer_trace (sweepReserve req' confs dest) (λ s, FailSweepOnChainCall (srq_TenantID req') orderID s 0)
      (sweepMark req' confs dest) (is_reply a) (observed tr).
Proof.
  unfold SweepRun. intros Hx. do 2 quiet Hx.
  apply exec_decode in Hx as [Hx|(req & Hreq & Hx)]; [by left|].
  do 5 quiet Hx. apply exec_order_id in Hx as (o & tr7 & Ho & Hx & E). rewrite E. clear E.
  do 3 quiet Hx. apply sweepReserved_trace in Hx. right. exists req, o. do 2 eexists.
  split_and!; [done| |exact Hx].
  intros Hne. rewrite Ho; [|]; unfold setTreasury; by case_decide.
Qed.

Definition transferReserve (req : TreasuryTransferRequest) (orderID : string) (requiredConfs : Z) : ledger_call :=
  ReserveTreasuryTransferCall
    {| tr_TenantID := ttq_TenantID req; tr_TransferOrderID := orderID;
       tr_FromAccountID := ttq_FromAccountID req; tr_ToAccountID := ttq_ToAccountID req;
       tr_Chain := ttq_Chain req; tr_Network := ttq_Network req; tr_Asset := ttq_Asset req;
       tr_Amount := ttq_Amount req; tr_RequiredConfirmations := requiredConfs;
       tr_SourceTier := normalizeTreasuryTier (ttq_SourceTier req) (ttq_FromAccountID req) "HOT";
       tr_DestinationTier := normalizeTreasuryTier (ttq_DestinationTier req) (ttq_ToAccountID req) "COLD" |}.

Lemma transferNew_trace req o tr a :
  exec (transferNew h req o) tr a →
  (observed tr = ([], []) ∧ is_reply a = false) ∨
  ∃ confs, transfer_trace (transferReserve req o confs)
    (λ s, FailTreasuryTransferOnChainCall (ttq_TenantID req) o s 0)
    (λ hash, MarkTreasuryTransferBroadcastedCall (ttq_TenantID req) o hash confs) (is_reply a) (observed tr).
Proof.
  unfold transferNew. intros Hx. do 3 quiet Hx. right. exists a0.
  refine (reserve_and_send_trace (transferReserve _ _ _) (λ s, FailTreasuryTransferOnChainCall _ _ s 0)
    (λ hash, MarkTreasuryTransferBroadcastedCall _ _ hash _) _ (λ b m, _) _ a _ Hx). by intros b [].
Qed.

Lemma TreasuryTransfer_trace r tr a :
  exec (TreasuryTransfer h r) tr a →
  observed tr = ([], []) ∨
  ∃ req orderID confs,
    hq_Body r = Some req ∧ (TrimSpace (ttq_TransferOrderID req) ≠ "" → orderID = ttq_TransferOrderID req) ∧
    transfer_trace (transferReserve req orderID confs)
      (λ s, FailTreasuryTransferOnChainCall (ttq_TenantID req) orderID s 0)
      (λ hash, MarkTreasuryTransferBroadcastedCall (ttq_TenantID req) orderID hash confs) (is_reply a) (observed tr).
Proof.
  unfold TreasuryTransfer. intros Hx. do 2 quiet Hx.
  apply exec_decode in Hx as [[Hx _]|(req & Hreq & Hx)]; [by left|].
  do 4 quiet Hx. apply exec_order_id in Hx as (o & tr6 & Ho & Hx & E). rewrite E. clear E.
  quiet Hx. destruct a6 as [st|[|msg|msg]]; [destruct Hx as [-> ->]; by left| |destruct Hx as [-> ->]; by left..].
  apply transferNew_trace in Hx as [[-> _]|[confs Hx]]; [by left|]. right. exists req, o, confs.
  split_and!; [done|tauto|done].
Qed.

Lemma signersOf_keys t a ks tr s : exec (signersOf h t a ks) tr (Ok s) → List.map sr_KeyID s = ks.
Proof.
  revert tr s. induction ks as [|k ks IH]; intros tr s; [by intros [_ [= ->]]|].
  intros (tr1 & tr2 & [addr|e] & -> & _ & Hx)%exec_bind_ok; [|by destruct Hx].
  case_decide; [by destruct Hx|].
  apply exec_bind_ok in Hx as (tr3 & tr4 & [rest|e] & -> & Hr & Hx); [|by destruct Hx].
  destruct Hx as [_ [= ->]]. cbn. f_equal. by eapply IH.
Qed.

Lemma resolveWithdrawSigners_keys req tr s :
  exec (resolveWithdrawSigners h req) tr (Ok s) → List.map sr_KeyID s = requestedKeys req ∧ s ≠ [].
Proof.
  unfold resolveWithdrawSigners. destruct (requestedKeys req) as [|k ks]; [by intros [_ ?]|].
  intros Hx%signersOf_keys. split; [done|]. by destruct s.
Qed.

(** Creating a withdrawal writes at most once: it queues the order. *)
Lemma Create_trace r tr a :
  exec (Create h r) tr a →
  observed tr = ([], []) ∨
  ∃ req confs signers x, hq_Body r = Some req ∧ List.map sr_KeyID signers = requestedKeys req ∧ signers ≠ [] ∧
    is_reply a = is_ok x ∧
    observed tr = ([], [(QueueWithdrawCall
      {| wq_TenantID := cwq_TenantID req; wq_AccountID := cwq_AccountID req; wq_OrderID := cwq_OrderID req;
         wq_RequiredConfs := confs; wq_Signers := signers; wq_SignType := cwq_SignType req;
         wq_Tx := withdrawTx req |}, x)]).
Proof.
  unfold Create. intros Hx. quiet Hx.
  apply exec_decode in Hx as [[Hx _]|(req & Hreq & Hx)]; [by left|].
  do 4 quiet Hx. quiet Hx.
  destruct a5 as [st|[|msg|msg]]; [case_decide; destruct Hx as [-> ->]; by left| |destruct Hx as [-> ->]; by left..].
  apply exec_bind_reply in Hx as (tr6 & tr7 & s & -> & Hs & Hx).
  apply exec_orHttp in Hs as (x & Hs & ->).
  destruct (silent_trace _ _ _ (resolveWithdrawSigners_silent h req) Hs) as [E1 E2].
  unfold observed. autorewrite with ledger. rewrite E1, E2.
  destruct x as [s|e]; [|destruct Hx as [-> ->]; by left].
  apply resolveWithdrawSigners_keys in Hs as [Hk Hne].
  apply exec_bind_reply in Hx as (tr8 & tr9 & y & -> & Hy & Hx).
  apply exec_orHttp in Hy as (x & Hc%exec_call & ->). subst tr8. right. exists req, a4, s, x.
  by destruct x; destruct Hx as [-> ->].
Qed.
End traces.

(** ** Integer strings *)

Definition int_string (s : string) (n : Z) : Prop := SetString10 (TrimSpace s) = Some n.

Lemma int_string_Big n : int_string (BigString n) n.
Proof. unfold int_string. by rewrite TrimSpace_BigString, SetString_String. Qed.

Lemma compareIntegerStrings_cmp a b m n :
  int_string a m → int_string b n →
  (0 < compareIntegerStrings a b ↔ n < m) ∧ (compareIntegerStrings a b < 0 ↔ m < n).
Proof.
  unfold int_string, compareIntegerStrings. intros -> ->. destruct (Z.compare_spec m n); lia.
Qed.

Lemma subIntegerStrings_ok a b m n :
  int_string a m → int_string b n → 0 ≤ n ≤ m → subIntegerStrings a b = Ok (BigString (m - n)).
Proof.
  unfold int_string, subIntegerStrings. intros -> -> Hle. cbn. rewrite !decide_False by lia. done.
Qed.

Lemma addIntegerStrings_inv a b c :
  addIntegerStrings a b = Ok c → ∃ m n, int_string a m ∧ int_string b n ∧ 0 ≤ m ∧ 0 ≤ n ∧ c = BigString (m + n).
Proof.
  unfold int_string, addIntegerStrings. destruct (SetString10 (TrimSpace a)) as [m|]; [|done].
  destruct (SetString10 (TrimSpace b)) as [n|]; [|done]. cbn. case_decide; [done|]. intros [= <-].
  exists m, n. split_and!; [done|done|lia|lia|done].
Qed.

Lemma waterline_eq v f c m n k :
  int_string v m → int_string f n → int_string c k → 0 ≤ m → 0 ≤ n → 0 ≤ k →
  waterline v f c = Ok (if decide (m < n) then ("LOW", "COLD_TO_HOT", BigString (n - m))
                        else if decide (0 < k < m) then ("HIGH", "HOT_TO_COLD", BigString (m - k))
                        else ("NORMAL", "NONE", "0")).
Proof.
  intros Hv Hf Hc Hm Hn Hk. unfold waterline. assert (H0 : int_string "0" 0) by done.
  pose proof (compareIntegerStrings_cmp _ _ _ _ Hf H0). pose proof (compareIntegerStrings_cmp _ _ _ _ Hv Hf).
  pose proof (compareIntegerStrings_cmp _ _ _ _ Hc H0). pose proof (compareIntegerStrings_cmp _ _ _ _ Hv Hc).
  destruct (decide (m < n)).
  - rewrite decide_True by lia. by rewrite (subIntegerStrings_ok _ _ _ _ Hf Hv) by lia.
  - rewrite decide_False by lia. destruct (decide (0 < k < m)).
    + rewrite decide_True by lia. by rewrite (subIntegerStrings_ok _ _ _ _ Hv Hc) by lia.
    + by rewrite decide_False by lia.
Qed.

(** Where a sweep goes, given what the hot vault holds. *)
Lemma resolveSweepDestinationAccount_trace h req c tr acct tier :
  wh_Ledger h = true → TrimSpace (srq_ColdAccountID req) ≠ "" →
  int_string (srq_HotBalanceCap req) c → 0 < c →
  exec (resolveSweepDestinationAccount h req) tr (Ok (acct, tier)) →
  ∃ hot items v a,
    tr = [Ev (AssetsOf (srq_TenantID req) hot) (Ok items)]
    ∧ int_string (vaultAvailableIn (srq_Asset req) items) v ∧ int_string (srq_Amount req) a
    ∧ (acct, tier) = if decide (c < v + a) then (TrimSpace (srq_ColdAccountID req), "COLD") else (hot, "HOT").
Proof.
  intros Hh Hcold Hc Hpos. unfold resolveSweepDestinationAccount.
  set (hot := if decide (TrimSpace (srq_TreasuryAccountID req) = "") then _ else _).
  rewrite decide_False.
  2: { unfold int_string in Hc. intros [?|[E|[E|?]]]; [done| | |congruence]; rewrite E in Hc; [done|].
       vm_compute in Hc. injection Hc as <-. lia. }
  intros (tr1 & tr2 & [v|e] & -> & Hv & Hx)%exec_bind_ok; [|by destruct Hx].
  apply exec_bind_ok in Hv as (tr3 & tr4 & [items|e] & -> & Hi%exec_call & Hv); [|by destruct Hv].
  destruct Hv as [-> [= ->]]. subst tr3.
  apply exec_bind_ok in Hx as (tr5 & tr6 & [s|e] & -> & [-> Hs] & Hx); [|by destruct Hx].
  destruct Hx as [-> Hx]. injection Hx as ->. symmetry in Hs.
  apply addIntegerStrings_inv in Hs as (m & n & Hm & Hn & _ & _ & ->).
  exists hot, items, m, n. split_and!; [done|done|done|].
  assert (Hc' : int_string (TrimSpace (srq_HotBalanceCap req)) c) by (unfold int_string in *; by rewrite TrimSpace_idem).
  pose proof (compareIntegerStrings_cmp _ _ _ _ (int_string_Big (m + n)) Hc').
  do 2 case_decide; try done; lia.
Qed.
