(* ===== verification/KeyRef.v ===== *)
(** * Key references of the sign service

    [sign-service/internal/hd/keyref.go]: key ids, derivation paths and path
    indexes; [internal/hsm/slot.go]: the seed slot of a tenant.  [uint32]
    values are integers of [Z] with their wrap-around written out. *)
From S2P Require Import Prelude GoStrings GoNumbers.

Definition keyIDPrefix : string := "hd".
Definition hardenedOffset : Z := 2 ^ 31.

Record KeyRef := { kr_SignType : string; kr_Chain : string; kr_Account : Z; kr_Change : Z; kr_Index : Z }.

#[export] Instance KeyRef_eq : EqDecision KeyRef. Proof. solve_decision. Defined.

Definition normalizeSignType (raw : string) : string :=
  let s := ToLower (TrimSpace raw) in
  if decide (s = "ecdsa") then "ecdsa"
  else if decide (s ∈ ["eddsa"; "ed25519"]) then "eddsa"
  else "".

Definition normalizeChain (raw : string) : string :=
  let s := ToLower (TrimSpace raw) in
  if decide (s = "eth") then "ethereum"
  else if decide (s = "bsc") then "binance"
  else if decide (s = "sol") then "solana"
  else if decide (s = "btc") then "bitcoin"
  else if decide (s = "ltc") then "litecoin"
  else if decide (s = "bch") then "bitcoincash"
  else if decide (s = "doge") then "dogecoin"
  else if decide (s = "xlm") then "stellar"
  else s.

(** The chains of [coinTypeForChain] with their SLIP-44 numbers. *)
Definition coinTypes : list (string * Z) :=
  [("ethereum", 60); ("binance", 60); ("polygon", 60); ("arbitrum", 60); ("optimism", 60); ("linea", 60);
   ("scroll", 60); ("mantle", 60); ("zksync", 60); ("tron", 195); ("cosmos", 118); ("btt", 199); ("solana", 501);
   ("aptos", 637); ("sui", 784); ("ton", 607); ("stellar", 148); ("bitcoin", 0); ("litecoin", 2); ("dogecoin", 3);
   ("dash", 5); ("zen", 121); ("bitcoincash", 145)].

Definition assoc {A} (k : string) (l : list (string * A)) : option A :=
  snd <$> List.find (λ p, bool_decide (fst p = k)) l.

Definition coinTypeForChain (chain : string) : result Z :=
  from_option_err (Errorf ("unsupported chain for hd key: " +:+ chain)) (assoc (normalizeChain chain) coinTypes).

(** [strconv.ParseUint(strings.TrimSpace(raw), 10, 32)] *)
Definition parseUint32 (raw : string) : result Z :=
  match parse_nat10 (to_bytes (TrimSpace raw)) with
  | None => Err (Errorf ("strconv.ParseUint: parsing " +:+ raw +:+ ": invalid syntax"))
  | Some v => if decide (v < 2 ^ 32) then Ok v
              else Err (Errorf ("strconv.ParseUint: parsing " +:+ raw +:+ ": value out of range"))
  end.

(** Values joined with a separator. *)
Fixpoint joinWith (sep : ascii) (parts : list bytes) : bytes :=
  match parts with
  | [] => []
  | [p] => p
  | p :: rest => p ++ sep :: joinWith sep rest
  end.

Definition BuildKeyID (signType chain : string) (account change index : Z) : string :=
  of_bytes (joinWith ":" (List.map to_bytes
    [keyIDPrefix; normalizeSignType signType; normalizeChain chain; BigString account; BigString change; BigString index])).

Definition ParseKeyID (raw : string) : result KeyRef :=
  match Split (TrimSpace raw) ":" with
  | [p0; p1; p2; p3; p4; p5] =>
      if decide (ToLower (TrimSpace p0) ≠ keyIDPrefix) then Err (Errorf "unsupported key id prefix") else
      let signType := normalizeSignType p1 in
      let chain := normalizeChain p2 in
      if decide (signType = "" ∨ chain = "") then Err (Errorf "invalid hd key id") else
      account ← (match parseUint32 p3 with Ok v => Ok v | Err e => Err (Errorf ("invalid account index: " +:+ error_text e)) end);
      change ← (match parseUint32 p4 with Ok v => Ok v | Err e => Err (Errorf ("invalid change index: " +:+ error_text e)) end);
      index ← (match parseUint32 p5 with Ok v => Ok v | Err e => Err (Errorf ("invalid address index: " +:+ error_text e)) end);
      Ok {| kr_SignType := signType; kr_Chain := chain; kr_Account := account; kr_Change := change; kr_Index := index |}
  | _ => Err (Errorf "invalid hd key id")
  end.

Definition ID (r : KeyRef) : string :=
  BuildKeyID (kr_SignType r) (kr_Chain r) (kr_Account r) (kr_Change r) (kr_Index r).

Definition DerivationPath (r : KeyRef) : result string :=
  coinType ← coinTypeForChain (kr_Chain r);
  let head := "m/44'/" +:+ BigString coinType +:+ "'/" +:+ BigString (kr_Account r) +:+ "'/" in
  if decide (kr_SignType r = "ecdsa") then Ok (head +:+ BigString (kr_Change r) +:+ "/" +:+ BigString (kr_Index r))
  else if decide (kr_SignType r = "eddsa") then
    Ok (head +:+ BigString (kr_Change r) +:+ "'/" +:+ BigString (kr_Index r) +:+ "'")
  else Err (Errorf ("unsupported sign type: " +:+ kr_SignType r)).

Definition AccountDerivationPath (r : KeyRef) : result string :=
  coinType ← coinTypeForChain (kr_Chain r);
  if decide (kr_SignType r ∈ ["ecdsa"; "eddsa"]) then
    Ok ("m/44'/" +:+ BigString coinType +:+ "'/" +:+ BigString (kr_Account r) +:+ "'")
  else Err (Errorf ("unsupported sign type: " +:+ kr_SignType r)).

(** [x + hardenedOffset] on [uint32]. *)
Definition hardened (x : Z) : Z := wrapu32 (x + hardenedOffset).

Definition pathIndexes (r : KeyRef) : result (list Z) :=
  coinType ← coinTypeForChain (kr_Chain r);
  if decide (kr_SignType r = "ecdsa") then
    Ok [hardened 44; hardened coinType; hardened (kr_Account r); kr_Change r; kr_Index r]
  else if decide (kr_SignType r = "eddsa") then
    Ok [hardened 44; hardened coinType; hardened (kr_Account r); hardened (kr_Change r); hardened (kr_Index r)]
  else Err (Errorf ("unsupported sign type: " +:+ kr_SignType r)).

Definition accountPathIndexes (r : KeyRef) : result (list Z) :=
  coinType ← coinTypeForChain (kr_Chain r);
  Ok [hardened 44; hardened coinType; hardened (kr_Account r)].

(** ** Seed slots *)

(** [range] yields runes; a byte above 127 starts a rune above 127. *)
Definition isSafeChar (a : ascii) : bool :=
  let n := N_of_ascii a in
  (((97 <=? n) && (n <=? 122)) || ((48 <=? n) && (n <=? 57)) || (n =? 45) || (n =? 95) || (n =? 46))%N.

Definition isSafeSlotID (v : string) : bool := bool_decide (v ≠ "") && forallb isSafeChar (to_bytes v).

(** [sha256.Sum256] *)
Class Sha256 := sha256 : bytes → bytes.

Definition tenantSlotKey `{Sha256} (tenantID : string) : string :=
  if isSafeSlotID tenantID then tenantID
  else "t_" +:+ hexEncode (take 16 (sha256 (to_bytes tenantID))).

Definition BuildTenantSlotID `{Sha256} (slotPrefix tenantID signType : string) : string :=
  let slotPrefix := TrimSpace slotPrefix in
  let slotPrefix := if decide (slotPrefix = "") then "master" else slotPrefix in
  let tenantID := TrimSpace tenantID in
  let tenantID := if decide (tenantID = "") then "default" else tenantID in
  slotPrefix +:+ ":" +:+ tenantSlotKey tenantID +:+ ":" +:+ TrimSpace signType.
