(* ===== verification/ChainClient.v ===== *)
(** * wallet-core's client of the chain gateway

    [wallet-core/internal/adapters/chain/grpc.go]: the text a transaction is
    sent to the gateway as, and the four calls.  The environment is a record of
    the variables' values, empty when they are not set. *)
From S2P Require Import Prelude GoStrings GoNumbers GoJson GoCodec Ports LedgerTables Calls Dispatcher.
From S2P Require Import KeyRef.

Record chainEnv := {
  env_EVM_MAX_PRIORITY_FEE_WEI : string;
  env_EVM_MAX_FEE_WEI : string;
  env_EVM_GAS_LIMIT : string;
  env_EVM_ERC20_GAS_LIMIT : string;
}.

Definition envOrDefault (v fallback : string) : string := if decide (v ≠ "") then v else fallback.

Definition envOrDefaultInt (v : string) (fallback : Z) : Z :=
  match parseInt64 v with
  | Ok n => if decide (0 < n) then n else fallback
  | Err _ => fallback
  end.

(** ** Chains *)

Definition normalizeChain (v : string) : string :=
  let x := ToLower (TrimSpace v) in
  if decide (x = "eth") then "ethereum"
  else if decide (x ∈ ["bsc"; "bnb"]) then "binance"
  else if decide (x = "matic") then "polygon"
  else if decide (x = "arb") then "arbitrum"
  else x.

Definition isEVMChain (chain : string) : bool :=
  bool_decide (normalizeChain chain ∈
    ["ethereum"; "binance"; "polygon"; "arbitrum"; "optimism"; "linea"; "scroll"; "mantle"; "zksync"]).

(** The cases of [evmChainID]. *)
Definition evmChainIDs : list (string * list (string * string)) :=
  [("ethereum", [("sepolia", "11155111"); ("mainnet", "1"); ("", "1")]);
   ("binance", [("testnet", "97"); ("mainnet", "56"); ("", "56")]);
   ("polygon", [("amoy", "80002"); ("mainnet", "137"); ("", "137")]);
   ("arbitrum", [("sepolia", "421614"); ("mainnet", "42161"); ("", "42161")]);
   ("optimism", [("sepolia", "11155420"); ("mainnet", "10"); ("", "10")]);
   ("linea", [("sepolia", "59141"); ("mainnet", "59144"); ("", "59144")]);
   ("scroll", [("sepolia", "534351"); ("mainnet", "534352"); ("", "534352")]);
   ("mantle", [("sepolia", "5003"); ("mainnet", "5000"); ("", "5000")]);
   ("zksync", [("sepolia", "300"); ("mainnet", "324"); ("", "324")])].

Definition evmChainID (chain network : string) : result string :=
  let chain := normalizeChain chain in
  let network := ToLower (TrimSpace network) in
  from_option_err (Errorf ("unsupported evm chain/network: " +:+ chain +:+ "/" +:+ network))
    (networks ← assoc chain evmChainIDs; assoc network networks).

(** ** Payloads *)

(** [json.Marshal] of an [evmDynamicFeePayload], and decoding one. *)
Definition payloadMembers (p : evmDynamicFeePayload) : list (string * doc) :=
  [("chainId", DStr (ev_ChainID p))] ++ unless_empty "nonceMode" (ev_NonceMode p)
  ++ unless_empty "fromAddress" (ev_FromAddress p)
  ++ [("nonce", DInt (ev_Nonce p)); ("maxPriorityFeePerGas", DStr (ev_MaxPriorityFeePerGas p));
      ("maxFeePerGas", DStr (ev_MaxFeePerGas p)); ("gasLimit", DInt (ev_GasLimit p));
      ("toAddress", DStr (ev_ToAddress p)); ("amount", DStr (ev_Amount p))]
  ++ unless_empty "contractAddress" (ev_ContractAddress p).

Definition payloadFields (m : list (string * doc)) : option evmDynamicFeePayload :=
  chainId ← string_field "chainId" m;
  nonceMode ← string_field "nonceMode" m;
  from ← string_field "fromAddress" m;
  nonce ← uint64_field "nonce" m;
  tip ← string_field "maxPriorityFeePerGas" m;
  fee ← string_field "maxFeePerGas" m;
  gas ← uint64_field "gasLimit" m;
  to ← string_field "toAddress" m;
  amt ← string_field "amount" m;
  contract ← string_field "contractAddress" m;
  Some {| ev_ChainID := chainId; ev_NonceMode := nonceMode; ev_FromAddress := from; ev_Nonce := nonce;
          ev_MaxPriorityFeePerGas := tip; ev_MaxFeePerGas := fee; ev_GasLimit := gas; ev_ToAddress := to;
          ev_Amount := amt; ev_ContractAddress := contract |}.

(** The dispatcher's form of the payload. *)
Definition jsonCodec : PayloadCodec := {|
  decodePayload s :=
    raw ← from_option_err (Errorf "illegal base64 data") (DecodeString s);
    from_option_err (Errorf "invalid json") (Unmarshal payloadFields (of_bytes raw));
  encodePayload p := Ok (encode64doc (payloadMembers p)) |}.

(** The payload of an EVM transfer. *)
Definition evmPayload (env : chainEnv) (params : BuildUnsignedParams) (chainID : string) : evmDynamicFeePayload :=
  let contract := TrimSpace (bp_ContractAddress params) in {|
  ev_ChainID := chainID;
  ev_NonceMode := "pending";
  ev_FromAddress := TrimSpace (bp_From params);
  ev_Nonce := 0;
  ev_MaxPriorityFeePerGas := envOrDefault (env_EVM_MAX_PRIORITY_FEE_WEI env) "1000000000";
  ev_MaxFeePerGas := envOrDefault (env_EVM_MAX_FEE_WEI env) "20000000000";
  ev_GasLimit := if decide (contract ≠ "") then envOrDefaultInt (env_EVM_ERC20_GAS_LIMIT env) 100000
                 else envOrDefaultInt (env_EVM_GAS_LIMIT env) 21000;
  ev_ToAddress := TrimSpace (bp_To params);
  ev_Amount := TrimSpace (bp_Amount params);
  ev_ContractAddress := contract |}.

Definition tronMembers (params : BuildUnsignedParams) (value : Z) : list (string * doc) :=
  unless_empty "contract_address" (TrimSpace (bp_ContractAddress params))
  ++ [("from_address", DStr (TrimSpace (bp_From params))); ("to_address", DStr (TrimSpace (bp_To params))); ("value", DInt value)].

Definition accountMembers (params : BuildUnsignedParams) : list (string * doc) :=
  unless_empty "contract_address" (TrimSpace (bp_ContractAddress params))
  ++ [("from_address", DStr (TrimSpace (bp_From params))); ("to_address", DStr (TrimSpace (bp_To params)));
      ("value", DStr (TrimSpace (bp_Amount params)))]
  ++ unless_empty "amount_unit" (TrimSpace (bp_AmountUnit params))
  ++ (if decide (bp_TokenDecimals params = 0) then [] else [("token_decimals", DInt (bp_TokenDecimals params))]).

Definition buildBase64Tx (env : chainEnv) (params : BuildUnsignedParams) : result string :=
  if decide (TrimSpace (bp_Base64Tx params) ≠ "") then Ok (TrimSpace (bp_Base64Tx params)) else
  if decide (TrimSpace (bp_Chain params) = "") then Err (Errorf "chain is required") else
  if decide (TrimSpace (bp_From params) = "" ∨ TrimSpace (bp_To params) = "" ∨ TrimSpace (bp_Amount params) = "") then
    Err (Errorf "from/to/amount are required")
  else
  let chain := normalizeChain (bp_Chain params) in
  let network := ToLower (TrimSpace (bp_Network params)) in
  if isEVMChain chain then
    chainID ← evmChainID chain network;
    Ok (encode64doc (payloadMembers (evmPayload env params chainID)))
  else if decide (chain = "tron") then
    match parseInt64 (TrimSpace (bp_Amount params)) with
    | Err e => Err (wrap_error "invalid tron amount" e)
    | Ok value => Ok (encode64doc (tronMembers params value))
    end
  else if decide (chain = "solana" ∧ (TrimSpace (bp_ContractAddress params) ≠ "" ∨ TrimSpace (bp_AmountUnit params) ≠ ""
                                      ∨ 0 < bp_TokenDecimals params)) then
    Ok (encode64doc (accountMembers params))
  else
    Ok (EncodeToString (to_bytes (chain +:+ ":" +:+ bp_From params +:+ ":" +:+ bp_To params +:+ ":" +:+ bp_Amount params))).

(** ** Calls *)

Record BuildUnsignedTxRequest := {
  bq_Chain : string;
  bq_Network : string;
  bq_Coin : string;
  bq_Base64Tx : string;
  bq_Fee : string;
  bq_Vin : list TxVin;
  bq_Vout : list TxVout;
}.

(** The stub's methods; the other requests and the answers have the fields of
    the port's structs. *)
Record ChainGatewayServiceClient (S : Type) := {
  gw_BuildUnsignedTx : BuildUnsignedTxRequest → S → result BuildUnsignedResult * S;
  gw_SendTx : BroadcastParams → S → result string * S;
  gw_GetBalance : string → string → string → string → string → S → result ChainBalance * S;
  gw_ConvertAddress : string → string → string → string → S → result string * S;
}.
Arguments gw_BuildUnsignedTx {S} c. Arguments gw_SendTx {S} c. Arguments gw_GetBalance {S} c. Arguments gw_ConvertAddress {S} c.

Section client.
Context {S : Type} (env : chainEnv) (client : ChainGatewayServiceClient S).

(** An answer that must not be empty. *)
Definition nonempty {A} (what : string) (text : A → string) (resp : result A) : result A :=
  out ← resp; if decide (text out = "") then Err (Errorf ("empty " +:+ what)) else Ok out.

Definition missingChain {A} (chain network : string) (k : S → result A * S) (s : S) : result A * S :=
  if decide (chain = "" ∨ network = "") then (Err (Errorf "chain and network are required"), s) else k s.

Definition grpcBuildUnsignedTx (params : BuildUnsignedParams) : S → result BuildUnsignedResult * S :=
  missingChain (bp_Chain params) (bp_Network params) (λ s,
    match buildBase64Tx env params with
    | Err e => (Err e, s)
    | Ok base64Tx =>
        let '(resp, s) := gw_BuildUnsignedTx client {|
          bq_Chain := bp_Chain params; bq_Network := bp_Network params; bq_Coin := bp_Coin params;
          bq_Base64Tx := base64Tx; bq_Fee := bp_Fee params; bq_Vin := bp_Vin params; bq_Vout := bp_Vout params |} s in
        (nonempty "unsigned tx" br_UnsignedTx resp, s)
    end).

Definition grpcBroadcast (params : BroadcastParams) : S → result string * S :=
  missingChain (bc_Chain params) (bc_Network params) (λ s,
    let '(resp, s) := gw_SendTx client params s in (nonempty "tx hash" id resp, s)).

Definition grpcGetBalance (chain coin network address contractAddress : string) : S → result ChainBalance * S :=
  missingChain chain network (gw_GetBalance client chain coin network address contractAddress).

Definition grpcConvertAddress (chain network addrType publicKey : string) : S → result string * S :=
  missingChain chain network (λ s,
    let '(resp, s) := gw_ConvertAddress client chain network addrType publicKey s in (nonempty "address" id resp, s)).

(** wallet-core's outside with this client as its chain. *)
Definition withChain {E} (outside : Outside E) : Outside (E * S) :=
  let on {A} (f : E → A * E) (c : E * S) : A * (E * S) := let '(a, e) := f c.1 in (a, (e, c.2)) in
  let ask {A} (f : S → A * S) (c : E * S) : A * (E * S) := let '(a, s) := f c.2 in (a, (c.1, s)) in {|
  out_db := on out_db;
  out_locked c := out_locked c.1;
  out_call R c := match c in port R return E * S → R * (E * S) with
    | BuildUnsignedTx p => ask (grpcBuildUnsignedTx p)
    | Broadcast p => ask (grpcBroadcast p)
    | ChainBalanceOf chain coin network address contract => ask (grpcGetBalance chain coin network address contract)
    | ConvertAddressCall chain network addrType publicKey => ask (grpcConvertAddress chain network addrType publicKey)
    | c => on (out_call c)
    end |}.
End client.
