(* ===== verification/RegistryKeys.v ===== *)
(** * Key ids of wallet-core's address registry

    [wallet-core/internal/adapters/registry]: [hd.go] and the normalisation
    functions of [postgres.go].  The registry writes the key ids and paths that
    the sign service reads. *)
From S2P Require Import Prelude GoStrings GoNumbers KeyRef.

Definition normalizeNetwork (v : string) : string := ToLower (TrimSpace v).
Definition normalizeCoin (v : string) : string := ToUpper (TrimSpace v).
Definition normalizeModel (v : string) : string :=
  let x := ToLower (TrimSpace v) in if decide (x ∈ ["account"; "utxo"]) then x else "".

(** The abbreviations of [normalizeChain]. *)
Definition chainAliases : list (string * string) :=
  [("eth", "ethereum"); ("bsc", "binance"); ("bnb", "binance"); ("matic", "polygon"); ("arb", "arbitrum");
   ("trx", "tron"); ("sol", "solana"); ("btc", "bitcoin"); ("bch", "bitcoincash"); ("ltc", "litecoin");
   ("doge", "dogecoin")].

Definition normalizeChain (v : string) : string :=
  let x := ToLower (TrimSpace v) in default x (assoc x chainAliases).

Definition normalizeChainSignType (v : string) : string :=
  let s := normalizeNetwork v in
  if decide (s = "ecdsa") then "ecdsa"
  else if decide (s ∈ ["ed25519"; "eddsa"]) then "eddsa"
  else "".

Definition normalizeSignType (v : string) : string :=
  let v := normalizeChainSignType v in if decide (v ∈ ["ecdsa"; "eddsa"]) then v else "".

Definition hdCoinTypes : list (string * Z) :=
  [("ethereum", 60); ("binance", 60); ("polygon", 60); ("arbitrum", 60); ("optimism", 60); ("linea", 60);
   ("scroll", 60); ("mantle", 60); ("zksync", 60); ("tron", 195); ("cosmos", 118); ("btt", 199); ("solana", 501);
   ("aptos", 637); ("sui", 784); ("ton", 607); ("xlm", 148); ("stellar", 148); ("bitcoin", 0); ("litecoin", 2);
   ("dogecoin", 3); ("dash", 5); ("zen", 121); ("bitcoincash", 145)].

Definition hdCoinTypeForChain (chain : string) : result Z :=
  from_option_err (Errorf ("unsupported chain for hd path: " +:+ chain)) (assoc (normalizeChain chain) hdCoinTypes).

Definition buildHDKeyID (signType chain : string) (accountIndex changeIndex addressIndex : Z) : string :=
  of_bytes (joinWith ":" (List.map to_bytes
    ["hd"; normalizeSignType signType; normalizeChain chain;
     BigString accountIndex; BigString changeIndex; BigString addressIndex])).

Definition buildHDDerivationPath (signType chain : string) (accountIndex changeIndex addressIndex : Z) : result string :=
  coinType ← hdCoinTypeForChain chain;
  let head := "m/44'/" +:+ BigString coinType +:+ "'/" +:+ BigString accountIndex +:+ "'/" in
  if decide (normalizeSignType signType = "ecdsa") then
    Ok (head +:+ BigString changeIndex +:+ "/" +:+ BigString addressIndex)
  else if decide (normalizeSignType signType = "eddsa") then
    Ok (head +:+ BigString changeIndex +:+ "'/" +:+ BigString addressIndex +:+ "'")
  else Err (Errorf ("unsupported sign type: " +:+ signType)).
