(* ===== verification/KeyPaths.v ===== *)
(** * Key ids, paths and slots: lemmas *)
From S2P Require Import Prelude GoStrings GoNumbers KeyRef RegistryKeys.

(** ** Joining and splitting *)

Lemma split_bytes_join sep parts :
  parts ≠ [] → Forall (λ p, sep ∉ p) parts → split_bytes sep (joinWith sep parts) = parts.
Proof.
  intros Hne Hp. induction Hp as [|p parts Hn Hp IH]; [done|].
  destruct parts as [|q parts]; cbn [joinWith]; [by apply split_no_sep|].
  rewrite split_app_sep by done. f_equal. by apply IH.
Qed.

(** A word whose first and last characters are printable is trimmed. *)
Lemma TrimSpace_ends a m b :
  clean_char a = true → clean_char b = true → TrimSpace (of_bytes (a :: m ++ [b])) = of_bytes (a :: m ++ [b]).
Proof.
  intros (H1 & H2 & _ & H3 & _)%clean_char_spaces (G1 & _ & G2 & _ & G3)%clean_char_spaces.
  unfold TrimSpace. rewrite to_of_bytes. f_equal. unfold trim_left. rewrite trim_with_clean by done.
  unfold trim_right. cbn [List.rev]. rewrite List.rev_app_distr. cbn [List.rev app].
  rewrite trim_with_clean by done.
  change (b :: List.rev m ++ [a]) with ([b] ++ List.rev m ++ [a]).
  rewrite !List.rev_app_distr, List.rev_involutive. done.
Qed.

(** ** Decimal numbers *)

Lemma BigString_clean n : 0 ≤ n → Forall (λ a, clean_char a = true) (to_bytes (BigString n)).
Proof.
  intros Hn. unfold BigString. rewrite to_of_bytes, decide_False by lia. by apply print_digits_clean.
Qed.

Lemma print_digits_are_digits fuel n acc :
  0 ≤ n → Forall (λ a, is_Some (digit_of a)) acc → Forall (λ a, is_Some (digit_of a)) (print_digits fuel n acc).
Proof.
  revert n acc. induction fuel as [|fuel IH]; intros n acc Hn Hacc; [done|]. cbn.
  assert (Forall (λ a, is_Some (digit_of a)) (digit_char (n mod 10) :: acc)).
  { constructor; [|done]. rewrite digit_char_of by (apply Z.mod_pos_bound; lia). by eexists. }
  case_decide; [done|]. apply IH; [apply Z.div_pos; lia|done].
Qed.

Lemma BigString_digits n : 0 ≤ n → Forall (λ a, is_Some (digit_of a)) (to_bytes (BigString n)).
Proof.
  intros Hn. unfold BigString. rewrite to_of_bytes, decide_False by lia. by apply print_digits_are_digits.
Qed.

Lemma BigString_no_char n c : 0 ≤ n → digit_of c = None → c ∉ to_bytes (BigString n).
Proof.
  intros Hn Hc Hin. pose proof (BigString_digits n Hn) as Hd. rewrite Forall_forall in Hd.
  destruct (Hd _ Hin). congruence.
Qed.

Lemma BigString_no_colon n : ":"%char ∉ to_bytes (BigString n).
Proof.
  unfold BigString. rewrite to_of_bytes. case_decide as Hn; [|].
  - rewrite not_elem_of_cons. split; [done|]. intros Hin.
    pose proof (print_digits_are_digits (print_fuel (- n)) (- n) [] ltac:(lia) ltac:(done)) as Hd.
    rewrite Forall_forall in Hd. by destruct (Hd _ Hin).
  - intros Hin. pose proof (print_digits_are_digits (print_fuel n) n [] ltac:(lia) ltac:(done)) as Hd.
    rewrite Forall_forall in Hd. by destruct (Hd _ Hin).
Qed.

Lemma parseUint32_BigString n : 0 ≤ n < 2 ^ 32 → parseUint32 (BigString n) = Ok n.
Proof.
  intros Hn. unfold parseUint32. rewrite TrimSpace_BigString. unfold BigString at 1.
  rewrite to_of_bytes, decide_False by lia. rewrite parse_nat10_print by lia. by rewrite decide_True by lia.
Qed.

Lemma BigString_last n : 0 ≤ n → ∃ m b, to_bytes (BigString n) = m ++ [b] ∧ clean_char b = true.
Proof.
  intros Hn. pose proof (BigString_clean n Hn) as Hc.
  assert (Hne : to_bytes (BigString n) ≠ []).
  { intros Hl. apply (f_equal of_bytes) in Hl. rewrite of_to_bytes in Hl.
    apply (f_equal SetString10) in Hl. by rewrite SetString_String in Hl. }
  destruct (List.exists_last Hne) as (m & b & E). exists m, b. split; [exact E|].
  rewrite E in Hc. apply Forall_app in Hc as [_ Hc]. by inversion Hc.
Qed.

(** ** Key ids *)

Definition is_uint32 (n : Z) : Prop := 0 ≤ n < 2 ^ 32.

(** [hd:sign:chain:account:change:index] is split into its parts. *)
Lemma Split_key st ch a c i :
  ":"%char ∉ to_bytes st → ":"%char ∉ to_bytes ch → is_uint32 a → is_uint32 c → is_uint32 i →
  Split (TrimSpace (of_bytes (joinWith ":" (List.map to_bytes
    ["hd"; st; ch; BigString a; BigString c; BigString i])))) ":"
  = ["hd"; st; ch; BigString a; BigString c; BigString i].
Proof.
  intros Hst Hch Ha Hc Hi. destruct (BigString_last i) as (m & b & Hb & Hclean); [unfold is_uint32 in Hi; lia|].
  set (parts := ["hd"; st; ch; BigString a; BigString c; BigString i]).
  assert (Htrim : TrimSpace (of_bytes (joinWith ":" (List.map to_bytes parts)))
                  = of_bytes (joinWith ":" (List.map to_bytes parts))).
  { unfold parts. cbn [List.map joinWith]. rewrite Hb.
    rewrite !app_comm_cons, !app_assoc. cbn [to_bytes String.list_ascii_of_string app].
    match goal with |- context [":"%char :: ?x ++ [b]] =>
      exact (TrimSpace_ends "h" ("d" :: ":" :: x)%char b eq_refl Hclean) end. }
  rewrite Htrim. unfold Split. rewrite to_of_bytes, split_bytes_join; [|done|].
  - unfold parts. cbn [List.map fmap list_fmap]. by rewrite !of_to_bytes.
  - unfold is_uint32 in *. unfold parts. cbn [List.map].
    repeat constructor; try done; try (by apply BigString_no_char; [lia|]).
    cbn. rewrite !not_elem_of_cons. split_and!; try done. apply not_elem_of_nil.
Qed.

(** Parsing what was built, for any normal forms that survive normalisation. *)
Lemma ParseKeyID_built st ch a c i st' ch' :
  ":"%char ∉ to_bytes st → ":"%char ∉ to_bytes ch → is_uint32 a → is_uint32 c → is_uint32 i →
  KeyRef.normalizeSignType st = st' → KeyRef.normalizeChain ch = ch' → st' ≠ "" → ch' ≠ "" →
  ParseKeyID (of_bytes (joinWith ":" (List.map to_bytes ["hd"; st; ch; BigString a; BigString c; BigString i])))
  = Ok {| kr_SignType := st'; kr_Chain := ch'; kr_Account := a; kr_Change := c; kr_Index := i |}.
Proof.
  intros Hst Hch Ha Hc Hi <- <- Hst' Hch'. unfold ParseKeyID. rewrite Split_key by done.
  rewrite decide_False by (intros Hx; by vm_compute in Hx). rewrite (decide_False (P := KeyRef.normalizeSignType st = "" ∨ _)) by tauto.
  by rewrite !parseUint32_BigString.
Qed.

(** A reference whose fields are in normal form. *)
Definition valid_ref (r : KeyRef) : Prop :=
  kr_SignType r ∈ ["ecdsa"; "eddsa"] ∧ KeyRef.normalizeChain (kr_Chain r) = kr_Chain r ∧ kr_Chain r ≠ ""
  ∧ (":"%char ∉ to_bytes (kr_Chain r)) ∧ is_uint32 (kr_Account r) ∧ is_uint32 (kr_Change r) ∧ is_uint32 (kr_Index r).

Lemma normal_sign_type st : (st ∈ ["ecdsa"; "eddsa"]) →
  KeyRef.normalizeSignType st = st ∧ st ≠ "" ∧ ":"%char ∉ to_bytes st.
Proof.
  intros H. assert (Hc : ∀ s, forallb (λ a, negb (Ascii.eqb ":" a)) (to_bytes s) = true → ":"%char ∉ to_bytes s).
  { intros s Hs Hin%list_elem_of_In. rewrite forallb_forall in Hs. by apply Hs in Hin. }
  apply elem_of_cons in H as [->|H]; [by split_and!; [| |apply Hc]|].
  apply list_elem_of_singleton in H as ->. by split_and!; [| |apply Hc].
Qed.

Lemma ParseKeyID_ID r : valid_ref r → ParseKeyID (ID r) = Ok r.
Proof.
  intros (Hst & Hn & Hne & Hch & Ha & Hc & Hi). destruct (normal_sign_type _ Hst) as (Hs & Hs' & Hs'').
  unfold ID, BuildKeyID, keyIDPrefix. rewrite Hs, Hn.
  rewrite (ParseKeyID_built _ _ _ _ _ _ _ Hs'' Hch Ha Hc Hi Hs Hn Hs' Hne). by destruct r.
Qed.

(** ** The registry and the sign service *)

Lemma assoc_elem {A} k (l : list (string * A)) v : assoc k l = Some v → (k, v) ∈ l.
Proof.
  unfold assoc. destruct (List.find _ l) as [[k' v']|] eqn:Hf; [|done]. intros [= <-].
  apply List.find_some in Hf as [Hin Hk%bool_decide_eq_true]. cbn in Hk. subst k'. by apply list_elem_of_In.
Qed.

(** Every chain the registry knows, the sign service reads as a chain with the
    same coin type. *)
Definition same_coin (p : string * Z) : bool :=
  let ch := KeyRef.normalizeChain (fst p) in
  bool_decide (ch ≠ "") && bool_decide (coinTypeForChain ch = Ok (snd p))
  && forallb (λ a, negb (Ascii.eqb ":" a)) (to_bytes (fst p)).

Lemma registry_chains : forallb same_coin hdCoinTypes = true.
Proof. vm_compute. reflexivity. Qed.

Lemma registry_chain ch coin :
  assoc ch hdCoinTypes = Some coin →
  KeyRef.normalizeChain ch ≠ "" ∧ coinTypeForChain (KeyRef.normalizeChain ch) = Ok coin ∧ ":"%char ∉ to_bytes ch.
Proof.
  intros H%assoc_elem%list_elem_of_In. pose proof registry_chains as Hall. rewrite forallb_forall in Hall.
  apply Hall in H. unfold same_coin in H. cbn [fst snd] in H. apply andb_prop in H as [H Hc].
  apply andb_prop in H as [H1%bool_decide_eq_true H2%bool_decide_eq_true]. split_and!; [done..|].
  intros Hin%list_elem_of_In. rewrite forallb_forall in Hc. by apply Hc in Hin.
Qed.

Lemma services_agree st ch a c i path :
  is_uint32 a → is_uint32 c → is_uint32 i → buildHDDerivationPath st ch a c i = Ok path →
  ∃ ref, ParseKeyID (buildHDKeyID st ch a c i) = Ok ref ∧ DerivationPath ref = Ok path
    ∧ kr_Account ref = a ∧ kr_Change ref = c ∧ kr_Index ref = i.
Proof.
  intros Ha Hc Hi. unfold buildHDDerivationPath, hdCoinTypeForChain.
  destruct (assoc (RegistryKeys.normalizeChain ch) hdCoinTypes) as [coin|] eqn:Hcoin; [|done].
  cbn [from_option_err]. rewrite bind_ok. apply registry_chain in Hcoin as (Hne & Hcoin & Hch).
  intros Hp. assert (Hst : RegistryKeys.normalizeSignType st ∈ ["ecdsa"; "eddsa"]).
  { rewrite !elem_of_cons. do 2 (case_decide; [tauto|]). done. }
  destruct (normal_sign_type _ Hst) as (Hs & Hs' & Hs'').
  eexists. unfold buildHDKeyID.
  split; [exact (ParseKeyID_built _ _ _ _ _ _ _ Hs'' Hch Ha Hc Hi Hs eq_refl Hs' Hne)|].
  split_and!; [|done..]. unfold DerivationPath. cbn [kr_Chain kr_SignType kr_Account kr_Change kr_Index].
  rewrite Hcoin, bind_ok. do 2 (case_decide; [done|]). done.
Qed.

(** ** Path indexes *)

Lemma hardened_range x : 0 ≤ hardened x < 2 ^ 32.
Proof. unfold hardened, wrapu32. apply Z.mod_pos_bound. lia. Qed.

Lemma hardened_small x : 0 ≤ x < 2 ^ 31 → hardened x = x + 2 ^ 31.
Proof. intros Hx. unfold hardened, wrapu32, hardenedOffset. apply Z.mod_small. lia. Qed.

Lemma hardened_large x : 2 ^ 31 ≤ x < 2 ^ 32 → hardened x = x - 2 ^ 31.
Proof.
  intros Hx. unfold hardened, wrapu32, hardenedOffset. replace (x + 2 ^ 31) with ((x - 2 ^ 31) + 1 * 2 ^ 32) by lia.
  rewrite Z.mod_add by lia. apply Z.mod_small. lia.
Qed.

Lemma hardened_inj x y : is_uint32 x → is_uint32 y → hardened x = hardened y → x = y.
Proof.
  unfold is_uint32. intros Hx Hy H.
  destruct (decide (x < 2 ^ 31)), (decide (y < 2 ^ 31));
    rewrite ?(hardened_small x), ?(hardened_small y), ?(hardened_large x), ?(hardened_large y) in H by lia; lia.
Qed.

(** ** Slots *)

Lemma hexChar_safe n : (n < 16)%N → isSafeChar (hexChar n) = true.
Proof.
  intros Hn. assert (Hall : forallb (λ k, isSafeChar (hexChar (N.of_nat k))) (seq 0 16) = true) by (vm_compute; done).
  rewrite forallb_forall in Hall. specialize (Hall (N.to_nat n)). rewrite N2Nat.id in Hall.
  apply Hall, in_seq. lia.
Qed.

Lemma N_of_ascii_bound a : (N_of_ascii a < 256)%N.
Proof. apply Ascii.N_ascii_bounded. Qed.

Lemma hexEncode_safe l : forallb isSafeChar (to_bytes (hexEncode l)) = true.
Proof.
  unfold hexEncode. rewrite to_of_bytes. induction l as [|a l IH]; [done|]. cbn [flat_map].
  rewrite forallb_app, IH. cbn. pose proof (N_of_ascii_bound a).
  rewrite !hexChar_safe; [done|by apply N.mod_upper_bound|apply N.Div0.div_lt_upper_bound; lia].
Qed.

Lemma tenantSlotKey_safe `{Sha256} t : isSafeSlotID (tenantSlotKey t) = true.
Proof.
  unfold tenantSlotKey. destruct (isSafeSlotID t) eqn:Ht; [done|].
  unfold isSafeSlotID. change ("t_" +:+ hexEncode ?x) with (String "t" (String "_" (hexEncode x))).
  cbn. by rewrite hexEncode_safe.
Qed.

Lemma tenantSlotKey_idem `{Sha256} t : tenantSlotKey (tenantSlotKey t) = tenantSlotKey t.
Proof. unfold tenantSlotKey at 1. by rewrite tenantSlotKey_safe. Qed.

Lemma tenantSlotKey_nonempty `{Sha256} t : tenantSlotKey t ≠ "".
Proof. pose proof (tenantSlotKey_safe t) as Hs. by intros E; rewrite E in Hs. Qed.

Lemma tenantSlotKey_trimmed `{Sha256} t : TrimSpace (tenantSlotKey t) = tenantSlotKey t.
Proof.
  rewrite <- (of_to_bytes (tenantSlotKey t)). apply TrimSpace_clean, Forall_forall. intros a Ha%list_elem_of_In.
  pose proof (tenantSlotKey_safe t) as Hs. apply andb_prop in Hs as [_ Hs]. rewrite forallb_forall in Hs.
  apply Hs in Ha. unfold isSafeChar in Ha. unfold clean_char.
  repeat match goal with
  | H : (_ || _) = true |- _ => apply orb_prop in H as [H|H]
  | H : (_ && _) = true |- _ => apply andb_prop in H as [?%N.leb_le ?%N.leb_le]
  | H : (_ =? _)%N = true |- _ => apply N.eqb_eq in H
  end; apply andb_true_intro; rewrite !N.leb_le; lia.
Qed.
