(* ===== verification/HDDerive.v ===== *)
(** * Key derivation of the sign service

    [sign-service/internal/hd/derive.go]: BIP-32 derivation on secp256k1 and
    SLIP-10 on ed25519.  Curve arithmetic, HMAC-SHA512 and the ed25519 public
    key are parameters ([Crypto]); what the code relies on is stated as laws
    ([CryptoLaws]). *)
From S2P Require Import Prelude GoStrings GoNumbers KeyRef.

(** ** What the code uses of the crypto libraries *)

Class Crypto := {
  privkey : Type;
  point : Type;
  PublicKeyOf : privkey → point;
  ToECDSA : bytes → result privkey;
  FromECDSA : privkey → bytes;
  CompressPubkey : point → bytes;
  FromECDSAPub : point → bytes;
  DecompressPubkey : bytes → result point;
  UnmarshalPubkey : bytes → result point;
  curveN : Z;
  ScalarBaseMult : bytes → point;
  curveAdd : point → point → option point;
  hmacSHA512 : bytes → bytes → bytes;
  ed25519_public : bytes → bytes;
}.

(** ** Bytes *)

(** [new(big.Int).SetBytes] *)
Definition SetBytes (l : bytes) : Z := foldl (λ acc a, acc * 256 + Z.of_N (N_of_ascii a)) 0 l.

(** [byte(v)] *)
Definition lowByte (v : Z) : ascii := ascii_of_N (Z.to_N (Z.land v 255)).

(** The bytes of [z] in front of [acc], most significant first. *)
Fixpoint bytes_loop (fuel : nat) (z : Z) (acc : bytes) : bytes :=
  match fuel with
  | O => acc
  | S fuel => if decide (z = 0) then acc else bytes_loop fuel (z / 256) (lowByte z :: acc)
  end.
(** [Bytes()] of a big integer: a number has at most as many bytes as bits. *)
Definition BigBytes (z : Z) : bytes := bytes_loop (S (Z.to_nat (Z.log2 z))) z [].

Definition appendUint32 (dst : bytes) (v : Z) : bytes :=
  dst ++ [lowByte (Z.shiftr v 24); lowByte (Z.shiftr v 16); lowByte (Z.shiftr v 8); lowByte v].

Definition leftPad (src : bytes) (size : nat) : bytes :=
  if decide (size ≤ List.length src)%nat then drop (List.length src - size) src
  else replicate (size - List.length src) zero ++ src.

Definition stringsTrimHex (raw : string) : string := TrimPrefix (TrimPrefix (TrimSpace raw) "0x") "0X".

(** [hex.DecodeString] *)
Definition DecodeString (s : string) : result bytes :=
  from_option_err (Errorf "encoding/hex: invalid") (hexDecode (to_bytes s)).

(** [%w] behind a prefix. *)
Definition errPrefix {A} (prefix : string) (r : result A) : result A :=
  match r with Ok a => Ok a | Err e => Err (Errorf (prefix +:+ error_text e)) end.

Record DerivedKey := {
  dk_KeyID : string;
  dk_DerivationPath : string;
  dk_PublicKeyHex : string;
  dk_AlternatePublicKey : string;
  dk_PublicDerivationSupported : bool;
  dk_AccountPublicKeyHex : string;
  dk_AccountAlternatePublicKey : string;
  dk_AccountChainCodeHex : string;
  dk_AccountDerivationPath : string;
}.

Record SigningKey := { sk_KeyID : string; sk_DerivationPath : string; sk_PrivateKeyHex : string }.

Section derive.
Context `{Crypto}.

(** ** secp256k1 *)

Definition validateSecpKey (key : bytes) : result () :=
  if decide (List.length key ≠ 32%nat) then Err (Errorf "invalid secp256k1 key length") else
  let keyInt := SetBytes key in
  if decide (keyInt = 0 ∨ curveN ≤ keyInt) then Err (Errorf "invalid secp256k1 private key") else Ok ().

Definition secpMaster (seed : bytes) : result (bytes * bytes) :=
  let sum := hmacSHA512 (to_bytes "Bitcoin seed") seed in
  let key := take 32 sum in
  let chainCode := drop 32 sum in
  _ ← validateSecpKey key;
  Ok (key, chainCode).

Definition secpChild (parentKey parentChainCode : bytes) (index : Z) : result (bytes * bytes) :=
  if decide (List.length parentKey ≠ 32%nat ∨ List.length parentChainCode ≠ 32%nat) then
    Err (Errorf "invalid parent key state")
  else
  data ← (if decide (hardenedOffset ≤ index) then Ok (zero :: parentKey)
          else privKey ← ToECDSA parentKey; Ok (CompressPubkey (PublicKeyOf privKey)));
  let sum := hmacSHA512 parentChainCode (appendUint32 data index) in
  let parsed := SetBytes (take 32 sum) in
  if decide (parsed = 0 ∨ curveN ≤ parsed) then Err (Errorf "derived invalid secp256k1 child key") else
  let parsed := (parsed + SetBytes parentKey) mod curveN in
  if decide (parsed = 0) then Err (Errorf "derived zero secp256k1 child key") else
  Ok (leftPad (BigBytes parsed) 32, drop 32 sum).

Definition parseSecpPublicKey (pub : bytes) : result point :=
  match DecompressPubkey pub with
  | Ok parsed => Ok parsed
  | Err _ => UnmarshalPubkey pub
  end.

Definition secpChildPublic (parentCompressed parentChainCode : bytes) (index : Z) : result (bytes * bytes) :=
  if decide (List.length parentCompressed = 0%nat ∨ List.length parentChainCode ≠ 32%nat) then
    Err (Errorf "invalid parent public key state")
  else if decide (hardenedOffset ≤ index) then
    Err (Errorf "public derivation does not support hardened child index")
  else
  let sum := hmacSHA512 parentChainCode (appendUint32 parentCompressed index) in
  let il := SetBytes (take 32 sum) in
  if decide (il = 0 ∨ curveN ≤ il) then Err (Errorf "derived invalid secp256k1 child public key") else
  parentPub ← parseSecpPublicKey parentCompressed;
  match curveAdd (ScalarBaseMult (take 32 sum)) parentPub with
  | None => Err (Errorf "derived invalid secp256k1 child public key")
  | Some child => Ok (CompressPubkey child, drop 32 sum)
  end.

(** The loop over the path. *)
Fixpoint deriveAlong (state : bytes * bytes) (path : list Z) : result (bytes * bytes) :=
  match path with
  | [] => Ok state
  | index :: path => next ← secpChild (fst state) (snd state) index; deriveAlong next path
  end.

Definition deriveECDSAKeyState (masterSeed : bytes) (path : list Z) : result (bytes * bytes) :=
  master ← secpMaster masterSeed;
  deriveAlong master path.

Definition deriveECDSAPrivate (masterSeed : bytes) (path : list Z) : result string :=
  state ← deriveECDSAKeyState masterSeed path;
  privKey ← ToECDSA (fst state);
  Ok (hexEncode (FromECDSA privKey)).

Definition deriveECDSAChildFromAccount (accountCompressed accountChainCode : bytes) (changeIndex addressIndex : Z)
    : result (string * string) :=
  change ← secpChildPublic accountCompressed accountChainCode changeIndex;
  child ← secpChildPublic (fst change) (snd change) addressIndex;
  pub ← parseSecpPublicKey (fst child);
  Ok (hexEncode (CompressPubkey pub), hexEncode (FromECDSAPub pub)).

Definition DeriveECDSAChildPublic (accountCompressedHex accountChainCodeHex : string) (changeIndex addressIndex : Z)
    : result (string * string) :=
  accountCompressed ← errPrefix "decode account public key: " (DecodeString (stringsTrimHex accountCompressedHex));
  accountChainCode ← errPrefix "decode account chain code: " (DecodeString (stringsTrimHex accountChainCodeHex));
  deriveECDSAChildFromAccount accountCompressed accountChainCode changeIndex addressIndex.

Definition deriveECDSAPublic (masterSeed : bytes) (ref : KeyRef) (derivationPath : string) : result DerivedKey :=
  accountPath ← accountPathIndexes ref;
  accountDerivationPath ← AccountDerivationPath ref;
  account ← deriveECDSAKeyState masterSeed accountPath;
  accountPriv ← ToECDSA (fst account);
  let accountCompressed := CompressPubkey (PublicKeyOf accountPriv) in
  let accountUncompressed := FromECDSAPub (PublicKeyOf accountPriv) in
  child ← deriveECDSAChildFromAccount accountCompressed (snd account) (kr_Change ref) (kr_Index ref);
  Ok {| dk_KeyID := ID ref; dk_DerivationPath := derivationPath;
        dk_PublicKeyHex := fst child; dk_AlternatePublicKey := snd child;
        dk_PublicDerivationSupported := true;
        dk_AccountPublicKeyHex := hexEncode accountCompressed;
        dk_AccountAlternatePublicKey := hexEncode accountUncompressed;
        dk_AccountChainCodeHex := hexEncode (snd account);
        dk_AccountDerivationPath := accountDerivationPath |}.

(** ** ed25519 *)

Definition edMaster (seed : bytes) : bytes * bytes :=
  let sum := hmacSHA512 (to_bytes "ed25519 seed") seed in (take 32 sum, drop 32 sum).

Definition edChild (parentSeed parentChainCode : bytes) (index : Z) : bytes * bytes :=
  let sum := hmacSHA512 parentChainCode (appendUint32 (zero :: parentSeed) index) in (take 32 sum, drop 32 sum).

Fixpoint edAlong (state : bytes * bytes) (path : list Z) : result (bytes * bytes) :=
  match path with
  | [] => Ok state
  | index :: path =>
      if decide (index < hardenedOffset) then Err (Errorf "ed25519 derivation only supports hardened children")
      else edAlong (edChild (fst state) (snd state) index) path
  end.

(** [ed25519.NewKeyFromSeed]: the seed, then the public key. *)
Definition NewKeyFromSeed (seed : bytes) : bytes := seed ++ ed25519_public seed.

Definition deriveEdDSAPublic (masterSeed : bytes) (ref : KeyRef) : result string :=
  path ← pathIndexes ref;
  state ← edAlong (edMaster masterSeed) path;
  Ok (hexEncode (drop 32 (NewKeyFromSeed (fst state)))).

Definition deriveEdDSAPrivate (masterSeed : bytes) (path : list Z) : result string :=
  state ← edAlong (edMaster masterSeed) path;
  Ok (hexEncode (NewKeyFromSeed (fst state))).

(** ** The two entry points *)

Definition DerivePublicKey (masterSeed : bytes) (ref : KeyRef) : result DerivedKey :=
  derivationPath ← DerivationPath ref;
  if decide (kr_SignType ref = "ecdsa") then deriveECDSAPublic masterSeed ref derivationPath
  else if decide (kr_SignType ref = "eddsa") then
    pub ← deriveEdDSAPublic masterSeed ref;
    Ok {| dk_KeyID := ID ref; dk_DerivationPath := derivationPath; dk_PublicKeyHex := pub;
          dk_AlternatePublicKey := pub; dk_PublicDerivationSupported := false; dk_AccountPublicKeyHex := "";
          dk_AccountAlternatePublicKey := ""; dk_AccountChainCodeHex := ""; dk_AccountDerivationPath := "" |}
  else Err (Errorf ("unsupported sign type: " +:+ kr_SignType ref)).

Definition DeriveSigningKey (masterSeed : bytes) (ref : KeyRef) : result SigningKey :=
  path ← pathIndexes ref;
  derivationPath ← DerivationPath ref;
  if decide (kr_SignType ref = "ecdsa") then
    priv ← deriveECDSAPrivate masterSeed path;
    Ok {| sk_KeyID := ID ref; sk_DerivationPath := derivationPath; sk_PrivateKeyHex := priv |}
  else if decide (kr_SignType ref = "eddsa") then
    priv ← deriveEdDSAPrivate masterSeed path;
    Ok {| sk_KeyID := ID ref; sk_DerivationPath := derivationPath; sk_PrivateKeyHex := priv |}
  else Err (Errorf ("unsupported sign type: " +:+ kr_SignType ref)).
End derive.
