(* ===== verification/HdPub.v ===== *)
(** * Public key derivation in wallet-core

    [wallet-core/internal/hdpub/ecdsa.go]: the registry's side of public
    derivation.  It takes [int64] indexes, truncates them to [uint32], and does
    not refuse hardened ones; what it shares with the sign service's file is
    used from there. *)
From S2P Require Import Prelude GoStrings GoNumbers KeyRef HDDerive.

Section hdpub.
Context `{Crypto}.

Definition decodeHex (raw : string) : result bytes := DecodeString (stringsTrimHex raw).

Definition secpChildPublic (parentCompressed parentChainCode : bytes) (index : Z) : result (bytes * bytes) :=
  if decide (List.length parentCompressed = 0%nat ∨ List.length parentChainCode ≠ 32%nat) then
    Err (Errorf "invalid parent public key state")
  else
  let sum := hmacSHA512 parentChainCode (appendUint32 parentCompressed index) in
  let il := SetBytes (take 32 sum) in
  if decide (il = 0 ∨ curveN ≤ il) then Err (Errorf "derived invalid secp256k1 child public key") else
  parentPub ← parseSecpPublicKey parentCompressed;
  match curveAdd (ScalarBaseMult (take 32 sum)) parentPub with
  | None => Err (Errorf "derived invalid secp256k1 child public key")
  | Some child => Ok (CompressPubkey child, drop 32 sum)
  end.

Definition DeriveECDSAChildPublic (accountCompressedHex accountChainCodeHex : string) (changeIndex addressIndex : Z)
    : result (string * string) :=
  if decide (changeIndex < 0 ∨ addressIndex < 0) then
    Err (Errorf "change/address index must be non-negative")
  else
  accountCompressed ← errPrefix "decode account public key: " (decodeHex accountCompressedHex);
  accountChainCode ← errPrefix "decode account chain code: " (decodeHex accountChainCodeHex);
  change ← secpChildPublic accountCompressed accountChainCode (wrapu32 changeIndex);
  child ← secpChildPublic (fst change) (snd change) (wrapu32 addressIndex);
  pub ← parseSecpPublicKey (fst child);
  Ok (hexEncode (CompressPubkey pub), hexEncode (FromECDSAPub pub)).
End hdpub.
