(* ===== verification/KeyAgreement.v ===== *)
(** * The public and the private derivation agree

    What the sign service signs with is what wallet-core publishes: the public
    key derived from the account's public key is the public key of the private
    key derived along the same path. *)
From S2P Require Import Prelude GoStrings GoNumbers KeyRef KeyPaths HDDerive HdPub.

(** ** What is relied on of the crypto libraries *)

(** A 32-byte number in the range of private keys. *)
Definition valid_key `{Crypto} (k : bytes) : Prop := List.length k = 32%nat ∧ 0 < SetBytes k < curveN.

(** HMAC-SHA512 has 64 bytes; private keys in range are accepted and written
    back; public keys survive compression, which never gives the empty string;
    and public keys add up as private keys do. *)
Class CryptoLaws `{Crypto} := {
  law_hmac_length : ∀ k d, List.length (hmacSHA512 k d) = 64%nat;
  law_curveN : 0 < curveN ≤ 2 ^ 256;
  law_ToECDSA : ∀ k, valid_key k → ∃ p, ToECDSA k = Ok p ∧ FromECDSA p = k;
  law_compress : ∀ p, CompressPubkey p ≠ [];
  law_decompress : ∀ k p, ToECDSA k = Ok p → DecompressPubkey (CompressPubkey (PublicKeyOf p)) = Ok (PublicKeyOf p);
  law_add : ∀ il k k' p p',
    valid_key il → ToECDSA k = Ok p → ToECDSA k' = Ok p' → SetBytes k' = (SetBytes il + SetBytes k) mod curveN →
    curveAdd (ScalarBaseMult il) (PublicKeyOf p) = Some (PublicKeyOf p');
}.

(** ** Bytes *)

Lemma lowByte_N z : 0 ≤ z → Z.of_N (N_of_ascii (lowByte z)) = z mod 256.
Proof.
  intros Hz. unfold lowByte. change 255 with (Z.ones 8). rewrite Z.land_ones by lia. change (2 ^ 8) with 256.
  pose proof (Z.mod_pos_bound z 256 ltac:(lia)). rewrite Ascii.N_ascii_embedding by lia. lia.
Qed.

Lemma SetBytes_app l1 l2 : SetBytes (l1 ++ l2) = SetBytes l1 * 256 ^ Z.of_nat (List.length l2) + SetBytes l2.
Proof.
  unfold SetBytes. rewrite foldl_app. generalize (foldl (λ acc a, acc * 256 + Z.of_N (N_of_ascii a)) 0 l1) as x.
  induction l2 as [|a l2 IH] using rev_ind; intros x; [cbn; lia|].
  rewrite !foldl_app, IH. cbn [foldl]. rewrite List.length_app, Nat2Z.inj_add. cbn [List.length].
  rewrite Z.pow_add_r by lia. change (256 ^ Z.of_nat 1) with 256. lia.
Qed.

Lemma SetBytes_bound l : 0 ≤ SetBytes l < 256 ^ Z.of_nat (List.length l).
Proof.
  induction l as [|a l IH] using rev_ind; [cbn; lia|].
  rewrite SetBytes_app, List.length_app, Nat2Z.inj_add. cbn [List.length]. rewrite Z.pow_add_r by lia.
  change (256 ^ Z.of_nat 1) with 256. pose proof (Ascii.N_ascii_bounded a).
  assert (SetBytes [a] = Z.of_N (N_of_ascii a)) as -> by reflexivity. lia.
Qed.

Lemma bytes_loop_spec fuel z acc :
  0 ≤ z < 2 ^ Z.of_nat fuel →
  SetBytes (bytes_loop fuel z acc) = z * 256 ^ Z.of_nat (List.length acc) + SetBytes acc.
Proof.
  revert z acc. induction fuel as [|fuel IH]; intros z acc Hz.
  { change (2 ^ Z.of_nat 0) with 1 in Hz. assert (z = 0) as -> by lia. cbn [bytes_loop]. lia. }
  cbn [bytes_loop]. case_decide as Hz0; [subst z; lia|].
  rewrite Nat2Z.inj_succ, Z.pow_succ_r in Hz by lia.
  pose proof (Z.div_mod z 256 ltac:(lia)). pose proof (Z.mod_pos_bound z 256 ltac:(lia)).
  assert (0 ≤ z / 256) by (apply Z.div_pos; lia).
  rewrite IH by (split; [done|apply Z.div_lt_upper_bound; lia]).
  change (lowByte z :: acc) with ([lowByte z] ++ acc). rewrite SetBytes_app, List.length_app, Nat2Z.inj_add.
  cbn [List.length]. rewrite Z.pow_add_r by lia. change (256 ^ Z.of_nat 1) with 256.
  assert (SetBytes [lowByte z] = z mod 256) as -> by (etrans; [reflexivity|apply lowByte_N; lia]).
  set (x := 256 ^ _). nia.
Qed.

Lemma BigBytes_value z : 0 ≤ z → SetBytes (BigBytes z) = z.
Proof.
  intros Hz. unfold BigBytes. rewrite bytes_loop_spec; [cbn; lia|]. split; [done|].
  rewrite Nat2Z.inj_succ, Z2Nat.id by apply Z.log2_nonneg.
  destruct (decide (z = 0)) as [->|]; [done|]. apply Z.log2_spec. lia.
Qed.

(** No more bytes than the number needs. *)
Lemma bytes_loop_length fuel z acc n :
  0 ≤ z < 256 ^ Z.of_nat n → (List.length (bytes_loop fuel z acc) ≤ n + List.length acc)%nat.
Proof.
  revert z acc n. induction fuel as [|fuel IH]; intros z acc n Hz; cbn; [lia|]. case_decide as Hz0; [lia|].
  destruct n as [|n]; [cbn in Hz; lia|]. rewrite Nat2Z.inj_succ, Z.pow_succ_r in Hz by lia.
  pose proof (Z.div_mod z 256 ltac:(lia)). pose proof (Z.mod_pos_bound z 256 ltac:(lia)).
  assert (0 ≤ z / 256) by (apply Z.div_pos; lia).
  specialize (IH (z / 256) (lowByte z :: acc) n). cbn in IH.
  etrans; [apply IH; split; [done|apply Z.div_lt_upper_bound; lia]|]. lia.
Qed.

Lemma SetBytes_zeros n : SetBytes (replicate n zero) = 0.
Proof. unfold SetBytes. induction n as [|n IH]; [done|]. cbn [replicate foldl]. exact IH. Qed.

(** Padding to 32 bytes keeps the number. *)
Lemma leftPad_key z : 0 ≤ z < 2 ^ 256 → List.length (leftPad (BigBytes z) 32) = 32%nat ∧ SetBytes (leftPad (BigBytes z) 32) = z.
Proof.
  intros Hz. assert (Hlen : (List.length (BigBytes z) ≤ 32)%nat).
  { unfold BigBytes. etrans; [apply (bytes_loop_length _ _ _ 32)|cbn; lia].
    replace (256 ^ Z.of_nat 32) with (2 ^ 256) by reflexivity. done. }
  unfold leftPad. case_decide as Hd.
  - replace (List.length (BigBytes z) - 32)%nat with 0%nat by lia. rewrite drop_0.
    split; [lia|]. apply BigBytes_value. lia.
  - rewrite List.length_app, length_replicate, SetBytes_app, SetBytes_zeros, BigBytes_value by lia. split; lia.
Qed.

(** ** What was encoded is decoded *)

(** A property of every hexadecimal digit is one of every character. *)
Lemma hexEncode_chars (P : ascii → bool) l :
  forallb (λ k, P (hexChar (N.of_nat k))) (seq 0 16) = true → Forall (λ a, P a = true) (to_bytes (hexEncode l)).
Proof.
  intros Hall. rewrite forallb_forall in Hall.
  assert (HP : ∀ n, (n < 16)%N → P (hexChar n) = true).
  { intros n Hn. specialize (Hall (N.to_nat n)). rewrite N2Nat.id in Hall. apply Hall, List.in_seq. lia. }
  unfold hexEncode. rewrite to_of_bytes. induction l as [|a l IH]; [constructor|].
  destruct (byte_halves a). cbn [flat_map app]. repeat constructor; eauto.
Qed.

Lemma TrimPrefix_none s a b p :
  Forall (λ x, negb (Ascii.eqb b x) = true) (to_bytes s) → TrimPrefix s (String a (String b p)) = s.
Proof.
  intros Hs. unfold TrimPrefix, HasPrefix. destruct (to_bytes s) as [|x [|y l]]; [done| |]; cbn.
  - by rewrite andb_false_r.
  - apply Forall_cons in Hs as [_ [Hs _]%Forall_cons]. apply negb_true_iff in Hs. by rewrite Hs, andb_false_r.
Qed.

Lemma stringsTrimHex_hexEncode l : stringsTrimHex (hexEncode l) = hexEncode l.
Proof.
  unfold stringsTrimHex. assert (TrimSpace (hexEncode l) = hexEncode l) as ->.
  { rewrite <- (of_to_bytes (hexEncode l)). apply TrimSpace_clean, hexEncode_chars. reflexivity. }
  by rewrite !(TrimPrefix_none (hexEncode l)) by (apply hexEncode_chars; reflexivity).
Qed.

Lemma DecodeString_hexEncode l : DecodeString (stringsTrimHex (hexEncode l)) = Ok l.
Proof. unfold DecodeString. by rewrite stringsTrimHex_hexEncode, hexDecode_Encode. Qed.

(** ** One step *)

Section agreement.
Context `{CryptoLaws}.

Lemma hmac_halves k d : List.length (take 32 (hmacSHA512 k d)) = 32%nat ∧ List.length (drop 32 (hmacSHA512 k d)) = 32%nat.
Proof. rewrite length_take, length_drop, law_hmac_length. done. Qed.

Lemma secpMaster_valid seed k cc : secpMaster seed = Ok (k, cc) → valid_key k ∧ List.length cc = 32%nat.
Proof.
  unfold secpMaster, validateSecpKey. intros Hx. destruct (hmac_halves (to_bytes "Bitcoin seed") seed) as [H1 H2].
  generalize dependent (hmacSHA512 (to_bytes "Bitcoin seed") seed). intros sum Hx H1 H2.
  mbind_inv Hx. injection Hx as <- <-. case_decide; [done|]. case_decide as Hr; [done|].
  pose proof (SetBytes_bound (take 32 sum)). split; [split; [done|lia]|done].
Qed.

(** A child key is a sum in the range of keys. *)
Lemma secpChild_inv k cc i k' cc' :
  secpChild k cc i = Ok (k', cc') →
  ∃ data, (if decide (hardenedOffset ≤ i) then Ok (zero :: k)
           else privKey ← ToECDSA k; Ok (CompressPubkey (PublicKeyOf privKey))) = Ok data
    ∧ let sum := hmacSHA512 cc (appendUint32 data i) in
      List.length k = 32%nat ∧ List.length cc = 32%nat ∧ valid_key (take 32 sum) ∧ cc' = drop 32 sum ∧ valid_key k'
      ∧ SetBytes k' = (SetBytes (take 32 sum) + SetBytes k) mod curveN ∧ List.length cc' = 32%nat.
Proof.
  unfold secpChild. intros Hx. decide_in Hx; [done|].
  assert (List.length k = 32%nat ∧ List.length cc = 32%nat) as [Hk Hcc] by lia. mbind_inv Hx. rename a into data. exists data. split; [done|].
  cbv zeta in Hx |- *. set (sum := hmacSHA512 cc (appendUint32 data i)) in *.
  destruct (hmac_halves cc (appendUint32 data i)) as [H1 H2]. fold sum in H1, H2.
  case_decide as Hil; [done|]. case_decide as Hsum0; [done|]. injection Hx as <- <-.
  pose proof (SetBytes_bound (take 32 sum)). destruct law_curveN as [HN0 HN].
  pose proof (Z.mod_pos_bound (SetBytes (take 32 sum) + SetBytes k) curveN HN0) as Hb.
  destruct (leftPad_key ((SetBytes (take 32 sum) + SetBytes k) mod curveN)) as [Hl Hv]; [lia|].
  split_and!; try done; split; try done; lia.
Qed.

Lemma secpChildPublic_agrees k cc i k' cc' p :
  i < hardenedOffset → ToECDSA k = Ok p → secpChild k cc i = Ok (k', cc') →
  ∃ p', ToECDSA k' = Ok p' ∧ FromECDSA p' = k'
    ∧ HDDerive.secpChildPublic (CompressPubkey (PublicKeyOf p)) cc i = Ok (CompressPubkey (PublicKeyOf p'), cc')
    ∧ HdPub.secpChildPublic (CompressPubkey (PublicKeyOf p)) cc i = Ok (CompressPubkey (PublicKeyOf p'), cc').
Proof.
  intros Hi Hp Hc. apply secpChild_inv in Hc as (data & Hd & Hk & Hcc & Hil & -> & Hk' & Hsum & _).
  rewrite decide_False in Hd by lia. rewrite Hp, bind_ok in Hd. injection Hd as <-.
  destruct (law_ToECDSA _ Hk') as (p' & Hp' & Hf). exists p'. split_and!; [done|done|..].
  all: unfold HDDerive.secpChildPublic, HdPub.secpChildPublic, parseSecpPublicKey.
  all: rewrite (decide_False (P := List.length (CompressPubkey _) = 0%nat ∨ _))
    by (intros [Hn|Hn]; [by apply nil_length_inv, law_compress in Hn|done]).
  1: rewrite (decide_False (P := hardenedOffset ≤ i)) by lia.
  all: cbv zeta; rewrite decide_False by (destruct Hil as [_ ?]; lia).
  all: rewrite (law_decompress _ _ Hp), bind_ok, (law_add _ _ _ _ _ Hil Hp Hp' Hsum); done.
Qed.

(** ** Along a path *)

Definition valid_state (s : bytes * bytes) : Prop := valid_key (fst s) ∧ List.length (snd s) = 32%nat.

Lemma deriveAlong_app s p q : deriveAlong s (p ++ q) = s' ← deriveAlong s p; deriveAlong s' q.
Proof.
  revert s. induction p as [|i p IH]; intros s; cbn [app deriveAlong]; [done|].
  destruct (secpChild _ _ i); [apply IH|done].
Qed.

Lemma deriveAlong_valid s p s' : valid_state s → deriveAlong s p = Ok s' → valid_state s'.
Proof.
  revert s. induction p as [|i p IH]; intros s Hs; cbn; [by intros [= <-]|]. intros Hx. mbind_inv Hx.
  apply (IH _) in Hx; [done|]. destruct a as [k' cc']. apply secpChild_inv in Ha as (? & _ & Ha). cbv zeta in Ha.
  split; tauto.
Qed.

Lemma deriveECDSAKeyState_valid seed p s : deriveECDSAKeyState seed p = Ok s → valid_state s.
Proof.
  intros Hx. unfold deriveECDSAKeyState in Hx. mbind_inv Hx. destruct a as [k cc].
  apply secpMaster_valid in Ha. by eapply deriveAlong_valid; [|exact Hx].
Qed.

(** The two last steps of a path, on private keys and on public keys. *)
Lemma child_agrees k cc c i s' :
  valid_key k → c < hardenedOffset → i < hardenedOffset → deriveAlong (k, cc) [c; i] = Ok s' →
  ∃ p p', ToECDSA k = Ok p ∧ ToECDSA (fst s') = Ok p' ∧ FromECDSA p' = fst s' ∧
    let pubs := Ok (hexEncode (CompressPubkey (PublicKeyOf p')), hexEncode (FromECDSAPub (PublicKeyOf p'))) in
    deriveECDSAChildFromAccount (CompressPubkey (PublicKeyOf p)) cc c i = pubs
    ∧ (0 ≤ c → 0 ≤ i →
       HdPub.DeriveECDSAChildPublic (hexEncode (CompressPubkey (PublicKeyOf p))) (hexEncode cc) c i = pubs).
Proof.
  intros Hk Hc Hi Hx. cbn [deriveAlong fst snd] in Hx. mbind_inv Hx. mbind_inv Hx. injection Hx as <-.
  destruct a as [k1 cc1], a0 as [k2 cc2]. cbn [fst snd] in *.
  destruct (law_ToECDSA _ Hk) as (p & Hp & _).
  destruct (secpChildPublic_agrees _ _ _ _ _ _ Hc Hp Ha) as (p1 & Hp1 & _ & Hs1 & Hw1).
  destruct (secpChildPublic_agrees _ _ _ _ _ _ Hi Hp1 Ha0) as (p2 & Hp2 & Hf2 & Hs2 & Hw2).
  exists p, p2. do 3 (split; [done|]). cbv zeta. split.
  - unfold deriveECDSAChildFromAccount. rewrite Hs1, bind_ok. cbn [fst snd]. rewrite Hs2, bind_ok. cbn [fst snd].
    unfold parseSecpPublicKey. by rewrite (law_decompress _ _ Hp2).
  - intros Hc0 Hi0. unfold HdPub.DeriveECDSAChildPublic, decodeHex. rewrite decide_False by lia.
    rewrite !DecodeString_hexEncode. unfold errPrefix, wrapu32. unfold hardenedOffset in *. rewrite !bind_ok.
    rewrite !Z.mod_small by lia. rewrite Hw1, bind_ok. cbn [fst snd]. rewrite Hw2, bind_ok. cbn [fst snd].
    unfold parseSecpPublicKey. by rewrite (law_decompress _ _ Hp2).
Qed.
End agreement.

(** * Private keys and their public keys

    What [DeriveSigningKey] signs with and what [DerivePublicKey] publishes are
    the two halves of one key pair. *)

Section pairs.
Context `{CryptoLaws}.

(** A private key and its public key, as they are printed. *)
Definition key_pair (signType priv pub : string) : Prop :=
  if decide (signType = "ecdsa") then
    ∃ p, ToECDSA (FromECDSA p) = Ok p
      ∧ priv = hexEncode (FromECDSA p) ∧ pub = hexEncode (CompressPubkey (PublicKeyOf p))
  else ∃ seed, List.length seed = 32%nat
      ∧ priv = hexEncode (NewKeyFromSeed seed) ∧ pub = hexEncode (ed25519_public seed).

Lemma pathIndexes_ecdsa ref :
  kr_SignType ref = "ecdsa" →
  pathIndexes ref = account ← accountPathIndexes ref; Ok (account ++ [kr_Change ref; kr_Index ref]).
Proof.
  intros Hs. unfold pathIndexes, accountPathIndexes. destruct (coinTypeForChain _); [|done].
  rewrite !bind_ok. by rewrite decide_True.
Qed.

Lemma edAlong_length s path s' : path ≠ [] → edAlong s path = Ok s' → List.length (fst s') = 32%nat.
Proof.
  intros Hne. assert (Hall : List.length (fst s) = 32%nat ∨ path ≠ []) by tauto. clear Hne. revert s Hall.
  induction path as [|i path IH]; intros s Hall; cbn; [by destruct Hall; [intros [= <-]|]|].
  case_decide; [done|]. apply IH. left. cbn. by apply hmac_halves.
Qed.

Lemma ecdsa_pair seed ref sk :
  kr_SignType ref = "ecdsa" → 0 ≤ kr_Change ref < hardenedOffset → 0 ≤ kr_Index ref < hardenedOffset →
  DeriveSigningKey seed ref = Ok sk →
  ∃ dk, DerivePublicKey seed ref = Ok dk ∧ dk_KeyID dk = sk_KeyID sk
    ∧ dk_DerivationPath dk = sk_DerivationPath sk ∧ dk_PublicDerivationSupported dk = true
    ∧ key_pair "ecdsa" (sk_PrivateKeyHex sk) (dk_PublicKeyHex dk)
    ∧ HdPub.DeriveECDSAChildPublic (dk_AccountPublicKeyHex dk) (dk_AccountChainCodeHex dk) (kr_Change ref) (kr_Index ref)
      = Ok (dk_PublicKeyHex dk, dk_AlternatePublicKey dk).
Proof.
  intros Hs Hc Hi Hx. unfold DeriveSigningKey in Hx. rewrite pathIndexes_ecdsa in Hx by done.
  mbind_inv Hx. rename Ha into Hpath. mbind_inv Hpath. injection Hpath as <-. rename a0 into account.
  mbind_inv Hx. rename a into path, Ha0 into Hpath. rewrite decide_True in Hx by done. mbind_inv Hx. injection Hx as <-.
  unfold deriveECDSAPrivate, deriveECDSAKeyState in Ha0. mbind_inv Ha0. mbind_inv Ha1. rename a1 into master.
  rewrite deriveAlong_app in Ha1. mbind_inv Ha1. destruct a1 as [k cc].
  assert (Hst : deriveECDSAKeyState seed account = Ok (k, cc)) by (unfold deriveECDSAKeyState; by rewrite Ha2).
  destruct (deriveECDSAKeyState_valid _ _ _ Hst) as [Hk _].
  destruct (child_agrees k cc _ _ _ Hk (proj2 Hc) (proj2 Hi) Ha1) as (p & p' & Hp & Hp' & Hf & Hd & Hw).
  rewrite Hp', bind_ok in Ha0. injection Ha0 as <-. unfold DerivePublicKey. rewrite Hpath, bind_ok, decide_True by done.
  unfold deriveECDSAPublic. rewrite Ha, bind_ok.
  destruct (AccountDerivationPath ref) as [apath|] eqn:Hap.
  2: { exfalso. unfold AccountDerivationPath in Hap. unfold accountPathIndexes in Ha.
       destruct (coinTypeForChain _); [|done]. rewrite bind_ok, Hs in Hap. by rewrite decide_True in Hap by set_solver. }
  rewrite bind_ok, Hst, bind_ok. cbn [fst snd]. rewrite Hp, bind_ok. cbv zeta. rewrite Hd, bind_ok.
  eexists. do 4 (split; [reflexivity|]). split; [|exact (Hw (proj1 Hc) (proj1 Hi))].
  unfold key_pair. rewrite decide_True by done. exists p'. split; [by rewrite Hf|done].
Qed.

Lemma eddsa_pair seed ref sk :
  kr_SignType ref = "eddsa" → DeriveSigningKey seed ref = Ok sk →
  ∃ dk, DerivePublicKey seed ref = Ok dk ∧ dk_KeyID dk = sk_KeyID sk
    ∧ dk_DerivationPath dk = sk_DerivationPath sk ∧ dk_PublicDerivationSupported dk = false
    ∧ key_pair "eddsa" (sk_PrivateKeyHex sk) (dk_PublicKeyHex dk).
Proof.
  intros Hs Hx. unfold DeriveSigningKey in Hx. mbind_inv Hx. rename a into path, Ha into Hpath. mbind_inv Hx.
  rewrite decide_False, decide_True in Hx by (by rewrite Hs). mbind_inv Hx. injection Hx as <-.
  unfold deriveEdDSAPrivate in Ha0. mbind_inv Ha0. injection Ha0 as <-. rename Ha1 into Hed, a1 into state.
  eexists. unfold DerivePublicKey. rewrite Ha, bind_ok, decide_False, decide_True by (by rewrite Hs).
  unfold deriveEdDSAPublic. rewrite Hpath, bind_ok, Hed, !bind_ok. split; [reflexivity|].
  split_and!; [done..|]. unfold key_pair. rewrite decide_False by done. exists (fst state).
  cbn [dk_PublicKeyHex]. unfold NewKeyFromSeed.
  assert (Hl : List.length (fst state) = 32%nat).
  { eapply edAlong_length; [|exact Hed]. unfold pathIndexes in Hpath. mbind_inv Hpath. repeat case_decide; congruence. }
  split; [exact Hl|]. split; [done|]. by rewrite <- Hl, drop_app_length.
Qed.
End pairs.

Lemma signing_key_pair `{CryptoLaws} seed ref sk :
  0 ≤ kr_Change ref < hardenedOffset → 0 ≤ kr_Index ref < hardenedOffset →
  DeriveSigningKey seed ref = Ok sk →
  ∃ dk, DerivePublicKey seed ref = Ok dk
    ∧ dk_KeyID dk = sk_KeyID sk ∧ dk_DerivationPath dk = sk_DerivationPath sk
    ∧ (kr_SignType ref = "ecdsa" ∨ kr_SignType ref = "eddsa")
    ∧ key_pair (kr_SignType ref) (sk_PrivateKeyHex sk) (dk_PublicKeyHex dk)
    ∧ (dk_PublicDerivationSupported dk = true →
       HdPub.DeriveECDSAChildPublic (dk_AccountPublicKeyHex dk) (dk_AccountChainCodeHex dk) (kr_Change ref) (kr_Index ref)
       = Ok (dk_PublicKeyHex dk, dk_AlternatePublicKey dk)).
Proof.
  intros Hc Hi Hx. assert (Hs : kr_SignType ref = "ecdsa" ∨ kr_SignType ref = "eddsa").
  { unfold DeriveSigningKey in Hx. mbind_inv Hx. mbind_inv Hx. repeat (case_decide; [tauto|]). done. }
  destruct Hs as [Hs|Hs]; rewrite Hs.
  - destruct (ecdsa_pair _ _ _ Hs Hc Hi Hx) as (dk & ?). exists dk. tauto.
  - destruct (eddsa_pair _ _ _ Hs Hx) as (dk & Hd & ? & ? & Hf & ?). exists dk.
    do 3 (split; [done|]). split; [tauto|]. split; [done|]. by rewrite Hf.
Qed.
