(* ===== verification/ScanStore.v ===== *)
(** * Deposit states and scan helpers

    [scan-account-service/internal/worker/scanner_utils.go] and the chain tests
    of [scanner_deposit.go]: scan statuses and what they mean to the ledger,
    order ids and event keys, and the pagination guard.  [int64] counters are
    integers; durations are nanoseconds. *)
From S2P Require Import Prelude GoStrings GoNumbers.

(** ** Names *)

Definition fallback (v d : string) : string := if decide (TrimSpace v = "") then d else v.

(** [strings.ReplaceAll(x, " ", "_")] *)
Definition spacesToUnderscores (s : string) : string :=
  of_bytes ((λ a, if Ascii.eqb a " " then "_"%char else a) <$> to_bytes s).

Definition normalizePart (v : string) : string :=
  let x := ToLower (TrimSpace v) in
  if decide (x = "") then "unknown" else spacesToUnderscores x.

Definition depositOrderID (txHash : string) (eventIndex : Z) (accountID network : string) : string :=
  "dep_" +:+ txHash +:+ "_" +:+ BigString eventIndex +:+ "_" +:+ accountID +:+ "_" +:+ normalizePart network.

Definition sweepOrderID (txHash : string) (eventIndex : Z) (accountID network : string) : string :=
  "sweep_" +:+ txHash +:+ "_" +:+ BigString eventIndex +:+ "_" +:+ accountID +:+ "_" +:+ normalizePart network.

(** The parts every event key ends with. *)
Definition eventKeyParts (tenantID chain network txHash : string) (eventIndex : Z) : string :=
  ":" +:+ normalizePart tenantID +:+ ":" +:+ normalizePart chain +:+ ":" +:+ normalizePart network +:+ ":"
  +:+ ToLower (TrimSpace txHash) +:+ ":" +:+ BigString eventIndex.

Definition depositEventKey (tenantID chain network txHash : string) (eventIndex : Z) : string :=
  "dep" +:+ eventKeyParts tenantID chain network txHash eventIndex.
Definition sweepEventKey (tenantID chain network txHash : string) (eventIndex : Z) : string :=
  "sweep" +:+ eventKeyParts tenantID chain network txHash eventIndex.
Definition projectDepositEventKey (tenantID chain network txHash : string) (eventIndex : Z) : string :=
  "project-dep" +:+ eventKeyParts tenantID chain network txHash eventIndex.
Definition sweepTriggerEventKey (tenantID chain network txHash : string) (eventIndex : Z) : string :=
  "sweep-trigger" +:+ eventKeyParts tenantID chain network txHash eventIndex.

(** ** Amounts *)

Definition meetsThreshold (amount threshold : string) : bool :=
  if decide (TrimSpace threshold = "") then true else
  match SetString10 (TrimSpace amount), SetString10 (TrimSpace threshold) with
  | Some a, Some t => bool_decide (t < a)
  | _, _ => false
  end.

(** ** Deposit states *)

Definition resolveDepositScanStatus (rawStatus : string) (confirmations minConf unlockConf reorgWindow : Z) : string :=
  let status := ToUpper (TrimSpace rawStatus) in
  if decide (status ∈ ["REORGED"; "REVERTED"; "FAILED"]) then "REORGED"
  else if decide (status = "FINALIZED") then "FINALIZED"
  else
  let minConf := if decide (minConf ≤ 0) then 1 else minConf in
  let unlockConf := if decide (0 < unlockConf ∧ unlockConf < minConf) then minConf else unlockConf in
  let reorgWindow := if decide (reorgWindow < 0) then 0 else reorgWindow in
  if decide (confirmations < 0) then "SEEN"
  else if decide (confirmations = 0) then "SEEN"
  else if decide (confirmations < minConf) then "PENDING"
  else if decide (0 < unlockConf ∧ unlockConf ≤ confirmations) then "FINALIZED"
  else if decide (unlockConf ≤ 0 ∧ 0 < reorgWindow ∧ wrap64 (minConf + reorgWindow) ≤ confirmations) then "FINALIZED"
  else "CONFIRMED".

Definition mapDepositLedgerStatus (scanStatus : string) : string :=
  let s := ToUpper (TrimSpace scanStatus) in
  if decide (s ∈ ["CONFIRMED"; "FINALIZED"]) then "CONFIRMED"
  else if decide (s ∈ ["REORGED"; "REVERTED"; "FAILED"]) then "REVERTED"
  else "PENDING".

Definition shouldProjectNotify (oldScanStatus newScanStatus : string) : bool :=
  bool_decide (mapDepositLedgerStatus oldScanStatus ≠ "CONFIRMED" ∧ mapDepositLedgerStatus newScanStatus = "CONFIRMED").

Definition shouldTriggerSweep (autoSweep : bool) (accountID treasuryID oldScanStatus newScanStatus : string) : bool :=
  if negb autoSweep then false
  else if decide (TrimSpace accountID ≠ "" ∧ TrimSpace accountID = TrimSpace treasuryID) then false
  else shouldProjectNotify oldScanStatus newScanStatus.

(** ** Pagination *)

Record paginationGuard := {
  pg_maxEmptyPages : Z;
  pg_cursorStallGuard : Z;
  pg_emptyPages : Z;
  pg_seenCursors : gmap string Z;
}.

Definition newPaginationGuard (maxEmptyPages cursorStallGuard : Z) : paginationGuard := {|
  pg_maxEmptyPages := if decide (maxEmptyPages < 0) then 0 else maxEmptyPages;
  pg_cursorStallGuard := if decide (cursorStallGuard < 0) then 0 else cursorStallGuard;
  pg_emptyPages := 0;
  pg_seenCursors := ∅;
|}.

(** Whether to go on from the next cursor, whether to stop, and why. *)
Record observation := { ob_advance : bool; ob_stop : bool; ob_reason : string }.

Definition Observe (g : paginationGuard) (currentCursor nextCursor : string) (itemCount : Z)
    : paginationGuard * observation :=
  let g := {| pg_maxEmptyPages := pg_maxEmptyPages g; pg_cursorStallGuard := pg_cursorStallGuard g;
              pg_emptyPages := if decide (itemCount = 0) then pg_emptyPages g + 1 else 0;
              pg_seenCursors := pg_seenCursors g |} in
  let stop reason := {| ob_advance := false; ob_stop := true; ob_reason := reason |} in
  let go := {| ob_advance := true; ob_stop := false; ob_reason := "" |} in
  if decide (TrimSpace nextCursor = "") then (g, stop "cursor_exhausted")
  else if decide (nextCursor = currentCursor) then (g, stop "cursor_not_advanced")
  else if decide (0 < pg_maxEmptyPages g ∧ itemCount = 0 ∧ pg_maxEmptyPages g ≤ pg_emptyPages g) then
    (g, stop "max_empty_pages")
  else if decide (0 < pg_cursorStallGuard g) then
    let seen := default 0 (pg_seenCursors g !! nextCursor) + 1 in
    let g := {| pg_maxEmptyPages := pg_maxEmptyPages g; pg_cursorStallGuard := pg_cursorStallGuard g;
                pg_emptyPages := pg_emptyPages g; pg_seenCursors := <[nextCursor := seen]> (pg_seenCursors g) |} in
    if decide (pg_cursorStallGuard g < seen) then (g, stop "cursor_stall_guard") else (g, go)
  else (g, go).

(** ** Chains *)

Definition evmChains : list string :=
  ["ethereum"; "binance"; "polygon"; "arbitrum"; "optimism"; "linea"; "scroll"; "mantle"; "zksync"; "base"; "avalanche"].

Definition isEVMChain (chain : string) : bool := bool_decide (ToLower (TrimSpace chain) ∈ evmChains).

Definition isNativeEVMAsset (chain coin : string) : bool :=
  let c := ToUpper (TrimSpace coin) in
  let chain := ToLower (TrimSpace chain) in
  if decide (chain = "binance") then bool_decide (c = "BNB")
  else if decide (chain = "polygon") then bool_decide (c ∈ ["MATIC"; "POL"])
  else if decide (chain = "avalanche") then bool_decide (c = "AVAX")
  else if decide (chain = "mantle") then bool_decide (c = "MNT")
  else bool_decide (c = "ETH").

Definition supportsChainWideAccountScan (chain coin : string) : bool :=
  if decide (ToLower (TrimSpace chain) ∈ evmChains) then isNativeEVMAsset chain coin else false.

Definition isSolanaChain (chain : string) : bool := bool_decide (ToLower (TrimSpace chain) ∈ ["sol"; "solana"]).

Definition shouldSkipInternalTransfer (fromAddr : string) (managedAddrs : gset string) : bool :=
  let key := ToLower (TrimSpace fromAddr) in
  if decide (managedAddrs = ∅) then false
  else if decide (key = "") then false
  else bool_decide (key ∈ managedAddrs).

Definition shouldFailOutgoingNotFound (chain : string) (age missCount threshold grace : Z) : bool :=
  if negb (isSolanaChain chain) then false
  else
  let threshold := if decide (threshold ≤ 0) then 1 else threshold in
  let grace := if decide (grace < 0) then 0 else grace in
  if decide (missCount < threshold) then false else bool_decide (grace ≤ age).

(** * The scanner's tables

    [scan-account-service/internal/store/postgres.go]: watched addresses,
    checkpoints, the events seen on chain, the outbox and the block hashes.
    An operation takes the database's [NOW()] in seconds and the tables, and
    returns what the Go function returns with the tables after it. *)

(** [LOWER] and [UPPER] of the database, which depend on its locale. *)
Class SqlText := { sql_lower : string → string; sql_upper : string → string }.
(** A database in which they fold ASCII letters only. *)
Definition asciiText : SqlText := {| sql_lower := ToLower; sql_upper := ToUpper |}.

(** ** Data *)

Record WatchAddress := {
  wt_TenantID : string;
  wt_AccountID : string;
  wt_Model : string;
  wt_Chain : string;
  wt_Coin : string;
  wt_Network : string;
  wt_Address : string;
  wt_ContractAddress : string;
  wt_MinConfirmations : Z;
  wt_UnlockConfirmations : Z;
  wt_TreasuryAccountID : string;
  wt_ColdAccountID : string;
  wt_AutoSweep : bool;
  wt_SweepThreshold : string;
  wt_HotBalanceCap : string;
}.

(** A row of [scan_watch_addresses], in the order of its ids. *)
Record watch_row := { wr_watch : WatchAddress; wr_active : bool }.

(** A row of [wallet_addresses], which wallet-core's registry writes. *)
Record registry_row := {
  rr_tenant_id : string;
  rr_account_id : string;
  rr_chain : string;
  rr_network : string;
  rr_address : string;
  rr_status : option string;
}.

(** tenant, account, model, chain, coin, network, address. *)
Definition watch_key : Type := string * string * string * string * string * string * string.
(** The key of [scan_seen_events]: a watch, a transaction and an index. *)
Definition seen_key : Type := watch_key * string * Z.

Definition watchKey (w : WatchAddress) : watch_key :=
  (wt_TenantID w, wt_AccountID w, wt_Model w, wt_Chain w, wt_Coin w, wt_Network w, wt_Address w).
Definition seenKey (w : WatchAddress) (txHash : string) (eventIndex : Z) : seen_key := (watchKey w, txHash, eventIndex).

Record seen_row := {
  se_status : string;
  se_confirmations : Z;
  se_amount : string;
  se_from_address : string;
  se_to_address : string;
  se_not_found_count : Z;
  se_created_at : Z;
  se_updated_at : Z;
}.

Record SeenEventChange := {
  sc_Notify : bool;
  sc_Inserted : bool;
  sc_OldStatus : string;
  sc_NewStatus : string;
  sc_OldConfirms : Z;
  sc_NewConfirms : Z;
}.

(** What the outbox payloads hold; the column has them as JSON. *)
Record DepositOutboxPayload := {
  dp_TenantID : string;
  dp_AccountID : string;
  dp_OrderID : string;
  dp_EventIndex : Z;
  dp_Chain : string;
  dp_Network : string;
  dp_Coin : string;
  dp_Amount : string;
  dp_TxHash : string;
  dp_FromAddress : string;
  dp_ToAddress : string;
  dp_WatchAddress : string;
  dp_TreasuryID : string;
  dp_ColdAccountID : string;
  dp_AutoSweep : bool;
  dp_SweepThreshold : string;
  dp_HotBalanceCap : string;
  dp_Confirmations : Z;
  dp_RequiredConfs : Z;
  dp_UnlockConfs : Z;
  dp_ScanStatus : string;
  dp_Status : string;
  dp_ProjectNotify : bool;
  dp_SweepTrigger : bool;
}.

Record SweepOutboxPayload := {
  sp_TenantID : string;
  sp_SweepOrderID : string;
  sp_FromAccountID : string;
  sp_TreasuryAccountID : string;
  sp_ColdAccountID : string;
  sp_HotBalanceCap : string;
  sp_Chain : string;
  sp_Network : string;
  sp_Asset : string;
  sp_Amount : string;
}.

Inductive payload : Type :=
  | DepositPayload (p : DepositOutboxPayload)
  | SweepPayload (p : SweepOutboxPayload).

Record OutboxEvent := {
  ev_ID : Z;
  ev_EventKey : string;
  ev_TenantID : string;
  ev_Chain : string;
  ev_Network : string;
  ev_EventType : string;
  ev_Payload : payload;
  ev_Attempt : Z;
  ev_MaxAttempts : Z;
}.

(** A row of [scan_event_outbox]; its key is [event_key]. *)
Record outbox_row := {
  ox_id : Z;
  ox_tenant_id : string;
  ox_chain : string;
  ox_network : string;
  ox_event_type : string;
  ox_payload : payload;
  ox_status : string;
  ox_attempt_count : Z;
  ox_max_attempts : Z;
  ox_next_retry_at : Z;
  ox_last_error : string;
}.

Record checkpoint_row := { cp_cursor : string; cp_last_tx_hash : string; cp_updated_at : Z }.
Record block_row := { bl_hash : string; bl_parent : string }.
Record outgoing_row := { og_chain : string; og_network : string; og_not_found_count : Z; og_first_not_found_at : Z }.

Record store := {
  st_watches : list watch_row;
  st_registry : option (list registry_row);
  st_checkpoints : gmap watch_key checkpoint_row;
  st_chain_checkpoints : gmap (string * string * string * string) checkpoint_row;
  st_seen : gmap seen_key seen_row;
  st_outbox : gmap string outbox_row;
  st_next_outbox_id : Z;
  st_blocks : gmap (string * string * Z) block_row;
  st_outgoing : gmap (string * string * string * string) outgoing_row;
}.

#[export] Instance seen_row_rebuild : Rebuild seen_row := λ r,
  {| se_status := se_status r; se_confirmations := se_confirmations r; se_amount := se_amount r;
     se_from_address := se_from_address r; se_to_address := se_to_address r; se_not_found_count := se_not_found_count r;
     se_created_at := se_created_at r; se_updated_at := se_updated_at r |}.
#[export] Instance outbox_row_rebuild : Rebuild outbox_row := λ r,
  {| ox_id := ox_id r; ox_tenant_id := ox_tenant_id r; ox_chain := ox_chain r; ox_network := ox_network r;
     ox_event_type := ox_event_type r; ox_payload := ox_payload r; ox_status := ox_status r;
     ox_attempt_count := ox_attempt_count r; ox_max_attempts := ox_max_attempts r;
     ox_next_retry_at := ox_next_retry_at r; ox_last_error := ox_last_error r |}.
#[export] Instance store_rebuild : Rebuild store := λ r,
  {| st_watches := st_watches r; st_registry := st_registry r; st_checkpoints := st_checkpoints r;
     st_chain_checkpoints := st_chain_checkpoints r; st_seen := st_seen r; st_outbox := st_outbox r;
     st_next_outbox_id := st_next_outbox_id r; st_blocks := st_blocks r; st_outgoing := st_outgoing r |}.

(** ** Watched addresses *)

Section store.
Context `{SqlText}.

(** [chain = ANY(allowed)], when there is a filter. *)
Definition chain_allowed (allowedChains : list string) (chain : string) : Prop :=
  allowedChains = [] ∨ sql_lower chain ∈ allowedChains.
#[export] Instance chain_allowed_dec allowedChains chain : Decision (chain_allowed allowedChains chain).
Proof. unfold chain_allowed. apply _. Defined.

(** [EXISTS (SELECT 1 FROM wallet_addresses wa WHERE ...)] *)
Definition registered (rows : list registry_row) (w : WatchAddress) : Prop :=
  Exists (λ r, rr_tenant_id r = wt_TenantID w ∧ rr_account_id r = wt_AccountID w
    ∧ sql_lower (rr_chain r) = sql_lower (wt_Chain w) ∧ sql_lower (rr_network r) = sql_lower (wt_Network w)
    ∧ sql_lower (rr_address r) = sql_lower (wt_Address w) ∧ sql_upper (default "" (rr_status r)) = "ACTIVE") rows.
#[export] Instance registered_dec rows w : Decision (registered rows w).
Proof. unfold registered. apply _. Defined.

(** Without the registry's table the fallback query runs. *)
Definition watch_listed (s : store) (w : WatchAddress) : Prop :=
  match st_registry s with Some rows => wt_Model w ≠ "account" ∨ registered rows w | None => True end.
#[export] Instance watch_listed_dec s w : Decision (watch_listed s w).
Proof. unfold watch_listed. destruct (st_registry s); apply _. Defined.

Definition ListWatchAddresses (model : string) (limit : Z) (allowedChains : list string) (s : store)
    : result (list WatchAddress) :=
  Ok (take (Z.to_nat limit) (wr_watch <$> filter (λ r,
    wr_active r = true ∧ wt_Model (wr_watch r) = ToLower (TrimSpace model)
    ∧ watch_listed s (wr_watch r)
    ∧ chain_allowed allowedChains (wt_Chain (wr_watch r))) (st_watches s))).

Definition ListManagedAddresses (model chain network : string) (s : store) : result (gset string) :=
  let rows := filter (λ r, wr_active r = true ∧ wt_Model (wr_watch r) = ToLower (TrimSpace model)
    ∧ sql_lower (wt_Chain (wr_watch r)) = sql_lower (TrimSpace chain)
    ∧ sql_lower (wt_Network (wr_watch r)) = sql_lower (TrimSpace network)) (st_watches s) in
  Ok (list_to_set (filter (λ addr, addr ≠ "") ((λ r, ToLower (TrimSpace (sql_lower (wt_Address (wr_watch r))))) <$> rows))).

(** ** Checkpoints *)

Definition GetCheckpoint (w : WatchAddress) (s : store) : result string :=
  Ok (match st_checkpoints s !! watchKey w with Some r => cp_cursor r | None => "" end).

(** [cursor ~ '^[0-9]+$'] *)
Definition all_digits (cursor : string) : bool :=
  bool_decide (cursor ≠ "") && forallb (λ a, bool_decide (is_Some (digit_of a))) (to_bytes cursor).

(** The [WHERE] of the two upserts: numeric cursors do not go back. *)
Definition cursor_may_replace (new old : string) : Prop :=
  ¬ (all_digits new = true ∧ all_digits old = true)
  ∨ default 0 (SetString10 old) ≤ default 0 (SetString10 new).
#[export] Instance cursor_may_replace_dec new old : Decision (cursor_may_replace new old).
Proof. unfold cursor_may_replace. apply _. Defined.

Definition upsertCheckpointRow `{Countable K} (now : Z) (k : K) (cursor lastTxHash : string) (m : gmap K checkpoint_row)
    : gmap K checkpoint_row :=
  let row := {| cp_cursor := cursor; cp_last_tx_hash := lastTxHash; cp_updated_at := now |} in
  match m !! k with
  | None => <[k := row]> m
  | Some old => if decide (cursor_may_replace cursor (cp_cursor old)) then <[k := row]> m else m
  end.

Definition UpsertCheckpoint (now : Z) (w : WatchAddress) (cursor lastTxHash : string) (s : store) : result store :=
  Ok (s <| st_checkpoints ::= upsertCheckpointRow now (watchKey w) cursor lastTxHash |>).

Definition UpsertChainCheckpoint (now : Z) (model chain coin network cursor lastTxHash : string) (s : store) : result store :=
  Ok (s <| st_chain_checkpoints ::= upsertCheckpointRow now (model, chain, coin, network) cursor lastTxHash |>).

(** The latest checkpoint of an address of the chain. *)
Definition latestCheckpoint (model chain coin network : string) (s : store) : option checkpoint_row :=
  let rows := filter (λ e : watch_key * checkpoint_row,
    let '(_, _, m, ch, co, n, _) := e.1 in m = model ∧ ch = chain ∧ co = coin ∧ n = network) (map_to_list (st_checkpoints s)) in
  foldr (λ e best, match best with
                   | Some b => if decide (cp_updated_at b < cp_updated_at e.2) then Some e.2 else best
                   | None => Some e.2
                   end) None rows.

Definition GetChainCheckpoint (model chain coin network : string) (s : store) : result (string * string) :=
  Ok (match st_chain_checkpoints s !! (model, chain, coin, network) with
      | Some r => (cp_cursor r, cp_last_tx_hash r)
      | None => match latestCheckpoint model chain coin network s with
                | Some r => (cp_cursor r, cp_last_tx_hash r)
                | None => ("", "")
                end
      end).

Definition RewindChainCheckpoint (now : Z) (model chain coin network newCursor : string) (s : store) : result store :=
  let k := (ToLower (TrimSpace model), ToLower (TrimSpace chain), ToUpper (TrimSpace coin), ToLower (TrimSpace network)) in
  Ok (s <| st_chain_checkpoints ::= alter (λ r,
    {| cp_cursor := newCursor; cp_last_tx_hash := cp_last_tx_hash r; cp_updated_at := now |}) k |>).
End store.
