(* ===== verification/Registry.v ===== *)
(** * wallet-core's address registry

    [wallet-core/internal/adapters/registry/postgres.go]: accounts, addresses,
    watched addresses, chain metadata and chain policies.  The scanner reads
    two of the tables: [scan_watch_addresses], whose rows are the scanner's own
    [watch_row], and [wallet_addresses].  [now] is the database's [NOW()]. *)
From S2P Require Import Prelude GoStrings GoNumbers Ports KeyRef RegistryKeys ScanStore.

(** ** Tables *)

(** A row of [wallet_accounts]; the key is tenant and account. *)
Record account_reg := {
  ac_id : Z;
  ac_hd_account_index : option Z;
  ac_account_tag : string;
  ac_status : string;
  ac_remark : string;
  ac_created_at : Z;
  ac_updated_at : Z;
}.

(** A row of [wallet_addresses]. *)
Record address_row := {
  ad_id : Z;
  ad_tenant_id : string;
  ad_account_id : string;
  ad_model : string;
  ad_chain : string;
  ad_coin : string;
  ad_network : string;
  ad_address : string;
  ad_key_id : string;
  ad_public_key : string;
  ad_sign_type : string;
  ad_address_type : string;
  ad_derivation_path : string;
  ad_change_index : Z;
  ad_address_index : Z;
  ad_status : string;
  ad_created_at : Z;
  ad_updated_at : Z;
}.

(** Rows of [chain_metadata] and [chain_policies]; the key is chain and network. *)
Record metadata_row := { mr_model : string; mr_native_asset : string; mr_min_confirmations : Z; mr_enabled : bool }.
Record policy_row := {
  pr_required_confirmations : Z;
  pr_safe_depth : Z;
  pr_reorg_window : Z;
  pr_fee_policy : string;
  pr_enabled : bool;
}.

(** Addresses and watches are in the order of their ids. *)
Record registry := {
  rg_accounts : gmap (string * string) account_reg;
  rg_next_account_id : Z;
  rg_addresses : list address_row;
  rg_next_address_id : Z;
  rg_watches : list watch_row;
  rg_metadata : gmap (string * string) metadata_row;
  rg_policies : gmap (string * string) policy_row;
}.

Definition empty_registry : registry := {|
  rg_accounts := ∅; rg_next_account_id := 1; rg_addresses := []; rg_next_address_id := 1; rg_watches := [];
  rg_metadata := ∅; rg_policies := ∅ |}.

#[export] Instance account_reg_rebuild : Rebuild account_reg := λ r,
  {| ac_id := ac_id r; ac_hd_account_index := ac_hd_account_index r; ac_account_tag := ac_account_tag r;
     ac_status := ac_status r; ac_remark := ac_remark r; ac_created_at := ac_created_at r; ac_updated_at := ac_updated_at r |}.
#[export] Instance registry_rebuild : Rebuild registry := λ r,
  {| rg_accounts := rg_accounts r; rg_next_account_id := rg_next_account_id r; rg_addresses := rg_addresses r;
     rg_next_address_id := rg_next_address_id r; rg_watches := rg_watches r; rg_metadata := rg_metadata r;
     rg_policies := rg_policies r |}.

(** [UNIQUE (tenant_id, account_id, chain, coin, network, address)] *)
Definition addressKey (r : address_row) : string * string * string * string * string * string :=
  (ad_tenant_id r, ad_account_id r, ad_chain r, ad_coin r, ad_network r, ad_address r).

(** ** Accounts *)

(** [INSERT INTO wallet_accounts ... ON CONFLICT DO UPDATE] or [DO NOTHING]
    ([update] is [None]): the new row has no index yet, and a conflict uses up
    an id of the sequence. *)
Definition insertAccount (now : Z) (k : string * string) (tag status remark : string)
    (update : option (account_reg → account_reg)) (s : registry) : registry :=
  let id := rg_next_account_id s in
  let s := s <| rg_next_account_id ::= Z.succ |> in
  match rg_accounts s !! k with
  | None =>
      s <| rg_accounts := <[k := {| ac_id := id; ac_hd_account_index := None; ac_account_tag := tag; ac_status := status;
                                    ac_remark := remark; ac_created_at := now; ac_updated_at := now |}]> (rg_accounts s) |>
  | Some r => match update with
              | Some f => s <| rg_accounts := <[k := f r]> (rg_accounts s) |>
              | None => s
              end
  end.

(** The columns a conflicting [UpsertAccount] sets. *)
Definition accountUpdate (now : Z) (tag status remark : string) (r : account_reg) : account_reg :=
  r <| ac_account_tag := tag |> <| ac_status := status |> <| ac_remark := remark |> <| ac_updated_at := now |>.

(** [hd_account_index IS NULL OR hd_account_index < 0] *)
Definition index_missing (r : account_reg) : bool :=
  match ac_hd_account_index r with None => true | Some i => bool_decide (i < 0) end.

(** [UPDATE wallet_accounts SET hd_account_index = id WHERE ...] *)
Definition backfillIndex (k : string * string) (s : registry) : registry :=
  s <| rg_accounts ::= alter (λ r, if index_missing r then r <| ac_hd_account_index := Some (ac_id r) |> else r) k |>.

Section registry.
Context `{SqlText} (to_char : Z → string).

Definition walletAccount (k : string * string) (r : account_reg) : WalletAccount := {|
  wa_TenantID := k.1; wa_AccountID := k.2; wa_AccountTag := ac_account_tag r; wa_Status := ac_status r;
  wa_Remark := ac_remark r; wa_CreatedAt := to_char (ac_created_at r); wa_UpdatedAt := to_char (ac_updated_at r) |}.

Definition GetAccount (tenantID accountID : string) (s : registry) : result WalletAccount :=
  from_option_err ErrNoRows (walletAccount (tenantID, accountID) <$> rg_accounts s !! (tenantID, accountID)).

(** Two statements that commit one after the other. *)
Definition UpsertAccount (now : Z) (inp : WalletAccount) (s : registry) : result (WalletAccount * registry) :=
  if decide (TrimSpace (wa_TenantID inp) = "" ∨ TrimSpace (wa_AccountID inp) = "") then
    Err (Errorf "tenant_id/account_id is required")
  else
  let status := ToUpper (TrimSpace (wa_Status inp)) in
  let status := if decide (status = "") then "ACTIVE" else status in
  if decide (status ≠ "ACTIVE" ∧ status ≠ "DISABLED") then Err (Errorf "invalid status") else
  let k := (wa_TenantID inp, wa_AccountID inp) in
  let s := insertAccount now k (wa_AccountTag inp) status (wa_Remark inp)
             (Some (accountUpdate now (wa_AccountTag inp) status (wa_Remark inp))) s in
  let s := backfillIndex k s in
  acc ← GetAccount (wa_TenantID inp) (wa_AccountID inp) s;
  Ok (acc, s).

(** [ORDER BY id DESC LIMIT ... OFFSET ...] *)
Definition newer_account (a b : (string * string) * account_reg) : Prop := ac_id b.2 ≤ ac_id a.2.
#[export] Instance newer_account_dec a b : Decision (newer_account a b).
Proof. unfold newer_account. apply _. Defined.

Definition ListAccounts (tenantID : string) (limit offset : Z) (s : registry) : result (list WalletAccount) :=
  let limit := if decide (limit ≤ 0 ∨ 200 < limit) then 50 else limit in
  let offset := if decide (offset < 0) then 0 else offset in
  let rows := merge_sort newer_account
    (filter (λ e : (string * string) * account_reg, e.1.1 = tenantID) (map_to_list (rg_accounts s))) in
  Ok ((λ e, walletAccount e.1 e.2) <$> take (Z.to_nat limit) (drop (Z.to_nat offset) rows)).

(** ** Addresses *)

Definition walletAddress (r : address_row) : WalletAddress := {|
  wd_TenantID := ad_tenant_id r; wd_AccountID := ad_account_id r; wd_Model := ad_model r; wd_Chain := ad_chain r;
  wd_Coin := ad_coin r; wd_Network := ad_network r; wd_Address := ad_address r; wd_KeyID := ad_key_id r;
  wd_PublicKey := ad_public_key r; wd_SignType := ad_sign_type r; wd_AddressType := ad_address_type r;
  wd_DerivationPath := ad_derivation_path r; wd_ChangeIndex := ad_change_index r; wd_AddressIndex := ad_address_index r;
  wd_Status := ad_status r; wd_CreatedAt := to_char (ad_created_at r); wd_UpdatedAt := to_char (ad_updated_at r) |}.

(** [ORDER BY address_index ASC, id ASC] *)
Definition address_before (a b : address_row) : Prop :=
  ad_address_index a < ad_address_index b ∨ ad_address_index a = ad_address_index b ∧ ad_id a ≤ ad_id b.
#[export] Instance address_before_dec a b : Decision (address_before a b).
Proof. unfold address_before. apply _. Defined.

Definition ListAccountAddresses (tenantID accountID : string) (s : registry) : result (list WalletAddress) :=
  Ok (walletAddress <$> merge_sort address_before
        (filter (λ r, ad_tenant_id r = tenantID ∧ ad_account_id r = accountID) (rg_addresses s))).

(** [ORDER BY id DESC LIMIT 1] *)
Definition GetAccountAddressByKeyID (tenantID accountID keyID : string) (s : registry) : result WalletAddress :=
  from_option_err ErrNoRows (walletAddress <$> last
    (filter (λ r, ad_tenant_id r = tenantID ∧ ad_account_id r = accountID ∧ ad_key_id r = keyID) (rg_addresses s))).

(** The rows of an account's addresses on a chain and network that have a key. *)
Definition keyed_on (tenantID accountID chain network : string) (r : address_row) : Prop :=
  ad_tenant_id r = tenantID ∧ ad_account_id r = accountID ∧ sql_lower (ad_chain r) = sql_lower chain
  ∧ sql_lower (ad_network r) = sql_lower network ∧ ad_key_id r ≠ "".
#[export] Instance keyed_on_dec t a ch n r : Decision (keyed_on t a ch n r).
Proof. unfold keyed_on. apply _. Defined.

(** [COALESCE(MAX(address_index), -1) + 1] *)
Definition nextAddressIndex (rows : list address_row) : Z :=
  default (-1) (foldr (λ r m, Some (from_option (Z.max (ad_address_index r)) (ad_address_index r) m)) None rows) + 1.

Definition PrepareAddress (inp : PrepareAddressInput) (s : registry) : result PreparedAddress :=
  let model := normalizeModel (pi_Model inp) in
  let chain := normalizeChain (pi_Chain inp) in
  let network := normalizeNetwork (pi_Network inp) in
  let signType := normalizeSignType (pi_SignType inp) in
  if decide (model = "" ∨ chain = "" ∨ network = "" ∨ signType = "") then
    Err (Errorf "model/chain/network/sign_type are required")
  else
  let keyed := filter (keyed_on (pi_TenantID inp) (pi_AccountID inp) chain network) (rg_addresses s) in
  match head (merge_sort address_before (filter (λ r, sql_upper (ad_status r) = "ACTIVE") keyed)) with
  | Some existing => Ok {| pa_Address := walletAddress existing; pa_Existing := true |}
  | None =>
      account ← from_option_err ErrNoRows (rg_accounts s !! (pi_TenantID inp, pi_AccountID inp));
      accountIndex ← from_option_err (Errorf "converting NULL to int64 is unsupported") (ac_hd_account_index account);
      if decide (accountIndex < 0) then Err (Errorf "invalid hd account index") else
      let addressIndex := nextAddressIndex keyed in
      derivationPath ← buildHDDerivationPath signType chain accountIndex 0 addressIndex;
      Ok {| pa_Existing := false;
            pa_Address := {|
              wd_TenantID := pi_TenantID inp; wd_AccountID := pi_AccountID inp; wd_Model := model; wd_Chain := chain;
              wd_Coin := ""; wd_Network := network; wd_Address := "";
              wd_KeyID := buildHDKeyID signType chain accountIndex 0 addressIndex;
              wd_PublicKey := ""; wd_SignType := signType; wd_AddressType := pi_AddressType inp;
              wd_DerivationPath := derivationPath; wd_ChangeIndex := 0; wd_AddressIndex := addressIndex;
              wd_Status := "ACTIVE"; wd_CreatedAt := ""; wd_UpdatedAt := "" |} |}
  end.

(** ** Chains *)

(** The row of the network itself, or of [*]. *)
Definition for_network {A} (m : gmap (string * string) A) (chain network : string) : option (string * A) :=
  match m !! (chain, network) with
  | Some r => Some (network, r)
  | None => (λ r, ("*", r)) <$> m !! (chain, "*")
  end.

Definition GetChainMetadata (chain network : string) (s : registry) : result ChainMetadata :=
  let chain := normalizeChain chain in
  let network := normalizeNetwork network in
  if decide (chain = "" ∨ network = "") then Err (Errorf "chain and network are required") else
  match for_network (rg_metadata s) chain network with
  | None => Err (Errorf ("unsupported chain/network chain=" +:+ chain +:+ " network=" +:+ network))
  | Some (n, r) => Ok {| cm_Chain := chain; cm_Network := n; cm_Model := mr_model r; cm_NativeAsset := mr_native_asset r;
                         cm_MinConfirmations := mr_min_confirmations r; cm_Enabled := mr_enabled r |}
  end.

Definition GetChainPolicy (chain network : string) (s : registry) : result ChainPolicy :=
  let chain := normalizeChain chain in
  let network := normalizeNetwork network in
  if decide (chain = "" ∨ network = "") then Err (Errorf "chain and network are required") else
  match for_network (rg_policies s) chain network with
  | None =>
      meta ← GetChainMetadata chain network s;
      let least := Z.max (cm_MinConfirmations meta) 1 in
      Ok {| cp_Chain := cm_Chain meta; cp_Network := cm_Network meta; cp_RequiredConfirmations := least;
            cp_UnlockConfirmations := least; cp_SafeDepth := least;
            cp_ReorgWindow := Z.max (wrap64 (cm_MinConfirmations meta * 3)) 6; cp_FeePolicy := "{}";
            cp_Enabled := cm_Enabled meta |}
  | Some (n, r) =>
      let required := if decide (pr_required_confirmations r ≤ 0) then 1 else pr_required_confirmations r in
      let safeDepth := if decide (pr_safe_depth r ≤ 0) then required else pr_safe_depth r in
      Ok {| cp_Chain := chain; cp_Network := n; cp_RequiredConfirmations := required;
            cp_UnlockConfirmations := Z.max safeDepth required; cp_SafeDepth := safeDepth;
            cp_ReorgWindow := if decide (pr_reorg_window r ≤ 0) then Z.max (wrap64 (required * 3)) 6 else pr_reorg_window r;
            cp_FeePolicy := pr_fee_policy r; cp_Enabled := pr_enabled r |}
  end.

(** ** Watched addresses *)

(** [rows, err = UPDATE wallet_addresses SET ... WHERE sel]: the rows afterwards
    and how many were updated.  Two rows with one key are an error. *)
Definition updateAddresses (sel : address_row → Prop) `{∀ r, Decision (sel r)} (f : address_row → address_row)
    (rows : list address_row) : result (nat * list address_row) :=
  let rows' := (λ r, if decide (sel r) then f r else r) <$> rows in
  if decide (NoDup (addressKey <$> rows')) then Ok (List.length (filter sel rows), rows')
  else Err (Errorf "pq: duplicate key value violates unique constraint").

(** The columns both updates and the insert take from the input. *)
Definition addressOf (now : Z) (inp : WatchAddressInput) (id : Z) (account coin keyID : string) (created : Z) : address_row := {|
  ad_id := id; ad_tenant_id := wi_TenantID inp; ad_account_id := account; ad_model := wi_Model inp;
  ad_chain := wi_Chain inp; ad_coin := coin; ad_network := wi_Network inp; ad_address := wi_Address inp; ad_key_id := keyID;
  ad_public_key := wi_PublicKey inp; ad_sign_type := wi_SignType inp; ad_address_type := wi_AddressType inp;
  ad_derivation_path := wi_DerivationPath inp; ad_change_index := wi_ChangeIndex inp;
  ad_address_index := wi_AddressIndex inp; ad_status := "ACTIVE"; ad_created_at := created; ad_updated_at := now |}.

Definition upsertWalletAddressTx (now : Z) (inp : WatchAddressInput) (s : registry) : result registry :=
  byKeyID ← updateAddresses (λ r, ad_tenant_id r = wi_TenantID inp ∧ ad_key_id r = wi_KeyID inp)
    (λ r, addressOf now inp (ad_id r) (wi_AccountID inp) (ad_coin r) (ad_key_id r) (ad_created_at r)) (rg_addresses s);
  if decide (0 < fst byKeyID)%nat then Ok (s <| rg_addresses := snd byKeyID |>) else
  byAddress ← updateAddresses
    (λ r, ad_tenant_id r = wi_TenantID inp ∧ ad_account_id r = wi_AccountID inp
          ∧ sql_lower (ad_chain r) = sql_lower (wi_Chain inp) ∧ sql_lower (ad_network r) = sql_lower (wi_Network inp)
          ∧ sql_lower (ad_address r) = sql_lower (wi_Address inp))
    (λ r, addressOf now inp (ad_id r) (ad_account_id r) (ad_coin r)
            (if decide (ad_key_id r = "") then wi_KeyID inp else ad_key_id r) (ad_created_at r)) (rg_addresses s);
  if decide (0 < fst byAddress)%nat then Ok (s <| rg_addresses := snd byAddress |>) else
  let row := addressOf now inp (rg_next_address_id s) (wi_AccountID inp) (wi_Coin inp) (wi_KeyID inp) now in
  if decide (addressKey row ∈ (addressKey <$> rg_addresses s)) then
    Err (Errorf "pq: duplicate key value violates unique constraint")
  else Ok (s <| rg_addresses := rg_addresses s ++ [row] |> <| rg_next_address_id ::= Z.succ |>).

Definition upsertAccountTx (now : Z) (tenantID accountID status remark : string) (s : registry) : registry :=
  backfillIndex (tenantID, accountID) (insertAccount now (tenantID, accountID) "" status remark None s).

(** The watch of the input; the column [contract_address] has its default. *)
Definition watchOfInput (inp : WatchAddressInput) : WatchAddress := {|
  wt_TenantID := wi_TenantID inp; wt_AccountID := wi_AccountID inp; wt_Model := wi_Model inp; wt_Chain := wi_Chain inp;
  wt_Coin := wi_Coin inp; wt_Network := wi_Network inp; wt_Address := wi_Address inp; wt_ContractAddress := "";
  wt_MinConfirmations := wi_MinConfirmations inp; wt_UnlockConfirmations := wi_UnlockConfirmations inp;
  wt_TreasuryAccountID := wi_TreasuryAccountID inp; wt_ColdAccountID := wi_ColdAccountID inp;
  wt_AutoSweep := wi_AutoSweep inp; wt_SweepThreshold := wi_SweepThreshold inp; wt_HotBalanceCap := wi_HotBalanceCap inp |}.

(** A conflict leaves the contract address of the row. *)
Definition upsertWatch (w : WatchAddress) (rows : list watch_row) : list watch_row :=
  if decide (watchKey w ∈ (watchKey ∘ wr_watch <$> rows)) then
    (λ r, if decide (watchKey (wr_watch r) = watchKey w) then
            {| wr_watch := {|
                 wt_TenantID := wt_TenantID w; wt_AccountID := wt_AccountID w; wt_Model := wt_Model w;
                 wt_Chain := wt_Chain w; wt_Coin := wt_Coin w; wt_Network := wt_Network w; wt_Address := wt_Address w;
                 wt_ContractAddress := wt_ContractAddress (wr_watch r); wt_MinConfirmations := wt_MinConfirmations w;
                 wt_UnlockConfirmations := wt_UnlockConfirmations w; wt_TreasuryAccountID := wt_TreasuryAccountID w;
                 wt_ColdAccountID := wt_ColdAccountID w; wt_AutoSweep := wt_AutoSweep w;
                 wt_SweepThreshold := wt_SweepThreshold w; wt_HotBalanceCap := wt_HotBalanceCap w |};
               wr_active := true |}
          else r) <$> rows
  else rows ++ [{| wr_watch := w; wr_active := true |}].

(** The input as [UpsertWatchAddress] normalises it, before the chain's policy. *)
Definition normalizedInput (inp : WatchAddressInput) (minConf unlockConf : Z) : WatchAddressInput :=
  let signType := normalizeSignType (wi_SignType inp) in {|
  wi_TenantID := wi_TenantID inp; wi_AccountID := wi_AccountID inp; wi_Model := normalizeModel (wi_Model inp);
  wi_Chain := normalizeChain (wi_Chain inp); wi_Coin := normalizeCoin (wi_Coin inp);
  wi_Network := normalizeNetwork (wi_Network inp); wi_Address := wi_Address inp; wi_KeyID := wi_KeyID inp;
  wi_PublicKey := wi_PublicKey inp; wi_SignType := if decide (signType = "") then "ecdsa" else signType;
  wi_AddressType := wi_AddressType inp; wi_DerivationPath := wi_DerivationPath inp; wi_ChangeIndex := wi_ChangeIndex inp;
  wi_AddressIndex := wi_AddressIndex inp; wi_MinConfirmations := minConf; wi_UnlockConfirmations := unlockConf;
  wi_TreasuryAccountID := if decide (TrimSpace (wi_TreasuryAccountID inp) = "") then "treasury-main" else wi_TreasuryAccountID inp;
  wi_ColdAccountID := wi_ColdAccountID inp; wi_AutoSweep := wi_AutoSweep inp; wi_SweepThreshold := wi_SweepThreshold inp;
  wi_HotBalanceCap := wi_HotBalanceCap inp |}.

(** The reads come before the transaction; both see [s]. *)
Definition UpsertWatchAddress (now : Z) (inp : WatchAddressInput) (s : registry) : result registry :=
  let n := normalizedInput inp 0 0 in
  if decide (wi_Model n = "" ∨ wi_Chain n = "" ∨ wi_Network n = "" ∨ wi_Coin n = "" ∨ TrimSpace (wi_KeyID n) = "") then
    Err (Errorf "model/chain/network/coin/key_id are required")
  else if decide (TrimSpace (wi_Address n) = "" ∨ TrimSpace (wi_PublicKey n) = "") then
    Err (Errorf "address/public_key are required")
  else
  meta ← GetChainMetadata (wi_Chain n) (wi_Network n) s;
  if decide (normalizeModel (cm_Model meta) ≠ wi_Model n) then
    Err (Errorf ("chain model mismatch chain=" +:+ wi_Chain n +:+ " network=" +:+ wi_Network n +:+ " require=" +:+ wi_Model n
                 +:+ " actual=" +:+ cm_Model meta))
  else if negb (cm_Enabled meta) then
    Err (Errorf ("chain disabled chain=" +:+ wi_Chain n +:+ " network=" +:+ wi_Network n))
  else
  policy ← GetChainPolicy (wi_Chain n) (wi_Network n) s;
  if negb (cp_Enabled policy) then
    Err (Errorf ("chain policy disabled chain=" +:+ wi_Chain n +:+ " network=" +:+ wi_Network n))
  else
  let minConf := if decide (cp_RequiredConfirmations policy ≤ 0) then 1 else cp_RequiredConfirmations policy in
  let inp := normalizedInput inp minConf (Z.max (cp_UnlockConfirmations policy) minConf) in
  let s := upsertAccountTx now (wi_TenantID inp) (wi_AccountID inp) "ACTIVE" "" s in
  s ← upsertWalletAddressTx now inp s;
  Ok (s <| rg_watches ::= upsertWatch (watchOfInput inp) |>).
End registry.
