(* ===== verification/RegistrySystem.v ===== *)
(** * The registry as a transition system

    Every operation that writes the registry's tables is a step; the account
    rows keep their ids, every account has its own index, and so the key ids
    of two accounts differ. *)
From S2P Require Import Prelude GoStrings GoNumbers Ports KeyRef RegistryKeys KeyPaths ScanStore.
From S2P Require Import Registry.

(** ** Key ids *)

(** The account's part of a key id. *)
Lemma key_id_account st ch a c i st' ch' a' c' i' path path' :
  0 ≤ a → 0 ≤ a' →
  buildHDDerivationPath st ch a c i = Ok path → buildHDDerivationPath st' ch' a' c' i' = Ok path' →
  buildHDKeyID st ch a c i = buildHDKeyID st' ch' a' c' i' → a = a'.
Proof.
  assert (Hparts : ∀ st ch a c i path, buildHDDerivationPath st ch a c i = Ok path →
    split_bytes ":" (to_bytes (buildHDKeyID st ch a c i))
    = to_bytes <$> ["hd"; RegistryKeys.normalizeSignType st; RegistryKeys.normalizeChain ch;
                    BigString a; BigString c; BigString i]).
  { clear. intros st ch a c i path Hp. unfold buildHDDerivationPath, hdCoinTypeForChain in Hp.
    destruct (assoc (RegistryKeys.normalizeChain ch) hdCoinTypes) as [coin|] eqn:Hcoin; [|done].
    cbn [from_option_err] in Hp. rewrite bind_ok in Hp. apply registry_chain in Hcoin as (_ & _ & Hch).
    assert (Hst : RegistryKeys.normalizeSignType st ∈ ["ecdsa"; "eddsa"]).
    { rewrite !elem_of_cons. do 2 (case_decide; [tauto|]). done. }
    destruct (normal_sign_type _ Hst) as (_ & _ & Hst').
    unfold buildHDKeyID. rewrite to_of_bytes. apply split_bytes_join; [done|].
    repeat (constructor; [try done; try apply BigString_no_colon|]); [|done].
    cbn. rewrite !not_elem_of_cons. split_and!; try done. apply not_elem_of_nil. }
  intros Ha Ha' Hp Hp' Heq. apply Hparts in Hp. apply Hparts in Hp'. rewrite Heq, Hp' in Hp.
  cbn in Hp. injection Hp as _ _ H _ _. apply (f_equal of_bytes) in H. rewrite !of_to_bytes in H.
  by apply BigString_inj in H.
Qed.

(** ** Steps *)

Section system.
Context `{SqlText} (to_char : Z → string).

(** [UpsertAccount] commits its first statement before the second runs, which
    may fail.  Metadata and policies are edited by operators. *)
Inductive registry_step (s s' : registry) : Prop :=
  | step_UpsertAccount now inp acc : UpsertAccount to_char now inp s = Ok (acc, s') → registry_step s s'
  | step_account_inserted now k tag status remark :
      s' = insertAccount now k tag status remark (Some (accountUpdate now tag status remark)) s → registry_step s s'
  | step_UpsertWatchAddress now inp : UpsertWatchAddress now inp s = Ok s' → registry_step s s'
  | step_chains metadata policies : s' = s <| rg_metadata := metadata |> <| rg_policies := policies |> → registry_step s s'.

Definition registry_reachable : registry → Prop := rtc registry_step empty_registry.

(** ** Accounts keep their ids *)

(** Ids are below the sequence and belong to one account each; an index is the
    account's id. *)
Definition accounts_ok (s : registry) : Prop :=
  1 ≤ rg_next_account_id s
  ∧ (∀ k r, rg_accounts s !! k = Some r →
       1 ≤ ac_id r < rg_next_account_id s ∧ (ac_hd_account_index r = None ∨ ac_hd_account_index r = Some (ac_id r)))
  ∧ (∀ k k' r r', rg_accounts s !! k = Some r → rg_accounts s !! k' = Some r' → ac_id r = ac_id r' → k = k').

Definition accounts_stay (s s' : registry) : Prop :=
  ∀ k r, rg_accounts s !! k = Some r → ∃ r', rg_accounts s' !! k = Some r' ∧ ac_id r' = ac_id r.

#[export] Instance accounts_stay_preorder : PreOrder accounts_stay.
Proof.
  split; [by intros s k r Hr; exists r|].
  intros s1 s2 s3 H1 H2 k r Hr. destruct (H1 k r Hr) as (r2 & Hr2 & <-). by apply H2.
Qed.

(** An update of rows that keeps ids and may set an index to the id. *)
Definition row_update (f : account_reg → account_reg) : Prop :=
  ∀ r, ac_id (f r) = ac_id r
       ∧ (ac_hd_account_index (f r) = ac_hd_account_index r ∨ ac_hd_account_index (f r) = Some (ac_id r)).

Lemma accountUpdate_row now tag status remark : row_update (accountUpdate now tag status remark).
Proof. intros r. split; [done|by left]. Qed.

Lemma backfill_row : row_update (λ r, if index_missing r then r <| ac_hd_account_index := Some (ac_id r) |> else r).
Proof. intros r. destruct (index_missing r); (split; [done|]); [by right|by left]. Qed.

Lemma accounts_same s s' :
  rg_accounts s' = rg_accounts s → rg_next_account_id s' = rg_next_account_id s →
  accounts_ok s → accounts_ok s' ∧ accounts_stay s s'.
Proof. intros Ha Hn Hok. unfold accounts_ok, accounts_stay. rewrite Ha, Hn. split; [exact Hok|eauto]. Qed.

Lemma accounts_altered s s' k f next :
  row_update f → rg_accounts s' = alter f k (rg_accounts s) → rg_next_account_id s' = next →
  rg_next_account_id s ≤ next → accounts_ok s → accounts_ok s' ∧ accounts_stay s s'.
Proof.
  intros Hf Ha Hn Hle (Hpos & Hrow & Hinj).
  assert (Hback : ∀ k' r', rg_accounts s' !! k' = Some r' → ∃ r, rg_accounts s !! k' = Some r ∧ ac_id r' = ac_id r
    ∧ (ac_hd_account_index r' = ac_hd_account_index r ∨ ac_hd_account_index r' = Some (ac_id r))).
  { intros k' r'. rewrite Ha, lookup_alter. case_decide as Hk; [subst k'|by eauto].
    destruct (rg_accounts s !! k) as [r|]; [|done]. intros [= <-]. destruct (Hf r) as [? ?]. eauto. }
  split.
  - unfold accounts_ok. rewrite Hn. split_and!; [lia| |].
    + intros k' r' Hr'. destruct (Hback k' r' Hr') as (r & Hr & Hid & Hix). destruct (Hrow k' r Hr) as [Hb Hi].
      rewrite Hid. split; [lia|]. destruct Hix as [->| ->]; [tauto|by right].
    + intros k1 k2 r1 r2 Hr1 Hr2. destruct (Hback _ _ Hr1) as (q1 & Hq1 & -> & _).
      destruct (Hback _ _ Hr2) as (q2 & Hq2 & -> & _). by apply Hinj.
  - intros k' r Hr. rewrite Ha, lookup_alter. case_decide as Hk; [subst k'|by exists r].
    rewrite Hr. exists (f r). split; [done|]. apply Hf.
Qed.

Lemma insertAccount_accounts now k tag status remark update s :
  match update with Some f => row_update f | None => True end →
  accounts_ok s →
  accounts_ok (insertAccount now k tag status remark update s)
  ∧ accounts_stay s (insertAccount now k tag status remark update s).
Proof.
  intros Hup Hok. unfold insertAccount. cbn. destruct (rg_accounts s !! k) as [r0|] eqn:Hk.
  - destruct update as [f|].
    + eapply (accounts_altered s _ k f); [done| |done|cbn; lia|done].
      cbn. apply map_eq. intros k'. rewrite lookup_alter. case_decide as He.
      * subst k'. by rewrite lookup_insert_eq, Hk.
      * by rewrite lookup_insert_ne.
    + eapply (accounts_altered s _ k id); [by intros r; split; [|left]| |done|cbn; lia|done].
      cbn. symmetry. apply alter_id. intros r. done.
  - destruct Hok as (Hpos & Hrow & Hinj). split.
    + unfold accounts_ok. cbn. split_and!; [lia| |].
      * intros k' r'. rewrite lookup_insert_Some. intros [[<- <-]|[_ Hr]]; cbn; [split; [lia|by left]|].
        destruct (Hrow _ _ Hr). split; [lia|done].
      * intros k1 k2 r1 r2 H1 H2 Hid. rewrite lookup_insert_Some in H1, H2.
        destruct H1 as [[<- <-]|[? H1]], H2 as [[<- <-]|[? H2]]; cbn in Hid; [done| | |by eapply Hinj].
        -- destruct (Hrow _ _ H2). lia.
        -- destruct (Hrow _ _ H1). lia.
    + intros k' r Hr. exists r. split; [|done]. cbn. rewrite lookup_insert_ne; [done|]. by intros ->; congruence.
Qed.

Lemma backfillIndex_accounts k s :
  accounts_ok s → accounts_ok (backfillIndex k s) ∧ accounts_stay s (backfillIndex k s).
Proof.
  intros Hok. eapply (accounts_altered s _ k _); [apply backfill_row|done|done|done|done].
Qed.

(** Two moves, one after the other. *)
Lemma accounts_then s1 s2 s3 :
  accounts_ok s1 → (accounts_ok s1 → accounts_ok s2 ∧ accounts_stay s1 s2) →
  (accounts_ok s2 → accounts_ok s3 ∧ accounts_stay s2 s3) → accounts_ok s3 ∧ accounts_stay s1 s3.
Proof.
  intros Hok H1 H2. destruct (H1 Hok) as [Hok2 Hs]. destruct (H2 Hok2) as [Hok3 Hs']. split; [done|by etrans].
Qed.

Lemma upsertAccountTx_accounts now t a status remark s :
  accounts_ok s → accounts_ok (upsertAccountTx now t a status remark s) ∧ accounts_stay s (upsertAccountTx now t a status remark s).
Proof.
  intros Hok. eapply accounts_then; [done| |apply backfillIndex_accounts]. by apply insertAccount_accounts.
Qed.

Lemma upsertWalletAddressTx_accounts now inp s s' :
  upsertWalletAddressTx now inp s = Ok s' →
  rg_accounts s' = rg_accounts s ∧ rg_next_account_id s' = rg_next_account_id s ∧ rg_watches s' = rg_watches s.
Proof.
  unfold upsertWalletAddressTx. intros H1. mbind_inv H1. case_decide; [by injection H1 as <-|].
  mbind_inv H1. case_decide; [by injection H1 as <-|]. case_decide; [done|by injection H1 as <-].
Qed.

Lemma UpsertWatchAddress_inv now inp s s' :
  UpsertWatchAddress now inp s = Ok s' →
  ∃ minConf unlockConf s2,
    let n := normalizedInput inp minConf unlockConf in
    upsertWalletAddressTx now n (upsertAccountTx now (wi_TenantID inp) (wi_AccountID inp) "ACTIVE" "" s) = Ok s2
    ∧ s' = s2 <| rg_watches ::= upsertWatch (watchOfInput n) |> ∧ wi_Chain n ≠ "" ∧ wi_Network n ≠ "" ∧ wi_KeyID n ≠ "".
Proof.
  clear to_char.
  unfold UpsertWatchAddress. case_decide as Hn; [done|]. case_decide; [done|]. intros Hu.
  mbind_inv Hu. case_decide; [done|]. case_match; [done|]. mbind_inv Hu. case_match; [done|]. mbind_inv Hu.
  injection Hu as <-. eexists _, _, _. split; [exact Ha1|]. split; [done|].
  cbn in Hn. cbn. split_and!; [tauto|tauto|]. intros Hk. apply Hn. rewrite Hk. tauto.
Qed.

Lemma registry_step_accounts s s' :
  registry_step s s' → accounts_ok s → accounts_ok s' ∧ accounts_stay s s'.
Proof.
  intros Hs Hok. destruct Hs as [now inp acc Hu|now k tag status remark ->|now inp Hu|md ps ->].
  - unfold UpsertAccount in Hu. case_decide; [done|].
    match type of Hu with (if decide ?P then _ else _) = _ => destruct (decide P); [done|] end.
    mbind_inv Hu. injection Hu as _ <-. eapply accounts_then; [done| |apply backfillIndex_accounts].
    apply insertAccount_accounts, accountUpdate_row.
  - apply insertAccount_accounts; [apply accountUpdate_row|done].
  - apply UpsertWatchAddress_inv in Hu as (minConf & unlockConf & s2 & Hw & -> & _).
    apply upsertWalletAddressTx_accounts in Hw as (Ha & Hn & _).
    eapply accounts_then; [done|apply (upsertAccountTx_accounts now (wi_TenantID inp) (wi_AccountID inp) "ACTIVE" "")|].
    intros Hok'. by eapply accounts_same.
  - by eapply accounts_same.
Qed.

Lemma registry_steps_accounts s s' :
  rtc registry_step s s' → accounts_ok s → accounts_ok s' ∧ accounts_stay s s'.
Proof.
  induction 1 as [s|s1 s2 s3 Hs _ IH]; [by split|]. intros Hok.
  eapply accounts_then; [done|by apply registry_step_accounts|exact IH].
Qed.

Lemma empty_accounts_ok : accounts_ok empty_registry.
Proof. split_and!; [done|by intros k r|by intros k k' r r']. Qed.

Lemma registry_reachable_ok s : registry_reachable s → accounts_ok s.
Proof. intros Hs. by apply (registry_steps_accounts _ _ Hs empty_accounts_ok). Qed.

(** ** New key ids *)

Lemma PrepareAddress_new inp s p :
  PrepareAddress to_char inp s = Ok p → pa_Existing p = false →
  ∃ r i idx path, let st := RegistryKeys.normalizeSignType (pi_SignType inp) in
    let ch := RegistryKeys.normalizeChain (pi_Chain inp) in
    rg_accounts s !! (pi_TenantID inp, pi_AccountID inp) = Some r ∧ ac_hd_account_index r = Some i ∧ 0 ≤ i
    ∧ buildHDDerivationPath st ch i 0 idx = Ok path
    ∧ idx = nextAddressIndex (filter (keyed_on (pi_TenantID inp) (pi_AccountID inp) ch (normalizeNetwork (pi_Network inp)))
                                (rg_addresses s))
    ∧ wd_KeyID (pa_Address p) = buildHDKeyID st ch i 0 idx ∧ wd_DerivationPath (pa_Address p) = path
    ∧ wd_ChangeIndex (pa_Address p) = 0 ∧ wd_AddressIndex (pa_Address p) = idx ∧ wd_SignType (pa_Address p) = st.
Proof.
  unfold PrepareAddress. case_decide; [done|]. case_match; [by intros [= <-]|]. intros Hp Hex.
  mbind_inv Hp. apply from_option_err_ok in Ha. mbind_inv Hp. apply from_option_err_ok in Ha0.
  case_decide; [done|]. mbind_inv Hp. injection Hp as <-. eexists a, a0, _, a1. cbn.
  split_and!; try done; try lia.
Qed.

Lemma new_keys_differ inp1 inp2 s1 s2 p1 p2 :
  registry_reachable s1 → rtc registry_step s1 s2 →
  (pi_TenantID inp1, pi_AccountID inp1) ≠ (pi_TenantID inp2, pi_AccountID inp2) →
  PrepareAddress to_char inp1 s1 = Ok p1 → PrepareAddress to_char inp2 s2 = Ok p2 →
  pa_Existing p1 = false → pa_Existing p2 = false → wd_KeyID (pa_Address p1) ≠ wd_KeyID (pa_Address p2).
Proof.
  intros Hr Hs Hne Hp1 Hp2 He1 He2 Heq. pose proof (registry_reachable_ok _ Hr) as Hok1.
  destruct (registry_steps_accounts _ _ Hs Hok1) as [(_ & Hrow2 & Hinj2) Hstay].
  destruct Hok1 as (_ & Hrow1 & _).
  destruct (PrepareAddress_new _ _ _ Hp1 He1) as (r1 & i1 & idx1 & path1 & Hr1 & Hi1 & Hpos1 & Hpath1 & _ & Hk1 & _).
  destruct (PrepareAddress_new _ _ _ Hp2 He2) as (r2 & i2 & idx2 & path2 & Hr2 & Hi2 & Hpos2 & Hpath2 & _ & Hk2 & _).
  rewrite Hk1, Hk2 in Heq. apply (key_id_account _ _ _ _ _ _ _ _ _ _ _ _ Hpos1 Hpos2 Hpath1 Hpath2) in Heq as ->.
  destruct (Hstay _ _ Hr1) as (r1' & Hr1' & Hid).
  destruct (Hrow1 _ _ Hr1) as [_ [Hx|Hx]]; [congruence|]. destruct (Hrow2 _ _ Hr2) as [_ [Hy|Hy]]; [congruence|].
  apply Hne. apply (Hinj2 _ _ _ _ Hr1' Hr2). congruence.
Qed.
End system.

(** * The chains the registry starts with

    [ensureSchema] of [wallet-core/internal/adapters/registry/postgres.go] ends
    with these rows, inserted [ON CONFLICT DO NOTHING] at every start. *)

(** chain, network, model, native asset, confirmations, enabled *)
Definition chainMetadataSeeds : list (string * string * string * string * Z * bool) := [
  ("ethereum", "mainnet", "account", "ETH", 12, true); ("ethereum", "sepolia", "account", "ETH", 1, true);
   ("binance", "mainnet", "account", "BNB", 12, true); ("binance", "testnet", "account", "BNB", 1, true);
   ("polygon", "mainnet", "account", "MATIC", 64, true); ("polygon", "amoy", "account", "MATIC", 1, true);
   ("arbitrum", "mainnet", "account", "ETH", 12, true); ("arbitrum", "sepolia", "account", "ETH", 1, true);
   ("optimism", "mainnet", "account", "ETH", 12, true); ("linea", "mainnet", "account", "ETH", 12, true);
   ("scroll", "mainnet", "account", "ETH", 12, true); ("mantle", "mainnet", "account", "MNT", 12, true);
   ("zksync", "mainnet", "account", "ETH", 12, true); ("tron", "mainnet", "account", "TRX", 20, true);
   ("tron", "nile", "account", "TRX", 1, true); ("solana", "mainnet", "account", "SOL", 32, true);
   ("solana", "devnet", "account", "SOL", 1, true); ("bitcoin", "mainnet", "utxo", "BTC", 1, true);
   ("bitcoin", "testnet", "utxo", "BTC", 1, true); ("bitcoincash", "mainnet", "utxo", "BCH", 1, true);
   ("dash", "mainnet", "utxo", "DASH", 1, true); ("dogecoin", "mainnet", "utxo", "DOGE", 6, true);
   ("litecoin", "mainnet", "utxo", "LTC", 6, true); ("zen", "mainnet", "utxo", "ZEN", 6, true);
   ("ethereum", "*", "account", "ETH", 12, true); ("binance", "*", "account", "BNB", 12, true);
   ("polygon", "*", "account", "MATIC", 64, true); ("arbitrum", "*", "account", "ETH", 12, true);
   ("optimism", "*", "account", "ETH", 12, true); ("linea", "*", "account", "ETH", 12, true);
   ("scroll", "*", "account", "ETH", 12, true); ("mantle", "*", "account", "MNT", 12, true);
   ("zksync", "*", "account", "ETH", 12, true); ("tron", "*", "account", "TRX", 20, true);
   ("solana", "*", "account", "SOL", 32, true); ("bitcoin", "*", "utxo", "BTC", 1, true);
   ("bitcoincash", "*", "utxo", "BCH", 1, true); ("dash", "*", "utxo", "DASH", 1, true);
   ("dogecoin", "*", "utxo", "DOGE", 6, true); ("litecoin", "*", "utxo", "LTC", 6, true);
   ("zen", "*", "utxo", "ZEN", 6, true)].

(** chain, network, confirmations, safe depth, reorg window, fee policy, enabled *)
Definition chainPolicySeeds : list (string * string * Z * Z * Z * string * bool) := [
  ("ethereum", "mainnet", 12, 12, 64, "{}", true); ("ethereum", "sepolia", 1, 1, 12, "{}", true);
   ("binance", "mainnet", 12, 12, 64, "{}", true); ("binance", "testnet", 1, 1, 12, "{}", true);
   ("polygon", "mainnet", 64, 64, 256, "{}", true); ("polygon", "amoy", 1, 1, 12, "{}", true);
   ("arbitrum", "mainnet", 12, 12, 64, "{}", true); ("arbitrum", "sepolia", 1, 1, 12, "{}", true);
   ("optimism", "mainnet", 12, 12, 64, "{}", true); ("linea", "mainnet", 12, 12, 64, "{}", true);
   ("scroll", "mainnet", 12, 12, 64, "{}", true); ("mantle", "mainnet", 12, 12, 64, "{}", true);
   ("zksync", "mainnet", 12, 12, 64, "{}", true); ("tron", "mainnet", 20, 20, 120, "{}", true);
   ("tron", "nile", 1, 1, 12, "{}", true); ("solana", "mainnet", 32, 32, 160, "{}", true);
   ("solana", "devnet", 1, 1, 12, "{}", true); ("bitcoin", "mainnet", 1, 1, 12, "{}", true);
   ("bitcoin", "testnet", 1, 1, 12, "{}", true); ("bitcoincash", "mainnet", 1, 1, 12, "{}", true);
   ("dash", "mainnet", 1, 1, 12, "{}", true); ("dogecoin", "mainnet", 6, 6, 24, "{}", true);
   ("litecoin", "mainnet", 6, 6, 24, "{}", true); ("zen", "mainnet", 6, 6, 24, "{}", true);
   ("ethereum", "*", 12, 12, 64, "{}", true); ("binance", "*", 12, 12, 64, "{}", true);
   ("polygon", "*", 64, 64, 256, "{}", true); ("arbitrum", "*", 12, 12, 64, "{}", true);
   ("optimism", "*", 12, 12, 64, "{}", true); ("linea", "*", 12, 12, 64, "{}", true);
   ("scroll", "*", 12, 12, 64, "{}", true); ("mantle", "*", 12, 12, 64, "{}", true);
   ("zksync", "*", 12, 12, 64, "{}", true); ("tron", "*", 20, 20, 120, "{}", true);
   ("solana", "*", 32, 32, 160, "{}", true); ("bitcoin", "*", 1, 1, 12, "{}", true);
   ("bitcoincash", "*", 1, 1, 12, "{}", true); ("dash", "*", 1, 1, 12, "{}", true);
   ("dogecoin", "*", 6, 6, 24, "{}", true); ("litecoin", "*", 6, 6, 24, "{}", true);
   ("zen", "*", 6, 6, 24, "{}", true)].

Definition seedChainMetadata (s : registry) : registry :=
  s <| rg_metadata ::= λ m, foldl (λ m row, let '(chain, network, model, asset, confs, enabled) := row in
    sql_insert_nothing (chain, network)
      {| mr_model := model; mr_native_asset := asset; mr_min_confirmations := confs; mr_enabled := enabled |} m)
    m chainMetadataSeeds |>.

Definition seedChainPolicies (s : registry) : registry :=
  s <| rg_policies ::= λ m, foldl (λ m row, let '(chain, network, confs, depth, window, fee, enabled) := row in
    sql_insert_nothing (chain, network)
      {| pr_required_confirmations := confs; pr_safe_depth := depth; pr_reorg_window := window; pr_fee_policy := fee;
         pr_enabled := enabled |} m)
    m chainPolicySeeds |>.

(** The rows [ensureSchema] leaves. *)
Definition ensureSeeds (s : registry) : registry := seedChainPolicies (seedChainMetadata s).
