(* ===== verification/RegistryProperties.v ===== *)
(** * Properties of the address registry

    Key ids of accounts, and what a registered address means to the scanner,
    which reads the registry's tables. *)
From S2P Require Import Prelude GoStrings GoNumbers Ports KeyRef RegistryKeys KeyPaths ScanStore.
From S2P Require Import Registry RegistrySystem.

(** ** What the scanner sees *)

(** The columns of [wallet_addresses] the scanner's query reads. *)
Definition registryRow (r : address_row) : registry_row := {|
  rr_tenant_id := ad_tenant_id r; rr_account_id := ad_account_id r; rr_chain := ad_chain r; rr_network := ad_network r;
  rr_address := ad_address r; rr_status := Some (ad_status r) |}.

(** The scanner and the registry share the database. *)
Definition sees (st : store) (s : registry) : Prop :=
  st_watches st = rg_watches s ∧ st_registry st = Some (registryRow <$> rg_addresses s).

Section view.
Context `{SqlText}.

(** The row of an address, as the scanner looks it up. *)
Definition address_of (w : WatchAddress) (r : address_row) : Prop :=
  ad_tenant_id r = wt_TenantID w ∧ ad_account_id r = wt_AccountID w ∧ sql_lower (ad_chain r) = sql_lower (wt_Chain w)
  ∧ sql_lower (ad_network r) = sql_lower (wt_Network w) ∧ sql_lower (ad_address r) = sql_lower (wt_Address w).

Lemma registered_address st s w :
  sees st s → wt_Model w = "account" → watch_listed st w →
  ∃ r, r ∈ rg_addresses s ∧ address_of w r ∧ sql_upper (ad_status r) = "ACTIVE".
Proof.
  intros [_ Hr] Hm. unfold watch_listed. rewrite Hr. intros [?|Hreg]; [done|].
  unfold registered in Hreg. rewrite Exists_fmap in Hreg. apply Exists_exists in Hreg as (r & Hin & Hx).
  exists r. cbn in Hx. unfold address_of. tauto.
Qed.

Lemma address_registered st s w r :
  sees st s → r ∈ rg_addresses s → address_of w r → sql_upper (ad_status r) = "ACTIVE" → watch_listed st w.
Proof.
  intros [_ Hr] Hin Ha Hs. unfold watch_listed. rewrite Hr. right. unfold registered. rewrite Exists_fmap.
  apply Exists_exists. exists r. unfold address_of in Ha. cbn. tauto.
Qed.

Lemma UpsertAccount_steps (to_char : Z → string) now inp s :
  rtc (registry_step to_char) s (run_tx (λ s, snd <$> UpsertAccount to_char now inp s) s).
Proof.
  unfold run_tx. destruct (UpsertAccount to_char now inp s) as [[acc s']|e] eqn:Hu; cbn; [|done].
  by eapply rtc_once, step_UpsertAccount.
Qed.

(** A written row. *)
Lemma updateAddresses_ok sel `{∀ r, Decision (sel r)} f rows n rows' :
  updateAddresses sel f rows = Ok (n, rows') →
  n = List.length (filter sel rows) ∧ rows' = (λ r, if decide (sel r) then f r else r) <$> rows.
Proof. unfold updateAddresses. case_decide; [|done]. by intros [= <- <-]. Qed.

Lemma some_selected sel `{∀ r : address_row, Decision (sel r)} rows :
  (0 < List.length (filter sel rows))%nat → ∃ r, r ∈ rows ∧ sel r.
Proof.
  intros Hn. destruct (filter sel rows) as [|r rest] eqn:He; [cbn in Hn; lia|].
  exists r. assert (Hin : r ∈ filter sel rows) by (rewrite He; by left). apply list_elem_of_filter in Hin. tauto.
Qed.

Lemma selected_some sel `{∀ r : address_row, Decision (sel r)} rows r :
  r ∈ rows → sel r → (0 < List.length (filter sel rows))%nat.
Proof.
  intros Hin Hs. assert (Hf : r ∈ filter sel rows) by (by apply list_elem_of_filter).
  destruct (filter sel rows); [by apply not_elem_of_nil in Hf|cbn; lia].
Qed.

(** The row has every column of the input. *)
Definition written (inp : WatchAddressInput) (r : address_row) : Prop :=
  ∃ now id coin keyID created, r = addressOf now inp id (wi_AccountID inp) coin keyID created.

Lemma upsertWalletAddressTx_written now inp s s' :
  upsertWalletAddressTx now inp s = Ok s' → ∃ r, r ∈ rg_addresses s' ∧ written inp r.
Proof.
  unfold upsertWalletAddressTx. intros Hu. mbind_inv Hu. destruct a as [n1 rows1]. apply updateAddresses_ok in Ha as [-> ->].
  cbn [fst snd] in Hu. case_decide as Hk.
  { injection Hu as <-. apply some_selected in Hk as (r & Hin & Hsel). cbn.
    eexists. split; [apply list_elem_of_fmap; exists r; split; [reflexivity|done]|].
    rewrite decide_True by done. repeat eexists. }
  mbind_inv Hu. destruct a as [n2 rows2]. apply updateAddresses_ok in Ha as [-> ->]. cbn [fst snd] in Hu. case_decide as Ha.
  { injection Hu as <-. apply some_selected in Ha as (r & Hin & Hsel). cbn.
    eexists. split; [apply list_elem_of_fmap; exists r; split; [reflexivity|done]|].
    rewrite decide_True by done. destruct Hsel as (_ & -> & _). repeat eexists. }
  case_decide; [done|]. injection Hu as <-. cbn. eexists. split; [apply elem_of_app; right; by left|]. repeat eexists.
Qed.

(** An update by key id is the only change of the addresses. *)
Lemma upsertWalletAddressTx_moved now inp s s' r :
  upsertWalletAddressTx now inp s = Ok s' → r ∈ rg_addresses s → ad_tenant_id r = wi_TenantID inp → ad_key_id r = wi_KeyID inp →
  ∀ r', r' ∈ rg_addresses s' →
    (r' ∈ rg_addresses s ∧ ¬ (ad_tenant_id r' = wi_TenantID inp ∧ ad_key_id r' = wi_KeyID inp)) ∨ written inp r'.
Proof.
  unfold upsertWalletAddressTx. intros Hu Hin Ht Hk. mbind_inv Hu. destruct a as [n1 rows1].
  apply updateAddresses_ok in Ha as [-> ->]. cbn [fst snd] in Hu.
  rewrite decide_True in Hu by (by eapply selected_some).
  injection Hu as <-. cbn. intros r' (q & -> & Hq)%list_elem_of_fmap. case_decide; [right; repeat eexists|by left].
Qed.

(** The row of a key the input names. *)
Lemma upsertWalletAddressTx_by_key now inp s s' r :
  upsertWalletAddressTx now inp s = Ok s' → r ∈ rg_addresses s → ad_tenant_id r = wi_TenantID inp → ad_key_id r = wi_KeyID inp →
  ∃ row, row ∈ rg_addresses s' ∧ ad_key_id row = wi_KeyID inp ∧ written inp row.
Proof.
  unfold upsertWalletAddressTx. intros Hu Hin Ht Hk. mbind_inv Hu. destruct a as [n1 rows1].
  apply updateAddresses_ok in Ha as [-> ->]. cbn [fst snd] in Hu. rewrite decide_True in Hu by (by eapply selected_some).
  injection Hu as <-. cbn. eexists. split; [apply list_elem_of_fmap; exists r; split; [reflexivity|done]|].
  rewrite decide_True by done. split; [done|]. repeat eexists.
Qed.

Lemma upsertAccountTx_addresses now t a status remark s :
  rg_addresses (upsertAccountTx now t a status remark s) = rg_addresses s.
Proof. unfold upsertAccountTx, insertAccount. cbn. by case_match. Qed.

Lemma upsertWatch_in w rows :
  ∃ r, r ∈ upsertWatch w rows ∧ watchKey (wr_watch r) = watchKey w ∧ wr_active r = true.
Proof.
  unfold upsertWatch. case_decide as Hin.
  - apply list_elem_of_fmap in Hin as (r & Heq & Hr). cbn in Heq. eexists.
    split; [apply list_elem_of_fmap; exists r; split; [reflexivity|done]|]. rewrite decide_True by done. by destruct w.
  - eexists. split; [apply elem_of_app; right; by left|done].
Qed.

(** A watch a listing of its chain contains, unless rows before it fill the
    list. *)
Lemma watch_in_list st r limit allowed :
  r ∈ st_watches st → wr_active r = true → watch_listed st (wr_watch r) →
  wt_Model (wr_watch r) = normalizeModel (wt_Model (wr_watch r)) → wt_Model (wr_watch r) ≠ "" →
  chain_allowed allowed (wt_Chain (wr_watch r)) →
  ∃ ws, ListWatchAddresses (wt_Model (wr_watch r)) limit allowed st = Ok ws
    ∧ (wr_watch r ∈ ws ∨ Z.of_nat (List.length ws) = Z.max 0 limit ∧ limit < Z.of_nat (List.length (st_watches st))).
Proof.
  intros Hin Ha Hl Hm Hne Hal. eexists. split; [reflexivity|].
  match goal with |- context [wr_watch <$> filter ?P ?l] => set (L := filter P l) end.
  assert (r ∈ L) as Hr.
  { apply list_elem_of_filter. split_and!; try done.
    unfold normalizeModel in Hm. revert Hm. cbn. case_decide; congruence. }
  assert (List.length L ≤ List.length (st_watches st))%nat by apply length_filter.
  destruct (decide (Z.of_nat (List.length L) ≤ limit)).
  - left. rewrite take_ge by (rewrite length_fmap; lia). by apply list_elem_of_fmap_2.
  - right. rewrite length_take, length_fmap. lia.
Qed.

Lemma watch_listed_inv st model limit allowed ws w :
  ListWatchAddresses model limit allowed st = Ok ws → w ∈ ws → watch_listed st w.
Proof.
  unfold ListWatchAddresses. intros [= <-] Hin. apply elem_of_take in Hin as (i & Hi & _).
  apply list_elem_of_lookup_2, list_elem_of_fmap in Hi as (r & -> & Hr). apply list_elem_of_filter in Hr. tauto.
Qed.
End view.

Lemma normalizeModel_idem v : normalizeModel (normalizeModel v) = normalizeModel v.
Proof.
  unfold normalizeModel at 2 3. case_decide as Hx; [|done]. apply list_elem_of_In in Hx.
  destruct Hx as [<-|[<-|[]]]; reflexivity.
Qed.

(** The model of a registered address. *)
Lemma UpsertWatchAddress_model `{SqlText} now inp s s' :
  UpsertWatchAddress now inp s = Ok s' → normalizeModel (wi_Model inp) ≠ "".
Proof. unfold UpsertWatchAddress. case_decide as Hn; [done|]. intros _. cbn in Hn. tauto. Qed.

(** A registered address is listed for the scanner, unless the list is full. *)
Lemma registered_is_listed `{SqlText} now inp (s s' : registry) (st : store) limit allowed :
  sql_upper "ACTIVE" = "ACTIVE" →
  UpsertWatchAddress now inp s = Ok s' → sees st s' →
  chain_allowed allowed (RegistryKeys.normalizeChain (wi_Chain inp)) →
  ∃ ws, ListWatchAddresses (normalizeModel (wi_Model inp)) limit allowed st = Ok ws
    ∧ ((∃ w, w ∈ ws
          ∧ watchKey w = (wi_TenantID inp, wi_AccountID inp, normalizeModel (wi_Model inp),
                          RegistryKeys.normalizeChain (wi_Chain inp), normalizeCoin (wi_Coin inp),
                          normalizeNetwork (wi_Network inp), wi_Address inp))
       ∨ Z.of_nat (List.length ws) = Z.max 0 limit ∧ limit < Z.of_nat (List.length (st_watches st))).
Proof.
  intros Hup Hu Hsees Hal. pose proof (UpsertWatchAddress_model _ _ _ _ Hu) as Hm.
  apply UpsertWatchAddress_inv in Hu as (minConf & unlockConf & s2 & Ht & -> & _).
  set (n := normalizedInput inp minConf unlockConf) in *.
  destruct (upsertWatch_in (watchOfInput n) (rg_watches s2)) as (r & Hr & Hk & Ha).
  apply upsertWalletAddressTx_written in Ht as (a & Hin & Hw).
  assert (Hl : watch_listed st (wr_watch r)).
  { eapply address_registered; [exact Hsees|exact Hin| |].
    - destruct Hw as (? & ? & ? & ? & ? & ->). injection Hk as E1 E2 _ E3 _ E4 E5.
      unfold address_of. by rewrite E1, E2, E3, E4, E5.
    - destruct Hw as (? & ? & ? & ? & ? & ->). done. }
  assert (Hmod : wt_Model (wr_watch r) = normalizeModel (wi_Model inp)) by (by injection Hk).
  assert (Hch : wt_Chain (wr_watch r) = RegistryKeys.normalizeChain (wi_Chain inp)) by (by injection Hk).
  destruct (watch_in_list st r limit allowed) as (ws & Hws & Hin'); rewrite ?Hmod, ?normalizeModel_idem, ?Hch; try done.
  { destruct Hsees as [-> _]. exact Hr. }
  exists ws. rewrite <- Hmod. split; [done|]. destruct Hin' as [Hin'|?]; [left|by right].
  exists (wr_watch r). split; [done|]. by rewrite Hk, Hmod.
Qed.

(** ** A concrete registry *)

#[local] Existing Instance asciiText.

(** Two accounts of one tenant in a fresh registry. *)
Definition accountInput (account : string) : WalletAccount := {|
  wa_TenantID := "t"; wa_AccountID := account; wa_AccountTag := ""; wa_Status := ""; wa_Remark := ""; wa_CreatedAt := "";
  wa_UpdatedAt := "" |}.

Definition registryStart : registry :=
  let create account s := run_tx (λ s, snd <$> UpsertAccount BigString 1 (accountInput account) s) s in
  create "bob" (create "alice" (ensureSeeds empty_registry)).

Lemma registryStart_reachable : registry_reachable BigString registryStart.
Proof.
  eapply rtc_l; [|etrans; apply UpsertAccount_steps].
  apply (step_chains _ _ _ (rg_metadata (ensureSeeds empty_registry)) (rg_policies (ensureSeeds empty_registry))).
  reflexivity.
Qed.

(** An address of an account on a network of ethereum: the key the registry
    prepares, and the address of its public key. *)
Definition prepareInput (account network : string) : PrepareAddressInput := {|
  pi_TenantID := "t"; pi_AccountID := account; pi_Model := "account"; pi_Chain := "eth"; pi_Network := network;
  pi_SignType := "ecdsa"; pi_AddressType := "" |}.

Definition watchInput (account network keyID : string) : WatchAddressInput := {|
  wi_TenantID := "t"; wi_AccountID := account; wi_Model := "account"; wi_Chain := "eth"; wi_Coin := "ETH";
  wi_Network := network; wi_Address := "0x" +:+ account; wi_KeyID := keyID; wi_PublicKey := "02"; wi_SignType := "ecdsa";
  wi_AddressType := ""; wi_DerivationPath := "m/44'/60'/1'/0/0"; wi_ChangeIndex := 0; wi_AddressIndex := 0;
  wi_MinConfirmations := 0; wi_UnlockConfirmations := 0; wi_TreasuryAccountID := ""; wi_ColdAccountID := "";
  wi_AutoSweep := false; wi_SweepThreshold := "0"; wi_HotBalanceCap := "0" |}.

Definition preparedKey (account network : string) (s : registry) : option string :=
  match PrepareAddress BigString (prepareInput account network) s with
  | Ok p => Some (wd_KeyID (pa_Address p))
  | Err _ => None
  end.

Definition registerInput (account network : string) (s : registry) : WatchAddressInput :=
  watchInput account network (default "" (preparedKey account network s)).
Definition register (account network : string) (s : registry) : result registry :=
  UpsertWatchAddress 2 (registerInput account network s) s.

Lemma register_ok account network s :
  is_ok (register account network s) = true →
  UpsertWatchAddress 2 (registerInput account network s) s = Ok (run_tx (register account network) s).
Proof. apply (run_tx_ok (register account network) s). Qed.

Definition afterMainnet : registry := run_tx (register "alice" "mainnet") registryStart.
Definition afterSepolia : registry := run_tx (register "alice" "sepolia") afterMainnet.

(** The scanner's tables over the registry's. *)
Definition viewOf (s : registry) : store := {|
  st_watches := rg_watches s; st_registry := Some (registryRow <$> rg_addresses s); st_checkpoints := ∅;
  st_chain_checkpoints := ∅; st_seen := ∅; st_outbox := ∅; st_next_outbox_id := 1; st_blocks := ∅; st_outgoing := ∅ |}.

Definition aliceOn (network : string) (minConf unlockConf : Z) : WatchAddress :=
  watchOfInput (normalizedInput (watchInput "alice" network "") minConf unlockConf).

(** One key id for both networks. *)
Example one_key_two_networks :
  preparedKey "alice" "mainnet" registryStart = preparedKey "alice" "sepolia" afterMainnet.
Proof. vm_compute. reflexivity. Qed.

Example second_network_hides_first :
  ListWatchAddresses "account" 500 [] (viewOf afterMainnet) = Ok [aliceOn "mainnet" 12 12]
  ∧ ListWatchAddresses "account" 500 [] (viewOf afterSepolia) = Ok [aliceOn "sepolia" 1 1].
Proof. split; vm_compute; reflexivity. Qed.

(** ** Properties *)

(** C31. Two accounts never share a key: in every history of the registry, the
    key ids prepared for new addresses of different accounts, of one tenant or
    of two, differ. *)
Theorem accounts_have_own_keys `{SqlText} (to_char : Z → string) inp1 inp2 (s1 s2 : registry) p1 p2 :
  registry_reachable to_char s1 → rtc (registry_step to_char) s1 s2 →
  (pi_TenantID inp1, pi_AccountID inp1) ≠ (pi_TenantID inp2, pi_AccountID inp2) →
  PrepareAddress to_char inp1 s1 = Ok p1 → PrepareAddress to_char inp2 s2 = Ok p2 →
  pa_Existing p1 = false → pa_Existing p2 = false → wd_KeyID (pa_Address p1) ≠ wd_KeyID (pa_Address p2).
Proof. apply new_keys_differ. Qed.

(** A key id does not name the network, so watching an account's key on a
    second network moves its row there: afterwards the scanner's query does not
    return the address on the first network, although nobody removed it. *)
Theorem second_network_moves_address `{SqlText} now inp (s s' : registry) (st : store) w limit allowed ws :
  UpsertWatchAddress now inp s = Ok s' → sees st s' →
  Exists (λ r, ad_tenant_id r = wi_TenantID inp ∧ ad_key_id r = wi_KeyID inp) (rg_addresses s) →
  Forall (λ r, address_of w r → ad_key_id r = wi_KeyID inp) (rg_addresses s) →
  wt_TenantID w = wi_TenantID inp → sql_lower (wt_Network w) ≠ sql_lower (normalizeNetwork (wi_Network inp)) →
  wt_Model w = "account" → ListWatchAddresses "account" limit allowed st = Ok ws → w ∉ ws.
Proof.
  intros Hu Hsees Hex Hall Ht Hnet Hm Hws Hin.
  apply UpsertWatchAddress_inv in Hu as (minConf & unlockConf & s2 & Hu & -> & _).
  apply Exists_exists in Hex as (r & Hr & Hrt & Hrk). rewrite Forall_forall in Hall.
  eapply watch_listed_inv in Hin; [|exact Hws].
  eapply registered_address in Hin; [|exact Hsees|exact Hm].
  destruct Hin as (q & Hq & Hqa & _).
  change (q ∈ rg_addresses s2) in Hq. rewrite <- (upsertAccountTx_addresses now (wi_TenantID inp) (wi_AccountID inp) "ACTIVE" "") in Hr, Hall.
  eapply upsertWalletAddressTx_moved in Hq; [|exact Hu|exact Hr|exact Hrt|exact Hrk].
  destruct Hq as [[Hq Hno]|(? & ? & ? & ? & ? & ->)].
  - apply Hno. split; [destruct Hqa; cbn; congruence|]. by apply Hall.
  - destruct Hqa as (_ & _ & _ & Hn & _). apply Hnet. by rewrite <- Hn.
Qed.

Lemma accounts_have_own_keys_witness :
  preparedKey "alice" "mainnet" registryStart ≠ preparedKey "bob" "mainnet" registryStart.
Proof.
  assert (Ha : ∃ p, PrepareAddress BigString (prepareInput "alice" "mainnet") registryStart = Ok p ∧ pa_Existing p = false)
    by (eexists; split; [vm_compute; reflexivity|reflexivity]).
  assert (Hb : ∃ p, PrepareAddress BigString (prepareInput "bob" "mainnet") registryStart = Ok p ∧ pa_Existing p = false)
    by (eexists; split; [vm_compute; reflexivity|reflexivity]).
  destruct Ha as (p & Hp & Hpe), Hb as (q & Hq & Hqe). unfold preparedKey. rewrite Hp, Hq. intros [= Heq]. revert Heq.
  apply (accounts_have_own_keys BigString (prepareInput "alice" "mainnet") (prepareInput "bob" "mainnet")
           registryStart registryStart); [apply registryStart_reachable|done|done|exact Hp|exact Hq|exact Hpe|exact Hqe].
Defined.

Lemma second_network_moves_address_witness :
  aliceOn "mainnet" 12 12 ∉ [aliceOn "sepolia" 1 1].
Proof.
  apply (second_network_moves_address 2 (registerInput "alice" "sepolia" afterMainnet) afterMainnet afterSepolia
           (viewOf afterSepolia) (aliceOn "mainnet" 12 12) 500 [] [aliceOn "sepolia" 1 1]).
  - apply register_ok. vm_compute. reflexivity.
  - by split.
  - apply Exists_exists. eexists. split; [vm_compute; left|]. vm_compute. by split.
  - apply Forall_forall. intros r Hr _. revert r Hr. apply Forall_forall. vm_compute. by repeat constructor.
  - reflexivity.
  - vm_compute. discriminate.
  - reflexivity.
  - vm_compute. reflexivity.
Defined.
