(* ===== verification/PolicyEngine.v ===== *)
(** * The policy of the sign service

    [sign-service/internal/policy/engine.go]: who may derive and sign, and how
    often.  Times and durations are nanoseconds in [Z]; incoming gRPC metadata
    is a map from lower-case keys to values.  The audit line is built from the
    decision and written to the log; it changes no state and is left out. *)
From S2P Require Import Prelude GoStrings GoNumbers KeyRef.

(** [status.Error(code, msg)] *)
Definition statusError (code msg : string) : error := Errorf ("rpc error: code = " +:+ code +:+ " desc = " +:+ msg).

(** ** Data *)

Record PolicyConfig := {
  pc_AuthToken : string;
  pc_RateLimitWindow : Z;
  pc_RateLimitMaxRequests : Z;
  pc_AllowedTenants : list string;
}.

Record PolicyDecision := {
  dc_TokenLabel : string;
  dc_TenantID : string;
  dc_KeyID : string;
  dc_SignType : string;
  dc_Operation : string;
}.

Record bucket := { bk_start : Z; bk_count : Z }.

Record Engine := {
  en_authToken : string;
  en_rateLimitWindow : Z;
  en_rateLimitMaxRequests : Z;
  en_allowedTenants : gset string;
  en_buckets : gmap string bucket;
}.

#[export] Instance PolicyDecision_rebuild : Rebuild PolicyDecision := λ r,
  {| dc_TokenLabel := dc_TokenLabel r; dc_TenantID := dc_TenantID r; dc_KeyID := dc_KeyID r;
     dc_SignType := dc_SignType r; dc_Operation := dc_Operation r |}.
#[export] Instance Engine_rebuild : Rebuild Engine := λ r,
  {| en_authToken := en_authToken r; en_rateLimitWindow := en_rateLimitWindow r;
     en_rateLimitMaxRequests := en_rateLimitMaxRequests r; en_allowedTenants := en_allowedTenants r;
     en_buckets := en_buckets r |}.

(** ** Building the engine *)

(** The nil map and the empty one allow the same tenants. *)
Definition makeAllowedTenants (items : list string) : gset string :=
  foldl (λ out item, let v := TrimSpace item in if decide (v = "") then out else {[ v ]} ∪ out) ∅ items.

Definition minute : Z := 60 * 1000000000.

Definition New (cfg : PolicyConfig) : Engine := {|
  en_authToken := TrimSpace (pc_AuthToken cfg);
  en_rateLimitWindow := if decide (pc_RateLimitWindow cfg ≤ 0) then minute else pc_RateLimitWindow cfg;
  en_rateLimitMaxRequests := if decide (pc_RateLimitMaxRequests cfg ≤ 0) then 300 else pc_RateLimitMaxRequests cfg;
  en_allowedTenants := makeAllowedTenants (pc_AllowedTenants cfg);
  en_buckets := ∅;
|}.

(** ** Reading the metadata *)

(** The incoming metadata of a call, [None] where there is none. *)
Definition incoming : Type := option (gmap string (list string)).

Definition bearerTrimmed (value : string) : string :=
  let token := TrimSpace value in
  if HasPrefix (ToLower token) "bearer " then TrimSpace (of_bytes (drop 7 (to_bytes token))) else token.

Fixpoint firstValue (md : gmap string (list string)) (keys : list string) : string :=
  match keys with
  | [] => ""
  | key :: keys =>
      match default [] (md !! ToLower key) with
      | [] => firstValue md keys
      | value :: _ =>
          let token := bearerTrimmed value in
          if decide (token ≠ "") then token else firstValue md keys
      end
  end.

Definition metadataValueFromContext (ctx : incoming) (keys : list string) : string :=
  match ctx with None => "" | Some md => firstValue md keys end.

Definition tokenFromContext (ctx : incoming) : string :=
  metadataValueFromContext ctx ["authorization"; "x-sign-token"].

Definition tenantFromContext (ctx : incoming) : string :=
  TrimSpace (metadataValueFromContext ctx ["x-tenant-id"; "tenant-id"; "x-tenant"]).

Definition maskToken (token : string) : string :=
  let token := TrimSpace token in
  let n := List.length (to_bytes token) in
  if decide (token = "") then "anonymous"
  else if decide (n ≤ 6)%nat then token
  else of_bytes (take 3 (to_bytes token) ++ to_bytes "***" ++ drop (n - 3) (to_bytes token)).

(** ** The rate limiter *)

Definition bucketKey (token tenantID operation : string) : string :=
  TrimSpace token +:+ "|" +:+ TrimSpace tenantID +:+ "|" +:+ TrimSpace operation.

(** A bucket whose window is over. *)
Definition expired (window now : Z) (b : bucket) : Prop := window ≤ now - bk_start b.
#[export] Instance expired_dec window now b : Decision (expired window now b).
Proof. unfold expired. apply _. Defined.

(** With more than 10000 buckets, the expired ones are deleted. *)
Definition sweepBuckets (window now : Z) (buckets : gmap string bucket) : gmap string bucket :=
  if decide (10000 < Z.of_nat (size buckets)) then filter (λ kb, ¬ expired window now kb.2) buckets else buckets.

(** The bucket's part of [allow], on the swept buckets. *)
Definition countRequest (window maxRequests now : Z) (key : string) (buckets : gmap string bucket)
    : gmap string bucket * result () :=
  match buckets !! key with
  | None => (<[key := {| bk_start := now; bk_count := 1 |}]> buckets, Ok ())
  | Some b =>
      if decide (expired window now b) then (<[key := {| bk_start := now; bk_count := 1 |}]> buckets, Ok ())
      else if decide (maxRequests ≤ bk_count b) then
        (buckets, Err (statusError "ResourceExhausted" "sign service rate limit exceeded"))
      else (<[key := {| bk_start := bk_start b; bk_count := bk_count b + 1 |}]> buckets, Ok ())
  end.

Definition allow (now : Z) (token tenantID operation : string) (e : Engine) : Engine * result () :=
  let '(buckets, r) :=
    countRequest (en_rateLimitWindow e) (en_rateLimitMaxRequests e) now (bucketKey token tenantID operation)
      (sweepBuckets (en_rateLimitWindow e) now (en_buckets e)) in
  (e <| en_buckets := buckets |>, r).

(** ** Authorization *)

(** The checks of a request that derives or signs: the sign type of its key. *)
Definition checkKeyRequest (e : Engine) (d : PolicyDecision) : result string :=
  if decide (dc_TenantID d = "") then Err (statusError "InvalidArgument" "tenant id is required")
  else if decide (en_allowedTenants e ≠ ∅ ∧ dc_TenantID d ∉ en_allowedTenants e) then
    Err (statusError "PermissionDenied" "tenant is not allowed by signer policy")
  else if decide (dc_KeyID d = "") then Err (statusError "InvalidArgument" "key_id is required")
  else if negb (HasPrefix (ToLower (dc_KeyID d)) "hd:") then
    Err (statusError "PermissionDenied" "legacy key material is disabled")
  else
  match ParseKeyID (dc_KeyID d) with
  | Err parseErr => Err (statusError "InvalidArgument" (error_text parseErr))
  | Ok ref =>
      if decide (dc_SignType d ≠ "" ∧ dc_SignType d ≠ kr_SignType ref) then
        Err (statusError "InvalidArgument" "sign type mismatch")
      else Ok (kr_SignType ref)
  end.

Definition Authorize (now : Z) (ctx : incoming) (operation signType keyID : string) (e : Engine)
    : Engine * PolicyDecision * result () :=
  let token := tokenFromContext ctx in
  let decision := {|
    dc_Operation := TrimSpace operation; dc_KeyID := TrimSpace keyID; dc_SignType := normalizeSignType signType;
    dc_TenantID := tenantFromContext ctx; dc_TokenLabel := maskToken token |} in
  if decide (token = "" ∨ token ≠ en_authToken e) then
    (e, decision, Err (statusError "PermissionDenied" "sign service auth failed"))
  else if decide (dc_Operation decision = "") then
    (e, decision, Err (statusError "InvalidArgument" "operation is required"))
  else
  match (if decide (dc_Operation decision ∈ ["derive"; "sign"]) then checkKeyRequest e decision
         else Ok (dc_SignType decision)) with
  | Err err => (e, decision, Err err)
  | Ok signType =>
      let decision := decision <| dc_SignType := signType |> in
      let '(e, r) := allow now token (dc_TenantID decision) (dc_Operation decision) e in
      (e, decision, r)
  end.

(** * The rate limiter of the sign service

    [Authorize] run over a sequence of calls, the fixed-window counter it
    implements for every bucket, and how much a bucket grants in one window. *)

(** ** Runs *)

(** One call of [Authorize] and the time it happens. *)
Record authCall := {
  ac_now : Z;
  ac_ctx : incoming;
  ac_operation : string;
  ac_signType : string;
  ac_keyID : string;
}.

Definition authorizeCall (c : authCall) (e : Engine) : Engine * PolicyDecision * result () :=
  Authorize (ac_now c) (ac_ctx c) (ac_operation c) (ac_signType c) (ac_keyID c) e.

(** The engine after the calls and what each was answered. *)
Fixpoint serve (calls : list authCall) (e : Engine) : Engine * list (result ()) :=
  match calls with
  | [] => (e, [])
  | c :: calls =>
      let '(e, _, r) := authorizeCall c e in
      let '(e, rs) := serve calls e in
      (e, r :: rs)
  end.

(** The bucket a call is counted in, when its checks pass. *)
Definition callBucket (e : Engine) (c : authCall) : option string :=
  let token := tokenFromContext (ac_ctx c) in
  let decision := {|
    dc_Operation := TrimSpace (ac_operation c); dc_KeyID := TrimSpace (ac_keyID c);
    dc_SignType := normalizeSignType (ac_signType c);
    dc_TenantID := tenantFromContext (ac_ctx c); dc_TokenLabel := maskToken token |} in
  if decide (token = "" ∨ token ≠ en_authToken e) then None
  else if decide (dc_Operation decision = "") then None
  else if (if decide (dc_Operation decision ∈ ["derive"; "sign"]) then is_ok (checkKeyRequest e decision) else true)
  then Some (bucketKey token (dc_TenantID decision) (dc_Operation decision))
  else None.

(** ** The reference: one counter per bucket, nothing ever deleted *)

Definition fixedWindow (window maxRequests : Z) (s : option bucket) (now : Z) : option bucket * bool :=
  match s with
  | None => (Some {| bk_start := now; bk_count := 1 |}, true)
  | Some b =>
      if decide (expired window now b) then (Some {| bk_start := now; bk_count := 1 |}, true)
      else if decide (maxRequests ≤ bk_count b) then (Some b, false)
      else (Some {| bk_start := bk_start b; bk_count := bk_count b + 1 |}, true)
  end.

Fixpoint fixedWindowRun (window maxRequests : Z) (s : option bucket) (times : list Z) : list bool :=
  match times with
  | [] => []
  | now :: times =>
      let '(s, ok) := fixedWindow window maxRequests s now in ok :: fixedWindowRun window maxRequests s times
  end.

(** The times of the calls counted in bucket [k], and their answers. *)
Definition timesIn (e : Engine) (k : string) (calls : list authCall) : list Z :=
  ac_now <$> filter (λ c, callBucket e c = Some k) calls.
Definition answersIn (e : Engine) (k : string) (calls : list authCall) (answers : list (result ())) : list bool :=
  (λ ca, is_ok ca.2) <$> filter (λ ca, callBucket e ca.1 = Some k) (zip calls answers).

(** ** One call *)

(** Two engines with the same settings. *)
Definition same_settings (e e' : Engine) : Prop :=
  en_authToken e = en_authToken e' ∧ en_rateLimitWindow e = en_rateLimitWindow e'
  ∧ en_rateLimitMaxRequests e = en_rateLimitMaxRequests e' ∧ en_allowedTenants e = en_allowedTenants e'.

Lemma callBucket_settings e e' c : same_settings e e' → callBucket e c = callBucket e' c.
Proof. intros (H1 & _ & _ & H2). unfold callBucket, checkKeyRequest. by rewrite H1, H2. Qed.

Lemma authorizeCall_spec c e :
  let '(e', _, r) := authorizeCall c e in
  same_settings e' e ∧
  match callBucket e c with
  | None => en_buckets e' = en_buckets e ∧ is_ok r = false
  | Some k => (en_buckets e', r) = countRequest (en_rateLimitWindow e) (en_rateLimitMaxRequests e) (ac_now c) k
                                     (sweepBuckets (en_rateLimitWindow e) (ac_now c) (en_buckets e))
  end.
Proof.
  unfold authorizeCall, Authorize, callBucket. cbv zeta. cbn [dc_Operation dc_SignType dc_TenantID].
  case_decide; [by split_and!|]. case_decide; [by split_and!|].
  destruct (if decide (TrimSpace _ ∈ _) then checkKeyRequest _ _ else _) as [st|err] eqn:Hc.
  - assert ((if decide (TrimSpace (ac_operation c) ∈ ["derive"; "sign"]) then is_ok (checkKeyRequest e {|
      dc_TokenLabel := maskToken (tokenFromContext (ac_ctx c)); dc_TenantID := tenantFromContext (ac_ctx c);
      dc_KeyID := TrimSpace (ac_keyID c); dc_SignType := normalizeSignType (ac_signType c);
      dc_Operation := TrimSpace (ac_operation c) |}) else true) = true) as ->
      by (case_decide; [by rewrite Hc|done]).
    cbn. unfold allow. destruct (countRequest _ _ _ _ _) as [b r] eqn:Hr. done.
  - case_decide; [|done]. rewrite Hc. by split_and!.
Qed.

(** Deleting expired buckets: a bucket is gone only when it has expired. *)
Lemma sweepBuckets_lookup window now bs k :
  sweepBuckets window now bs !! k = bs !! k
  ∨ (sweepBuckets window now bs !! k = None ∧ ∃ b, bs !! k = Some b ∧ expired window now b).
Proof.
  unfold sweepBuckets. case_decide; [|by left]. destruct (bs !! k) as [b|] eqn:Hb.
  - destruct (decide (expired window now b)) as [He|He].
    + right. split; [|eauto]. apply map_lookup_filter_None. right. intros b' Hb'. cbn. naive_solver.
    + left. by apply map_lookup_filter_Some.
  - left. apply map_lookup_filter_None. by left.
Qed.

(** ** The engine's buckets follow the reference *)

(** The engine has the counter, or has dropped it because it expired. *)
Definition tracks (window now : Z) (s s' : option bucket) : Prop :=
  s' = s ∨ (s' = None ∧ ∃ b, s = Some b ∧ expired window now b).

Lemma tracks_later window now now' s s' : now ≤ now' → tracks window now s s' → tracks window now' s s'.
Proof. intros Hn [H|(H & b & Hb & He)]; [by left|right]. split; [done|]. exists b. unfold expired in *. split; [done|lia]. Qed.

Lemma tracks_sweep window now bs s k :
  tracks window now s (bs !! k) → tracks window now s (sweepBuckets window now bs !! k).
Proof.
  intros Ht. destruct (sweepBuckets_lookup window now bs k) as [->|[-> (b & Hb & He)]]; [done|].
  destruct Ht as [Hs|[? _]]; [|congruence]. right. rewrite <- Hs. eauto.
Qed.

Lemma countRequest_tracks window maxRequests now k bs s bs' r :
  tracks window now s (bs !! k) → countRequest window maxRequests now k bs = (bs', r) →
  bs' !! k = (fixedWindow window maxRequests s now).1 ∧ is_ok r = (fixedWindow window maxRequests s now).2.
Proof.
  unfold countRequest, fixedWindow. intros [Hs|(Hs & b & -> & He)]; rewrite Hs.
  - destruct s as [b|]; repeat case_decide; intros [= <- <-]; rewrite ?lookup_insert_eq; done.
  - intros [= <- <-]. rewrite decide_True by done. by rewrite lookup_insert_eq.
Qed.

Lemma countRequest_other window maxRequests now k k' bs bs' r :
  k ≠ k' → countRequest window maxRequests now k' bs = (bs', r) → bs' !! k = bs !! k.
Proof.
  unfold countRequest. intros Hk. destruct (bs !! k') as [b|]; repeat case_decide; intros [= <- <-];
    rewrite ?lookup_insert_ne by done; done.
Qed.

(** Times do not go back. *)
Fixpoint clock_from (now : Z) (calls : list authCall) : Prop :=
  match calls with [] => True | c :: calls => now ≤ ac_now c ∧ clock_from (ac_now c) calls end.

Lemma serve_cons c calls e e' d r :
  authorizeCall c e = (e', d, r) → serve (c :: calls) e = ((serve calls e').1, r :: (serve calls e').2).
Proof. intros Hc. cbn. rewrite Hc. by destruct (serve calls e'). Qed.

#[export] Instance same_settings_trans : Transitive same_settings.
Proof. intros e1 e2 e3. unfold same_settings. intuition congruence. Qed.

Lemma serve_fixed_window calls e0 e t k s :
  same_settings e e0 → clock_from t calls → tracks (en_rateLimitWindow e0) t s (en_buckets e !! k) →
  answersIn e0 k calls (serve calls e).2
  = fixedWindowRun (en_rateLimitWindow e0) (en_rateLimitMaxRequests e0) s (timesIn e0 k calls).
Proof.
  revert e t s. induction calls as [|c calls IH]; intros e t s He0 Hclock Hs; [done|].
  destruct Hclock as [Hnow Hclock]. pose proof (authorizeCall_spec c e) as Hc.
  destruct (authorizeCall c e) as [[e' d] r] eqn:Hcall. destruct Hc as [Hset Hc].
  rewrite (callBucket_settings e e0) in Hc by done.
  apply (tracks_later _ _ (ac_now c)) in Hs; [|done].
  assert (Hrest : ∀ s', tracks (en_rateLimitWindow e0) (ac_now c) s' (en_buckets e' !! k) → answersIn e0 k calls (serve calls e').2
    = fixedWindowRun (en_rateLimitWindow e0) (en_rateLimitMaxRequests e0) s' (timesIn e0 k calls)).
  { intros s' Hs'. apply (IH e' (ac_now c)); [by etrans|done|done]. }
  rewrite (serve_cons _ _ _ _ _ _ Hcall). unfold answersIn, timesIn in Hrest |- *. cbn [snd zip zip_with].
  rewrite !filter_cons. cbn [fst].
  destruct He0 as (_ & Hw & Hm & _). destruct (callBucket e0 c) as [k'|] eqn:Hb.
  - rewrite Hw, Hm in Hc. symmetry in Hc. destruct (decide (k' = k)) as [->|Hk].
    + rewrite !(decide_True (P := Some k = Some k)) by done. rewrite !fmap_cons. cbn [fixedWindowRun snd].
      apply (countRequest_tracks _ _ _ _ _ s) in Hc as [Hs' Hr]; [|by apply tracks_sweep].
      destruct (fixedWindow _ _ _ _) as [s' ok]. cbn [fst snd] in Hs', Hr. rewrite Hr. f_equal. apply Hrest. by left.
    + rewrite !(decide_False (P := Some k' = Some k)) by congruence. apply Hrest.
      rewrite (countRequest_other _ _ _ k _ _ _ _ (not_eq_sym Hk) Hc). by apply tracks_sweep.
  - rewrite !(decide_False (P := None = Some k)) by done. apply Hrest. destruct Hc as [-> _]. done.
Qed.

(** ** How much one window grants *)

Definition granted (answers : list bool) : Z := Z.of_nat (List.length (filter (λ b, b = true) answers)).

Lemma granted_cons b l : granted (b :: l) = (if b then 1 else 0) + granted l.
Proof. unfold granted. rewrite filter_cons. case_decide; destruct b; try done; cbn [List.length]; lia. Qed.

Section window.
Context (window maxRequests : Z) (Hmax : 1 ≤ maxRequests).

(** While a counter lasts, it grants what is left of its count. *)
Lemma fixedWindowRun_live times b :
  bk_count b ≤ maxRequests → Forall (λ now, now - bk_start b < window) times →
  granted (fixedWindowRun window maxRequests (Some b) times) ≤ maxRequests - bk_count b.
Proof.
  revert b. induction times as [|now times IH]; intros b Hb Ht; cbn [fixedWindowRun fixedWindow]; [change (granted []) with 0; lia|].
  apply Forall_cons in Ht as [Hnow Ht]. rewrite (decide_False (P := expired _ _ _)) by (unfold expired; lia).
  case_decide; rewrite granted_cons; [by apply IH|].
  specialize (IH {| bk_start := bk_start b; bk_count := bk_count b + 1 |}). cbn in IH. specialize (IH ltac:(lia) Ht). lia.
Qed.

Lemma fixedWindowRun_fresh times now :
  Forall (λ x, x - now < window) times →
  granted (true :: fixedWindowRun window maxRequests (Some {| bk_start := now; bk_count := 1 |}) times) ≤ maxRequests.
Proof. intros Ht. rewrite granted_cons. pose proof (fixedWindowRun_live times {| bk_start := now; bk_count := 1 |} Hmax Ht). cbn in *. lia. Qed.

(** Nothing is granted beyond twice the limit, less one, at times closer than
    the window. *)
Lemma fixedWindowRun_bound times s t :
  (∀ b, s = Some b → 1 ≤ bk_count b ≤ maxRequests) → Forall (λ now, t ≤ now < t + window) times →
  granted (fixedWindowRun window maxRequests s times) ≤ 2 * maxRequests - 1.
Proof.
  intros Hs Ht. destruct s as [b|].
  - specialize (Hs b eq_refl). enough (granted (fixedWindowRun window maxRequests (Some b) times) ≤ (maxRequests - bk_count b) + maxRequests) by lia.
    revert b Hs. induction times as [|now times IH]; intros b Hb; cbn [fixedWindowRun fixedWindow]; [change (granted []) with 0; lia|].
    apply Forall_cons in Ht as [Hnow Ht]. specialize (IH Ht). case_decide; [|case_decide].
    + etrans; [apply fixedWindowRun_fresh; eapply Forall_impl; [exact Ht|cbn; lia]|lia].
    + rewrite granted_cons. by apply IH.
    + rewrite granted_cons. specialize (IH {| bk_start := bk_start b; bk_count := bk_count b + 1 |}). cbn [bk_count] in IH.
      specialize (IH ltac:(lia)). lia.
  - destruct times as [|now times]; cbn [fixedWindowRun fixedWindow]; [change (granted []) with 0; lia|].
    apply Forall_cons in Ht as [Hnow Ht]. etrans; [apply fixedWindowRun_fresh; eapply Forall_impl; [exact Ht|cbn; lia]|lia].
Qed.
End window.

(** ** Counters stay within the limit *)

Definition counts_ok (e : Engine) : Prop :=
  1 ≤ en_rateLimitMaxRequests e ∧ map_Forall (λ _ b, 1 ≤ bk_count b ≤ en_rateLimitMaxRequests e) (en_buckets e).

Lemma New_counts cfg : counts_ok (New cfg).
Proof. split; cbn; [case_decide; lia|apply map_Forall_empty]. Qed.

Lemma authorizeCall_counts c e : counts_ok e → counts_ok (authorizeCall c e).1.1.
Proof.
  intros [Hm Hb]. pose proof (authorizeCall_spec c e) as Hc. destruct (authorizeCall c e) as [[e' d] r].
  destruct Hc as [(_ & _ & Hm' & _) Hc]. cbn [fst]. unfold counts_ok. rewrite Hm'. split; [done|].
  destruct (callBucket e c) as [k|]; [|by destruct Hc as [-> _]].
  assert (Hs : map_Forall (λ _ b, 1 ≤ bk_count b ≤ en_rateLimitMaxRequests e)
    (sweepBuckets (en_rateLimitWindow e) (ac_now c) (en_buckets e))).
  { intros k' b' Hk'. destruct (sweepBuckets_lookup (en_rateLimitWindow e) (ac_now c) (en_buckets e) k') as [E|[E _]];
      rewrite E in Hk'; [by apply (Hb k')|done]. }
  unfold countRequest in Hc. destruct (_ !! k) as [b|] eqn:Hk; [|injection Hc as -> _; apply map_Forall_insert_2; [cbn; lia|done]].
  pose proof (Hs _ _ Hk) as Hbk. repeat case_decide; injection Hc as -> _; [|done|];
    apply map_Forall_insert_2; try done; cbn; cbn in Hbk; lia.
Qed.

Lemma serve_counts calls e : counts_ok e → counts_ok (serve calls e).1.
Proof.
  revert e. induction calls as [|c calls IH]; intros e He; [done|]. pose proof (authorizeCall_counts c e He) as Hc.
  destruct (authorizeCall c e) as [[e' d] r] eqn:Hcall. rewrite (serve_cons _ _ _ _ _ _ Hcall). by apply IH.
Qed.

Lemma serve_settings calls e : same_settings (serve calls e).1 e.
Proof.
  revert e. induction calls as [|c calls IH]; intros e; [done|]. pose proof (authorizeCall_spec c e) as Hc.
  destruct (authorizeCall c e) as [[e' d] r] eqn:Hcall. rewrite (serve_cons _ _ _ _ _ _ Hcall).
  destruct Hc as [Hset _]. etrans; [apply IH|done].
Qed.
