(* ===== verification/KeyStore.v ===== *)
(** * Seeds of the sign service

    [sign-service/internal/keystore/keys.go] and [crypto.go]: master seeds,
    encrypted under the vault password and stored in LevelDB under their slot;
    [internal/hsm/software.go] and [cloudhsm.go]: the two backends the custody
    layer loads seeds from, through one interface ([Backend]).  scrypt,
    AES-GCM and the PKCS#11 token are parameters. *)
From S2P Require Import Prelude GoStrings GoNumbers KeyRef.

(** ** What is used of the crypto libraries *)

Class VaultCrypto := {
  scryptKey : bytes → bytes → result bytes;
  gcmSeal : bytes → bytes → bytes → bytes → bytes;
  gcmOpen : bytes → bytes → bytes → bytes → result bytes;
}.

(** What is sealed is opened under the same key, nonce and additional data. *)
Class VaultCryptoLaws `{VaultCrypto} :=
  law_open_seal : ∀ key nonce seed aad, gcmOpen key nonce (gcmSeal key nonce seed aad) aad = Ok seed.

(** What the disk and the random source do during one operation. *)
Record vaultIO := {
  io_get : option error;
  io_put : option error;
  io_seed : result bytes;
  io_salt : result bytes;
  io_nonce : result bytes;
}.

(** [io.ReadFull] fills a buffer of the size it is given. *)
Definition io_sound (io : vaultIO) : Prop :=
  (∀ b, io_salt io = Ok b → List.length b = 16%nat) ∧ (∀ b, io_nonce io = Ok b → List.length b = 12%nat)
  ∧ (∀ b, io_seed io = Ok b → List.length b = 64%nat).

Definition ErrSeedNotProvisioned : error := Errorf "seed slot is not provisioned".
Definition ErrSeedAlreadyExists : error := Errorf "seed slot already provisioned".

Definition masterSeedKeyPrefix : string := "__hsm_slot__:".
Definition vaultEnvelopePrefix : bytes := to_bytes "sv1".

(** ** The envelope *)

Section envelope.
Context `{VaultCrypto} `{Sha256}.

Definition deriveVaultKey (password storageKey : string) (salt : bytes) : result bytes :=
  scryptKey (to_bytes password) (salt ++ sha256 (to_bytes storageKey)).

Definition encryptSeed (io : vaultIO) (password storageKey : string) (seed : bytes) : result bytes :=
  salt ← io_salt io;
  key ← deriveVaultKey password storageKey salt;
  nonce ← io_nonce io;
  let ciphertext := gcmSeal key nonce seed (to_bytes storageKey) in
  Ok (vaultEnvelopePrefix ++ salt ++ nonce ++ ciphertext).

Definition decryptSeed (password storageKey : string) (payload : bytes) : result bytes :=
  if decide (List.length payload < List.length vaultEnvelopePrefix + 16 + 12)%nat then
    Err (Errorf "invalid encrypted vault payload")
  else if decide (take (List.length vaultEnvelopePrefix) payload ≠ vaultEnvelopePrefix) then
    Err (Errorf "unsupported vault payload version")
  else
  let saltOffset := List.length vaultEnvelopePrefix in
  let salt := take 16 (drop saltOffset payload) in
  let nonce := take 12 (drop (saltOffset + 16) payload) in
  let ciphertext := drop (saltOffset + 16 + 12) payload in
  key ← deriveVaultKey password storageKey salt;
  match gcmOpen key nonce ciphertext (to_bytes storageKey) with
  | Ok plain => Ok plain
  | Err err => Err (Errorf ("vault unlock failed: " +:+ error_text err))
  end.
End envelope.

(** ** The keystore *)

Record Keys := {
  ks_store : gmap string bytes;
  ks_namespace : string;
  ks_password : string;
  ks_autoCreate : bool;
}.

#[export] Instance Keys_rebuild : Rebuild Keys := λ r,
  {| ks_store := ks_store r; ks_namespace := ks_namespace r; ks_password := ks_password r;
     ks_autoCreate := ks_autoCreate r |}.

(** [New]: the settings of a keystore over an opened store. *)
Definition NewKeys (store : gmap string bytes) (namespace password : string) (autoCreate : bool) : result Keys :=
  let namespace := TrimSpace namespace in
  let namespace := if decide (namespace = "") then "software" else namespace in
  let password := TrimSpace password in
  if decide (password = "") then Err (Errorf "vault unlock password is required")
  else Ok {| ks_store := store; ks_namespace := namespace; ks_password := password; ks_autoCreate := autoCreate |}.

Definition storageKey (k : Keys) (slotID : string) : string := TrimSpace (ks_namespace k) +:+ ":" +:+ TrimSpace slotID.
Definition slotKey (k : Keys) (slotID : string) : string := masterSeedKeyPrefix +:+ storageKey k slotID.

Section keys.
Context `{VaultCrypto} `{Sha256}.

(** [store.Get]: [Ok None] is [leveldb.ErrNotFound]. *)
Definition storeGet (io : vaultIO) (key : string) (k : Keys) : result (option bytes) :=
  match io_get io with Some err => Err err | None => Ok (ks_store k !! key) end.

Definition storePut (io : vaultIO) (key : string) (value : bytes) (k : Keys) : Keys * result () :=
  match io_put io with
  | Some err => (k, Err err)
  | None => (k <| ks_store := <[key := value]> (ks_store k) |>, Ok ())
  end.

Definition LoadSeed (io : vaultIO) (slotID : string) (k : Keys) : result bytes :=
  let slotID := TrimSpace slotID in
  if decide (slotID = "") then Err (Errorf "slot id is required") else
  found ← storeGet io (slotKey k slotID) k;
  match found with
  | None | Some [] => Err ErrSeedNotProvisioned
  | Some ciphertext => decryptSeed (ks_password k) (storageKey k slotID) ciphertext
  end.

(** The seal and the write [ProvisionSeed] and [ReplaceSeed] end with. *)
Definition writeSeed (io : vaultIO) (slotID : string) (seed : bytes) (k : Keys) : Keys * result () :=
  match encryptSeed io (ks_password k) (storageKey k slotID) seed with
  | Err err => (k, Err err)
  | Ok ciphertext => storePut io (slotKey k slotID) ciphertext k
  end.

Definition ProvisionSeed (io : vaultIO) (slotID : string) (seed : bytes) (k : Keys) : Keys * result () :=
  let slotID := TrimSpace slotID in
  if decide (slotID = "") then (k, Err (Errorf "slot id is required"))
  else if decide (seed = []) then (k, Err (Errorf "seed is required"))
  else
  match storeGet io (slotKey k slotID) k with
  | Ok (Some (_ :: _)) => (k, Err ErrSeedAlreadyExists)
  | Err err => (k, Err err)
  | Ok _ => writeSeed io slotID seed k
  end.

Definition ReplaceSeed (io : vaultIO) (slotID : string) (seed : bytes) (k : Keys) : Keys * result () :=
  let slotID := TrimSpace slotID in
  if decide (slotID = "") then (k, Err (Errorf "slot id is required"))
  else if decide (seed = []) then (k, Err (Errorf "seed is required"))
  else writeSeed io slotID seed k.

(** The lock is taken by [LoadSeed] and by [ProvisionSeed] for themselves:
    [ioStore] is the world of the second, later operation. *)
Definition LoadOrCreateSeed (ioLoad ioStore : vaultIO) (slotID : string) (k : Keys) : Keys * result bytes :=
  match LoadSeed ioLoad slotID k with
  | Ok seed => (k, Ok seed)
  | Err err =>
      if decide (err ≠ ErrSeedNotProvisioned) then (k, Err err)
      else if negb (ks_autoCreate k) then (k, Err ErrSeedNotProvisioned)
      else
      match io_seed ioStore with
      | Err err => (k, Err err)
      | Ok seed =>
          match ProvisionSeed ioStore slotID seed k with
          | (k, Err err) => (k, Err err)
          | (k, Ok _) => (k, Ok seed)
          end
      end
  end.
End keys.

(** ** CloudHSM *)

(** The PKCS#11 session: what [Open] and [LoadSeed] of the token answer. *)
Record pkcs11 := { p11_open : option error; p11_loadErr : option error }.

Definition ErrPKCS11ObjectNotFound : error := Errorf "pkcs11 object not found".

Record CloudHSMBackend := {
  ch_clusterID : string;
  ch_region : string;
  ch_session : bool;
  ch_token : gmap string bytes;
}.

#[export] Instance CloudHSMBackend_rebuild : Rebuild CloudHSMBackend := λ r,
  {| ch_clusterID := ch_clusterID r; ch_region := ch_region r; ch_session := ch_session r; ch_token := ch_token r |}.

Definition openSession (io : pkcs11) (b : CloudHSMBackend) : CloudHSMBackend * result () :=
  if ch_session b then (b, Ok ())
  else match p11_open io with
       | Some err =>
           (b, Err (Errorf (error_text err +:+ ": cluster_id=" +:+ ch_clusterID b +:+ " region=" +:+ ch_region b)))
       | None => (b <| ch_session := true |>, Ok ())
       end.

(** [session.LoadSeed] *)
Definition sessionLoadSeed (io : pkcs11) (slotID : string) (b : CloudHSMBackend) : result bytes :=
  match p11_loadErr io with
  | Some err => Err err
  | None => from_option_err ErrPKCS11ObjectNotFound (ch_token b !! TrimSpace slotID)
  end.

(** [%q] prints the slot between quotes. *)
Definition cloudLoadOrCreateSeed (io : pkcs11) (slotID : string) (b : CloudHSMBackend) : CloudHSMBackend * result bytes :=
  let slotID := TrimSpace slotID in
  if decide (slotID = "") then (b, Err (Errorf "slot id is required")) else
  match openSession io b with
  | (b, Err err) => (b, Err err)
  | (b, Ok _) =>
      let missing := Err (Errorf ("seed slot " +:+ slotID +:+ " is not provisioned; provision it via the admin bootstrap path")) in
      (b, match sessionLoadSeed io slotID b with
          | Ok (x :: seed) => Ok (x :: seed)
          | Ok [] => missing
          | Err err => if decide (err ≠ ErrPKCS11ObjectNotFound) then Err err else missing
          end)
  end.

(** ** The interface the custody layer uses *)

(** [hsm.Backend]: a state and how seeds are loaded from it. *)
Class Backend := {
  backend : Type;
  backendIO : Type;
  backendLoad : backendIO → string → backend → backend * result bytes;
}.

(** What a backend promises: a slot's seed, once loaded, is the slot's seed
    from then on, and loading any slot changes the seed of none. *)
Class BackendLaws `{Backend} := {
  backend_ok : backend → Prop;
  seedOf : backend → string → option bytes;
  io_ok : backendIO → Prop;
  law_load_ok : ∀ io slot b, backend_ok b → io_ok io → backend_ok (backendLoad io slot b).1;
  law_load_seed : ∀ io slot b b' seed,
    backend_ok b → io_ok io → backendLoad io slot b = (b', Ok seed) → seedOf b' slot = Some seed;
  law_load_keeps : ∀ io slot b slot' seed,
    backend_ok b → io_ok io → seedOf b slot' = Some seed → seedOf (backendLoad io slot b).1 slot' = Some seed;
}.

#[export] Instance softwareBackend `{VaultCrypto} `{Sha256} : Backend :=
  {| backend := Keys; backendIO := vaultIO * vaultIO; backendLoad io := LoadOrCreateSeed io.1 io.2 |}.

Definition cloudBackend : Backend :=
  {| backend := CloudHSMBackend; backendIO := pkcs11; backendLoad := cloudLoadOrCreateSeed |}.

(** * The seed backends keep their promises

    Both backends of the sign service satisfy [BackendLaws]: a seed that was
    loaded stays, whatever is loaded after it. *)

(** ** The software vault *)

(** A world without failures: what is in the store, not what the disk does. *)
Definition calmIO : vaultIO :=
  {| io_get := None; io_put := None; io_seed := Err (Errorf ""); io_salt := Err (Errorf ""); io_nonce := Err (Errorf "") |}.

Section software.
Context `{VaultCryptoLaws} `{Sha256}.

(** What was sealed for a slot opens for that slot. *)
Lemma decrypt_encrypt io password key seed payload :
  io_sound io → encryptSeed io password key seed = Ok payload → decryptSeed password key payload = Ok seed ∧ payload ≠ [].
Proof.
  intros (Hsalt & Hnonce & _) Hx. unfold encryptSeed in Hx. mbind_inv Hx. mbind_inv Hx. mbind_inv Hx.
  rename a into salt, a0 into k, a1 into nonce.
  assert (payload = vaultEnvelopePrefix ++ salt ++ nonce ++ gcmSeal k nonce seed (to_bytes key)) as -> by congruence.
  specialize (Hsalt _ Ha). specialize (Hnonce _ Ha1).
  split; [|done]. unfold decryptSeed. set (c := gcmSeal k nonce seed (to_bytes key)).
  change (List.length vaultEnvelopePrefix) with 3%nat.
  rewrite decide_False by (rewrite !List.length_app; change (List.length vaultEnvelopePrefix) with 3%nat; lia).
  change (take 3 (vaultEnvelopePrefix ++ salt ++ nonce ++ c)) with vaultEnvelopePrefix.
  change (drop (3 + 16) (vaultEnvelopePrefix ++ salt ++ nonce ++ c)) with (drop 16 (salt ++ nonce ++ c)).
  change (drop 3 (vaultEnvelopePrefix ++ salt ++ nonce ++ c)) with (salt ++ nonce ++ c).
  change (drop (3 + 16 + 12) (vaultEnvelopePrefix ++ salt ++ nonce ++ c)) with (drop (16 + 12) (salt ++ nonce ++ c)).
  rewrite decide_False by (intros Hn; by apply Hn). cbv zeta.
  assert (Hd : drop (16 + 12) (salt ++ nonce ++ c) = c).
  { rewrite app_assoc, drop_app_length'; [done|]. rewrite List.length_app. lia. }
  rewrite Hd, take_app_length', drop_app_length', take_app_length' by done.
  rewrite Ha0, bind_ok. unfold c. by rewrite law_open_seal.
Qed.

(** The seed of a slot, as the store has it. *)
Definition softwareSeed (k : Keys) (slot : string) : option bytes :=
  match LoadSeed calmIO slot k with Ok seed => Some seed | Err _ => None end.

Lemma storageKey_trim k slot : storageKey k (TrimSpace slot) = storageKey k slot.
Proof. unfold storageKey. by rewrite TrimSpace_idem. Qed.

Lemma slotKey_trim k slot : slotKey k (TrimSpace slot) = slotKey k slot.
Proof. unfold slotKey. by rewrite storageKey_trim. Qed.

(** [LoadSeed] reads one entry of the store. *)
Definition openEntry (k : Keys) (slot : string) (entry : option bytes) : result bytes :=
  match entry with
  | None | Some [] => Err ErrSeedNotProvisioned
  | Some c => decryptSeed (ks_password k) (storageKey k slot) c
  end.

Lemma LoadSeed_entry io slot k :
  TrimSpace slot ≠ "" → io_get io = None → LoadSeed io slot k = openEntry k slot (ks_store k !! slotKey k slot).
Proof.
  intros Hs Hio. unfold LoadSeed, storeGet. rewrite decide_False, Hio, bind_ok by done.
  rewrite slotKey_trim, storageKey_trim. by destruct (ks_store k !! _) as [[|]|].
Qed.

Lemma softwareSeed_entry slot k :
  softwareSeed k slot = if decide (TrimSpace slot = "") then None else
    match openEntry k slot (ks_store k !! slotKey k slot) with Ok seed => Some seed | Err _ => None end.
Proof.
  unfold softwareSeed. case_decide as Hs; [unfold LoadSeed; by rewrite decide_True|].
  by rewrite LoadSeed_entry.
Qed.

(** A loaded seed is the slot's seed. *)
Lemma LoadSeed_seed io slot k seed : LoadSeed io slot k = Ok seed → softwareSeed k slot = Some seed.
Proof.
  intros Hl. unfold softwareSeed. assert (Hio : io_get io = None).
  { unfold LoadSeed, storeGet in Hl. case_decide; [done|]. by destruct (io_get io). }
  assert (Hs : TrimSpace slot ≠ "") by (intros Hs; unfold LoadSeed in Hl; by rewrite decide_True in Hl).
  rewrite LoadSeed_entry in Hl by done. by rewrite LoadSeed_entry, Hl.
Qed.

Definition same_vault (k k' : Keys) : Prop :=
  ks_namespace k' = ks_namespace k ∧ ks_password k' = ks_password k ∧ ks_autoCreate k' = ks_autoCreate k.

Lemma writeSeed_inv io slot seed k k' :
  writeSeed io slot seed k = (k', Ok ()) →
  ∃ payload, encryptSeed io (ks_password k) (storageKey k slot) seed = Ok payload
    ∧ k' = k <| ks_store := <[slotKey k slot := payload]> (ks_store k) |>.
Proof.
  unfold writeSeed, storePut. destruct (encryptSeed _ _ _ _) as [payload|]; [|done].
  destruct (io_put io); intros [= <-]. eauto.
Qed.

Lemma softwareSeed_put k key payload slot :
  softwareSeed (k <| ks_store := <[key := payload]> (ks_store k) |>) slot
  = if decide (TrimSpace slot = "") then None else
    match openEntry k slot (<[key := payload]> (ks_store k) !! slotKey k slot) with Ok seed => Some seed | Err _ => None end.
Proof. by rewrite softwareSeed_entry. Qed.

Lemma writeSeed_seed io slot seed k k' :
  io_sound io → TrimSpace slot ≠ "" → writeSeed io slot seed k = (k', Ok ()) → softwareSeed k' slot = Some seed.
Proof.
  intros Hio Hs (payload & He & ->)%writeSeed_inv. rewrite softwareSeed_put, decide_False by done.
  rewrite lookup_insert_eq. apply decrypt_encrypt in He as [He Hne]; [|done].
  unfold openEntry. destruct payload; [done|]. by rewrite He.
Qed.

(** Writing under another key changes no other seed. *)
Lemma writeSeed_other io slot slot' seed k k' r :
  slotKey k slot' ≠ slotKey k slot → writeSeed io slot seed k = (k', r) → softwareSeed k' slot' = softwareSeed k slot'.
Proof.
  intros Hne. unfold writeSeed, storePut. destruct (encryptSeed _ _ _ _) as [payload|]; [|by intros [= <- _]].
  destruct (io_put io); intros [= <- _]; [done|].
  by rewrite softwareSeed_put, lookup_insert_ne, softwareSeed_entry.
Qed.

(** Provisioning never replaces a seed. *)
Lemma ProvisionSeed_keeps io slot slot' seed k x :
  softwareSeed k slot' = Some x → softwareSeed (ProvisionSeed io slot seed k).1 slot' = Some x.
Proof.
  intros Hx. unfold ProvisionSeed. case_decide; [done|]. case_decide; [done|]. rewrite slotKey_trim.
  unfold storeGet. destruct (io_get io); [done|]. destruct (ks_store k !! slotKey k slot) as [[|b l]|] eqn:Hk; [|done|].
  all: destruct (writeSeed io (TrimSpace slot) seed k) as [k' r] eqn:Hw; cbn [fst].
  all: rewrite <- Hx; eapply writeSeed_other; [|exact Hw]; rewrite slotKey_trim; intros Heq.
  all: rewrite softwareSeed_entry in Hx; case_decide; [done|]; rewrite Heq, Hk in Hx; done.
Qed.

Lemma LoadOrCreateSeed_keeps io io' slot slot' k x :
  softwareSeed k slot' = Some x → softwareSeed (LoadOrCreateSeed io io' slot k).1 slot' = Some x.
Proof.
  intros Hx. unfold LoadOrCreateSeed. destruct (LoadSeed io slot k); [done|]. case_decide; [done|].
  destruct (negb _); [done|]. destruct (io_seed io') as [seed|]; [|done].
  pose proof (ProvisionSeed_keeps io' slot slot' seed k x Hx). by destruct (ProvisionSeed _ _ _ _) as [k' []].
Qed.

(** The seed of a slot is what [LoadSeed] gives when the disk works. *)
Lemma softwareSeed_load io slot k seed : softwareSeed k slot = Some seed → io_get io = None → LoadSeed io slot k = Ok seed.
Proof.
  rewrite softwareSeed_entry. intros Hs Hio. case_decide; [done|]. rewrite LoadSeed_entry by done.
  by destruct (openEntry _ _ _); [injection Hs as ->|].
Qed.

Lemma softwareSeed_trim slot k : softwareSeed k (TrimSpace slot) = softwareSeed k slot.
Proof.
  rewrite !softwareSeed_entry, TrimSpace_idem, slotKey_trim. case_decide; [done|].
  unfold openEntry. by rewrite storageKey_trim.
Qed.

Lemma ProvisionSeed_seed io slot seed k k' :
  io_sound io → ProvisionSeed io slot seed k = (k', Ok ()) → softwareSeed k' slot = Some seed.
Proof.
  intros Hio Hp. unfold ProvisionSeed in Hp. case_decide as Hs; [done|]. case_decide; [done|].
  assert (Hw : writeSeed io (TrimSpace slot) seed k = (k', Ok ())) by (destruct (storeGet _ _ _) as [[[|]|]|]; congruence).
  rewrite <- softwareSeed_trim. apply (writeSeed_seed io _ _ k); [done|by rewrite TrimSpace_idem|done].
Qed.

Lemma ReplaceSeed_seed io slot seed k k' :
  io_sound io → ReplaceSeed io slot seed k = (k', Ok ()) → softwareSeed k' slot = Some seed.
Proof.
  intros Hio Hp. unfold ReplaceSeed in Hp. case_decide as Hs; [done|]. case_decide; [done|].
  rewrite <- softwareSeed_trim. apply (writeSeed_seed io _ _ k); [done|by rewrite TrimSpace_idem|done].
Qed.

(** A slot with a seed refuses to be provisioned. *)
Lemma ProvisionSeed_again io slot seed k x :
  softwareSeed k slot = Some x →
  ProvisionSeed io slot seed k = (k, match io_get io with
    | Some err => if decide (seed = []) then Err (Errorf "seed is required") else Err err
    | None => if decide (seed = []) then Err (Errorf "seed is required") else Err ErrSeedAlreadyExists end).
Proof.
  rewrite softwareSeed_entry. case_decide as Hs; [done|]. intros Hx. unfold ProvisionSeed, storeGet.
  rewrite decide_False by done. rewrite slotKey_trim. destruct (io_get io); case_decide; try done.
  by destruct (ks_store k !! slotKey k slot) as [[|]|].
Qed.

Lemma LoadOrCreateSeed_seed io io' slot k k' seed :
  io_sound io' → LoadOrCreateSeed io io' slot k = (k', Ok seed) → softwareSeed k' slot = Some seed.
Proof.
  intros Hio. unfold LoadOrCreateSeed. destruct (LoadSeed io slot k) as [s|err] eqn:Hl.
  { intros [= <- <-]. by apply (LoadSeed_seed io). }
  case_decide; [done|]. destruct (negb _); [done|]. destruct (io_seed io') as [s|]; [|done].
  destruct (ProvisionSeed io' slot s k) as [k1 [[]|e]] eqn:Hp; intros [= <- <-]. by apply (ProvisionSeed_seed io' _ _ k).
Qed.

#[export] Instance softwareBackend_laws : BackendLaws := {|
  backend_ok (_ : @backend softwareBackend) := True;
  seedOf := softwareSeed;
  io_ok (io : @backendIO softwareBackend) := io_sound io.2;
  law_load_ok _ _ _ _ _ := I;
  law_load_seed io slot k k' seed _ Hio := LoadOrCreateSeed_seed io.1 io.2 slot k k' seed Hio;
  law_load_keeps io slot k slot' seed _ _ := LoadOrCreateSeed_keeps io.1 io.2 slot slot' k seed;
|}.
End software.

(** ** CloudHSM *)

Definition cloudSeed (b : CloudHSMBackend) (slot : string) : option bytes :=
  match ch_token b !! TrimSpace slot with Some (x :: seed) => Some (x :: seed) | _ => None end.

Lemma openSession_token io b : ch_token (openSession io b).1 = ch_token b.
Proof. unfold openSession. destruct (ch_session b); [done|]. by destruct (p11_open io). Qed.

Lemma cloudLoad_token io slot b : ch_token (cloudLoadOrCreateSeed io slot b).1 = ch_token b.
Proof.
  unfold cloudLoadOrCreateSeed. case_decide; [done|]. pose proof (openSession_token io b).
  by destruct (openSession io b) as [b' []].
Qed.

#[export] Instance cloudBackend_laws : @BackendLaws cloudBackend.
Proof.
  refine {|
    backend_ok (_ : @backend cloudBackend) := True;
    seedOf := cloudSeed : @backend cloudBackend → string → option bytes;
    io_ok (_ : @backendIO cloudBackend) := True;
  |}.
  - done.
  - cbn. intros io slot b b' seed _ _ Hl. unfold cloudLoadOrCreateSeed in Hl. case_decide; [done|].
    pose proof (openSession_token io b) as Ht. destruct (openSession io b) as [b1 [[]|]]; [|done]. cbn in Ht.
    injection Hl as -> Hl. unfold cloudSeed. unfold sessionLoadSeed in Hl.
    destruct (p11_loadErr io); [by case_decide|]. rewrite TrimSpace_idem in Hl.
    destruct (ch_token b' !! TrimSpace slot) as [[|]|]; cbn in Hl; [done|congruence|by case_decide].
  - cbn. intros io slot b slot' seed _ _. unfold cloudSeed. by rewrite cloudLoad_token.
Defined.
