(* ===== verification/Signer.v ===== *)
(** * The sign service

    [sign-service/internal/custody/local_hsm.go], [internal/crypto/*.go] and
    [internal/transport/grpc/server.go]: keys are derived and messages signed
    with the seed of the tenant's slot, behind the policy. *)
From S2P Require Import Prelude GoStrings GoNumbers KeyRef HDDerive PolicyEngine KeyStore.

(** ** What is used of the signature libraries *)

(** [HexToHash], [crypto.Sign] and [ed25519.Sign]; the two verifications are
    what a chain does with a signature. *)
Class Signatures `{Crypto} := {
  HexToHash : string → bytes;
  ecdsaSign : bytes → privkey → result bytes;
  ed25519Sign : bytes → bytes → bytes;
  ecdsaVerify : bytes → bytes → bytes → bool;
  ed25519Verify : bytes → bytes → bytes → bool;
}.

Class SignatureLaws `{Signatures} := {
  law_ecdsa : ∀ k p hash sig, ToECDSA k = Ok p → ecdsaSign hash p = Ok sig →
    ecdsaVerify (CompressPubkey (PublicKeyOf p)) hash sig = true;
  law_ed25519 : ∀ seed msg, List.length seed = 32%nat →
    ed25519Verify (ed25519_public seed) msg (ed25519Sign (NewKeyFromSeed seed) msg) = true;
}.

Section signing.
Context `{Signatures}.

Definition SignECDSAMessage (privKeyHex messageHashHex : string) : result string :=
  let hash := HexToHash messageHashHex in
  privByte ← DecodeString privKeyHex;
  privKey ← ToECDSA privByte;
  signature ← ecdsaSign hash privKey;
  Ok (hexEncode signature).

Definition SignEdDSAMessage (privateKeyHex messageHashHex : string) : result string :=
  privateKey ← DecodeString privateKeyHex;
  message ← DecodeString messageHashHex;
  Ok (hexEncode (ed25519Sign privateKey message)).
End signing.

(** ** The custody provider *)

Record LocalHSM := { lh_scheme : string; lh_slotPrefix : string }.

Definition NewLocalHSM (slotPrefix scheme : string) : LocalHSM :=
  let slotPrefix := TrimSpace slotPrefix in
  let scheme := TrimSpace scheme in
  {| lh_scheme := if decide (scheme = "") then "local-hsm-slot" else scheme;
     lh_slotPrefix := if decide (slotPrefix = "") then "master" else slotPrefix |}.

Section custody.
Context `{Signatures} `{Sha256} `{Backend}.

Definition slotID (h : LocalHSM) (tenantID signType : string) : string :=
  BuildTenantSlotID (lh_slotPrefix h) tenantID signType.

Definition custodyDeriveKey (h : LocalHSM) (io : backendIO) (tenantID : string) (ref : KeyRef) (b : backend)
    : backend * result DerivedKey :=
  match backendLoad io (slotID h tenantID (kr_SignType ref)) b with
  | (b, Err err) => (b, Err err)
  | (b, Ok seed) => (b, DerivePublicKey seed ref)
  end.

(** The zeroing of the key after the signature changes a copy of the string's
    bytes; it has no effect to model. *)
Definition custodySignMessage (h : LocalHSM) (io : backendIO) (tenantID : string) (ref : KeyRef) (messageHash : string)
    (b : backend) : backend * result string :=
  match backendLoad io (slotID h tenantID (kr_SignType ref)) b with
  | (b, Err err) => (b, Err err)
  | (b, Ok seed) =>
      (b, signingKey ← DeriveSigningKey seed ref;
          if decide (kr_SignType ref = "ecdsa") then SignECDSAMessage (sk_PrivateKeyHex signingKey) messageHash
          else if decide (kr_SignType ref = "eddsa") then SignEdDSAMessage (sk_PrivateKeyHex signingKey) messageHash
          else Err (Errorf ("unsupported sign type: " +:+ kr_SignType ref)))
  end.

(** ** The gRPC server *)

Record signRequest := { rq_signType : string; rq_keyID : string; rq_messageHash : string }.

Record DeriveKeyResponse := {
  dr_KeyId : string;
  dr_SignType : string;
  dr_DerivationPath : string;
  dr_PublicKey : string * string;
  dr_PublicDerivationSupported : bool;
  dr_CustodyScheme : string;
  dr_AccountPublicKey : option (string * string);
  dr_AccountChainCode : string;
  dr_AccountDerivationPath : string;
}.

Record SignMessageResponse := { sr_Signature : string; sr_Message : string; sr_CustodyScheme : string }.

Definition GetSupportSignWay (signType : string) : bool * string :=
  if decide (normalizeSignType signType ∈ ["ecdsa"; "eddsa"]) then (true, "supported")
  else (false, "unsupported sign type").

(** The server's state: the policy engine and the backend of its custody. *)
Record server := { sv_policy : Engine; sv_backend : backend }.

Definition deriveResponse (h : LocalHSM) (ref : KeyRef) (derived : DerivedKey) : DeriveKeyResponse :=
  let account := bool_decide (dk_AccountPublicKeyHex derived ≠ "" ∨ dk_AccountAlternatePublicKey derived ≠ "") in {|
  dr_KeyId := dk_KeyID derived;
  dr_SignType := kr_SignType ref;
  dr_DerivationPath := dk_DerivationPath derived;
  dr_PublicKey := (dk_PublicKeyHex derived, dk_AlternatePublicKey derived);
  dr_PublicDerivationSupported := dk_PublicDerivationSupported derived;
  dr_CustodyScheme := lh_scheme h;
  dr_AccountPublicKey :=
    if account then Some (dk_AccountPublicKeyHex derived, dk_AccountAlternatePublicKey derived) else None;
  dr_AccountChainCode := if account then dk_AccountChainCodeHex derived else "";
  dr_AccountDerivationPath := if account then dk_AccountDerivationPath derived else "";
|}.

Definition ServeDeriveKey (h : LocalHSM) (now : Z) (io : backendIO) (ctx : incoming) (req : signRequest) (s : server)
    : server * result DeriveKeyResponse :=
  match Authorize now ctx "derive" (rq_signType req) (rq_keyID req) (sv_policy s) with
  | (e, _, Err err) => ({| sv_policy := e; sv_backend := sv_backend s |}, Err err)
  | (e, decision, Ok _) =>
      match ParseKeyID (rq_keyID req) with
      | Err err => ({| sv_policy := e; sv_backend := sv_backend s |}, Err err)
      | Ok ref =>
          let '(b, r) := custodyDeriveKey h io (dc_TenantID decision) ref (sv_backend s) in
          ({| sv_policy := e; sv_backend := b |}, deriveResponse h ref <$> r)
      end
  end.

Definition ServeSignMessage (h : LocalHSM) (now : Z) (io : backendIO) (ctx : incoming) (req : signRequest) (s : server)
    : server * result SignMessageResponse :=
  match Authorize now ctx "sign" (rq_signType req) (rq_keyID req) (sv_policy s) with
  | (e, _, Err err) => ({| sv_policy := e; sv_backend := sv_backend s |}, Err err)
  | (e, decision, Ok _) =>
      let s := {| sv_policy := e; sv_backend := sv_backend s |} in
      let msgHash := TrimSpace (rq_messageHash req) in
      if decide (msgHash = "") then (s, Err (statusError "InvalidArgument" "message_hash is required")) else
      let msgHash := TrimPrefix msgHash "0x" in
      let n := Z.of_nat (List.length (to_bytes msgHash)) in
      if decide (n ≠ 64) then
        (s, Err (statusError "InvalidArgument"
               ("message_hash must be 32 bytes hex (got " +:+ BigString n +:+ " hex chars)")))
      else
      match ParseKeyID (rq_keyID req) with
      | Err err => (s, Err err)
      | Ok ref =>
          let '(b, r) := custodySignMessage h io (dc_TenantID decision) ref msgHash (sv_backend s) in
          ({| sv_policy := e; sv_backend := b |},
           signature ← r;
           Ok {| sr_Signature := signature; sr_Message := "signed"; sr_CustodyScheme := lh_scheme h |})
      end
  end.
End custody.

(** * The sign service as a whole

    Calls of the gRPC server in sequence: what the policy lets through, and
    that a signature belongs to the key that was derived before it. *)
From S2P Require Import KeyPaths HdPub.
From S2P Require Import KeyAgreement.

(** ** What an authorized call has passed *)

Record authorized (e : Engine) (ctx : incoming) (req : signRequest) : Prop := {
  au_token : tokenFromContext ctx = en_authToken e ∧ en_authToken e ≠ "";
  au_tenant : tenantFromContext ctx ≠ "";
  au_allowed : en_allowedTenants e = ∅ ∨ tenantFromContext ctx ∈ en_allowedTenants e;
  au_key : ∃ ref, ParseKeyID (TrimSpace (rq_keyID req)) = Ok ref
    ∧ (normalizeSignType (rq_signType req) = "" ∨ normalizeSignType (rq_signType req) = kr_SignType ref);
}.

Lemma Authorize_authorized now ctx operation req e e' d u :
  TrimSpace operation ∈ ["derive"; "sign"] →
  Authorize now ctx operation (rq_signType req) (rq_keyID req) e = (e', d, Ok u) →
  authorized e ctx req ∧ dc_TenantID d = tenantFromContext ctx.
Proof.
  intros Hop. unfold Authorize. cbv zeta. cbn [dc_Operation dc_SignType dc_TenantID].
  case_decide as Htok; [done|]. case_decide; [done|]. rewrite decide_True by done.
  unfold checkKeyRequest. cbn [dc_TenantID dc_KeyID dc_SignType].
  case_decide as Hten; [done|]. case_decide as Hall; [done|]. case_decide; [done|].
  destruct (negb _); [done|]. destruct (ParseKeyID _) as [ref|] eqn:Hp; [|done]. case_decide as Hst; [done|].
  unfold allow. destruct (countRequest _ _ _ _ _) as [b r]. intros [= <- <- _]. split; [|done].
  split; [split|..]; try done.
  - destruct (decide (tokenFromContext ctx = en_authToken e)); tauto.
  - intros Hn. apply Htok. destruct (decide (tokenFromContext ctx = en_authToken e)) as [E|]; [left; congruence|tauto].
  - destruct (decide (en_allowedTenants e = ∅)); [by left|]. right.
    destruct (decide (tenantFromContext ctx ∈ en_allowedTenants e)); [done|tauto].
  - exists ref. split; [done|]. destruct (decide (normalizeSignType (rq_signType req) = "")); [by left|].
    destruct (decide (normalizeSignType (rq_signType req) = kr_SignType ref)); [by right|tauto].
Qed.

Section system.
Context `{Signatures} `{Sha256} `{Backend} (h : LocalHSM).

(** ** Inversion of the two handlers *)

Lemma ServeDeriveKey_inv now io ctx req s s' resp :
  ServeDeriveKey h now io ctx req s = (s', Ok resp) →
  ∃ ref seed dk, authorized (sv_policy s) ctx req ∧ ParseKeyID (rq_keyID req) = Ok ref
    ∧ backendLoad io (slotID h (tenantFromContext ctx) (kr_SignType ref)) (sv_backend s) = (sv_backend s', Ok seed)
    ∧ DerivePublicKey seed ref = Ok dk ∧ resp = deriveResponse h ref dk.
Proof.
  unfold ServeDeriveKey. destruct (Authorize _ _ _ _ _ _) as [[e d] [u|]] eqn:Ha; [|done].
  apply Authorize_authorized in Ha as [Hauth Ht]; [|by apply (bool_decide_unpack _)].
  destruct (ParseKeyID _) as [ref|] eqn:Hp; [|done]. unfold custodyDeriveKey. rewrite Ht.
  destruct (backendLoad _ _ _) as [b [seed|]] eqn:Hl; [|done].
  destruct (DerivePublicKey seed ref) as [dk|] eqn:Hd; [|done]. intros [= <- <-]. exists ref, seed, dk. done.
Qed.

Lemma ServeSignMessage_inv now io ctx req s s' resp :
  ServeSignMessage h now io ctx req s = (s', Ok resp) →
  ∃ ref seed sk, authorized (sv_policy s) ctx req ∧ ParseKeyID (rq_keyID req) = Ok ref
    ∧ backendLoad io (slotID h (tenantFromContext ctx) (kr_SignType ref)) (sv_backend s) = (sv_backend s', Ok seed)
    ∧ DeriveSigningKey seed ref = Ok sk
    ∧ let msgHash := TrimPrefix (TrimSpace (rq_messageHash req)) "0x" in
      List.length (to_bytes msgHash) = 64%nat
      ∧ (if decide (kr_SignType ref = "ecdsa") then SignECDSAMessage (sk_PrivateKeyHex sk) msgHash
         else SignEdDSAMessage (sk_PrivateKeyHex sk) msgHash) = Ok (sr_Signature resp).
Proof.
  unfold ServeSignMessage. destruct (Authorize _ _ _ _ _ _) as [[e d] [u|]] eqn:Ha; [|done].
  apply Authorize_authorized in Ha as [Hauth Ht]; [|by apply (bool_decide_unpack _)].
  cbv zeta. case_decide; [done|]. case_decide as Hlen; [done|].
  destruct (ParseKeyID _) as [ref|] eqn:Hp; [|done]. unfold custodySignMessage. rewrite Ht.
  destruct (backendLoad _ _ _) as [b [seed|]] eqn:Hl; [|done].
  destruct (DeriveSigningKey seed ref) as [sk|] eqn:Hd; [|done].
  cbn [mbind result_bind sv_backend]. intros Hx. exists ref, seed, sk. destruct (if decide (kr_SignType ref = "ecdsa") then _ else _) as [sig|] eqn:Hsig; [|done].
  injection Hx as <- <-. cbn [sv_backend sr_Signature]. do 3 (split; [done|]). split; [done|]. split; [lia|].
  case_decide; [done|]. by case_decide.
Qed.

(** ** Sequences of calls *)

Inductive signCall : Type :=
  | DeriveCall (now : Z) (io : backendIO) (ctx : incoming) (req : signRequest)
  | SignCall (now : Z) (io : backendIO) (ctx : incoming) (req : signRequest).

Definition callIO (c : signCall) : backendIO := match c with DeriveCall _ io _ _ | SignCall _ io _ _ => io end.

Definition serverStep (s : server) (c : signCall) : server :=
  match c with
  | DeriveCall now io ctx req => (ServeDeriveKey h now io ctx req s).1
  | SignCall now io ctx req => (ServeSignMessage h now io ctx req s).1
  end.

Definition serverRun (calls : list signCall) (s : server) : server := foldl serverStep s calls.

(** A call loads at most one seed. *)
Lemma serverStep_backend s c :
  sv_backend (serverStep s c) = sv_backend s
  ∨ ∃ slot, sv_backend (serverStep s c) = (backendLoad (callIO c) slot (sv_backend s)).1.
Proof.
  destruct c as [now io ctx req|now io ctx req]; cbn [serverStep callIO].
  - unfold ServeDeriveKey. destruct (Authorize _ _ _ _ _ _) as [[e d] []]; [|by left].
    destruct (ParseKeyID _) as [ref|]; [|by left]. right. exists (slotID h (dc_TenantID d) (kr_SignType ref)). unfold custodyDeriveKey.
    by destruct (backendLoad _ _ _) as [b []].
  - unfold ServeSignMessage. destruct (Authorize _ _ _ _ _ _) as [[e d] []]; [|by left].
    cbv zeta. case_decide; [by left|]. case_decide; [by left|].
    destruct (ParseKeyID _) as [ref|]; [|by left]. right. exists (slotID h (dc_TenantID d) (kr_SignType ref)). unfold custodySignMessage. cbn [sv_backend].
    by destruct (backendLoad _ _ _) as [b []].
Qed.

Context `{!BackendLaws}.

Lemma serverRun_keeps calls s slot seed :
  backend_ok (sv_backend s) → Forall (λ c, io_ok (callIO c)) calls → seedOf (sv_backend s) slot = Some seed →
  backend_ok (sv_backend (serverRun calls s)) ∧ seedOf (sv_backend (serverRun calls s)) slot = Some seed.
Proof.
  revert s. induction calls as [|c calls IH]; intros s Hs Hio Hseed; [done|].
  apply Forall_cons in Hio as [Hc Hio]. cbn. apply IH; [|done|].
  - destruct (serverStep_backend s c) as [->|[slot' ->]]; [done|by apply law_load_ok].
  - destruct (serverStep_backend s c) as [->|[slot' ->]]; [done|by apply law_load_keeps].
Qed.
End system.
