(* ===== verification/SignerProperties.v ===== *)
(** * Properties of the keys and of the sign service

    Key ids, derivation paths and keys are the same on both sides of the wire:
    in the sign service, which signs, and in wallet-core, which publishes
    addresses. *)
From S2P Require Import Prelude GoStrings GoNumbers KeyRef RegistryKeys KeyPaths HDDerive HdPub.
From S2P Require Import KeyAgreement.

(** ** A concrete group

    The integers modulo [2^256 - 1] in the place of the curve, and a key
    schedule in the place of HMAC. *)

Definition smallCrypto : Crypto := {|
  privkey := bytes;
  point := Z;
  PublicKeyOf := SetBytes;
  ToECDSA k := if decide (List.length k = 32%nat ∧ 0 < SetBytes k < 2 ^ 256 - 1) then Ok k
               else Err (Errorf "invalid length");
  FromECDSA := id;
  CompressPubkey z := ascii_of_N 2 :: BigBytes z;
  FromECDSAPub z := ascii_of_N 4 :: BigBytes z;
  DecompressPubkey l := match l with [] => Err (Errorf "invalid public key") | _ :: l => Ok (SetBytes l) end;
  UnmarshalPubkey _ := Err (Errorf "invalid secp256k1 public key");
  curveN := 2 ^ 256 - 1;
  ScalarBaseMult := SetBytes;
  curveAdd a b := Some ((a + b) mod (2 ^ 256 - 1));
  hmacSHA512 k d := take 64 (k ++ d ++ replicate 64 one);
  ed25519_public seed := List.rev seed;
|}.

Lemma smallCrypto_laws : @CryptoLaws smallCrypto.
Proof.
  constructor; cbn [hmacSHA512 curveN ToECDSA FromECDSA CompressPubkey DecompressPubkey PublicKeyOf curveAdd
    ScalarBaseMult smallCrypto].
  - intros k d. rewrite length_take, !List.length_app, length_replicate. lia.
  - lia.
  - intros k Hk. exists k. rewrite decide_True by exact Hk. done.
  - done.
  - intros k p. case_decide; [|done]. intros [= <-]. by rewrite BigBytes_value by lia.
  - intros il k k' p p' _. case_decide; [|done]. intros [= <-]. case_decide; [|done]. intros [= <-] Hk. by rewrite Hk.
Qed.

(** ** Properties *)

(** C11. The key that signs is the private key of the key that was published:
    for a key reference with change and index below the hardened range, the
    public key DerivePublicKey reports belongs to the private key
    DeriveSigningKey signs with, under the same key id and path; and the public
    key wallet-core derives by itself from the account key is that one. *)
Theorem signing_key_matches_public_key `{CryptoLaws} seed ref sk :
  0 ≤ kr_Change ref < hardenedOffset → 0 ≤ kr_Index ref < hardenedOffset →
  DeriveSigningKey seed ref = Ok sk →
  ∃ dk, DerivePublicKey seed ref = Ok dk
    ∧ dk_KeyID dk = sk_KeyID sk ∧ dk_DerivationPath dk = sk_DerivationPath sk
    ∧ key_pair (kr_SignType ref) (sk_PrivateKeyHex sk) (dk_PublicKeyHex dk)
    ∧ (dk_PublicDerivationSupported dk = true →
       HdPub.DeriveECDSAChildPublic (dk_AccountPublicKeyHex dk) (dk_AccountChainCodeHex dk) (kr_Change ref) (kr_Index ref)
       = Ok (dk_PublicKeyHex dk, dk_AlternatePublicKey dk)).
Proof.
  intros Hc Hi Hx. destruct (signing_key_pair _ _ _ Hc Hi Hx) as (dk & ? & ? & ? & _ & ?). exists dk. tauto.
Qed.

Definition walletRef : KeyRef :=
  {| kr_SignType := "ecdsa"; kr_Chain := "ethereum"; kr_Account := 0; kr_Change := 0; kr_Index := 7 |}.

Lemma signing_key_matches_public_key_witness :
  ∃ sk dk, @DeriveSigningKey smallCrypto (to_bytes "seed") walletRef = Ok sk
    ∧ @DerivePublicKey smallCrypto (to_bytes "seed") walletRef = Ok dk
    ∧ @key_pair smallCrypto "ecdsa" (sk_PrivateKeyHex sk) (dk_PublicKeyHex dk)
    ∧ @HdPub.DeriveECDSAChildPublic smallCrypto (dk_AccountPublicKeyHex dk) (dk_AccountChainCodeHex dk) 0 7
      = Ok (dk_PublicKeyHex dk, dk_AlternatePublicKey dk).
Proof.
  destruct (@DeriveSigningKey smallCrypto (to_bytes "seed") walletRef) as [sk|e] eqn:Hs;
    [|by vm_compute in Hs].
  assert (Hr : 0 ≤ 0 < hardenedOffset ∧ 0 ≤ 7 < hardenedOffset) by (clear; vm_compute; intuition congruence).
  destruct (@signing_key_matches_public_key smallCrypto smallCrypto_laws (to_bytes "seed") walletRef sk
    (proj1 Hr) (proj2 Hr) Hs) as (dk & Hd & _ & _ & Hp & Hw).
  exists sk, dk. split_and!; [done|exact Hd|exact Hp|]. apply Hw.
  clear -Hd. vm_compute in Hd. by injection Hd as <-.
Defined.

(** C33. A key id names its reference: ParseKeyID reads back every reference
    whose sign type and chain are in normal form and whose indexes are
    unsigned 32-bit integers. *)
Theorem key_id_roundtrip ref : valid_ref ref → ParseKeyID (ID ref) = Ok ref.
Proof. apply ParseKeyID_ID. Qed.

Lemma key_id_roundtrip_witness : ID walletRef = "hd:ecdsa:ethereum:0:0:7" ∧ ParseKeyID (ID walletRef) = Ok walletRef.
Proof.
  split; [reflexivity|]. apply (key_id_roundtrip walletRef).
  unfold valid_ref, is_uint32. cbn. split_and!; try done; try lia; apply (bool_decide_unpack _); exact I.
Defined.

(** wallet-core's registry and the sign service name the same keys: when
    the registry builds a derivation path for a chain it knows, the key id it
    sends with it is one the sign service parses, and the sign service prints
    the same path for it. *)
Theorem registry_and_signer_agree signType chain account change index path :
  is_uint32 account → is_uint32 change → is_uint32 index →
  buildHDDerivationPath signType chain account change index = Ok path →
  ∃ ref, ParseKeyID (buildHDKeyID signType chain account change index) = Ok ref ∧ DerivationPath ref = Ok path
    ∧ kr_Account ref = account ∧ kr_Change ref = change ∧ kr_Index ref = index.
Proof. apply services_agree. Qed.

Lemma registry_and_signer_agree_witness :
  buildHDDerivationPath "ECDSA" "eth" 0 0 7 = Ok "m/44'/60'/0'/0/7"
  ∧ ∃ ref, ParseKeyID (buildHDKeyID "ECDSA" "eth" 0 0 7) = Ok ref ∧ DerivationPath ref = Ok "m/44'/60'/0'/0/7".
Proof.
  split; [reflexivity|].
  destruct (registry_and_signer_agree "ECDSA" "eth" 0 0 7 "m/44'/60'/0'/0/7") as (ref & H1 & H2 & _);
    [unfold is_uint32; lia..|reflexivity|eauto].
Defined.

(** Seeds are not separate for every tenant: a tenant named as the slot key
    of a tenant whose name is not a safe slot id gets that tenant's master
    seed. *)
Theorem tenants_share_seed `{Sha256} slotPrefix tenant signType :
  TrimSpace tenant = tenant → tenant ≠ "" →
  BuildTenantSlotID slotPrefix (tenantSlotKey tenant) signType = BuildTenantSlotID slotPrefix tenant signType.
Proof.
  intros Ht Hne. unfold BuildTenantSlotID. rewrite Ht, tenantSlotKey_trimmed.
  rewrite (decide_False (P := tenant = "")) by done. rewrite (decide_False (P := tenantSlotKey tenant = "")) by apply tenantSlotKey_nonempty.
  by rewrite tenantSlotKey_idem.
Qed.

Lemma tenants_share_seed_witness :
  let sha256 : Sha256 := λ l, take 32 (l ++ replicate 32 zero) in
  isSafeSlotID "Acme" = false ∧ tenantSlotKey "Acme" = "t_41636d65000000000000000000000000"
  ∧ BuildTenantSlotID "master" "t_41636d65000000000000000000000000" "ecdsa" = BuildTenantSlotID "master" "Acme" "ecdsa".
Proof.
  intros sha. split; [reflexivity|]. split; [reflexivity|].
  exact (@tenants_share_seed sha "master" "Acme" "ecdsa" eq_refl ltac:(done)).
Defined.

(** An account index in the upper half of the 32 bits derives a key that is
    not hardened at the account: the index in the path loses the hardened bit
    instead of gaining it. *)
Theorem account_index_wraps ref path :
  hardenedOffset ≤ kr_Account ref < 2 ^ 32 → pathIndexes ref = Ok path →
  path !! 2%nat = Some (kr_Account ref - hardenedOffset) ∧ kr_Account ref - hardenedOffset < hardenedOffset.
Proof.
  intros Ha Hx. unfold pathIndexes in Hx. mbind_inv Hx. unfold hardenedOffset in *. split; [|lia].
  repeat (case_decide; [injection Hx as <-; cbn; by rewrite hardened_large|]). done.
Qed.

Definition highRef : KeyRef :=
  {| kr_SignType := "ecdsa"; kr_Chain := "ethereum"; kr_Account := 2 ^ 31; kr_Change := 0; kr_Index := 7 |}.

Lemma account_index_wraps_witness :
  DerivationPath highRef = Ok "m/44'/60'/2147483648'/0/7"
  ∧ ∃ path, pathIndexes highRef = Ok path ∧ path !! 2%nat = Some 0.
Proof.
  split; [reflexivity|]. eexists. split; [reflexivity|].
  exact (proj1 (account_index_wraps highRef _ ltac:(done) eq_refl)).
Defined.

(** * The sign service *)
From S2P Require Import Prelude GoStrings GoNumbers KeyRef KeyPaths HDDerive HdPub.
From S2P Require Import PolicyEngine KeyStore.
From S2P Require Import Signer.

(** ** A concrete service

    A key schedule in the place of SHA-256 and scrypt, and a cipher and
    signatures that append. *)

Definition smallSha : Sha256 := λ l, take 32 (l ++ replicate 32 zero).

Definition smallVault : VaultCrypto := {|
  scryptKey password salt := Ok (password ++ salt);
  gcmSeal key nonce seed aad := aad ++ seed;
  gcmOpen key nonce c aad :=
    if decide (take (List.length aad) c = aad) then Ok (drop (List.length aad) c)
    else Err (Errorf "cipher: message authentication failed");
|}.

Lemma smallVault_laws : @VaultCryptoLaws smallVault.
Proof. intros key nonce seed aad. cbn. by rewrite take_app_length, decide_True, drop_app_length. Qed.

Definition smallSignatures : @Signatures smallCrypto := {|
  HexToHash s := default [] (hexDecode (to_bytes s));
  ecdsaSign hash (p : @privkey smallCrypto) := Ok (@CompressPubkey smallCrypto (@PublicKeyOf smallCrypto p) ++ hash);
  ed25519Sign key msg := drop 32 key ++ msg;
  ecdsaVerify pub hash sig := bool_decide (sig = pub ++ hash);
  ed25519Verify pub msg sig := bool_decide (sig = pub ++ msg);
|}.

Lemma smallSignatures_laws : @SignatureLaws smallCrypto smallSignatures.
Proof.
  constructor; cbn.
  - intros k p hash sig _ [= <-]. by apply bool_decide_eq_true.
  - intros seed msg Hl. apply bool_decide_eq_true. f_equal. unfold NewKeyFromSeed. by rewrite <- Hl, drop_app_length.
Qed.

(** The disk works, and the random source gives the letters of the seed. *)
Definition workingIO (letter : ascii) : vaultIO :=
  {| io_get := None; io_put := None; io_seed := Ok (replicate 64 letter); io_salt := Ok (replicate 16 one);
     io_nonce := Ok (replicate 12 one) |}.

Definition emptyKeys : Keys :=
  {| ks_store := ∅; ks_namespace := "software"; ks_password := "secret"; ks_autoCreate := true |}.

Definition policyConfig : PolicyConfig :=
  {| pc_AuthToken := "token"; pc_RateLimitWindow := minute; pc_RateLimitMaxRequests := 2; pc_AllowedTenants := ["acme"] |}.

Definition signerCtx : incoming := Some {[ "authorization" := ["Bearer token"]; "x-tenant-id" := ["acme"] ]}.

Definition localHSM : LocalHSM := NewLocalHSM "" "".

Definition keyRequest : signRequest :=
  {| rq_signType := "ecdsa"; rq_keyID := "hd:ecdsa:ethereum:0:0:7"; rq_messageHash := "0x" +:+ Repeat "ab" 32 |}.

Definition smallBackend : Backend := @softwareBackend smallVault smallSha.
Definition smallServer : @server smallBackend := {| sv_policy := New policyConfig; sv_backend := emptyKeys : @backend smallBackend |}.

(** ** Properties *)

(** What makes a signature good for a published key. *)
Definition signature_good `{Signatures} (signType pubHex msgHash sigHex : string) : Prop :=
  ∃ pub sig, DecodeString pubHex = Ok pub ∧ DecodeString sigHex = Ok sig ∧
  if decide (signType = "ecdsa") then ecdsaVerify pub (HexToHash msgHash) sig = true
  else ∃ msg, DecodeString msgHash = Ok msg ∧ ed25519Verify pub msg sig = true.

Lemma DecodeString_hex l : DecodeString (hexEncode l) = Ok l.
Proof. unfold DecodeString. by rewrite hexDecode_Encode. Qed.

Lemma signed_by_pair `{CryptoLaws} `{!Signatures} `{!SignatureLaws} signType priv pub msgHash sig :
  key_pair signType priv pub →
  (if decide (signType = "ecdsa") then SignECDSAMessage priv msgHash else SignEdDSAMessage priv msgHash) = Ok sig →
  signature_good signType pub msgHash sig.
Proof.
  unfold key_pair, signature_good. case_decide.
  - intros (p & Hp & -> & ->) Hx. unfold SignECDSAMessage in Hx. rewrite DecodeString_hex, bind_ok, Hp, bind_ok in Hx.
    mbind_inv Hx. injection Hx as <-. rewrite !DecodeString_hex. do 2 eexists. do 2 (split; [done|]).
    by eapply law_ecdsa.
  - intros (seed & Hl & -> & ->) Hx. unfold SignEdDSAMessage in Hx. rewrite DecodeString_hex, bind_ok in Hx.
    mbind_inv Hx. injection Hx as <-. rewrite !DecodeString_hex. do 2 eexists. do 2 (split; [done|]).
    eexists. split; [exact Ha|]. by apply law_ed25519.
Qed.

(** A signature verifies under the key that was derived before it: after
    DeriveKey has published a tenant's key, whatever derivations and signatures
    of whatever tenants follow, every signature SignMessage then makes for that
    tenant and key is good for the published key. *)
Theorem signature_matches_derived_key
    `{CryptoLaws} `{!Signatures} `{!SignatureLaws} `{Sha256} `{BackendLaws}
    h now io ctx req s s1 resp calls now' io' ctx' req' s2 resp' ref :
  backend_ok (sv_backend s) → io_ok io → Forall (λ c, io_ok (callIO c)) calls → io_ok io' →
  ServeDeriveKey h now io ctx req s = (s1, Ok resp) →
  tenantFromContext ctx' = tenantFromContext ctx → rq_keyID req' = rq_keyID req →
  ParseKeyID (rq_keyID req) = Ok ref → 0 ≤ kr_Change ref < hardenedOffset → 0 ≤ kr_Index ref < hardenedOffset →
  ServeSignMessage h now' io' ctx' req' (serverRun h calls s1) = (s2, Ok resp') →
  signature_good (dr_SignType resp) (fst (dr_PublicKey resp))
    (TrimPrefix (TrimSpace (rq_messageHash req')) "0x") (sr_Signature resp').
Proof.
  intros Hok Hio Hcalls Hio' Hderive Hten Hkey Href Hc Hi Hsign.
  apply ServeDeriveKey_inv in Hderive as (ref0 & seed & dk & _ & Hp & Hl & Hd & ->).
  apply ServeSignMessage_inv in Hsign as (ref1 & seed' & sk & _ & Hp' & Hl' & Hs & _ & Hsig).
  assert (ref0 = ref) as -> by congruence. assert (ref1 = ref) as -> by congruence. rewrite Hten in Hl'.
  set (slot := slotID h (tenantFromContext ctx) (kr_SignType ref)) in *.
  pose proof (law_load_ok io slot _ Hok Hio) as Hok1. rewrite Hl in Hok1.
  apply law_load_seed in Hl; [|done..].
  destruct (serverRun_keeps h calls s1 slot seed Hok1 Hcalls Hl) as [Hok2 Hseed].
  pose proof (law_load_keeps io' slot _ slot seed Hok2 Hio' Hseed) as Hkeep. rewrite Hl' in Hkeep.
  apply law_load_seed in Hl'; [|done..]. cbn [fst] in Hkeep. assert (seed' = seed) as -> by congruence.
  destruct (signing_key_pair _ _ _ Hc Hi Hs) as (dk' & Hd' & _ & _ & _ & Hpair & _).
  assert (dk' = dk) as -> by congruence. by eapply signed_by_pair.
Qed.

(** Another call comes between the derivation and the signature. *)
Definition otherCalls : list (@signCall smallBackend) :=
  [@DeriveCall smallBackend 5 (workingIO "x", workingIO "y") signerCtx
     {| rq_signType := "eddsa"; rq_keyID := "hd:eddsa:solana:0:0:1"; rq_messageHash := "" |}].

Definition derivedReply : server * result DeriveKeyResponse :=
  @ServeDeriveKey smallCrypto smallSha smallBackend localHSM 0 (workingIO "a", workingIO "b") signerCtx keyRequest smallServer.

Definition signedReply : server * result SignMessageResponse :=
  @ServeSignMessage smallCrypto smallSignatures smallSha smallBackend localHSM 9 (workingIO "c", workingIO "d") signerCtx
    keyRequest (@serverRun smallCrypto smallSignatures smallSha smallBackend localHSM otherCalls derivedReply.1).

Lemma workingIO_sound letter : io_sound (workingIO letter).
Proof. unfold io_sound. cbn. split_and!; intros b [= <-]; reflexivity. Qed.

Lemma reply_ok {S A} (x : S * result A) : is_ok x.2 = true → ∃ s a, x = (s, Ok a).
Proof. destruct x as [s [a|]]; [eauto|done]. Qed.

Lemma signature_matches_derived_key_witness :
  ∃ s1 resp s2 resp', derivedReply = (s1, Ok resp) ∧ signedReply = (s2, Ok resp')
    ∧ @signature_good smallCrypto smallSignatures (dr_SignType resp) (fst (dr_PublicKey resp))
        (TrimPrefix (TrimSpace (rq_messageHash keyRequest)) "0x") (sr_Signature resp').
Proof.
  destruct (reply_ok derivedReply) as (s1 & resp & Hd); [vm_compute; reflexivity|].
  destruct (reply_ok signedReply) as (s2 & resp' & Hs); [vm_compute; reflexivity|].
  exists s1, resp, s2, resp'. split; [done|]. split; [done|].
  unfold signedReply in Hs. rewrite Hd in Hs. unfold derivedReply in Hd.
  assert (Hr : 0 ≤ 0 < hardenedOffset ∧ 0 ≤ 7 < hardenedOffset) by (clear; vm_compute; intuition congruence).
  refine (@signature_matches_derived_key smallCrypto smallCrypto_laws smallSignatures smallSignatures_laws smallSha
    smallBackend (@softwareBackend_laws smallVault smallVault_laws smallSha) localHSM
    _ (workingIO "a", workingIO "b") _ _ _ _ _ _ _ (workingIO "c", workingIO "d") _ _ _ _ walletRef
    I (workingIO_sound "b") _ (workingIO_sound "d") Hd _ _ _ (proj1 Hr) (proj2 Hr) Hs).
  - constructor; [exact (workingIO_sound "y")|constructor].
  - reflexivity.
  - reflexivity.
  - vm_compute. reflexivity.
Defined.

(** C26. Keys are out of reach without authorization: a call that signs, or that
    loads or creates any seed, carries the service's token, a tenant the policy
    allows and a key id that parses, of the sign type it names. *)
Theorem only_authorized_calls_sign `{Signatures} `{Sha256} `{Backend} h now io ctx req s s' r :
  ServeSignMessage h now io ctx req s = (s', r) →
  is_ok r = true ∨ sv_backend s' ≠ sv_backend s → authorized (sv_policy s) ctx req.
Proof.
  unfold ServeSignMessage. destruct (Authorize _ _ _ _ _ _) as [[e d] [u|]] eqn:Ha.
  - apply Authorize_authorized in Ha as [Hauth _]; [done|by apply (bool_decide_unpack _)].
  - intros [= <- <-] [Hok|Hb]; done.
Qed.

Lemma only_authorized_calls_sign_witness : authorized (New policyConfig) signerCtx keyRequest.
Proof.
  apply (@only_authorized_calls_sign smallCrypto smallSignatures smallSha smallBackend localHSM 9
    (workingIO "c", workingIO "d") signerCtx keyRequest smallServer _ _ (surjective_pairing _)).
  left. vm_compute. reflexivity.
Defined.

(** C32. The rate limiter is one fixed-window counter per token, tenant and
    operation: whatever calls come in, those counted in a bucket are answered
    as a counter that sees only them and is never deleted, although the engine
    drops expired buckets when it has more than 10000. *)
Theorem rate_limiter_is_fixed_window calls e t k :
  clock_from t calls →
  answersIn e k calls (serve calls e).2
  = fixedWindowRun (en_rateLimitWindow e) (en_rateLimitMaxRequests e) (en_buckets e !! k) (timesIn e k calls).
Proof. intros Hc. apply (serve_fixed_window _ _ _ t); [done|done|by left]. Qed.

Definition signAt (now : Z) : authCall :=
  {| ac_now := now; ac_ctx := signerCtx; ac_operation := "sign"; ac_signType := "ecdsa"; ac_keyID := "hd:ecdsa:ethereum:0:0:7" |}.

Lemma rate_limiter_is_fixed_window_witness :
  answersIn (New policyConfig) "token|acme|sign" (signAt <$> [0; 1; 2; minute]) (serve (signAt <$> [0; 1; 2; minute]) (New policyConfig)).2
  = [true; true; false; true].
Proof.
  rewrite (rate_limiter_is_fixed_window _ _ 0); [vm_compute; reflexivity|].
  cbn. unfold minute. lia.
Defined.

(** Within a time shorter than the window a tenant gets at most twice the
    limit less one authorizations for one operation, whatever came before. *)
Theorem window_grants_bounded cfg before calls t0 t k :
  clock_from t0 before → clock_from t calls →
  Forall (λ c, t ≤ ac_now c < t + en_rateLimitWindow (New cfg)) calls →
  let e := (serve before (New cfg)).1 in
  granted (answersIn e k calls (serve calls e).2) ≤ 2 * en_rateLimitMaxRequests (New cfg) - 1.
Proof.
  intros Hb Hc Ht e. destruct (serve_counts before (New cfg) (New_counts cfg)) as [Hm Hcounts]. fold e in Hm, Hcounts.
  destruct (serve_settings before (New cfg)) as (_ & Hw & Hmax & _). fold e in Hw, Hmax.
  rewrite (serve_fixed_window _ _ _ t k (en_buckets e !! k)) by first [done|by left].
  rewrite <- Hmax. apply (fixedWindowRun_bound _ _ Hm _ _ t).
  - intros b. apply Hcounts.
  - unfold timesIn. apply Forall_fmap. apply Forall_forall. intros c [_ Hin]%list_elem_of_filter.
    rewrite Forall_forall in Ht. rewrite Hw. by apply Ht.
Qed.

Lemma window_grants_bounded_witness :
  granted (answersIn (serve [signAt 0] (New policyConfig)).1 "token|acme|sign" (signAt <$> [minute - 1; minute; minute; minute + 1])
    (serve (signAt <$> [minute - 1; minute; minute; minute + 1]) (serve [signAt 0] (New policyConfig)).1).2) = 3
  ∧ 3 ≤ 2 * 2 - 1.
Proof.
  split; [vm_compute; reflexivity|].
  pose proof (window_grants_bounded policyConfig [signAt 0] (signAt <$> [minute - 1; minute; minute; minute + 1]) 0 (minute - 1)
    "token|acme|sign" ltac:(vm_compute; intuition congruence) ltac:(vm_compute; intuition congruence)
    ltac:(repeat (constructor; [vm_compute; intuition congruence|]); constructor)) as Hb. exact Hb.
Defined.

(** A seed that was provisioned is the one that is loaded, whatever the
    disk does later; provisioning the slot again is refused and keeps it, and
    only ReplaceSeed changes it. *)
Theorem provisioned_seed_stays `{VaultCryptoLaws} `{Sha256} io ioLater slot seed other k k' :
  io_sound io → io_sound ioLater → ProvisionSeed io slot seed k = (k', Ok ()) →
  (∀ ioLoad, io_get ioLoad = None → LoadSeed ioLoad slot k' = Ok seed)
  ∧ is_ok (ProvisionSeed ioLater slot other k').2 = false ∧ (ProvisionSeed ioLater slot other k').1 = k'
  ∧ (∀ k'', ReplaceSeed ioLater slot other k' = (k'', Ok ()) →
       ∀ ioLoad, io_get ioLoad = None → LoadSeed ioLoad slot k'' = Ok other).
Proof.
  intros Hio Hlater Hp. apply ProvisionSeed_seed in Hp as Hs; [|done].
  split; [by intros ioLoad Hl; apply softwareSeed_load|].
  rewrite (ProvisionSeed_again ioLater _ _ _ _ Hs). split; [by destruct (io_get ioLater); case_decide|]. split; [done|].
  intros k'' Hr ioLoad Hl. apply softwareSeed_load; [|done]. by apply (ReplaceSeed_seed ioLater _ _ k').
Qed.

Lemma provisioned_seed_stays_witness :
  ∃ k', @ProvisionSeed smallVault smallSha (workingIO "a") "master:acme:ecdsa" (to_bytes "seed") emptyKeys = (k', Ok ())
    ∧ @LoadSeed smallVault smallSha (workingIO "b") "master:acme:ecdsa" k' = Ok (to_bytes "seed").
Proof.
  destruct (reply_ok (@ProvisionSeed smallVault smallSha (workingIO "a") "master:acme:ecdsa" (to_bytes "seed") emptyKeys))
    as (k' & [] & Hp); [vm_compute; reflexivity|]. exists k'. split; [exact Hp|].
  exact (proj1 (@provisioned_seed_stays smallVault smallVault_laws smallSha (workingIO "a") (workingIO "b") _ _ [] _ _
    (workingIO_sound "a") (workingIO_sound "b") Hp) (workingIO "b") eq_refl).
Defined.
