(* ===== verification/AddressHandler.v ===== *)
(** * The handler that creates addresses

    [transport/http/handler_address.go], with [CreateAddressRequest] and
    [CreateAddressResponse] of [handler_types.go]. *)
From S2P Require Import Prelude GoStrings GoNumbers Ports Calls Handlers KeyRef HDDerive.
From S2P Require Import HdPub.

Record CreateAddressRequest := {
  caq_TenantID : string;
  caq_AccountID : string;
  caq_Chain : string;
  caq_Coin : string;
  caq_Network : string;
  caq_AddressType : string;
  caq_SignType : string;
  caq_MinConfirmations : Z;
  caq_TreasuryAccountID : string;
  caq_ColdAccountID : string;
  caq_AutoSweep : option bool;
  caq_SweepThreshold : string;
  caq_HotBalanceCap : string;
  caq_Model : string;
}.

Record CreateAddressResponse := {
  car_TenantID : string;
  car_AccountID : string;
  car_Chain : string;
  car_Coin : string;
  car_Network : string;
  car_Model : string;
  car_KeyID : string;
  car_PublicKey : string;
  car_Address : string;
  car_SignType : string;
  car_AddressType : string;
  car_DerivationPath : string;
  car_ChangeIndex : Z;
  car_AddressIndex : Z;
  car_CustodyScheme : string;
}.

Definition defaultSignTypeForChain (chain : string) : string :=
  if decide (ToLower (TrimSpace chain) ∈ ["sol"; "solana"; "apt"; "aptos"; "sui"; "ton"; "xlm"; "stellar"]) then "eddsa"
  else "ecdsa".

Section handler.
Context `{Crypto}.
Variable h : WithdrawHandler.

(** The key of a new address: custody scheme and public key.  With public
    derivation the key is derived here from the account's public key. *)
Definition newAddressKey (tenantID signType : string) (p : WalletAddress) : prog (reply (string * string)) :=
  derived ↢ orHttp 502 (call (DeriveKeyCall tenantID signType (wd_KeyID p)));
  publicKey ↢ orHttp 502 (Ret (
    if mk_PublicDerivationSupported derived && EqualFold signType "ecdsa" then
      pair ← DeriveECDSAChildPublic (mk_AccountPublicKey derived) (mk_AccountChainCode derived)
               (wd_ChangeIndex p) (wd_AddressIndex p);
      Ok (fst pair)
    else Ok (mk_PublicKey derived)));
  if decide (TrimSpace publicKey = "") then Ret (HttpError 502 "empty public key") else
  Ret (HttpOk (mk_CustodyScheme derived, publicKey)).

Definition CreateAddress (r : http_request CreateAddressRequest) : prog (reply CreateAddressResponse) :=
  _ ↢ isMethod r "POST";
  _ ↢ guard_http (wh_KeyManager h && wh_ChainAddr h && wh_Registry h) 501 "address create not enabled";
  req ↢ decodeJSONBody r;
  let tenantID := caq_TenantID req in
  let accountID := caq_AccountID req in
  _ ↢ guard_http (all_set [tenantID; accountID; caq_Chain req; caq_Coin req]) 400
        "tenant_id/account_id/chain/coin are required";
  _ ↢ ensureAccountActive h tenantID accountID "address_create";
  _ ↢ guard_http (all_set [caq_Network req]) 400 "network is required";
  meta ↢ orHttp 400 (call (ChainMetadataOf (caq_Chain req) (caq_Network req)));
  _ ↢ guard_http (cm_Enabled meta) 400 "chain/network disabled";
  let signType := if decide (caq_SignType req = "") then defaultSignTypeForChain (caq_Chain req) else caq_SignType req in
  let model := ToLower (TrimSpace (cm_Model meta)) in
  let asked := if decide (caq_Model req = "") then model else caq_Model req in
  _ ↢ guard_http (bool_decide (ToLower (TrimSpace asked) = model)) 400 "model mismatch for chain/network";
  let chain := ToLower (TrimSpace (cm_Chain meta)) in
  let network := ToLower (TrimSpace (caq_Network req)) in
  let coin := ToUpper (TrimSpace (caq_Coin req)) in
  policy ↢ orHttp 400 (call (ChainPolicyOf chain network));
  _ ↢ guard_http (cp_Enabled policy) 400 "chain/network policy disabled";
  let minConfirmations := if decide (cp_RequiredConfirmations policy ≤ 0) then 1 else cp_RequiredConfirmations policy in
  let treasury := if decide (caq_TreasuryAccountID req = "") then "treasury-main" else caq_TreasuryAccountID req in
  prepared ↢ orHttp 500 (call (PrepareAddressCall {|
    pi_TenantID := tenantID; pi_AccountID := accountID; pi_Model := model; pi_Chain := chain; pi_Network := network;
    pi_SignType := signType; pi_AddressType := caq_AddressType req |}));
  let p := pa_Address prepared in
  triple ↢ (if pa_Existing prepared then
              derived ← call (DeriveKeyCall tenantID signType (wd_KeyID p));
              Ret (HttpOk (match derived with Ok d => mk_CustodyScheme d | Err _ => "" end, wd_PublicKey p, wd_Address p))
            else
              key ↢ newAddressKey tenantID signType p;
              address ↢ orHttp 502 (call (ConvertAddressCall chain network (caq_AddressType req) (snd key)));
              Ret (HttpOk (key, address)));
  let '(custodyScheme, publicKey, address) := triple in
  _ ↢ orHttp 500 (call (BindTenantKeyCall tenantID (wd_KeyID p)));
  _ ↢ orHttp 500 (call (UpsertWatchAddressCall {|
    wi_TenantID := tenantID; wi_AccountID := accountID; wi_Model := model; wi_Chain := chain; wi_Coin := coin;
    wi_Network := network; wi_Address := address; wi_KeyID := wd_KeyID p; wi_PublicKey := publicKey;
    wi_SignType := signType; wi_AddressType := caq_AddressType req; wi_DerivationPath := wd_DerivationPath p;
    wi_ChangeIndex := wd_ChangeIndex p; wi_AddressIndex := wd_AddressIndex p; wi_MinConfirmations := minConfirmations;
    wi_UnlockConfirmations := 0; wi_TreasuryAccountID := treasury; wi_ColdAccountID := caq_ColdAccountID req;
    wi_AutoSweep := default false (caq_AutoSweep req); wi_SweepThreshold := caq_SweepThreshold req;
    wi_HotBalanceCap := caq_HotBalanceCap req |}));
  Ret (HttpOk {|
    car_TenantID := tenantID; car_AccountID := accountID; car_Chain := chain; car_Coin := coin; car_Network := network;
    car_Model := model; car_KeyID := wd_KeyID p; car_PublicKey := publicKey; car_Address := address;
    car_SignType := signType; car_AddressType := caq_AddressType req; car_DerivationPath := wd_DerivationPath p;
    car_ChangeIndex := wd_ChangeIndex p; car_AddressIndex := wd_AddressIndex p; car_CustodyScheme := custodyScheme |}).
End handler.

(** * wallet-core's client of the sign service

    [wallet-core/internal/adapters/sign/grpc.go]: the metadata a call carries
    and what is read from the answer. *)
From S2P Require Import Prelude GoStrings GoNumbers Ports KeyRef HDDerive PolicyEngine KeyStore.
From S2P Require Import Signer.

(** The metadata the client appends; without any the context is as it was. *)
Definition attachMetadata (authToken tenantID : string) : incoming :=
  let md : gmap string (list string) := ∅ in
  let md := if decide (TrimSpace authToken ≠ "") then <["authorization" := ["Bearer " +:+ authToken]]> md else md in
  Some (if decide (TrimSpace tenantID ≠ "") then <["x-tenant-id" := [TrimSpace tenantID]]> md else md).

(** The requests of the two calls. *)
Definition deriveRequest (signType keyID : string) : signRequest :=
  {| rq_signType := signType; rq_keyID := keyID; rq_messageHash := "" |}.
Definition messageRequest (signType keyID messageHash : string) : signRequest :=
  {| rq_signType := signType; rq_keyID := keyID; rq_messageHash := messageHash |}.

(** [DeriveKey] once the server has answered. *)
Definition derivedKeyOf (keyID : string) (resp : result DeriveKeyResponse) : result ManagedKey :=
  resp ← resp;
  if decide (TrimSpace (fst (dr_PublicKey resp)) = "") then Err (Errorf "empty derived key response") else
  Ok {|
    mk_KeyID := keyID;
    mk_PublicKey := fst (dr_PublicKey resp);
    mk_AlternatePublicKey := snd (dr_PublicKey resp);
    mk_DerivationPath := dr_DerivationPath resp;
    mk_PublicDerivationSupported := dr_PublicDerivationSupported resp;
    mk_AccountPublicKey := from_option fst "" (dr_AccountPublicKey resp);
    mk_AccountAlternatePublicKey := from_option snd "" (dr_AccountPublicKey resp);
    mk_AccountChainCode := dr_AccountChainCode resp;
    mk_AccountDerivationPath := dr_AccountDerivationPath resp;
    mk_CustodyScheme := dr_CustodyScheme resp;
  |}.

(** [SignMessage] once the server has answered. *)
Definition signatureOf (resp : result SignMessageResponse) : result string :=
  resp ← resp;
  if decide (TrimSpace (sr_Signature resp) = "") then Err (Errorf "empty signature") else Ok (sr_Signature resp).

(** * Creating addresses against a registry and a sign service

    The calls of [CreateAddress] answered by the registry's tables and by the
    sign service's server; the rest of the outside ([AddressOutside]) says when
    a connection works and answers the other calls. *)
From S2P Require Import Calls Handlers RegistryKeys.
From S2P Require Import HdPub.
From S2P Require Import ScanStore Registry.

(** What happens to a request for the sign service: it is lost, or the server
    handles it and the answer arrives or is lost. *)
Inductive delivery `{Backend} : Type :=
  | Lost (e : error)
  | Delivered (now : Z) (io : backendIO)
  | AnswerLost (now : Z) (io : backendIO) (e : error).

Class AddressOutside `{Backend} (C : Type) := {
  ao_db : C → result Z * C;
  ao_rpc : C → delivery * C;
  ao_call : ∀ R, port R → C → R * C;
}.
Arguments ao_call {_ C _ R} c s.

Record address_world `{Backend} (C : Type) := AWorld { aw_registry : registry; aw_server : server; aw_out : C }.
Arguments AWorld {_ C} aw_registry aw_server aw_out.
Arguments aw_registry {_ C} a.
Arguments aw_server {_ C} a.
Arguments aw_out {_ C} a.

(** ** Running a request *)

Lemma run_reply_ok {W} `{PortHandler W} {A B} (p : prog (reply A)) (f : A → prog (reply B)) (w : W) b w' :
  run (x ↢ p; f x) w = (HttpOk b, w') → ∃ a w1, run p w = (HttpOk a, w1) ∧ run (f a) w1 = (HttpOk b, w').
Proof.
  unfold bind_reply. rewrite run_bind. destruct (run p w) as [[a|s m] w1]; cbn; [|done]. eauto.
Qed.

Lemma run_orHttp_ok {W} `{PortHandler W} {A} status (p : prog (result A)) (w : W) a w' :
  run (orHttp status p) w = (HttpOk a, w') → run p w = (Ok a, w').
Proof.
  unfold orHttp. rewrite run_bind. destruct (run p w) as [[a'|e] w1]; cbn; [|done]. by intros [= -> ->].
Qed.

Lemma run_guard_ok {W} `{PortHandler W} ok status msg (w : W) u w' : run (guard_http ok status msg) w = (HttpOk u, w') → ok = true ∧ w' = w.
Proof. unfold guard_http. destruct ok; cbn; [|done]. by intros [= _ ->]. Qed.
Section world.
Context `{Signatures} `{Sha256} `{Backend} `{SqlText} {C : Type} `{!AddressOutside C}.
Variables (to_char : Z → string) (authToken : string) (hsm : LocalHSM).

(** A statement or transaction on the registry's tables. *)
Definition on_registry {A} (op : Z → registry → result (A * registry)) (w : address_world C) : result A * address_world C :=
  let '(r, c) := ao_db (aw_out w) in
  match r with
  | Err e => (Err (Errorf (error_text e)), AWorld (aw_registry w) (aw_server w) c)
  | Ok now =>
      match op now (aw_registry w) with
      | Ok (a, s) => (Ok a, AWorld s (aw_server w) c)
      | Err e => (Err e, AWorld (aw_registry w) (aw_server w) c)
      end
  end.

Definition registry_query {A} (q : registry → result A) : address_world C → result A * address_world C :=
  on_registry (λ _ s, a ← q s; Ok (a, s)).

(** [DeriveKey] of the client. *)
Definition rpcDeriveKey (tenantID signType keyID : string) (w : address_world C) : result ManagedKey * address_world C :=
  let '(d, c) := ao_rpc (aw_out w) in
  let serve now io := ServeDeriveKey hsm now io (attachMetadata authToken tenantID) (deriveRequest signType keyID) (aw_server w) in
  match d with
  | Lost e => (Err e, AWorld (aw_registry w) (aw_server w) c)
  | Delivered now io => (derivedKeyOf keyID (serve now io).2, AWorld (aw_registry w) (serve now io).1 c)
  | AnswerLost now io e => (Err e, AWorld (aw_registry w) (serve now io).1 c)
  end.

(** [SignMessage] of the client. *)
Definition rpcSignMessage (tenantID signType keyID messageHash : string) (w : address_world C)
    : result string * address_world C :=
  let '(d, c) := ao_rpc (aw_out w) in
  let serve now io := ServeSignMessage hsm now io (attachMetadata authToken tenantID)
                        (messageRequest signType keyID messageHash) (aw_server w) in
  match d with
  | Lost e => (Err e, AWorld (aw_registry w) (aw_server w) c)
  | Delivered now io => (signatureOf (serve now io).2, AWorld (aw_registry w) (serve now io).1 c)
  | AnswerLost now io e => (Err e, AWorld (aw_registry w) (serve now io).1 c)
  end.

Definition elsewhere {A} (f : C → A * C) (w : address_world C) : A * address_world C :=
  let '(a, c) := f (aw_out w) in (a, AWorld (aw_registry w) (aw_server w) c).

#[export] Instance address_handler : PortHandler (address_world C) := λ R c,
  match c in port R return address_world C → R * address_world C with
  | AccountOf t a => registry_query (GetAccount to_char t a)
  | Calls.UpsertAccount inp => on_registry (λ now, Registry.UpsertAccount to_char now inp)
  | Calls.ListAccounts t l o => registry_query (Registry.ListAccounts to_char t l o)
  | AddressesOf t a => registry_query (ListAccountAddresses to_char t a)
  | AddressByKeyID t a k => registry_query (GetAccountAddressByKeyID to_char t a k)
  | ChainMetadataOf ch n => registry_query (GetChainMetadata ch n)
  | ChainPolicyOf ch n => registry_query (GetChainPolicy ch n)
  | PrepareAddressCall inp => registry_query (PrepareAddress to_char inp)
  | UpsertWatchAddressCall inp => on_registry (λ now s, s' ← UpsertWatchAddress now inp s; Ok ((), s'))
  | DeriveKeyCall t st k => rpcDeriveKey t st k
  | SignMessage t st k m => rpcSignMessage t st k m
  | c => elsewhere (ao_call c)
  end.

(** ** One call at a time *)

Lemma on_registry_ok {A} (op : Z → registry → result (A * registry)) w a w' :
  on_registry op w = (Ok a, w') → aw_server w' = aw_server w ∧ ∃ now, op now (aw_registry w) = Ok (a, aw_registry w').
Proof.
  unfold on_registry. destruct (ao_db _) as [[now|] c]; [|done].
  destruct (op now _) as [[a' s]|] eqn:Hop; [|done]. intros [= -> <-]. split; [done|]. by exists now.
Qed.

Lemma registry_query_ok {A} (q : registry → result A) w a w' :
  registry_query q w = (Ok a, w') → aw_server w' = aw_server w ∧ aw_registry w' = aw_registry w ∧ q (aw_registry w) = Ok a.
Proof.
  intros Hq. apply on_registry_ok in Hq as [Hs [now Hq]]. mbind_inv Hq. injection Hq as -> <-. done.
Qed.

Lemma registry_query_same {A} (q : registry → result A) w r w' :
  registry_query q w = (r, w') → aw_server w' = aw_server w ∧ aw_registry w' = aw_registry w.
Proof.
  unfold registry_query, on_registry. destruct (ao_db _) as [[now|] c]; [|by intros [= _ <-]].
  destruct (q _) as [a|]; cbn; by intros [= _ <-].
Qed.

Lemma elsewhere_same {A} (f : C → A * C) w a w' :
  elsewhere f w = (a, w') → aw_server w' = aw_server w ∧ aw_registry w' = aw_registry w.
Proof. unfold elsewhere. destruct (f _). by intros [= _ <-]. Qed.

Lemma rpcDeriveKey_ok t st k w d w' :
  rpcDeriveKey t st k w = (Ok d, w') →
  aw_registry w' = aw_registry w ∧ ∃ now io resp c,
    ao_rpc (aw_out w) = (Delivered now io, c)
    ∧ ServeDeriveKey hsm now io (attachMetadata authToken t) (deriveRequest st k) (aw_server w) = (aw_server w', Ok resp)
    ∧ derivedKeyOf k (Ok resp) = Ok d.
Proof.
  unfold rpcDeriveKey. destruct (ao_rpc _) as [[e|now io|now io e] c]; [done| |done].
  destruct (ServeDeriveKey _ _ _ _ _ _) as [s [resp|]] eqn:Hs; [|done]. intros [= Hd <-].
  split; [done|]. exists now, io, resp, c. by split_and!.
Qed.
End world.
