(* ===== verification/AddressSystem.v ===== *)
(** * A created address and its key

    What a successful [CreateAddress] leaves in the registry and in the sign
    service, and that the service keeps it. *)
From S2P Require Import Prelude GoStrings GoNumbers Ports Calls Handlers KeyRef RegistryKeys.
From S2P Require Import KeyPaths HDDerive HdPub.
From S2P Require Import KeyAgreement ScanStore Registry RegistrySystem PolicyEngine KeyStore.
From S2P Require Import Signer.
From S2P Require Import AddressHandler.

Section system.
Context `{CryptoLaws} `{!Signatures} `{Sha256} `{BackendLaws} `{SqlText} {C : Type} `{!AddressOutside C}.
Variables (to_char : Z → string) (authToken : string) (hsm : LocalHSM).
#[local] Instance handled : PortHandler (address_world C) := address_handler to_char authToken hsm.

(** The backend is given sound input and output. *)
Definition delivered_io (d : delivery) : option backendIO :=
  match d with Lost _ => None | Delivered _ io | AnswerLost _ io _ => Some io end.
Hypothesis rpc_io_ok : ∀ c io, delivered_io (ao_rpc c).1 = Some io → io_ok io.

(** The slot of a tenant's calls. *)
Definition tenantSlot (tenantID signType : string) : string :=
  slotID hsm (tenantFromContext (attachMetadata authToken tenantID)) signType.

(** ** The seed of a slot stays *)

Definition has_seed (slot : string) (seed : bytes) (w : address_world C) : Prop :=
  backend_ok (sv_backend (aw_server w)) ∧ seedOf (sv_backend (aw_server w)) slot = Some seed.

Lemma server_keeps_seed c s slot seed :
  io_ok (callIO c) → backend_ok (sv_backend s) → seedOf (sv_backend s) slot = Some seed →
  backend_ok (sv_backend (serverStep hsm s c)) ∧ seedOf (sv_backend (serverStep hsm s c)) slot = Some seed.
Proof.
  intros Hio Hok Hs. apply (serverRun_keeps hsm [c] s slot seed Hok); [|done]. by constructor.
Qed.

Lemma call_keeps_seed slot seed R (c : port R) (w : address_world C) :
  has_seed slot seed w → has_seed slot seed (on_port c w).2.
Proof.
  intros Hw. assert (Hsame : ∀ {A} (x : A * address_world C), aw_server x.2 = aw_server w → has_seed slot seed x.2)
    by (intros A x Hx; unfold has_seed; by rewrite Hx).
  assert (Hreg : ∀ {A} op, has_seed slot seed (@on_registry _ _ _ A op w).2).
  { intros A op. apply Hsame. unfold on_registry. destruct (ao_db _) as [[now|] c']; [|done]. by destruct (op _ _) as [[]|]. }
  assert (Hels : ∀ {A} (f : C → A * C), has_seed slot seed (elsewhere f w).2).
  { intros A f. apply Hsame. unfold elsewhere. by destruct (f _). }
  destruct c; cbn; try apply Hels; try apply Hreg; unfold rpcSignMessage, rpcDeriveKey;
    destruct (ao_rpc (aw_out w)) as [d c'] eqn:Hd.
  - assert (Hk : ∀ now io, delivered_io d = Some io →
      has_seed slot seed (AWorld (aw_registry w) (ServeSignMessage hsm now io (attachMetadata authToken tenantID)
        (messageRequest signType keyID messageHash) (aw_server w)).1 c')).
    { intros now io Hio. destruct Hw as [Hok Hs].
      apply (server_keeps_seed (SignCall now io (attachMetadata authToken tenantID) (messageRequest signType keyID messageHash)));
        [|done|done]. apply (rpc_io_ok (aw_out w)). by rewrite Hd. }
    destruct d; cbn; [exact Hw|by apply Hk..].
  - assert (Hk : ∀ now io, delivered_io d = Some io →
      has_seed slot seed (AWorld (aw_registry w) (ServeDeriveKey hsm now io (attachMetadata authToken tenantID)
        (deriveRequest signType keyID) (aw_server w)).1 c')).
    { intros now io Hio. destruct Hw as [Hok Hs].
      apply (server_keeps_seed (DeriveCall now io (attachMetadata authToken tenantID) (deriveRequest signType keyID)));
        [|done|done]. apply (rpc_io_ok (aw_out w)). by rewrite Hd. }
    destruct d; cbn; [exact Hw|by apply Hk..].
Qed.

Lemma threads_keep_seed {A} slot seed (ps ps' : list (prog A)) (w w' : address_world C) :
  rtc thread_step (ps, w) (ps', w') → has_seed slot seed w → has_seed slot seed w'.
Proof.
  intros Hr Hw. eapply (threads_invariant (λ _, True) (has_seed slot seed)); [|exact Hr| |exact Hw].
  - intros R c k w0 _ Hw0. split; [|done]. by apply call_keeps_seed.
  - by apply Forall_true.
Qed.

(** ** The key of a new address *)

(** The service signs for the key id with the private key of [pub]. *)
Definition signs_for (keyID pub : string) (ref : KeyRef) (seed : bytes) : Prop :=
  ParseKeyID keyID = Ok ref
  ∧ ∀ sk, DeriveSigningKey seed ref = Ok sk → key_pair (kr_SignType ref) (sk_PrivateKeyHex sk) pub.

(** The public key of the account, read back from the answer. *)
Lemma account_of_response ref dk k d pair change index :
  derivedKeyOf k (Ok (deriveResponse hsm ref dk)) = Ok d →
  HdPub.DeriveECDSAChildPublic (mk_AccountPublicKey d) (mk_AccountChainCode d) change index = Ok pair →
  mk_AccountPublicKey d = dk_AccountPublicKeyHex dk ∧ mk_AccountChainCode d = dk_AccountChainCodeHex dk.
Proof.
  unfold derivedKeyOf. rewrite bind_ok. case_decide; [done|]. intros [= <-]. cbn.
  case_bool_decide as Hb; cbn; [done|]. unfold HdPub.DeriveECDSAChildPublic. by case_decide.
Qed.

Lemma newAddressKey_ok t st p (w : address_world C) scheme pub w' sgn ch i idx path :
  backend_ok (sv_backend (aw_server w)) →
  buildHDDerivationPath sgn ch i 0 idx = Ok path → is_uint32 i → 0 ≤ idx < hardenedOffset →
  wd_KeyID p = buildHDKeyID sgn ch i 0 idx → wd_ChangeIndex p = 0 → wd_AddressIndex p = idx →
  run (newAddressKey t st p) w = (HttpOk (scheme, pub), w') →
  aw_registry w' = aw_registry w
  ∧ ∃ ref seed, signs_for (wd_KeyID p) pub ref seed ∧ has_seed (tenantSlot t (kr_SignType ref)) seed w'.
Proof.
  intros Hok Hpath Hi Hidx Hk Hc Hx Hrun. unfold newAddressKey in Hrun.
  apply run_reply_ok in Hrun as (d & w1 & Hd & Hrun). apply run_orHttp_ok in Hd. rewrite run_call in Hd.
  apply rpcDeriveKey_ok in Hd as (Hreg & now & io & resp & c & Hrpc & Hserve & Hd).
  apply run_reply_ok in Hrun as (pub' & w2 & Hpub & Hrun). apply run_orHttp_ok in Hpub. cbn in Hpub.
  injection Hpub as Hpub <-. revert Hrun. case_decide; [done|]. intros [= <- <- <-]. split; [done|].
  apply ServeDeriveKey_inv in Hserve as (ref & seed & dk & _ & Hp & Hl & Hdk & ->). cbn in Hp.
  assert (Hio : io_ok io) by (apply (rpc_io_ok (aw_out w)); by rewrite Hrpc).
  exists ref, seed. split.
  - split; [done|]. intros sk Hsk.
    destruct (services_agree _ _ _ 0 idx _ Hi ltac:(unfold is_uint32; lia) ltac:(unfold is_uint32, hardenedOffset in *; lia) Hpath)
      as (ref' & Hp' & _ & _ & Hc' & Hi'). rewrite <- Hk, Hp in Hp'. injection Hp' as <-.
    destruct (signing_key_pair seed ref sk) as (dk' & Hdk' & _ & _ & _ & Hpair & Hder);
      [unfold hardenedOffset; lia|by rewrite Hi'|done|].
    assert (dk' = dk) as -> by congruence. rewrite Hc', Hi' in Hder.
    destruct (mk_PublicDerivationSupported d && EqualFold st "ecdsa") eqn:Hs.
    + apply andb_prop in Hs as [Hs _]. mbind_inv Hpub. injection Hpub as <-. rewrite Hc, Hx in Ha.
      destruct (account_of_response _ _ _ _ _ _ _ Hd Ha) as [E1 E2]. rewrite E1, E2, Hder in Ha; [by injection Ha as <-|].
      unfold derivedKeyOf in Hd. rewrite bind_ok in Hd. revert Hd. case_decide; [done|]. intros [= <-]. exact Hs.
    + injection Hpub as <-. unfold derivedKeyOf in Hd. rewrite bind_ok in Hd. revert Hd.
      case_decide; [done|]. by intros [= <-].
  - pose proof (law_load_ok io (tenantSlot t (kr_SignType ref)) _ Hok Hio) as Hok'. unfold tenantSlot in Hok'.
    rewrite Hl in Hok'. split; [exact Hok'|]. eapply (law_load_seed io _ _ _ _ Hok Hio Hl).
Qed.

(** ** A successful request *)

(** The same tables and the same service. *)
Definition unchanged (w w' : address_world C) : Prop := aw_registry w' = aw_registry w ∧ aw_server w' = aw_server w.

Lemma unchanged_trans w1 w2 w3 : unchanged w1 w2 → unchanged w2 w3 → unchanged w1 w3.
Proof. intros [Ha Hb] [Hc Hd]. split; congruence. Qed.

Lemma ensureAccountActive_same h t a action (w : address_world C) r w' :
  run (ensureAccountActive h t a action) w = (r, w') → unchanged w w'.
Proof.
  unfold ensureAccountActive. destruct (wh_Registry h); cbn; [|by intros [= _ <-]].
  destruct (registry_query (GetAccount to_char t a) w) as [acc w1] eqn:Hq. intros [= _ <-].
  apply registry_query_same in Hq as [Hs Hr]. by split.
Qed.

Lemma read_ok {A} (c : port (result A)) (q : registry → result A) status (w : address_world C) a w' :
  on_port c w = registry_query q w → run (orHttp status (call c)) w = (HttpOk a, w') →
  unchanged w w' ∧ q (aw_registry w) = Ok a.
Proof.
  intros Hc Hrun. apply run_orHttp_ok in Hrun. rewrite run_call, Hc in Hrun.
  apply registry_query_ok in Hrun as (Hs & Hr & Hq). done.
Qed.

(** What the request asks the registry to write. *)
Definition writes (resp : CreateAddressResponse) (wi : WatchAddressInput) : Prop :=
  wi_TenantID wi = car_TenantID resp ∧ wi_AccountID wi = car_AccountID resp ∧ wi_Model wi = car_Model resp
  ∧ wi_Chain wi = car_Chain resp ∧ wi_Coin wi = car_Coin resp ∧ wi_Network wi = car_Network resp
  ∧ wi_Address wi = car_Address resp ∧ wi_KeyID wi = car_KeyID resp ∧ wi_PublicKey wi = car_PublicKey resp.

(** Where the public key of the answer comes from. *)
Definition key_source (resp : CreateAddressResponse) (p : PreparedAddress) (w w' : address_world C) : Prop :=
  if pa_Existing p then car_PublicKey resp = wd_PublicKey (pa_Address p)
  else ∃ signType scheme w1 w2, unchanged w w1 ∧ aw_server w' = aw_server w2
    ∧ run (newAddressKey (car_TenantID resp) signType (pa_Address p)) w1 = (HttpOk (scheme, car_PublicKey resp), w2).

Lemma key_or_existing tenantID signType chain network addressType prepared (w : address_world C) triple w1 :
  run (if pa_Existing prepared then
         derived ← call (DeriveKeyCall tenantID signType (wd_KeyID (pa_Address prepared)));
         Ret (HttpOk (match derived with Ok d => mk_CustodyScheme d | Err _ => "" end,
                      wd_PublicKey (pa_Address prepared), wd_Address (pa_Address prepared)))
       else
         key ↢ newAddressKey tenantID signType (pa_Address prepared);
         address ↢ orHttp 502 (call (ConvertAddressCall chain network addressType (snd key)));
         Ret (HttpOk (key, address))) w = (HttpOk triple, w1) →
  aw_registry w1 = aw_registry w
  ∧ if pa_Existing prepared then triple.1.2 = wd_PublicKey (pa_Address prepared)
    else ∃ w2, aw_server w1 = aw_server w2 ∧ run (newAddressKey tenantID signType (pa_Address prepared)) w = (HttpOk triple.1, w2).
Proof.
  destruct (pa_Existing prepared).
  - cbn. destruct (rpcDeriveKey _ _ _ _ _ w) as [d w2] eqn:Hd. intros [= <- <-]. split; [|done].
    unfold rpcDeriveKey in Hd. destruct (ao_rpc _) as [[e|now io|now io e] c]; by injection Hd as _ <-.
  - intros Hrun. apply run_reply_ok in Hrun as (key & w2 & Hkey & Hrun).
    apply run_reply_ok in Hrun as (address & w3 & Ha & Hrun). injection Hrun as <- <-.
    apply run_orHttp_ok in Ha. rewrite run_call in Ha. apply elsewhere_same in Ha as [Hs Hr].
    split; [|by exists w2]. rewrite Hr. clear -Hkey. unfold newAddressKey in Hkey.
    apply run_reply_ok in Hkey as (d & w3 & Hd & Hrun). apply run_orHttp_ok in Hd. rewrite run_call in Hd.
    apply rpcDeriveKey_ok in Hd as [Hreg _]. apply run_reply_ok in Hrun as (pub & w4 & Hpub & Hrun).
    apply run_orHttp_ok in Hpub. injection Hpub as _ <-. revert Hrun. case_decide; [done|]. by intros [= _ <-].
Qed.

Lemma CreateAddress_inv h r (w : address_world C) resp w' :
  run (CreateAddress h r) w = (HttpOk resp, w') →
  ∃ inp prepared now wi,
    pi_TenantID inp = car_TenantID resp ∧ pi_AccountID inp = car_AccountID resp
    ∧ PrepareAddress to_char inp (aw_registry w) = Ok prepared
    ∧ UpsertWatchAddress now wi (aw_registry w) = Ok (aw_registry w') ∧ writes resp wi
    ∧ car_KeyID resp = wd_KeyID (pa_Address prepared) ∧ car_AddressIndex resp = wd_AddressIndex (pa_Address prepared)
    ∧ key_source resp prepared w w'.
Proof.
  unfold CreateAddress. intros Hrun.
  apply run_reply_ok in Hrun as (? & ? & [_ ->]%run_guard_ok & Hrun).
  apply run_reply_ok in Hrun as (? & ? & [_ ->]%run_guard_ok & Hrun).
  apply run_reply_ok in Hrun as (req & ? & Hbody & Hrun). injection Hbody as Hbody <-.
  apply run_reply_ok in Hrun as (? & ? & [_ ->]%run_guard_ok & Hrun).
  apply run_reply_ok in Hrun as (? & w1 & Hw1%ensureAccountActive_same & Hrun).
  apply run_reply_ok in Hrun as (? & ? & [_ ->]%run_guard_ok & Hrun).
  apply run_reply_ok in Hrun as (meta & w2 & Hw2 & Hrun). eapply read_ok in Hw2 as [Hw2 _]; [|reflexivity].
  do 2 apply run_reply_ok in Hrun as (? & ? & [_ ->]%run_guard_ok & Hrun).
  apply run_reply_ok in Hrun as (policy & w3 & Hw3 & Hrun). eapply read_ok in Hw3 as [Hw3 _]; [|reflexivity].
  apply run_reply_ok in Hrun as (? & ? & [_ ->]%run_guard_ok & Hrun).
  apply run_reply_ok in Hrun as (prepared & w4 & Hw4 & Hrun). eapply read_ok in Hw4 as [Hw4 Hp]; [|reflexivity].
  assert (Hu3 : unchanged w w3) by (by eapply unchanged_trans; [|eapply unchanged_trans]).
  assert (Hu : unchanged w w4) by (by eapply unchanged_trans).
  rewrite (proj1 Hu3) in Hp.
  apply run_reply_ok in Hrun as (triple & w5 & Hkey & Hrun). apply key_or_existing in Hkey as [Hr5 Hkey].
  destruct triple as [[scheme pub] address]. cbn in Hkey.
  apply run_reply_ok in Hrun as (? & w6 & Hbind & Hrun). apply run_orHttp_ok in Hbind. rewrite run_call in Hbind.
  apply elsewhere_same in Hbind as [Hs6 Hr6].
  apply run_reply_ok in Hrun as (? & w7 & Hup & Hrun). apply run_orHttp_ok in Hup. rewrite run_call in Hup.
  apply on_registry_ok in Hup as [Hs7 [now Hup]]. mbind_inv Hup. injection Hup as _ Hup. subst a.
  injection Hrun as <- <-. rewrite Hr6, Hr5, (proj1 Hu) in Ha.
  eexists _, prepared, now, _. split; [|split; [|split; [exact Hp|split; [exact Ha|]]]]; [done|done|].
  split; [done|]. split; [done|]. split; [done|]. unfold key_source. cbn [car_PublicKey car_TenantID].
  destruct (pa_Existing prepared); [done|]. destruct Hkey as (w8 & Hs8 & Hkey).
  eexists _, scheme, w4, w8. split; [done|]. split; [congruence|exact Hkey].
Qed.
End system.
