(* ===== verification/LedgerAccounting.v ===== *)
(** * The ledger's accounting

    What the four withdrawal tables and the deposit table say about an account
    (a tenant, an account and an asset), as sums over their rows, and the
    accounting invariant that ties those sums to the balance row. *)
From S2P Require Import Prelude GoStrings GoNumbers Ports LedgerTables LedgerWithdraw LedgerDeposit.

(** ** Sums over the tables *)

Definition is_active (st : string) : bool := bool_decide (st = "FROZEN" ∨ st = "BROADCASTED").
Definition is_paid (st : string) : bool := bool_decide (st = "CONFIRMED").

(** A freeze row's amount, if it is on [acct] and its status satisfies [P]. *)
Definition freeze_term (P : string → bool) (acct : account_key) (k : order_key) (f : freeze_row) : Z :=
  if decide (acct = (fst k, fz_account_id f, fz_asset f) ∧ P (fz_status f) = true)
  then amount (fz_amount f) else 0.

Definition deposit_term (P : deposit_row → bool) (acct : account_key) (k : order_key) (r : deposit_row) : Z :=
  if decide (acct = (fst k, de_account_id r, de_coin r) ∧ P r = true)
  then amount (de_amount r) else 0.

Definition still_locked (r : deposit_row) : bool := de_credited r && negb (de_unlocked r).

Definition frozen_total (d : ledger) (acct : account_key) : Z :=
  msum (freeze_term is_active acct) (ledger_freezes d).
Definition paid_total (d : ledger) (acct : account_key) : Z :=
  msum (freeze_term is_paid acct) (ledger_freezes d).
Definition credited_total (d : ledger) (acct : account_key) : Z :=
  msum (deposit_term de_credited acct) (deposit_events d).
Definition locked_total (d : ledger) (acct : account_key) : Z :=
  msum (deposit_term still_locked acct) (deposit_events d).

(** A column of the balance row, [0] where there is no row. *)
Definition held (col : balance_row → string) (d : ledger) (acct : account_key) : Z :=
  match ledger_balances d !! acct with Some b => amount (col b) | None => 0 end.

(** ** The invariant *)

Definition freeze_status_ok (st : string) : Prop :=
  st = "FROZEN" ∨ st = "BROADCASTED" ∨ st = "CONFIRMED" ∨ st = "RELEASED".

Record accounting (d : ledger) : Prop := {
  (** the frozen column is what the open freezes hold *)
  acc_frozen : ∀ acct, held ba_frozen d acct = frozen_total d acct;
  (** nothing is created or lost: what the account has, and what it has paid
      out on chain, is what its deposits credited *)
  acc_conserved : ∀ acct,
    held ba_available d acct + held ba_frozen d acct + paid_total d acct = credited_total d acct;
  (** the locked column is what the credited, not yet final deposits lock *)
  acc_locked : ∀ acct, held ba_withdraw_locked d acct = locked_total d acct;
  acc_freeze_rows : ∀ k f, ledger_freezes d !! k = Some f →
    freeze_status_ok (fz_status f) ∧ is_amount (fz_amount f) = true;
  acc_balance_rows : ∀ k b, ledger_balances d !! k = Some b →
    is_amount (ba_available b) = true ∧ is_amount (ba_frozen b) = true
    ∧ is_amount (ba_withdraw_locked b) = true;
  acc_deposit_rows : ∀ k r, deposit_events d !! k = Some r →
    de_unlocked r = true → de_credited r = true;
}.

(** ** Lemmas on the columns *)

Lemma held_upsert col t a s avail frozen locked d acct :
  held col (upsertBalanceTx t a s avail frozen locked d) acct =
  if decide (acct = (t, a, s)) then
    amount (col {| ba_available := avail; ba_frozen := frozen; ba_withdraw_locked := locked |})
  else held col d acct.
Proof.
  unfold held, upsertBalanceTx. upd.
  case_decide as Hk; [subst; by rewrite lookup_insert_eq|by rewrite lookup_insert_ne].
Qed.

Lemma held_nonneg col d acct : 0 ≤ held col d acct.
Proof. unfold held. destruct (_ !! _); [apply amount_nonneg|done]. Qed.

(** What [getBalanceTx] promises when it returns. *)
Record snapshot_ok (t a s : string) (d : ledger) (bs : BalanceSnapshot) : Prop := {
  sn_available : amount (bs_Available bs) = held ba_available d (t, a, s);
  sn_frozen : amount (bs_Frozen bs) = held ba_frozen d (t, a, s);
  sn_locked : amount (bs_WithdrawLocked bs) = held ba_withdraw_locked d (t, a, s);
  sn_solvent : held ba_withdraw_locked d (t, a, s) ≤ held ba_available d (t, a, s);
  sn_withdrawable : amount (bs_Withdrawable bs)
                    = held ba_available d (t, a, s) - held ba_withdraw_locked d (t, a, s);
  sn_amounts : is_amount (bs_Available bs) = true ∧ is_amount (bs_WithdrawLocked bs) = true
               ∧ is_amount (bs_Withdrawable bs) = true;
}.

Lemma getBalanceTx_ok t a s d bs : getBalanceTx t a s d = Ok bs → snapshot_ok t a s d bs.
Proof.
  unfold getBalanceTx, held. intros H.
  destruct (ledger_balances d !! (t, a, s)) as [b|] eqn:Hb.
  - mbind_inv H. injection H as <-. apply subDecimalString_ok in Ha as (H1 & H2 & H3 & H4 & H5).
    constructor; unfold held; rewrite ?Hb; done.
  - injection H as <-. by constructor; unfold held; rewrite ?Hb.
Qed.

Lemma getBalanceTx_frozen_amount t a s d bs :
  accounting d → getBalanceTx t a s d = Ok bs → is_amount (bs_Frozen bs) = true.
Proof.
  unfold getBalanceTx. intros Hacc H.
  destruct (ledger_balances d !! (t, a, s)) as [b|] eqn:Hb.
  - mbind_inv H. injection H as <-. by apply (acc_balance_rows _ Hacc) in Hb as (? & ? & ?).
  - by injection H as <-.
Qed.

(** The account of a well-formed ledger can be read unless more is locked than
    is available. *)
Lemma getBalanceTx_succeeds t a s d :
  accounting d → held ba_withdraw_locked d (t, a, s) ≤ held ba_available d (t, a, s) →
  ∃ bs, getBalanceTx t a s d = Ok bs.
Proof.
  unfold getBalanceTx, held. intros Hacc Hle.
  destruct (ledger_balances d !! (t, a, s)) as [b|] eqn:Hb; [|by eexists].
  apply (acc_balance_rows _ Hacc) in Hb as (H1 & _ & H3).
  destruct (subDecimalString_succeeds _ _ H1 H3 Hle) as [c Hc].
  unfold computeWithdrawable. rewrite Hc. by eexists.
Qed.

Lemma getBalanceTx_locked_out t a s d :
  accounting d → held ba_available d (t, a, s) < held ba_withdraw_locked d (t, a, s) →
  getBalanceTx t a s d = Err (Errorf "insufficient balance").
Proof.
  unfold getBalanceTx, held. intros Hacc Hlt.
  destruct (ledger_balances d !! (t, a, s)) as [b|] eqn:Hb; [|lia].
  apply (acc_balance_rows _ Hacc) in Hb as (H1 & _ & H3).
  unfold computeWithdrawable. by rewrite subDecimalString_insufficient.
Qed.

(** ** Lemmas on the sums *)

Lemma freeze_term_class P acct k f f' :
  fz_account_id f' = fz_account_id f → fz_asset f' = fz_asset f → fz_amount f' = fz_amount f →
  P (fz_status f') = P (fz_status f) → freeze_term P acct k f' = freeze_term P acct k f.
Proof. unfold freeze_term. by intros -> -> -> ->. Qed.

Lemma freeze_term_nonneg P acct k f : 0 ≤ freeze_term P acct k f.
Proof. unfold freeze_term. case_decide; [apply amount_nonneg|done]. Qed.

Lemma deposit_term_nonneg P acct k r : 0 ≤ deposit_term P acct k r.
Proof. unfold deposit_term. case_decide; [apply amount_nonneg|done]. Qed.

Lemma frozen_total_nonneg d acct : 0 ≤ frozen_total d acct.
Proof. apply msum_nonneg. intros. apply freeze_term_nonneg. Qed.
Lemma paid_total_nonneg d acct : 0 ≤ paid_total d acct.
Proof. apply msum_nonneg. intros. apply freeze_term_nonneg. Qed.

(** One open order never holds more than the frozen column. *)
Lemma frozen_total_ge d k f :
  ledger_freezes d !! k = Some f → is_active (fz_status f) = true →
  amount (fz_amount f) ≤ frozen_total d (fst k, fz_account_id f, fz_asset f).
Proof.
  intros Hk Ha. unfold frozen_total.
  pose proof (msum_ge (freeze_term is_active (fst k, fz_account_id f, fz_asset f))
                (ledger_freezes d) k f) as H.
  unfold freeze_term in H at 2. rewrite decide_True in H by done.
  apply H; [|done]. intros. apply freeze_term_nonneg.
Qed.

Lemma accounting_empty : accounting empty_ledger.
Proof.
  constructor; unfold held, frozen_total, paid_total, credited_total, locked_total; simpl;
    intros; rewrite ?msum_empty, ?lookup_empty in *; done.
Qed.

(** ** One row at a time *)

(** [f'] holds the same money as [f], on the same account. *)
Definition same_claim (f f' : freeze_row) : Prop :=
  fz_account_id f' = fz_account_id f ∧ fz_asset f' = fz_asset f ∧ fz_amount f' = fz_amount f.

Definition claim_account (k : order_key) (f : freeze_row) : account_key :=
  (fst k, fz_account_id f, fz_asset f).

(** The amount of [f] if its status satisfies [P]. *)
Definition claim_if (P : string → bool) (f : freeze_row) : Z :=
  if P (fz_status f) then amount (fz_amount f) else 0.

Lemma freeze_term_claim P acct k f :
  freeze_term P acct k f = if decide (acct = claim_account k f) then claim_if P f else 0.
Proof.
  unfold freeze_term, claim_if, claim_account.
  destruct (P (fz_status f)); repeat case_decide; intuition congruence.
Qed.

Lemma claim_sum_update (P : string → bool) (acct : account_key) (m : gmap order_key freeze_row) (k : order_key) (f f' : freeze_row) :
  m !! k = Some f → same_claim f f' →
  msum (freeze_term P acct) (<[k := f']> m)
  = msum (freeze_term P acct) m
    + (if decide (acct = claim_account k f) then claim_if P f' - claim_if P f else 0).
Proof.
  intros Hk (H1 & H2 & H3). rewrite (msum_update _ _ _ f) by done.
  rewrite !freeze_term_claim.
  assert (claim_account k f' = claim_account k f) as -> by (unfold claim_account; by rewrite H1, H2).
  case_decide; lia.
Qed.

(** The withdrawal side of the invariant, for a step that rewrites the freeze
    row under [k] and the balance row of its account. *)
Lemma accounting_claim_step d d' k f f' b :
  accounting d →
  ledger_freezes d !! k = Some f → same_claim f f' → freeze_status_ok (fz_status f') →
  ledger_freezes d' = <[k := f']> (ledger_freezes d) →
  deposit_events d' = deposit_events d →
  ledger_balances d' = <[claim_account k f := b]> (ledger_balances d) →
  is_amount (ba_available b) = true → is_amount (ba_frozen b) = true →
  is_amount (ba_withdraw_locked b) = true →
  amount (ba_frozen b) = held ba_frozen d (claim_account k f)
                         + (claim_if is_active f' - claim_if is_active f) →
  amount (ba_available b) + (claim_if is_active f' - claim_if is_active f)
    + (claim_if is_paid f' - claim_if is_paid f) = held ba_available d (claim_account k f) →
  amount (ba_withdraw_locked b) = held ba_withdraw_locked d (claim_account k f) →
  accounting d'.
Proof.
  intros Hacc Hk Hsame Hst Hfz Hdep Hbal Ha Hf Hl HF HA HL.
  assert (Hheld : ∀ col acct, held col d' acct =
            if decide (acct = claim_account k f) then amount (col b) else held col d acct).
  { intros col acct. unfold held. rewrite Hbal.
    case_decide; [subst; by rewrite lookup_insert_eq|by rewrite lookup_insert_ne]. }
  constructor; intros.
  - unfold frozen_total. rewrite Hfz, (claim_sum_update _ _ _ _ f) by done.
    fold (frozen_total d acct). rewrite <- (acc_frozen _ Hacc), Hheld.
    case_decide; subst; lia.
  - unfold paid_total, credited_total. rewrite Hfz, Hdep, (claim_sum_update _ _ _ _ f) by done.
    fold (paid_total d acct) (credited_total d acct).
    rewrite <- (acc_conserved _ Hacc), !Hheld. case_decide; subst; lia.
  - unfold locked_total. rewrite Hdep. fold (locked_total d acct).
    rewrite <- (acc_locked _ Hacc), Hheld. case_decide; subst; lia.
  - match goal with H : ledger_freezes d' !! _ = Some _ |- _ => rewrite Hfz in H;
      apply lookup_insert_Some in H as [[<- <-]|[_ H]] end.
    + destruct Hsame as (_ & _ & ->). split; [done|]. by eapply acc_freeze_rows.
    + by eapply acc_freeze_rows.
  - match goal with H : ledger_balances d' !! _ = Some _ |- _ => rewrite Hbal in H;
      apply lookup_insert_Some in H as [[<- <-]|[_ H]] end; [done|].
    by eapply acc_balance_rows.
  - match goal with H : deposit_events d' !! _ = Some _ |- _ => rewrite Hdep in H end.
    by eapply acc_deposit_rows.
Qed.

(** A step that touches neither the money nor the class of any row. *)
Lemma accounting_quiet_step d d' k (g : freeze_row → freeze_row) :
  accounting d →
  ledger_freezes d' = sql_update k g (ledger_freezes d) →
  deposit_events d' = deposit_events d →
  ledger_balances d' = ledger_balances d →
  (∀ f, ledger_freezes d !! k = Some f →
     same_claim f (g f) ∧ freeze_status_ok (fz_status (g f))
     ∧ is_active (fz_status (g f)) = is_active (fz_status f)
     ∧ is_paid (fz_status (g f)) = is_paid (fz_status f)) →
  accounting d'.
Proof.
  intros Hacc Hfz Hdep Hbal Hg.
  assert (Hheld : ∀ col acct, held col d' acct = held col d acct)
    by (intros; unfold held; by rewrite Hbal).
  assert (Hsum : ∀ P acct,
            (∀ f, ledger_freezes d !! k = Some f → P (fz_status (g f)) = P (fz_status f)) →
            msum (freeze_term P acct) (ledger_freezes d')
            = msum (freeze_term P acct) (ledger_freezes d)).
  { intros P acct HP. rewrite Hfz. unfold sql_update.
    destruct (ledger_freezes d !! k) as [f|] eqn:Hk; [|done].
    destruct (Hg f eq_refl) as (Hsame & _).
    rewrite (claim_sum_update _ _ _ _ f) by done.
    destruct Hsame as (_ & _ & Hamt). unfold claim_if. rewrite (HP f eq_refl), Hamt.
    case_decide; lia. }
  constructor; intros.
  - rewrite Hheld, (acc_frozen _ Hacc). unfold frozen_total. symmetry. apply Hsum.
    intros f Hf. by apply Hg in Hf as (_ & _ & ? & _).
  - rewrite !Hheld. unfold paid_total, credited_total. rewrite Hdep, Hsum.
    + by apply acc_conserved.
    + intros f Hf. by apply Hg in Hf as (_ & _ & _ & ?).
  - rewrite Hheld, (acc_locked _ Hacc). unfold locked_total. by rewrite Hdep.
  - match goal with H : ledger_freezes d' !! _ = Some _ |- _ => rewrite Hfz, sql_update_lookup in H end.
    case_decide as Hk'; [subst k0|by eapply acc_freeze_rows].
    destruct (ledger_freezes d !! k) as [f0|] eqn:Hk; [|done]. simplify_eq/=.
    destruct (Hg f0 eq_refl) as ((_ & _ & Hamt) & Hst & _). split; [done|].
    rewrite Hamt. by eapply acc_freeze_rows.
  - match goal with H : ledger_balances d' !! _ = Some _ |- _ => rewrite Hbal in H end.
    by eapply acc_balance_rows.
  - match goal with H : deposit_events d' !! _ = Some _ |- _ => rewrite Hdep in H end.
    by eapply acc_deposit_rows.
Qed.

(** A step that leaves the three tables alone. *)
Lemma accounting_unchanged d d' :
  accounting d → ledger_freezes d' = ledger_freezes d → deposit_events d' = deposit_events d →
  ledger_balances d' = ledger_balances d → accounting d'.
Proof.
  intros [H1 H2 H3 H4 H5 H6] Hf Hd Hb.
  constructor; unfold held, frozen_total, paid_total, credited_total, locked_total in *;
    rewrite ?Hf, ?Hd, ?Hb; done.
Qed.

(** *** The withdrawal operations *)

(** Solve the side conditions of a claim step: everything is a record update
    and the statuses are literals. *)
Ltac claim_side :=
  unfold update, updateFreeze, updateJob, setAttemptStatus, insertEntry, insertJournal,
    setFreezeEntryStatus, upsertBalanceTx, cancelEntries; cbn;
  first [done | reflexivity | unfold freeze_status_ok; tauto].

(** Evaluate the class of a literal status. *)
Ltac status_lit :=
  repeat match goal with
  | |- context [is_active ?s] =>
      match eval vm_compute in (is_active s) with
      | true => change (is_active s) with true | false => change (is_active s) with false end
  | |- context [is_paid ?s] =>
      match eval vm_compute in (is_paid s) with
      | true => change (is_paid s) with true | false => change (is_paid s) with false end
  end.

(** The numeric side conditions: the classes of the old status are rewritten
    from the hypotheses. *)
Ltac claim_num :=
  unfold claim_if, claim_account;
  cbn [fz_status fz_amount fz_account_id fz_asset fst ba_available ba_frozen ba_withdraw_locked];
  repeat match goal with
  | H : is_active (fz_status _) = _ |- _ => rewrite H; clear H
  | H : is_paid (fz_status _) = _ |- _ => rewrite H; clear H
  end;
  status_lit; cbv iota; first [done | lia].

(** The classes of an open order. *)
Lemma open_status st :
  st = "BROADCASTED" ∨ st = "FROZEN" → is_active st = true ∧ is_paid st = false.
Proof. by intros [-> | ->]. Qed.

Lemma freezeNewOrder_accounting t a o c n s amt req d d' :
  accounting d → ledger_freezes d !! (t, o) = None →
  freezeNewOrder t a o c n s amt req d = Ok d' → accounting d'.
Proof.
  intros Hacc Hnew H. unfold freezeNewOrder in H.
  mbind_inv H. mbind_inv H. mbind_inv H. mbind_inv H. mbind_inv H. injection H as <-.
  pose proof (getBalanceTx_frozen_amount _ _ _ _ _ Hacc Ha) as Hfz.
  apply getBalanceTx_ok in Ha as [Hav Hfr Hlk Hsol _ (Hia & Hil & _)].
  apply subDecimalString_ok in Ha1 as (_ & Hamt & _).
  apply subDecimalString_ok in Ha2 as (_ & _ & Hi3 & Hle & Hav').
  apply addDecimalString_ok in Ha3 as (_ & _ & Hi4 & Hfr').
  set (f := {| fz_account_id := a; fz_chain := c; fz_network := n; fz_asset := s; fz_amount := amt;
               fz_status := "FROZEN"; fz_tx_hash := ""; fz_reason := ""; fz_confirmations := 0;
               fz_required_confirmations := req |}).
  match goal with |- accounting ?x => set (d' := x) end.
  assert (Hheld : ∀ col acct, held col d' acct =
            if decide (acct = (t, a, s)) then amount (col
              {| ba_available := a3; ba_frozen := a4; ba_withdraw_locked := bs_WithdrawLocked a0 |})
            else held col d acct) by (intros; apply held_upsert).
  assert (Hfz' : ledger_freezes d' = <[(t, o) := f]> (ledger_freezes d)).
  { unfold d'. upd. by rewrite sql_insert_nothing_new. }
  assert (Hterm : ∀ P acct, msum (freeze_term P acct) (ledger_freezes d')
            = msum (freeze_term P acct) (ledger_freezes d)
              + (if decide (acct = (t, a, s)) then if P "FROZEN" then amount amt else 0 else 0)).
  { intros P acct. rewrite Hfz', msum_insert_new, freeze_term_claim by done.
    unfold claim_account, claim_if. simpl. lia. }
  constructor; intros.
  - unfold frozen_total. rewrite Hterm. fold (frozen_total d acct).
    rewrite <- (acc_frozen _ Hacc), Hheld. case_decide; subst; simpl; lia.
  - unfold paid_total. rewrite Hterm. fold (paid_total d acct).
    rewrite !Hheld. change (credited_total d' acct) with (credited_total d acct).
    rewrite <- (acc_conserved _ Hacc). case_decide; subst; simpl; lia.
  - change (locked_total d' acct) with (locked_total d acct).
    rewrite <- (acc_locked _ Hacc), Hheld. case_decide; subst; simpl; lia.
  - match goal with H : ledger_freezes d' !! _ = Some _ |- _ => rewrite Hfz' in H;
      apply lookup_insert_Some in H as [[<- <-]|[_ H]]; [|by eapply acc_freeze_rows] end.
    split; [by left|done].
  - match goal with H : ledger_balances d' !! _ = Some _ |- _ => unfold d' in H; upd;
      apply lookup_insert_Some in H as [[<- <-]|[_ H]]; [done|by eapply acc_balance_rows] end.
  - by eapply acc_deposit_rows.
Qed.

Lemma freezeWithdrawTx_accounting t a o c n s amt req d d' :
  accounting d → freezeWithdrawTx t a o c n s amt req d = Ok d' → accounting d'.
Proof.
  intros Hacc. unfold freezeWithdrawTx. case_decide; [done|].
  destruct (ledger_freezes d !! (t, o)) eqn:Hk.
  - case_decide; intros [= <-]. done.
  - by apply freezeNewOrder_accounting.
Qed.

Lemma QueueWithdraw_accounting now inp d d' :
  accounting d → QueueWithdraw now inp d = Ok d' → accounting d'.
Proof.
  intros Hacc H. unfold QueueWithdraw in H. mbind_inv H. injection H as <-.
  apply freezeWithdrawTx_accounting in Ha; [|done].
  by apply (accounting_unchanged a).
Qed.

Lemma ConfirmWithdraw_accounting now t a o h d d' :
  accounting d → ConfirmWithdraw now t a o h d = Ok d' → accounting d'.
Proof.
  intros Hacc H. unfold ConfirmWithdraw in H. mbind_inv H.
  apply from_option_err_ok in Ha. case_decide; [by injection H as <-|].
  case_decide as Hst; [done|]. injection H as <-.
  eapply (accounting_quiet_step d _ (t, o)); [done|claim_side..|].
  intros f Hf. simplify_eq. split_and!; try claim_side; rewrite Hst; claim_side.
Qed.

Lemma ConfirmWithdrawOnChain_accounting now t o h cf rc d d' :
  accounting d → ConfirmWithdrawOnChain now t o h cf rc d = Ok d' → accounting d'.
Proof.
  intros Hacc H. unfold ConfirmWithdrawOnChain in H. mbind_inv H.
  apply from_option_err_ok in Ha. case_decide as Hst.
  { injection H as <-. eapply (accounting_quiet_step d _ (t, o)); [done|claim_side..|].
    intros f Hf. simplify_eq. split_and!; claim_side. }
  destruct (decide (fz_status a ≠ _ ∧ _)) as [|Hop]; [done|].
  assert (fz_status a = "BROADCASTED" ∨ fz_status a = "FROZEN") as [Hact Hnp]%open_status.
  { destruct (decide (fz_status a = "BROADCASTED")); [by left|]. right. apply dec_stable. tauto. }
  match type of H with (if ?c then _ else _) = _ => destruct c end.
  { injection H as <-. eapply (accounting_quiet_step d _ (t, o)); [done|claim_side..|].
    intros f Hf. simplify_eq. split_and!; try claim_side; rewrite ?Hact, ?Hnp; claim_side. }
  mbind_inv H. mbind_inv H. injection H as <-.
  apply getBalanceTx_ok in Ha0 as [Hav Hfr Hlk Hsol _ (Hia & Hil & _)].
  apply subDecimalString_ok in Ha1 as (_ & Hamt & Hi & Hle & Hf').
  eapply (accounting_claim_step d _ (t, o) a); [done|done| | | |claim_side|claim_side| | | | | |].
  3: { unfold update, updateFreeze; cbn. by apply sql_update_some. }
  all: try claim_side; claim_num.
Qed.

(** Giving an open order's amount back, whatever is written to the other
    columns of its row. *)
Lemma unfreeze_accounting t o f avail d0 d d1 d' f' :
  accounting d →
  ledger_freezes d !! (t, o) = Some f → same_claim f f' → fz_status f' = "RELEASED" →
  is_active (fz_status f) = true → is_paid (fz_status f) = false →
  unfreezeBalance t (fz_account_id f) f d0 = Ok (avail, d1) →
  ledger_balances d0 = ledger_balances d →
  ledger_balances d' = ledger_balances d1 →
  ledger_freezes d' = <[(t, o) := f']> (ledger_freezes d) →
  deposit_events d' = deposit_events d →
  accounting d'.
Proof.
  intros Hacc Hk Hsame Hst Hact Hnp H Hb0 Hb1 Hfz Hdep. unfold unfreezeBalance in H.
  mbind_inv H. mbind_inv H. mbind_inv H. injection H as <- <-.
  assert (getBalanceTx t (fz_account_id f) (fz_asset f) d = Ok a) as Hg.
  { unfold getBalanceTx in *. by rewrite Hb0 in Ha. }
  pose proof (getBalanceTx_frozen_amount _ _ _ _ _ Hacc Hg).
  apply getBalanceTx_ok in Hg as [Hav Hfr Hlk Hsol _ (Hia & Hil & _)].
  apply addDecimalString_ok in Ha0 as (_ & Hamt & Hi & Hav').
  apply subDecimalString_ok in Ha1 as (_ & _ & Hi' & Hle & Hf').
  eapply (accounting_claim_step d _ (t, o) f f'); [done..| | |done| | | | | | |].
  3: { rewrite Hb1. unfold upsertBalanceTx, update; cbn. by rewrite Hb0. }
  all: rewrite ?Hst; try claim_side; unfold claim_if; rewrite ?Hst; claim_num.
Qed.

Lemma FailWithdrawOnChain_accounting now t o h reason cf d d' :
  accounting d → FailWithdrawOnChain now t o h reason cf d = Ok d' → accounting d'.
Proof.
  intros Hacc H. unfold FailWithdrawOnChain in H. mbind_inv H.
  apply from_option_err_ok in Ha.
  case_decide as Hr; [injection H as <-; by apply (accounting_unchanged d)|].
  case_decide as Hc; [injection H as <-; by apply (accounting_unchanged d)|].
  case_decide; [injection H as <-; by apply (accounting_unchanged d)|].
  mbind_inv H. destruct a0 as [avail d1]. injection H as <-.
  destruct (acc_freeze_rows _ Hacc _ _ Ha) as [Hst _].
  assert (fz_status a = "BROADCASTED" ∨ fz_status a = "FROZEN") as [Hact Hnp]%open_status
    by (unfold freeze_status_ok in Hst; tauto).
  assert (ledger_freezes d1 = ledger_freezes d ∧ deposit_events d1 = deposit_events d) as [Hf1 Hd1].
  { unfold unfreezeBalance in Ha0. mbind_inv Ha0. mbind_inv Ha0. mbind_inv Ha0.
    injection Ha0 as <- <-. done. }
  eapply (unfreeze_accounting t o a avail d d d1); [done|done| | |done|done|done|done| | |].
  4: { unfold update, updateFreeze; cbn. rewrite Hf1. by apply sql_update_some. }
  all: claim_side.
Qed.

(** [a] is the account of the order, if there is such an order. *)
Definition order_owner (t a o : string) (d : ledger) : Prop :=
  ∀ f, ledger_freezes d !! (t, o) = Some f → fz_account_id f = a.
#[export] Instance order_owner_dec t a o d : Decision (order_owner t a o d).
Proof.
  refine (match ledger_freezes d !! (t, o) as r return ledger_freezes d !! (t, o) = r → _ with
          | Some f => λ E, cast_if (decide (fz_account_id f = a)) | None => λ E, left _ end eq_refl);
    unfold order_owner; rewrite E; naive_solver.
Defined.

Lemma ReleaseWithdraw_accounting now t a o reason d d' :
  accounting d → order_owner t a o d → ReleaseWithdraw now t a o reason d = Ok d' → accounting d'.
Proof.
  intros Hacc Hown H. unfold ReleaseWithdraw in H. mbind_inv H.
  apply from_option_err_ok in Ha. specialize (Hown _ Ha). subst a.
  case_decide as Hr; [by injection H as <-|].
  destruct (decide (fz_status a0 ≠ _ ∧ _)) as [|Hop]; [done|].
  assert (fz_status a0 = "BROADCASTED" ∨ fz_status a0 = "FROZEN") as [Hact Hnp]%open_status.
  { destruct (decide (fz_status a0 = "BROADCASTED")); [by left|]. right. apply dec_stable. tauto. }
  mbind_inv H. destruct a as [avail d1]. injection H as <-.
  assert (Hu := Ha0). unfold unfreezeBalance in Hu. mbind_inv Hu. mbind_inv Hu. mbind_inv Hu.
  injection Hu as <- <-.
  eapply (unfreeze_accounting t o a0 _ _ d); [done|done| | |done|done|exact Ha0| | | |].
  5: { unfold update, updateFreeze; cbn. by apply sql_update_some. }
  all: claim_side.
Qed.

(** *** The deposit operation *)

Definition balance_rows_ok (d : ledger) : Prop :=
  ∀ k b, ledger_balances d !! k = Some b →
    is_amount (ba_available b) = true ∧ is_amount (ba_frozen b) = true
    ∧ is_amount (ba_withdraw_locked b) = true.

(** [d'] is [d] after moving [dA] available and [dL] locked on [acct]. *)
Record moved (acct : account_key) (dA dL : Z) (d d' : ledger) : Prop := {
  mv_available : ∀ x, held ba_available d' x = held ba_available d x + (if decide (x = acct) then dA else 0);
  mv_frozen : ∀ x, held ba_frozen d' x = held ba_frozen d x;
  mv_locked : ∀ x, held ba_withdraw_locked d' x = held ba_withdraw_locked d x + (if decide (x = acct) then dL else 0);
  mv_freezes : ledger_freezes d' = ledger_freezes d;
  mv_deposits : deposit_events d' = deposit_events d;
  mv_rows : balance_rows_ok d → balance_rows_ok d';
}.

Lemma moved_refl acct d : moved acct 0 0 d d.
Proof. constructor; intros; try case_decide; done || lia. Qed.

Lemma moved_cast acct a l a' l' d d' : moved acct a l d d' → a = a' → l = l' → moved acct a' l' d d'.
Proof. by intros ? <- <-. Qed.

Lemma moved_trans acct a1 l1 a2 l2 d1 d2 d3 :
  moved acct a1 l1 d1 d2 → moved acct a2 l2 d2 d3 → moved acct (a1 + a2) (l1 + l2) d1 d3.
Proof.
  intros [H1 H2 H3 H4 H5 H6] [G1 G2 G3 G4 G5 G6]. constructor; intros.
  - rewrite G1, H1. case_decide; lia.
  - by rewrite G2, H2.
  - rewrite G3, H3. case_decide; lia.
  - congruence.
  - congruence.
  - auto.
Qed.

Lemma snapshot_frozen_amount t a s d bs :
  balance_rows_ok d → getBalanceTx t a s d = Ok bs → is_amount (bs_Frozen bs) = true.
Proof.
  unfold getBalanceTx. intros Hrows H.
  destruct (ledger_balances d !! (t, a, s)) as [b|] eqn:Hb.
  - mbind_inv H. injection H as <-. by apply Hrows in Hb as (? & ? & ?).
  - by injection H as <-.
Qed.

(** Writing the balance row after reading it, and a journal line. *)
Lemma upsert_moved t a s d bs avail locked bt bi side amt after dA dL :
  getBalanceTx t a s d = Ok bs →
  is_amount avail = true → is_amount locked = true →
  amount avail = held ba_available d (t, a, s) + dA →
  amount locked = held ba_withdraw_locked d (t, a, s) + dL →
  moved (t, a, s) dA dL d
    (insertJournal t bt bi a s side amt after (upsertBalanceTx t a s avail (bs_Frozen bs) locked d)).
Proof.
  intros Hbs Hia Hil HA HL. pose proof (getBalanceTx_ok _ _ _ _ _ Hbs) as [_ Hfr _ _ _ _].
  assert (Hheld : ∀ col x, held col (insertJournal t bt bi a s side amt after
            (upsertBalanceTx t a s avail (bs_Frozen bs) locked d)) x =
            if decide (x = (t, a, s)) then amount (col
              {| ba_available := avail; ba_frozen := bs_Frozen bs; ba_withdraw_locked := locked |})
            else held col d x) by (intros; apply held_upsert).
  constructor; intros; try done.
  - rewrite Hheld. case_decide; subst; simpl; lia.
  - rewrite Hheld. case_decide; subst; simpl; lia.
  - rewrite Hheld. case_decide; subst; simpl; lia.
  - intros k b Hk. unfold insertJournal, upsertBalanceTx in Hk. upd.
    apply lookup_insert_Some in Hk as [[<- <-]|[_ Hk]]; [|by eapply H].
    split_and!; [done| |done]. by eapply snapshot_frozen_amount.
Qed.

Definition deposit_account (inp : DepositCreditInput) : account_key :=
  (dc_TenantID inp, dc_AccountID inp, dc_Coin inp).

Lemma creditStep_moved inp d d' :
  creditStep inp d = Ok d' →
  moved (deposit_account inp) (amount (dc_Amount inp)) (amount (dc_Amount inp)) d d'.
Proof.
  intros H. unfold creditStep in H. mbind_inv H. mbind_inv H. mbind_inv H. injection H as <-.
  pose proof (getBalanceTx_ok _ _ _ _ _ Ha) as [Hav _ Hlk _ _ _].
  apply addDecimalString_ok in Ha0 as (_ & _ & Hi & Hs).
  apply addDecimalString_ok in Ha1 as (_ & _ & Hi' & Hs').
  apply upsert_moved; [done..|lia|lia].
Qed.

Lemma unlockStep_moved inp d d' :
  unlockStep inp d = Ok d' → moved (deposit_account inp) 0 (- amount (dc_Amount inp)) d d'.
Proof.
  intros H. unfold unlockStep in H. mbind_inv H. mbind_inv H. mbind_inv H. injection H as <-.
  pose proof (getBalanceTx_ok _ _ _ _ _ Ha) as [Hav _ Hlk _ _ (Hia & _)].
  apply subDecimalString_ok in Ha0 as (_ & _ & Hi & _ & Hs).
  apply upsert_moved; [done..|lia|lia].
Qed.

Lemma revertStep_moved inp oldUnlock d d' :
  revertStep inp oldUnlock d = Ok d' →
  moved (deposit_account inp) (- amount (dc_Amount inp))
        (if oldUnlock then 0 else - amount (dc_Amount inp)) d d'.
Proof.
  intros H. unfold revertStep in H. mbind_inv H. mbind_inv H. mbind_inv H. injection H as <-.
  pose proof (getBalanceTx_ok _ _ _ _ _ Ha) as [Hav _ Hlk _ _ (_ & Hil & _)].
  apply subDecimalString_ok in Ha0 as (_ & _ & Hi & _ & Hs).
  match goal with |- moved _ ?x ?y d (recordReorgAuditEvent inp ?d1) =>
    cut (moved (deposit_account inp) x y d d1) end.
  { intros [? ? ? ? ? ?]. by constructor. }
  destruct oldUnlock.
  - injection Ha1 as <-. apply upsert_moved; [done..|lia|lia].
  - apply subDecimalString_ok in Ha1 as (_ & _ & Hi' & _ & Hs').
    apply upsert_moved; [done..|lia|lia].
Qed.

(** A notification that agrees with the credited deposit it is about. *)
Definition same_deposit (inp : DepositCreditInput) (d : ledger) : Prop :=
  ∀ r, deposit_events d !! depositKey inp = Some r → de_credited r = true →
    de_account_id r = dc_AccountID inp ∧ de_coin r = dc_Coin inp
    ∧ amount (de_amount r) = amount (dc_Amount inp).
#[export] Instance same_deposit_dec inp d : Decision (same_deposit inp d).
Proof.
  refine (match deposit_events d !! depositKey inp as r return deposit_events d !! depositKey inp = r → _ with
          | Some r => λ E, cast_if (decide (de_credited r = true → de_account_id r = dc_AccountID inp
              ∧ de_coin r = dc_Coin inp ∧ amount (de_amount r) = amount (dc_Amount inp)))
          | None => λ E, left _ end eq_refl);
    unfold same_deposit; rewrite E; naive_solver.
Defined.

(** The flags [CreditDeposit] writes back. *)
Record deposit_outcome (inp : DepositCreditInput) (d d' : ledger)
    (oldCredit oldUnlock credit unlock : bool) : Prop := {
  do_old : match deposit_events d !! depositKey inp with
           | Some r => de_credited r = oldCredit ∧ de_unlocked r = oldUnlock
           | None => oldCredit = false ∧ oldUnlock = false
           end;
  do_row : ∃ r, deposit_events d' = <[depositKey inp := r]> (deposit_events d)
                ∧ de_account_id r = dc_AccountID inp ∧ de_coin r = dc_Coin inp
                ∧ de_amount r = dc_Amount inp ∧ de_credited r = credit ∧ de_unlocked r = unlock;
  do_moved : ∃ d0 d1, moved (deposit_account inp)
               ((if credit then amount (dc_Amount inp) else 0) - (if oldCredit then amount (dc_Amount inp) else 0))
               ((if credit && negb unlock then amount (dc_Amount inp) else 0)
                - (if oldCredit && negb oldUnlock then amount (dc_Amount inp) else 0)) d0 d1
             ∧ ledger_balances d0 = ledger_balances d ∧ ledger_freezes d0 = ledger_freezes d
             ∧ ledger_balances d' = ledger_balances d1 ∧ ledger_freezes d' = ledger_freezes d1;
  do_flags : unlock = true → credit = true;
}.

Lemma applyDeposit_outcome inp eff oc ou d d0 d' :
  ledger_balances d0 = ledger_balances d → ledger_freezes d0 = ledger_freezes d →
  (∀ g, ∃ r0, sql_update (depositKey inp) g (deposit_events d0)
              = <[depositKey inp := g r0]> (deposit_events d)) →
  match deposit_events d !! depositKey inp with
  | Some r => de_credited r = oc ∧ de_unlocked r = ou
  | None => oc = false ∧ ou = false
  end → (ou = true → oc = true) →
  applyDeposit inp eff oc ou d0 = Ok d' →
  ∃ c u, deposit_outcome inp d d' oc ou c u.
Proof.
  intros Hb0 Hf0 Hd0 Hrow Hou H. unfold applyDeposit in H.
  mbind_inv H. mbind_inv H. mbind_inv H. injection H as <-.
  match goal with |- context [refreshDeposit inp eff ?x ?y] => set (c := x); set (u := y) end.
  exists c, u. constructor; [done| | |].
  - destruct (Hd0 (refreshDeposit inp eff c u)) as [r0 Hr0].
    exists (refreshDeposit inp eff c u r0). split; [|done]. upd. rewrite <- Hr0. f_equal.
    destruct (negb oc && depositStatusCredits eff);
      [apply creditStep_moved in Ha; apply mv_deposits in Ha|injection Ha as <-];
    (destruct (_ && bool_decide (eff = "FINALIZED"));
      [apply unlockStep_moved in Ha0; apply mv_deposits in Ha0|injection Ha0 as <-]);
    (destruct (oc && _);
      [apply revertStep_moved in Ha1; apply mv_deposits in Ha1|injection Ha1 as <-]); congruence.
  - exists d0, a1. split; [|done]. unfold c, u.
    destruct oc; simpl in *.
    + injection Ha as <-.
      destruct (bool_decide_reflect (eff = "REVERTED")) as [He|He].
      * rewrite (bool_decide_false (eff = "FINALIZED")) in Ha0 by congruence.
        rewrite andb_false_r in Ha0. injection Ha0 as <-. apply revertStep_moved in Ha1.
        simpl. destruct ou; simpl in *; eapply moved_cast; try exact Ha1; lia.
      * injection Ha1 as <-.
        destruct ou; simpl in *; [injection Ha0 as <-; eapply moved_cast; [apply moved_refl|lia..]|].
        destruct (bool_decide (eff = "FINALIZED")); simpl in *.
        -- apply unlockStep_moved in Ha0. eapply moved_cast; try exact Ha0; lia.
        -- injection Ha0 as <-. eapply moved_cast; [apply moved_refl|lia..].
    + destruct ou; [by discriminate Hou|]. simpl in *. injection Ha1 as <-.
      destruct (depositStatusCredits eff); simpl in *.
      * apply creditStep_moved in Ha. destruct (bool_decide (eff = "FINALIZED")); simpl in *.
        -- apply unlockStep_moved in Ha0. eapply moved_cast; [eapply moved_trans; eassumption|lia..].
        -- injection Ha0 as <-. eapply moved_cast; try exact Ha; lia.
      * injection Ha as <-. injection Ha0 as <-. eapply moved_cast; [apply moved_refl|lia..].
  - unfold c, u. destruct (oc && bool_decide (eff = "REVERTED")); [done|].
    destruct oc, ou; simpl in *; try done; try (by intros; auto);
      destruct (depositStatusCredits eff); simpl; done.
Qed.

Lemma CreditDeposit_outcome inp d d' :
  (∀ r, deposit_events d !! depositKey inp = Some r → de_unlocked r = true → de_credited r = true) →
  CreditDeposit inp d = Ok d' →
  ∃ oc ou c u, deposit_outcome inp d d' oc ou c u.
Proof.
  intros Hflags H. unfold CreditDeposit in H.
  destruct (deposit_events d !! depositKey inp) as [r|] eqn:Hr;
    eapply applyDeposit_outcome with (d := d) in H; eauto; try (by rewrite Hr); try done.
  - intros g. exists r. by apply sql_update_some.
  - intros g. exists (newDeposit inp). upd.
    erewrite sql_update_some by apply lookup_insert_eq. by rewrite insert_insert_eq.
Qed.

Lemma deposit_term_account P x k r :
  deposit_term P x k r =
  if decide (x = (fst k, de_account_id r, de_coin r)) then (if P r then amount (de_amount r) else 0) else 0.
Proof. unfold deposit_term. destruct (P r); repeat case_decide; intuition congruence. Qed.

(** The sum over the deposit table after [CreditDeposit], for a selection of
    rows that are all credited. *)
Lemma deposit_sum_update (P : deposit_row → bool) (p : bool → bool → bool) inp d d' oc ou c u x :
  (∀ r, P r = p (de_credited r) (de_unlocked r)) → (∀ ou, p false ou = false) →
  same_deposit inp d → deposit_outcome inp d d' oc ou c u →
  msum (deposit_term P x) (deposit_events d')
  = msum (deposit_term P x) (deposit_events d)
    + (if decide (x = deposit_account inp) then
         (if p c u then amount (dc_Amount inp) else 0) - (if p oc ou then amount (dc_Amount inp) else 0)
       else 0).
Proof.
  intros HP Hp Hsame [Hold (r & Hr & Ha & Hc & Hamt & Hcr & Hun) _ _].
  rewrite Hr, msum_insert, deposit_term_account, HP, Ha, Hc, Hamt, Hcr, Hun. unfold mterm.
  change (fst (depositKey inp), dc_AccountID inp, dc_Coin inp) with (deposit_account inp).
  assert (Hterm : match deposit_events d !! depositKey inp with
                  | Some v => deposit_term P x (depositKey inp) v | None => 0 end
                = if decide (x = deposit_account inp) then if p oc ou then amount (dc_Amount inp) else 0 else 0).
  { destruct (deposit_events d !! depositKey inp) as [r0|] eqn:H0.
    - destruct Hold as [<- <-]. rewrite deposit_term_account, HP.
      destruct (de_credited r0) eqn:Hcr0; [|rewrite !Hp; by repeat case_decide].
      destruct (Hsame r0 H0 Hcr0) as (-> & -> & ->). done.
    - destruct Hold as [-> ->]. rewrite Hp. by case_decide. }
  rewrite Hterm. case_decide; lia.
Qed.

Lemma CreditDeposit_accounting inp d d' :
  accounting d → same_deposit inp d → CreditDeposit inp d = Ok d' → accounting d'.
Proof.
  intros Hacc Hsame H.
  apply CreditDeposit_outcome in H as (oc & ou & c & u & H); [|by apply acc_deposit_rows].
  assert (Hout := H).
  destruct H as [_ (r & Hr & Ha & Hc & Hamt & Hcr & Hun)
                 (d0 & d1 & [HA HF HL Hfz _ Hrows] & Hb0 & Hf0 & Hb1 & Hf1) Hflag].
  assert (Hheld0 : ∀ col x, held col d0 x = held col d x) by (intros; unfold held; by rewrite Hb0).
  assert (Hheld : ∀ col x, held col d' x = held col d1 x) by (intros; unfold held; by rewrite Hb1).
  assert (Hfreeze : ledger_freezes d' = ledger_freezes d) by congruence.
  constructor; intros.
  - unfold frozen_total. rewrite Hfreeze, Hheld, HF, Hheld0. by apply acc_frozen.
  - unfold credited_total, paid_total.
    rewrite (deposit_sum_update de_credited (λ c _, c) _ d _ oc ou c u) by done.
    rewrite Hfreeze, !Hheld, HF, HA, !Hheld0.
    fold (credited_total d acct) (paid_total d acct). rewrite <- (acc_conserved _ Hacc).
    case_decide; lia.
  - unfold locked_total.
    rewrite (deposit_sum_update still_locked (λ c u, c && negb u) _ d _ oc ou c u) by done.
    rewrite Hheld, HL, Hheld0. fold (locked_total d acct). rewrite <- (acc_locked _ Hacc).
    case_decide; lia.
  - rewrite Hfreeze in *. by eapply acc_freeze_rows.
  - match goal with H : ledger_balances d' !! _ = _ |- _ => rewrite Hb1 in H; revert H end.
    apply Hrows. intros k' b'. rewrite Hb0. by apply acc_balance_rows.
  - match goal with H : deposit_events d' !! _ = _ |- _ => rewrite Hr in H;
      apply lookup_insert_Some in H as [[<- <-]|[_ H]] end.
    + rewrite Hcr. apply Hflag. congruence.
    + by eapply acc_deposit_rows.
Qed.
