(* ===== verification/LedgerSystem.v ===== *)
(** * The ledger as a transition system

    Every method of [PostgresLedger] that writes is an operation; a run commits
    one after the other.  Where the callers keep to what the methods do not
    check ([agreeing]) the accounting invariant holds after every run, and an
    order's life follows the edges of [status_edge]. *)
From S2P Require Import Prelude GoStrings GoNumbers Ports LedgerTables LedgerWithdraw LedgerQueue.
From S2P Require Import LedgerDeposit LedgerVault Calls LedgerAccounting.

(** ** Operations and runs *)

(** The methods that write: the calls of the interface at a time, and the two
    claims, which also have the rows that other transactions hold. *)
Inductive ledger_op : Type :=
  | OpCall (now : Z) (c : ledger_call)
  | OpClaimQueued (now : Z) (locked : order_key → bool) (limit : Z)
  | OpClaimStale (now : Z) (locked : order_key → bool) (limit age reps : Z).

Section system.
Context (lower : string → string).

Definition apply_op (op : ledger_op) (d : ledger) : result ledger :=
  match op with
  | OpCall now c => run_ledger now c d
  | OpClaimQueued now locked limit => snd <$> ClaimQueuedWithdraws lower now locked limit d
  | OpClaimStale now locked limit age reps => snd <$> ClaimStaleBroadcastedWithdraws lower now locked limit age reps d
  end.

(** A transaction that fails is rolled back.  A run is one transaction after the
    other: transactions that overlap are not runs (see
    [concurrent_freeze_breaks_accounting] for two that freeze a new order). *)
Definition commit (op : ledger_op) (d : ledger) : ledger := match apply_op op d with Ok d' => d' | Err _ => d end.
Definition commit_all (ops : list ledger_op) (d : ledger) : ledger := foldl (λ d op, commit op d) d ops.

(** Every operation of a run satisfies [P] where it is called. *)
Fixpoint respects (P : ledger_op → ledger → Prop) (ops : list ledger_op) (d : ledger) : Prop :=
  match ops with [] => True | op :: ops => P op d ∧ respects P ops (commit op d) end.
#[export] Instance respects_dec P `{∀ op d, Decision (P op d)} ops d : Decision (respects P ops d).
Proof. revert d. induction ops as [|op ops IH]; intros d; cbn; apply _. Defined.

Lemma commit_all_invariant (P : ledger_op → ledger → Prop) (I : ledger → Prop) ops d :
  (∀ op d d', P op d → apply_op op d = Ok d' → I d → I d') → respects P ops d → I d → I (commit_all ops d).
Proof.
  intros Hstep. revert d. induction ops as [|op ops IH]; intros d; [done|]. intros [Hp Hr] Hd. cbn [commit_all foldl].
  apply IH; [done|]. unfold commit. destruct (apply_op op d) eqn:E; [by eapply Hstep|done].
Qed.

(** *** What callers keep to

    The methods do not check it.  A deposit notification about a credited
    deposit agrees with it on account, asset and amount ([same_deposit]): the
    scanners build the order id from the transaction and the log index.  A
    release names the account the order was frozen on ([order_owner]). *)
Definition agreeing (op : ledger_op) (d : ledger) : Prop :=
  match op with
  | OpCall _ (ReleaseWithdrawCall t a o _) => order_owner t a o d
  | OpCall _ (CreditDepositCall inp) => same_deposit inp d
  | _ => True
  end.
#[export] Instance agreeing_dec op d : Decision (agreeing op d).
Proof. destruct op as [now c| |]; [destruct c|..]; apply _. Defined.

(** When a sweep is started. *)
Context (sweep_ok : SweepCollectInput → ledger → Prop).
Definition sweeping (op : ledger_op) (d : ledger) : Prop :=
  match op with OpCall _ (StartSweepCall inp) => sweep_ok inp d | _ => True end.
#[export] Instance sweeping_dec `{∀ inp d, Decision (sweep_ok inp d)} op d : Decision (sweeping op d).
Proof. destruct op as [now c| |]; [destruct c|..]; apply _. Defined.

(** One committed transaction of callers that keep to both, and what such
    transactions produce from an empty schema. *)
Definition ledger_step (d d' : ledger) : Prop := ∃ op, agreeing op d ∧ sweeping op d ∧ apply_op op d = Ok d'.
Definition reachable (d : ledger) : Prop := rtc ledger_step empty_ledger d.

Lemma step_op op d d' : agreeing op d → sweeping op d → apply_op op d = Ok d' → ledger_step d d'.
Proof. intros. by exists op. Qed.
End system.

(** ** Frames: what the queue and the vault leave alone *)

(** The money tables of withdrawals and deposits. *)
Definition same_money (d d' : ledger) : Prop :=
  ledger_freezes d' = ledger_freezes d ∧ deposit_events d' = deposit_events d
  ∧ ledger_balances d' = ledger_balances d.

Lemma same_money_refl d : same_money d d.
Proof. done. Qed.

Lemma claim_rows_money g picked d : same_money d (claim_rows g picked d).2.
Proof.
  unfold claim_rows; simpl. induction picked as [|e picked IH]; [done|].
  destruct IH as (H1 & H2 & H3). simpl. by split_and!.
Qed.

(** Run through the guards of an operation that writes other tables only. *)
Ltac money_frame H :=
  repeat first
    [ done
    | match type of H with
      | (_ ≫= _) = Ok _ => mbind_inv H
      | (if ?c then _ else _) = Ok _ => destruct c
      | match ?x with _ => _ end = Ok _ => destruct x
      end
    | injection H as <-
    | discriminate H ].

Lemma ReserveSweep_money inp d d' : ReserveSweep inp d = Ok d' → same_money d d'.
Proof. unfold ReserveSweep. intros H. money_frame H. Qed.
Lemma StartSweep_money inp d d' : StartSweep inp d = Ok d' → same_money d d'.
Proof. unfold StartSweep. intros H. money_frame H. Qed.
Lemma ConfirmSweepOnChain_money inp d d' : ConfirmSweepOnChain inp d = Ok d' → same_money d d'.
Proof. unfold ConfirmSweepOnChain. intros H. money_frame H. Qed.
Lemma FailSweepOnChain_money t o r cf d d' : FailSweepOnChain t o r cf d = Ok d' → same_money d d'.
Proof. unfold FailSweepOnChain. intros H. money_frame H. Qed.
Lemma ReserveTreasuryTransfer_money inp d d' : ReserveTreasuryTransfer inp d = Ok d' → same_money d d'.
Proof. unfold ReserveTreasuryTransfer. intros H. money_frame H. Qed.
Lemma MarkTreasuryTransferBroadcasted_money t o h rc d d' :
  MarkTreasuryTransferBroadcasted t o h rc d = Ok d' → same_money d d'.
Proof. unfold MarkTreasuryTransferBroadcasted. intros H. money_frame H. Qed.
Lemma ConfirmTreasuryTransferOnChain_money inp d d' :
  ConfirmTreasuryTransferOnChain inp d = Ok d' → same_money d d'.
Proof. unfold ConfirmTreasuryTransferOnChain. intros H. money_frame H. Qed.
Lemma FailTreasuryTransferOnChain_money t o r cf d d' :
  FailTreasuryTransferOnChain t o r cf d = Ok d' → same_money d d'.
Proof. unfold FailTreasuryTransferOnChain. intros H. money_frame H. Qed.

(** Replacing a broadcast transaction only touches the hash. *)
Lemma ReplaceBroadcastedWithdraw_accounting now t o h h' u d d' :
  accounting d → ReplaceBroadcastedWithdraw now t o h h' u d = Ok d' → accounting d'.
Proof.
  intros Hacc H. unfold ReplaceBroadcastedWithdraw in H. injection H as <-.
  eapply (accounting_quiet_step d _ (t, o)
    (λ r, if decide (fz_status r = "BROADCASTED") then r <| fz_tx_hash := h' |> else r)); [done| | | |].
  1-3: by case_decide.
  intros f Hf. pose proof (acc_freeze_rows _ Hacc _ _ Hf) as [Hst _].
  case_decide; by split_and!.
Qed.

Lemma same_money_accounting d d' : same_money d d' → accounting d → accounting d'.
Proof. intros (? & ? & ?) ?. by apply (accounting_unchanged d). Qed.

Lemma apply_op_accounting lower op d d' : agreeing op d → apply_op lower op d = Ok d' → accounting d → accounting d'.
Proof.
  intros Hs H Hacc. destruct op as [now c|now locked limit|now locked limit age reps]; [destruct c as [t a o c n s amt req|inp|t o h u
    |t o r delay|t o r|t o h h' u|t o r|t a o h|t o h cf rc|t o h r cf|t a o r|inp|inp|inp|inp|t o r cf|inp|t o h rc|inp|t o r cf]|..]; cbn [agreeing apply_op run_ledger] in Hs, H.
  - exact (freezeWithdrawTx_accounting _ _ _ _ _ _ _ _ _ _ Hacc H).
  - exact (QueueWithdraw_accounting _ _ _ _ Hacc H).
  - injection H as <-. by apply (same_money_accounting d).
  - injection H as <-. by apply (same_money_accounting d).
  - injection H as <-. by apply (same_money_accounting d).
  - exact (ReplaceBroadcastedWithdraw_accounting _ _ _ _ _ _ _ _ Hacc H).
  - injection H as <-. by apply (same_money_accounting d).
  - exact (ConfirmWithdraw_accounting _ _ _ _ _ _ _ Hacc H).
  - exact (ConfirmWithdrawOnChain_accounting _ _ _ _ _ _ _ _ Hacc H).
  - exact (FailWithdrawOnChain_accounting _ _ _ _ _ _ _ _ Hacc H).
  - exact (ReleaseWithdraw_accounting _ _ _ _ _ _ _ Hacc Hs H).
  - exact (CreditDeposit_accounting _ _ _ Hacc Hs H).
  - exact (same_money_accounting _ _ (ReserveSweep_money _ _ _ H) Hacc).
  - exact (same_money_accounting _ _ (StartSweep_money _ _ _ H) Hacc).
  - exact (same_money_accounting _ _ (ConfirmSweepOnChain_money _ _ _ H) Hacc).
  - exact (same_money_accounting _ _ (FailSweepOnChain_money _ _ _ _ _ _ H) Hacc).
  - exact (same_money_accounting _ _ (ReserveTreasuryTransfer_money _ _ _ H) Hacc).
  - exact (same_money_accounting _ _ (MarkTreasuryTransferBroadcasted_money _ _ _ _ _ _ H) Hacc).
  - exact (same_money_accounting _ _ (ConfirmTreasuryTransferOnChain_money _ _ _ H) Hacc).
  - exact (same_money_accounting _ _ (FailTreasuryTransferOnChain_money _ _ _ _ _ _ H) Hacc).
  - injection H as <-. exact (same_money_accounting _ _ (claim_rows_money _ _ _) Hacc).
  - injection H as <-. exact (same_money_accounting _ _ (claim_rows_money _ _ _) Hacc).
Qed.

Lemma ledger_step_accounting lower ok d d' : ledger_step lower ok d d' → accounting d → accounting d'.
Proof. intros (op & Hs & _ & H). by eapply apply_op_accounting. Qed.

Lemma reachable_ind_accounting lower ok d : reachable lower ok d → accounting d.
Proof.
  revert d. apply (rtc_ind_r accounting); [apply accounting_empty|].
  intros d1 d2 _ Hstep. by eapply ledger_step_accounting.
Qed.

(** ** The life of a withdrawal order *)

(** FROZEN and BROADCASTED are open; CONFIRMED and RELEASED are final. *)
Definition status_edge (s s' : string) : Prop :=
  s' = s ∨ (s = "FROZEN" ∧ s' = "BROADCASTED")
  ∨ ((s = "FROZEN" ∨ s = "BROADCASTED") ∧ (s' = "CONFIRMED" ∨ s' = "RELEASED")).

Definition order_step (f f' : freeze_row) : Prop :=
  same_claim f f' ∧ status_edge (fz_status f) (fz_status f').

#[export] Instance order_step_preorder : PreOrder order_step.
Proof.
  split.
  - intros f. split; [done|by left].
  - intros f1 f2 f3 [(? & ? & ?) E1] [(? & ? & ?) E2]. split; [by split_and!; congruence|].
    unfold status_edge in *. intuition congruence.
Qed.

(** Orders are never deleted, and move along [order_step]. *)
Definition orders_evolve (d d' : ledger) : Prop :=
  ∀ k f, ledger_freezes d !! k = Some f → ∃ f', ledger_freezes d' !! k = Some f' ∧ order_step f f'.

Lemma orders_evolve_same d d' : ledger_freezes d' = ledger_freezes d → orders_evolve d d'.
Proof. intros H k f Hk. exists f. by rewrite H. Qed.

Lemma orders_evolve_update d d' k g :
  ledger_freezes d' = sql_update k g (ledger_freezes d) →
  (∀ f, ledger_freezes d !! k = Some f → order_step f (g f)) → orders_evolve d d'.
Proof.
  intros H Hg k' f Hk. rewrite H, sql_update_lookup. case_decide as Hkk; [subst k'|by exists f].
  rewrite Hk. exists (g f). simpl. auto.
Qed.

Ltac order_side :=
  unfold update, updateFreeze, updateJob, setAttemptStatus, insertEntry, insertJournal,
    setFreezeEntryStatus, upsertBalanceTx, cancelEntries; cbn;
  first [done | reflexivity | split; [done|unfold status_edge; cbn; intuition congruence]].

Lemma freezeWithdrawTx_orders t a o c n s amt req d d' :
  freezeWithdrawTx t a o c n s amt req d = Ok d' → orders_evolve d d'.
Proof.
  unfold freezeWithdrawTx. intros H. case_decide; [done|].
  destruct (ledger_freezes d !! (t, o)) eqn:Hnew.
  { case_decide; [injection H as <-; by apply orders_evolve_same|done]. }
  unfold freezeNewOrder in H. do 5 mbind_inv H. injection H as <-.
  intros k f Hk. exists f. split; [|done]. by apply sql_insert_nothing_keeps.
Qed.

Lemma ConfirmWithdraw_orders now t a o h d d' :
  ConfirmWithdraw now t a o h d = Ok d' → orders_evolve d d'.
Proof.
  intros H. unfold ConfirmWithdraw in H. mbind_inv H. apply from_option_err_ok in Ha.
  case_decide; [injection H as <-; by apply orders_evolve_same|].
  case_decide as Hst; [done|]. injection H as <-.
  eapply (orders_evolve_update d _ (t, o)); [order_side|].
  intros f Hf. simplify_eq. order_side.
Qed.

Lemma ConfirmWithdrawOnChain_orders now t o h cf rc d d' :
  ConfirmWithdrawOnChain now t o h cf rc d = Ok d' → orders_evolve d d'.
Proof.
  intros H. unfold ConfirmWithdrawOnChain in H. mbind_inv H. apply from_option_err_ok in Ha.
  case_decide as Hst.
  { injection H as <-. eapply (orders_evolve_update d _ (t, o)); [order_side|].
    intros f Hf. simplify_eq. order_side. }
  destruct (decide (fz_status a ≠ _ ∧ _)) as [|Hop]; [done|].
  assert (fz_status a = "BROADCASTED" ∨ fz_status a = "FROZEN") as Hopen.
  { destruct (decide (fz_status a = "BROADCASTED")); [by left|]. right. apply dec_stable. tauto. }
  match type of H with (if ?c then _ else _) = _ => destruct c end.
  { injection H as <-. eapply (orders_evolve_update d _ (t, o)); [order_side|].
    intros f Hf. simplify_eq. order_side. }
  mbind_inv H. mbind_inv H. injection H as <-.
  eapply (orders_evolve_update d _ (t, o)); [order_side|].
  intros f Hf. simplify_eq. order_side.
Qed.

Lemma FailWithdrawOnChain_orders now t o h reason cf d d' :
  accounting d → FailWithdrawOnChain now t o h reason cf d = Ok d' → orders_evolve d d'.
Proof.
  intros Hacc H. unfold FailWithdrawOnChain in H. mbind_inv H. apply from_option_err_ok in Ha.
  case_decide; [injection H as <-; by apply orders_evolve_same|].
  case_decide; [injection H as <-; by apply orders_evolve_same|].
  case_decide; [injection H as <-; by apply orders_evolve_same|].
  destruct (acc_freeze_rows _ Hacc _ _ Ha) as [Hst _]. unfold freeze_status_ok in Hst.
  mbind_inv H. unfold unfreezeBalance in Ha0. do 3 mbind_inv Ha0. injection Ha0 as <-. injection H as <-.
  eapply (orders_evolve_update d _ (t, o)); [order_side|].
  intros f Hf. simplify_eq. order_side.
Qed.

Lemma ReleaseWithdraw_orders now t a o reason d d' :
  ReleaseWithdraw now t a o reason d = Ok d' → orders_evolve d d'.
Proof.
  intros H. unfold ReleaseWithdraw in H. mbind_inv H. apply from_option_err_ok in Ha.
  case_decide; [injection H as <-; by apply orders_evolve_same|].
  destruct (decide (fz_status a0 ≠ _ ∧ _)) as [|Hop]; [done|].
  assert (fz_status a0 = "BROADCASTED" ∨ fz_status a0 = "FROZEN") as Hopen.
  { destruct (decide (fz_status a0 = "BROADCASTED")); [by left|]. right. apply dec_stable. tauto. }
  mbind_inv H. unfold unfreezeBalance in Ha0. do 3 mbind_inv Ha0. injection Ha0 as <-. injection H as <-.
  eapply (orders_evolve_update d _ (t, o)); [order_side|].
  intros f Hf. simplify_eq. order_side.
Qed.

Lemma applyDeposit_freezes inp eff oc ou d d' :
  applyDeposit inp eff oc ou d = Ok d' → ledger_freezes d' = ledger_freezes d.
Proof.
  intros H. unfold applyDeposit in H. do 3 mbind_inv H. injection H as <-.
  assert (ledger_freezes a = ledger_freezes d) as Hfa.
  { match type of Ha with (if ?c then _ else _) = _ => destruct c end;
      [apply creditStep_moved in Ha; by eapply mv_freezes|by injection Ha as <-]. }
  assert (ledger_freezes a0 = ledger_freezes a) as Hfa0.
  { match type of Ha0 with (if ?c then _ else _) = _ => destruct c end;
      [apply unlockStep_moved in Ha0; by eapply mv_freezes|by injection Ha0 as <-]. }
  change (ledger_freezes a1 = ledger_freezes d). rewrite <- Hfa, <- Hfa0.
  match type of Ha1 with (if ?c then _ else _) = _ => destruct c end;
    [apply revertStep_moved in Ha1; by eapply mv_freezes|by injection Ha1 as <-].
Qed.

Lemma CreditDeposit_orders inp d d' : CreditDeposit inp d = Ok d' → orders_evolve d d'.
Proof.
  intros H. apply orders_evolve_same. unfold CreditDeposit in H.
  destruct (_ !! _); by apply applyDeposit_freezes in H.
Qed.

Lemma apply_op_orders lower op d d' : accounting d → apply_op lower op d = Ok d' → orders_evolve d d'.
Proof.
  intros Hacc H. destruct op as [now c|now locked limit|now locked limit age reps]; [destruct c as [t a o c n s amt req|inp|t o h u
    |t o r delay|t o r|t o h h' u|t o r|t a o h|t o h cf rc|t o h r cf|t a o r|inp|inp|inp|inp|t o r cf|inp|t o h rc|inp|t o r cf]|..]; cbn [apply_op run_ledger] in H.
  - exact (freezeWithdrawTx_orders _ _ _ _ _ _ _ _ _ _ H).
  - unfold QueueWithdraw in H. mbind_inv H. injection H as <-.
    apply freezeWithdrawTx_orders in Ha. exact Ha.
  - injection H as <-. by apply orders_evolve_same.
  - injection H as <-. by apply orders_evolve_same.
  - injection H as <-. by apply orders_evolve_same.
  - unfold ReplaceBroadcastedWithdraw in H. injection H as <-.
    eapply (orders_evolve_update d _ (t, o)
      (λ r, if decide (fz_status r = "BROADCASTED") then r <| fz_tx_hash := h' |> else r)).
    { by case_decide. }
    intros f _. case_decide; order_side.
  - injection H as <-. by apply orders_evolve_same.
  - exact (ConfirmWithdraw_orders _ _ _ _ _ _ _ H).
  - exact (ConfirmWithdrawOnChain_orders _ _ _ _ _ _ _ _ H).
  - exact (FailWithdrawOnChain_orders _ _ _ _ _ _ _ _ Hacc H).
  - exact (ReleaseWithdraw_orders _ _ _ _ _ _ _ H).
  - exact (CreditDeposit_orders _ _ _ H).
  - apply orders_evolve_same. by eapply ReserveSweep_money.
  - apply orders_evolve_same. by eapply StartSweep_money.
  - apply orders_evolve_same. by eapply ConfirmSweepOnChain_money.
  - apply orders_evolve_same. by eapply FailSweepOnChain_money.
  - apply orders_evolve_same. by eapply ReserveTreasuryTransfer_money.
  - apply orders_evolve_same. by eapply MarkTreasuryTransferBroadcasted_money.
  - apply orders_evolve_same. by eapply ConfirmTreasuryTransferOnChain_money.
  - apply orders_evolve_same. by eapply FailTreasuryTransferOnChain_money.
  - injection H as <-. apply orders_evolve_same. by apply claim_rows_money.
  - injection H as <-. apply orders_evolve_same. by apply claim_rows_money.
Qed.

Lemma ledger_step_orders lower ok d d' : accounting d → ledger_step lower ok d d' → orders_evolve d d'.
Proof. intros Hacc (op & _ & _ & H). by eapply apply_op_orders. Qed.

Lemma reachable_orders lower ok d d' :
  reachable lower ok d → rtc (ledger_step lower ok) d d' → orders_evolve d d'.
Proof.
  intros Hd Hr. induction Hr as [d|d1 d2 d3 Hs Hr IH]; [by apply orders_evolve_same|].
  intros k f Hk.
  destruct (ledger_step_orders _ _ _ _ (reachable_ind_accounting _ _ _ Hd) Hs k f Hk) as (f2 & Hk2 & Hf2).
  destruct (IH (rtc_r _ _ _ Hd Hs) k f2 Hk2) as (f3 & Hk3 & Hf3).
  exists f3. split; [done|]. by etrans.
Qed.

(** ** Senders stay serial *)

Section serial.
Context (lower : string → string).

(** A request that queues an order again while its job is being processed names
    the same sender. *)
Definition requeues_same_sender (op : ledger_op) (d : ledger) : Prop :=
  match op with
  | OpCall now (QueueWithdrawCall inp) =>
      let k := (wq_TenantID inp, wq_OrderID inp) in
      ∀ j, withdraw_jobs d !! k = Some j → jb_status j = "PROCESSING" → sender lower (k, requeueJob now inp j) = sender lower (k, j)
  | _ => True
  end.
#[export] Instance requeues_same_sender_dec op d : Decision (requeues_same_sender op d).
Proof.
  destruct op as [now c| |]; [destruct c as [|inp| | | | | | | | | | | | | | | | | | ]|..]; try (by left).
  refine (match withdraw_jobs d !! (wq_TenantID inp, wq_OrderID inp) as r
            return withdraw_jobs d !! (wq_TenantID inp, wq_OrderID inp) = r → _ with
          | Some j => λ E, cast_if (decide (jb_status j = "PROCESSING" →
              sender lower ((wq_TenantID inp, wq_OrderID inp), requeueJob now inp j) = sender lower ((wq_TenantID inp, wq_OrderID inp), j)))
          | None => λ E, left _ end eq_refl);
    cbn; rewrite E; naive_solver.
Defined.

(** Ids are handed out once, and a sender has one job in processing. *)
Record queue_serial (d : ledger) : Prop := {
  qs_below : ∀ k j, withdraw_jobs d !! k = Some j → jb_id j < withdraw_jobs_id_seq d;
  qs_unique : unique_ids d;
  qs_serial : one_per_sender lower ["PROCESSING"] d;
}.

(** No job is new and none starts processing or changes its sender while it is
    processed. *)
Definition job_from (k : order_key) (j j' : job_row) : Prop :=
  jb_id j' = jb_id j ∧ (jb_status j' = "PROCESSING" → jb_status j = "PROCESSING" ∧ sender lower (k, j') = sender lower (k, j)).
Definition jobs_from (d d' : ledger) : Prop :=
  withdraw_jobs_id_seq d' = withdraw_jobs_id_seq d
  ∧ ∀ k j', withdraw_jobs d' !! k = Some j' → ∃ j, withdraw_jobs d !! k = Some j ∧ job_from k j j'.

Lemma jobs_from_serial d d' : jobs_from d d' → queue_serial d → queue_serial d'.
Proof.
  intros [Hseq Hf] [Hb Hu Hs]. split.
  - intros k j' (j & Hj & Hid & _)%Hf. rewrite Hseq, Hid. by eapply Hb.
  - intros k1 k2 j1 j2 (x1 & H1 & E1 & _)%Hf (x2 & H2 & E2 & _)%Hf Hid. apply (Hu k1 k2 x1 x2 H1 H2). congruence.
  - intros k1 k2 j1 j2 (x1 & H1 & _ & P1)%Hf (x2 & H2 & _ & P2)%Hf Hst1%list_elem_of_singleton Hst2%list_elem_of_singleton Hse.
    destruct (P1 Hst1) as [Q1 S1], (P2 Hst2) as [Q2 S2]. apply (Hs k1 k2 x1 x2); [done..| | |congruence]; by apply list_elem_of_singleton.
Qed.

Lemma jobs_from_same d d' :
  withdraw_jobs d' = withdraw_jobs d → withdraw_jobs_id_seq d' = withdraw_jobs_id_seq d → jobs_from d d'.
Proof. intros Hj Hs. split; [done|]. intros k j'. rewrite Hj. intros Hk. by exists j'. Qed.

Lemma jobs_from_update d d' k g :
  withdraw_jobs d' = sql_update k g (withdraw_jobs d) → withdraw_jobs_id_seq d' = withdraw_jobs_id_seq d →
  (∀ j, job_from k j (g j)) → jobs_from d d'.
Proof.
  intros Hj Hs Hg. split; [done|]. intros k' j'. rewrite Hj, sql_update_lookup. case_decide as Hk; [subst k'|by exists j'].
  intros (j & Hj' & ->)%fmap_Some. by exists j.
Qed.


Lemma freezeWithdrawTx_jobs t a o c n s amt req d d' :
  freezeWithdrawTx t a o c n s amt req d = Ok d' →
  withdraw_jobs d' = withdraw_jobs d ∧ withdraw_jobs_id_seq d' = withdraw_jobs_id_seq d.
Proof.
  unfold freezeWithdrawTx. intros H. case_decide; [done|].
  destruct (ledger_freezes d !! (t, o)); [case_decide; [by injection H as <-|done]|].
  unfold freezeNewOrder in H. do 5 mbind_inv H. by injection H as <-.
Qed.

Lemma deposit_steps_jobs inp d d' :
  creditStep inp d = Ok d' ∨ unlockStep inp d = Ok d' ∨ (∃ b, revertStep inp b d = Ok d') →
  withdraw_jobs d' = withdraw_jobs d ∧ withdraw_jobs_id_seq d' = withdraw_jobs_id_seq d.
Proof.
  intros [H|[H|[b H]]]; [unfold creditStep in H|unfold unlockStep in H|unfold revertStep in H]; do 3 mbind_inv H; by injection H as <-.
Qed.

Lemma applyDeposit_jobs inp eff oc ou d d' :
  applyDeposit inp eff oc ou d = Ok d' →
  withdraw_jobs d' = withdraw_jobs d ∧ withdraw_jobs_id_seq d' = withdraw_jobs_id_seq d.
Proof.
  intros H. unfold applyDeposit in H. mbind_inv H. mbind_inv H. mbind_inv H. injection H as <-.
  assert (withdraw_jobs a = withdraw_jobs d ∧ withdraw_jobs_id_seq a = withdraw_jobs_id_seq d) as [E1 E2].
  { match type of Ha with (if ?c then _ else _) = _ => destruct c end; [eauto using deposit_steps_jobs|by injection Ha as <-]. }
  assert (withdraw_jobs a0 = withdraw_jobs a ∧ withdraw_jobs_id_seq a0 = withdraw_jobs_id_seq a) as [E3 E4].
  { match type of Ha0 with (if ?c then _ else _) = _ => destruct c end; [eauto using deposit_steps_jobs|by injection Ha0 as <-]. }
  assert (withdraw_jobs a1 = withdraw_jobs a0 ∧ withdraw_jobs_id_seq a1 = withdraw_jobs_id_seq a0) as [E5 E6].
  { match type of Ha1 with (if ?c then _ else _) = _ => destruct c end; [eauto using deposit_steps_jobs|by injection Ha1 as <-]. }
  change (withdraw_jobs a1 = withdraw_jobs d ∧ withdraw_jobs_id_seq a1 = withdraw_jobs_id_seq d). split; congruence.
Qed.

(** The jobs and their sequence; most operations leave both alone. *)
Definition job_tables (d : ledger) : gmap order_key job_row * Z := (withdraw_jobs d, withdraw_jobs_id_seq d).

Lemma job_tables_same d d' : job_tables d' = job_tables d → jobs_from d d'.
Proof. intros [= H1 H2]. by apply jobs_from_same. Qed.

Lemma job_tables_update d d1 d' k g :
  job_tables d' = (sql_update k g (withdraw_jobs d1), withdraw_jobs_id_seq d1) → job_tables d1 = job_tables d →
  (∀ j, job_from k j (g j)) → jobs_from d d'.
Proof. intros [= H1 H2] [= E1 E2] Hg. rewrite E1 in H1. by eapply jobs_from_update; [|congruence|]. Qed.

(** A job that leaves processing. *)
Lemma jobOnChain_from now st h k j : st ≠ "PROCESSING" → job_from k j (jobOnChain now st h j).
Proof. by intros Hst. Qed.
Lemma jobStopped_from now st r k j : st ≠ "PROCESSING" → job_from k j (jobStopped now st r j).
Proof. by intros Hst. Qed.

Lemma unfreezeBalance_jobs t a f d avail d' : unfreezeBalance t a f d = Ok (avail, d') → job_tables d' = job_tables d.
Proof. unfold unfreezeBalance. intros H. do 3 mbind_inv H. by injection H as _ <-. Qed.

Lemma ConfirmWithdraw_jobs now t a o h d d' : ConfirmWithdraw now t a o h d = Ok d' → jobs_from d d'.
Proof.
  unfold ConfirmWithdraw. intros H. mbind_inv H. case_decide; [injection H as <-; by apply job_tables_same|].
  case_decide; [done|]. injection H as <-. by eapply (job_tables_update d d _ (t, o)); [reflexivity|reflexivity|intros j; by apply jobOnChain_from].
Qed.

Lemma ConfirmWithdrawOnChain_jobs now t o h cf rc d d' : ConfirmWithdrawOnChain now t o h cf rc d = Ok d' → jobs_from d d'.
Proof.
  unfold ConfirmWithdrawOnChain. intros H. mbind_inv H.
  match type of H with (if ?c then _ else _) = _ => destruct c end; [injection H as <-; by apply job_tables_same|].
  match type of H with (if ?c then _ else _) = _ => destruct c end; [done|].
  match type of H with (if ?c then _ else _) = _ => destruct c end; [|mbind_inv H; mbind_inv H]; injection H as <-;
    by eapply (job_tables_update d d _ (t, o)); [reflexivity|reflexivity|intros j; by apply jobOnChain_from].
Qed.

Lemma FailWithdrawOnChain_jobs now t o h r cf d d' : FailWithdrawOnChain now t o h r cf d = Ok d' → jobs_from d d'.
Proof.
  unfold FailWithdrawOnChain. intros H. mbind_inv H. do 3 (case_decide; [injection H as <-; by apply job_tables_same|]).
  mbind_inv H. destruct a0 as [avail d1]. apply unfreezeBalance_jobs in Ha0. injection H as <-.
  by eapply (job_tables_update _ d1 _ (t, o)); [reflexivity|exact Ha0|intros j; by apply jobStopped_from].
Qed.

Lemma ReleaseWithdraw_jobs_from now t a o r d d' : ReleaseWithdraw now t a o r d = Ok d' → jobs_from d d'.
Proof.
  unfold ReleaseWithdraw. intros H. mbind_inv H. case_decide; [injection H as <-; by apply job_tables_same|].
  case_decide; [done|]. mbind_inv H. destruct a1 as [avail d1]. apply unfreezeBalance_jobs in Ha0. injection H as <-.
  by eapply (job_tables_update _ d1 _ (t, o)); [reflexivity|exact Ha0|intros j; by apply jobStopped_from].
Qed.

Lemma claim_rows_seq g picked d : withdraw_jobs_id_seq (claim_rows g picked d).2 = withdraw_jobs_id_seq d.
Proof. unfold claim_rows; cbn [snd]. by induction picked. Qed.

(** What a claim does to ids and, where it does not start processing, to the
    jobs in processing. *)
Lemma claim_ids (P : job_entry → Prop) `{!∀ e, Decision (P e)} key locked limit d g :
  (∀ j, jb_id (g j) = jb_id j) → queue_serial d →
  let d' := (claim_rows g (picked_from lower P key locked limit d) d).2 in
  (∀ k j, withdraw_jobs d' !! k = Some j → jb_id j < withdraw_jobs_id_seq d') ∧ unique_ids d'.
Proof.
  intros Hg [Hb Hu _] d'.
  assert (Hf : ∀ k j', withdraw_jobs d' !! k = Some j' → ∃ j, withdraw_jobs d !! k = Some j ∧ jb_id j' = jb_id j).
  { intros k j'. unfold d'. rewrite claim_rows_lookup by apply picked_NoDup. case_decide; [|by eauto].
    intros (j & Hj & ->)%fmap_Some. eauto. }
  split.
  - intros k j' (j & Hj & ->)%Hf. unfold d'. rewrite claim_rows_seq. by eapply Hb.
  - intros k1 k2 j1 j2 (x1 & H1 & E1)%Hf (x2 & H2 & E2)%Hf Hid. apply (Hu k1 k2 x1 x2 H1 H2). congruence.
Qed.

Lemma ClaimQueued_serial now locked limit d :
  queue_serial d → queue_serial (claim_rows (startProcessing now) (queued_picked lower now locked limit d) d).2.
Proof.
  intros Hq. destruct (claim_ids (queued_claimable lower now d) jb_created_at locked (if decide (limit ≤ 0) then 10 else limit)
    d (startProcessing now)) as [Hb Hu]; [done|done|].
  split; [exact Hb|exact Hu|]. apply (claim_one_per_sender lower (queued_claimable lower now d)); [apply Hq..| |done].
  by intros e (_ & _ & Hbusy).
Qed.

Lemma ClaimStale_serial now locked limit age reps d :
  queue_serial d → queue_serial (claim_rows (startAccelerating now) (stale_picked lower now locked limit age reps d) d).2.
Proof.
  intros Hq. apply (jobs_from_serial d); [|done]. split; [apply claim_rows_seq|]. intros k j'.
  unfold stale_picked. cbv zeta. change (pick lower jb_updated_at locked ?n (filter ?P _)) with (picked_from lower P jb_updated_at locked n d).
  rewrite claim_rows_lookup by apply picked_NoDup. case_decide; [|by eexists].
  intros (j & Hj & ->)%fmap_Some. by exists j.
Qed.

Lemma QueueWithdraw_serial now inp d d' :
  requeues_same_sender (OpCall now (QueueWithdrawCall inp)) d → QueueWithdraw now inp d = Ok d' → queue_serial d → queue_serial d'.
Proof.
  unfold QueueWithdraw. intros Hs H Hq. mbind_inv H. injection H as <-. apply freezeWithdrawTx_jobs in Ha as [Hj Hn].
  set (k := (wq_TenantID inp, wq_OrderID inp)) in *. destruct Hq as [Hb Hu Ho].
  assert (Hq : queue_serial (d <| withdraw_jobs_id_seq ::= Z.succ |>)).
  { split; [|exact Hu|exact Ho]. intros k' j' H'. specialize (Hb k' j' H'). cbn. lia. }
  destruct (withdraw_jobs d !! k) as [j|] eqn:Hk.
  - apply (jobs_from_serial (d <| withdraw_jobs_id_seq ::= Z.succ |>)); [|done].
    split; [cbn; lia|]. intros k' j'. cbn. unfold sql_upsert. rewrite Hj, Hk. destruct (decide (k = k')) as [<-|Hne].
    + rewrite lookup_insert_eq. intros [= <-]. exists j. split; [done|]. split; [done|]. cbn. intros Hst.
      assert (jb_status j = "PROCESSING") as Hp by (revert Hst; case_decide; congruence). split; [done|]. by apply Hs.
    + rewrite lookup_insert_ne by done. by eexists.
  - assert (Hl : ∀ k' j', withdraw_jobs (d <| withdraw_jobs_id_seq ::= Z.succ |> <| withdraw_jobs ::= <[k := newJob now (withdraw_jobs_id_seq d) inp]> |>) !! k' = Some j' →
              (k' = k ∧ j' = newJob now (withdraw_jobs_id_seq d) inp) ∨ withdraw_jobs d !! k' = Some j').
    { intros k' j'. cbn. destruct (decide (k = k')) as [<-|Hne]; [rewrite lookup_insert_eq; intros [= <-]; by left|].
      rewrite lookup_insert_ne by done. by right. }
    apply (jobs_from_serial (d <| withdraw_jobs_id_seq ::= Z.succ |> <| withdraw_jobs ::= <[k := newJob now (withdraw_jobs_id_seq d) inp]> |>)).
    { apply jobs_from_same; cbn; [|lia]. unfold sql_upsert. by rewrite Hj, Hk, Hn. }
    split.
    + intros k' j' [[-> ->]|H']%Hl; cbn; [lia|]. specialize (Hb k' j' H'). lia.
    + intros k1 k2 j1 j2 [[-> ->]|H1]%Hl [[-> ->]|H2]%Hl; cbn; [done|..].
      * intros Hid. specialize (Hb _ _ H2). lia.
      * intros Hid. specialize (Hb _ _ H1). lia.
      * intros Hid. by eapply Hu.
    + intros k1 k2 j1 j2 [[-> ->]|H1]%Hl [[-> ->]|H2]%Hl Hst1%list_elem_of_singleton Hst2%list_elem_of_singleton; cbn in *; [done..|].
      apply (Ho k1 k2 j1 j2); [done..| |]; by apply list_elem_of_singleton.
Qed.

Lemma apply_op_serial op d d' :
  requeues_same_sender op d → apply_op lower op d = Ok d' → queue_serial d → queue_serial d'.
Proof.
  intros Hs H Hq. destruct op as [now c|now locked limit|now locked limit age reps]; [destruct c as [t a o c n s amt req|inp|t o h u
    |t o r delay|t o r|t o h h' u|t o r|t a o h|t o h cf rc|t o h r cf|t a o r|inp|inp|inp|inp|t o r cf|inp|t o h rc|inp|t o r cf]|..]; cbn [apply_op run_ledger] in H.
  3-20: eapply jobs_from_serial; [|exact Hq].
  - apply freezeWithdrawTx_jobs in H as [H1 H2]. by eapply jobs_from_serial; [apply jobs_from_same|].
  - by eapply QueueWithdraw_serial.
  - injection H as <-. by eapply (job_tables_update d d _ (t, o)); [reflexivity|reflexivity|intros j; split].
  - injection H as <-. by eapply (job_tables_update d d _ (t, o)); [reflexivity|reflexivity|intros j; split].
  - injection H as <-. by eapply (job_tables_update d d _ (t, o)); [reflexivity|reflexivity|intros j; split].
  - injection H as <-. eapply (job_tables_update d d _ (t, o)); [by case_decide|reflexivity|intros j; by split].
  - injection H as <-. by eapply (job_tables_update d d _ (t, o)); [reflexivity|reflexivity|intros j; split].
  - by eapply ConfirmWithdraw_jobs.
  - by eapply ConfirmWithdrawOnChain_jobs.
  - by eapply FailWithdrawOnChain_jobs.
  - by eapply ReleaseWithdraw_jobs_from.
  - unfold CreditDeposit in H. destruct (_ !! _); apply applyDeposit_jobs in H as [? ?]; by apply jobs_from_same.
  - apply job_tables_same. unfold ReserveSweep in H. money_frame H.
  - apply job_tables_same. unfold StartSweep in H. money_frame H.
  - apply job_tables_same. unfold ConfirmSweepOnChain in H. money_frame H.
  - apply job_tables_same. unfold FailSweepOnChain in H. money_frame H.
  - apply job_tables_same. unfold ReserveTreasuryTransfer in H. money_frame H.
  - apply job_tables_same. unfold MarkTreasuryTransferBroadcasted in H. money_frame H.
  - apply job_tables_same. unfold ConfirmTreasuryTransferOnChain in H. money_frame H.
  - apply job_tables_same. unfold FailTreasuryTransferOnChain in H. money_frame H.
  - injection H as <-. by apply ClaimQueued_serial.
  - injection H as <-. by apply ClaimStale_serial.
Qed.

Lemma queue_serial_empty : queue_serial empty_ledger.
Proof. by split; intros ? ?. Qed.
End serial.
