(* ===== verification/VaultAccounting.v ===== *)
(** * The vaults' accounting

    A vault holds what finished sweeps and incoming transfers put into it,
    less what reserved, broadcast and finished transfers took out. *)
From S2P Require Import Prelude GoStrings GoNumbers Ports LedgerTables LedgerWithdraw LedgerQueue.
From S2P Require Import LedgerDeposit LedgerVault Calls LedgerAccounting LedgerSystem.

(** ** Sums *)

Definition sweep_term (acct : account_key) (k : order_key) (r : sweep_row) : Z :=
  if decide (acct = (fst k, sw_treasury_account_id r, sw_asset r) ∧ sw_status r = "DONE")
  then amount (sw_amount r) else 0.

Definition transfer_open_or_done (st : string) : bool :=
  bool_decide (st = "RESERVED" ∨ st = "BROADCASTED" ∨ st = "DONE").
Definition transfer_done (st : string) : bool := bool_decide (st = "DONE").

Definition out_term (acct : account_key) (k : order_key) (r : transfer_row) : Z :=
  if decide (acct = (fst k, tt_from_account_id r, tt_asset r) ∧ transfer_open_or_done (tt_status r) = true)
  then amount (tt_amount r) else 0.
Definition in_term (acct : account_key) (k : order_key) (r : transfer_row) : Z :=
  if decide (acct = (fst k, tt_to_account_id r, tt_asset r) ∧ transfer_done (tt_status r) = true)
  then amount (tt_amount r) else 0.

Definition swept_total (d : ledger) (acct : account_key) : Z := msum (sweep_term acct) (sweep_orders d).
Definition out_total (d : ledger) (acct : account_key) : Z := msum (out_term acct) (treasury_transfer_orders d).
Definition in_total (d : ledger) (acct : account_key) : Z := msum (in_term acct) (treasury_transfer_orders d).

Definition vault_held (d : ledger) (acct : account_key) : Z :=
  match vault_balances d !! acct with Some v => amount v | None => 0 end.

Definition transfer_status_ok (st : string) : Prop :=
  st = "RESERVED" ∨ st = "BROADCASTED" ∨ st = "DONE" ∨ st = "FAILED".

Record vault_accounting (d : ledger) : Prop := {
  va_balance : ∀ acct, vault_held d acct = swept_total d acct + in_total d acct - out_total d acct;
  va_transfers : ∀ k r, treasury_transfer_orders d !! k = Some r → transfer_status_ok (tt_status r);
}.

Definition same_vault (d d' : ledger) : Prop :=
  sweep_orders d' = sweep_orders d ∧ treasury_transfer_orders d' = treasury_transfer_orders d
  ∧ vault_balances d' = vault_balances d.

Lemma same_vault_accounting d d' : same_vault d d' → vault_accounting d → vault_accounting d'.
Proof.
  intros (H1 & H2 & H3) [G1 G2].
  constructor; unfold vault_held, swept_total, in_total, out_total in *; by rewrite ?H1, ?H2, ?H3.
Qed.

(** ** Rows *)

Lemma vault_held_upsert t a s v d acct :
  vault_held (upsertVaultBalanceTx t a s v d) acct =
  if decide (acct = (t, a, s)) then amount v else vault_held d acct.
Proof.
  unfold vault_held, upsertVaultBalanceTx. upd.
  case_decide; [subst; by rewrite lookup_insert_eq|by rewrite lookup_insert_ne].
Qed.

Lemma getVaultBalanceTx_ok t a s d bs :
  getVaultBalanceTx t a s d = Ok bs → amount (bs_Available bs) = vault_held d (t, a, s).
Proof.
  unfold getVaultBalanceTx, vault_held. intros [= <-]. simpl.
  by destruct (vault_balances d !! (t, a, s)).
Qed.

Lemma sweep_term_other acct k r r' :
  sw_treasury_account_id r' = sw_treasury_account_id r → sw_asset r' = sw_asset r →
  sw_amount r' = sw_amount r → (sw_status r' = "DONE" ↔ sw_status r = "DONE") →
  sweep_term acct k r' = sweep_term acct k r.
Proof. unfold sweep_term. intros -> -> -> ?. repeat case_decide; tauto. Qed.

(** Rewriting a sweep without finishing or reopening it. *)
Lemma vault_sweep_quiet d d' k g :
  vault_accounting d →
  sweep_orders d' = sql_update k g (sweep_orders d) →
  treasury_transfer_orders d' = treasury_transfer_orders d → vault_balances d' = vault_balances d →
  (∀ r, sweep_orders d !! k = Some r →
     sw_treasury_account_id (g r) = sw_treasury_account_id r ∧ sw_asset (g r) = sw_asset r
     ∧ sw_amount (g r) = sw_amount r ∧ (sw_status (g r) = "DONE" ↔ sw_status r = "DONE")) →
  vault_accounting d'.
Proof.
  intros [G1 G2] H1 H2 H3 Hg. constructor; [|by rewrite H2].
  intros acct. unfold vault_held, in_total, out_total, swept_total. rewrite H1, H2, H3.
  assert (msum (sweep_term acct) (sql_update k g (sweep_orders d)) = swept_total d acct) as ->; [|apply G1].
  unfold sql_update. destruct (sweep_orders d !! k) as [r|] eqn:Hr; [|done].
  destruct (Hg r eq_refl) as (? & ? & ? & ?).
  eapply msum_update_same; [done|]. by apply sweep_term_other.
Qed.

(** A new sweep order that is not finished. *)
Lemma vault_sweep_new d d' k r :
  vault_accounting d → sweep_orders d !! k = None → sw_status r ≠ "DONE" →
  sweep_orders d' = <[k := r]> (sweep_orders d) →
  treasury_transfer_orders d' = treasury_transfer_orders d → vault_balances d' = vault_balances d →
  vault_accounting d'.
Proof.
  intros [G1 G2] Hk Hr H1 H2 H3. constructor; [|by rewrite H2].
  intros acct. unfold vault_held, in_total, out_total, swept_total. rewrite H1, H2, H3.
  rewrite msum_insert_new by done.
  assert (sweep_term acct k r = 0) as ->; [|rewrite Z.add_0_l; apply G1].
  unfold sweep_term. case_decide; tauto.
Qed.

(** A transfer's two sides. *)
Definition out_if (r : transfer_row) : Z :=
  if transfer_open_or_done (tt_status r) then amount (tt_amount r) else 0.
Definition in_if (r : transfer_row) : Z :=
  if transfer_done (tt_status r) then amount (tt_amount r) else 0.

Definition same_transfer (r r' : transfer_row) : Prop :=
  tt_from_account_id r' = tt_from_account_id r ∧ tt_to_account_id r' = tt_to_account_id r
  ∧ tt_asset r' = tt_asset r ∧ tt_amount r' = tt_amount r.

Lemma out_term_if acct k r :
  out_term acct k r = if decide (acct = (fst k, tt_from_account_id r, tt_asset r)) then out_if r else 0.
Proof. unfold out_term, out_if. destruct (transfer_open_or_done _); repeat case_decide; intuition congruence. Qed.
Lemma in_term_if acct k r :
  in_term acct k r = if decide (acct = (fst k, tt_to_account_id r, tt_asset r)) then in_if r else 0.
Proof. unfold in_term, in_if. destruct (transfer_done _); repeat case_decide; intuition congruence. Qed.

(** A step that rewrites a transfer and moves the vault rows by what the
    rewriting says. *)
Lemma vault_transfer_step d d' k r r' :
  vault_accounting d → treasury_transfer_orders d !! k = Some r → same_transfer r r' →
  transfer_status_ok (tt_status r') →
  treasury_transfer_orders d' = <[k := r']> (treasury_transfer_orders d) →
  sweep_orders d' = sweep_orders d →
  (∀ acct, vault_held d' acct = vault_held d acct
     + (if decide (acct = (fst k, tt_to_account_id r, tt_asset r)) then in_if r' - in_if r else 0)
     - (if decide (acct = (fst k, tt_from_account_id r, tt_asset r)) then out_if r' - out_if r else 0)) →
  vault_accounting d'.
Proof.
  intros [G1 G2] Hk (E1 & E2 & E3 & E4) Hst H1 H2 Hv. constructor.
  - intros acct. rewrite Hv, G1. unfold swept_total, in_total, out_total. rewrite H1, H2.
    rewrite !(msum_update _ _ _ r) by done. rewrite !in_term_if, !out_term_if, E1, E2, E3.
    repeat case_decide; lia.
  - intros k' r0. rewrite H1. intros [[<- <-]|[_ H]]%lookup_insert_Some; [done|by eapply G2].
Qed.

(** ** Operations *)

Ltac vault_side :=
  unfold update, updateSweep, updateTransfer, insertVaultJournal, upsertVaultBalanceTx; cbn;
  first [done | reflexivity].

Lemma ReserveSweep_vault inp d d' : vault_accounting d → ReserveSweep inp d = Ok d' → vault_accounting d'.
Proof.
  intros Hv H. unfold ReserveSweep in H. destruct (sweep_orders d !! _) eqn:Hk.
  - case_decide; [by injection H as <-|done].
  - injection H as <-. eapply (vault_sweep_new d _ _ _ Hv Hk); [|vault_side|done|done]. done.
Qed.

(** The sweep of [inp] is not finished. *)
Definition sweep_not_done (inp : SweepCollectInput) (d : ledger) : Prop :=
  match sweep_orders d !! (sc_TenantID inp, sc_SweepOrderID inp) with
  | Some r => sw_status r ≠ "DONE"
  | None => True
  end.
#[export] Instance sweep_not_done_dec inp d : Decision (sweep_not_done inp d).
Proof. unfold sweep_not_done. destruct (sweep_orders d !! _); apply _. Defined.

Lemma StartSweep_vault inp d d' :
  vault_accounting d → sweep_not_done inp d → StartSweep inp d = Ok d' → vault_accounting d'.
Proof.
  intros Hv Hnd H. unfold StartSweep in H. unfold sweep_not_done in Hnd.
  destruct (sweep_orders d !! (sc_TenantID inp, sc_SweepOrderID inp)) as [r|] eqn:Hk.
  - assert (Hq : ∀ r0, sweep_orders d !! (sc_TenantID inp, sc_SweepOrderID inp) = Some r0 →
        sw_treasury_account_id (markSwept inp (orAtLeastOne (sc_RequiredConfs inp)) r0) = sw_treasury_account_id r0
        ∧ sw_asset (markSwept inp (orAtLeastOne (sc_RequiredConfs inp)) r0) = sw_asset r0
        ∧ sw_amount (markSwept inp (orAtLeastOne (sc_RequiredConfs inp)) r0) = sw_amount r0
        ∧ (sw_status (markSwept inp (orAtLeastOne (sc_RequiredConfs inp)) r0) = "DONE" ↔ sw_status r0 = "DONE")).
    { intros r0 H0. simplify_eq. split_and!; [done..|]. split; [done|intros; done]. }
    destruct (bool_decide _); injection H as <-;
      eapply (vault_sweep_quiet d _ (sc_TenantID inp, sc_SweepOrderID inp)); try done.
    unfold update; cbn. unfold sql_upsert, sql_update. by rewrite Hk.
  - injection H as <-. eapply vault_sweep_new; [done|exact Hk| | |done|done].
    2: { unfold update; cbn. unfold sql_upsert. by rewrite Hk. }
    done.
Qed.

Lemma ConfirmSweepOnChain_vault inp d d' :
  vault_accounting d → ConfirmSweepOnChain inp d = Ok d' → vault_accounting d'.
Proof.
  intros Hv H. unfold ConfirmSweepOnChain in H. mbind_inv H. apply from_option_err_ok in Ha.
  case_decide as Hst.
  { injection H as <-. eapply (vault_sweep_quiet d _ (sf_TenantID inp, sf_SweepOrderID inp)); [done|vault_side..|].
    intros r Hr. done. }
  case_decide.
  { injection H as <-. eapply (vault_sweep_quiet d _ (sf_TenantID inp, sf_SweepOrderID inp)); [done|vault_side..|].
    intros r Hr. simplify_eq. split_and!; [done..|]. split; [done|intros; done]. }
  mbind_inv H. mbind_inv H. injection H as <-.
  apply getVaultBalanceTx_ok in Ha0. apply addDecimalString_ok in Ha1 as (_ & _ & _ & Hsum).
  destruct Hv as [G1 G2]. constructor; [|exact G2]. intros acct.
  unfold swept_total, in_total, out_total, updateSweep, insertVaultJournal, update; cbn.
  erewrite sql_update_some by done. rewrite (msum_update _ _ _ a) by done.
  fold (swept_total d acct) (in_total d acct) (out_total d acct).
  match goal with |- vault_held ?x acct = _ =>
    change (vault_held x acct) with (vault_held
      (upsertVaultBalanceTx (sf_TenantID inp) (sw_treasury_account_id a) (sw_asset a) a1 d) acct) end.
  rewrite vault_held_upsert. unfold sweep_term; cbn.
  rewrite (decide_False (P := _ ∧ sw_status a = "DONE")) by tauto.
  specialize (G1 acct). destruct (decide (acct = _)) as [->|Hne].
  - rewrite decide_True by done. lia.
  - rewrite decide_False by tauto. lia.
Qed.

Lemma FailSweepOnChain_vault t o r cf d d' :
  vault_accounting d → FailSweepOnChain t o r cf d = Ok d' → vault_accounting d'.
Proof.
  intros Hv H. unfold FailSweepOnChain in H. injection H as <-.
  eapply (vault_sweep_quiet d _ (t, o)); [done|vault_side..|].
  intros r0 _. cbn beta. case_decide as Hd; [done|].
  split_and!; [done..|]. split; [done|intros; done].
Qed.

Ltac transfer_class :=
  unfold in_if, out_if; cbn [tt_status tt_amount];
  repeat match goal with
  | |- context [transfer_done ?s] =>
      match eval vm_compute in (transfer_done s) with
      | true => change (transfer_done s) with true | false => change (transfer_done s) with false end
  | |- context [transfer_open_or_done ?s] =>
      match eval vm_compute in (transfer_open_or_done s) with
      | true => change (transfer_open_or_done s) with true
      | false => change (transfer_open_or_done s) with false end
  end; cbv iota.

Lemma open_transfer st :
  st = "RESERVED" ∨ st = "BROADCASTED" → transfer_open_or_done st = true ∧ transfer_done st = false.
Proof. by intros [-> | ->]. Qed.

(** A rewriting of a transfer that leaves it on the same side. *)
Lemma vault_transfer_quiet d d' k r r' :
  vault_accounting d → treasury_transfer_orders d !! k = Some r → same_transfer r r' →
  transfer_status_ok (tt_status r') →
  transfer_open_or_done (tt_status r') = transfer_open_or_done (tt_status r) →
  transfer_done (tt_status r') = transfer_done (tt_status r) →
  treasury_transfer_orders d' = <[k := r']> (treasury_transfer_orders d) →
  sweep_orders d' = sweep_orders d → vault_balances d' = vault_balances d →
  vault_accounting d'.
Proof.
  intros Hv Hk Hs Hst Ho Hd H1 H2 H3. assert (Hs' := Hs). destruct Hs' as (_ & _ & _ & Hamt).
  eapply vault_transfer_step; try done. intros acct.
  unfold vault_held, in_if, out_if. rewrite H3, Ho, Hd, Hamt. repeat case_decide; lia.
Qed.

Lemma ReserveTreasuryTransfer_vault inp d d' :
  vault_accounting d → ReserveTreasuryTransfer inp d = Ok d' → vault_accounting d'.
Proof.
  intros Hv H. unfold ReserveTreasuryTransfer in H.
  destruct (treasury_transfer_orders d !! _) eqn:Hk.
  { case_decide; [by injection H as <-|done]. }
  mbind_inv H. mbind_inv H. injection H as <-.
  apply getVaultBalanceTx_ok in Ha. apply subDecimalString_ok in Ha0 as (_ & _ & _ & _ & Hsub).
  change (vault_held (d <| treasury_transfer_orders ::= _ |>) ?x) with (vault_held d x) in Ha.
  destruct Hv as [G1 G2]. constructor.
  - intros acct. unfold swept_total, in_total, out_total, insertVaultJournal, update; cbn.
    rewrite !msum_insert_new, in_term_if, out_term_if by done. transfer_class. cbn.
    fold (swept_total d acct) (in_total d acct) (out_total d acct).
    match goal with |- vault_held ?x acct = _ =>
      change (vault_held x acct) with (vault_held
        (upsertVaultBalanceTx (tr_TenantID inp) (tr_FromAccountID inp) (tr_Asset inp) a0 d) acct) end.
    rewrite vault_held_upsert. specialize (G1 acct).
    repeat case_decide; subst; try lia; by destruct_and?.
  - intros k r. unfold insertVaultJournal, update; cbn.
    intros [[<- <-]|[_ Hr]]%lookup_insert_Some; [by left|by eapply G2].
Qed.

Lemma MarkTreasuryTransferBroadcasted_vault t o h rc d d' :
  vault_accounting d → MarkTreasuryTransferBroadcasted t o h rc d = Ok d' → vault_accounting d'.
Proof.
  intros Hv H. unfold MarkTreasuryTransferBroadcasted in H.
  destruct (treasury_transfer_orders d !! (t, o)) as [r|] eqn:Hk; [|done].
  destruct (bool_decide_reflect (tt_status r = "RESERVED" ∨ tt_status r = "BROADCASTED"))
    as [Hst%open_transfer|]; [|done].
  destruct Hst as [Ho Hd]. injection H as <-.
  eapply (vault_transfer_quiet d _ (t, o) r); [done|done| | | | | | |].
  5: { unfold update, updateTransfer; cbn. by apply sql_update_some. }
  all: cbn; rewrite ?Ho, ?Hd; try done. by right; left.
Qed.

Lemma ConfirmTreasuryTransferOnChain_vault inp d d' :
  vault_accounting d → ConfirmTreasuryTransferOnChain inp d = Ok d' → vault_accounting d'.
Proof.
  intros Hv H. unfold ConfirmTreasuryTransferOnChain in H. mbind_inv H.
  apply from_option_err_ok in Ha. case_decide as Hst.
  { injection H as <-. eapply (vault_transfer_quiet d _ (tc_TenantID inp, tc_TransferOrderID inp) a);
      [done|done| | | | | | |].
    5: { unfold update, updateTransfer; cbn. by apply sql_update_some. }
    all: cbn; try done. by eapply va_transfers. }
  destruct (decide (tt_status a ≠ _ ∧ _)) as [|Hop]; [done|].
  assert (tt_status a = "RESERVED" ∨ tt_status a = "BROADCASTED") as [Ho Hd]%open_transfer.
  { destruct (decide (tt_status a = "RESERVED")); [by left|]. right. apply dec_stable. tauto. }
  match type of H with (if ?c then _ else _) = _ => destruct c end.
  { injection H as <-. eapply (vault_transfer_quiet d _ (tc_TenantID inp, tc_TransferOrderID inp) a);
      [done|done| | | | | | |].
    5: { unfold update, updateTransfer; cbn. by apply sql_update_some. }
    all: cbn; rewrite ?Ho, ?Hd; try done. by right; left. }
  mbind_inv H. mbind_inv H. mbind_inv H. injection H as <-.
  apply getVaultBalanceTx_ok in Ha0. apply addDecimalString_ok in Ha2 as (_ & _ & _ & Hsum).
  eapply (vault_transfer_step d _ (tc_TenantID inp, tc_TransferOrderID inp) a); [done|done| | | | |].
  3: { unfold update, insertVaultJournal, updateTransfer; cbn. by apply sql_update_some. }
  - done.
  - by right; right; left.
  - done.
  - intros acct. unfold in_if, out_if. rewrite Ho, Hd. transfer_class. cbn [fst].
    match goal with |- vault_held ?x acct = _ =>
      change (vault_held x acct) with (vault_held
        (upsertVaultBalanceTx (tc_TenantID inp) (tt_to_account_id a) (tt_asset a) a2 d) acct) end.
    rewrite vault_held_upsert. cbn.
    destruct (decide (acct = (tc_TenantID inp, tt_to_account_id a, tt_asset a))) as [->|];
      repeat case_decide; lia.
Qed.

Lemma FailTreasuryTransferOnChain_vault t o r cf d d' :
  vault_accounting d → FailTreasuryTransferOnChain t o r cf d = Ok d' → vault_accounting d'.
Proof.
  intros Hv H. unfold FailTreasuryTransferOnChain in H. mbind_inv H.
  apply from_option_err_ok in Ha.
  case_decide; [by injection H as <-|]. case_decide; [by injection H as <-|].
  match type of H with (if ?c then _ else _) = _ => destruct c as [|Hop] end; [done|].
  apply dec_stable, open_transfer in Hop as [Ho Hd].
  mbind_inv H. mbind_inv H. injection H as <-.
  apply getVaultBalanceTx_ok in Ha0. apply addDecimalString_ok in Ha1 as (_ & _ & _ & Hsum).
  eapply (vault_transfer_step d _ (t, o) a); [done|done| | | | |].
  3: { unfold update, insertVaultJournal, updateTransfer; cbn. by apply sql_update_some. }
  - done.
  - by right; right; right.
  - done.
  - intros acct. unfold in_if, out_if. rewrite Ho, Hd. transfer_class. cbn [fst].
    match goal with |- vault_held ?x acct = _ =>
      change (vault_held x acct) with (vault_held
        (upsertVaultBalanceTx t (tt_from_account_id a) (tt_asset a) a1 d) acct) end.
    rewrite vault_held_upsert. cbn.
    destruct (decide (acct = (t, tt_from_account_id a, tt_asset a))) as [->|]; repeat case_decide; lia.
Qed.

(** ** Withdrawals and deposits leave the vaults alone *)

Ltac vault_frame H :=
  repeat match type of H with
  | (_ ≫= _) = Ok _ => mbind_inv H
  | (if ?c then _ else _) = Ok _ => destruct c
  | match ?x with _ => _ end = Ok _ => destruct x
  end;
  first [discriminate H | injection H as <-]; try done.

Lemma claim_rows_vault g picked d : same_vault d (claim_rows g picked d).2.
Proof.
  unfold claim_rows; simpl. induction picked as [|e picked IH]; [done|].
  destruct IH as (H1 & H2 & H3). simpl. by split_and!.
Qed.

Lemma freezeWithdrawTx_vault t a o c n s amt req d d' :
  freezeWithdrawTx t a o c n s amt req d = Ok d' → same_vault d d'.
Proof. unfold freezeWithdrawTx, freezeNewOrder. intros H. vault_frame H. Qed.

Lemma unfreezeBalance_vault t a f d avail d' : unfreezeBalance t a f d = Ok (avail, d') → same_vault d d'.
Proof. unfold unfreezeBalance. intros H. do 3 mbind_inv H. by injection H as <- <-. Qed.

Lemma ConfirmWithdrawOnChain_vault now t o h cf rc d d' :
  ConfirmWithdrawOnChain now t o h cf rc d = Ok d' → same_vault d d'.
Proof. unfold ConfirmWithdrawOnChain. intros H. vault_frame H. Qed.

Lemma FailWithdrawOnChain_vault now t o h r cf d d' :
  FailWithdrawOnChain now t o h r cf d = Ok d' → same_vault d d'.
Proof.
  unfold FailWithdrawOnChain. intros H. vault_frame H.
  match goal with Hu : unfreezeBalance _ _ _ _ = Ok _ |- _ => by apply unfreezeBalance_vault in Hu end.
Qed.

Lemma ReleaseWithdraw_vault now t a o r d d' :
  ReleaseWithdraw now t a o r d = Ok d' → same_vault d d'.
Proof.
  unfold ReleaseWithdraw. intros H. vault_frame H.
  match goal with Hu : unfreezeBalance _ _ _ _ = Ok _ |- _ => by apply unfreezeBalance_vault in Hu end.
Qed.

Lemma deposit_steps_vault inp d d' :
  creditStep inp d = Ok d' ∨ unlockStep inp d = Ok d' ∨ (∃ b, revertStep inp b d = Ok d') → same_vault d d'.
Proof.
  intros [H|[H|[b H]]];
    [unfold creditStep in H|unfold unlockStep in H|unfold revertStep in H];
    do 3 mbind_inv H; by injection H as <-.
Qed.

Lemma applyDeposit_vault inp eff oc ou d d' : applyDeposit inp eff oc ou d = Ok d' → same_vault d d'.
Proof.
  intros H. unfold applyDeposit in H. do 3 mbind_inv H. injection H as <-.
  assert (same_vault d a) as (F1 & F2 & F3).
  { match type of Ha with (if ?c then _ else _) = _ => destruct c end;
      [eauto using deposit_steps_vault|by injection Ha as <-]. }
  assert (same_vault a a0) as (F4 & F5 & F6).
  { match type of Ha0 with (if ?c then _ else _) = _ => destruct c end;
      [eauto using deposit_steps_vault|by injection Ha0 as <-]. }
  assert (same_vault a0 a1) as (F7 & F8 & F9).
  { match type of Ha1 with (if ?c then _ else _) = _ => destruct c end;
      [eauto using deposit_steps_vault|by injection Ha1 as <-]. }
  unfold same_vault, update; cbn. by rewrite F7, F8, F9, F4, F5, F6, F1, F2, F3.
Qed.

Lemma CreditDeposit_vault inp d d' : CreditDeposit inp d = Ok d' → same_vault d d'.
Proof. unfold CreditDeposit. intros H. destruct (_ !! _); by apply applyDeposit_vault in H. Qed.

Lemma apply_op_vault lower op d d' :
  sweeping sweep_not_done op d → apply_op lower op d = Ok d' → vault_accounting d → vault_accounting d'.
Proof.
  intros Hs H Hv. destruct op as [now c|now locked limit|now locked limit age reps]; [destruct c as [t a o c n s amt req|inp|t o h u
    |t o r delay|t o r|t o h h' u|t o r|t a o h|t o h cf rc|t o h r cf|t a o r|inp|inp|inp|inp|t o r cf|inp|t o h rc|inp|t o r cf]|..]; cbn [sweeping apply_op run_ledger] in Hs, H.
  - exact (same_vault_accounting _ _ (freezeWithdrawTx_vault _ _ _ _ _ _ _ _ _ _ H) Hv).
  - unfold QueueWithdraw in H. mbind_inv H. injection H as <-.
    apply (same_vault_accounting a); [done|].
    exact (same_vault_accounting _ _ (freezeWithdrawTx_vault _ _ _ _ _ _ _ _ _ _ Ha) Hv).
  - injection H as <-. by apply (same_vault_accounting d).
  - injection H as <-. by apply (same_vault_accounting d).
  - injection H as <-. by apply (same_vault_accounting d).
  - unfold ReplaceBroadcastedWithdraw in H. injection H as <-.
    apply (same_vault_accounting d); [by case_decide|done].
  - injection H as <-. by apply (same_vault_accounting d).
  - unfold ConfirmWithdraw in H. apply (same_vault_accounting d); [vault_frame H|done].
  - exact (same_vault_accounting _ _ (ConfirmWithdrawOnChain_vault _ _ _ _ _ _ _ _ H) Hv).
  - exact (same_vault_accounting _ _ (FailWithdrawOnChain_vault _ _ _ _ _ _ _ _ H) Hv).
  - exact (same_vault_accounting _ _ (ReleaseWithdraw_vault _ _ _ _ _ _ _ H) Hv).
  - exact (same_vault_accounting _ _ (CreditDeposit_vault _ _ _ H) Hv).
  - exact (ReserveSweep_vault _ _ _ Hv H).
  - exact (StartSweep_vault _ _ _ Hv Hs H).
  - exact (ConfirmSweepOnChain_vault _ _ _ Hv H).
  - exact (FailSweepOnChain_vault _ _ _ _ _ _ Hv H).
  - exact (ReserveTreasuryTransfer_vault _ _ _ Hv H).
  - exact (MarkTreasuryTransferBroadcasted_vault _ _ _ _ _ _ Hv H).
  - exact (ConfirmTreasuryTransferOnChain_vault _ _ _ Hv H).
  - exact (FailTreasuryTransferOnChain_vault _ _ _ _ _ _ Hv H).
  - injection H as <-. exact (same_vault_accounting _ _ (claim_rows_vault _ _ _) Hv).
  - injection H as <-. exact (same_vault_accounting _ _ (claim_rows_vault _ _ _) Hv).
Qed.

Lemma vault_accounting_empty : vault_accounting empty_ledger.
Proof.
  constructor; [|done]. intros acct. unfold vault_held, swept_total, in_total, out_total; cbn.
  by rewrite !msum_empty.
Qed.
