(* ===== verification/LedgerProperties.v ===== *)
(** * What the ledger's operations do

    Functional lemmas: the effect of freezing, releasing, confirming and
    failing on the three balance columns, and when each succeeds. *)
From S2P Require Import Prelude GoStrings GoNumbers Ports LedgerTables LedgerWithdraw LedgerQueue.
From S2P Require Import LedgerDeposit LedgerVault Calls LedgerAccounting LedgerSystem.

(** The balance of an account as three numbers. *)
Definition columns (d : ledger) (acct : account_key) : Z * Z * Z :=
  (held ba_available d acct, held ba_frozen d acct, held ba_withdraw_locked d acct).

(** [d'] is [d] after moving [dA] available and [dF] frozen on [acct]. *)
Definition shifted (acct : account_key) (dA dF : Z) (d d' : ledger) : Prop :=
  ∀ x, columns d' x = if decide (x = acct)
         then (held ba_available d x + dA, held ba_frozen d x + dF, held ba_withdraw_locked d x)
         else columns d x.

Lemma shifted_upsert t a s avail frozen locked dA dF d :
  amount avail = held ba_available d (t, a, s) + dA →
  amount frozen = held ba_frozen d (t, a, s) + dF →
  amount locked = held ba_withdraw_locked d (t, a, s) →
  shifted (t, a, s) dA dF d (upsertBalanceTx t a s avail frozen locked d).
Proof.
  intros HA HF HL x. unfold columns. rewrite !held_upsert. case_decide; [subst; simpl|done].
  by rewrite HA, HF, HL.
Qed.

(** Only the balance table matters. *)
Lemma shifted_balances acct dA dF d0 d d1 d' :
  ledger_balances d = ledger_balances d0 → ledger_balances d' = ledger_balances d1 →
  shifted acct dA dF d0 d1 → shifted acct dA dF d d'.
Proof. intros H1 H2 Hs x. unfold shifted, columns, held in *. rewrite H1, H2. apply Hs. Qed.

Lemma shifted_trans acct a1 f1 a2 f2 d1 d2 d3 :
  shifted acct a1 f1 d1 d2 → shifted acct a2 f2 d2 d3 → shifted acct (a1 + a2) (f1 + f2) d1 d3.
Proof.
  intros H1 H2 x. rewrite H2. specialize (H1 x). unfold columns in *.
  case_decide; injection H1 as -> -> ->; [|done]. by rewrite !Z.add_assoc.
Qed.

Lemma shifted_zero acct d d' : shifted acct 0 0 d d' → ∀ x, columns d' x = columns d x.
Proof. intros H x. rewrite H. case_decide; [|done]. unfold columns. by rewrite !Z.add_0_r. Qed.

Lemma shifted_held acct dA dF d d' : shifted acct dA dF d d' →
  held ba_available d' acct = held ba_available d acct + dA
  ∧ held ba_frozen d' acct = held ba_frozen d acct + dF
  ∧ held ba_withdraw_locked d' acct = held ba_withdraw_locked d acct.
Proof. intros H. specialize (H acct). rewrite decide_True in H by done. by injection H as -> -> ->. Qed.

(** ** Freezing *)

(** The row a new order is stored with. *)
Definition frozenRow (a c n s amt : string) (requiredConfs : Z) : freeze_row := {|
  fz_account_id := a; fz_chain := c; fz_network := n; fz_asset := s; fz_amount := amt;
  fz_status := "FROZEN"; fz_tx_hash := ""; fz_reason := "";
  fz_confirmations := 0; fz_required_confirmations := requiredConfs |}.

Lemma freezeNewOrder_moves t a o c n s amt req d d' :
  freezeNewOrder t a o c n s amt req d = Ok d' →
  shifted (t, a, s) (- amount amt) (amount amt) d d'
  ∧ ledger_freezes d' = sql_insert_nothing (t, o) (frozenRow a c n s amt req) (ledger_freezes d)
  ∧ held ba_withdraw_locked d (t, a, s) + amount amt ≤ held ba_available d (t, a, s).
Proof.
  intros H. unfold freezeNewOrder in H. do 5 mbind_inv H. injection H as <-.
  pose proof (getBalanceTx_ok _ _ _ _ _ Ha) as [Hav Hfr Hlk _ Hw _].
  apply subDecimalString_ok in Ha0 as (_ & _ & _ & _ & Hw').
  apply subDecimalString_ok in Ha1 as (_ & _ & _ & Hle & _).
  apply subDecimalString_ok in Ha2 as (_ & _ & _ & _ & Hsub).
  apply addDecimalString_ok in Ha3 as (_ & _ & _ & Hadd).
  split_and!; [|done|lia].
  eapply shifted_balances; [reflexivity| |apply (shifted_upsert t a s a3 a4 (bs_WithdrawLocked a0))];
    [reflexivity|lia..].
Qed.

Lemma freezeNewOrder_effect t a o c n s amt req d d' :
  ledger_freezes d !! (t, o) = None → freezeNewOrder t a o c n s amt req d = Ok d' →
  shifted (t, a, s) (- amount amt) (amount amt) d d'
  ∧ ledger_freezes d' = <[(t, o) := frozenRow a c n s amt req]> (ledger_freezes d)
  ∧ held ba_withdraw_locked d (t, a, s) + amount amt ≤ held ba_available d (t, a, s).
Proof. intros Hk (? & Hf & ?)%freezeNewOrder_moves. by rewrite sql_insert_nothing_new in Hf. Qed.

Lemma freezeNewOrder_succeeds t a o c n s amt req d :
  accounting d → is_amount amt = true →
  held ba_withdraw_locked d (t, a, s) + amount amt ≤ held ba_available d (t, a, s) →
  ∃ d', freezeNewOrder t a o c n s amt req d = Ok d'.
Proof.
  intros Hacc Hamt Hle. pose proof (amount_nonneg amt). pose proof (held_nonneg ba_withdraw_locked d (t, a, s)).
  destruct (getBalanceTx_succeeds t a s d Hacc) as [bs Hbs]; [lia|].
  pose proof (getBalanceTx_ok _ _ _ _ _ Hbs) as [Hav Hfr Hlk Hsol _ (Hia & Hil & _)].
  pose proof (getBalanceTx_frozen_amount _ _ _ _ _ Hacc Hbs) as Hif.
  unfold freezeNewOrder. rewrite Hbs. cbn.
  destruct (subDecimalString_succeeds (bs_Available bs) (bs_WithdrawLocked bs)) as [w Hw]; [done..|lia|].
  unfold computeWithdrawable. rewrite Hw. cbn.
  apply subDecimalString_ok in Hw as (_ & _ & Hiw & _ & Hw).
  destruct (subDecimalString_succeeds w amt) as [? ->]; [done..|lia|]. cbn.
  destruct (subDecimalString_succeeds (bs_Available bs) amt) as [? ->]; [done..|lia|]. cbn.
  destruct (addDecimalString_succeeds (bs_Frozen bs) amt) as [? ->]; [done..|]. cbn. eauto.
Qed.

Lemma freezeNewOrder_insufficient t a o c n s amt req d :
  accounting d → is_amount amt = true →
  held ba_available d (t, a, s) < held ba_withdraw_locked d (t, a, s) + amount amt →
  freezeNewOrder t a o c n s amt req d = Err (Errorf "insufficient balance").
Proof.
  intros Hacc Hamt Hlt. unfold freezeNewOrder.
  destruct (decide (held ba_available d (t, a, s) < held ba_withdraw_locked d (t, a, s))).
  { by rewrite getBalanceTx_locked_out. }
  destruct (getBalanceTx_succeeds t a s d Hacc) as [bs Hbs]; [lia|]. rewrite Hbs. cbn.
  pose proof (getBalanceTx_ok _ _ _ _ _ Hbs) as [Hav _ Hlk _ _ (Hia & Hil & _)].
  destruct (subDecimalString_succeeds (bs_Available bs) (bs_WithdrawLocked bs)) as [w Hw]; [done..|lia|].
  unfold computeWithdrawable. rewrite Hw. cbn.
  apply subDecimalString_ok in Hw as (_ & _ & Hiw & _ & Hw).
  by rewrite (subDecimalString_insufficient w amt) by (done || lia).
Qed.

(** ** Giving back and paying out *)

Lemma unfreezeBalance_effect t a f d avail d' :
  unfreezeBalance t a f d = Ok (avail, d') →
  shifted (t, a, fz_asset f) (amount (fz_amount f)) (- amount (fz_amount f)) d d'
  ∧ ledger_freezes d' = ledger_freezes d.
Proof.
  intros H. unfold unfreezeBalance in H. do 3 mbind_inv H. injection H as <- <-.
  pose proof (getBalanceTx_ok _ _ _ _ _ Ha) as [Hav Hfr Hlk _ _ _].
  apply addDecimalString_ok in Ha0 as (_ & _ & _ & Hadd).
  apply subDecimalString_ok in Ha1 as (_ & _ & _ & _ & Hsub).
  split; [|done]. apply shifted_upsert; lia.
Qed.

(** An open order of a well-formed ledger can be given back as long as its
    account is not locked beyond what it has. *)
Lemma unfreezeBalance_succeeds t o f d :
  accounting d → ledger_freezes d !! (t, o) = Some f → is_active (fz_status f) = true →
  held ba_withdraw_locked d (t, fz_account_id f, fz_asset f)
    ≤ held ba_available d (t, fz_account_id f, fz_asset f) →
  ∃ p, unfreezeBalance t (fz_account_id f) f d = Ok p.
Proof.
  intros Hacc Hk Hact Hle.
  destruct (getBalanceTx_succeeds t (fz_account_id f) (fz_asset f) d Hacc Hle) as [bs Hbs].
  pose proof (getBalanceTx_ok _ _ _ _ _ Hbs) as [Hav Hfr Hlk Hsol _ (Hia & Hil & _)].
  pose proof (getBalanceTx_frozen_amount _ _ _ _ _ Hacc Hbs) as Hif.
  destruct (acc_freeze_rows _ Hacc _ _ Hk) as [_ Hamt].
  pose proof (frozen_total_ge _ _ _ Hk Hact) as Hge. cbn [fst] in Hge.
  rewrite <- (acc_frozen _ Hacc) in Hge.
  unfold unfreezeBalance. rewrite Hbs. cbn.
  destruct (addDecimalString_succeeds (bs_Available bs) (fz_amount f)) as [? ->]; [done..|]. cbn.
  destruct (subDecimalString_succeeds (bs_Frozen bs) (fz_amount f)) as [? ->]; [done..|lia|]. cbn. eauto.
Qed.

Lemma unfreezeBalance_congr t a f d d' :
  ledger_balances d' = ledger_balances d →
  is_ok (unfreezeBalance t a f d') = is_ok (unfreezeBalance t a f d).
Proof.
  intros H. unfold unfreezeBalance, getBalanceTx. rewrite H.
  destruct (ledger_balances d !! _) as [b|]; cbn; [destruct (computeWithdrawable _ _); cbn; [|done]|];
    destruct (addDecimalString _ _); cbn; try done; by destruct (subDecimalString _ _).
Qed.

(** What releasing an open order commits. *)
Lemma ReleaseWithdraw_effect now t a o reason f d d' :
  ledger_freezes d !! (t, o) = Some f → is_active (fz_status f) = true →
  ReleaseWithdraw now t a o reason d = Ok d' →
  shifted (t, a, fz_asset f) (amount (fz_amount f)) (- amount (fz_amount f)) d d'
  ∧ ledger_freezes d' = <[(t, o) := f <| fz_status := "RELEASED" |> <| fz_reason := reason |>]> (ledger_freezes d).
Proof.
  intros Hk Hact H. unfold ReleaseWithdraw in H. rewrite Hk in H. cbn [from_option_err] in H.
  rewrite bind_ok in H. case_decide as Hr; [rewrite Hr in Hact; done|].
  case_decide; [done|]. mbind_inv H. destruct a0 as [avail d1]. injection H as <-.
  apply unfreezeBalance_effect in Ha as [Hs Hf]. split.
  - eapply shifted_balances; [| |exact Hs]; done.
  - unfold updateJob, insertJournal, update; cbn. rewrite Hf.
    unfold cancelEntries, insertEntry, setFreezeEntryStatus, updateFreeze, update; cbn.
    by erewrite sql_update_some by done.
Qed.

Lemma ReleaseWithdraw_succeeds now t o reason f d :
  accounting d → ledger_freezes d !! (t, o) = Some f → is_active (fz_status f) = true →
  held ba_withdraw_locked d (t, fz_account_id f, fz_asset f)
    ≤ held ba_available d (t, fz_account_id f, fz_asset f) →
  ∃ d', ReleaseWithdraw now t (fz_account_id f) o reason d = Ok d'.
Proof.
  intros Hacc Hk Hact Hle. unfold ReleaseWithdraw. rewrite Hk. cbn [from_option_err]. rewrite bind_ok.
  case_decide as Hr; [eauto|]. unfold is_active in Hact. apply bool_decide_eq_true in Hact.
  rewrite decide_False by tauto.
  match goal with |- ∃ _, (unfreezeBalance t ?a f ?d1 ≫= _) = _ =>
    pose proof (unfreezeBalance_congr t a f d d1 eq_refl) as Hc;
    destruct (unfreezeBalance t a f d1) as [[avail d2]|] end; [cbn; eauto|].
  destruct (unfreezeBalance_succeeds t o f d) as [p Hp]; [done..|by apply bool_decide_eq_true|done|].
  rewrite Hp in Hc. done.
Qed.

(** ** Settling on chain *)

(** The confirmation threshold [ConfirmWithdrawOnChain] uses. *)
Definition effectiveRequired (requested stored : Z) : Z :=
  let r := if decide (requested ≤ 0) then stored else requested in
  if decide (r ≤ 0) then 1 else r.

Lemma ConfirmWithdrawOnChain_pays now t o h cf req f d d' :
  ledger_freezes d !! (t, o) = Some f → is_active (fz_status f) = true →
  effectiveRequired req (fz_required_confirmations f) ≤ Z.max cf (fz_confirmations f) →
  ConfirmWithdrawOnChain now t o h cf req d = Ok d' →
  shifted (t, fz_account_id f, fz_asset f) 0 (- amount (fz_amount f)) d d'
  ∧ ∃ f', ledger_freezes d' = <[(t, o) := f']> (ledger_freezes d)
          ∧ same_claim f f' ∧ fz_status f' = "CONFIRMED" ∧ fz_tx_hash f' = h.
Proof.
  intros Hk Hact Hreq H. unfold is_active in Hact. apply bool_decide_eq_true in Hact.
  unfold ConfirmWithdrawOnChain in H. rewrite Hk in H. cbn [from_option_err] in H.
  rewrite bind_ok in H. fold (effectiveRequired req (fz_required_confirmations f)) in H.
  destruct (decide (fz_status f = "CONFIRMED")) as [Hc|_]; [destruct Hact; congruence|].
  destruct (decide (fz_status f ≠ _ ∧ _)); [tauto|].
  match type of H with (if decide (?c < _) then _ else _) = _ => destruct (decide (c < _)) as [Hlt|_] end.
  { case_decide; lia. }
  mbind_inv H. mbind_inv H. injection H as <-.
  pose proof (getBalanceTx_ok _ _ _ _ _ Ha) as [Hav Hfr Hlk _ _ _].
  apply subDecimalString_ok in Ha0 as (_ & _ & _ & _ & Hsub). split.
  - eapply shifted_balances; [reflexivity| |apply (shifted_upsert t (fz_account_id f) (fz_asset f)
      (bs_Available a) a0 (bs_WithdrawLocked a))]; [reflexivity|lia..].
  - match goal with |- ∃ f', ledger_freezes (setAttemptStatus _ _ _ _ (updateJob _ _ _ (insertJournal _ _ _ _ _ _ _ _
        (insertEntry _ _ _ _ _ _ _ (setFreezeEntryStatus _ _ _ (updateFreeze _ _ ?g _)))))) = _ ∧ _ =>
      exists (g f); split; [exact (sql_update_some (t, o) g _ f Hk)|by split_and!] end.
Qed.

(** A notification about a confirmed order moves no money and keeps it
    confirmed. *)
Lemma ConfirmWithdrawOnChain_again now t o h cf req f d :
  ledger_freezes d !! (t, o) = Some f → fz_status f = "CONFIRMED" →
  ∃ d', ConfirmWithdrawOnChain now t o h cf req d = Ok d'
        ∧ ledger_balances d' = ledger_balances d
        ∧ fz_status <$> ledger_freezes d' !! (t, o) = Some "CONFIRMED".
Proof.
  intros Hk Hst. unfold ConfirmWithdrawOnChain. rewrite Hk. cbn [from_option_err]. rewrite bind_ok.
  rewrite (decide_True (P := fz_status f = "CONFIRMED")) by done. eexists. split_and!; [done|done|].
  unfold setAttemptStatus, updateFreeze, update; cbn. rewrite sql_update_eq, Hk. cbn. by rewrite Hst.
Qed.

Lemma FailWithdrawOnChain_closed now t o h reason cf f d :
  ledger_freezes d !! (t, o) = Some f → is_active (fz_status f) = false →
  freeze_status_ok (fz_status f) →
  FailWithdrawOnChain now t o h reason cf d = Ok (setAttemptStatus t o h "FAILED" d).
Proof.
  intros Hk Hact Hst. unfold FailWithdrawOnChain. rewrite Hk. cbn [from_option_err]. rewrite bind_ok.
  destruct Hst as [Hs|[Hs|[Hs|Hs]]]; rewrite Hs in Hact |- *; done.
Qed.

(** ** Locked-out accounts *)

(** More is locked than is available: [computeWithdrawable] fails, and with it
    every operation that reads the balance first. *)
Lemma ReleaseWithdraw_locked_out now t o reason f d :
  accounting d → ledger_freezes d !! (t, o) = Some f → is_active (fz_status f) = true →
  held ba_available d (t, fz_account_id f, fz_asset f)
    < held ba_withdraw_locked d (t, fz_account_id f, fz_asset f) →
  ReleaseWithdraw now t (fz_account_id f) o reason d = Err (Errorf "insufficient balance").
Proof.
  intros Hacc Hk Hact Hout. unfold is_active in Hact. apply bool_decide_eq_true in Hact.
  pose proof (getBalanceTx_locked_out _ _ _ _ Hacc Hout) as Hbal.
  unfold ReleaseWithdraw. rewrite Hk. cbn [from_option_err]. rewrite bind_ok.
  rewrite (decide_False (P := fz_status f = "RELEASED")) by (destruct Hact; congruence).
  rewrite (decide_False (P := fz_status f ≠ _ ∧ _)) by tauto.
  unfold unfreezeBalance.
  match goal with |- ((getBalanceTx ?t ?a ?s ?d1 ≫= _) ≫= _) = _ =>
    change (getBalanceTx t a s d1) with (getBalanceTx t a s d) end.
  by rewrite Hbal.
Qed.

Lemma locked_out_blocks now t o h cf req f d reason :
  accounting d → ledger_freezes d !! (t, o) = Some f → is_active (fz_status f) = true →
  held ba_available d (t, fz_account_id f, fz_asset f)
    < held ba_withdraw_locked d (t, fz_account_id f, fz_asset f) →
  effectiveRequired req (fz_required_confirmations f) ≤ Z.max cf (fz_confirmations f) →
  ConfirmWithdrawOnChain now t o h cf req d = Err (Errorf "insufficient balance")
  ∧ ReleaseWithdraw now t (fz_account_id f) o reason d = Err (Errorf "insufficient balance").
Proof.
  intros Hacc Hk Hact Hout Hreq. split; [|by apply ReleaseWithdraw_locked_out].
  unfold is_active in Hact. apply bool_decide_eq_true in Hact.
  pose proof (getBalanceTx_locked_out _ _ _ _ Hacc Hout) as Hbal.
  unfold ConfirmWithdrawOnChain. rewrite Hk. cbn [from_option_err].
  rewrite bind_ok. fold (effectiveRequired req (fz_required_confirmations f)).
  rewrite (decide_False (P := fz_status f = "CONFIRMED")) by (destruct Hact; congruence).
  rewrite (decide_False (P := fz_status f ≠ _ ∧ _)) by tauto.
  match goal with |- (if decide (?c < _) then _ else _) = _ =>
    rewrite (decide_False (P := c < _)) by (case_decide; lia) end.
  by rewrite Hbal.
Qed.

(** * The ledger's properties

    The claims about [PostgresLedger], each followed by a concrete run of it
    where it has hypotheses. *)
From S2P Require Import Prelude GoStrings GoNumbers Ports LedgerTables LedgerWithdraw LedgerQueue.
From S2P Require Import LedgerDeposit LedgerVault Calls LedgerAccounting LedgerSystem VaultAccounting.

(** ** A run to instantiate them with *)

Module Demo.
Definition deposit (order amt st : string) (confs : Z) : DepositCreditInput := {|
  dc_TenantID := "t"; dc_AccountID := "alice"; dc_OrderID := order; dc_Chain := "ethereum";
  dc_Network := "mainnet"; dc_Coin := "ETH"; dc_Amount := amt; dc_TxHash := "0xdd";
  dc_FromAddress := "0xf"; dc_ToAddress := "0xa"; dc_Confirmations := confs; dc_RequiredConfs := 3;
  dc_UnlockConfs := 6; dc_ScanStatus := st; dc_Status := "" |}.

(** 100 credited and unlocked. *)
Definition funded : ledger := run_tx (CreditDeposit (deposit "dep-1" "100" "" 10)) empty_ledger.
(** 60 of them frozen for order [w-1]. *)
Definition frozen : ledger :=
  run_tx (FreezeWithdraw "t" "alice" "w-1" "ethereum" "mainnet" "ETH" "60" 2) funded.
(** [w-1] broadcast, then paid. *)
Definition broadcast : ledger := run_tx (ConfirmWithdraw 1 "t" "alice" "w-1" "0xh") frozen.
Definition paid : ledger := run_tx (ConfirmWithdrawOnChain 2 "t" "w-1" "0xh" 2 0) broadcast.

Definition account : account_key := ("t", "alice", "ETH").
Definition any_sweep (inp : SweepCollectInput) (d : ledger) : Prop := True.

Lemma funded_ok : CreditDeposit (deposit "dep-1" "100" "" 10) empty_ledger = Ok funded.
Proof. run_tx_ok. Qed.
Lemma frozen_ok : FreezeWithdraw "t" "alice" "w-1" "ethereum" "mainnet" "ETH" "60" 2 funded = Ok frozen.
Proof. run_tx_ok. Qed.
Lemma broadcast_ok : ConfirmWithdraw 1 "t" "alice" "w-1" "0xh" frozen = Ok broadcast.
Proof. run_tx_ok. Qed.
Lemma paid_ok : ConfirmWithdrawOnChain 2 "t" "w-1" "0xh" 2 0 broadcast = Ok paid.
Proof. run_tx_ok. Qed.

Lemma same_deposit_empty inp : same_deposit inp empty_ledger.
Proof. intros r Hr. cbn in Hr. by rewrite lookup_empty in Hr. Qed.
Lemma funded_reachable ok : reachable ToLower ok funded.
Proof.
  by apply rtc_once, (step_op _ _ (OpCall 0 (CreditDepositCall _)) _ _ (same_deposit_empty _) I funded_ok).
Qed.
Lemma frozen_reachable ok : reachable ToLower ok frozen.
Proof. eapply rtc_r; [apply funded_reachable|]. exact (step_op _ _ (OpCall 0 (FreezeWithdrawCall _ _ _ _ _ _ _ _)) _ _ I I frozen_ok). Qed.
Lemma frozen_paid ok : rtc (ledger_step ToLower ok) frozen paid.
Proof.
  eapply rtc_l; [exact (step_op _ _ (OpCall 1 (ConfirmWithdrawCall _ _ _ _)) _ _ I I broadcast_ok)|].
  apply rtc_once. exact (step_op _ _ (OpCall 2 (ConfirmWithdrawOnChainCall _ _ _ _ _)) _ _ I I paid_ok).
Qed.
Lemma paid_reachable ok : reachable ToLower ok paid.
Proof. unfold reachable. etrans; [apply frozen_reachable|apply frozen_paid]. Qed.

Definition accounting_of d (H : reachable ToLower any_sweep d) : accounting d :=
  reachable_ind_accounting _ _ _ H.
Lemma funded_accounting : accounting funded.
Proof. apply accounting_of, funded_reachable. Qed.
Lemma frozen_accounting : accounting frozen.
Proof. apply accounting_of, frozen_reachable. Qed.

(** A second deposit of 150, credited but locked; 100 frozen for [w-2]; then
    the first deposit is reorganised away. *)
Definition late : ledger := run_tx (CreditDeposit (deposit "dep-2" "150" "" 4)) funded.
Definition late_frozen : ledger :=
  run_tx (FreezeWithdraw "t" "alice" "w-2" "ethereum" "mainnet" "ETH" "100" 2) late.
Definition reorganised : ledger := run_tx (CreditDeposit (deposit "dep-1" "100" "REORGED" 10)) late_frozen.

Lemma late_ok : CreditDeposit (deposit "dep-2" "150" "" 4) funded = Ok late.
Proof. run_tx_ok. Qed.
Lemma late_frozen_ok : FreezeWithdraw "t" "alice" "w-2" "ethereum" "mainnet" "ETH" "100" 2 late = Ok late_frozen.
Proof. run_tx_ok. Qed.
Lemma reorganised_ok : CreditDeposit (deposit "dep-1" "100" "REORGED" 10) late_frozen = Ok reorganised.
Proof. run_tx_ok. Qed.

Lemma same_deposit_lookup inp d o :
  deposit_events d !! depositKey inp = o →
  match o with
  | Some r => de_account_id r = dc_AccountID inp ∧ de_coin r = dc_Coin inp
              ∧ amount (de_amount r) = amount (dc_Amount inp)
  | None => True
  end → same_deposit inp d.
Proof. intros <- H r Hr _. by rewrite Hr in H. Qed.

Lemma reorganised_reachable : reachable ToLower sweep_not_done reorganised.
Proof.
  eapply rtc_r; [eapply rtc_r; [eapply rtc_r; [apply funded_reachable|]|]|].
  - refine (step_op _ _ (OpCall 0 (CreditDepositCall _)) _ _ _ I late_ok). by eapply same_deposit_lookup; [vm_compute; reflexivity|].
  - exact (step_op _ _ (OpCall 0 (FreezeWithdrawCall _ _ _ _ _ _ _ _)) _ _ I I late_frozen_ok).
  - refine (step_op _ _ (OpCall 0 (CreditDepositCall _)) _ _ _ I reorganised_ok).
    by eapply same_deposit_lookup; [vm_compute; reflexivity|].
Qed.

(** Another account with 70 of its own 80 frozen. *)
Definition bob : DepositCreditInput := {|
  dc_TenantID := "t"; dc_AccountID := "bob"; dc_OrderID := "dep-3"; dc_Chain := "ethereum";
  dc_Network := "mainnet"; dc_Coin := "ETH"; dc_Amount := "80"; dc_TxHash := "0xde";
  dc_FromAddress := "0xf"; dc_ToAddress := "0xb"; dc_Confirmations := 10; dc_RequiredConfs := 3;
  dc_UnlockConfs := 6; dc_ScanStatus := ""; dc_Status := "" |}.
Definition both_funded : ledger := run_tx (CreditDeposit bob) frozen.
Definition both_frozen : ledger :=
  run_tx (FreezeWithdraw "t" "bob" "w-4" "ethereum" "mainnet" "ETH" "70" 2) both_funded.
Lemma both_funded_ok : CreditDeposit bob frozen = Ok both_funded.
Proof. run_tx_ok. Qed.
Lemma both_frozen_ok : FreezeWithdraw "t" "bob" "w-4" "ethereum" "mainnet" "ETH" "70" 2 both_funded = Ok both_frozen.
Proof. run_tx_ok. Qed.
Lemma both_frozen_accounting : accounting both_frozen.
Proof.
  assert (Hs : same_deposit bob frozen) by (eapply same_deposit_lookup; [vm_compute; reflexivity|done]).
  pose proof (CreditDeposit_accounting _ _ _ frozen_accounting Hs both_funded_ok) as Hacc.
  exact (freezeWithdrawTx_accounting _ _ _ _ _ _ _ _ _ _ Hacc both_frozen_ok).
Qed.

Definition tx (from amt : string) : BuildUnsignedParams := {|
  bp_Chain := "Ethereum"; bp_Network := "mainnet"; bp_Coin := "ETH"; bp_From := from; bp_To := "0xb";
  bp_Amount := amt; bp_Base64Tx := ""; bp_ContractAddress := ""; bp_AmountUnit := "";
  bp_TokenDecimals := 0; bp_Fee := ""; bp_Vin := []; bp_Vout := [] |}.
Definition request : WithdrawQueueInput := {|
  wq_TenantID := "t"; wq_AccountID := "alice"; wq_OrderID := "w-3"; wq_RequiredConfs := 2;
  wq_Signers := []; wq_SignType := "ecdsa"; wq_Tx := tx "0xAA" "10" |}.
(** 10 frozen and queued for order [w-3], then claimed. *)
Definition queued : ledger := run_tx (QueueWithdraw 1000 request) funded.
Definition claimed : list WithdrawJob * ledger :=
  claim_rows (startProcessing 2000) (queued_picked ToLower 2000 (λ _, false) 5 queued) queued.

(** Three orders queued, two of one sender; two claims; the first order asked
    for again, sent, and a third claim. *)
Definition ask (order from : string) : ledger_op := OpCall 1000 (QueueWithdrawCall {|
  wq_TenantID := "t"; wq_AccountID := "alice"; wq_OrderID := order; wq_RequiredConfs := 2;
  wq_Signers := []; wq_SignType := "ecdsa"; wq_Tx := tx from "10" |}).
Definition claim (now : Z) : ledger_op := OpClaimQueued now (λ _, false) 5.
Definition two_claims : list ledger_op :=
  [OpCall 0 (CreditDepositCall (deposit "dep-1" "100" "" 10)); ask "w-3" "0xAA"; ask "w-5" "0xaa"; ask "w-6" "0xBB"; claim 2000; claim 2001].
Definition third_claim : list ledger_op :=
  two_claims ++ [ask "w-3" "0xaA"; OpCall 2100 (ConfirmWithdrawCall "t" "alice" "w-3" "0xh"); OpCall 2100 (MarkQueuedWithdrawDoneCall "t" "w-3" "0xh" ""); claim 2200].
Definition job_status (o : string) (d : ledger) : option string := jb_status <$> withdraw_jobs d !! ("t", o).

(** A finished sweep of 25. *)
Definition sweep : SweepCollectInput := {|
  sc_TenantID := "t"; sc_FromAccountID := "alice"; sc_TreasuryAccountID := "vault"; sc_SweepOrderID := "s-1";
  sc_Chain := "ethereum"; sc_Network := "mainnet"; sc_Asset := "ETH"; sc_Amount := "25"; sc_TxHash := "0xs";
  sc_RequiredConfs := 1 |}.
Definition sweep_reserve : SweepReserveInput := {|
  sv_TenantID := "t"; sv_FromAccountID := "alice"; sv_TreasuryAccountID := "vault"; sv_SweepOrderID := "s-1";
  sv_Chain := "ethereum"; sv_Network := "mainnet"; sv_Asset := "ETH"; sv_Amount := "25"; sv_RequiredConfs := 1 |}.
Definition sweep_confirm : SweepConfirmInput := {|
  sf_TenantID := "t"; sf_SweepOrderID := "s-1"; sf_TxHash := "0xs"; sf_Confirmations := 3; sf_RequiredConfs := 1 |}.
Definition swept : ledger := run_tx (ConfirmSweepOnChain sweep_confirm) (run_tx (StartSweep sweep) empty_ledger).

(** The sweep reserved, started and confirmed; 10 of it moved on to a cold
    vault, and a transfer of 5 that fails, with one of 3 still open. *)
Definition transfer (order amt : string) : ledger_op := OpCall 0 (ReserveTreasuryTransferCall {|
  tr_TenantID := "t"; tr_TransferOrderID := order; tr_FromAccountID := "vault"; tr_ToAccountID := "cold";
  tr_Chain := "ethereum"; tr_Network := "mainnet"; tr_Asset := "ETH"; tr_Amount := amt; tr_RequiredConfirmations := 1;
  tr_SourceTier := "HOT"; tr_DestinationTier := "COLD" |}).
Definition treasury : list ledger_op :=
  [OpCall 0 (ReserveSweepCall sweep_reserve); OpCall 0 (StartSweepCall sweep); OpCall 0 (ConfirmSweepOnChainCall sweep_confirm); transfer "x-1" "10";
   OpCall 0 (MarkTreasuryTransferBroadcastedCall "t" "x-1" "0xt" 1);
   OpCall 0 (ConfirmTreasuryTransferOnChainCall {| tc_TenantID := "t"; tc_TransferOrderID := "x-1"; tc_TxHash := "0xt"; tc_Confirmations := 2; tc_RequiredConfs := 1 |});
   transfer "x-2" "5"; OpCall 0 (FailTreasuryTransferOnChainCall "t" "x-2" "rejected" 0); transfer "x-3" "3"].

(** Deposits, a payment, a release and a failed one, with a transaction that is
    refused. *)
Definition life : list ledger_op :=
  [OpCall 0 (CreditDepositCall (deposit "dep-1" "100" "" 10)); OpCall 0 (CreditDepositCall (deposit "dep-2" "50" "" 4)); OpCall 0 (CreditDepositCall (deposit "dep-2" "50" "" 8));
   OpCall 0 (FreezeWithdrawCall "t" "alice" "w-1" "ethereum" "mainnet" "ETH" "60" 2); OpCall 1 (ConfirmWithdrawCall "t" "alice" "w-1" "0xh");
   OpCall 2 (ConfirmWithdrawOnChainCall "t" "w-1" "0xh" 2 0); OpCall 0 (FreezeWithdrawCall "t" "alice" "w-2" "ethereum" "mainnet" "ETH" "1000" 2);
   OpCall 0 (FreezeWithdrawCall "t" "alice" "w-4" "ethereum" "mainnet" "ETH" "20" 2); OpCall 3 (ReleaseWithdrawCall "t" "alice" "w-4" "refused");
   OpCall 0 (FreezeWithdrawCall "t" "alice" "w-7" "ethereum" "mainnet" "ETH" "30" 2)].
End Demo.

(** ** Invariants of every run *)

(** C1. After any run of the ledger's methods, one transaction after the other,
    refused ones rolled back, in which a release names the account of the order
    and a notification of a credited deposit agrees with it ([agreeing], which
    the methods do not check), for every account: the frozen column is the sum of
    the open freezes; available plus frozen plus what was paid out on chain is
    what deposits credited; the locked column is the sum of the credited deposits
    that are not final; every stored amount is a valid decimal. *)
Theorem runs_keep_accounting (lower : string → string) (ops : list ledger_op) :
  respects lower agreeing ops empty_ledger → accounting (commit_all lower ops empty_ledger).
Proof.
  intros Hr. apply (commit_all_invariant lower agreeing); [|done|apply accounting_empty].
  intros op d d'. apply apply_op_accounting.
Qed.

Lemma runs_keep_accounting_witness :
  accounting (commit_all ToLower Demo.life empty_ledger)
  ∧ columns (commit_all ToLower Demo.life empty_ledger) Demo.account = (60, 30, 0).
Proof.
  split; [|by vm_compute]. apply (runs_keep_accounting ToLower). apply (bool_decide_unpack _). vm_compute. exact I.
Defined.

(** C2. Once an order exists it is never deleted, its account, asset and amount
    never change, and its status only moves FROZEN to BROADCASTED and from
    those to CONFIRMED or RELEASED, where it stays. *)
Theorem order_lifecycle (lower : string → string) (ok : SweepCollectInput → ledger → Prop) (d d' : ledger)
    (k : order_key) (f : freeze_row) :
  reachable lower ok d → rtc (ledger_step lower ok) d d' → ledger_freezes d !! k = Some f →
  ∃ f', ledger_freezes d' !! k = Some f' ∧ same_claim f f' ∧ status_edge (fz_status f) (fz_status f')
        ∧ (fz_status f = "CONFIRMED" ∨ fz_status f = "RELEASED" → fz_status f' = fz_status f).
Proof.
  intros Hd Hr Hk. destruct (reachable_orders _ _ _ _ Hd Hr k f Hk) as (f' & Hk' & Hs & He).
  exists f'. split_and!; [done..|]. unfold status_edge in He. intuition congruence.
Qed.

Lemma order_lifecycle_witness :
  ∃ f f', ledger_freezes Demo.frozen !! ("t", "w-1") = Some f ∧ fz_status f = "FROZEN"
    ∧ ledger_freezes Demo.paid !! ("t", "w-1") = Some f' ∧ same_claim f f'.
Proof.
  destruct (ledger_freezes Demo.frozen !! ("t", "w-1")) as [f|] eqn:Hf; [|exfalso; by vm_compute in Hf].
  destruct (order_lifecycle ToLower Demo.any_sweep _ _ _ _ (Demo.frozen_reachable _) (Demo.frozen_paid _) Hf)
    as (f' & Hf' & Hc & _).
  exists f, f'. split_and!; [done| |done|done]. vm_compute in Hf. by injection Hf as <-.
Defined.

(** C27. After any run of the ledger's methods, one transaction after the other,
    in which no finished sweep is started again, every vault holds what finished
    sweeps and incoming transfers brought, less what reserved, broadcast and
    finished transfers took. *)
Theorem runs_balance_vaults (lower : string → string) (ops : list ledger_op) (acct : account_key) :
  respects lower (sweeping sweep_not_done) ops empty_ledger →
  let d := commit_all lower ops empty_ledger in
  vault_held d acct = swept_total d acct + in_total d acct - out_total d acct.
Proof.
  intros Hr d. apply va_balance, (commit_all_invariant lower (sweeping sweep_not_done)); [|done|apply vault_accounting_empty].
  intros op d1 d2. apply apply_op_vault.
Qed.

(** Sums over tables are evaluated as what the vault holds. *)
Lemma runs_balance_vaults_witness :
  let d := commit_all ToLower Demo.treasury empty_ledger in
  let hot := ("t", "vault", "ETH") in let cold := ("t", "cold", "ETH") in
  (vault_held d hot, vault_held d cold) = (12, 10)
  ∧ swept_total d hot + in_total d hot - out_total d hot = 12
  ∧ swept_total d cold + in_total d cold - out_total d cold = 10.
Proof.
  intros d hot cold. assert (Hr : respects ToLower (sweeping sweep_not_done) Demo.treasury empty_ledger).
  { apply (bool_decide_unpack _). vm_compute. exact I. }
  assert (V1 : vault_held d hot = 12) by (by vm_compute). assert (V2 : vault_held d cold = 10) by (by vm_compute).
  rewrite V1, V2. split_and!; [done|..].
  - etrans; [symmetry; exact (runs_balance_vaults ToLower Demo.treasury hot Hr)|exact V1].
  - etrans; [symmetry; exact (runs_balance_vaults ToLower Demo.treasury cold Hr)|exact V2].
Defined.

(** ** Freezing, releasing, settling *)

(** Freezing a new order succeeds exactly when the amount fits into what is
    available and not locked; it then moves the amount from available to
    frozen, touches no other account, and stores the order as FROZEN.
    Otherwise it fails with [insufficient balance]. *)
Theorem freeze_new_order (t a o c n s amt : string) (req : Z) (d : ledger) :
  accounting d → s ≠ "" → c ≠ "" → n ≠ "" → is_amount amt = true → ledger_freezes d !! (t, o) = None →
  if decide (held ba_withdraw_locked d (t, a, s) + amount amt ≤ held ba_available d (t, a, s))
  then ∃ d', FreezeWithdraw t a o c n s amt req d = Ok d'
       ∧ shifted (t, a, s) (- amount amt) (amount amt) d d'
       ∧ ledger_freezes d' = <[(t, o) := frozenRow a c n s amt (Z.max 1 req)]> (ledger_freezes d)
  else FreezeWithdraw t a o c n s amt req d = Err (Errorf "insufficient balance").
Proof.
  intros Hacc Hs Hc Hn Hamt Hk. unfold FreezeWithdraw, freezeWithdrawTx.
  rewrite (decide_False (P := s = "" ∨ _)) by tauto. rewrite Hk.
  replace (if decide (req ≤ 0) then 1 else req) with (Z.max 1 req) by (case_decide; lia).
  case_decide as Hle; [|apply freezeNewOrder_insufficient; (done || lia)].
  destruct (freezeNewOrder_succeeds t a o c n s amt (Z.max 1 req) d Hacc Hamt Hle) as [d' Hd'].
  exists d'. destruct (freezeNewOrder_effect _ _ _ _ _ _ _ _ _ _ Hk Hd') as (? & ? & _). done.
Qed.

Lemma freeze_new_order_witness :
  ∃ d', FreezeWithdraw "t" "alice" "w-1" "ethereum" "mainnet" "ETH" "60" 2 Demo.funded = Ok d'
    ∧ held ba_frozen d' Demo.account = 60.
Proof.
  pose proof (freeze_new_order "t" "alice" "w-1" "ethereum" "mainnet" "ETH" "60" 2 Demo.funded
    Demo.funded_accounting ltac:(done) ltac:(done) ltac:(done) ltac:(by vm_compute) ltac:(by vm_compute)) as H.
  rewrite decide_True in H by by vm_compute. destruct H as (d' & H & _ & _). exists d'. split; [done|].
  assert (d' = Demo.frozen) as -> by (pose proof Demo.frozen_ok; congruence). by vm_compute.
Defined.

(** Freezing an order that exists moves nothing: it reports success when the
    order is frozen, broadcast or confirmed, whatever the arguments, and an
    error when it was released. *)
Theorem freeze_existing_order (t a o c n s amt : string) (req : Z) (d : ledger) (f : freeze_row) :
  accounting d → s ≠ "" → c ≠ "" → n ≠ "" → ledger_freezes d !! (t, o) = Some f →
  FreezeWithdraw t a o c n s amt req d =
    if is_active (fz_status f) || is_paid (fz_status f) then Ok d
    else Err (Errorf "withdraw order already exists with status=RELEASED").
Proof.
  intros Hacc Hs Hc Hn Hk. unfold FreezeWithdraw, freezeWithdrawTx.
  rewrite (decide_False (P := s = "" ∨ _)) by tauto. rewrite Hk.
  destruct (acc_freeze_rows _ Hacc _ _ Hk) as [Hst _].
  by destruct Hst as [->|[->|[->| ->]]].
Qed.

Lemma freeze_existing_order_witness :
  FreezeWithdraw "t" "alice" "w-1" "ethereum" "mainnet" "ETH" "99999" 2 Demo.frozen = Ok Demo.frozen.
Proof.
  destruct (ledger_freezes Demo.frozen !! ("t", "w-1")) as [f|] eqn:Hf; [|exfalso; by vm_compute in Hf].
  etrans; [eapply (freeze_existing_order "t" "alice" "w-1"); [exact Demo.frozen_accounting|done|done|done|exact Hf]|].
  vm_compute in Hf. by injection Hf as <-.
Defined.

(** Freezing a new order and releasing it is a round trip: the release
    succeeds, every balance is back to what it was, and the order is RELEASED,
    so it can never be frozen again. *)
Theorem freeze_release_roundtrip (now : Z) (t a o c n s amt reason : string) (req : Z) (d d1 : ledger) :
  accounting d → ledger_freezes d !! (t, o) = None →
  FreezeWithdraw t a o c n s amt req d = Ok d1 →
  ∃ d2, ReleaseWithdraw now t a o reason d1 = Ok d2
        ∧ (∀ acct, columns d2 acct = columns d acct)
        ∧ fz_status <$> ledger_freezes d2 !! (t, o) = Some "RELEASED"
        ∧ is_ok (FreezeWithdraw t a o c n s amt req d2) = false.
Proof.
  intros Hacc Hk H. pose proof (freezeWithdrawTx_accounting _ _ _ _ _ _ _ _ _ _ Hacc H) as Hacc1.
  unfold FreezeWithdraw, freezeWithdrawTx in H. case_decide as Harg; [done|]. rewrite Hk in H.
  destruct (freezeNewOrder_effect _ _ _ _ _ _ _ _ _ _ Hk H) as (Hs1 & Hf1 & Hle).
  assert (Hk1 := lookup_insert_eq (ledger_freezes d) (t, o)
    (frozenRow a c n s amt (if decide (req ≤ 0) then 1 else req))). rewrite <- Hf1 in Hk1.
  pose proof (shifted_held _ _ _ _ _ Hs1) as (HA & _ & HL).
  destruct (ReleaseWithdraw_succeeds now t o reason _ d1 Hacc1 Hk1) as [d2 H2]; [done|cbn; lia|].
  destruct (ReleaseWithdraw_effect _ _ _ _ _ _ _ _ Hk1 ltac:(done) H2) as [Hs2 Hf2]. exists d2.
  split_and!; [done| | |].
  - intros acct. apply (shifted_zero (t, a, s)). eapply shifted_trans in Hs2; [|exact Hs1].
    cbn in Hs2. by rewrite Z.add_opp_diag_l, Z.add_opp_diag_r in Hs2.
  - by rewrite Hf2, lookup_insert_eq.
  - unfold FreezeWithdraw, freezeWithdrawTx. by rewrite decide_False, Hf2, lookup_insert_eq.
Qed.

Lemma freeze_release_roundtrip_witness :
  ∃ d2, ReleaseWithdraw 5 "t" "alice" "w-1" "test" Demo.frozen = Ok d2
        ∧ columns d2 Demo.account = columns Demo.funded Demo.account.
Proof.
  destruct (freeze_release_roundtrip 5 "t" "alice" "w-1" "ethereum" "mainnet" "ETH" "60" "test" 2
    Demo.funded Demo.frozen Demo.funded_accounting ltac:(by vm_compute) Demo.frozen_ok)
    as (d2 & H & Hc & _). exists d2. by split.
Defined.

(** C3. An order is paid exactly once: the confirmation that reaches the
    threshold takes the amount out of frozen and leaves everything else; from
    then on every further confirmation succeeds without moving money, a failure
    report changes no balance, and a release is refused. *)
Theorem confirm_pays_once (now now' : Z) (t o h h' a reason : string) (cf req cf' req' : Z) (f : freeze_row)
    (d d1 : ledger) :
  ledger_freezes d !! (t, o) = Some f → is_active (fz_status f) = true →
  effectiveRequired req (fz_required_confirmations f) ≤ Z.max cf (fz_confirmations f) →
  ConfirmWithdrawOnChain now t o h cf req d = Ok d1 →
  shifted (t, fz_account_id f, fz_asset f) 0 (- amount (fz_amount f)) d d1
  ∧ (∃ d2, ConfirmWithdrawOnChain now' t o h' cf' req' d1 = Ok d2 ∧ ledger_balances d2 = ledger_balances d1)
  ∧ (∃ d2, FailWithdrawOnChain now' t o h' reason cf' d1 = Ok d2 ∧ ledger_balances d2 = ledger_balances d1
           ∧ ledger_freezes d2 = ledger_freezes d1)
  ∧ ReleaseWithdraw now' t a o reason d1 = Err (Errorf "withdraw status invalid for release: CONFIRMED").
Proof.
  intros Hk Hact Hreq H.
  destruct (ConfirmWithdrawOnChain_pays _ _ _ _ _ _ _ _ _ Hk Hact Hreq H) as (Hs & f' & Hf' & _ & Hst & _).
  assert (Hk1 : ledger_freezes d1 !! (t, o) = Some f') by (by rewrite Hf', lookup_insert_eq).
  split_and!; [done| | |].
  - destruct (ConfirmWithdrawOnChain_again now' t o h' cf' req' f' d1 Hk1 Hst) as (d2 & H2 & Hb & _). eauto.
  - exists (setAttemptStatus t o h' "FAILED" d1). split; [|done].
    eapply FailWithdrawOnChain_closed; [done|by rewrite Hst|].
    right; right; left. done.
  - unfold ReleaseWithdraw. rewrite Hk1. cbn [from_option_err]. rewrite bind_ok. by rewrite Hst.
Qed.

Lemma confirm_pays_once_witness :
  held ba_frozen Demo.paid Demo.account = 0
  ∧ ReleaseWithdraw 9 "t" "alice" "w-1" "late" Demo.paid
    = Err (Errorf "withdraw status invalid for release: CONFIRMED").
Proof.
  split; [by vm_compute|].
  destruct (ledger_freezes Demo.broadcast !! ("t", "w-1")) as [f|] eqn:Hf; [|exfalso; by vm_compute in Hf].
  assert (Hf' := Hf). vm_compute in Hf'. injection Hf' as <-.
  apply (confirm_pays_once 2 9 "t" "w-1" "0xh" "0xh" "alice" "late" 2 0 3 0 _ Demo.broadcast Demo.paid Hf);
    [by vm_compute|by vm_compute|exact Demo.paid_ok].
Defined.

(** A failure report for another transaction than the order's own (a
    replaced one) marks that attempt and nothing else: the order, the balances,
    the entries and the queue stay as they are. *)
Theorem stale_failure_ignored (now : Z) (t o h reason : string) (cf : Z) (f : freeze_row) (d : ledger) :
  ledger_freezes d !! (t, o) = Some f →
  TrimSpace h ≠ "" → TrimSpace (fz_tx_hash f) ≠ "" →
  EqualFold (TrimSpace (fz_tx_hash f)) (TrimSpace h) = false →
  FailWithdrawOnChain now t o h reason cf d = Ok (setAttemptStatus t o h "FAILED" d).
Proof.
  intros Hk H1 H2 H3. unfold FailWithdrawOnChain. rewrite Hk. cbn [from_option_err]. rewrite bind_ok.
  do 2 (case_decide; [done|]). by rewrite decide_True.
Qed.

Lemma stale_failure_ignored_witness :
  FailWithdrawOnChain 7 "t" "w-1" "0xold" "replaced" 0 Demo.broadcast
  = Ok (setAttemptStatus "t" "w-1" "0xold" "FAILED" Demo.broadcast).
Proof.
  destruct (ledger_freezes Demo.broadcast !! ("t", "w-1")) as [f|] eqn:Hf; [|exfalso; by vm_compute in Hf].
  assert (Hf' := Hf). vm_compute in Hf'. injection Hf' as <-.
  eapply stale_failure_ignored; [exact Hf|by vm_compute|by vm_compute|by vm_compute].
Defined.

(** ** Deposits *)

(** C4. A deposit notification is idempotent: delivering it a second time
    succeeds and changes nothing at all, neither balances nor the deposit row,
    the journals or the audit events. *)
Theorem CreditDeposit_idempotent (inp : DepositCreditInput) (d d' : ledger) :
  CreditDeposit inp d = Ok d' → CreditDeposit inp d' = Ok d'.
Proof.
  intros H. unfold CreditDeposit in H. destruct (deposit_events d !! depositKey inp) as [r|] eqn:Hk.
  - destruct (applyDeposit_row _ _ _ _ _ _ _ Hk H) as (c & u & Hr & H1 & H2 & H3).
    eapply CreditDeposit_settled; [done|apply resolve_again|done..].
  - eapply applyDeposit_row in H as (c & u & Hr & H1 & H2 & H3); [|apply lookup_insert_eq].
    eapply CreditDeposit_settled; [done|apply resolve_again|done..].
Qed.

Lemma CreditDeposit_idempotent_witness :
  CreditDeposit (Demo.deposit "dep-1" "100" "" 10) Demo.funded = Ok Demo.funded.
Proof. exact (CreditDeposit_idempotent _ _ _ Demo.funded_ok). Defined.

(** The stored status and the notified one are joined by rank: the result
    is the higher of PENDING < CONFIRMED < FINALIZED < REVERTED, whatever the
    order in which notifications arrive. *)
Theorem resolve_is_join (old a b : string) :
  rank (resolveEffectiveDepositStatus old a) = Nat.max (rank old) (rank a)
  ∧ resolveEffectiveDepositStatus (resolveEffectiveDepositStatus old a) b
    = resolveEffectiveDepositStatus (resolveEffectiveDepositStatus old b) a.
Proof. split; [apply rank_resolve|]. rewrite !(resolve_rank (resolveEffectiveDepositStatus _ _)), !rank_resolve. f_equal. lia. Qed.

(** A notification whose two status fields name no lifecycle status is
    judged by its confirmations: FINALIZED from the larger of the two
    thresholds on (when an unlock depth is set), CONFIRMED from the required
    number on, PENDING below. *)
Theorem deposit_thresholds (st fb : string) (cf req unl : Z) :
  candidateStatus [st; fb] cf unl = None →
  normalizeDepositLifecycleStatus st fb cf req unl =
    if decide (0 < unl ∧ Z.max (Z.max 1 req) unl ≤ cf) then "FINALIZED"
    else if decide (Z.max 1 req ≤ cf) then "CONFIRMED" else "PENDING".
Proof. apply normalize_by_confirmations. Qed.

Lemma deposit_thresholds_witness : normalizeDepositLifecycleStatus "SUCCESS" "" 5 3 6 = "CONFIRMED".
Proof. apply (deposit_thresholds "SUCCESS" "" 5 3 6). by vm_compute. Defined.

(** Reverting a deposit that was already final can leave an account with
    more locked than available.  Such a ledger is reachable, and in it the
    account's open order can be neither confirmed on chain nor released: every
    operation that reads the balance fails with [insufficient balance]. *)
Theorem revert_can_lock_out :
  ∃ (d : ledger) (f : freeze_row),
    reachable ToLower sweep_not_done d ∧ ledger_freezes d !! ("t", "w-2") = Some f ∧ fz_status f = "FROZEN"
    ∧ columns d ("t", "alice", "ETH") = (50, 100, 150)
    ∧ (∀ now h cf, 2 ≤ cf →
         ConfirmWithdrawOnChain now "t" "w-2" h cf 0 d = Err (Errorf "insufficient balance"))
    ∧ (∀ now reason, ReleaseWithdraw now "t" "alice" "w-2" reason d = Err (Errorf "insufficient balance")).
Proof.
  destruct (ledger_freezes Demo.reorganised !! ("t", "w-2")) as [f|] eqn:Hf; [|exfalso; by vm_compute in Hf].
  pose proof (reachable_ind_accounting _ _ _ Demo.reorganised_reachable) as Hacc.
  assert (Hf' := Hf). vm_compute in Hf'. injection Hf' as <-.
  exists Demo.reorganised. eexists. split_and!; [apply Demo.reorganised_reachable|exact Hf|done|by vm_compute|..].
  - intros now h cf Hcf.
    refine (proj1 (locked_out_blocks now "t" "w-2" h cf 0 _ _ "" Hacc Hf _ _ _)); [by vm_compute..|].
    unfold effectiveRequired. cbn. repeat case_decide; lia.
  - intros now reason.
    refine (proj2 (locked_out_blocks now "t" "w-2" "" 2 0 _ _ reason Hacc Hf _ _ _)); by vm_compute.
Qed.

(** ** The queue *)

(** C29. After any run of the ledger's methods, one transaction after the other,
    with any clocks, limits and rows held by other workers, at most one job per
    tenant, chain, network and sender address is PROCESSING, as long as an order
    that is asked for again while it is processed names the same sender. *)
Theorem senders_stay_serial (lower : string → string) (ops : list ledger_op) :
  respects lower (requeues_same_sender lower) ops empty_ledger →
  one_per_sender lower ["PROCESSING"] (commit_all lower ops empty_ledger).
Proof.
  intros Hr. apply qs_serial, (commit_all_invariant lower (requeues_same_sender lower)); [|done|apply queue_serial_empty].
  intros op d d'. apply apply_op_serial.
Qed.

(** The second order of a sender waits until the first is sent. *)
Lemma senders_stay_serial_witness :
  one_per_sender ToLower ["PROCESSING"] (commit_all ToLower Demo.third_claim empty_ledger)
  ∧ (λ ops, (λ o, Demo.job_status o (commit_all ToLower ops empty_ledger)) <$> ["w-3"; "w-5"; "w-6"])
      <$> [Demo.two_claims; Demo.third_claim]
    = [[Some "PROCESSING"; Some "QUEUED"; Some "PROCESSING"]; [Some "BROADCASTED"; Some "PROCESSING"; Some "PROCESSING"]].
Proof.
  split; [|by vm_compute]. apply (senders_stay_serial ToLower). apply (bool_decide_unpack _). vm_compute. exact I.
Defined.

(** Every claimed job was in the queue, is for an order still FROZEN, was
    due or had lost its lease, is handed out as the row that is now PROCESSING
    with one more attempt, and there are at most [limit] of them. *)
Theorem claim_takes_due_frozen_jobs (lower : string → string) (now limit : Z) (locked : order_key → bool)
    (d d' : ledger) (jobs : list WithdrawJob) :
  0 < limit → ClaimQueuedWithdraws lower now locked limit d = Ok (jobs, d') →
  Z.of_nat (length jobs) ≤ limit ∧
  ∀ w, w ∈ jobs → ∃ (k : order_key) (j : job_row) (f : freeze_row),
    withdraw_jobs d !! k = Some j ∧ ledger_freezes d !! k = Some f ∧ fz_status f = "FROZEN"
    ∧ (jb_status j = "QUEUED" ∧ jb_next_retry_at j ≤ now
       ∨ jb_status j = "PROCESSING" ∧ ∃ t0, jb_processing_started_at j = Some t0 ∧ t0 ≤ now - withdrawJobLease)
    ∧ withdraw_jobs d' !! k = Some (startProcessing now j)
    ∧ w = scanJob (k, startProcessing now j) ∧ wj_AttemptCount w = jb_attempt_count j + 1.
Proof.
  intros Hl H. injection H as <- <-. unfold queued_picked. rewrite (decide_False (P := limit ≤ 0)) by lia.
  change (pick lower jb_created_at locked limit _) with
    (picked_from lower (queued_claimable lower now d) jb_created_at locked limit d).
  split; [rewrite length_fmap; apply pick_length; lia|].
  intros w (e & -> & He)%list_elem_of_fmap.
  destruct (picked_spec _ _ _ _ _ _ _ He) as (Hk & (Hf & Hst & _) & _ & _).
  unfold freeze_is in Hf. destruct (ledger_freezes d !! fst e) as [f|] eqn:Hfz; [|done].
  exists (fst e), (snd e), f. split_and!; [done|done|done| | |done|done].
  - destruct Hst as [?|[? Ht]]; [by left|right]. split; [done|].
    unfold started_before in Ht. destruct (jb_processing_started_at (snd e)); [eauto|done].
  - change (foldr _ d _) with (claim_rows (startProcessing now)
      (picked_from lower (queued_claimable lower now d) jb_created_at locked limit d) d).2.
    rewrite claim_rows_lookup by apply picked_NoDup.
    rewrite decide_True, Hk; [done|]. apply list_elem_of_fmap. eauto.
Qed.

Lemma claim_takes_due_frozen_jobs_witness :
  Z.of_nat (length Demo.claimed.1) ≤ 5 ∧ (wj_AttemptCount <$> Demo.claimed.1) = [1].
Proof.
  split; [|by vm_compute].
  apply (claim_takes_due_frozen_jobs ToLower 2000 5 (λ _, false) Demo.queued Demo.claimed.2); [done|reflexivity].
Defined.

(** C30. The queue makes progress: when some job is claimable and no other
    worker holds rows, a claim returns at least one job. *)
Theorem claim_progress (lower : string → string) (now limit : Z) (d d' : ledger) (jobs : list WithdrawJob)
    (k : order_key) (j : job_row) :
  0 < limit → withdraw_jobs d !! k = Some j → queued_claimable lower now d (k, j) →
  ClaimQueuedWithdraws lower now (λ _, false) limit d = Ok (jobs, d') → jobs ≠ [].
Proof.
  intros Hl Hk Hq H. injection H as <- <-. unfold queued_picked. rewrite (decide_False (P := limit ≤ 0)) by lia.
  intros Hnil%fmap_nil_inv. revert Hnil. apply pick_progress; [done|].
  intros Hnil. apply elem_of_nil with (x := (k, j)). rewrite <- Hnil. apply list_elem_of_filter.
  split; [done|]. by apply elem_of_map_to_list.
Qed.

Lemma claim_progress_witness : Demo.claimed.1 ≠ [].
Proof.
  destruct (withdraw_jobs Demo.queued !! ("t", "w-3")) as [j|] eqn:Hj; [|exfalso; by vm_compute in Hj].
  assert (Hj' := Hj). vm_compute in Hj'. injection Hj' as <-.
  eapply (claim_progress ToLower 2000 5 Demo.queued Demo.claimed.2 _ ("t", "w-3")); [done|exact Hj| |reflexivity].
  apply (bool_decide_unpack _). vm_compute. exact I.
Defined.

(** ** Where the code does not keep its promises *)

(** A finished sweep that is run again is credited again: the reservation
    accepts the DONE order, [StartSweep]'s upsert sets it back to BROADCASTED,
    and the next confirmation adds the amount to the vault a second time. *)
Theorem restarted_sweep_credits_twice (rinp : SweepReserveInput) (inp : SweepCollectInput)
    (cinp : SweepConfirmInput) (d : ledger) (r : sweep_row) :
  sweep_orders d !! (sc_TenantID inp, sc_SweepOrderID inp) = Some r → sw_status r = "DONE" →
  sv_TenantID rinp = sc_TenantID inp → sv_SweepOrderID rinp = sc_SweepOrderID inp →
  sf_TenantID cinp = sc_TenantID inp → sf_SweepOrderID cinp = sc_SweepOrderID inp →
  0 < sf_RequiredConfs cinp ≤ sf_Confirmations cinp →
  is_amount (sw_amount r) = true →
  is_amount (default "0" (vault_balances d !! (sc_TenantID inp, sw_treasury_account_id r, sw_asset r))) = true →
  ∃ d1 d2, ReserveSweep rinp d = Ok d ∧ StartSweep inp d = Ok d1 ∧ ConfirmSweepOnChain cinp d1 = Ok d2
    ∧ vault_held d2 (sc_TenantID inp, sw_treasury_account_id r, sw_asset r)
      = vault_held d (sc_TenantID inp, sw_treasury_account_id r, sw_asset r) + amount (sw_amount r).
Proof.
  intros Hk Hst Ht1 Ho1 Ht2 Ho2 Hreq Hamt Hbal.
  destruct (addDecimalString_succeeds _ _ Hbal Hamt) as [c Hc].
  set (r1 := markSwept inp (orAtLeastOne (sc_RequiredConfs inp)) r).
  assert (Hs : ∃ d1, StartSweep inp d = Ok d1
            ∧ sweep_orders d1 = <[(sc_TenantID inp, sc_SweepOrderID inp) := r1]> (sweep_orders d)
            ∧ vault_balances d1 = vault_balances d).
  { unfold StartSweep. rewrite Hk, Hst. eexists. split; [reflexivity|]. split; [|done].
    unfold update; cbn. unfold sql_upsert. by rewrite Hk. }
  destruct Hs as (d1 & Hd1 & Hsw & Hvb). exists d1.
  assert (Hd2 : ∃ d2, ConfirmSweepOnChain cinp d1 = Ok d2
            ∧ vault_balances d2 = <[(sc_TenantID inp, sw_treasury_account_id r, sw_asset r) := c]> (vault_balances d)).
  { unfold ConfirmSweepOnChain. rewrite Ht2, Ho2, Hsw, lookup_insert_eq. cbn [from_option_err]. rewrite bind_ok.
    rewrite (decide_False (P := sw_status r1 = "DONE")) by done.
    match goal with |- ∃ _, (if decide (?c < ?q) then _ else _) = _ ∧ _ =>
      rewrite (decide_False (P := c < q)) end.
    2: { unfold orAtLeastOne. repeat case_decide; lia. }
    unfold getVaultBalanceTx. rewrite Hvb. cbn. rewrite Hc. cbn. eexists. split; [reflexivity|].
    by rewrite <- Hvb. }
  destruct Hd2 as (d2 & Hd2 & Hv2). exists d2. split_and!; [|done|done|].
  - unfold ReserveSweep. rewrite Ht1, Ho1, Hk, Hst. done.
  - unfold vault_held. rewrite Hv2, lookup_insert_eq. apply addDecimalString_ok in Hc as (_ & _ & _ & ->).
    by destruct (vault_balances d !! _).
Qed.

Lemma restarted_sweep_credits_twice_witness :
  vault_held Demo.swept ("t", "vault", "ETH") = 25
  ∧ ∃ d1 d2, ReserveSweep Demo.sweep_reserve Demo.swept = Ok Demo.swept ∧ StartSweep Demo.sweep Demo.swept = Ok d1
      ∧ ConfirmSweepOnChain Demo.sweep_confirm d1 = Ok d2
      ∧ vault_held d2 ("t", "vault", "ETH") = vault_held Demo.swept ("t", "vault", "ETH") + 25.
Proof.
  split; [by vm_compute|].
  destruct (sweep_orders Demo.swept !! ("t", "s-1")) as [r|] eqn:Hr; [|exfalso; by vm_compute in Hr].
  assert (Hr' := Hr). vm_compute in Hr'. injection Hr' as <-.
  apply (restarted_sweep_credits_twice Demo.sweep_reserve Demo.sweep Demo.sweep_confirm Demo.swept _ Hr);
    first [reflexivity | by vm_compute | done].
Defined.

(** Two transactions freezing the same new order at the same time: the
    second one's [SELECT ... FOR UPDATE] finds no row to wait for, so both run
    the new-order branch.  The balance is frozen twice for one freeze row, and
    the accounting invariant is lost. *)
Theorem concurrent_freeze_breaks_accounting (t a o c n s amt : string) (req : Z) (d d1 d2 : ledger) :
  accounting d → ledger_freezes d !! (t, o) = None → 0 < amount amt →
  freezeNewOrder t a o c n s amt req d = Ok d1 → freezeNewOrder t a o c n s amt req d1 = Ok d2 →
  held ba_frozen d2 (t, a, s) = held ba_frozen d (t, a, s) + 2 * amount amt
  ∧ frozen_total d2 (t, a, s) = frozen_total d (t, a, s) + amount amt
  ∧ ¬ accounting d2.
Proof.
  intros Hacc Hk Hpos H1 H2.
  pose proof (freezeNewOrder_accounting _ _ _ _ _ _ _ _ _ _ Hacc Hk H1) as Hacc1.
  apply freezeNewOrder_effect in H1 as (Hs1 & Hf1 & _); [|done].
  apply freezeNewOrder_moves in H2 as (Hs2 & Hf2 & _).
  apply shifted_held in Hs1 as (_ & Hh1 & _). apply shifted_held in Hs2 as (_ & Hh2 & _).
  assert (Hft : frozen_total d2 (t, a, s) = frozen_total d1 (t, a, s)).
  { unfold frozen_total. rewrite Hf2. erewrite sql_insert_nothing_old; [done|].
    rewrite Hf1. apply lookup_insert_eq. }
  pose proof (acc_frozen _ Hacc (t, a, s)). pose proof (acc_frozen _ Hacc1 (t, a, s)).
  split_and!; [lia|lia|]. intros Hacc2. pose proof (acc_frozen _ Hacc2 (t, a, s)). lia.
Qed.

Lemma concurrent_freeze_breaks_accounting_witness :
  ∃ d1 d2, freezeNewOrder "t" "alice" "w-9" "ethereum" "mainnet" "ETH" "40" 1 Demo.funded = Ok d1
    ∧ freezeNewOrder "t" "alice" "w-9" "ethereum" "mainnet" "ETH" "40" 1 d1 = Ok d2 ∧ ¬ accounting d2.
Proof.
  set (op := freezeNewOrder "t" "alice" "w-9" "ethereum" "mainnet" "ETH" "40" 1).
  assert (H1 : op Demo.funded = Ok (run_tx op Demo.funded)) by run_tx_ok.
  assert (H2 : op (run_tx op Demo.funded) = Ok (run_tx op (run_tx op Demo.funded))) by run_tx_ok.
  exists (run_tx op Demo.funded), (run_tx op (run_tx op Demo.funded)). split_and!; [done|done|].
  refine (proj2 (proj2 (concurrent_freeze_breaks_accounting "t" "alice" "w-9" "ethereum" "mainnet" "ETH" "40" 1
    _ _ _ Demo.funded_accounting _ _ H1 H2))); by vm_compute.
Defined.

(** [ReleaseWithdraw] credits the account it is called with and never
    compares it with the order's: releasing an order in the name of another
    account moves that account's frozen funds to its available ones, leaves the
    owner's funds frozen without an open order, and breaks the accounting. *)
Theorem release_for_other_account (now : Z) (t a o reason : string) (f : freeze_row) (d d' : ledger) :
  accounting d → ledger_freezes d !! (t, o) = Some f → is_active (fz_status f) = true →
  0 < amount (fz_amount f) → a ≠ fz_account_id f →
  ReleaseWithdraw now t a o reason d = Ok d' →
  columns d' (t, a, fz_asset f) =
    (held ba_available d (t, a, fz_asset f) + amount (fz_amount f),
     held ba_frozen d (t, a, fz_asset f) - amount (fz_amount f),
     held ba_withdraw_locked d (t, a, fz_asset f))
  ∧ columns d' (t, fz_account_id f, fz_asset f) = columns d (t, fz_account_id f, fz_asset f)
  ∧ fz_status <$> ledger_freezes d' !! (t, o) = Some "RELEASED"
  ∧ ¬ accounting d'.
Proof.
  intros Hacc Hk Hact Hpos Hne H.
  destruct (ReleaseWithdraw_effect _ _ _ _ _ _ _ _ Hk Hact H) as [Hs Hf].
  assert (Ho : columns d' (t, fz_account_id f, fz_asset f) = columns d (t, fz_account_id f, fz_asset f)).
  { rewrite Hs. rewrite decide_False; [done|congruence]. }
  split_and!; [rewrite Hs; by rewrite decide_True|done|by rewrite Hf, lookup_insert_eq|].
  intros Hacc'. pose proof (acc_frozen _ Hacc' (t, fz_account_id f, fz_asset f)) as H'.
  pose proof (acc_frozen _ Hacc (t, fz_account_id f, fz_asset f)) as H0.
  unfold columns in Ho. injection Ho as _ Ho _. rewrite Ho, H0 in H'.
  unfold frozen_total in H'. rewrite Hf, (claim_sum_update _ _ _ _ f) in H' by done.
  rewrite decide_True in H' by done.
  change (claim_if is_active (f <| fz_status := "RELEASED" |> <| fz_reason := reason |>)) with 0 in H'.
  unfold claim_if in H'. rewrite Hact in H'. lia.
Qed.

Lemma release_for_other_account_witness :
  ∃ d', ReleaseWithdraw 5 "t" "bob" "w-1" "mixed up" Demo.both_frozen = Ok d' ∧ ¬ accounting d'
    ∧ held ba_frozen d' ("t", "alice", "ETH") = 60.
Proof.
  set (op := ReleaseWithdraw 5 "t" "bob" "w-1" "mixed up").
  assert (H : op Demo.both_frozen = Ok (run_tx op Demo.both_frozen)) by run_tx_ok.
  exists (run_tx op Demo.both_frozen). split; [done|]. split; [|by vm_compute].
  destruct (ledger_freezes Demo.both_frozen !! ("t", "w-1")) as [f|] eqn:Hf; [|exfalso; by vm_compute in Hf].
  assert (Hf' := Hf). vm_compute in Hf'. injection Hf' as <-.
  refine (proj2 (proj2 (proj2 (release_for_other_account 5 "t" "bob" "w-1" "mixed up" _ _ _
    Demo.both_frozen_accounting Hf _ _ _ H)))); [by vm_compute..|done].
Defined.
