(* ===== verification/DispatcherSystem.v ===== *)
(** * The dispatcher against the real ledger

    Programs over the ports, run by any number of goroutines in any order, are
    steps of the ledger's transition system; so its invariants hold while jobs
    are dispatched.  And what one job leaves behind when it runs alone. *)
From S2P Require Import Prelude GoStrings GoNumbers Ports LedgerTables LedgerWithdraw LedgerQueue.
From S2P Require Import LedgerDeposit LedgerVault Calls Orchestrator Dispatcher DispatcherTraces.
From S2P Require Import LedgerAccounting LedgerSystem LedgerProperties.

(** ** Calls as ledger steps *)

Abbreviation owner := (string * string * string)%type.

(** The order exists and is on that account: tenant, account, order. *)
Definition owned (x : owner) (d : ledger) : Prop :=
  ∃ f, ledger_freezes d !! (x.1.1, x.2) = Some f ∧ fz_account_id f = x.1.2.

(** Calls that need no more than those owners: releases name an owner, deposits
    are not among them. *)
Definition call_ok (owners : list owner) (c : ledger_call) : Prop :=
  match c with
  | ReleaseWithdrawCall t a o _ => (t, a, o) ∈ owners
  | CreditDepositCall _ => False
  | _ => True
  end.
Definition port_ok (owners : list owner) {R} (c : port R) : Prop :=
  match c with LedgerCall c => call_ok owners c | _ => True end.

Definition any_sweep (inp : SweepCollectInput) (d : ledger) : Prop := True.

Lemma run_ledger_step lower owners now c d d' :
  call_ok owners c → (∀ x, x ∈ owners → owned x d) → run_ledger now c d = Ok d' →
  ledger_step lower any_sweep d d'.
Proof.
  intros Hc Hown H. exists (OpCall now c). split_and!; [|by destruct c|done]. destruct c; cbn in Hc |- *; try done.
  destruct (Hown _ Hc) as (f & Hf & Ha). cbn in Hf, Ha. intros f' Hf'. congruence.
Qed.

Definition owners_hold (owners : list owner) (d : ledger) : Prop :=
  accounting d ∧ ∀ x, x ∈ owners → owned x d.

Lemma owned_evolves x d d' : orders_evolve d d' → owned x d → owned x d'.
Proof.
  intros He (f & Hf & Ha). destruct (He _ _ Hf) as (f' & Hf' & (Hacc & _) & _).
  exists f'. split; [done|congruence].
Qed.

Lemma step_owners_hold lower ok owners d d' :
  ledger_step lower ok d d' → owners_hold owners d → owners_hold owners d'.
Proof.
  intros Hs [Hacc Hown]. split; [by eapply ledger_step_accounting|].
  intros x Hx. eapply owned_evolves; [by eapply ledger_step_orders|auto].
Qed.

Section system.
Context `{Postgres} {C : Type} `{Outside C}.

(** One call, by whichever goroutine, keeps the invariant. *)
Lemma on_port_owners_hold owners R (c : port R) (w : world C) :
  port_ok owners c → owners_hold owners (w_ledger w) → owners_hold owners (w_ledger (on_port c w).2).
Proof.
  intros Hc Hinv. destruct c; unfold on_port, world_handler; cbv beta iota;
    rewrite ?in_query_ledger, ?outside_ledger; try done.
  - match goal with |- context [in_tx ?op w] => destruct (in_tx_ledger op w) as [->|(now & [] & Hr)] end; [done|].
    apply bind_ok_inv in Hr as (l' & Hl & Hr). injection Hr as Hr. rewrite <- Hr.
    eapply step_owners_hold; [|done]. by eapply (run_ledger_step pg_lower), Hl; [|apply Hinv].
  - match goal with |- context [in_tx ?op w] => destruct (in_tx_ledger op w) as [->|(now & a & Hr)] end; [done|].
    eapply (step_owners_hold pg_lower any_sweep); [|done]. by exists (OpClaimQueued now (out_locked (w_out w)) limit); cbn [apply_op]; rewrite Hr.
  - match goal with |- context [in_tx ?op w] => destruct (in_tx_ledger op w) as [->|(now & a & Hr)] end; [done|].
    eapply (step_owners_hold pg_lower any_sweep); [|done]. by exists (OpClaimStale now (out_locked (w_out w)) limit minAge maxReplacements); cbn [apply_op]; rewrite Hr.
Qed.

(** Any interleaving of such programs keeps it. *)
Lemma threads_owners_hold {A} owners (ps ps' : list (prog A)) (w w' : world C) :
  Forall (all_calls (@port_ok owners)) ps → owners_hold owners (w_ledger w) →
  rtc thread_step (ps, w) (ps', w') → owners_hold owners (w_ledger w').
Proof.
  intros Hps Hinv Hr.
  destruct (threads_invariant (all_calls (@port_ok owners)) (λ w, owners_hold owners (w_ledger w))
              ps w ps' w') as [_ ?]; [|done..].
  intros R c k w0 [Hc Hk] Hw0. split; [|apply Hk]. by apply on_port_owners_hold.
Qed.

(** ** The dispatcher's programs *)

Context `{SolanaLib} `{PayloadCodec}.

Lemma silent_port_ok owners R (c : port R) : silent c → port_ok owners c.
Proof. by destruct c. Qed.

Lemma buildSignAndBroadcast_port_ok owners req : all_calls (@port_ok owners) (buildSignAndBroadcast req).
Proof.
  unfold buildSignAndBroadcast. apply all_calls_bind_ok; [by cbn|]. intros u.
  apply all_calls_bind_ok; [done|]. intros signers. case_decide.
  - destruct signers as [|s signers]; [done|].
    apply all_calls_bind_ok; [|done]. by apply all_calls_bind_ok.
  - apply all_calls_bind_ok; [|intros sigs; by apply all_calls_bind_ok].
    eapply all_calls_mono; [apply silent_port_ok|]. apply buildSignatures_silent.
Qed.

Lemma ensureChainFunds_port_ok owners req : all_calls (@port_ok owners) (ensureChainFunds req).
Proof. eapply all_calls_mono; [apply silent_port_ok|]. apply ensureChainFunds_silent. Qed.

Lemma handleJob_port_ok owners d job :
  (wj_TenantID job, wj_AccountID job, wj_OrderID job) ∈ owners →
  all_calls (@port_ok owners) (handleJob d job).
Proof.
  intros Hin. unfold handleJob. apply all_calls_bind.
  - apply all_calls_bind_ok; [apply ensureChainFunds_port_ok|]. intros _.
    apply all_calls_bind_ok; [apply buildSignAndBroadcast_port_ok|]. intros b. cbn. split; [done|].
    by intros [].
  - intros [b|e]; [by cbn|]. unfold jobFailed. destruct (shouldRetry _ _); [by cbn|].
    cbn. split; [done|]. by intros [].
Qed.

Lemma handleAcceleration_port_ok owners d job : all_calls (@port_ok owners) (handleAcceleration d job).
Proof.
  unfold handleAcceleration. destruct (bumpEVMReplacementPayload _ _) as [p|e]; [|by cbn].
  apply all_calls_bind.
  - apply all_calls_bind_ok; [apply ensureChainFunds_port_ok|]. intros _. apply buildSignAndBroadcast_port_ok.
  - by intros [].
Qed.

(** ** One job alone *)

(** A program without ledger writes leaves the ledger alone. *)
Definition no_write {R} (c : port R) : Prop :=
  match c with LedgerCall _ | ClaimQueued _ | ClaimStale _ _ _ => False | _ => True end.

Lemma run_no_write {A} (p : prog A) (w : world C) :
  all_calls (@no_write) p → w_ledger (run p w).2 = w_ledger w.
Proof.
  revert w. induction p as [a|R c k IH]; intros w Hp; [done|]. destruct Hp as [Hc Hk]. cbn [run].
  assert (Hl : w_ledger (on_port c w).2 = w_ledger w).
  { destruct c; unfold on_port, world_handler; cbv beta iota; try by destruct Hc.
    all: rewrite ?in_query_ledger, ?outside_ledger; done. }
  destruct (on_port c w) as [r w']. rewrite IH by apply Hk. apply Hl.
Qed.

Lemma BroadcastOnly_no_write req : all_calls (@no_write) (BroadcastOnly req).
Proof.
  assert (Hs : ∀ R (c : port R), silent c → no_write c) by (by intros R []).
  apply all_calls_bind_ok; [eapply all_calls_mono; [exact Hs|]; apply ensureChainFunds_silent|]. intros _.
  unfold buildSignAndBroadcast. apply all_calls_bind_ok; [by cbn|]. intros u.
  apply all_calls_bind_ok; [done|]. intros signers. case_decide.
  - destruct signers as [|s signers]; [done|].
    apply all_calls_bind_ok; [|done]. by apply all_calls_bind_ok.
  - apply all_calls_bind_ok; [|intros sigs; by apply all_calls_bind_ok].
    eapply all_calls_mono; [exact Hs|]. apply buildSignatures_silent.
Qed.

Lemma run_ExecuteQueued req (w : world C) :
  run (ExecuteQueuedWithUnsigned req) w =
  match (run (BroadcastOnly req) w).1 with
  | Err e => (Err e, (run (BroadcastOnly req) w).2)
  | Ok b =>
      let x := on_port (LedgerCall (ConfirmWithdrawCall (rq_TenantID req) (rq_AccountID req) (rq_OrderID req)
                 (bd_TxHash b))) (run (BroadcastOnly req) w).2 in
      (match x.1 with Ok _ => Ok b | Err e => confirmFailed (bd_TxHash b) e end, x.2)
  end.
Proof.
  unfold ExecuteQueuedWithUnsigned, BroadcastOnly. rewrite !run_bind_ok.
  destruct (run (ensureChainFunds req) w) as [[[]|e] w1]; cbn [fst snd]; [|done].
  destruct (run (buildSignAndBroadcast req) w1) as [[b|e] w2]; cbn [fst snd]; [|done].
  rewrite run_bind. unfold confirmWithdraw, call. cbn [run].
  destruct (on_port _ w2) as [[[]|e] w3]; done.
Qed.

(** The database answers every time. *)
Definition faultless : Prop := ∀ c : C, is_ok (out_db c).1 = true.

Lemma on_port_ledger c (w : world C) :
  faultless → ∃ now c',
  on_port (LedgerCall c) w =
  match run_ledger now c (w_ledger w) with
  | Ok l => (Ok (), World l c')
  | Err e => (Err e, World (w_ledger w) c')
  end.
Proof.
  intros Hdb. specialize (Hdb (w_out w)). unfold on_port, world_handler, in_tx.
  destruct (out_db (w_out w)) as [[now|e] c']; [|done]. exists now, c'.
  by destruct (run_ledger now c (w_ledger w)).
Qed.

Lemma run_ledger_call {A} c (k : result () → prog A) (w : world C) :
  faultless → ∃ now c',
  run (call (LedgerCall c) ≫= k) w =
  match run_ledger now c (w_ledger w) with
  | Ok l => run (k (Ok ())) (World l c')
  | Err e => run (k (Err e)) (World (w_ledger w) c')
  end.
Proof.
  intros Hdb. destruct (on_port_ledger c w Hdb) as (now & c' & Hc). exists now, c'.
  rewrite run_bind. unfold call. cbn [run]. rewrite Hc. by destruct (run_ledger now c (w_ledger w)).
Qed.

(** A job row that the dispatcher goes on with: the attempts are counted by the
    claims alone. *)
Definition same_job (j j' : job_row) : Prop :=
  jb_account_id j' = jb_account_id j ∧ jb_attempt_count j' = jb_attempt_count j.

(** What a finished job leaves behind: the order sent; the job queued again; the
    order released; or, when more is locked on the account than it has, so that
    [ReleaseWithdraw] refuses, the job given up and the order left frozen. *)
Definition job_settled (d : WithdrawDispatcher) (job : WithdrawJob) (f : freeze_row) (l l' : ledger) : Prop :=
  let k := (wj_TenantID job, wj_OrderID job) in
  let acct := (wj_TenantID job, fz_account_id f, fz_asset f) in
  ∃ f' j', ledger_freezes l' !! k = Some f' ∧ withdraw_jobs l' !! k = Some j' ∧ same_claim f f'
  ∧ (∀ j, withdraw_jobs l !! k = Some j → same_job j j') ∧
  ((fz_status f' = "BROADCASTED" ∧ jb_status j' = "BROADCASTED" ∧ jb_tx_hash j' = fz_tx_hash f'
    ∧ ledger_balances l' = ledger_balances l)
   ∨ (shouldRetry d (wj_AttemptCount job) = true ∧ f' = f ∧ jb_status j' = "QUEUED"
      ∧ ledger_balances l' = ledger_balances l)
   ∨ (shouldRetry d (wj_AttemptCount job) = false ∧ fz_status f' = "RELEASED" ∧ jb_status j' = "FAILED"
      ∧ held ba_withdraw_locked l acct ≤ held ba_available l acct
      ∧ shifted acct (amount (fz_amount f)) (- amount (fz_amount f)) l l')
   ∨ (shouldRetry d (wj_AttemptCount job) = false ∧ f' = f ∧ jb_status j' = "FAILED"
      ∧ held ba_available l acct < held ba_withdraw_locked l acct
      ∧ ledger_balances l' = ledger_balances l)).

Lemma ReleaseWithdraw_jobs now t a o reason f l l' :
  ledger_freezes l !! (t, o) = Some f → fz_status f = "FROZEN" → ReleaseWithdraw now t a o reason l = Ok l' →
  withdraw_jobs l' = sql_update (t, o) (jobStopped now "RELEASED" reason) (withdraw_jobs l).
Proof.
  intros Hk Hst Hx. unfold ReleaseWithdraw in Hx. rewrite Hk in Hx. cbn [from_option_err] in Hx. rewrite bind_ok in Hx.
  rewrite Hst in Hx. case_decide; [done|]. case_decide; [done|]. mbind_inv Hx. destruct a0 as [avail l1].
  injection Hx as <-. unfold unfreezeBalance in Ha. do 3 mbind_inv Ha. by injection Ha as _ <-.
Qed.

Lemma jobFailed_settles d job reason f j (w : world C) :
  faultless → accounting (w_ledger w) →
  ledger_freezes (w_ledger w) !! (wj_TenantID job, wj_OrderID job) = Some f → fz_status f = "FROZEN" →
  fz_account_id f = wj_AccountID job →
  withdraw_jobs (w_ledger w) !! (wj_TenantID job, wj_OrderID job) = Some j →
  job_settled d job f (w_ledger w) (w_ledger (run (jobFailed d job reason) w).2).
Proof.
  intros Hdb Hacc Hf Hst Hown Hj. unfold jobFailed. destruct (shouldRetry d (wj_AttemptCount job)) eqn:Hr.
  - match goal with |- context [run (call (LedgerCall ?c) ≫= ?k) w] =>
      destruct (run_ledger_call c k w Hdb) as (now & c' & ->) end.
    cbn [run_ledger RescheduleQueuedWithdraw run snd w_ledger].
    eexists f, _. split_and!; [done| |done| |].
    + unfold updateJob, update; cbn. rewrite sql_update_eq, Hj. reflexivity.
    + rewrite Hj. by intros ? [= <-].
    + right; left. rewrite Hr. by split_and!.
  - match goal with |- context [run (ReleaseQueued ?req ?rs ≫= ?k) w] =>
      destruct (run_ledger_call (ReleaseWithdrawCall (rq_TenantID req) (rq_AccountID req) (rq_OrderID req) rs) k w Hdb)
        as (now & c' & Hrun);
      change (ReleaseQueued req rs) with
        (call (LedgerCall (ReleaseWithdrawCall (rq_TenantID req) (rq_AccountID req) (rq_OrderID req) rs)));
      rewrite Hrun; clear Hrun end.
    cbn [run_ledger jobRequest rq_TenantID rq_AccountID rq_OrderID].
    assert (Hact : is_active (fz_status f) = true) by (by rewrite Hst).
    destruct (decide (held ba_withdraw_locked (w_ledger w) (wj_TenantID job, fz_account_id f, fz_asset f)
      ≤ held ba_available (w_ledger w) (wj_TenantID job, fz_account_id f, fz_asset f))) as [Hle|Hout%Z.nle_gt].
    2:{ rewrite <- Hown, (ReleaseWithdraw_locked_out now _ _ reason f _ Hacc Hf Hact Hout).
        match goal with |- context [run (call (LedgerCall ?c) ≫= ?k) ?w1] =>
          destruct (run_ledger_call c k w1 Hdb) as (now2 & c2 & ->) end.
        cbn [run_ledger MarkQueuedWithdrawFailed run snd w_ledger].
        eexists f, _. split_and!; [done| |done| |].
        - unfold updateJob, update; cbn. rewrite sql_update_eq, Hj. reflexivity.
        - rewrite Hj. by intros ? [= <-].
        - right; right; right. by split_and!. }
    destruct (ReleaseWithdraw_succeeds now (wj_TenantID job) (wj_OrderID job) reason f _ Hacc Hf Hact Hle) as [l1 Hl1].
    rewrite <- Hown, Hl1.
    match goal with |- context [run (call (LedgerCall ?c) ≫= ?k) ?w1] =>
      destruct (run_ledger_call c k w1 Hdb) as (now2 & c2 & ->) end.
    cbn [run_ledger MarkQueuedWithdrawFailed run snd w_ledger].
    destruct (ReleaseWithdraw_effect _ _ _ _ _ _ _ _ Hf Hact Hl1) as [Hs Hfz].
    pose proof (ReleaseWithdraw_jobs _ _ _ _ _ _ _ _ Hf Hst Hl1) as Hjobs.
    do 2 eexists. split_and!.
    + unfold updateJob, update; cbn. rewrite Hfz. apply lookup_insert_eq.
    + unfold updateJob, update; cbn. rewrite Hjobs, !sql_update_eq, Hj. reflexivity.
    + done.
    + rewrite Hj. by intros ? [= <-].
    + right; right; left. split_and!; [done|done|done|done|]. eapply shifted_balances; [| |exact Hs]; done.
Qed.

Lemma handleJob_run d job f j (w : world C) :
  faultless → accounting (w_ledger w) →
  ledger_freezes (w_ledger w) !! (wj_TenantID job, wj_OrderID job) = Some f → fz_status f = "FROZEN" →
  fz_account_id f = wj_AccountID job →
  withdraw_jobs (w_ledger w) !! (wj_TenantID job, wj_OrderID job) = Some j →
  job_settled d job f (w_ledger w) (w_ledger (run (handleJob d job) w).2).
Proof.
  intros Hdb Hacc Hf Hst Hown Hj. unfold handleJob. rewrite run_bind, run_ExecuteQueued.
  set (req := jobRequest job (wj_Tx job)).
  pose proof (run_no_write _ w (BroadcastOnly_no_write req)) as Hl.
  destruct (run (BroadcastOnly req) w) as [[b|e] w1]; cbn [fst snd] in *.
  2: { rewrite <- Hl in *. by eapply jobFailed_settles. }
  match goal with |- context [on_port (LedgerCall ?c) w1] =>
    destruct (on_port_ledger c w1 Hdb) as (now & c1 & ->) end.
  cbn [run_ledger rq_TenantID rq_AccountID rq_OrderID req jobRequest]. unfold ConfirmWithdraw. rewrite Hl, Hf. cbn [from_option_err]. rewrite bind_ok, Hst.
  rewrite (decide_False (P := "FROZEN" = "BROADCASTED" ∨ _)) by (by intros [?|?]).
  rewrite (decide_False (P := "FROZEN" ≠ "FROZEN")) by tauto. cbn [mbind result_bind fst snd]. lazy beta iota zeta.
  match goal with |- context [run (call (LedgerCall ?c) ≫= ?k) ?w1] =>
    destruct (run_ledger_call c k w1 Hdb) as (now2 & c2 & ->) end.
  cbn [run_ledger MarkQueuedWithdrawDone run snd w_ledger].
  do 2 eexists. split_and!.
  - unfold upsertAttempt, updateJob, updateFreeze, update; cbn. rewrite sql_update_eq, Hf. reflexivity.
  - unfold upsertAttempt, updateJob, updateFreeze, update; cbn. rewrite !sql_update_eq, Hj. reflexivity.
  - done.
  - rewrite Hj. by intros ? [= <-].
  - left. by split_and!.
Qed.
End system.
