(* ===== verification/HandlerSystem.v ===== *)
(** * Requests against the real ledger

    Runs of the HTTP handlers on a world: what is sent, what is written, what is
    answered, and what the ledger holds afterwards. *)
From S2P Require Import Prelude GoStrings GoNumbers Ports LedgerTables LedgerWithdraw LedgerVault.
From S2P Require Import Calls.
From S2P Require Import Orchestrator DispatcherTraces Handlers TreasuryHandlers.
From S2P Require Import HandlerTraces.
From S2P Require Import DispatcherSystem.

Section system.
Context `{Postgres} {C : Type} `{Outside C}.

(** Broadcasts, ledger writes, the result and the ledger left behind. *)
Definition outcome {A} (p : prog A) (w : world C) :=
  (observed (traced p w), (run p w).1, w_ledger (run p w).2).

Lemma silent_no_write {A} (p : prog A) : all_calls (@silent) p → all_calls (@no_write) p.
Proof. apply all_calls_mono. by intros R []. Qed.

Lemma outcome_quiet {A B} (p : prog A) (f : A → prog B) (w : world C) :
  all_calls (@silent) p → ∃ w', w_ledger w' = w_ledger w ∧ outcome (p ≫= f) w = outcome (f (run p w).1) w'.
Proof.
  intros Hp. exists (run p w).2. split; [by apply run_no_write, silent_no_write|].
  unfold outcome, observed. rewrite traced_bind, run_bind. autorewrite with ledger.
  destruct (silent_trace p _ _ Hp (traced_exec p w)) as [-> ->]. done.
Qed.

Lemma outcome_ret_bind {A B} (a : A) (f : A → prog B) (w : world C) : outcome (Ret a ≫= f) w = outcome (f a) w.
Proof. done. Qed.

Lemma outcome_quiet_reply {A B} (p : prog (reply A)) (f : A → prog (reply B)) (w : world C) :
  all_calls (@silent) p →
  (∃ s m, outcome (x ↢ p; f x) w = (([], []), HttpError s m, w_ledger w)) ∨
  (∃ a w', w_ledger w' = w_ledger w ∧ outcome (x ↢ p; f x) w = outcome (f a) w').
Proof.
  intros Hp. unfold bind_reply.
  destruct (outcome_quiet p (λ r, match r with HttpOk a => f a | HttpError s m => Ret (HttpError s m) end) w Hp)
    as (w' & Hw & ->).
  destruct (run p w).1 as [a|s m]; [right; eauto|left]. exists s, m. unfold outcome. cbn. by rewrite Hw.
Qed.

Lemma outcome_decode {B D} (r : http_request B) (f : B → prog (reply D)) (w : world C) req :
  hq_Body r = Some req → outcome (x ↢ decodeJSONBody r; f x) w = outcome (f req) w.
Proof. intros Hr. unfold decodeJSONBody. by rewrite Hr. Qed.

(** ** What every call of a program keeps *)

Definition keeps (K : ledger → Prop) {R} (c : port R) : Prop :=
  match c with
  | LedgerCall c => ∀ now l l', run_ledger now c l = Ok l' → K l → K l'
  | ClaimQueued _ | ClaimStale _ _ _ => False
  | _ => True
  end.

Lemma on_port_keeps K {R} (c : port R) (w : world C) :
  keeps K c → K (w_ledger w) → K (w_ledger (on_port c w).2).
Proof.
  intros Hc HK. destruct c; unfold on_port, world_handler; cbv beta iota; try by destruct Hc.
  all: rewrite ?in_query_ledger, ?outside_ledger; try done.
  match goal with |- context [in_tx ?op w] => destruct (in_tx_ledger op w) as [->|(now & [] & Hr)] end; [done|].
  apply bind_ok_inv in Hr as (l' & Hl & Hr). injection Hr as Hr. rewrite <- Hr. by eapply Hc.
Qed.

Lemma run_keeps K {A} (p : prog A) (w : world C) :
  all_calls (@keeps K) p → K (w_ledger w) → K (w_ledger (run p w).2).
Proof.
  revert w. induction p as [a|R c k IH]; intros w Hp HK; [done|]. destruct Hp as [Hc Hk]. cbn [run].
  pose proof (on_port_keeps K c w Hc HK) as HK'. destruct (on_port c w) as [r w']. by apply IH.
Qed.

Lemma no_write_keeps K {A} (p : prog A) : all_calls (@no_write) p → all_calls (@keeps K) p.
Proof. apply all_calls_mono. by intros R []. Qed.

Lemma retry_keeps K n c : keeps K (LedgerCall c) → all_calls (@keeps K) (retryFrom n (call (LedgerCall c))).
Proof.
  intros Hc. induction n as [|n IH]; [done|]. cbn [retryFrom]. apply all_calls_bind; [by cbn|].
  intros [u|e]; [done|]. by destruct n.
Qed.

Context `{SolanaLib}.

(** One port call whose error ends the request. *)
Lemma run_orHttp {A B} status (c : port (result A)) (f : A → prog (reply B)) (w : world C) :
  run (x ↢ orHttp status (call c); f x) w =
  match (on_port c w).1 with
  | Ok a => run (f a) (on_port c w).2
  | Err e => (HttpError status (error_text e), (on_port c w).2)
  end.
Proof. cbn. destruct (on_port c w) as [[a|e] w1]; done. Qed.

Lemma traced_orHttp {A B} status (c : port (result A)) (f : A → prog (reply B)) (w : world C) :
  traced (x ↢ orHttp status (call c); f x) w =
  Ev c (on_port c w).1 :: match (on_port c w).1 with Ok a => traced (f a) (on_port c w).2 | Err e => [] end.
Proof. cbn. destruct (on_port c w) as [[a|e] w1]; done. Qed.

Lemma ledger_call_ok K c (w : world C) :
  (∀ now l l', run_ledger now c l = Ok l' → K l') →
  (on_port (LedgerCall c) w).1 = Ok () → K (w_ledger (on_port (LedgerCall c) w).2).
Proof.
  intros Hc. unfold on_port, world_handler, in_tx. destruct (out_db (w_out w)) as [[now|e] c']; [|done].
  destruct (run_ledger now c (w_ledger w)) as [l'|e] eqn:Hl; [|done]. intros _. cbn. by eapply Hc.
Qed.

(** A send leaves what the reservation established. *)
Lemma reserve_and_send_sent K {A} reserve failed mark q (resp : BroadcastResult → result () → reply A) (w : world C) :
  (∀ now l l', run_ledger now reserve l = Ok l' → K l') →
  (∀ reason, keeps K (LedgerCall (failed reason))) → (∀ hash, keeps K (LedgerCall (mark hash))) →
  sent (traced (reserve_and_send reserve failed mark q resp) w) ≠ [] →
  K (w_ledger (run (reserve_and_send reserve failed mark q resp) w).2).
Proof.
  intros Hres Hfail Hmark. unfold reserve_and_send. rewrite run_orHttp, traced_orHttp.
  destruct (on_port (LedgerCall reserve) w).1 as [[]|e] eqn:Hp; [|done]. intros _.
  apply run_keeps; [|by eapply ledger_call_ok].
  apply all_calls_bind; [apply no_write_keeps, BroadcastOnly_no_write|].
  intros [b|e].
  - apply all_calls_bind; [|done]. rewrite retryLedgerMutation_3. apply retry_keeps, Hmark.
  - cbn. split; [apply Hfail|done].
Qed.

(** ** Treasury transfers *)

Variable h : WithdrawHandler.

Definition transfer_exists (k : order_key) (l : ledger) : Prop := is_Some (treasury_transfer_orders l !! k).

Lemma reserve_transfer_exists now inp l l' :
  run_ledger now (ReserveTreasuryTransferCall inp) l = Ok l' →
  transfer_exists (tr_TenantID inp, tr_TransferOrderID inp) l'.
Proof.
  unfold transfer_exists. cbn. unfold ReserveTreasuryTransfer.
  destruct (treasury_transfer_orders l !! _) as [r|] eqn:Hk.
  - case_decide; [|done]. intros [= <-]. by rewrite Hk.
  - intros Hx. do 2 mbind_inv Hx. injection Hx as <-. cbn. rewrite lookup_insert_eq. by eexists.
Qed.

Lemma updateTransfer_exists t o g k l : transfer_exists k l → transfer_exists k (updateTransfer t o g l).
Proof.
  unfold transfer_exists, updateTransfer, update; cbn. rewrite sql_update_lookup. case_decide; [|done].
  by intros [r ->].
Qed.

Lemma fail_transfer_keeps k t o reason cf :
  keeps (transfer_exists k) (LedgerCall (FailTreasuryTransferOnChainCall t o reason cf)).
Proof.
  intros now l l' Hx Hk. cbn in Hx. unfold FailTreasuryTransferOnChain in Hx.
  mbind_inv Hx. repeat (case_decide; [try done; by injection Hx as <-|]). do 2 mbind_inv Hx. injection Hx as <-.
  by apply (updateTransfer_exists t o _ k (upsertVaultBalanceTx _ _ _ _ l)).
Qed.

Lemma mark_transfer_keeps k t o hash confs :
  keeps (transfer_exists k) (LedgerCall (MarkTreasuryTransferBroadcastedCall t o hash confs)).
Proof.
  intros now l l' Hx Hk. cbn in Hx. unfold MarkTreasuryTransferBroadcasted in Hx.
  destruct (treasury_transfer_orders l !! (t, o)); [|done]. case_bool_decide; [|done].
  injection Hx as <-. by apply updateTransfer_exists.
Qed.

(** Drop a silent step of a run; [w_ledger w] is renamed along. *)
Ltac drop_step :=
  match goal with
  | |- context [outcome (bind_reply ?p ?f) ?w] =>
      let Hw := fresh "Hw" in
      destruct (outcome_quiet_reply p f w) as [(? & ? & ->)|(? & ? & Hw & ->)];
        [try case_decide; by eauto with silent| |try rewrite <- Hw in *; clear Hw]
  end.

Ltac drop_call :=
  match goal with
  | |- context [outcome (call ?c ≫= ?f) ?w] =>
      let w' := fresh "w'" in
      destruct (outcome_quiet (call c) f w) as (w' & Hw & ->); [by cbn|]
  end.

Definition order_given (r : http_request TreasuryTransferRequest) (t o : string) : Prop :=
  ∃ req, hq_Body r = Some req ∧ ttq_TenantID req = t ∧ ttq_TransferOrderID req = o ∧ TrimSpace o ≠ "".

Lemma transfer_status_answer t o row (w : world C) :
  treasury_transfer_orders (w_ledger w) !! (t, o) = Some row →
  (∃ msg, (run (call (TransferStatusOf t o)) w).1 = Err (Errorf msg)) ∨
  (∃ st, (run (call (TransferStatusOf t o)) w).1 = Ok st ∧ ts_Status st = tt_status row ∧ ts_TxHash st = tt_tx_hash row).
Proof.
  intros Hrow. cbn [run call]. unfold on_port, world_handler, in_query, in_tx.
  destruct (out_db (w_out w)) as [[now|e] c]; [|left; by eexists].
  unfold GetTreasuryTransferStatus. rewrite Hrow. right. by eexists.
Qed.

Lemma TreasuryTransfer_existing r t o row (w : world C) :
  order_given r t o → treasury_transfer_orders (w_ledger w) !! (t, o) = Some row →
  ∃ a, outcome (TreasuryTransfer h r) w = (([], []), a, w_ledger w)
    ∧ ∀ resp, a = HttpOk resp → ttr_Status resp = tt_status row ∧ ttr_TxHash resp = tt_tx_hash row.
Proof.
  intros (req & Hreq & <- & <- & Ho) Hrow. unfold TreasuryTransfer.
  do 2 (drop_step; [by eexists|]). rewrite (outcome_decode _ _ _ _ Hreq).
  do 4 (drop_step; [by eexists|]). rewrite decide_False by done. rewrite outcome_ret_bind. drop_call.
  rewrite <- Hw.
  destruct (transfer_status_answer _ _ _ _ Hrow) as [[msg ->]|(st & -> & ? & ?)]; [by eexists|].
  eexists. split; [reflexivity|]. intros resp Hr. by injection Hr as <-.
Qed.

(** A transfer that was sent has its row. *)
Lemma TreasuryTransfer_sent r t o (w : world C) :
  order_given r t o → (outcome (TreasuryTransfer h r) w).1.1.1 ≠ [] →
  transfer_exists (t, o) (outcome (TreasuryTransfer h r) w).2.
Proof.
  intros (req & Hreq & <- & <- & Ho). unfold TreasuryTransfer.
  do 2 (drop_step; [done|]). rewrite (outcome_decode _ _ _ _ Hreq).
  do 4 (drop_step; [done|]). rewrite decide_False by done. rewrite outcome_ret_bind. drop_call.
  match goal with |- context [run (call ?c) ?w] => destruct (run (call c) w).1 as [st|[|msg|msg]] end; [done| |done..].
  unfold transferNew. do 3 (drop_step; [done|]).
  refine (reserve_and_send_sent (transfer_exists _) (transferReserve req (ttq_TransferOrderID req) _)
      (λ s, FailTreasuryTransferOnChainCall (ttq_TenantID req) (ttq_TransferOrderID req) s 0)
      (λ hash, MarkTreasuryTransferBroadcastedCall (ttq_TenantID req) (ttq_TransferOrderID req) hash _)
      _ (λ b m, _) _ _ _ _).
  - intros now l l'. apply reserve_transfer_exists.
  - intros reason. apply fail_transfer_keeps.
  - intros hash. apply mark_transfer_keeps.
Qed.

(** Everything that [n] deliveries of one request, one after the other, hand to
    the chain gateway. *)
Fixpoint sends (n : nat) {A} (p : prog A) (w : world C) : list (BroadcastParams * result string) :=
  match n with
  | O => []
  | S n => sent (traced p w) ++ sends n p (run p w).2
  end.

Lemma sends_existing n r t o (w : world C) :
  order_given r t o → transfer_exists (t, o) (w_ledger w) → sends n (TreasuryTransfer h r) w = [].
Proof.
  intros Ho. revert w. induction n as [|n IH]; intros w Hrow; [done|]. destruct (Hrow) as [row Hr]. cbn [sends].
  destruct (TreasuryTransfer_existing r t o row w Ho Hr) as (a & Hout & _). unfold outcome, observed in Hout.
  injection Hout as -> _ _ Hw. apply IH. by rewrite Hw.
Qed.

Lemma transfer_trace_sent reserve failed mark ok obs :
  transfer_trace reserve failed mark ok obs → (List.length obs.1 ≤ 1)%nat.
Proof.
  intros [(e & -> & _)|[(e & l & x & Hl & -> & _)|(p & hash & errs & x & -> & _)]]; cbn; [lia| |lia].
  by eapply unsent_length.
Qed.

Lemma TreasuryTransfer_sends n r t o (w : world C) :
  order_given r t o → (List.length (sends n (TreasuryTransfer h r) w) ≤ 1)%nat.
Proof.
  intros Ho. revert w. induction n as [|n IH]; intros w; [cbn; lia|]. cbn [sends].
  destruct (sent (traced (TreasuryTransfer h r) w)) as [|x l] eqn:Hs; [apply IH|].
  rewrite (sends_existing n r t o), app_nil_r; [|done|].
  - pose proof (TreasuryTransfer_trace h r _ _ (traced_exec (TreasuryTransfer h r) w)) as [E|(? & ? & ? & _ & _ & E)].
    + unfold observed in E. by rewrite Hs in E.
    + apply transfer_trace_sent in E. unfold observed in E. by rewrite Hs in E.
  - apply (TreasuryTransfer_sent r t o w Ho). unfold outcome, observed. by rewrite Hs.
Qed.
End system.
