(* ===== verification/Site.v ===== *)
(** * A concrete outside world

    What the properties of the orchestrator, the dispatcher and the handlers are
    instantiated with: a database that fails on chosen calls, a chain that
    accepts what it is sent, a signer that signs. *)
From S2P Require Import Prelude GoStrings GoNumbers Ports LedgerTables LedgerWithdraw LedgerQueue.
From S2P Require Import Calls Orchestrator Dispatcher LedgerAccounting LedgerSystem LedgerProperties.

(** Answers that refuse everything: with them every program has a trace. *)
Definition refuse {R : Type} (c : port R) : R :=
  match c in port R return R with
  | FreshRequestID p => p
  | LedgerCall _ | ClaimQueued _ | ClaimStale _ _ _ | WithdrawStatusOf _ _ | TransferStatusOf _ _
  | AssetsOf _ _ | BalanceOf _ _ _ | BuildUnsignedTx _ | Broadcast _ | ChainBalanceOf _ _ _ _ _
  | SignMessage _ _ _ _ | AccountOf _ _ | ChainPolicyOf _ _ | AddressesOf _ _ | AddressByKeyID _ _ _
  | UpsertAccount _ | ListAccounts _ _ _ | ChainMetadataOf _ _ | PrepareAddressCall _ | UpsertWatchAddressCall _
  | DeriveKeyCall _ _ _ | ConvertAddressCall _ _ _ _ | BindTenantKeyCall _ _ => Err (Errorf "down")
  end.

(** Every account is active and has one address; every chain asks for two
    confirmations. *)
Definition account (t a : string) : WalletAccount := {|
  wa_TenantID := t; wa_AccountID := a; wa_AccountTag := ""; wa_Status := "ACTIVE"; wa_Remark := "";
  wa_CreatedAt := ""; wa_UpdatedAt := "" |}.
Definition policy (ch n : string) : ChainPolicy := {|
  cp_Chain := ch; cp_Network := n; cp_RequiredConfirmations := 2; cp_UnlockConfirmations := 2; cp_SafeDepth := 0;
  cp_ReorgWindow := 0; cp_FeePolicy := ""; cp_Enabled := true |}.
Definition address (t a : string) : WalletAddress := {|
  wd_TenantID := t; wd_AccountID := a; wd_Model := "account"; wd_Chain := "ethereum"; wd_Coin := "ETH";
  wd_Network := "mainnet"; wd_Address := "0x" +:+ a; wd_KeyID := "k:" +:+ a; wd_PublicKey := "p:" +:+ a;
  wd_SignType := "ecdsa"; wd_AddressType := ""; wd_DerivationPath := ""; wd_ChangeIndex := 0;
  wd_AddressIndex := 0; wd_Status := "ACTIVE"; wd_CreatedAt := ""; wd_UpdatedAt := "" |}.

(** A database that fails on the calls whose number is in [st_faults], and a
    chain that accepts everything. *)
Record state := { st_calls : Z; st_faults : list Z; st_sent : list BroadcastParams }.

#[export] Instance outside : Outside state := {|
  out_db := λ c, (if decide (st_calls c ∈ st_faults c) then Err (Errorf "connection reset") else Ok (10000000 * st_calls c),
                  {| st_calls := st_calls c + 1; st_faults := st_faults c; st_sent := st_sent c |});
  out_locked := λ _ _, false;
  out_call := λ R c, match c in port R return state → R * state with
    | BuildUnsignedTx p => λ s, (Ok {| br_UnsignedTx := "unsigned:" +:+ bp_Amount p; br_SignHashes := ["h0"] |}, s)
    | Broadcast p => λ s,
        (Ok ("0x" +:+ BigString (Z.of_nat (List.length (st_sent s)))),
         {| st_calls := st_calls s; st_faults := st_faults s; st_sent := st_sent s ++ [p] |})
    | SignMessage _ _ k m => λ s, (Ok ("sig:" +:+ k +:+ ":" +:+ m), s)
    | AccountOf t a => λ s, (Ok (account t a), s)
    | ChainPolicyOf ch n => λ s, (Ok (policy ch n), s)
    | AddressesOf t a => λ s, (Ok [address t a], s)
    | AddressByKeyID t a k => λ s, (Ok (address t a), s)
    | c => λ s, (refuse c, s)
    end;
|}.

#[export] Instance server : Postgres := {|
  pg_lower := ToLower; pg_collate := λ _ _, True; pg_collate_dec := λ _ _, left I |}.
#[export] Instance solana : SolanaLib := {|
  solana_key := string;
  PublicKeyFromBase58 := λ s, Ok s;
  FindAssociatedTokenAddress := λ a b, Ok (a +:+ b);
  solana_key_String := λ s, s;
  base58_Encode := of_bytes;
|}.
Definition payload : evmDynamicFeePayload := {|
  ev_ChainID := "1"; ev_NonceMode := ""; ev_FromAddress := "0xAA"; ev_Nonce := 7;
  ev_MaxPriorityFeePerGas := "100"; ev_MaxFeePerGas := "200"; ev_GasLimit := 21000; ev_ToAddress := "0xb";
  ev_Amount := "10"; ev_ContractAddress := "" |}.

Definition dispatcher (attempts : Z) : WithdrawDispatcher := {|
  ds_Batch := 8; ds_AccelerateBatch := 8; ds_Parallelism := 4; ds_MaxAttempts := attempts;
  ds_BaseBackoff := second; ds_MaxBackoff := 30 * second; ds_AccelerateAfter := 60 * second;
  ds_AccelerateMaxAttempts := 3; ds_AccelerateGasBumpBps := 2000 |}.

Definition start (faults : list Z) (l : ledger) : world state :=
  World l {| st_calls := 1; st_faults := faults; st_sent := [] |}.

(** Order [w-5] of 10, signed with one key. *)
Definition request : WithdrawQueueInput := {|
  wq_TenantID := "t"; wq_AccountID := "alice"; wq_OrderID := "w-5"; wq_RequiredConfs := 2;
  wq_Signers := [{| sr_KeyID := "k1"; sr_PublicKey := "p1" |}]; wq_SignType := "ecdsa"; wq_Tx := Demo.tx "0xAA" "10" |}.
Definition queued : ledger := run_tx (QueueWithdraw 1000 request) Demo.funded.

(** One round of the dispatcher, one job after the other. *)
Definition runAll (ps : list (prog ())) (w : world state) : world state :=
  foldl (λ w p, (run p w).2) w ps.
(** [dispatchOnce] and then its jobs in order. *)
Definition dispatchRound (d : WithdrawDispatcher) `{SolanaLib} (w : world state) : world state :=
  let '(ps, w) := run (dispatchOnce d) w in runAll ps w.

(** A database that always answers, at time [c]. *)
Definition calm : Outside Z := {|
  out_db := λ c, (Ok c, c + 1);
  out_locked := λ _ _, false;
  out_call := λ R c, match c in port R return Z → R * Z with
    | BuildUnsignedTx p => λ s, (Ok {| br_UnsignedTx := "unsigned:" +:+ bp_Amount p; br_SignHashes := ["h0"] |}, s)
    | Broadcast p => λ s, (Ok ("0x" +:+ BigString s), s)
    | SignMessage _ _ k m => λ s, (Ok ("sig:" +:+ k +:+ ":" +:+ m), s)
    | c => λ s, (refuse c, s)
    end;
|}.

(** The payload above is the only one there is. *)
#[export] Instance codec : PayloadCodec := {|
  decodePayload := λ s, if decide (s = "p") then Ok payload else Err (Errorf "illegal base64 data");
  encodePayload := λ p, Ok (ev_MaxPriorityFeePerGas p +:+ "/" +:+ ev_MaxFeePerGas p) |}.

(** The claimed job of order [w-5]. *)
Definition theJob : WithdrawJob := {|
  wj_ID := 1; wj_TenantID := "t"; wj_AccountID := "alice"; wj_OrderID := "w-5"; wj_TxHash := "";
  wj_RequiredConfs := 2; wj_AttemptCount := 1; wj_ReplaceCount := 0; wj_Signers := wq_Signers request;
  wj_SignType := "ecdsa"; wj_Tx := wq_Tx request |}.

Lemma queued_ok : QueueWithdraw 1000 request Demo.funded = Ok queued.
Proof. run_tx_ok. Qed.
Lemma queued_accounting : accounting queued.
Proof. exact (ledger_step_accounting ToLower Demo.any_sweep _ _ (step_op _ _ (OpCall _ (QueueWithdrawCall _)) _ _ I I queued_ok) Demo.funded_accounting). Qed.
