(* ===== verification/AddressProperties.v ===== *)
(** * Properties of created addresses *)
From S2P Require Import Prelude GoStrings GoNumbers Ports Calls Handlers KeyRef RegistryKeys.
From S2P Require Import KeyPaths HDDerive HdPub.
From S2P Require Import Site.
From S2P Require Import KeyAgreement ScanStore Registry RegistrySystem.
From S2P Require Import RegistryProperties.
From S2P Require Import PolicyEngine KeyStore Signer SignerProperties.
From S2P Require Import AddressHandler AddressSystem.

Section properties.
Context `{CryptoLaws} `{!Signatures} `{!SignatureLaws} `{Sha256} `{BackendLaws} `{SqlText} {C : Type} `{!AddressOutside C}.
Variables (to_char : Z → string) (authToken : string) (hsm : LocalHSM).
#[local] Instance handled : PortHandler (address_world C) := address_handler to_char authToken hsm.
Hypothesis rpc_io_ok : ∀ c io, delivered_io (ao_rpc c).1 = Some io → io_ok io.

(** A signature of the service for a key it signs for. *)
Lemma rpcSignMessage_good t st k msg (w : address_world C) sig w' pub ref seed :
  signs_for k pub ref seed → has_seed (tenantSlot authToken hsm t (kr_SignType ref)) seed w →
  run (call (SignMessage t st k msg)) w = (Ok sig, w') →
  signature_good (kr_SignType ref) pub (TrimPrefix (TrimSpace msg) "0x") sig.
Proof.
  intros [Hp Hkey] [Hok Hs] Hrun. rewrite run_call in Hrun. cbn in Hrun. unfold rpcSignMessage in Hrun.
  destruct (ao_rpc (aw_out w)) as [[e|now io|now io e] c] eqn:Hrpc; [done| |done].
  destruct (ServeSignMessage _ _ _ _ _ _) as [s [resp|]] eqn:Hserve; [|done]. injection Hrun as Hsig _.
  apply ServeSignMessage_inv in Hserve as (ref' & seed' & sk & _ & Hp' & Hl & Hsk & _ & Hx). cbn in Hp'.
  assert (ref' = ref) as -> by congruence.
  assert (Hio : io_ok io) by (apply (rpc_io_ok (aw_out w)); by rewrite Hrpc).
  pose proof (law_load_keeps io (tenantSlot authToken hsm t (kr_SignType ref)) _ _ _ Hok Hio Hs) as Hkeep.
  unfold tenantSlot in Hkeep. rewrite Hl in Hkeep. apply law_load_seed in Hl; [|done..]. cbn [fst] in Hkeep.
  assert (seed' = seed) as -> by congruence.
  revert Hsig. unfold signatureOf. cbn [mbind result_bind]. destruct (decide (TrimSpace (sr_Signature resp) = "")); [discriminate|]. intros [= <-].
  eapply signed_by_pair; [by apply Hkey|exact Hx].
Qed.

(** The row an existing address is read from. *)
Lemma PrepareAddress_existing inp s p :
  PrepareAddress to_char inp s = Ok p → pa_Existing p = true →
  ∃ row, row ∈ rg_addresses s ∧ ad_key_id row = wd_KeyID (pa_Address p) ∧ ad_public_key row = wd_PublicKey (pa_Address p).
Proof.
  unfold PrepareAddress. case_decide; [done|]. case_match eqn:Hm.
  - intros [= <-] _. eexists. split; [|done]. apply head_Some_elem_of in Hm.
    rewrite merge_sort_Permutation in Hm. by do 2 apply list_elem_of_filter in Hm as [_ Hm].
  - intros Hp. mbind_inv Hp. mbind_inv Hp. case_decide; [done|]. mbind_inv Hp. by injection Hp as <-.
Qed.

Lemma created_key_signs h r (w : address_world C) resp w' :
  backend_ok (sv_backend (aw_server w)) → registry_reachable to_char (aw_registry w) →
  rg_next_account_id (aw_registry w) ≤ 2 ^ 32 → 0 ≤ car_AddressIndex resp < hardenedOffset →
  run (CreateAddress h r) w = (HttpOk resp, w') →
  (∃ row, row ∈ rg_addresses (aw_registry w) ∧ ad_key_id row = car_KeyID resp ∧ ad_public_key row = car_PublicKey resp)
  ∨ ∃ ref seed, signs_for (car_KeyID resp) (car_PublicKey resp) ref seed
      ∧ has_seed (tenantSlot authToken hsm (car_TenantID resp) (kr_SignType ref)) seed w'.
Proof.
  intros Hok Hreach Hnext Hidx Hrun.
  apply CreateAddress_inv in Hrun as (inp & p & now & wi & Ht & Ha & Hp & _ & _ & Hk & Hi & Hsrc).
  unfold key_source in Hsrc. rewrite Hk. destruct (pa_Existing p) eqn:Hex.
  - left. rewrite Hsrc. by apply PrepareAddress_existing in Hp.
  - right. destruct Hsrc as (signType & scheme & w1 & w2 & [Hr Hs] & Hs' & Hkey).
    destruct (PrepareAddress_new _ _ _ _ Hp Hex) as (acc & i & idx & path & Hacc & Hai & Hpos & Hpath & _ & Hkid & _ & Hch & Hix & _).
    destruct (registry_reachable_ok _ _ Hreach) as (_ & Hrows & _). destruct (Hrows _ _ Hacc) as [Hb [Hx|Hx]]; [congruence|].
    eapply newAddressKey_ok in Hkey as [_ (ref & seed & Hsig & Hseed)];
      [|exact rpc_io_ok|by rewrite Hs|exact Hpath|unfold is_uint32; split; [done|]; assert (i = ac_id acc) by congruence; lia
       |rewrite <- Hix, <- Hi; exact Hidx|exact Hkid|exact Hch|exact Hix].
    exists ref, seed. split; [exact Hsig|]. unfold has_seed in *. by rewrite Hs'.
Qed.
End properties.

(** The sign service reads the registry's sign types as they are. *)
Lemma sign_types_agree st :
  KeyRef.normalizeSignType (RegistryKeys.normalizeSignType st) = RegistryKeys.normalizeSignType st.
Proof.
  unfold RegistryKeys.normalizeSignType, normalizeChainSignType. repeat case_decide; reflexivity.
Qed.

(** ** A concrete service *)

#[local] Existing Instances smallCrypto smallCrypto_laws smallSignatures smallSignatures_laws smallSha smallVault
  smallVault_laws asciiText.

(** A number of calls; the address of a key is its hexadecimal text. *)
#[local] Instance workingOutside : AddressOutside Z := {|
  ao_db c := (Ok c, c + 1);
  ao_rpc c := (Delivered c (workingIO "a", workingIO "b"), c + 1);
  ao_call := λ R c, match c in port R return Z → R * Z with
    | ConvertAddressCall _ _ _ pub => λ s, (Ok ("0x" +:+ pub), s)
    | BindTenantKeyCall _ _ => λ s, (Ok (), s)
    | c => λ s, (refuse c, s)
    end;
|}.

#[local] Instance workingHandler : PortHandler (address_world Z) := address_handler BigString "token" localHSM.

Definition addressHandler : WithdrawHandler :=
  {| wh_Registry := true; wh_Ledger := true; wh_KeyManager := true; wh_ChainAddr := true |}.

Definition createRequest (network signType : string) : http_request CreateAddressRequest := {|
  hq_Method := "POST"; hq_RequestID := ""; hq_Query := λ _, ""; hq_Body := Some {|
    caq_TenantID := "t"; caq_AccountID := "alice"; caq_Chain := "eth"; caq_Coin := "eth"; caq_Network := network;
    caq_AddressType := ""; caq_SignType := signType; caq_MinConfirmations := 0; caq_TreasuryAccountID := "";
    caq_ColdAccountID := ""; caq_AutoSweep := None; caq_SweepThreshold := ""; caq_HotBalanceCap := ""; caq_Model := "" |} |}.

(** Every tenant may call the service. *)
Definition openServer : server :=
  {| sv_policy := New {| pc_AuthToken := "token"; pc_RateLimitWindow := minute; pc_RateLimitMaxRequests := 10;
                         pc_AllowedTenants := [] |};
     sv_backend := emptyKeys : backend |}.

Definition addressStart : address_world Z := AWorld registryStart openServer 1.
Definition created (network signType : string) (w : address_world Z) : reply CreateAddressResponse * address_world Z :=
  run (CreateAddress addressHandler (createRequest network signType)) w.

Lemma created_run network signType w :
  created network signType w =
  @run _ (address_handler BigString "token" localHSM) _ (CreateAddress addressHandler (createRequest network signType)) w.
Proof. reflexivity. Qed.

Example created_is_answered : is_reply (created "mainnet" "" addressStart).1 = true.
Proof. vm_compute. reflexivity. Qed.

(** The registration of the second request, on its own. *)
Definition eddsaInput : WatchAddressInput :=
  let i := registerInput "alice" "mainnet" registryStart in {|
  wi_TenantID := wi_TenantID i; wi_AccountID := wi_AccountID i; wi_Model := wi_Model i; wi_Chain := wi_Chain i;
  wi_Coin := wi_Coin i; wi_Network := wi_Network i; wi_Address := wi_Address i; wi_KeyID := wi_KeyID i;
  wi_PublicKey := wi_PublicKey i; wi_SignType := "eddsa"; wi_AddressType := ""; wi_DerivationPath := wi_DerivationPath i;
  wi_ChangeIndex := 0; wi_AddressIndex := 0; wi_MinConfirmations := 0; wi_UnlockConfirmations := 0;
  wi_TreasuryAccountID := ""; wi_ColdAccountID := ""; wi_AutoSweep := false; wi_SweepThreshold := "0";
  wi_HotBalanceCap := "0" |}.
Definition afterEddsa : registry := run_tx (UpsertWatchAddress 2 eddsaInput) afterMainnet.

Lemma eddsa_written : UpsertWatchAddress 2 eddsaInput afterMainnet = Ok afterEddsa.
Proof. unfold afterEddsa. apply run_tx_ok. vm_compute. reflexivity. Qed.

(** ** Properties *)

(** C12. A created address can be spent from: the handler answers an address with
    the public key of its key id; afterwards, whatever other requests run in
    between, a signature wallet-core gets for that tenant and key id verifies
    under the public key of the address.  The address it answers is new, or one
    that was registered with this key before.  The registry, the key derivation
    of the sign service, its keystore and its signatures compose. *)
Theorem created_address_can_sign
    `{CryptoLaws} `{!Signatures} `{!SignatureLaws} `{Sha256} `{BackendLaws} `{SqlText} {C} `{!AddressOutside C}
    to_char authToken hsm h r (w : address_world C) resp w' {A} (ps ps' : list (prog A)) w1 signType msg sig w2 :
  let I : PortHandler (address_world C) := address_handler to_char authToken hsm in
  (∀ c io, delivered_io (ao_rpc c).1 = Some io → io_ok io) →
  backend_ok (sv_backend (aw_server w)) → registry_reachable to_char (aw_registry w) →
  rg_next_account_id (aw_registry w) ≤ 2 ^ 32 → 0 ≤ car_AddressIndex resp < hardenedOffset →
  run (CreateAddress h r) w = (HttpOk resp, w') →
  (∃ row, row ∈ rg_addresses (aw_registry w) ∧ ad_key_id row = car_KeyID resp ∧ ad_public_key row = car_PublicKey resp)
  ∨ (rtc thread_step (ps, w') (ps', w1) →
     run (call (SignMessage (car_TenantID resp) signType (car_KeyID resp) msg)) w1 = (Ok sig, w2) →
     ∃ ref, ParseKeyID (car_KeyID resp) = Ok ref
       ∧ signature_good (kr_SignType ref) (car_PublicKey resp) (TrimPrefix (TrimSpace msg) "0x") sig).
Proof.
  intros I Hio Hok Hreach Hnext Hidx Hrun.
  apply (created_key_signs to_char authToken hsm Hio) in Hrun as [Hrow|(ref & seed & Hsig & Hseed)];
    [by left|right|done..].
  intros Hr Hs. exists ref. split; [apply Hsig|]. eapply rpcSignMessage_good; [exact Hio|exact Hsig| |exact Hs].
  by eapply threads_keep_seed.
Qed.

(** C14. A created address is watched: as soon as the handler has answered, the
    scanner's query for the address's model, with any filter on chains that lets
    its chain through, returns it, with the tenant, the account, the chain, the
    coin, the network and the address of the answer, unless the list is full:
    the query takes the first rows by id, and a list of as many rows as its
    limit may leave the address out (then there are more watched rows than the
    limit). *)
Theorem created_address_is_scanned
    `{CryptoLaws} `{!Signatures} `{Sha256} `{Backend} `{SqlText} {C} `{!AddressOutside C}
    to_char authToken hsm h r (w : address_world C) resp w' (st : store) limit allowed :
  let I : PortHandler (address_world C) := address_handler to_char authToken hsm in
  sql_upper "ACTIVE" = "ACTIVE" →
  run (CreateAddress h r) w = (HttpOk resp, w') → sees st (aw_registry w') →
  chain_allowed allowed (RegistryKeys.normalizeChain (car_Chain resp)) →
  ∃ ws, ListWatchAddresses (normalizeModel (car_Model resp)) limit allowed st = Ok ws
    ∧ ((∃ wt, wt ∈ ws
          ∧ watchKey wt = (car_TenantID resp, car_AccountID resp, normalizeModel (car_Model resp),
                           RegistryKeys.normalizeChain (car_Chain resp), normalizeCoin (car_Coin resp),
                           normalizeNetwork (car_Network resp), car_Address resp))
       ∨ Z.of_nat (List.length ws) = Z.max 0 limit ∧ limit < Z.of_nat (List.length (st_watches st))).
Proof.
  intros I Hup Hrun Hsees.
  apply CreateAddress_inv in Hrun as (inp & p & now & wi & _ & _ & _ & Hu & (<- & <- & <- & <- & <- & <- & <- & _) & _).
  by apply (registered_is_listed _ _ _ _ _ _ _ Hup Hu Hsees).
Qed.

(** Registering a key id again with another sign type makes its address
    unusable: the row keeps the key id, which names the old sign type, and takes
    the new one, and the sign service then refuses every request for it, since
    the sign type of a request must be the one of its key id. *)
Theorem second_sign_type_stops_signing `{Signatures} `{Sha256} `{Backend} `{SqlText} now inp (s s' : registry) ref :
  UpsertWatchAddress now inp s = Ok s' →
  Exists (λ r, ad_tenant_id r = wi_TenantID inp ∧ ad_key_id r = wi_KeyID inp) (rg_addresses s) →
  ParseKeyID (TrimSpace (wi_KeyID inp)) = Ok ref →
  RegistryKeys.normalizeSignType (wi_SignType inp) ≠ "" → RegistryKeys.normalizeSignType (wi_SignType inp) ≠ kr_SignType ref →
  ∃ row, row ∈ rg_addresses s' ∧ ad_key_id row = wi_KeyID inp ∧ ad_address row = wi_Address inp
    ∧ ∀ hsm at_ io ctx msg sv,
        is_ok (ServeSignMessage hsm at_ io ctx (messageRequest (ad_sign_type row) (ad_key_id row) msg) sv).2 = false.
Proof.
  intros Hu Hex Hp Hne Hst. apply UpsertWatchAddress_inv in Hu as (minConf & unlockConf & s2 & Hu & -> & _).
  apply Exists_exists in Hex as (r & Hr & Ht & Hk).
  destruct (upsertWalletAddressTx_by_key _ _ _ _ r Hu) as (row & Hin & Hkey & Hw);
    [by rewrite upsertAccountTx_addresses|done|done|].
  exists row. split; [exact Hin|]. destruct Hw as (? & ? & ? & ? & ? & Hw).
  split; [done|]. split; [by rewrite Hw|]. intros hsm at_ io ctx msg sv.
  destruct (ServeSignMessage _ _ _ _ _ _) as [sv' [resp|]] eqn:Hs; [|done]. exfalso.
  apply ServeSignMessage_inv in Hs as (ref' & _ & _ & [_ _ _ (ref1 & Hp1 & Hst1)] & _).
  cbn [rq_keyID rq_signType messageRequest] in Hp1, Hst1.
  change (wi_KeyID (normalizedInput inp minConf unlockConf)) with (wi_KeyID inp) in Hkey.
  assert (ref1 = ref) as -> by congruence.
  rewrite Hw in Hst1. cbn in Hst1. rewrite decide_False in Hst1 by exact Hne.
  rewrite sign_types_agree in Hst1. tauto.
Qed.

Lemma answered {A S} (x : reply A * S) : is_reply x.1 = true → ∃ a s, x = (HttpOk a, s).
Proof. destruct x as [[a|] s]; [eauto|done]. Qed.

Lemma answered_call {A S} (x : result A * S) : is_ok x.1 = true → ∃ a s, x = (Ok a, s).
Proof. destruct x as [[a|] s]; [eauto|done]. Qed.

Lemma workingOutside_ok c io : delivered_io (ao_rpc (C := Z) c).1 = Some io → io_ok io.
Proof. intros [= <-]. split; apply workingIO_sound. Qed.

(** The answer's key, and a signature for it. *)
Definition createdKey (x : reply CreateAddressResponse * address_world Z) : option (string * string * Z) :=
  match x.1 with HttpOk resp => Some (car_TenantID resp, car_KeyID resp, car_AddressIndex resp) | _ => None end.
Definition aSignature (w : address_world Z) : result string * address_world Z :=
  run (call (SignMessage "t" "ecdsa" "hd:ecdsa:ethereum:1:0:0" (Repeat "ab" 32))) w.

Lemma no_addresses : rg_addresses (aw_registry addressStart) = [].
Proof. vm_compute. reflexivity. Qed.

Lemma created_address_can_sign_witness :
  ∃ resp w' sig w2, created "mainnet" "" addressStart = (HttpOk resp, w') ∧ aSignature w' = (Ok sig, w2)
    ∧ ∃ ref, ParseKeyID (car_KeyID resp) = Ok ref
       ∧ signature_good (kr_SignType ref) (car_PublicKey resp) (TrimPrefix (TrimSpace (Repeat "ab" 32)) "0x") sig.
Proof.
  destruct (answered (created "mainnet" "" addressStart) ltac:(vm_compute; reflexivity)) as (resp & w' & Hc).
  assert (Hk : createdKey (created "mainnet" "" addressStart) = Some ("t", "hd:ecdsa:ethereum:1:0:0", 0))
    by (vm_compute; reflexivity).
  assert (Hs : is_ok (aSignature (created "mainnet" "" addressStart).2).1 = true) by (vm_compute; reflexivity).
  rewrite Hc in Hk, Hs. injection Hk as Ht Hk Hi. destruct (answered_call _ Hs) as (sig & w2 & Hsig). cbn [snd] in Hsig.
  exists resp, w', sig, w2. split; [exact Hc|]. split; [exact Hsig|].
  destruct (created_address_can_sign (A := ()) BigString "token" localHSM addressHandler (createRequest "mainnet" "")
    addressStart resp w' [] [] w' "ecdsa" (Repeat "ab" 32) sig w2 workingOutside_ok) as [(row & Hrow & _)|Hgood].
  - split; apply map_Forall_empty.
  - exact registryStart_reachable.
  - vm_compute. discriminate.
  - rewrite Hi. unfold hardenedOffset. lia.
  - exact (eq_trans (eq_sym (created_run _ _ _)) Hc).
  - exfalso. rewrite no_addresses in Hrow. exact (not_elem_of_nil _ Hrow).
  - apply Hgood; [done|]. rewrite Ht, Hk. exact Hsig.
Defined.

Lemma created_address_is_scanned_witness :
  ∃ resp w' ws wt, created "mainnet" "" addressStart = (HttpOk resp, w')
    ∧ ListWatchAddresses (normalizeModel (car_Model resp)) 500 ["solana"; "ethereum"] (viewOf (aw_registry w')) = Ok ws
    ∧ wt ∈ ws.
Proof.
  destruct (answered (created "mainnet" "" addressStart) ltac:(vm_compute; reflexivity)) as (resp & w' & Hc).
  assert (Hlen : (List.length (rg_watches (aw_registry (created "mainnet" "" addressStart).2)) = 1)%nat)
    by (vm_compute; reflexivity).
  rewrite Hc in Hlen.
  destruct (created_address_is_scanned BigString "token" localHSM addressHandler (createRequest "mainnet" "")
    addressStart resp w' (viewOf (aw_registry w')) 500 ["solana"; "ethereum"])
    as (ws & Hws & [(wt & Hin & _)|[_ Hfull]]).
  - vm_compute. reflexivity.
  - exact (eq_trans (eq_sym (created_run _ _ _)) Hc).
  - by split.
  - assert (Hch : (λ r, match r with HttpOk x => bool_decide (chain_allowed ["solana"; "ethereum"]
                     (RegistryKeys.normalizeChain (car_Chain x))) | _ => false end)
                    (created "mainnet" "" addressStart).1 = true) by (vm_compute; reflexivity).
    rewrite Hc in Hch. by apply bool_decide_eq_true in Hch.
  - exists resp, w', ws, wt. split; [exact Hc|]. split; [exact Hws|exact Hin].
  - exfalso. revert Hfull. cbn [viewOf st_watches]. cbn [snd] in Hlen. rewrite Hlen. lia.
Defined.

(** The second request names the other sign type for the address. *)
Lemma second_sign_type_stops_signing_witness :
  let w := (created "mainnet" "eddsa" (created "mainnet" "" addressStart).2).2 in
  (ad_key_id <$> rg_addresses (aw_registry w), ad_sign_type <$> rg_addresses (aw_registry w))
  = (["hd:ecdsa:ethereum:1:0:0"], ["eddsa"])
  ∧ ∃ row, row ∈ rg_addresses afterEddsa ∧ ad_key_id row = "hd:ecdsa:ethereum:1:0:0"
    ∧ is_ok (ServeSignMessage localHSM 9 (workingIO "a", workingIO "b") signerCtx
         (messageRequest (ad_sign_type row) (ad_key_id row) (Repeat "ab" 32)) openServer).2 = false.
Proof.
  split; [vm_compute; reflexivity|].
  destruct (second_sign_type_stops_signing 2 eddsaInput afterMainnet afterEddsa
    {| kr_SignType := "ecdsa"; kr_Chain := "ethereum"; kr_Account := 1; kr_Change := 0; kr_Index := 0 |}) as (row & Hin & Hk & _ & Hno).
  - exact eddsa_written.
  - apply Exists_exists. eexists. split; [vm_compute; left|]. vm_compute. by split.
  - vm_compute. reflexivity.
  - vm_compute. discriminate.
  - vm_compute. discriminate.
  - exists row. split; [exact Hin|]. split; [exact Hk|apply Hno].
Defined.
