(* ===== verification/Endpoint.v ===== *)
(** * The RPC endpoints of the chain gateway

    [chain-gateway/internal/controlplane/postgres.go] and
    [internal/endpoint/manager.go]: the table of endpoints, and the manager that
    chooses one by weight, with a circuit breaker per endpoint.  The manager's
    maps hold pointers: [mg_heap] is the memory they point into.  [now] is
    [time.Now()]; the zero time of [openUntil] is [None]. *)
From S2P Require Import Prelude GoStrings GoNumbers.

(** ** The control plane *)

Record RPCEndpoint := {
  re_ID : Z;
  re_Chain : string;
  re_Network : string;
  re_Model : string;
  re_URL : string;
  re_Weight : Z;
  re_TimeoutMS : Z;
  re_Priority : Z;
  re_Status : string;
}.

(** A row as the loop of [ListActiveRPCEndpoints] reads it; [None] is skipped. *)
Definition scanEndpoint (row : RPCEndpoint) : option RPCEndpoint :=
  let chain := ToLower (TrimSpace (re_Chain row)) in
  let network := ToLower (TrimSpace (re_Network row)) in
  let model := ToLower (TrimSpace (re_Model row)) in
  let url := TrimSpace (re_URL row) in
  if decide (chain = "" ∨ network = "" ∨ model = "" ∨ url = "") then None else
  Some {| re_ID := re_ID row; re_Chain := chain; re_Network := network; re_Model := model; re_URL := url;
          re_Weight := if decide (re_Weight row ≤ 0) then 1 else re_Weight row;
          re_TimeoutMS := if decide (re_TimeoutMS row ≤ 0) then 10000 else re_TimeoutMS row;
          re_Priority := re_Priority row; re_Status := ToUpper (TrimSpace (re_Status row)) |}.

(** The rows are those the query returns, in its order. *)
Definition ListActiveRPCEndpoints (rows : list RPCEndpoint) : list RPCEndpoint :=
  omap scanEndpoint (filter (λ row, re_Status row = "ACTIVE") rows).

(** ** The manager *)

Record SelectedEndpoint := {
  sl_ID : Z;
  sl_Key : string;
  sl_Chain : string;
  sl_Network : string;
  sl_Model : string;
  sl_URL : string;
  sl_TimeoutMS : Z;
}.

Record endpoint_state := {
  es_endpoint : RPCEndpoint;
  es_failStreak : Z;
  es_penalty : Z;
  es_openUntil : option Z;
  es_lastError : string;
  es_lastSuccessAt : option Z;
  es_lastFailureAt : option Z;
  es_successCount : Z;
  es_failureCount : Z;
}.

Record Manager := {
  mg_openDuration : Z;
  mg_failThreshold : Z;
  mg_heap : gmap nat endpoint_state;
  mg_pools : gmap string (list nat);
  mg_states : gmap string nat;
  mg_lastRefreshErr : option error;
}.

#[export] Instance endpoint_state_rebuild : Rebuild endpoint_state := λ r,
  {| es_endpoint := es_endpoint r; es_failStreak := es_failStreak r; es_penalty := es_penalty r;
     es_openUntil := es_openUntil r; es_lastError := es_lastError r; es_lastSuccessAt := es_lastSuccessAt r;
     es_lastFailureAt := es_lastFailureAt r; es_successCount := es_successCount r; es_failureCount := es_failureCount r |}.
#[export] Instance Manager_rebuild : Rebuild Manager := λ r,
  {| mg_openDuration := mg_openDuration r; mg_failThreshold := mg_failThreshold r; mg_heap := mg_heap r;
     mg_pools := mg_pools r; mg_states := mg_states r; mg_lastRefreshErr := mg_lastRefreshErr r |}.

(** [&state{endpoint: item}] *)
Definition newState (item : RPCEndpoint) : endpoint_state := {|
  es_endpoint := item; es_failStreak := 0; es_penalty := 0; es_openUntil := None; es_lastError := "";
  es_lastSuccessAt := None; es_lastFailureAt := None; es_successCount := 0; es_failureCount := 0 |}.

(** The intervals only drive the tickers of [Run]; [second] is 10^9. *)
Definition NewManager (openDuration failThreshold : Z) : Manager := {|
  mg_openDuration := if decide (openDuration ≤ 0) then 30 * 10 ^ 9 else openDuration;
  mg_failThreshold := if decide (failThreshold ≤ 0) then 3 else failThreshold;
  mg_heap := ∅; mg_pools := ∅; mg_states := ∅; mg_lastRefreshErr := None |}.

Definition endpointKey (ep : RPCEndpoint) : string :=
  re_Chain ep +:+ "|" +:+ re_Network ep +:+ "|" +:+ re_Model ep +:+ "|" +:+ re_URL ep.
Definition poolKey (chain network model : string) : string := chain +:+ "|" +:+ network +:+ "|" +:+ model.

Definition effectiveWeight (st : endpoint_state) : Z :=
  let w := re_Weight (es_endpoint st) - es_penalty st in if decide (w ≤ 0) then 1 else w.

Definition toSelected (st : endpoint_state) : SelectedEndpoint :=
  let ep := es_endpoint st in {|
  sl_ID := re_ID ep; sl_Key := endpointKey ep; sl_Chain := re_Chain ep; sl_Network := re_Network ep;
  sl_Model := re_Model ep; sl_URL := re_URL ep; sl_TimeoutMS := re_TimeoutMS ep |}.

(** One turn of [Refresh]'s loop: [states] is the map before the refresh. *)
Definition refreshItem (states : gmap string nat)
    (acc : gmap nat endpoint_state * gmap string (list nat) * gmap string nat) (item : RPCEndpoint)
    : gmap nat endpoint_state * gmap string (list nat) * gmap string nat :=
  let '(heap, newPools, newStates) := acc in
  let k := endpointKey item in
  let pk := poolKey (re_Chain item) (re_Network item) (re_Model item) in
  let '(p, heap) := match states !! k with
                    | None => let p := fresh (dom heap) in (p, <[p := newState item]> heap)
                    | Some p => (p, alter (λ st, st <| es_endpoint := item |>) p heap)
                    end in
  (heap, <[pk := default [] (newPools !! pk) ++ [p]]> newPools, <[k := p]> newStates).

Definition Refresh (items : result (list RPCEndpoint)) (m : Manager) : Manager * result () :=
  match items with
  | Err e => (m <| mg_lastRefreshErr := Some e |>, Err e)
  | Ok items =>
      let '(heap, pools, states) := foldl (refreshItem (mg_states m)) (mg_heap m, ∅, ∅) items in
      (m <| mg_heap := heap |> <| mg_pools := pools |> <| mg_states := states |> <| mg_lastRefreshErr := None |>, Ok ())
  end.

(** [st.openUntil.IsZero() || !now.Before(st.openUntil)] *)
Definition availableAt (now : Z) (st : endpoint_state) : Prop :=
  match es_openUntil st with None => True | Some until => until ≤ now end.
#[export] Instance availableAt_dec now st : Decision (availableAt now st).
Proof. unfold availableAt. destruct (es_openUntil st); apply _. Defined.

(** [st.openUntil.Before(pick.openUntil)], the zero time before any other. *)
Definition opensBefore (a b : endpoint_state) : Prop :=
  match es_openUntil a, es_openUntil b with
  | Some x, Some y => x < y
  | None, Some _ => True
  | _, None => False
  end.
#[export] Instance opensBefore_dec a b : Decision (opensBefore a b).
Proof. unfold opensBefore. destruct (es_openUntil a), (es_openUntil b); apply _. Defined.

(** The soonest to be half-open. *)
Definition soonest (candidates : list endpoint_state) : option endpoint_state :=
  foldl (λ pick st, match pick with
                    | None => Some st
                    | Some p => if decide (opensBefore st p) then Some st else pick
                    end) None candidates.

(** The endpoint whose share of the weights [r] falls into. *)
Fixpoint pickWeighted (r acc : Z) (available : list endpoint_state) : option endpoint_state :=
  match available with
  | [] => None
  | st :: rest =>
      let acc := acc + effectiveWeight st in
      if decide (r < acc) then Some st else pickWeighted r acc rest
  end.

Definition totalWeight (available : list endpoint_state) : Z := foldr (λ st acc, effectiveWeight st + acc) 0 available.

(** [m.pools[poolKey(chain, network, model)]] *)
Definition poolOf (chain network model : string) (m : Manager) : list endpoint_state :=
  omap (λ p, mg_heap m !! p) (default [] (mg_pools m !! poolKey chain network model)).

(** [intn] is the random source's [Intn]. *)
Definition Select (now : Z) (intn : Z → Z) (chain network model : string) (m : Manager) : result SelectedEndpoint :=
  let chain := ToLower (TrimSpace chain) in
  let network := ToLower (TrimSpace network) in
  let model := ToLower (TrimSpace model) in
  if decide (chain = "" ∨ network = "" ∨ model = "") then Err (Errorf "chain/network/model are required") else
  let candidates := poolOf chain network model m in
  let available := filter (availableAt now) candidates in
  let total := totalWeight available in
  let picked := match candidates, available with
                | [], _ => None
                | _, [] => soonest candidates
                | _, first :: _ =>
                    if decide (total ≤ 0) then Some first
                    else Some (default first (pickWeighted (intn total) 0 available))
                end in
  from_option_err (Errorf ("no rpc endpoint configured for chain=" +:+ chain +:+ " network=" +:+ network
                           +:+ " model=" +:+ model)) (toSelected <$> picked).

(** ** Reports *)

(** [st, ok := m.states[endpointKey]] and the changes through the pointer. *)
Definition onState (key : string) (f : endpoint_state → endpoint_state) (m : Manager) : Manager :=
  match mg_states m !! key with
  | None => m
  | Some p => m <| mg_heap ::= alter f p |>
  end.

Definition succeeded (now : Z) (st : endpoint_state) : endpoint_state :=
  st <| es_failStreak := 0 |> <| es_lastError := "" |> <| es_lastSuccessAt := Some now |>
     <| es_successCount := wrap64 (es_successCount st + 1) |>
     <| es_penalty := if decide (0 < es_penalty st) then es_penalty st - 1 else es_penalty st |>
     <| es_openUntil := None |>.

Definition failed (failThreshold openDuration now : Z) (err : option error) (st : endpoint_state) : endpoint_state :=
  let streak := es_failStreak st + 1 in
  let maxPenalty := Z.max (re_Weight (es_endpoint st) - 1) 0 in
  let st := st <| es_failStreak := streak |> <| es_failureCount := wrap64 (es_failureCount st + 1) |>
               <| es_lastFailureAt := Some now |> <| es_lastError := from_option error_text (es_lastError st) err |>
               <| es_penalty := if decide (es_penalty st < maxPenalty) then es_penalty st + 1 else es_penalty st |> in
  if decide (failThreshold ≤ streak) then st <| es_openUntil := Some (now + openDuration) |> <| es_failStreak := 0 |>
  else st.

Definition ReportSuccess (now : Z) (key : string) : Manager → Manager := onState key (succeeded now).
Definition ReportFailure (now : Z) (key : string) (err : option error) (m : Manager) : Manager :=
  onState key (failed (mg_failThreshold m) (mg_openDuration m) now err) m.

(** ** Probes and status *)

(** The keys of [snapshot] with their endpoints; a Go map is ranged over in
    some order. *)
Definition snapshot (m : Manager) (keys : list string) : list (string * SelectedEndpoint) :=
  omap (λ k, p ← mg_states m !! k; st ← mg_heap m !! p; Some (k, toSelected st)) keys.

(** [answer] is what [probeJSONRPC] returns for an endpoint. *)
Definition probe (isEVM : string → bool) (answer : SelectedEndpoint → option error) (now : Z) (keys : list string)
    (m : Manager) : Manager :=
  foldl (λ m e, let '(k, item) := e in
    if negb (bool_decide (sl_Model item = "account") && isEVM (sl_Chain item)) then m
    else match answer item with
         | Some err => ReportFailure now k (Some err) m
         | None => ReportSuccess now k m
         end) m (snapshot m keys).

Record EndpointStatus := {
  ps_Chain : string;
  ps_Network : string;
  ps_Model : string;
  ps_URL : string;
  ps_CircuitOpen : bool;
  ps_OpenUntil : string;
  ps_FailStreak : Z;
  ps_SuccessCount : Z;
  ps_FailureCount : Z;
  ps_LastError : string;
}.

(** [format] is [UTC().Format(time.RFC3339)]. *)
Definition endpointStatus (format : Z → string) (now : Z) (st : endpoint_state) : EndpointStatus := {|
  ps_Chain := re_Chain (es_endpoint st); ps_Network := re_Network (es_endpoint st);
  ps_Model := re_Model (es_endpoint st); ps_URL := re_URL (es_endpoint st);
  ps_CircuitOpen := match es_openUntil st with None => false | Some until => bool_decide (now < until) end;
  ps_OpenUntil := from_option format "" (es_openUntil st); ps_FailStreak := es_failStreak st;
  ps_SuccessCount := es_successCount st; ps_FailureCount := es_failureCount st; ps_LastError := es_lastError st |}.

Definition Snapshot (format : Z → string) (now : Z) (keys : list string) (m : Manager) : list EndpointStatus :=
  omap (λ k, p ← mg_states m !! k; st ← mg_heap m !! p; Some (endpointStatus format now st)) keys.
