(* ===== verification/EndpointSystem.v ===== *)
(** * The endpoint manager over time

    Refreshes and reports in any order.  The pointers of the manager's maps
    stay apart, an endpoint that stays configured keeps its state, and its
    circuit breaker depends on its own reports only, in closed form
    ([breaker_streak], [breaker_open]). *)
From S2P Require Import Prelude GoStrings GoNumbers Endpoint.

Inductive manager_op : Type :=
  | OpRefresh (items : result (list RPCEndpoint))
  | OpSuccess (now : Z) (key : string)
  | OpFailure (now : Z) (key : string) (err : option error).

Definition manager_step (m : Manager) (o : manager_op) : Manager :=
  match o with
  | OpRefresh items => (Refresh items m).1
  | OpSuccess now key => ReportSuccess now key m
  | OpFailure now key err => ReportFailure now key err m
  end.
Definition manager_run (ops : list manager_op) (m : Manager) : Manager := foldl manager_step m ops.

(** ** Pointers *)

Definition pointers_ok (heap : gmap nat endpoint_state) (states : gmap string nat) : Prop :=
  (∀ k p, states !! k = Some p → is_Some (heap !! p)) ∧ (∀ k k' p, states !! k = Some p → states !! k' = Some p → k = k').

Definition manager_ok (m : Manager) : Prop := 0 < mg_failThreshold m ∧ pointers_ok (mg_heap m) (mg_states m).

Lemma NewManager_ok od ft : manager_ok (NewManager od ft).
Proof. split; [cbn; case_decide; lia|]. split; intros k p; cbn; set_solver. Qed.

(** What the loop keeps between the maps before it and the maps it builds. *)
Record refreshing (heap0 heap : gmap nat endpoint_state) (states newStates : gmap string nat) : Prop := {
  rf_old : pointers_ok heap states;
  rf_new : pointers_ok heap newStates;
  rf_from : ∀ k p, newStates !! k = Some p → states !! k = Some p ∨ (states !! k = None ∧ heap0 !! p = None);
  rf_fresh : ∀ k p, newStates !! k = Some p → states !! k = None → ∃ item, heap !! p = Some (newState item);
  rf_kept : ∀ p st, heap0 !! p = Some st → ∃ ep, heap !! p = Some (st <| es_endpoint := ep |>);
}.

Lemma alter_kept p f (heap : gmap nat endpoint_state) q st :
  heap !! q = Some st → ∃ st', alter f p heap !! q = Some st' ∧ (st' = st ∨ st' = f st).
Proof.
  intros Hq. rewrite lookup_alter. case_decide; [subst|eauto]. rewrite Hq. cbn. eauto.
Qed.

Lemma endpoint_again (st : endpoint_state) ep ep' : st <| es_endpoint := ep |> <| es_endpoint := ep' |> = st <| es_endpoint := ep' |>.
Proof. by destruct st. Qed.
Lemma endpoint_same (st : endpoint_state) : st <| es_endpoint := es_endpoint st |> = st.
Proof. by destruct st. Qed.

Lemma refreshItem_refreshing heap0 states heap pools newStates item heap' pools' newStates' :
  pointers_ok heap0 states → refreshing heap0 heap states newStates →
  refreshItem states (heap, pools, newStates) item = (heap', pools', newStates') →
  refreshing heap0 heap' states newStates'
  ∧ newStates' = <[endpointKey item := default (fresh (dom heap)) (states !! endpointKey item)]> newStates.
Proof.
  intros H0 [[Ho1 Ho2] [Hn1 Hn2] Hf Hn Hk] Heq. unfold refreshItem in Heq.
  set (k := endpointKey item) in *. set (fr := fresh (dom heap)) in *.
  assert (Hfr : heap !! fr = None) by apply not_elem_of_dom, is_fresh.
  assert (Hfr0 : heap0 !! fr = None).
  { destruct (heap0 !! fr) as [st|] eqn:E; [|done]. destruct (Hk _ _ E) as [ep Hep]. congruence. }
  destruct (states !! k) as [p|] eqn:Hs; injection Heq as <- <- <-; (split; [|done]).
  - assert (Hal : ∀ q, is_Some (heap !! q) → is_Some (alter (λ st, st <| es_endpoint := item |>) p heap !! q)).
    { intros q [st Hq]. destruct (alter_kept p (λ st, st <| es_endpoint := item |>) heap q st Hq) as (st' & -> & _). eauto. }
    split; [split|split|..].
    + intros k' q Hq. by eapply Hal, Ho1.
    + exact Ho2.
    + intros k' q. rewrite lookup_insert_Some. intros [[<- <-]|[_ Hq]]; [by eapply Hal, Ho1|by eapply Hal, Hn1].
    + intros k1 k2 q. rewrite !lookup_insert_Some. intros [[<- <-]|[Hne1 H1]] [[<- Hq]|[Hne2 H2]]; [done| | |by eapply Hn2].
      * destruct (Hf _ _ H2) as [H3|[_ H3]]; [by eapply Ho2|].
        destruct H0 as [H0 _]. destruct (H0 _ _ Hs) as [st Hst]. congruence.
      * subst q. destruct (Hf _ _ H1) as [H3|[_ H3]]; [by eapply Ho2|].
        destruct H0 as [H0 _]. destruct (H0 _ _ Hs) as [st Hst]. congruence.
    + intros k' q. rewrite lookup_insert_Some. intros [[<- <-]|[_ Hq]]; [by left|by apply Hf].
    + intros k' q. rewrite lookup_insert_Some. intros [[<- <-]|[_ Hq]] Hs'; [congruence|].
      destruct (Hn _ _ Hq Hs') as [it Hit]. exists it. rewrite lookup_alter_ne; [done|]. intros ->.
      destruct (Hf _ _ Hq) as [?|[_ Hnone]]; [congruence|]. destruct H0 as [H0 _]. destruct (H0 _ _ Hs) as [st Hst]. congruence.
    + intros q st Hq. destruct (Hk _ _ Hq) as [ep Hep].
      destruct (alter_kept p (λ st, st <| es_endpoint := item |>) heap q _ Hep) as (st' & Hst' & [-> | ->]); [by eexists|].
      exists item. rewrite Hst'. by rewrite endpoint_again.
  - assert (Hin : ∀ q, is_Some (heap !! q) → is_Some (<[fr := newState item]> heap !! q)).
    { intros q Hq. rewrite lookup_insert. case_decide; [by eexists|done]. }
    split; [split|split|..].
    + intros k' q Hq. by eapply Hin, Ho1.
    + exact Ho2.
    + intros k' q. rewrite lookup_insert_Some. intros [[<- <-]|[_ Hq]]; [by rewrite lookup_insert_eq|by eapply Hin, Hn1].
    + intros k1 k2 q. rewrite !lookup_insert_Some. intros [[<- <-]|[Hne1 H1]] [[<- Hq]|[Hne2 H2]]; [done| | |by eapply Hn2].
      * destruct (Hn1 _ _ H2) as [st Hst]. congruence.
      * subst q. destruct (Hn1 _ _ H1) as [st Hst]. congruence.
    + intros k' q. rewrite lookup_insert_Some. intros [[<- <-]|[_ Hq]]; [by right|by apply Hf].
    + intros k' q. rewrite lookup_insert_Some. intros [[<- <-]|[_ Hq]] Hs'; [exists item; by rewrite lookup_insert_eq|].
      destruct (Hn _ _ Hq Hs') as [it Hit]. exists it. rewrite lookup_insert_ne; [done|]. intros ->. congruence.
    + intros q st Hq. destruct (Hk _ _ Hq) as [ep Hep]. exists ep. rewrite lookup_insert_ne; [done|]. intros ->. congruence.
Qed.

Lemma refresh_fold heap0 states items heap pools newStates heap' pools' newStates' :
  pointers_ok heap0 states → refreshing heap0 heap states newStates →
  foldl (refreshItem states) (heap, pools, newStates) items = (heap', pools', newStates') →
  refreshing heap0 heap' states newStates'
  ∧ (∀ k, k ∈ (endpointKey <$> items) ∨ is_Some (newStates !! k) → is_Some (newStates' !! k))
  ∧ ∀ k p, states !! k = Some p → k ∈ (endpointKey <$> items) ∨ newStates !! k = Some p → newStates' !! k = Some p.
Proof.
  intros H0. revert heap pools newStates. induction items as [|item items IH]; intros heap pools newStates Hr; cbn [foldl].
  { intros [= <- <- <-]. split; [done|]. split; [intros k|intros k p _]; (intros [H|H]; [by apply not_elem_of_nil in H|done]). }
  destruct (refreshItem states (heap, pools, newStates) item) as [[heap1 pools1] newStates1] eqn:Hi. intros Hf.
  destruct (refreshItem_refreshing _ _ _ _ _ _ _ _ _ H0 Hr Hi) as [Hr1 Hn1].
  destruct (IH _ _ _ Hr1 Hf) as (Hr' & Hsome & Hkeep). split; [done|]. split.
  { intros k Hin. apply Hsome. rewrite fmap_cons, elem_of_cons in Hin. subst newStates1. rewrite lookup_insert.
    case_decide as Hk; [by right; eexists|]. destruct Hin as [[?|?]|?]; [congruence|by left|by right]. }
  intros k p Hs Hin. apply Hkeep; [done|].
  rewrite fmap_cons, elem_of_cons in Hin. subst newStates1.
  destruct (decide (k = endpointKey item)) as [->|Hne].
  - right. by rewrite lookup_insert_eq, Hs.
  - destruct Hin as [[?|?]|?]; [done|by left|right]. by rewrite lookup_insert_ne.
Qed.

Lemma refreshing_start heap states : pointers_ok heap states → refreshing heap heap states ∅.
Proof.
  intros H. split; [done|split; intros k p; [|intros q]; by rewrite lookup_empty|intros k p; by rewrite lookup_empty..|].
  intros p st Hp. exists (es_endpoint st). by rewrite endpoint_same.
Qed.

(** A refresh keeps the memory apart, and the pointer and the counters of an
    endpoint that is still configured. *)
Lemma Refresh_keeps items m k p st :
  manager_ok m → mg_states m !! k = Some p → mg_heap m !! p = Some st →
  (∀ l, items = Ok l → k ∈ (endpointKey <$> l)) →
  ∃ ep, mg_states (Refresh items m).1 !! k = Some p
    ∧ mg_heap (Refresh items m).1 !! p = Some (st <| es_endpoint := ep |>).
Proof.
  intros [_ Hp] Hk Hst Hin. unfold Refresh. destruct items as [items|e].
  - destruct (foldl _ _ items) as [[heap pools] states] eqn:Hf. cbn.
    destruct (refresh_fold _ _ _ _ _ _ _ _ _ Hp (refreshing_start _ _ Hp) Hf) as (Hr & _ & Hkeep).
    destruct (rf_kept _ _ _ _ Hr _ _ Hst) as [ep Hep]. exists ep. split; [|done]. apply Hkeep; [done|].
    left. by apply Hin.
  - cbn. exists (es_endpoint st). by rewrite endpoint_same.
Qed.

(** A new endpoint starts with a state of its own. *)
Lemma Refresh_adds items m k :
  manager_ok m → mg_states m !! k = None → k ∈ (endpointKey <$> items) →
  ∃ p item, mg_states (Refresh (Ok items) m).1 !! k = Some p ∧ mg_heap (Refresh (Ok items) m).1 !! p = Some (newState item).
Proof.
  intros [_ Hp] Hk Hin. unfold Refresh. destruct (foldl _ _ items) as [[heap pools] states] eqn:Hf. cbn.
  destruct (refresh_fold _ _ _ _ _ _ _ _ _ Hp (refreshing_start _ _ Hp) Hf) as (Hr & Hsome & _).
  destruct (Hsome k) as [p Hs]; [by left|]. destruct (rf_fresh _ _ _ _ Hr _ _ Hs Hk) as [item Hitem]. eauto.
Qed.

Lemma onState_heap key f m p st :
  mg_heap m !! p = Some st →
  mg_heap (onState key f m) !! p = Some (if decide (mg_states m !! key = Some p) then f st else st)
  ∧ mg_states (onState key f m) = mg_states m.
Proof.
  intros Hp. unfold onState. destruct (mg_states m !! key) as [q|] eqn:Hq; cbn.
  - split; [|done]. rewrite lookup_alter. case_decide as Hqp; [subst q|].
    + by rewrite Hp, decide_True.
    + rewrite decide_False; [done|]. congruence.
  - by rewrite decide_False.
Qed.

Lemma onState_ok key f m : manager_ok m → manager_ok (onState key f m).
Proof.
  intros (Ht & H1 & H2). unfold onState. destruct (mg_states m !! key) as [q|]; [|done].
  split; [done|]. split; [|done]. cbn. intros k p Hk. destruct (H1 _ _ Hk) as [st Hst].
  destruct (alter_kept q f (mg_heap m) p st Hst) as (st' & -> & _). eauto.
Qed.

Lemma manager_step_ok o m : manager_ok m → manager_ok (manager_step m o).
Proof.
  intros Hm. destruct o as [[items|e]|now key|now key err]; cbn; [|done|by apply onState_ok..].
  destruct Hm as [Ht Hp]. destruct (foldl _ _ items) as [[heap pools] states] eqn:Hf.
  destruct (refresh_fold _ _ _ _ _ _ _ _ _ Hp (refreshing_start _ _ Hp) Hf) as [Hr _]. split; [done|apply Hr].
Qed.

Lemma manager_step_settings o m :
  mg_failThreshold (manager_step m o) = mg_failThreshold m ∧ mg_openDuration (manager_step m o) = mg_openDuration m.
Proof.
  destruct o as [[items|e]|now key|now key err]; cbn; [|done|..].
  - by destruct (foldl _ _ items) as [[heap pools] states].
  - unfold ReportSuccess, onState. by destruct (mg_states m !! key).
  - unfold ReportFailure, onState. by destruct (mg_states m !! key).
Qed.

(** ** The circuit breaker *)

(** The reports about one endpoint, with their times. *)
Inductive report : Type :=
  | Good (now : Z)
  | Bad (now : Z).

Definition reports_of (k : string) (o : manager_op) : list report :=
  match o with
  | OpRefresh _ => []
  | OpSuccess now key => if decide (key = k) then [Good now] else []
  | OpFailure now key _ => if decide (key = k) then [Bad now] else []
  end.
Definition history (k : string) (ops : list manager_op) : list report := ops ≫= reports_of k.

(** The times of the failures since the last success. *)
Definition trailing (h : list report) : list Z :=
  foldl (λ acc r, match r with Good _ => [] | Bad t => acc ++ [t] end) [] h.

(** Failures since the last success or the last time the circuit opened. *)
Definition breaker_streak (threshold : nat) (h : list report) : nat := (List.length (trailing h) mod threshold)%nat.

(** The circuit opened at the last failure that made the number of failures
    since the last success a multiple of the threshold. *)
Definition breaker_open (threshold : nat) (openDuration : Z) (h : list report) : option Z :=
  match (List.length (trailing h) / threshold)%nat with
  | O => None
  | n => (λ t, t + openDuration) <$> trailing h !! (n * threshold - 1)%nat
  end.

Lemma trailing_app h r : trailing (h ++ [r]) = match r with Good _ => [] | Bad t => trailing h ++ [t] end.
Proof. unfold trailing. by rewrite foldl_app. Qed.

Definition breaker_matches (threshold : nat) (openDuration : Z) (h : list report) (st : endpoint_state) : Prop :=
  es_failStreak st = Z.of_nat (breaker_streak threshold h) ∧ es_openUntil st = breaker_open threshold openDuration h.

Lemma succeeded_matches th od h now st :
  (0 < th)%nat → breaker_matches th od h st → breaker_matches th od (h ++ [Good now]) (succeeded now st).
Proof.
  intros Hth _. unfold breaker_matches, breaker_streak, breaker_open. rewrite trailing_app. cbn [List.length].
  rewrite Nat.Div0.mod_0_l, Nat.Div0.div_0_l. done.
Qed.

Lemma failed_matches th od h now err st :
  (0 < th)%nat → breaker_matches th od h st →
  breaker_matches th od (h ++ [Bad now]) (failed (Z.of_nat th) od now err st).
Proof.
  intros Hth [Hs Ho]. unfold breaker_matches, breaker_streak, breaker_open in *. rewrite trailing_app, List.length_app.
  cbn [List.length]. set (n := List.length (trailing h)) in *. unfold failed. cbn. rewrite Hs.
  pose proof (Nat.mod_upper_bound n th ltac:(lia)) as Hmod. pose proof (Nat.div_mod n th ltac:(lia)) as Hdiv.
  case_decide as Hc; cbn.
  - assert (Hq : (n + 1 = th * (n / th + 1) + 0)%nat) by nia.
    assert (Hd : ((n + 1) / th = n / th + 1)%nat) by (symmetry; by apply (Nat.div_unique _ _ _ 0)).
    assert (Hm : ((n + 1) mod th = 0)%nat) by (symmetry; by apply (Nat.mod_unique _ _ (n / th + 1))).
    rewrite Hd, Hm. split; [done|]. replace (n / th + 1)%nat with (S (n / th)) by lia.
    replace (th + n / th * th - 1)%nat with n by nia.
    rewrite lookup_app_r by reflexivity. fold n. rewrite Nat.sub_diag. done.
  - remember (n mod th)%nat as m eqn:Em. remember (n / th)%nat as q eqn:Eq.
    assert (Hq : (n + 1 = th * q + (m + 1))%nat) by lia.
    assert (Hd : ((n + 1) / th = q)%nat) by (symmetry; apply (Nat.div_unique _ _ _ (m + 1)); [lia|exact Hq]).
    assert (Hm : ((n + 1) mod th = m + 1)%nat) by (symmetry; apply (Nat.mod_unique _ _ q); [lia|exact Hq]).
    rewrite Hd, Hm. split; [lia|]. rewrite Ho. destruct q as [|q]; [done|].
    rewrite lookup_app_l; [done|]. fold n. nia.
Qed.

(** The endpoint stays configured. *)
Definition configured (k : string) (o : manager_op) : Prop :=
  match o with OpRefresh (Ok l) => k ∈ (endpointKey <$> l) | _ => True end.

Definition entry (m : Manager) (k : string) : option endpoint_state := p ← mg_states m !! k; mg_heap m !! p.

Lemma manager_step_breaker th od h k o m st :
  (0 < th)%nat → manager_ok m → mg_failThreshold m = Z.of_nat th → mg_openDuration m = od → configured k o →
  entry m k = Some st → breaker_matches th od h st →
  ∃ st', entry (manager_step m o) k = Some st' ∧ breaker_matches th od (h ++ reports_of k o) st'.
Proof.
  intros Hth Hm Ht Hod Hc He Hb. unfold entry in *. apply bind_Some in He as (p & Hk & Hp).
  destruct o as [items|now key|now key err]; cbn [manager_step reports_of].
  - destruct (Refresh_keeps items m k p st Hm Hk Hp) as (ep & -> & Hp'); [intros l ->; exact Hc|]. cbn.
    exists (st <| es_endpoint := ep |>). rewrite app_nil_r. split; [done|]. exact Hb.
  - unfold ReportSuccess. destruct (onState_heap key (succeeded now) m p st Hp) as [Hp' ->]. rewrite Hk. cbn. eexists.
    split; [exact Hp'|]. case_decide as Hd; case_decide as Hkey.
    + by apply succeeded_matches.
    + exfalso. apply Hkey. by eapply (proj2 (proj2 Hm)).
    + subst key. congruence.
    + by rewrite app_nil_r.
  - unfold ReportFailure. rewrite Ht, Hod.
    destruct (onState_heap key (failed (Z.of_nat th) od now err) m p st Hp) as [Hp' ->]. rewrite Hk. cbn. eexists.
    split; [exact Hp'|]. case_decide as Hd; case_decide as Hkey.
    + by apply failed_matches.
    + exfalso. apply Hkey. by eapply (proj2 (proj2 Hm)).
    + subst key. congruence.
    + by rewrite app_nil_r.
Qed.

Lemma manager_run_breaker th od k ops : ∀ h m st,
  (0 < th)%nat → manager_ok m → mg_failThreshold m = Z.of_nat th → mg_openDuration m = od → Forall (configured k) ops →
  entry m k = Some st → breaker_matches th od h st →
  ∃ st', entry (manager_run ops m) k = Some st' ∧ breaker_matches th od (h ++ history k ops) st'.
Proof.
  induction ops as [|o ops IH]; intros h m st Hth Hm Ht Hod Hc He Hb; cbn.
  { exists st. by rewrite app_nil_r. }
  apply Forall_cons in Hc as [Hc Hcs]. destruct (manager_step_breaker th od h k o m st Hth Hm Ht Hod Hc He Hb) as (st1 & He1 & Hb1).
  destruct (manager_step_settings o m) as [Ht' Ho']. rewrite app_assoc.
  apply (IH _ _ st1); [done|by apply manager_step_ok|congruence|congruence|done|done|exact Hb1].
Qed.

Lemma manager_run_ok ops m : manager_ok m → manager_ok (manager_run ops m).
Proof. revert m. induction ops as [|o ops IH]; intros m Hm; [done|]. by apply IH, manager_step_ok. Qed.

Lemma manager_run_settings ops m :
  mg_failThreshold (manager_run ops m) = mg_failThreshold m ∧ mg_openDuration (manager_run ops m) = mg_openDuration m.
Proof.
  revert m. induction ops as [|o ops IH]; intros m; [done|]. destruct (IH (manager_step m o)) as [H1 H2].
  destruct (manager_step_settings o m) as [H3 H4]. change (manager_run (o :: ops) m) with (manager_run ops (manager_step m o)).
  split; congruence.
Qed.

(** ** Pools *)

(** Every pointer of a pool has a state, for one of the endpoints [items]. *)
Definition pooled (items : list RPCEndpoint) (heap : gmap nat endpoint_state) (pools : gmap string (list nat)) : Prop :=
  ∀ pk l p, pools !! pk = Some l → p ∈ l → ∃ st, heap !! p = Some st ∧ es_endpoint st ∈ items.

Lemma refreshItem_pooled items states heap pools newStates item heap' pools' newStates' :
  item ∈ items → (∀ k p, states !! k = Some p → is_Some (heap !! p)) → pooled items heap pools →
  refreshItem states (heap, pools, newStates) item = (heap', pools', newStates') →
  (∀ p, is_Some (heap !! p) → is_Some (heap' !! p)) ∧ pooled items heap' pools'.
Proof.
  intros Hit Hs Hp Heq. unfold refreshItem in Heq. set (pk0 := poolKey _ _ _) in *. set (fr := fresh (dom heap)) in *.
  assert (Hput : ∀ p heap1, (∀ q st, heap !! q = Some st → ∃ st', heap1 !! q = Some st' ∧ (es_endpoint st' = es_endpoint st ∨ es_endpoint st' = item)) →
    (∃ st, heap1 !! p = Some st ∧ es_endpoint st = item) →
    (∀ q, is_Some (heap !! q) → is_Some (heap1 !! q)) ∧ pooled items heap1 (<[pk0 := default [] (pools !! pk0) ++ [p]]> pools)).
  { intros p heap1 Hkeep (st0 & Hst0 & Hep). split.
    { intros q [st Hq]. destruct (Hkeep _ _ Hq) as (st' & -> & _). by eexists. }
    assert (Hold : ∀ q, (∃ st, heap !! q = Some st ∧ es_endpoint st ∈ items) → ∃ st, heap1 !! q = Some st ∧ es_endpoint st ∈ items).
    { intros q (st & Hq & Hin). destruct (Hkeep _ _ Hq) as (st' & Hq' & He). exists st'. split; [done|].
      destruct He as [-> | ->]; done. }
    intros pk l q. rewrite lookup_insert_Some. intros [[<- <-]|[Hne Hl]] Hq; [|by eapply Hold, Hp].
    apply elem_of_app in Hq as [Hq|Hq%list_elem_of_singleton].
    - destruct (pools !! pk0) as [l0|] eqn:Hl0; [|by apply not_elem_of_nil in Hq]. by eapply Hold, Hp.
    - subst q. exists st0. split; [done|]. by rewrite Hep. }
  destruct (states !! endpointKey item) as [p|] eqn:Hk; injection Heq as <- <- <-; apply Hput.
  - intros q st Hq. destruct (alter_kept p (λ st, st <| es_endpoint := item |>) heap q st Hq) as (st' & -> & [-> | ->]);
      eexists; (split; [done|]); [by left|by right].
  - destruct (Hs _ _ Hk) as [st Hst]. exists (st <| es_endpoint := item |>). split; [|done]. by rewrite lookup_alter_eq, Hst.
  - intros q st Hq. exists st. split; [|by left]. rewrite lookup_insert_ne; [done|]. intros <-.
    assert (heap !! fr = None) by apply not_elem_of_dom, is_fresh. congruence.
  - exists (newState item). split; [|done]. by rewrite lookup_insert_eq.
Qed.

Lemma refresh_pooled all states items heap pools newStates heap' pools' newStates' :
  (∀ item, item ∈ items → item ∈ all) → (∀ k p, states !! k = Some p → is_Some (heap !! p)) → pooled all heap pools →
  foldl (refreshItem states) (heap, pools, newStates) items = (heap', pools', newStates') → pooled all heap' pools'.
Proof.
  revert heap pools newStates. induction items as [|item items IH]; intros heap pools newStates Hin Hs Hp; cbn [foldl].
  { by intros [= <- <- <-]. }
  destruct (refreshItem states (heap, pools, newStates) item) as [[heap1 pools1] newStates1] eqn:Hi.
  destruct (refreshItem_pooled all _ _ _ _ _ _ _ _ (Hin item ltac:(by left)) Hs Hp Hi) as [Hk Hp1].
  apply IH; [|intros k p Hkp; by eapply Hk, Hs|done]. intros it Hit. apply Hin. by right.
Qed.

Lemma Refresh_pooled items m : manager_ok m → pooled items (mg_heap (Refresh (Ok items) m).1) (mg_pools (Refresh (Ok items) m).1).
Proof.
  intros (_ & Hm & _). unfold Refresh. destruct (foldl _ _ items) as [[heap pools] states] eqn:Hf. cbn.
  eapply (refresh_pooled items); [done|exact Hm| |exact Hf]. intros pk l p. by rewrite lookup_empty.
Qed.

Lemma onState_pooled items key f m :
  (∀ st, es_endpoint (f st) = es_endpoint st) → pooled items (mg_heap m) (mg_pools m) →
  pooled items (mg_heap (onState key f m)) (mg_pools (onState key f m)).
Proof.
  intros Hf Hp. unfold onState. destruct (mg_states m !! key) as [q|]; [|done]. cbn. intros pk l p Hl Hin.
  destruct (Hp _ _ _ Hl Hin) as (st & Hst & He). destruct (alter_kept q f (mg_heap m) p st Hst) as (st' & -> & [-> | ->]); eauto.
  exists (f st). split; [done|]. by rewrite Hf.
Qed.

(** Reports and refreshes that fail. *)
Definition no_refresh (o : manager_op) : Prop := match o with OpRefresh (Ok _) => False | _ => True end.

Lemma manager_run_pooled items ops m :
  Forall no_refresh ops → pooled items (mg_heap m) (mg_pools m) →
  pooled items (mg_heap (manager_run ops m)) (mg_pools (manager_run ops m)).
Proof.
  intros Ho. revert m. induction Ho as [|o ops Hno _ IH]; intros m Hp; [done|]. apply IH.
  destruct o as [[its|e]|now key|now key err]; [done|done|apply onState_pooled..]; try done; intros st.
  unfold failed. by case_decide.
Qed.

(** * Properties of the endpoint manager *)

(** ** Selection *)

Lemma effectiveWeight_pos st : 1 ≤ effectiveWeight st.
Proof. unfold effectiveWeight. case_decide; lia. Qed.

Lemma totalWeight_cons st l : totalWeight (st :: l) = effectiveWeight st + totalWeight l.
Proof. done. Qed.

Lemma totalWeight_nonneg l : 0 ≤ totalWeight l.
Proof. induction l as [|st l IH]; [done|]. rewrite totalWeight_cons. pose proof (effectiveWeight_pos st). lia. Qed.

Lemma totalWeight_app l1 l2 : totalWeight (l1 ++ l2) = totalWeight l1 + totalWeight l2.
Proof. induction l1 as [|st l1 IH]; [done|]. cbn [app]. rewrite !totalWeight_cons, IH. lia. Qed.

Lemma totalWeight_pos l : l ≠ [] → 0 < totalWeight l.
Proof.
  destruct l as [|st l]; [done|]. rewrite totalWeight_cons. pose proof (effectiveWeight_pos st).
  pose proof (totalWeight_nonneg l). lia.
Qed.

(** The share of an endpoint starts after the weights before it. *)
Lemma pickWeighted_share pre st post r acc :
  acc + totalWeight pre ≤ r < acc + totalWeight pre + effectiveWeight st →
  pickWeighted r acc (pre ++ st :: post) = Some st.
Proof.
  revert acc. induction pre as [|st' pre IH]; intros acc Hr; cbn [app pickWeighted].
  - cbn in Hr. by rewrite decide_True by lia.
  - rewrite totalWeight_cons in Hr. pose proof (totalWeight_nonneg pre). rewrite decide_False by lia. apply IH. lia.
Qed.

Lemma pickWeighted_elem r acc l st : pickWeighted r acc l = Some st → st ∈ l.
Proof.
  revert acc. induction l as [|st' l IH]; intros acc; cbn; [done|]. case_decide; [intros [= <-]; by left|].
  intros Hx. right. by eapply IH.
Qed.

Lemma opensBefore_trans a b c : ¬ opensBefore b a → ¬ opensBefore c b → ¬ opensBefore c a.
Proof. unfold opensBefore. destruct (es_openUntil a), (es_openUntil b), (es_openUntil c); try tauto; lia. Qed.

Lemma opensBefore_irrefl a : ¬ opensBefore a a.
Proof. unfold opensBefore. destruct (es_openUntil a); [lia|tauto]. Qed.

(** [soonest] is a minimum. *)
Lemma soonest_spec l st : soonest l = Some st → st ∈ l ∧ Forall (λ c, ¬ opensBefore c st) l.
Proof.
  revert st. induction l as [|x l IH] using rev_ind; intros st; [done|]. unfold soonest. rewrite foldl_app. cbn.
  fold (soonest l). destruct (soonest l) as [p|] eqn:Hp.
  - destruct (IH p eq_refl) as [Hin Hmin]. case_decide as Hb; intros [= <-].
    + split; [apply elem_of_app; right; by left|]. rewrite Forall_app, Forall_singleton.
      split; [|apply opensBefore_irrefl]. eapply Forall_impl; [exact Hmin|]. cbn. intros c Hc Hcx.
      apply Hc. revert Hcx Hb. unfold opensBefore. destruct (es_openUntil c), (es_openUntil x), (es_openUntil p); try tauto; lia.
    + split; [apply elem_of_app; by left|]. by rewrite Forall_app, Forall_singleton.
  - assert (l = []) as ->.
    { destruct l as [|y l'] using rev_ind; [done|]. exfalso. revert Hp. unfold soonest. rewrite foldl_app. cbn.
      by destruct (foldl _ None l') as [q|]; [case_decide|]. }
    intros [= <-]. split; [by left|]. constructor; [apply opensBefore_irrefl|constructor].
Qed.

Lemma soonest_some l : l ≠ [] → is_Some (soonest l).
Proof.
  destruct l as [|x l] using rev_ind; [done|]. intros _. unfold soonest. rewrite foldl_app. cbn.
  destruct (foldl _ None l) as [q|]; [case_decide|]; eauto.
Qed.

(** What is selected, and that something is. *)
Definition selectable (now : Z) (pool : list endpoint_state) (st : endpoint_state) : Prop :=
  st ∈ pool ∧ (availableAt now st
               ∨ Forall (λ c, ¬ availableAt now c) pool ∧ Forall (λ c, ¬ opensBefore c st) pool).

Lemma no_available now (pool : list endpoint_state) : filter (availableAt now) pool = [] → Forall (λ c, ¬ availableAt now c) pool.
Proof.
  intros Hf. apply Forall_forall. intros c Hc Ha. assert (Hin : c ∈ filter (availableAt now) pool) by (by apply list_elem_of_filter).
  rewrite Hf in Hin. by apply not_elem_of_nil in Hin.
Qed.

Lemma Select_selectable now intn chain network model m sel :
  Select now intn chain network model m = Ok sel →
  ∃ st, sel = toSelected st
    ∧ selectable now (poolOf (ToLower (TrimSpace chain)) (ToLower (TrimSpace network)) (ToLower (TrimSpace model)) m) st.
Proof.
  unfold Select. case_decide; [done|]. set (pool := poolOf _ _ _ m). intros Hs%from_option_err_ok.
  apply fmap_Some in Hs as (st & Hst & ->). exists st. split; [done|].
  destruct pool as [|c pool'] eqn:Hp; [done|]. rewrite <- Hp in *.
  destruct (filter (availableAt now) pool) as [|first rest] eqn:Hf.
  - apply soonest_spec in Hst as [Hin Hmin]. split; [done|]. right. split; [by apply no_available|done].
  - assert (Hin : st ∈ filter (availableAt now) pool).
    { rewrite Hf. revert Hst. case_decide; [intros [= <-]; by left|].
      destruct (pickWeighted (intn (totalWeight (first :: rest))) 0 (first :: rest)) as [q|] eqn:Hq; intros [= <-];
        [by eapply pickWeighted_elem|by left]. }
    apply list_elem_of_filter in Hin as [Ha Hin]. split; [done|by left].
Qed.

Lemma Select_total now intn chain network model m :
  ToLower (TrimSpace chain) ≠ "" → ToLower (TrimSpace network) ≠ "" → ToLower (TrimSpace model) ≠ "" →
  poolOf (ToLower (TrimSpace chain)) (ToLower (TrimSpace network)) (ToLower (TrimSpace model)) m ≠ [] →
  is_ok (Select now intn chain network model m) = true.
Proof.
  intros Hc Hn Hm Hp. unfold Select. rewrite decide_False by tauto. set (pool := poolOf _ _ _ m) in *.
  destruct pool as [|c pool'] eqn:Hpool; [done|]. rewrite <- Hpool in *.
  destruct (filter (availableAt now) pool) as [|first rest]; [|by case_decide].
  destruct (soonest_some pool Hp) as [st ->]. done.
Qed.

(** ** A concrete manager *)

(** Three endpoints of one chain, one with the weight 3. *)
Definition node (url : string) (weight : Z) : RPCEndpoint := {|
  re_ID := 1; re_Chain := "ethereum"; re_Network := "mainnet"; re_Model := "account"; re_URL := url; re_Weight := weight;
  re_TimeoutMS := 10000; re_Priority := 0; re_Status := "ACTIVE" |}.
Definition nodes : list RPCEndpoint := [node "a" 3; node "b" 1; node "c" 1].
Definition keyOf (url : string) : string := endpointKey (node url 1).

Definition managerStart : Manager := NewManager 100 2.
Definition afterFailures : list manager_op :=
  [OpFailure 10 (keyOf "a") None; OpFailure 11 (keyOf "b") None; OpFailure 12 (keyOf "a") None; OpRefresh (Ok nodes);
   OpFailure 13 (keyOf "a") None].
Definition failedManager : Manager := manager_run afterFailures (manager_run [OpRefresh (Ok nodes)] managerStart).

(** ** Properties *)

(** Only configured endpoints are used: whatever was configured, reported and
    refreshed before, from a refresh until the next one that succeeds a
    selection answers one of the endpoints of that refresh, with its own URL and
    key. *)
Theorem selects_configured_endpoint od ft before items ops now intn chain network model sel :
  Forall no_refresh ops →
  Select now intn chain network model (manager_run ops (Refresh (Ok items) (manager_run before (NewManager od ft))).1) = Ok sel →
  ∃ item, item ∈ items ∧ sel = toSelected (newState item).
Proof.
  intros Ho Hs. assert (Hm : manager_ok (manager_run before (NewManager od ft))) by apply manager_run_ok, NewManager_ok.
  pose proof (manager_run_pooled items ops _ Ho (Refresh_pooled items _ Hm)) as Hp.
  apply Select_selectable in Hs as (st & -> & Hin & _). unfold poolOf in Hin.
  apply list_elem_of_omap in Hin as (p & Hp' & Hst). destruct (mg_pools _ !! _) as [l|] eqn:Hl; [|by apply not_elem_of_nil in Hp'].
  destruct (Hp _ _ _ Hl Hp') as (st' & Hst' & He). rewrite Hst in Hst'. injection Hst' as <-. by exists (es_endpoint st).
Qed.

Lemma selects_configured_endpoint_witness :
  ∃ item, item ∈ [node "b" 1] ∧ toSelected (newState (node "b" 1)) = toSelected (newState item).
Proof.
  apply (selects_configured_endpoint 100 2 [OpRefresh (Ok nodes); OpFailure 3 (keyOf "b") None] [node "b" 1]
           [OpRefresh (Err ErrNoRows); OpFailure 4 (keyOf "b") None] 5 (λ _, 0) "ethereum" "mainnet" "account").
  - repeat constructor.
  - vm_compute. reflexivity.
Defined.

(** A selection always answers when the pool is not empty, and answers an
    endpoint whose circuit is not open; when all circuits are open it answers
    one that is half open first. *)
Theorem select_avoids_open_circuits now intn chain network model m :
  let pool := poolOf (ToLower (TrimSpace chain)) (ToLower (TrimSpace network)) (ToLower (TrimSpace model)) m in
  ToLower (TrimSpace chain) ≠ "" → ToLower (TrimSpace network) ≠ "" → ToLower (TrimSpace model) ≠ "" → pool ≠ [] →
  ∃ st, Select now intn chain network model m = Ok (toSelected st) ∧ selectable now pool st.
Proof.
  intros pool Hc Hn Hm Hp. pose proof (Select_total now intn chain network model m Hc Hn Hm Hp) as Ht.
  destruct (Select _ _ _ _ _ _) as [sel|] eqn:Hs; [|done]. apply Select_selectable in Hs as (st & -> & Hst). by exists st.
Qed.

Lemma select_avoids_open_circuits_witness :
  ∃ st, Select 14 (λ _, 0) "ethereum" "mainnet" "account" failedManager = Ok (toSelected st)
    ∧ selectable 14 (poolOf "ethereum" "mainnet" "account" failedManager) st
    ∧ ¬ Forall (availableAt 14) (poolOf "ethereum" "mainnet" "account" failedManager).
Proof.
  destruct (select_avoids_open_circuits 14 (λ _, 0) "ethereum" "mainnet" "account" failedManager) as (st & Hs & Hst);
    [vm_compute; discriminate..|].
  exists st. split; [exact Hs|]. split; [exact Hst|]. apply (bool_decide_unpack _). vm_compute. exact I.
Defined.

(** The share of an endpoint is its weight less its penalty, at least 1: the
    random number, below the sum of the available weights, picks the endpoint in
    whose interval it falls. *)
Theorem selection_follows_weights now intn chain network model m pre st post :
  let pool := poolOf (ToLower (TrimSpace chain)) (ToLower (TrimSpace network)) (ToLower (TrimSpace model)) m in
  ToLower (TrimSpace chain) ≠ "" → ToLower (TrimSpace network) ≠ "" → ToLower (TrimSpace model) ≠ "" →
  filter (availableAt now) pool = pre ++ st :: post →
  totalWeight pre ≤ intn (totalWeight (pre ++ st :: post)) < totalWeight pre + effectiveWeight st →
  Select now intn chain network model m = Ok (toSelected st).
Proof.
  intros pool Hc Hn Hm Hf Hr. unfold Select. rewrite decide_False by tauto. fold pool.
  assert (Hp : pool ≠ []) by (intros E; rewrite E in Hf; by destruct pre).
  destruct pool as [|c pool'] eqn:Hpool; [done|]. rewrite <- Hpool in *. rewrite Hf.
  pose proof (totalWeight_pos (pre ++ st :: post)) as Hpos.
  destruct (pre ++ st :: post) as [|first rest] eqn:Hl; [by destruct pre|]. rewrite <- Hl in *.
  rewrite decide_False by (specialize (Hpos ltac:(rewrite Hl; done)); lia).
  rewrite (pickWeighted_share pre st post); [done|]. lia.
Qed.

Lemma selection_follows_weights_witness :
  Select 14 (λ _, 3) "ethereum" "mainnet" "account" (manager_run [OpRefresh (Ok nodes)] managerStart)
  = Ok (toSelected (newState (node "b" 1))).
Proof.
  apply (selection_follows_weights 14 (λ _, 3) "ethereum" "mainnet" "account" (manager_run [OpRefresh (Ok nodes)] managerStart)
           [newState (node "a" 3)] (newState (node "b" 1)) [newState (node "c" 1)]);
    [vm_compute; discriminate..|vm_compute; reflexivity|vm_compute; intuition congruence].
Defined.

(** C34. The circuit breaker of an endpoint depends on its own reports only, from
    the refresh that brings it for as long as it stays configured: the streak is
    the number of failures since the last success modulo the threshold, and the
    circuit is open until the duration after the last failure that completed a
    streak.  Refreshes and reports of other endpoints change neither. *)
Theorem circuit_breaker_counts_own_failures od ft before items ops k :
  let m := manager_run before (NewManager od ft) in
  let th := Z.to_nat (mg_failThreshold m) in
  mg_states m !! k = None → k ∈ (endpointKey <$> items) → Forall (configured k) ops →
  ∃ st, entry (manager_run ops (Refresh (Ok items) m).1) k = Some st
    ∧ es_failStreak st = Z.of_nat (breaker_streak th (history k ops))
    ∧ es_openUntil st = breaker_open th (mg_openDuration m) (history k ops).
Proof.
  intros m th Hk Hin Hc. assert (Hm : manager_ok m) by apply manager_run_ok, NewManager_ok.
  destruct (Refresh_adds items m k Hm Hk Hin) as (p & item & Hs & Hp).
  destruct (manager_step_settings (OpRefresh (Ok items)) m) as [Ht Ho]. cbn [manager_step] in Ht, Ho.
  assert (Hth : (0 < th)%nat) by (destruct Hm; unfold th; lia).
  destruct (manager_run_breaker th (mg_openDuration m) k ops [] (Refresh (Ok items) m).1 (newState item)) as (st & He & Hb);
    [done|by apply (manager_step_ok (OpRefresh (Ok items)))|rewrite Ht; unfold th; lia|done|done| |..].
  - unfold entry. by rewrite Hs.
  - unfold breaker_matches, breaker_streak, breaker_open. cbn [trailing foldl List.length].
    rewrite Nat.Div0.mod_0_l, Nat.Div0.div_0_l. done.
  - exists st. exact (conj He Hb).
Qed.

Lemma circuit_breaker_counts_own_failures_witness :
  ∃ st, entry failedManager (keyOf "a") = Some st ∧ es_failStreak st = 1 ∧ es_openUntil st = Some 112.
Proof.
  apply (circuit_breaker_counts_own_failures 100 2 [] nodes afterFailures (keyOf "a"));
    [reflexivity|vm_compute; left|].
  repeat (constructor; [vm_compute; first [exact I|left]|]). constructor.
Defined.
