(* ===== verification/EvmReader.v ===== *)
(** * Reading an EVM chain

    [chain-gateway/internal/adapters/account/chains/evm/rpc_reader.go].  The
    node behind the endpoints, the clock and the random source are a state [C]
    of their own ([EvmNode]); the endpoint manager is the reader's. *)
From S2P Require Import Prelude GoStrings GoNumbers Endpoint.

Definition defaultCursorLookback : Z := 256.
Definition ErrNoEndpoint : string := "no rpc endpoint configured".

(** ** Numbers *)

(** Read digits of base 16 after the value [acc]. *)
Fixpoint parse_hex (acc : Z) (l : bytes) : option Z :=
  match l with
  | [] => Some acc
  | a :: l' => d ← hexDigit a; parse_hex (acc * 16 + Z.of_N d) l'
  end.
Definition parse_nat16 (l : bytes) : option Z := match l with [] => None | _ :: _ => parse_hex 0 l end.

(** [new(big.Int).SetString(s, 16)] *)
Definition SetString16 (s : string) : option Z :=
  match to_bytes s with
  | [] => None
  | a :: l =>
      if Ascii.eqb a "-" then Z.opp <$> parse_nat16 l
      else if Ascii.eqb a "+" then parse_nat16 l
      else parse_nat16 (a :: l)
  end.

(** The range check of [strconv.ParseUint(s, base, 64)]. *)
Definition uint64_of (s : string) (v : option Z) : result Z :=
  match v with
  | None => Err (Errorf ("strconv.ParseUint: parsing " +:+ s +:+ ": invalid syntax"))
  | Some v => if decide (v < 2 ^ 64) then Ok v
              else Err (Errorf ("strconv.ParseUint: parsing " +:+ s +:+ ": value out of range"))
  end.

Definition has0x (v : string) : bool := HasPrefix v "0x" || HasPrefix v "0X".
Definition after0x (v : string) : string := of_bytes (drop 2 (to_bytes v)).

Definition hexToUint64 (v : string) : result Z :=
  let v := TrimSpace v in
  if decide (v = "") then Ok 0
  else if has0x v then uint64_of (after0x v) (parse_nat16 (to_bytes (after0x v)))
  else uint64_of v (parse_nat10 (to_bytes v)).

Definition hexToBig (v : string) : result Z :=
  let x := TrimSpace v in
  if decide (x = "") then Ok 0 else
  from_option_err (Errorf ("invalid number: " +:+ v)) (if has0x x then SetString16 (after0x x) else SetString10 x).

(** [n, _ := hexToUint64(v)] *)
Definition uint64OrZero (v : string) : Z := match hexToUint64 v with Ok n => n | Err _ => 0 end.

(** [int64(x)] of a [uint64]. *)
Definition int64_of_uint64 (x : Z) : Z := wrap64 x.

Definition fallbackHash (v fallback : string) : string :=
  let v := TrimSpace v in if decide (v ≠ "") then v else TrimSpace fallback.

Definition topicToAddress (topic : string) : string :=
  let t := to_bytes (TrimPrefix (ToLower (TrimSpace topic)) "0x") in
  if decide (List.length t < 40)%nat then "" else "0x" +:+ of_bytes (drop (List.length t - 40) t).

(** ** What a node answers *)

Record rpcTx := {
  rt_Hash : string;
  rt_From : string;
  rt_To : string;
  rt_Value : string;
  rt_TransactionIndex : string;
  rt_BlockNumber : string;
}.
Record rpcBlock := { rb_Number : string; rb_Hash : string; rb_ParentHash : string; rb_Transactions : list rpcTx }.
Record rpcReceipt := { rc_Status : string; rc_BlockNumber : string }.
Record rpcLog := {
  lg_Address : string;
  lg_Topics : list string;
  lg_Data : string;
  lg_BlockNumber : string;
  lg_TransactionHash : string;
  lg_TransactionIndex : string;
  lg_LogIndex : string;
  lg_Removed : bool;
}.

(** What [null] leaves in the variable it is decoded into. *)
Definition zeroBlock : rpcBlock := {| rb_Number := ""; rb_Hash := ""; rb_ParentHash := ""; rb_Transactions := [] |}.
Definition zeroReceipt : rpcReceipt := {| rc_Status := ""; rc_BlockNumber := "" |}.

(** The filter of [eth_getLogs]. *)
Record logFilter := { lf_from : Z; lf_to : Z; lf_topics : list (option string); lf_address : option string }.

(** One request each, [None] being [null]; [nd_cancelled] is [ctx.Err()], and
    [nd_partial] what [SetString] leaves when it fails, which its documentation
    does not say. *)
Class EvmNode (C : Type) := {
  nd_now : C → Z;
  nd_intn : C → Z → Z;
  nd_cancelled : C → option error;
  nd_partial : string → Z;
  nd_blockNumber : SelectedEndpoint → C → result string * C;
  nd_block : SelectedEndpoint → Z → C → result (option rpcBlock) * C;
  nd_logs : SelectedEndpoint → logFilter → C → result (list rpcLog) * C;
  nd_tx : SelectedEndpoint → string → C → result (option rpcTx) * C;
  nd_receipt : SelectedEndpoint → string → C → result (option rpcReceipt) * C;
  nd_balance : SelectedEndpoint → string → C → result string * C;
  nd_pendingNonce : SelectedEndpoint → string → C → result string * C;
  nd_sendRaw : SelectedEndpoint → string → C → result string * C;
}.

(** ** Results *)

Record IncomingTransfer := {
  gt_TxHash : string;
  gt_FromAddress : string;
  gt_ToAddress : string;
  gt_Amount : string;
  gt_Confirmations : Z;
  gt_Index : Z;
  gt_Status : string;
  gt_ContractAddress : string;
}.
Record BlockMeta := { gb_Number : Z; gb_Hash : string; gb_ParentHash : string }.
Record IncomingTransferResult := { gr_Items : list IncomingTransfer; gr_NextCursor : string; gr_Blocks : list BlockMeta }.
Record TxFinality := { gf_TxHash : string; gf_Confirmations : Z; gf_Status : string; gf_Found : bool }.
Record BalanceResult := { gl_Balance : string; gl_Network : string; gl_Sequence : string }.

(** ** Calls *)

(** A computation with the node. *)
Definition nodeM (C A : Type) : Type := C → result A * C.
Definition nret {C A} (r : result A) : nodeM C A := λ c, (r, c).
Definition nbind {C A B} (p : nodeM C A) (f : A → nodeM C B) : nodeM C B := λ c,
  let '(r, c) := p c in match r with Ok a => f a c | Err e => (Err e, c) end.
Notation "x ⤆ p ; q" := (nbind p (λ x, q))
  (at level 20, p at level 100, q at level 200, right associativity).

Definition isRetriableRPCError (e : error) : bool :=
  let msg := ToLower (error_text e) in
  Contains msg "rpc status=429" || Contains msg "rpc status=502" || Contains msg "rpc status=503"
  || Contains msg "rpc status=504" || Contains msg "timeout" || Contains msg "connection reset"
  || Contains msg "eof" || Contains msg "connection refused".

Section reader.
Context {C : Type} `{EvmNode C}.

(** The attempts left after a failed one. *)
Fixpoint retryCall {A} (attempts : nat) (lastErr : error) (once : nodeM C A) : nodeM C A := λ c,
  match attempts with
  | O => (Err lastErr, c)
  | S attempts =>
      match nd_cancelled c with
      | Some e => (Err e, c)
      | None =>
          let '(r, c) := once c in
          match r with
          | Ok a => (Ok a, c)
          | Err e => if isRetriableRPCError e then retryCall attempts e once c else (Err e, c)
          end
      end
  end.

(** [call]: three attempts; the first does not look at the context. *)
Definition rpcCall {A} (once : nodeM C A) : nodeM C A := λ c,
  let '(r, c) := once c in
  match r with
  | Ok a => (Ok a, c)
  | Err e => if isRetriableRPCError e then retryCall 2 e once c else (Err e, c)
  end.

Definition blockNumber (ep : SelectedEndpoint) : nodeM C Z :=
  result ⤆ rpcCall (nd_blockNumber ep); nret (hexToUint64 result).

Definition getBlockByNumber (ep : SelectedEndpoint) (blockNum : Z) : nodeM C rpcBlock :=
  out ⤆ rpcCall (nd_block ep blockNum); nret (Ok (default zeroBlock out)).

Definition getTransactionByHash (ep : SelectedEndpoint) (txHash : string) : nodeM C (option rpcTx) :=
  rpcCall (nd_tx ep txHash).

Definition getTransactionReceipt (ep : SelectedEndpoint) (txHash : string) : nodeM C rpcReceipt :=
  out ⤆ rpcCall (nd_receipt ep txHash); nret (Ok (default zeroReceipt out)).

(** ** Endpoints *)

(** The endpoint manager and the node. *)
Definition readerState : Type := Manager * C.

Definition selectEndpoint (chain network : string) (s : readerState) : result SelectedEndpoint :=
  match Select (nd_now s.2) (nd_intn s.2) chain network "account" s.1 with
  | Ok ep => Ok ep
  | Err e => Err (Errorf (ErrNoEndpoint +:+ ": " +:+ error_text e))
  end.

(** Every method selects an endpoint, works with it, and reports to the
    manager just before it returns: a failure with its error, or a success. *)
Definition withEndpoint {A} (chain network : string) (body : SelectedEndpoint → nodeM C A) (s : readerState)
    : result A * readerState :=
  match selectEndpoint chain network s with
  | Err e => (Err e, s)
  | Ok ep =>
      let '(r, c) := body ep s.2 in
      match r with
      | Ok a => (Ok a, (ReportSuccess (nd_now c) (sl_Key ep) s.1, c))
      | Err e => (Err e, (ReportFailure (nd_now c) (sl_Key ep) (Some e) s.1, c))
      end
  end.

(** ** Blocks *)

Definition resolveFromBlock (cursorLookback : Z) (cursor : string) (latest : Z) : result Z :=
  let cur := TrimSpace cursor in
  if decide (cur = "") then
    let lookback := if decide (cursorLookback = 0) then defaultCursorLookback else cursorLookback in
    Ok (if decide (lookback < latest) then latest - lookback + 1 else 0)
  else
  match uint64_of cur (parse_nat10 (to_bytes cur)) with
  | Err _ => Err (Errorf "invalid cursor")
  | Ok v => Ok (if decide (v = 2 ^ 64 - 1) then v else v + 1)
  end.

(** [0x1] and [0x0] of a receipt. *)
Definition receiptStatus (receipt : rpcReceipt) : string :=
  let s := ToLower (TrimSpace (rc_Status receipt)) in
  if decide (s = "0x1") then "CONFIRMED" else if decide (s = "0x0") then "REVERTED" else "PENDING".

(** [int64(latest-bn) + 1] when the block is known. *)
Definition confirmationsAt (latest : Z) (bn : result Z) : Z :=
  match bn with
  | Ok bn => if decide (bn ≤ latest) then wrap64 (int64_of_uint64 (latest - bn) + 1) else 0
  | Err _ => 0
  end.

(** The amount of a transaction that is an incoming transfer. *)
Definition incomingAmount (addr : string) (tx : rpcTx) : option Z :=
  let toAddr := ToLower (TrimSpace (rt_To tx)) in
  if decide (TrimSpace (rt_Hash tx) = "" ∨ toAddr = "" ∨ (addr ≠ "" ∧ toAddr ≠ addr)) then None else
  match hexToBig (rt_Value tx) with
  | Ok amt => if decide (amt ≤ 0) then None else Some amt
  | Err _ => None
  end.

Definition transferOf (latest : Z) (tx : rpcTx) (amt : Z) (receipt : rpcReceipt) : IncomingTransfer := {|
  gt_TxHash := rt_Hash tx; gt_FromAddress := rt_From tx; gt_ToAddress := rt_To tx; gt_Amount := BigString amt;
  gt_Confirmations := if decide (rc_BlockNumber receipt = "") then 0
                      else confirmationsAt latest (hexToUint64 (rc_BlockNumber receipt));
  gt_Index := int64_of_uint64 (uint64OrZero (rt_TransactionIndex tx)); gt_Status := receiptStatus receipt;
  gt_ContractAddress := "" |}.

(** The loop over a block's transactions. *)
Fixpoint scanTxs (ep : SelectedEndpoint) (latest : Z) (addr : string) (txs : list rpcTx) : nodeM C (list IncomingTransfer) :=
  match txs with
  | [] => nret (Ok [])
  | tx :: txs =>
      match incomingAmount addr tx with
      | None => scanTxs ep latest addr txs
      | Some amt =>
          receipt ⤆ getTransactionReceipt ep (rt_Hash tx);
          items ⤆ scanTxs ep latest addr txs;
          nret (Ok (transferOf latest tx amt receipt :: items))
      end
  end.

Definition blockMeta (block : rpcBlock) : BlockMeta := {|
  gb_Number := int64_of_uint64 (uint64OrZero (rb_Number block));
  gb_Hash := ToLower (TrimSpace (rb_Hash block)); gb_ParentHash := ToLower (TrimSpace (rb_ParentHash block)) |}.

(** [n] turns of the loop over block numbers; it is left before [blockNum]
    wraps around unless the last block is [2^64 - 1]. *)
Fixpoint scanBlocks (ep : SelectedEndpoint) (latest : Z) (addr : string) (n : nat) (blockNum : Z)
    : nodeM C (list BlockMeta * list IncomingTransfer) :=
  match n with
  | O => nret (Ok ([], []))
  | S n =>
      block ⤆ getBlockByNumber ep blockNum;
      items ⤆ scanTxs ep latest addr (rb_Transactions block);
      rest ⤆ scanBlocks ep latest addr n (blockNum + 1);
      nret (Ok (blockMeta block :: fst rest, items ++ snd rest))
  end.

(** [0] is the default, and there is an upper bound. *)
Definition boundedPage (most pageSize : Z) : Z :=
  let pageSize := if decide (pageSize = 0) then 50 else pageSize in
  if decide (most < pageSize) then most else pageSize.

(** [from + uint64(pageSize) - 1], at most [latest]. *)
Definition lastOfPage (from latest pageSize : Z) : Z :=
  let to := (from + pageSize - 1) mod 2 ^ 64 in if decide (latest < to) then latest else to.

(** What [ListIncomingTransfers] does with its endpoint. *)
Definition incomingPage (cursorLookback : Z) (address cursor : string) (pageSize : Z) (ep : SelectedEndpoint)
    : nodeM C IncomingTransferResult :=
  let pageSize := boundedPage 500 pageSize in
  let addr := ToLower (TrimSpace address) in
  latest ⤆ blockNumber ep;
  from ⤆ nret (resolveFromBlock cursorLookback cursor latest);
  if decide (latest < from) then
    nret (Ok {| gr_Items := []; gr_NextCursor := BigString latest; gr_Blocks := [] |})
  else
    let to := lastOfPage from latest pageSize in
    page ⤆ scanBlocks ep latest addr (Z.to_nat (to - from + 1)) from;
    nret (Ok {| gr_Items := snd page; gr_NextCursor := BigString to; gr_Blocks := fst page |}).

Definition ListIncomingTransfers (cursorLookback : Z) (chain network address cursor : string) (pageSize : Z)
    : readerState → result IncomingTransferResult * readerState :=
  withEndpoint chain network (incomingPage cursorLookback address cursor pageSize).

(** ** Token transfers *)

Definition erc20TransferTopic : string := "0xddf252ad1be2c89b69c2b068fc378daa952ba7f163c4a11628f55a4df523b3ef".

Definition transferFilter (contractAddress toAddress : string) (from to : Z) : logFilter :=
  let addr := TrimSpace toAddress in
  let ca := TrimSpace contractAddress in {|
  lf_from := from; lf_to := to;
  lf_topics := [Some erc20TransferTopic; None]
    ++ (if decide (addr ≠ "") then [Some ("0x000000000000000000000000" +:+ TrimPrefix (ToLower addr) "0x")] else []);
  lf_address := if decide (ca ≠ "") then Some ca else None |}.

(** [amount.SetString(data, 16)], whose result is not looked at. *)
Definition logAmount (lg : rpcLog) : Z :=
  let data := TrimPrefix (TrimSpace (lg_Data lg)) "0x" in
  if decide (data = "") then 0 else default (nd_partial data) (SetString16 data).

Definition logTransfer (latest : Z) (lg : rpcLog) : option IncomingTransfer :=
  match lg_Topics lg with
  | _ :: topic1 :: topic2 :: _ =>
      let amount := logAmount lg in
      if decide (lg_Removed lg = true ∨ amount ≤ 0) then None else
      Some {| gt_TxHash := lg_TransactionHash lg; gt_FromAddress := topicToAddress topic1;
              gt_ToAddress := topicToAddress topic2; gt_Amount := BigString amount;
              gt_Confirmations := confirmationsAt latest (hexToUint64 (lg_BlockNumber lg));
              gt_Index := int64_of_uint64 (uint64OrZero (lg_LogIndex lg)); gt_Status := "CONFIRMED";
              gt_ContractAddress := ToLower (TrimSpace (lg_Address lg)) |}
  | _ => None
  end.

Definition ListIncomingERC20Transfers (cursorLookback : Z) (chain network contractAddress toAddress cursor : string)
    (pageSize : Z) : readerState → result IncomingTransferResult * readerState :=
  withEndpoint chain network (λ ep,
    let pageSize := boundedPage 200 pageSize in
    latest ⤆ blockNumber ep;
    from ⤆ nret (resolveFromBlock cursorLookback cursor latest);
    if decide (latest < from) then
      nret (Ok {| gr_Items := []; gr_NextCursor := BigString latest; gr_Blocks := [] |})
    else
      let to := lastOfPage from latest pageSize in
      logs ⤆ rpcCall (nd_logs ep (transferFilter contractAddress toAddress from to));
      nret (Ok {| gr_Items := omap (logTransfer latest) logs; gr_NextCursor := BigString to; gr_Blocks := [] |})).

(** ** Transactions and balances *)

Definition GetTxFinality (chain network txHash : string) : readerState → result TxFinality * readerState :=
  withEndpoint chain network (λ ep,
    tx ⤆ getTransactionByHash ep txHash;
    match tx with
    | None => nret (Ok {| gf_TxHash := TrimSpace txHash; gf_Confirmations := 0; gf_Status := "PENDING"; gf_Found := false |})
    | Some tx =>
        if decide (TrimSpace (rt_BlockNumber tx) = "") then
          nret (Ok {| gf_TxHash := fallbackHash (rt_Hash tx) txHash; gf_Confirmations := 0; gf_Status := "PENDING";
                      gf_Found := true |})
        else
        blockNum ⤆ nret (hexToUint64 (rt_BlockNumber tx));
        latest ⤆ blockNumber ep;
        receipt ⤆ getTransactionReceipt ep txHash;
        nret (Ok {| gf_TxHash := fallbackHash (rt_Hash tx) txHash;
                    gf_Confirmations := confirmationsAt latest (Ok blockNum); gf_Status := receiptStatus receipt;
                    gf_Found := true |})
    end).

Definition GetBalance (chain network address : string) : readerState → result BalanceResult * readerState :=
  withEndpoint chain network (λ ep,
    result ⤆ rpcCall (nd_balance ep address);
    bal ⤆ nret (hexToBig result);
    nret (Ok {| gl_Balance := BigString bal; gl_Network := ToLower (TrimSpace network); gl_Sequence := "" |})).
End reader.

(** ** Laws *)

Lemma parse_hex_nonneg acc l v : 0 ≤ acc → parse_hex acc l = Some v → 0 ≤ v.
Proof.
  revert acc. induction l as [|a l IH]; intros acc Ha; cbn; [by intros [= <-]|].
  destruct (hexDigit a) as [d|]; cbn; [|done]. apply IH. lia.
Qed.

Lemma hexToUint64_range text n : hexToUint64 text = Ok n → 0 ≤ n < 2 ^ 64.
Proof.
  assert (Hu : ∀ s v, (∀ x, v = Some x → 0 ≤ x) → uint64_of s v = Ok n → 0 ≤ n < 2 ^ 64).
  { intros s [x|] Hx; cbn; [|done]. case_decide; [intros [= <-]|done]. specialize (Hx x eq_refl). lia. }
  unfold hexToUint64. case_decide; [intros [= <-]; lia|]. case_match; apply Hu; intros x.
  - destruct (to_bytes (after0x (TrimSpace text))) as [|a l]; [done|]. by apply parse_hex_nonneg.
  - destruct (to_bytes (TrimSpace text)) as [|a l]; [done|]. by apply (parse_digits_mono 0).
Qed.

(** * Pages of an EVM chain

    What following the cursor of [ListIncomingTransfers] returns, against the
    list of all transfers of the blocks ([transfersIn]). *)
From S2P Require Import KeyRef KeyPaths EndpointSystem.

Lemma nbind_ok {C A B} (p : nodeM C A) (f : A → nodeM C B) c a :
  (p c).1 = Ok a → ∃ c', nbind p f c = f a c'.
Proof. unfold nbind. destruct (p c) as [r c']. cbn. intros ->. by exists c'. Qed.

Lemma nbind_ret {C A B} (a : A) (f : A → nodeM C B) c : nbind (nret (Ok a)) f c = f a c.
Proof. done. Qed.

(** A step whose answer is known. *)
Ltac node_step Hx :=
  match goal with |- context [nbind ?p ?f ?c] =>
    let c' := fresh "c" in destruct (nbind_ok p f c _ (Hx c)) as [c' ->]
  end.

(** ** The manager behind a reader *)

Lemma omap_alter_length f q (heap : gmap nat endpoint_state) l :
  List.length (omap (λ p, alter f q heap !! p) l) = List.length (omap (λ p, heap !! p) l).
Proof.
  induction l as [|p l IH]; [done|]. cbn. rewrite lookup_alter. case_decide as Hq; [subst q|].
  - destruct (heap !! p); cbn; by rewrite IH.
  - destruct (heap !! p); cbn; by rewrite IH.
Qed.

(** A report leaves the pools as large as they are. *)
Lemma onState_pool key f m chain network model :
  List.length (poolOf chain network model (onState key f m)) = List.length (poolOf chain network model m).
Proof.
  unfold poolOf, onState. destruct (mg_states m !! key) as [p|]; [|done]. cbn. apply omap_alter_length.
Qed.

Section pages.
Context {C : Type} `{EvmNode C}.

(** A chain whose node answers: its height, its blocks (some of which it may
    not have), its receipts. *)
Record answering (latest : Z) (block : Z → option rpcBlock) (receipt : string → option rpcReceipt) : Prop := {
  an_latest : ∀ ep c, ∃ text, (nd_blockNumber ep c).1 = Ok text ∧ hexToUint64 text = Ok latest;
  an_block : ∀ ep n c, (nd_block ep n c).1 = Ok (block n);
  an_receipt : ∀ ep h c, (nd_receipt ep h c).1 = Ok (receipt h);
}.

Lemma rpcCall_ok {A} (once : nodeM C A) c a : (once c).1 = Ok a → (rpcCall once c).1 = Ok a.
Proof. unfold rpcCall. destruct (once c) as [r c']. cbn. by intros ->. Qed.

Variables (latest : Z) (block : Z → option rpcBlock) (receipt : string → option rpcReceipt) (addr : string).
Hypothesis Hnode : answering latest block receipt.

(** The transfers of some transactions, and of [n] blocks from [b]. *)
Definition transfersOf (txs : list rpcTx) : list IncomingTransfer :=
  omap (λ tx, amt ← incomingAmount addr tx; Some (transferOf latest tx amt (default zeroReceipt (receipt (rt_Hash tx))))) txs.
Definition blockAt (n : Z) : rpcBlock := default zeroBlock (block n).
Definition transfersIn (b n : Z) : list IncomingTransfer := seqZ b n ≫= λ k, transfersOf (rb_Transactions (blockAt k)).

Lemma blockNumber_ok ep c : (blockNumber ep c).1 = Ok latest.
Proof.
  destruct (an_latest _ _ _ Hnode ep c) as (text & Ht & Hv). unfold blockNumber.
  destruct (nbind_ok (rpcCall (nd_blockNumber ep)) (λ r, nret (hexToUint64 r)) c text) as [c' ->]; [by apply rpcCall_ok|].
  exact Hv.
Qed.

Lemma getBlock_ok ep n c : (getBlockByNumber ep n c).1 = Ok (blockAt n).
Proof.
  unfold getBlockByNumber.
  destruct (nbind_ok (rpcCall (nd_block ep n)) (λ r, nret (Ok (default zeroBlock r))) c (block n)) as [c' ->];
    [by apply rpcCall_ok; eapply an_block|done].
Qed.

Lemma getReceipt_ok ep h c : (getTransactionReceipt ep h c).1 = Ok (default zeroReceipt (receipt h)).
Proof.
  unfold getTransactionReceipt.
  destruct (nbind_ok (rpcCall (nd_receipt ep h)) (λ r, nret (Ok (default zeroReceipt r))) c (receipt h)) as [c' ->];
    [by apply rpcCall_ok; eapply an_receipt|done].
Qed.

Lemma scanTxs_ok ep txs c : (scanTxs ep latest addr txs c).1 = Ok (transfersOf txs).
Proof.
  revert c. induction txs as [|tx txs IH]; intros c; [done|]. cbn [scanTxs].
  change (transfersOf (tx :: txs)) with
    (match (amt ← incomingAmount addr tx; Some (transferOf latest tx amt (default zeroReceipt (receipt (rt_Hash tx)))))
     with Some t => t :: transfersOf txs | None => transfersOf txs end).
  destruct (incomingAmount addr tx) as [amt|]; cbn [mbind option_bind]; [|apply IH].
  node_step (getReceipt_ok ep (rt_Hash tx)). by node_step IH.
Qed.

Lemma scanBlocks_ok ep n b c :
  (scanBlocks ep latest addr n b c).1 = Ok ((λ k, blockMeta (blockAt k)) <$> seqZ b (Z.of_nat n), transfersIn b (Z.of_nat n)).
Proof.
  revert b c. induction n as [|n IH]; intros b c; [done|]. cbn [scanBlocks].
  node_step (getBlock_ok ep b). node_step (scanTxs_ok ep (rb_Transactions (blockAt b))). node_step (IH (b + 1)).
  unfold transfersIn. rewrite (seqZ_cons b) by lia.
  replace (Z.succ b) with (b + 1) by lia. replace (Z.pred (Z.of_nat (S n))) with (Z.of_nat n) by lia. done.
Qed.

(** ** Following the cursor *)

Lemma resolveFromBlock_number lookback v :
  0 ≤ v < 2 ^ 64 - 1 → resolveFromBlock lookback (BigString v) latest = Ok (v + 1).
Proof.
  intros Hv. unfold resolveFromBlock.
  assert (Hparse : parse_nat10 (to_bytes (BigString v)) = Some v).
  { unfold BigString. rewrite decide_False, to_of_bytes by lia. apply parse_nat10_print. lia. }
  rewrite TrimSpace_BigString, decide_False by (intros E; rewrite E in Hparse; discriminate). rewrite Hparse. unfold uint64_of.
  rewrite decide_True by lia. by rewrite decide_False by lia.
Qed.

(** The endpoints of the chain; a report does not take them away. *)
Definition has_endpoints (chain network : string) (s : readerState (C := C)) : Prop :=
  ToLower (TrimSpace chain) ≠ "" ∧ ToLower (TrimSpace network) ≠ ""
  ∧ poolOf (ToLower (TrimSpace chain)) (ToLower (TrimSpace network)) "account" s.1 ≠ [].

Lemma selectEndpoint_ok chain network (s : readerState (C := C)) :
  has_endpoints chain network s → ∃ ep, selectEndpoint chain network s = Ok ep.
Proof.
  intros (Hc & Hn & Hp). unfold selectEndpoint.
  pose proof (Select_total (nd_now s.2) (nd_intn s.2) chain network "account" s.1 Hc Hn ltac:(done) Hp) as Ht.
  destruct (Select _ _ _ _ _ _) as [ep|]; [by exists ep|done].
Qed.

Lemma withEndpoint_ok {A} chain network (body : SelectedEndpoint → nodeM C A) (s : readerState (C := C)) a :
  has_endpoints chain network s → (∀ ep c, (body ep c).1 = Ok a) →
  ∃ s', withEndpoint chain network body s = (Ok a, s') ∧ has_endpoints chain network s'.
Proof.
  intros Hs Hbody. destruct (selectEndpoint_ok _ _ _ Hs) as [ep Hep]. unfold withEndpoint. rewrite Hep.
  pose proof (Hbody ep s.2) as Hb. destruct (body ep s.2) as [r c]. cbn in Hb. subst r. eexists. split; [done|].
  destruct Hs as (Hc & Hn & Hp). split_and!; [done|done|]. cbn. intros E. apply Hp.
  apply (f_equal List.length) in E. unfold ReportSuccess in E. rewrite onState_pool in E. by apply nil_length_inv in E.
Qed.

Hypothesis Hlatest : 0 ≤ latest < 2 ^ 64 - 501.
Variables (lookback : Z) (chain network : string) (pageSize : Z).
Hypothesis Hsize : 0 ≤ pageSize.

Lemma boundedPage_range most : 1 ≤ most → 50 ≤ most → 1 ≤ boundedPage most pageSize ≤ most.
Proof. unfold boundedPage. intros. repeat case_decide; lia. Qed.

(** The last block of the page after block [v]. *)
Definition pageEnd (v : Z) : Z := Z.min (v + boundedPage 500 pageSize) latest.

Lemma transfersIn_split b n m : 0 ≤ n → 0 ≤ m → transfersIn b (n + m) = transfersIn b n ++ transfersIn (b + n) m.
Proof. intros Hn Hm. unfold transfersIn. rewrite seqZ_app by lia. by rewrite bind_app. Qed.

(** The address the transfers are filtered by. *)
Variable address : string.
Hypothesis Haddress : addr = ToLower (TrimSpace address).

Definition pageAfter (v : Z) : IncomingTransferResult := {|
  gr_Items := transfersIn (v + 1) (pageEnd v - v); gr_NextCursor := BigString (pageEnd v);
  gr_Blocks := (λ k, blockMeta (blockAt k)) <$> seqZ (v + 1) (pageEnd v - v) |}.

Lemma incomingPage_after v ep c :
  0 ≤ v ≤ latest → (incomingPage lookback address (BigString v) pageSize ep c).1 = Ok (pageAfter v).
Proof.
  intros Hv. pose proof (boundedPage_range 500 ltac:(lia) ltac:(lia)) as Hb. unfold incomingPage. rewrite <- Haddress.
  node_step (blockNumber_ok ep). rewrite resolveFromBlock_number by lia. rewrite nbind_ret. case_decide as Hl.
  - assert (v = latest) as -> by lia. unfold pageAfter. replace (pageEnd latest) with latest by (unfold pageEnd; lia).
    by rewrite Z.sub_diag.
  - assert (Ht : lastOfPage (v + 1) latest (boundedPage 500 pageSize) = pageEnd v).
    { unfold lastOfPage, pageEnd. rewrite Z.mod_small by lia. case_decide; lia. }
    rewrite Ht. assert (v < pageEnd v) by (unfold pageEnd; lia).
    node_step (λ c, scanBlocks_ok ep (Z.to_nat (pageEnd v - (v + 1) + 1)) (v + 1) c). cbn.
    unfold pageAfter. by replace (Z.of_nat (Z.to_nat (pageEnd v - (v + 1) + 1))) with (pageEnd v - v) by lia.
Qed.

Lemma page_after v (s : readerState (C := C)) :
  0 ≤ v ≤ latest → has_endpoints chain network s →
  ∃ s', ListIncomingTransfers lookback chain network address (BigString v) pageSize s = (Ok (pageAfter v), s')
    ∧ has_endpoints chain network s'.
Proof. intros Hv Hs. apply withEndpoint_ok; [done|]. intros ep c. by apply incomingPage_after. Qed.

(** [n] pages, each from the cursor of the one before. *)
Fixpoint followPages (n : nat) (cursor : string) (s : readerState (C := C)) : result (list IncomingTransfer * string) :=
  match n with
  | O => Ok ([], cursor)
  | S n =>
      match ListIncomingTransfers lookback chain network address cursor pageSize s with
      | (Err e, _) => Err e
      | (Ok page, s) =>
          rest ← followPages n (gr_NextCursor page) s;
          Ok (gr_Items page ++ fst rest, snd rest)
      end
  end.

Lemma followPages_after n : ∀ v (s : readerState (C := C)),
  0 ≤ v ≤ latest → has_endpoints chain network s → latest ≤ v + Z.of_nat n * boundedPage 500 pageSize →
  followPages n (BigString v) s = Ok (transfersIn (v + 1) (latest - v), BigString latest).
Proof.
  pose proof (boundedPage_range 500 ltac:(lia) ltac:(lia)) as Hb.
  induction n as [|n IH]; intros v s Hv Hs Hn; cbn [followPages].
  - assert (v = latest) as -> by lia. by rewrite Z.sub_diag.
  - destruct (page_after v s Hv Hs) as (s' & -> & Hs'). cbn [pageAfter gr_NextCursor gr_Items].
    assert (Hp : v ≤ pageEnd v ≤ latest ∧ latest ≤ pageEnd v + Z.of_nat n * boundedPage 500 pageSize) by (unfold pageEnd; lia).
    rewrite IH by (done || lia). cbn [mbind result_bind fst snd]. f_equal. f_equal.
    replace (latest - v) with ((pageEnd v - v) + (latest - pageEnd v)) by lia.
    rewrite transfersIn_split by lia. do 2 f_equal; lia.
Qed.
End pages.
