(* ===== verification/Normalize.v ===== *)
(** * Normalising what the adapters answer

    [chain-gateway/internal/normalize/transfer.go] over decoded JSON.  A Go map
    is a list of its entries in the order it is ranged over, which Go leaves
    open.  Typed decoding reads the keys as they are written in the struct
    tags. *)
From S2P Require Import Prelude GoStrings GoNumbers KeyRef EvmReader.

(** ** JSON *)

(** [JNum v whole] is a [float64] with the integer part [v], and [whole] when
    it is nothing but its integer part. *)
Inductive json : Type :=
  | JNull
  | JBool (b : bool)
  | JNum (v : Z) (whole : bool)
  | JStr (s : string)
  | JArr (l : list json)
  | JObj (m : list (string * json)).

Abbreviation jobject := (list (string * json)).

(** The [float64] next to an integer: 53 bits, ties to even. *)
Definition float64 (z : Z) : Z :=
  let a := Z.abs z in
  let k := Z.log2 a - 52 in
  if decide (k ≤ 0) then z else
  let q := a / 2 ^ k in
  let r := a mod 2 ^ k in
  let q := if decide (2 ^ (k - 1) < r ∨ r = 2 ^ (k - 1) ∧ q mod 2 = 1) then q + 1 else q in
  Z.sgn z * (q * 2 ^ k).

(** An [int64] that was encoded and decoded into [any]. *)
Definition jint (z : Z) : json := JNum (float64 z) true.

(** [int64(f)], out of range as amd64 computes it. *)
Definition int64_of_float (v : Z) : Z := if decide (int64_min ≤ v ∧ v ≤ int64_max) then v else int64_min.

(** [n, _ := strconv.ParseInt(strings.TrimSpace(s), 10, 64)]: a number out of
    range gives the bound. *)
Definition parsedInt64 (s : string) : Z :=
  match SetString10 s with None => 0 | Some v => Z.max int64_min (Z.min v int64_max) end.

(** ** Fields of untyped objects *)

Fixpoint pickString (m : jobject) (keys : list string) : string :=
  match keys with
  | [] => ""
  | k :: keys =>
      match assoc k m with
      | Some (JStr s) => if decide (TrimSpace s ≠ "") then TrimSpace s else pickString m keys
      | Some (JNum v _) => BigString (int64_of_float v)
      | _ => pickString m keys
      end
  end.

Fixpoint pickInt64 (m : jobject) (keys : list string) : Z :=
  match keys with
  | [] => 0
  | k :: keys =>
      match assoc k m with
      | Some (JNum v _) => int64_of_float v
      | Some (JStr s) => parsedInt64 (TrimSpace s)
      | _ => pickInt64 m keys
      end
  end.

(** The first non-empty text, and the first number that is not 0. *)
Definition firstText (l : list string) : string := default "" (List.find (λ s, bool_decide (s ≠ "")) l).
Definition firstNumber (l : list Z) : Z := default 0 (List.find (λ n, bool_decide (n ≠ 0)) l).

Fixpoint directString (m : jobject) (keys : list string) : option string :=
  match keys with
  | [] => None
  | k :: keys =>
      match assoc k m with
      | Some (JStr s) => if decide (TrimSpace s ≠ "") then Some (TrimSpace s) else directString m keys
      | _ => directString m keys
      end
  end.

Fixpoint directInt64 (m : jobject) (keys : list string) : option Z :=
  match keys with
  | [] => None
  | k :: keys =>
      match assoc k m with
      | Some (JNum v _) => Some (int64_of_float v)
      | Some (JStr s) => match parseInt64 (TrimSpace s) with Ok n => Some n | Err _ => directInt64 m keys end
      | _ => directInt64 m keys
      end
  end.

(** The objects below a value: of a map its objects and those of its arrays. *)
Fixpoint findFirstString (keys : list string) (x : json) : string :=
  match x with
  | JObj m =>
      match directString m keys with
      | Some s => s
      | None =>
          firstText (List.flat_map (λ e,
            match snd e with
            | JObj _ => [findFirstString keys (snd e)]
            | JArr l => List.flat_map (λ it, match it with JObj _ => [findFirstString keys it] | _ => [] end) l
            | _ => []
            end) m)
      end
  | _ => ""
  end.

Fixpoint findFirstInt64 (keys : list string) (x : json) : Z :=
  match x with
  | JObj m =>
      match directInt64 m keys with
      | Some n => n
      | None =>
          firstNumber (List.flat_map (λ e,
            match snd e with
            | JObj _ => [findFirstInt64 keys (snd e)]
            | JArr l => List.flat_map (λ it, match it with JObj _ => [findFirstInt64 keys it] | _ => [] end) l
            | _ => []
            end) m)
      end
  | _ => 0
  end.

Definition hashKeys : list string := ["tx_hash"; "hash"; "txid"; "txId"].
Definition cursorKeys : list string := ["next_cursor"; "nextCursor"; "cursor"; "next"].

(** Every object with a hash, outer objects first. *)
Fixpoint collectObjectCandidates (x : json) : list jobject :=
  match x with
  | JObj m =>
      (if decide (pickString m hashKeys ≠ "") then [m] else []) ++ List.flat_map (λ e, collectObjectCandidates (snd e)) m
  | JArr l => List.flat_map collectObjectCandidates l
  | _ => []
  end.

(** ** Small normalisations *)

Definition fallback (v d : string) : string := if decide (TrimSpace v = "") then d else v.

Definition normalizeChain (chain : string) : string :=
  let x := ToLower (TrimSpace chain) in
  if decide (x = "eth") then "ethereum"
  else if decide (x = "trx") then "tron"
  else if decide (x = "sol") then "solana"
  else if decide (x = "bsc") then "binance"
  else x.

Definition normalizeTxStatus (v : string) : string :=
  let x := ToLower (TrimSpace v) in
  if decide (x = "finalized") then "FINALIZED"
  else if decide (x ∈ ["success"; "succeeded"; "ok"; "confirmed"]) then "CONFIRMED"
  else if decide (x = "reorged") then "REORGED"
  else if decide (x ∈ ["failed"; "fail"; "reverted"; "dropped"]) then "REVERTED"
  else if decide (x = "pending") then "PENDING"
  else "".

(** 0 is unknown as well. *)
Definition normalizeConfirmations (v : Z) : Z := if decide (v ≤ 0) then -1 else v.

(** [idx <= 0] takes the position. *)
Definition indexOr (idx : Z) (position : nat) : Z := if decide (idx ≤ 0) then Z.of_nat position else idx.

(** ** Typed decoding *)

(** [json.Unmarshal] into a field: [null] and an absent key leave it zero, a
    value of another type is an error. *)
Definition stringField (k : string) (m : jobject) : result string :=
  match assoc k m with
  | None | Some JNull => Ok ""
  | Some (JStr s) => Ok s
  | Some _ => Err (Errorf ("json: cannot unmarshal into field " +:+ k))
  end.
Definition int64Field (k : string) (m : jobject) : result Z :=
  match assoc k m with
  | None | Some JNull => Ok 0
  | Some (JNum v true) =>
      if decide (int64_min ≤ v ∧ v ≤ int64_max) then Ok v else Err (Errorf ("json: cannot unmarshal into field " +:+ k))
  | Some _ => Err (Errorf ("json: cannot unmarshal into field " +:+ k))
  end.

(** A slice of structs, each decoded by [f]; [null] is a zero struct. *)
Fixpoint decodeSlice {A} (f : jobject → result A) (l : list json) : result (list A) :=
  match l with
  | [] => Ok []
  | x :: l =>
      a ← match x with JObj m => f m | JNull => f [] | _ => Err (Errorf "json: cannot unmarshal into struct") end;
      rest ← decodeSlice f l;
      Ok (a :: rest)
  end.
Definition sliceField {A} (f : jobject → result A) (k : string) (m : jobject) : result (list A) :=
  match assoc k m with
  | None | Some JNull => Ok []
  | Some (JArr l) => decodeSlice f l
  | Some _ => Err (Errorf ("json: cannot unmarshal into field " +:+ k))
  end.

Record evmNode := {
  en_Hash : string;
  en_Index : Z;
  en_Froms : list string;
  en_Tos : list string;
  en_Values : list string;
  en_Confirmations : Z;
  en_Status : string;
  en_ContractAddress : string;
}.

Definition decodeEvmNode (m : jobject) : result evmNode :=
  hash ← stringField "hash" m;
  index ← int64Field "index" m;
  froms ← sliceField (stringField "address") "froms" m;
  tos ← sliceField (stringField "address") "tos" m;
  values ← sliceField (stringField "value") "values" m;
  confirmations ← int64Field "confirmations" m;
  status ← stringField "status" m;
  contract ← stringField "contract_address" m;
  Ok {| en_Hash := hash; en_Index := index; en_Froms := froms; en_Tos := tos; en_Values := values;
        en_Confirmations := confirmations; en_Status := status; en_ContractAddress := contract |}.

Record solNode := {
  sn_Hash : string;
  sn_To : string;
  sn_From : string;
  sn_Value : string;
  sn_Status : string;
  sn_Index : Z;
  sn_Confirmations : Z;
}.

Definition decodeSolNode (m : jobject) : result solNode :=
  hash ← stringField "hash" m;
  to ← stringField "to" m;
  from ← stringField "from" m;
  value ← stringField "value" m;
  status ← stringField "status" m;
  index ← int64Field "index" m;
  confirmations ← int64Field "confirmations" m;
  Ok {| sn_Hash := hash; sn_To := to; sn_From := from; sn_Value := value; sn_Status := status; sn_Index := index;
        sn_Confirmations := confirmations |}.

(** ** Transfers *)

(** [for i, x := range l], keeping what [f] keeps. *)
Definition ranged {A B} (f : nat → A → option B) (l : list A) : list B := omap (λ e, f (fst e) (snd e)) (zip (seq 0 (List.length l)) l).

Definition evmTransfer (watchAddress : string) (i : nat) (tx : evmNode) : option IncomingTransfer :=
  let watch := ToLower (TrimSpace watchAddress) in
  let to := from_option TrimSpace "" (head (en_Tos tx)) in
  let from := from_option TrimSpace "" (head (en_Froms tx)) in
  if decide (TrimSpace (en_Hash tx) = "" ∨ (watch ≠ "" ∧ ToLower to ≠ watch)) then None else
  let value := from_option TrimSpace "" (head (en_Values tx)) in
  Some {| gt_TxHash := TrimSpace (en_Hash tx); gt_FromAddress := from; gt_ToAddress := fallback to watchAddress;
          gt_Amount := if decide (value = "") then "0" else value;
          gt_Confirmations := normalizeConfirmations (en_Confirmations tx); gt_Index := indexOr (en_Index tx) i;
          gt_Status := normalizeTxStatus (en_Status tx);
          gt_ContractAddress := ToLower (TrimSpace (en_ContractAddress tx)) |}.

(** [None] is [false]: another extraction is tried. *)
Definition extractAccountTransfersEVM (raw : jobject) (watchAddress : string) : option (list IncomingTransfer * string) :=
  match sliceField decodeEvmNode "tx" raw with
  | Err _ | Ok [] => None
  | Ok txs => Some (ranged (evmTransfer watchAddress) txs, findFirstString cursorKeys (JObj raw))
  end.

Definition extractAccountTransfersTRON := extractAccountTransfersEVM.

Definition solTransfer (watchAddress : string) (i : nat) (tx : solNode) : option IncomingTransfer :=
  let watch := ToLower (TrimSpace watchAddress) in
  let to := TrimSpace (sn_To tx) in
  if decide (TrimSpace (sn_Hash tx) = "" ∨ (watch ≠ "" ∧ to ≠ "" ∧ ToLower to ≠ watch)) then None else
  let value := TrimSpace (sn_Value tx) in
  Some {| gt_TxHash := sn_Hash tx; gt_FromAddress := sn_From tx; gt_ToAddress := fallback to watchAddress;
          gt_Amount := if decide (value = "") then "0" else value;
          gt_Confirmations := normalizeConfirmations (sn_Confirmations tx); gt_Index := indexOr (sn_Index tx) i;
          gt_Status := normalizeTxStatus (sn_Status tx); gt_ContractAddress := "" |}.

Definition extractAccountTransfersSOL (raw : jobject) (watchAddress : string) : option (list IncomingTransfer * string) :=
  match sliceField decodeSolNode "tx" raw with
  | Err _ | Ok [] => None
  | Ok txs => Some (ranged (solTransfer watchAddress) txs, findFirstString cursorKeys (JObj raw))
  end.

Definition genericTransfer (watchAddress : string) (idx : nat) (obj : jobject) : option IncomingTransfer :=
  let txHash := pickString obj hashKeys in
  let to := pickString obj ["to"; "to_address"; "toAddress"; "recipient"; "receiver"] in
  let amount := pickString obj ["amount"; "value"; "amount_str"; "amountStr"] in
  let toLower := ToLower (TrimSpace to) in
  if decide (txHash = "" ∨ (watchAddress ≠ "" ∧ toLower ≠ "" ∧ toLower ≠ watchAddress)) then None else
  Some {| gt_TxHash := txHash; gt_FromAddress := pickString obj ["from"; "from_address"; "fromAddress"; "sender"];
          gt_ToAddress := fallback to watchAddress; gt_Amount := if decide (amount = "") then "0" else amount;
          gt_Confirmations := normalizeConfirmations (pickInt64 obj ["confirmations"; "confirm"; "confirmation"]);
          gt_Index := indexOr (pickInt64 obj ["index"; "vout"; "n"]) idx;
          gt_Status := normalizeTxStatus (pickString obj ["status"; "tx_status"; "state"]); gt_ContractAddress := "" |}.

Definition extractAccountTransfersGeneric (raw : jobject) (watchAddress : string) : list IncomingTransfer * string :=
  (ranged (genericTransfer (ToLower (TrimSpace watchAddress))) (collectObjectCandidates (JObj raw)),
   findFirstString cursorKeys (JObj raw)).

Definition normalizedEvmChains : list string :=
  ["ethereum"; "binance"; "polygon"; "arbitrum"; "optimism"; "linea"; "scroll"; "mantle"; "zksync"].

Definition extractAccountTransfers (chain : string) (raw : jobject) (watchAddress : string) : list IncomingTransfer * string :=
  let c := normalizeChain chain in
  default (extractAccountTransfersGeneric raw watchAddress)
    (if decide (c ∈ normalizedEvmChains) then extractAccountTransfersEVM raw watchAddress
     else if decide (c = "tron") then extractAccountTransfersTRON raw watchAddress
     else if decide (c = "solana") then extractAccountTransfersSOL raw watchAddress
     else None).

Definition utxoTransfer (watchAddress : string) (obj : jobject) : option IncomingTransfer :=
  let txHash := pickString obj hashKeys in
  if decide (txHash = "") then None else
  let amount := pickString obj ["amount"; "unspent_amount"; "value"; "unspentAmount"] in
  let address := pickString obj ["address"; "to"; "to_address"] in
  Some {| gt_TxHash := txHash; gt_FromAddress := ""; gt_ToAddress := if decide (address = "") then watchAddress else address;
          gt_Amount := if decide (amount = "") then "0" else amount;
          gt_Confirmations := pickInt64 obj ["confirmations"; "confirm"; "confirmation"];
          gt_Index := pickInt64 obj ["index"; "vout"; "tx_out_n"; "txOutN"]; gt_Status := ""; gt_ContractAddress := "" |}.

Definition extractUTXOTransfers (raw : jobject) (watchAddress : string) : list IncomingTransfer :=
  omap (utxoTransfer watchAddress) (collectObjectCandidates (JObj raw)).

Definition extractBlockMeta (item : json) : option BlockMeta :=
  match item with
  | JObj m =>
      let text k := match assoc k m with Some (JStr s) => s | _ => "" end in
      if decide (text "hash" = "") then None else
      Some {| gb_Number := match assoc "number" m with Some (JNum v _) => int64_of_float v | _ => 0 end;
              gb_Hash := text "hash"; gb_ParentHash := text "parent_hash" |}
  | _ => None
  end.

Definition extractBlockMetas (raw : jobject) : list BlockMeta :=
  match assoc "blocks" raw with Some (JArr l) => omap extractBlockMeta l | _ => [] end.

Definition IncomingTransfers (model chain : string) (raw : jobject) (watchAddress : string) : IncomingTransferResult :=
  if decide (model = "utxo") then
    {| gr_Items := extractUTXOTransfers raw watchAddress; gr_NextCursor := ""; gr_Blocks := [] |}
  else
    let '(items, next) := extractAccountTransfers chain raw watchAddress in
    {| gr_Items := items; gr_NextCursor := next; gr_Blocks := extractBlockMetas raw |}.

(** ** Finality *)

Definition Finality (txHash : string) (raw : jobject) : TxFinality :=
  let foundHash := findFirstString ["tx_hash"; "txid"; "txId"; "hash"] (JObj raw) in
  let txHash := if decide (TrimSpace txHash = "") then foundHash else txHash in
  let confirmations := findFirstInt64 ["confirmations"; "confirmation"; "confirm"] (JObj raw) in
  let status := normalizeTxStatus (findFirstString ["status"; "tx_status"; "state"; "receipt_status"] (JObj raw)) in
  let found := bool_decide (txHash ≠ "" ∨ foundHash ≠ "") || bool_decide (raw ≠ []) || EqualFold status "REVERTED" in
  let status := if decide (status = "") then
                  (if decide (0 < confirmations) then "CONFIRMED" else if found then "PENDING" else status)
                else status in
  {| gf_TxHash := txHash; gf_Confirmations := normalizeConfirmations confirmations; gf_Status := status; gf_Found := found |}.
