(* ===== verification/EvmPlugin.v ===== *)
(** * The EVM plugin

    The reading side of
    [chain-gateway/internal/adapters/account/chains/evm/plugin.go]: what the
    reader found, as the JSON the service decodes.  [None] is a plugin without
    a reader. *)
From S2P Require Import Prelude GoStrings GoNumbers KeyRef Endpoint EvmReader Normalize.

Record AccountInput := {
  ai_Chain : string;
  ai_Coin : string;
  ai_Network : string;
  ai_Address : string;
  ai_ContractAddress : string;
}.
Record AccountResult := { ar_Network : string; ar_AccountNumber : string; ar_Sequence : string; ar_Balance : string }.
Record TxQueryInput := {
  tq_Chain : string;
  tq_Coin : string;
  tq_Network : string;
  tq_Address : string;
  tq_ContractAddress : string;
  tq_Hash : string;
  tq_Page : Z;
  tq_PageSize : Z;
  tq_Cursor : string;
}.

Definition fallbackIndex (v : Z) (idx : nat) : Z := if decide (0 < v) then v else Z.of_nat idx.

(** An entry of [tx]. *)
Definition transferEntry (idx : nat) (item : IncomingTransfer) : json := JObj (
  [("hash", JStr (gt_TxHash item)); ("index", jint (fallbackIndex (gt_Index item) idx));
   ("froms", JArr [JObj [("address", JStr (gt_FromAddress item))]]);
   ("tos", JArr [JObj [("address", JStr (gt_ToAddress item))]]);
   ("values", JArr [JObj [("value", JStr (gt_Amount item))]]);
   ("confirmations", jint (gt_Confirmations item)); ("status", JStr (gt_Status item))]
  ++ (if decide (gt_ContractAddress item ≠ "") then [("contract_address", JStr (gt_ContractAddress item))] else [])).

Definition blockEntry (b : BlockMeta) : json :=
  JObj [("number", jint (gb_Number b)); ("hash", JStr (gb_Hash b)); ("parent_hash", JStr (gb_ParentHash b))].

Definition transfersPayload (out : IncomingTransferResult) : jobject :=
  [("tx", JArr (imap transferEntry (gr_Items out))); ("next_cursor", JStr (gr_NextCursor out))]
  ++ (if decide (gr_Blocks out ≠ []) then [("blocks", JArr (blockEntry <$> gr_Blocks out))] else []).

Definition finalityPayload (out : TxFinality) : jobject :=
  [("tx_hash", JStr (gf_TxHash out)); ("confirmations", jint (gf_Confirmations out)); ("status", JStr (gf_Status out));
   ("found", JBool (gf_Found out))].

Section plugin.
Context {C : Type} `{EvmNode C}.

(** The reader's [CursorLookback]. *)
Variable reader : option Z.

Definition withReader {A} (f : Z → readerState (C := C) → result A * readerState (C := C)) (s : readerState (C := C))
    : result A * readerState (C := C) :=
  match reader with None => (Err (Errorf "evm reader is nil"), s) | Some lookback => f lookback s end.

Definition map_result {A B} (f : A → B) (r : result A * readerState (C := C)) : result B * readerState (C := C) :=
  (f <$> fst r, snd r).

Definition GetTxByAddress (inp : TxQueryInput) : readerState (C := C) → result jobject * readerState (C := C) :=
  withReader (λ lookback s, map_result transfersPayload (
    let ca := TrimSpace (tq_ContractAddress inp) in
    if decide (ca ≠ "") then
      ListIncomingERC20Transfers lookback (tq_Chain inp) (tq_Network inp) ca (tq_Address inp) (tq_Cursor inp) (tq_PageSize inp) s
    else ListIncomingTransfers lookback (tq_Chain inp) (tq_Network inp) (tq_Address inp) (tq_Cursor inp) (tq_PageSize inp) s)).

Definition GetTxByHash (inp : TxQueryInput) : readerState (C := C) → result jobject * readerState (C := C) :=
  withReader (λ _ s, map_result finalityPayload (GetTxFinality (tq_Chain inp) (tq_Network inp) (tq_Hash inp) s)).

(** The contract address of the input is not used. *)
Definition GetAccount (inp : AccountInput) : readerState (C := C) → result AccountResult * readerState (C := C) :=
  withReader (λ _ s, map_result (λ out,
    {| ar_Network := gl_Network out; ar_AccountNumber := "0"; ar_Sequence := gl_Sequence out; ar_Balance := gl_Balance out |})
    (GetBalance (ai_Chain inp) (ai_Network inp) (ai_Address inp) s)).
End plugin.

(** * The JSON between the EVM plugin and the service

    What [Normalize] reads in the payloads of [EvmPlugin]. *)

(** An integer a [float64] holds. *)
Definition exact (z : Z) : Prop := - 2 ^ 53 < z < 2 ^ 53.

Lemma float64_exact z : exact z → float64 z = z.
Proof.
  intros Hz. unfold float64, exact in *. rewrite decide_True; [done|].
  assert (Z.log2 (Z.abs z) < 53); [|lia]. destruct (decide (z = 0)) as [->|]; [done|]. apply Z.log2_lt_pow2; lia.
Qed.

Lemma jint_exact z : exact z → jint z = JNum z true.
Proof. intros Hz. unfold jint. by rewrite float64_exact. Qed.

Lemma exact_int64 z : exact z → int64_min ≤ z ∧ z ≤ int64_max.
Proof. unfold exact, int64_min, int64_max. lia. Qed.

(** ** Transfers *)

(** A transfer whose numbers survive. *)
Definition sound (it : IncomingTransfer) : Prop :=
  TrimSpace (gt_TxHash it) ≠ "" ∧ exact (gt_Index it) ∧ exact (gt_Confirmations it).

Definition itemNode (i : nat) (it : IncomingTransfer) : evmNode := {|
  en_Hash := gt_TxHash it; en_Index := fallbackIndex (gt_Index it) i; en_Froms := [gt_FromAddress it];
  en_Tos := [gt_ToAddress it]; en_Values := [gt_Amount it]; en_Confirmations := gt_Confirmations it;
  en_Status := gt_Status it; en_ContractAddress := gt_ContractAddress it |}.

(** A transfer as the service answers it, from position [i] of its page. *)
Definition listed (i : nat) (it : IncomingTransfer) : IncomingTransfer := {|
  gt_TxHash := TrimSpace (gt_TxHash it); gt_FromAddress := TrimSpace (gt_FromAddress it);
  gt_ToAddress := fallback (TrimSpace (gt_ToAddress it)) "";
  gt_Amount := if decide (TrimSpace (gt_Amount it) = "") then "0" else TrimSpace (gt_Amount it);
  gt_Confirmations := normalizeConfirmations (gt_Confirmations it); gt_Index := fallbackIndex (gt_Index it) i;
  gt_Status := normalizeTxStatus (gt_Status it); gt_ContractAddress := ToLower (TrimSpace (gt_ContractAddress it)) |}.

Lemma fallbackIndex_exact v i : exact v → Z.of_nat i < 2 ^ 53 → exact (fallbackIndex v i).
Proof. unfold exact, fallbackIndex. intros. case_decide; lia. Qed.

Lemma int64Field_exact k m z : exact z → assoc k m = Some (jint z) → int64Field k m = Ok z.
Proof.
  intros Hz Hm. unfold int64Field. rewrite Hm, jint_exact by done. rewrite decide_True; [done|]. by apply exact_int64.
Qed.

Lemma decode_entry i it :
  exact (gt_Index it) → exact (gt_Confirmations it) → Z.of_nat i < 2 ^ 53 →
  ∃ m, transferEntry i it = JObj m ∧ decodeEvmNode m = Ok (itemNode i it).
Proof.
  intros Hi Hc Hn. eexists. split; [reflexivity|]. pose proof (fallbackIndex_exact _ i Hi Hn) as Hf.
  unfold decodeEvmNode.
  rewrite (int64Field_exact "index" _ (fallbackIndex (gt_Index it) i)) by (done || by case_decide).
  rewrite (int64Field_exact "confirmations" _ (gt_Confirmations it)) by (done || by case_decide).
  case_decide as Hca; cbn; unfold itemNode; [done|by rewrite Hca].
Qed.

Lemma decodeSlice_imap {A B} (dec : jobject → result B) (f : nat → A → json) (g : nat → A → B) l :
  (∀ i x, l !! i = Some x → ∃ m, f i x = JObj m ∧ dec m = Ok (g i x)) →
  decodeSlice dec (imap f l) = Ok (imap g l).
Proof.
  revert f g. induction l as [|x l IH]; intros f g Hl; [done|]. cbn [imap decodeSlice].
  destruct (Hl 0%nat x eq_refl) as (m & -> & ->). cbn [mbind result_bind].
  rewrite (IH (f ∘ S) (g ∘ S)); [done|]. intros i y Hy. by apply (Hl (S i)).
Qed.

Lemma ranged_imap {A B D} (f : nat → B → option D) (h : nat → A → B) (g : nat → A → D) l :
  (∀ i x, l !! i = Some x → f i (h i x) = Some (g i x)) → ranged f (imap h l) = imap g l.
Proof.
  unfold ranged. intros Hl.
  assert (Hk : ∀ k (h : nat → A → B) (g : nat → A → D) (l : list A), (∀ i x, l !! i = Some x → f (k + i)%nat (h i x) = Some (g i x)) →
    omap (λ e, f (fst e) (snd e)) (zip (seq k (List.length (imap h l))) (imap h l)) = imap g l).
  { clear. intros k h g l. revert k h g. induction l as [|x l IH]; intros k h g Hl; [done|]. cbn.
    pose proof (Hl 0%nat x eq_refl) as Hx. rewrite Nat.add_0_r in Hx. rewrite Hx. f_equal. apply IH.
    intros i y Hy. pose proof (Hl (S i) y Hy) as E. rewrite Nat.add_succ_r in E. exact E. }
  apply Hk. exact Hl.
Qed.

Lemma findFirstString_direct keys m s : directString m keys = Some s → findFirstString keys (JObj m) = s.
Proof. intros Hd. cbn. by rewrite Hd. Qed.

Lemma directString_head k keys m s :
  assoc k m = Some (JStr s) → TrimSpace s ≠ "" → directString m (k :: keys) = Some (TrimSpace s).
Proof. intros Hm Hs. cbn [directString]. rewrite Hm. by rewrite decide_True. Qed.

Lemma cursor_of_payload out :
  TrimSpace (gr_NextCursor out) ≠ "" → directString (transfersPayload out) cursorKeys = Some (TrimSpace (gr_NextCursor out)).
Proof. intros Hc. by apply directString_head. Qed.

(** Every transfer of a page is read back, none is added. *)
Lemma items_read_back out chain :
  gr_Items out ≠ [] → Forall sound (gr_Items out) → Z.of_nat (List.length (gr_Items out)) < 2 ^ 53 →
  normalizeChain chain ∈ normalizedEvmChains → TrimSpace (gr_NextCursor out) ≠ "" →
  extractAccountTransfers chain (transfersPayload out) ""
  = (imap listed (gr_Items out), TrimSpace (gr_NextCursor out)).
Proof.
  intros Hne Hs Hlen Hchain Hcur. rewrite Forall_lookup in Hs. unfold extractAccountTransfers. rewrite decide_True by done.
  unfold extractAccountTransfersEVM.
  replace (sliceField decodeEvmNode "tx" (transfersPayload out)) with (Ok (imap itemNode (gr_Items out)) : result (list evmNode)).
  2:{ symmetry. unfold sliceField. cbn. apply decodeSlice_imap. intros i it Hi. destruct (Hs _ _ Hi) as (_ & H1 & H2).
      apply lookup_lt_Some in Hi. apply decode_entry; [done..|lia]. }
  destruct (imap itemNode (gr_Items out)) as [|n l] eqn:Hn.
  { apply (f_equal List.length) in Hn. rewrite length_imap in Hn. by apply nil_length_inv in Hn. }
  rewrite <- Hn. cbn [default]. rewrite (ranged_imap _ itemNode listed); [f_equal|].
  - by rewrite (findFirstString_direct _ _ _ (cursor_of_payload out Hcur)).
  - intros i it Hi. destruct (Hs _ _ Hi) as (H1 & _). unfold evmTransfer. cbn [itemNode en_Hash en_Tos en_Froms en_Values
      en_Confirmations en_Status en_ContractAddress en_Index head from_option].
    rewrite decide_False by (intros [?|[Hw _]]; [done|by apply Hw]). unfold listed. do 2 f_equal.
    unfold indexOr, fallbackIndex. repeat case_decide; lia.
Qed.

(** ** Pages without transfers *)

(** What the untyped extraction makes of a block. *)
Definition blockTransfer (watch : string) (i : nat) (b : BlockMeta) : IncomingTransfer := {|
  gt_TxHash := TrimSpace (gb_Hash b); gt_FromAddress := ""; gt_ToAddress := watch; gt_Amount := "0";
  gt_Confirmations := -1; gt_Index := Z.of_nat i; gt_Status := ""; gt_ContractAddress := "" |}.

Definition blockFields (b : BlockMeta) : jobject :=
  [("number", jint (gb_Number b)); ("hash", JStr (gb_Hash b)); ("parent_hash", JStr (gb_ParentHash b))].

Lemma blockFields_hash b : pickString (blockFields b) hashKeys = TrimSpace (gb_Hash b).
Proof.
  change (pickString (blockFields b) hashKeys) with (if decide (TrimSpace (gb_Hash b) ≠ "") then TrimSpace (gb_Hash b) else "").
  by case_decide.
Qed.

Lemma block_candidates (bs : list BlockMeta) :
  List.flat_map collectObjectCandidates (blockEntry <$> bs) = blockFields <$> filter (λ b, TrimSpace (gb_Hash b) ≠ "") bs.
Proof.
  induction bs as [|b bs IH]; [done|]. rewrite fmap_cons. cbn [List.flat_map]. rewrite IH, filter_cons.
  change (blockEntry b) with (JObj (blockFields b)).
  change (collectObjectCandidates (JObj (blockFields b))) with
    ((if decide (pickString (blockFields b) hashKeys ≠ "") then [blockFields b] else []) ++ []).
  rewrite blockFields_hash, app_nil_r. by case_decide.
Qed.

Lemma payload_candidates out :
  gr_Items out = [] →
  collectObjectCandidates (JObj (transfersPayload out)) = blockFields <$> filter (λ b, TrimSpace (gb_Hash b) ≠ "") (gr_Blocks out).
Proof.
  intros Hi. unfold transfersPayload. rewrite Hi. case_decide as Hb.
  - cbn. rewrite app_nil_r. apply block_candidates.
  - by rewrite Hb.
Qed.

Lemma blocks_read_as_transfers out chain watchAddress :
  gr_Items out = [] → TrimSpace (gr_NextCursor out) ≠ "" →
  extractAccountTransfers chain (transfersPayload out) watchAddress
  = (imap (blockTransfer (ToLower (TrimSpace watchAddress))) (filter (λ b, TrimSpace (gb_Hash b) ≠ "") (gr_Blocks out)),
     TrimSpace (gr_NextCursor out)).
Proof.
  intros Hi Hc.
  assert (Hnone : extractAccountTransfersEVM (transfersPayload out) watchAddress = None
    ∧ extractAccountTransfersSOL (transfersPayload out) watchAddress = None).
  { unfold extractAccountTransfersEVM, extractAccountTransfersSOL, transfersPayload. by rewrite Hi. }
  destruct Hnone as [He Hs]. unfold extractAccountTransfers. cbv zeta. unfold extractAccountTransfersTRON. rewrite He, Hs.
  replace (if decide _ then None else _) with (None : option (list IncomingTransfer * string)) by (by repeat case_decide).
  cbn [default]. unfold extractAccountTransfersGeneric. rewrite (findFirstString_direct _ _ _ (cursor_of_payload out Hc)).
  f_equal. rewrite payload_candidates by done. set (bs := filter _ (gr_Blocks out)).
  assert (Hbs : ∀ b, b ∈ bs → TrimSpace (gb_Hash b) ≠ "") by (intros b Hb; by apply list_elem_of_filter in Hb as [? _]).
  clearbody bs. replace (blockFields <$> bs) with (imap (λ _ b, blockFields b) bs) by apply imap_const.
  apply ranged_imap. intros i b Hb. apply list_elem_of_lookup_2, Hbs in Hb.
  unfold genericTransfer. rewrite blockFields_hash. cbn [TrimSpace].
  rewrite decide_False by (intros [?|(_ & E & _)]; [done|by apply E]). unfold blockTransfer. cbn. do 2 f_equal.
Qed.

(** The blocks of a page that have a hash. *)
Lemma blocks_read_back out :
  Forall (λ b, exact (gb_Number b)) (gr_Blocks out) →
  extractBlockMetas (transfersPayload out) = filter (λ b, gb_Hash b ≠ "") (gr_Blocks out).
Proof.
  intros Hn. unfold extractBlockMetas.
  assert (Hb : omap extractBlockMeta (blockEntry <$> gr_Blocks out) = filter (λ b, gb_Hash b ≠ "") (gr_Blocks out)).
  { induction Hn as [|b bs Hb _ IH]; [done|]. rewrite fmap_cons, filter_cons. cbn [omap list_omap]. rewrite IH.
    change (extractBlockMeta (blockEntry b)) with
      (if decide (gb_Hash b = "") then None else
       Some {| gb_Number := int64_of_float (float64 (gb_Number b)); gb_Hash := gb_Hash b; gb_ParentHash := gb_ParentHash b |}).
    rewrite float64_exact by done. unfold int64_of_float.
    rewrite (decide_True (P := int64_min ≤ gb_Number b ∧ gb_Number b ≤ int64_max)) by (by apply exact_int64).
    repeat case_decide; try done. by destruct b. }
  unfold transfersPayload. case_decide as He; [exact Hb|]. by rewrite He.
Qed.
