(* ===== verification/EvmSend.v ===== *)
(** * The EVM plugin: building, signing and sending

    The writing side of
    [chain-gateway/internal/adapters/account/chains/evm/plugin.go]: a
    transaction is a base64 text of JSON on its way between wallet-core and the
    plugin; the plugin turns it into a dynamic fee transaction, hashes it, and
    later attaches a signature and hands it to a node.  go-ethereum is the class
    [Geth]; the errors of the base64 and JSON libraries are without their
    positions. *)
From S2P Require Import Prelude GoStrings GoNumbers GoJson GoCodec Ports KeyRef Endpoint EvmReader.

(** ** Chain names: [internal/clients/classifier.go] *)

Definition utxoChains : list string :=
  ["bitcoin"; "btc"; "bitcoincash"; "bch"; "dash"; "dogecoin"; "doge"; "litecoin"; "ltc"; "zen"].
Definition evmChains : list string :=
  ["ethereum"; "binance"; "polygon"; "arbitrum"; "optimism"; "linea"; "scroll"; "mantle"; "zksync"].
Definition chainAlias : list (string * string) :=
  [("eth", "ethereum"); ("bsc", "binance"); ("bnb", "binance"); ("matic", "polygon"); ("arb", "arbitrum");
   ("trx", "tron"); ("sol", "solana"); ("btc", "bitcoin"); ("bch", "bitcoincash"); ("ltc", "litecoin");
   ("doge", "dogecoin")].

Definition NormalizeChain (chain : string) : string :=
  let v := ToLower (TrimSpace chain) in
  if decide (v = "") then "" else default v (assoc v chainAlias).

Definition IsUTXOChain (chain : string) : bool := bool_decide (NormalizeChain chain ∈ utxoChains).
Definition IsEVMChain (chain : string) : bool := bool_decide (NormalizeChain chain ∈ evmChains).

(** ** Transactions *)

Record DynamicFeeTx := {
  tx_ChainID : Z;
  tx_Nonce : Z;
  tx_GasTipCap : Z;
  tx_GasFeeCap : Z;
  tx_Gas : Z;
  tx_To : bytes;
  tx_Value : Z;
  tx_Data : bytes;
}.

(** go-ethereum over the public keys [K]: [DecompressPubkey], [UnmarshalPubkey],
    [PubkeyToAddress(k).Hex()]; the bytes of [HexToAddress(s)]; and, with the
    signer [LatestSignerForChainID(id)], the hexadecimal hash of a transaction,
    the signed transaction, its sender ([Sender(...).Hex()]) and its encoding. *)
Class Geth (K : Type) := {
  geth_decompress : bytes → result K;
  geth_unmarshal : bytes → result K;
  geth_address : K → string;
  signed_tx : Type;
  HexToAddress : string → bytes;
  Keccak256 : bytes → bytes;
  LeftPadBytes : bytes → nat → bytes;
  tx_hash : Z → DynamicFeeTx → string;
  WithSignature : Z → DynamicFeeTx → bytes → result signed_tx;
  tx_sender : Z → signed_tx → result string;
  MarshalBinary : signed_tx → result bytes;
}.
Arguments signed_tx K {_}. Arguments HexToAddress K {_} _. Arguments Keccak256 K {_} _. Arguments LeftPadBytes K {_} _ _.
Arguments tx_hash K {_} _ _. Arguments WithSignature K {_} _ _ _. Arguments tx_sender K {_} _ _. Arguments MarshalBinary K {_} _.

Record evmDynamicFeeRequest := {
  er_ChainID : string;
  er_NonceMode : string;
  er_FromAddress : string;
  er_Nonce : Z;
  er_MaxPriorityFeePerGas : string;
  er_MaxFeePerGas : string;
  er_GasLimit : Z;
  er_ToAddress : string;
  er_Amount : string;
  er_ContractAddress : string;
}.
#[export] Instance evmDynamicFeeRequest_rebuild : Rebuild evmDynamicFeeRequest := λ r,
  {| er_ChainID := er_ChainID r; er_NonceMode := er_NonceMode r; er_FromAddress := er_FromAddress r; er_Nonce := er_Nonce r;
     er_MaxPriorityFeePerGas := er_MaxPriorityFeePerGas r; er_MaxFeePerGas := er_MaxFeePerGas r;
     er_GasLimit := er_GasLimit r; er_ToAddress := er_ToAddress r; er_Amount := er_Amount r;
     er_ContractAddress := er_ContractAddress r |}.

(** The struct's tags. *)
Definition requestFields (m : list (string * doc)) : option evmDynamicFeeRequest :=
  chainId ← string_field "chainId" m;
  nonceMode ← string_field "nonceMode" m;
  from ← string_field "fromAddress" m;
  nonce ← uint64_field "nonce" m;
  tip ← string_field "maxPriorityFeePerGas" m;
  fee ← string_field "maxFeePerGas" m;
  gas ← uint64_field "gasLimit" m;
  to ← string_field "toAddress" m;
  amt ← string_field "amount" m;
  contract ← string_field "contractAddress" m;
  Some {| er_ChainID := chainId; er_NonceMode := nonceMode; er_FromAddress := from; er_Nonce := nonce;
          er_MaxPriorityFeePerGas := tip; er_MaxFeePerGas := fee; er_GasLimit := gas; er_ToAddress := to;
          er_Amount := amt; er_ContractAddress := contract |}.

Definition requestMembers (req : evmDynamicFeeRequest) : list (string * doc) :=
  [("chainId", DStr (er_ChainID req))] ++ unless_empty "nonceMode" (er_NonceMode req)
  ++ unless_empty "fromAddress" (er_FromAddress req)
  ++ [("nonce", DInt (er_Nonce req)); ("maxPriorityFeePerGas", DStr (er_MaxPriorityFeePerGas req));
      ("maxFeePerGas", DStr (er_MaxFeePerGas req)); ("gasLimit", DInt (er_GasLimit req));
      ("toAddress", DStr (er_ToAddress req)); ("amount", DStr (er_Amount req));
      ("contractAddress", DStr (er_ContractAddress req))].

Definition encodeDynamicFeeTx (req : evmDynamicFeeRequest) : result string :=
  Ok (encode64doc (requestMembers req)).

Definition usesFixedNonce (mode : string) : bool := EqualFold (TrimSpace mode) "fixed".

(** [big.Int.Bytes]: the absolute value, the most significant byte first. *)
Fixpoint be_bytes (fuel : nat) (v : Z) (acc : bytes) : bytes :=
  match fuel with
  | O => acc
  | S fuel => if decide (v ≤ 0) then acc else be_bytes fuel (v / 256) (byte_of (Z.to_N (v mod 256)) :: acc)
  end.
Definition bigBytes (v : Z) : bytes := be_bytes (S (Z.to_nat (Z.log2 (Z.abs v)))) (Z.abs v) [].

(** No token contract. *)
Definition noContracts : list string := [""; "0x00"; "0x0000000000000000000000000000000000000000"].

Definition wrapped (what : string) {A} (r : result A) : result A :=
  match r with Ok a => Ok a | Err e => Err (wrap_error what e) end.

Definition parseECDSAPublicKey `{Geth K} (raw : string) : result K :=
  let v := TrimPrefix (TrimSpace raw) "0x" in
  if decide (v = "") then Err (Errorf "public key is required") else
  match hexDecode (to_bytes v) with
  | None => Err (Errorf "invalid public key")
  | Some b =>
      if decide (List.length b = 33%nat) then wrapped "invalid compressed public key" (geth_decompress b)
      else if decide (List.length b = 64%nat) then wrapped "invalid public key" (geth_unmarshal (byte_of 4 :: b))
      else if decide (List.length b = 65%nat) then
        if decide (head b ≠ Some (byte_of 4)) then Err (Errorf "invalid uncompressed public key prefix")
        else wrapped "invalid public key" (geth_unmarshal b)
      else Err (Errorf ("invalid public key length=" +:+ BigString (Z.of_nat (List.length b))))
  end.

(** [ConvertAddress] of the EVM plugin. *)
Definition evmConvertAddress `{Geth K} (chain publicKey : string) : result string :=
  if IsEVMChain chain then geth_address <$> parseECDSAPublicKey publicKey
  else Err (Errorf ("unsupported chain: " +:+ chain)).


Section transactions.
Context `{Geth K}.

Definition buildERC20TransferData (toAddress : bytes) (amount : Z) : bytes :=
  take 4 (Keccak256 K (to_bytes "transfer(address,uint256)")) ++ LeftPadBytes K toAddress 32
  ++ LeftPadBytes K (bigBytes amount) 32.

(** The transaction of a request. *)
Definition requestTx (req : evmDynamicFeeRequest) : result DynamicFeeTx :=
  chainID ← from_option_err (Errorf "invalid chainId") (SetString10 (TrimSpace (er_ChainID req)));
  maxPriorityFee ← from_option_err (Errorf "invalid maxPriorityFeePerGas") (SetString10 (TrimSpace (er_MaxPriorityFeePerGas req)));
  maxFee ← from_option_err (Errorf "invalid maxFeePerGas") (SetString10 (TrimSpace (er_MaxFeePerGas req)));
  amount ← from_option_err (Errorf "invalid amount") (SetString10 (TrimSpace (er_Amount req)));
  let toAddress := HexToAddress K (TrimSpace (er_ToAddress req)) in
  let native := bool_decide (ToLower (TrimSpace (er_ContractAddress req)) ∈ noContracts) in
  Ok {| tx_ChainID := chainID; tx_Nonce := er_Nonce req; tx_GasTipCap := maxPriorityFee; tx_GasFeeCap := maxFee;
        tx_Gas := er_GasLimit req;
        tx_To := if native then toAddress else HexToAddress K (er_ContractAddress req);
        tx_Value := if native then amount else 0;
        tx_Data := if native then [] else buildERC20TransferData toAddress amount |}.

Definition decodeDynamicFeeTx (raw : bytes) : result (DynamicFeeTx * evmDynamicFeeRequest) :=
  req ← from_option_err (Errorf "invalid dynamic fee tx json") (Unmarshal requestFields (of_bytes raw));
  tx ← requestTx req;
  Ok (tx, req).

(** The text of a transaction, as both methods read it. *)
Definition decodePayloadTx (base64Tx : string) : result (DynamicFeeTx * evmDynamicFeeRequest) :=
  raw ← from_option_err (Errorf "invalid base64_tx") (DecodeString (TrimSpace base64Tx));
  decodeDynamicFeeTx raw.

(** ** Signatures *)

Definition decodeHexOrBase64Sig (raw : string) : result bytes :=
  let v := TrimPrefix (TrimSpace raw) "0x" in
  if decide (v = "") then Err (Errorf "signature is required") else
  match hexDecode (to_bytes v) with
  | Some b => Ok b
  | None => from_option_err (Errorf "illegal base64 data") (DecodeString v)
  end.

Definition matchesSignerPublicKey (tx : DynamicFeeTx) (sig : bytes) (publicKey : string) : bool :=
  match WithSignature K (tx_ChainID tx) tx sig with
  | Err _ => false
  | Ok signedTx =>
      match tx_sender K (tx_ChainID tx) signedTx, parseECDSAPublicKey publicKey with
      | Ok sender, Ok pub => EqualFold sender (geth_address pub)
      | _, _ => false
      end
  end.

(** The signature [r] and [s] with the recovery id [v]. *)
Definition recoverable (sig : bytes) (v : N) : bytes := take 64 sig ++ [byte_of v].

Definition normalizeEVMSignature (tx : DynamicFeeTx) (sig : bytes) (publicKey : string) : result bytes :=
  if decide (List.length sig = 64%nat) then
    if decide (TrimSpace publicKey = "") then Ok (recoverable sig 0)
    else if matchesSignerPublicKey tx (recoverable sig 0) publicKey then Ok (recoverable sig 0)
    else if matchesSignerPublicKey tx (recoverable sig 1) publicKey then Ok (recoverable sig 1)
    else Err (Errorf "unable to determine recovery id from signature/public_key")
  else if decide (List.length sig = 65%nat) then
    let v := N_of_ascii (nth 64 sig zero) in
    let v := (if 27 <=? v then v - 27 else v)%N in
    if decide (1 < v)%N then Err (Errorf ("invalid signature recovery id=" +:+ BigString (Z.of_N v)))
    else if decide (TrimSpace publicKey = "") then Ok (recoverable sig v)
    else if matchesSignerPublicKey tx (recoverable sig v) publicKey then Ok (recoverable sig v)
    else if matchesSignerPublicKey tx (recoverable sig (1 - v)) publicKey then Ok (recoverable sig (1 - v))
    else Err (Errorf "signature does not match public_key")
  else Err (Errorf ("invalid signature length=" +:+ BigString (Z.of_nat (List.length sig)))).

Definition evmBuildSigned (chain base64Tx signature publicKey : string) : result string :=
  if negb (IsEVMChain chain) then Err (Errorf ("unsupported chain: " +:+ chain)) else
  '(tx, _) ← decodePayloadTx base64Tx;
  sigBytes ← wrapped "invalid signature" (decodeHexOrBase64Sig signature);
  sig65 ← normalizeEVMSignature tx sigBytes publicKey;
  signedTx ← wrapped "attach signature failed" (WithSignature K (tx_ChainID tx) tx sig65);
  encoded ← wrapped "marshal signed tx failed" (MarshalBinary K signedTx);
  Ok ("0x" +:+ hexEncode encoded).
End transactions.

(** ** Nodes *)

Section sending.
Context `{Geth K} {C : Type} `{EvmNode C}.

(** The plugin's reader, if it has one. *)
Variable reader : option Z.

(** [selectEndpoint], one call with [callRPC], and the report to the manager. *)
Definition pluginCall {A} (chain network : string) (once : SelectedEndpoint → nodeM C A) (s : readerState (C := C))
    : result A * readerState (C := C) :=
  match reader with None => (Err (Errorf ErrNoEndpoint), s) | Some _ => withEndpoint chain network once s end.

Definition fetchPendingNonce (chain network fromAddress : string) (s : readerState (C := C))
    : result Z * readerState (C := C) :=
  let '(out, s) := pluginCall chain network (λ ep, nd_pendingNonce ep fromAddress) s in
  (out ← out; hexToUint64 out, s).

Definition unsignedResult (payload : string) (tx : DynamicFeeTx) : BuildUnsignedResult :=
  {| br_UnsignedTx := payload; br_SignHashes := [tx_hash K (tx_ChainID tx) tx] |}.

Definition withNonce (nonce : Z) (tx : DynamicFeeTx) : DynamicFeeTx := {|
  tx_ChainID := tx_ChainID tx; tx_Nonce := nonce; tx_GasTipCap := tx_GasTipCap tx; tx_GasFeeCap := tx_GasFeeCap tx;
  tx_Gas := tx_Gas tx; tx_To := tx_To tx; tx_Value := tx_Value tx; tx_Data := tx_Data tx |}.

Definition evmBuildUnsigned (chain network base64Tx : string) (s : readerState (C := C))
    : result BuildUnsignedResult * readerState (C := C) :=
  if negb (IsEVMChain chain) then (Err (Errorf ("unsupported chain: " +:+ chain)), s) else
  match decodePayloadTx base64Tx with
  | Err e => (Err e, s)
  | Ok (tx, req) =>
      if bool_decide (TrimSpace (er_FromAddress req) ≠ "") && negb (usesFixedNonce (er_NonceMode req)) then
        match fetchPendingNonce chain network (er_FromAddress req) s with
        | (Err e, s) => (Err (wrap_error "resolve nonce failed" e), s)
        | (Ok nonce, s) =>
            let payload := match encodeDynamicFeeTx (req <| er_Nonce := nonce |> <| er_NonceMode := "fixed" |>) with
                           | Ok refreshed => refreshed
                           | Err _ => TrimSpace base64Tx
                           end in
            (Ok (unsignedResult payload (withNonce nonce tx)), s)
        end
      else (Ok (unsignedResult (TrimSpace base64Tx) tx), s)
  end.

Definition evmSendTx (chain network rawTx : string) (s : readerState (C := C)) : result string * readerState (C := C) :=
  if negb (IsEVMChain chain) then (Err (Errorf ("unsupported chain: " +:+ chain)), s) else
  let '(out, s) := pluginCall chain network (λ ep, nd_sendRaw ep (TrimSpace rawTx)) s in
  (TrimSpace <$> out, s).
End sending.

(** * Laws of the transaction's text *)

(** A field that occurs once, and one that does not. *)
Lemma decode_once {A} (into : A → doc → option A) zero tag m d :
  members_of tag m = [d] → decode_field into zero tag m = into zero d.
Proof. intros Hm. unfold decode_field. rewrite Hm. cbn. by destruct (into zero d). Qed.

Lemma decode_none {A} (into : A → doc → option A) zero tag m :
  members_of tag m = [] → decode_field into zero tag m = Some zero.
Proof. intros Hm. unfold decode_field. by rewrite Hm. Qed.

(** The value of a field of a list of members whose tags are known. *)
Lemma string_once tag m s : members_of tag m = [DStr s] → string_field tag m = Some s.
Proof. intros Hm. unfold string_field. by rewrite (decode_once _ _ _ _ _ Hm). Qed.
Lemma uint64_once tag m z : members_of tag m = [DInt z] → 0 ≤ z < 2 ^ 64 → uint64_field tag m = Some z.
Proof. intros Hm Hz. unfold uint64_field. rewrite (decode_once _ _ _ _ _ Hm). by apply into_uint64_DInt. Qed.
Lemma string_unless_empty tag m s :
  members_of tag m = (if decide (s = "") then [] else [DStr s]) → string_field tag m = Some s.
Proof. case_decide as Hs; [|apply string_once]. intros Hm. unfold string_field. by rewrite (decode_none _ _ _ _ Hm), Hs. Qed.

Lemma requestFields_members req :
  0 ≤ er_Nonce req < 2 ^ 64 → 0 ≤ er_GasLimit req < 2 ^ 64 → requestFields (requestMembers req) = Some req.
Proof.
  intros Hn Hg. unfold requestFields, requestMembers, unless_empty.
  rewrite (string_once "chainId" _ (er_ChainID req)), (string_unless_empty "nonceMode" _ (er_NonceMode req)),
    (string_unless_empty "fromAddress" _ (er_FromAddress req)), (uint64_once "nonce" _ (er_Nonce req)),
    (string_once "maxPriorityFeePerGas" _ (er_MaxPriorityFeePerGas req)), (string_once "maxFeePerGas" _ (er_MaxFeePerGas req)),
    (uint64_once "gasLimit" _ (er_GasLimit req)), (string_once "toAddress" _ (er_ToAddress req)),
    (string_once "amount" _ (er_Amount req)), (string_once "contractAddress" _ (er_ContractAddress req));
    try done; [by destruct req|..]; repeat case_decide; reflexivity.
Qed.

(** What JSON can carry. *)
Record request_ok (req : evmDynamicFeeRequest) : Prop := {
  ro_ChainID : valid_utf8 (er_ChainID req);
  ro_NonceMode : valid_utf8 (er_NonceMode req);
  ro_FromAddress : valid_utf8 (er_FromAddress req);
  ro_Nonce : 0 ≤ er_Nonce req < 2 ^ 64;
  ro_MaxPriorityFeePerGas : valid_utf8 (er_MaxPriorityFeePerGas req);
  ro_MaxFeePerGas : valid_utf8 (er_MaxFeePerGas req);
  ro_GasLimit : 0 ≤ er_GasLimit req < 2 ^ 64;
  ro_ToAddress : valid_utf8 (er_ToAddress req);
  ro_Amount : valid_utf8 (er_Amount req);
  ro_ContractAddress : valid_utf8 (er_ContractAddress req);
}.

Lemma Unmarshal_request body req : Unmarshal requestFields body = Some req → request_ok req.
Proof.
  intros (m & Hx & Hm)%Unmarshal_utf8. unfold requestFields in Hx.
  repeat (apply bind_Some in Hx as (? & ? & Hx)). injection Hx as <-.
  split; cbn; first [by eapply string_field_utf8|by eapply uint64_field_range].
Qed.

(** An ASCII text is UTF-8. *)
Lemma ascii_utf8 s : forallb (λ a, (N_of_ascii a <? 128)%N) (to_bytes s) = true → valid_utf8 s.
Proof.
  unfold valid_utf8. change (forallb (λ a, (N_of_ascii a <? 128)%N) (to_bytes s) = true → utf8 (to_bytes s)).
  induction (to_bytes s) as [|a l IH]; cbn; [by exists []|]. intros [Ha%N.ltb_lt Hl]%andb_prop.
  apply (utf8_app [a]); [by apply ascii_rune|by apply IH].
Qed.

Lemma flat_unless_empty tag s : valid_utf8 tag → valid_utf8 s → flat_members (unless_empty tag s).
Proof. intros Ht Hs. unfold unless_empty. case_decide; [constructor|]. constructor; [|constructor]. split; [done|by constructor]. Qed.

Ltac flat_tac := repeat first
  [ apply Forall_nil_2 | apply Forall_app_2 | apply flat_unless_empty | apply Forall_cons_2; [split; cbn|]
  | apply flat_str | apply flat_int; lia | assumption | by apply ascii_utf8 ].

Lemma requestMembers_flat req : request_ok req → flat_members (requestMembers req).
Proof. intros []. unfold requestMembers, flat_members. flat_tac. Qed.

Section laws.
Context `{Geth K}.

Lemma decodePayloadTx_ok base64Tx tx req :
  decodePayloadTx base64Tx = Ok (tx, req) → request_ok req ∧ requestTx req = Ok tx.
Proof.
  unfold decodePayloadTx, decodeDynamicFeeTx. intros Hx. mbind_inv Hx. mbind_inv Hx. mbind_inv Hx. injection Hx as <- <-.
  split; [|done]. apply from_option_err_ok in Ha0. by eapply Unmarshal_request.
Qed.

(** The text of members that decode to a request. *)
Lemma decodePayloadTx_members m req tx :
  flat_members m → requestFields m = Some req → requestTx req = Ok tx →
  decodePayloadTx (encode64doc m) = Ok (tx, req).
Proof.
  intros Hm Hreq Htx. destruct (decode_encode64doc requestFields m Hm) as [Htrim Hd].
  rewrite Hreq in Hd. apply bind_Some in Hd as (raw & Hraw & Hd).
  unfold decodePayloadTx, decodeDynamicFeeTx. rewrite Htrim, Hraw. cbn [from_option_err]. rewrite bind_ok, Hd. cbn [from_option_err].
  by rewrite bind_ok, Htx.
Qed.

(** The gateway's own text of a request. *)
Lemma decode_encodeDynamicFeeTx req tx payload :
  request_ok req → requestTx req = Ok tx → encodeDynamicFeeTx req = Ok payload → decodePayloadTx payload = Ok (tx, req).
Proof.
  intros Hok Htx Hp. assert (payload = encode64doc (requestMembers req)) as -> by by injection Hp. apply decodePayloadTx_members; [by apply requestMembers_flat| |done].
  destruct Hok. by apply requestFields_members.
Qed.

Lemma requestTx_withNonce req tx nonce mode :
  requestTx req = Ok tx → requestTx (req <| er_Nonce := nonce |> <| er_NonceMode := mode |>) = Ok (withNonce nonce tx).
Proof.
  unfold requestTx. intros Hx. mbind_inv Hx. mbind_inv Hx. mbind_inv Hx. mbind_inv Hx.
  unfold update. cbn -[from_option_err SetString10 TrimSpace mbind ToLower]. rewrite Ha, Ha0, Ha1, Ha2. injection Hx as <-. done.
Qed.
(** ** What the plugin's methods return *)

(** A signature of a transaction, as the node gets it. *)
Definition signed_with (tx : DynamicFeeTx) (signature publicKey raw : string) : Prop :=
  ∃ sigBytes v signedTx encoded,
    decodeHexOrBase64Sig signature = Ok sigBytes ∧ (v ≤ 1)%N
    ∧ WithSignature K (tx_ChainID tx) tx (recoverable sigBytes v) = Ok signedTx
    ∧ MarshalBinary K signedTx = Ok encoded ∧ raw = "0x" +:+ hexEncode encoded
    ∧ (TrimSpace publicKey ≠ "" →
       ∃ sender key, tx_sender K (tx_ChainID tx) signedTx = Ok sender ∧ parseECDSAPublicKey publicKey = Ok key
         ∧ EqualFold sender (geth_address key) = true).

Lemma normalizeEVMSignature_ok tx sig publicKey sig65 :
  normalizeEVMSignature tx sig publicKey = Ok sig65 →
  ∃ v, (v ≤ 1)%N ∧ sig65 = recoverable sig v
    ∧ (TrimSpace publicKey ≠ "" → matchesSignerPublicKey tx (recoverable sig v) publicKey = true).
Proof.
  unfold normalizeEVMSignature. intros Hx.
  repeat (case_decide || case_match); simplify_eq; eexists; (split; [|split; [reflexivity|done]]); lia.
Qed.

Lemma evmBuildSigned_ok chain base64Tx signature publicKey raw :
  evmBuildSigned chain base64Tx signature publicKey = Ok raw →
  ∃ tx req, decodePayloadTx base64Tx = Ok (tx, req) ∧ signed_with tx signature publicKey raw.
Proof.
  assert (Hw : ∀ A what (r : result A) a, wrapped what r = Ok a → r = Ok a) by by intros A what [].
  unfold evmBuildSigned. destruct (negb _); [done|]. intros Hx. mbind_inv Hx. destruct a as [tx req].
  mbind_inv Hx. mbind_inv Hx. mbind_inv Hx. mbind_inv Hx. injection Hx as <-.
  apply Hw in Ha0, Ha2, Ha3. apply normalizeEVMSignature_ok in Ha1 as (v & Hv & -> & Hm).
  exists tx, req. split; [done|]. exists a, v, a1, a2. split_and!; try done. intros Hp. specialize (Hm Hp).
  unfold matchesSignerPublicKey in Hm. rewrite Ha2 in Hm.
  destruct (tx_sender K (tx_ChainID tx) a1) as [sender|]; [|done].
  destruct (parseECDSAPublicKey publicKey) as [key|]; [|done]. eauto.
Qed.

Context {C : Type} `{EvmNode C}.

(** The nonce of the transaction that is built: the one of the text, or the
    node's for the sender. *)
Definition nonce_from (reader : option Z) (chain network : string) (tx0 : DynamicFeeTx) (req : evmDynamicFeeRequest)
    (tx : DynamicFeeTx) (s s' : readerState (C := C)) : Prop :=
  if bool_decide (TrimSpace (er_FromAddress req) ≠ "") && negb (usesFixedNonce (er_NonceMode req)) then
    ∃ nonce, fetchPendingNonce reader chain network (er_FromAddress req) s = (Ok nonce, s') ∧ tx = withNonce nonce tx0
  else tx = tx0 ∧ s' = s.

(** What is hashed is what the returned text stands for. *)
Lemma evmBuildUnsigned_ok reader chain network base64Tx (s : readerState (C := C)) u s' :
  evmBuildUnsigned reader chain network base64Tx s = (Ok u, s') →
  ∃ tx0 req0 tx req, decodePayloadTx base64Tx = Ok (tx0, req0)
    ∧ decodePayloadTx (br_UnsignedTx u) = Ok (tx, req) ∧ TrimSpace (br_UnsignedTx u) = br_UnsignedTx u
    ∧ br_SignHashes u = [tx_hash K (tx_ChainID tx) tx] ∧ nonce_from reader chain network tx0 req0 tx s s'
    ∧ (TrimSpace (er_FromAddress req) ≠ "" → usesFixedNonce (er_NonceMode req) = true).
Proof.
  unfold evmBuildUnsigned, nonce_from. destruct (negb _); [done|]. destruct (decodePayloadTx base64Tx) as [[tx0 req0]|] eqn:Hd; [|done].
  apply decodePayloadTx_ok in Hd as Hok. destruct Hok as [Hreq Htx].
  destruct (_ && _) eqn:Hn.
  - destruct (fetchPendingNonce _ _ _ _ s) as [[nonce|e] s1] eqn:Hf; [|done]. intros [= <- <-].
    set (req := req0 <| er_Nonce := nonce |> <| er_NonceMode := "fixed" |>).
    assert (request_ok req) as Hok.
    { assert (0 ≤ nonce < 2 ^ 64) as Hr.
      { unfold fetchPendingNonce in Hf. destruct (pluginCall _ _ _ _ s) as [[out|e] s2]; [|done].
        injection Hf as Hf _. by eapply hexToUint64_range. }
      destruct Hreq. split; cbn; try done. by apply ascii_utf8. }
    assert (decodePayloadTx (encode64doc (requestMembers req)) = Ok (withNonce nonce tx0, req)) as Hdec.
    { eapply decode_encodeDynamicFeeTx; [done|by apply requestTx_withNonce|done]. }
    exists tx0, req0, (withNonce nonce tx0), req. cbn [unsignedResult br_UnsignedTx br_SignHashes encodeDynamicFeeTx].
    split_and!; [done|exact Hdec|apply TrimSpace_EncodeToString|done|rewrite Hn; by exists nonce|done].
  - intros [= <- <-]. exists tx0, req0, tx0, req0. cbn [unsignedResult br_UnsignedTx br_SignHashes].
    split; [done|]. split; [unfold decodePayloadTx in *; by rewrite TrimSpace_idem|]. split; [apply TrimSpace_idem|].
    split; [done|]. split; [by rewrite Hn|].
    intros Hf. rewrite bool_decide_eq_true_2 in Hn by done. by apply negb_false_iff.
Qed.

(** A text that keeps its nonce needs no node. *)
Lemma evmBuildUnsigned_fixed reader chain network base64Tx tx req (s : readerState (C := C)) :
  IsEVMChain chain = true → decodePayloadTx base64Tx = Ok (tx, req) →
  (TrimSpace (er_FromAddress req) ≠ "" → usesFixedNonce (er_NonceMode req) = true) →
  evmBuildUnsigned reader chain network base64Tx s = (Ok (unsignedResult (TrimSpace base64Tx) tx), s).
Proof.
  intros Hc Hd Hf. unfold evmBuildUnsigned. rewrite Hc, Hd. cbn [negb].
  case_bool_decide as Hn; [|done]. by rewrite Hf.
Qed.
End laws.
