(* ===== verification/ChainService.v ===== *)
(** * Plugins of the chain gateway

    [chain-gateway/internal/dispatcher/router.go]. *)
From S2P Require Import Prelude GoStrings GoNumbers GoCodec Ports KeyRef EvmSend.

(** ** The router, over the plugins [A] *)

Definition wildcardNetwork : string := "*".

Record PluginBinding (A : Type) := { pb_Chain : string; pb_Network : string; pb_Model : string; pb_Adapter : option A }.
Arguments pb_Chain {A} p. Arguments pb_Network {A} p. Arguments pb_Model {A} p. Arguments pb_Adapter {A} p.

Abbreviation Router A := (gmap string (PluginBinding A)).
Definition NewRouter {A} : Router A := ∅.

Definition normalizeNetwork (v : string) : string := ToLower (TrimSpace v).
Definition bindingKey (chain network : string) : string := chain +:+ "|" +:+ network.

Definition Register {A} (binding : PluginBinding A) (r : Router A) : result (Router A) :=
  let chain := NormalizeChain (pb_Chain binding) in
  if decide (chain = "") then Err (Errorf "chain is required") else
  match pb_Adapter binding with
  | None => Err (Errorf "adapter is required")
  | Some adapter =>
      let network := normalizeNetwork (pb_Network binding) in
      if decide (network = "") then Err (Errorf "network is required") else
      Ok (<[bindingKey chain network := {| pb_Chain := chain; pb_Network := network; pb_Model := pb_Model binding;
                                          pb_Adapter := Some adapter |}]> r)
  end.

Definition Resolve {A} (chain network : string) (r : Router A) : result (PluginBinding A) :=
  let c := NormalizeChain chain in
  if decide (c = "") then Err (Errorf "chain is required") else
  let n := normalizeNetwork network in
  if decide (n = "") then Err (Errorf "network is required") else
  match r !! bindingKey c n with
  | Some hit => Ok hit
  | None => from_option_err (Errorf ("chain plugin not configured chain=" +:+ c +:+ " network=" +:+ n))
              (r !! bindingKey c wildcardNetwork)
  end.

(** An exact binding is found again, and hides the wildcard. *)
Lemma Resolve_registered {A} (b : PluginBinding A) r r' chain network :
  Register b r = Ok r' → NormalizeChain chain = NormalizeChain (pb_Chain b) →
  normalizeNetwork network = normalizeNetwork (pb_Network b) →
  ∃ hit, Resolve chain network r' = Ok hit ∧ pb_Adapter hit = pb_Adapter b ∧ pb_Model hit = pb_Model b.
Proof.
  unfold Register, Resolve. cbv zeta. case_decide as Hc; [done|]. destruct (pb_Adapter b) as [a|] eqn:Ha; [|done].
  case_decide as Hn; [done|]. intros [= <-] Hch Hnet. rewrite Hch, Hnet.
  do 2 (rewrite decide_False by done). rewrite lookup_insert_eq. by eexists.
Qed.

(** * The chain gateway's service

    [chain-gateway/internal/service]: [chain_service_read.go],
    [chain_service_build_send.go], [chain_service_address.go],
    [chain_service_common.go], over the account
    adapter of [internal/adapters/account/adapter.go].  A plugin is a record of
    operations on a state [S] of its own. *)
From S2P Require Import Endpoint EvmReader Normalize EvmPlugin.

(** ** Plugins *)

(** The methods of a plugin (and of an adapter) the service uses.  A plugin of
    the account model has none of the UTXO methods. *)
Record ChainPlugin (S : Type) := {
  cp_GetTxByAddress : TxQueryInput → S → result jobject * S;
  cp_GetTxByHash : TxQueryInput → S → result jobject * S;
  cp_GetAccount : AccountInput → S → result AccountResult * S;
  cp_GetUnspentOutputs : string → string → string → S → result jobject * S;
  cp_ConvertAddress : string → string → string → string → S → result string * S;
  cp_SendTx : string → string → string → string → S → result string * S;
  cp_BuildUnsignedAccount : string → string → string → S → result BuildUnsignedResult * S;
  cp_BuildSignedAccount : string → string → string → string → string → S → result string * S;
  cp_BuildUnsignedUTXO : string → string → string → list TxVin → list TxVout → S → result BuildUnsignedResult * S;
  cp_BuildSignedUTXO : string → string → bytes → list bytes → list bytes → S → result bytes * S;
}.
Arguments cp_GetTxByAddress {S} c. Arguments cp_GetTxByHash {S} c. Arguments cp_GetAccount {S} c.
Arguments cp_GetUnspentOutputs {S} c. Arguments cp_ConvertAddress {S} c. Arguments cp_SendTx {S} c.
Arguments cp_BuildUnsignedAccount {S} c. Arguments cp_BuildSignedAccount {S} c.
Arguments cp_BuildUnsignedUTXO {S} c. Arguments cp_BuildSignedUTXO {S} c.

Definition ErrUnsupported : error := Unsupported "unsupported operation".

Section service.
Context {S : Type}.

(** [Adapter]: the plugins by chain. *)
Abbreviation adapter := (gmap string (ChainPlugin S)).

Definition registerPlugin (chain : string) (plugin : ChainPlugin S) (a : adapter) : result adapter :=
  let chain := NormalizeChain chain in
  if decide (chain = "") then Err (Errorf "plugin chain is required") else Ok (<[chain := plugin]> a).

Definition resolvePlugin (chain : string) (a : adapter) : result (ChainPlugin S) :=
  let normalized := NormalizeChain chain in
  if decide (normalized = "") then Err (Errorf "chain is required") else
  from_option_err (Errorf ("account plugin not configured chain=" +:+ normalized)) (a !! normalized).

Definition withPlugin {A} (chain : string) (a : adapter) (f : ChainPlugin S → S → result A * S) (s : S) : result A * S :=
  match resolvePlugin chain a with Ok plugin => f plugin s | Err e => (Err e, s) end.

(** The query as the adapter passes it on. *)
Definition normalizedQuery (inp : TxQueryInput) : TxQueryInput := {|
  tq_Chain := NormalizeChain (tq_Chain inp); tq_Coin := tq_Coin inp; tq_Network := ToLower (TrimSpace (tq_Network inp));
  tq_Address := tq_Address inp; tq_ContractAddress := tq_ContractAddress inp; tq_Hash := tq_Hash inp;
  tq_Page := tq_Page inp; tq_PageSize := tq_PageSize inp; tq_Cursor := tq_Cursor inp |}.

(** The adapter of the account model, itself with the methods of a plugin. *)
Definition accountAdapter (a : adapter) : ChainPlugin S := {|
  cp_GetTxByAddress inp := withPlugin (tq_Chain inp) a (λ p, cp_GetTxByAddress p (normalizedQuery inp));
  cp_GetTxByHash inp := withPlugin (tq_Chain inp) a (λ p, cp_GetTxByHash p (normalizedQuery inp));
  cp_GetAccount inp := withPlugin (ai_Chain inp) a (λ p, cp_GetAccount p {|
    ai_Chain := NormalizeChain (ai_Chain inp); ai_Coin := ai_Coin inp; ai_Network := ToLower (TrimSpace (ai_Network inp));
    ai_Address := ai_Address inp; ai_ContractAddress := ai_ContractAddress inp |});
  cp_GetUnspentOutputs _ _ _ s := (Err ErrUnsupported, s);
  cp_ConvertAddress chain network addrType publicKey :=
    withPlugin chain a (λ p, cp_ConvertAddress p (NormalizeChain chain) (ToLower (TrimSpace network)) addrType publicKey);
  cp_SendTx chain network coin rawTx :=
    withPlugin chain a (λ p, cp_SendTx p (NormalizeChain chain) (ToLower (TrimSpace network)) coin rawTx);
  cp_BuildUnsignedAccount chain network base64Tx :=
    withPlugin chain a (λ p, cp_BuildUnsignedAccount p (NormalizeChain chain) (ToLower (TrimSpace network)) base64Tx);
  cp_BuildSignedAccount chain network base64Tx signature publicKey :=
    withPlugin chain a (λ p, cp_BuildSignedAccount p (NormalizeChain chain) (ToLower (TrimSpace network)) base64Tx
                               signature publicKey);
  cp_BuildUnsignedUTXO _ _ _ _ _ s := (Err ErrUnsupported, s);
  cp_BuildSignedUTXO _ _ _ _ _ s := (Err ErrUnsupported, s);
|}.

(** ** The service *)

(** [transient] is what the gRPC and network libraries say of an error, and
    [cancelled] is [ctx.Err()] during a back-off. *)
Variables (transient : error → bool) (cancelled : S → option error).

Definition retryHints : list string :=
  ["timeout"; "temporarily unavailable"; "connection reset"; "connection refused"; "broken pipe";
   "transport is closing"; "eof"].
Definition isRetryable (e : error) : bool :=
  transient e || existsb (λ hint, Contains (ToLower (error_text e)) hint) retryHints.

(** [attempts] more attempts. *)
Fixpoint retryTimes {A} (attempts : nat) (op : string) (fn : S → result A * S) (s : S) : result A * S :=
  match attempts with
  | O => (Err (Errorf (op +:+ ": retry exhausted")), s)
  | Datatypes.S rest =>
      match fn s with
      | (Ok out, s) => (Ok out, s)
      | (Err e, s) =>
          if negb (isRetryable e) || bool_decide (rest = 0%nat) then (Err (wrap_error op e), s)
          else match cancelled s with Some c => (Err c, s) | None => retryTimes rest op fn s end
      end
  end.
Definition withRetry {A} : string → (S → result A * S) → S → result A * S := retryTimes 3.

Definition validateChainNetwork (chain network : string) : result () :=
  if decide (TrimSpace chain = "" ∨ TrimSpace network = "") then Err (Errorf "chain and network are required") else Ok ().

(** The checks before the adapter: chain and network, the binding. *)
Definition resolveBinding (chain network : string) (r : Router (ChainPlugin S)) : result (PluginBinding (ChainPlugin S)) :=
  _ ← validateChainNetwork chain network; Resolve chain network r.

(** The binding's adapter; [Register] refuses a binding without one. *)
Definition withAdapter {A} (b : PluginBinding (ChainPlugin S)) (f : ChainPlugin S → S → result A * S) (s : S) : result A * S :=
  match pb_Adapter b with Some p => f p s | None => (Err (Errorf "nil adapter"), s) end.

Definition allowEmptyAddressScan (model chain : string) : bool :=
  bool_decide (model = "account") && bool_decide (ToLower (TrimSpace chain) ∈
    ["ethereum"; "binance"; "polygon"; "arbitrum"; "optimism"; "linea"; "scroll"; "mantle"; "zksync"; "base"; "avalanche"]).

Record IncomingTransferInput := {
  ii_Model : string;
  ii_Chain : string;
  ii_Coin : string;
  ii_Network : string;
  ii_Address : string;
  ii_Cursor : string;
  ii_Page : Z;
  ii_PageSize : Z;
  ii_ContractAddress : string;
}.

Definition fetchIncomingRaw (b : PluginBinding (ChainPlugin S)) (inp : IncomingTransferInput) : S → result jobject * S :=
  if decide (pb_Model b = "utxo") then
    withRetry "get-unspent-outputs" (withAdapter b (λ p, cp_GetUnspentOutputs p (pb_Chain b) (ii_Network inp) (ii_Address inp)))
  else
    withRetry "get-tx-by-address" (withAdapter b (λ p, cp_GetTxByAddress p {|
      tq_Chain := pb_Chain b; tq_Coin := ii_Coin inp; tq_Network := ii_Network inp; tq_Address := ii_Address inp;
      tq_ContractAddress := ii_ContractAddress inp; tq_Hash := "";
      tq_Page := if decide (ii_Page inp = 0) then 1 else ii_Page inp;
      tq_PageSize := if decide (ii_PageSize inp = 0) then 50 else ii_PageSize inp; tq_Cursor := ii_Cursor inp |})).

Definition serviceIncoming (r : Router (ChainPlugin S)) (inp : IncomingTransferInput) (s : S)
    : result IncomingTransferResult * S :=
  match resolveBinding (ii_Chain inp) (ii_Network inp) r with
  | Err e => (Err e, s)
  | Ok b =>
      if decide (ii_Model inp ≠ "" ∧ ii_Model inp ≠ pb_Model b) then
        (Err (Errorf ("model mismatch chain=" +:+ ii_Chain inp +:+ " network=" +:+ ii_Network inp +:+ " require="
                      +:+ ii_Model inp +:+ " actual=" +:+ pb_Model b)), s)
      else if decide (TrimSpace (ii_Address inp) = "" ∧ allowEmptyAddressScan (pb_Model b) (pb_Chain b) = false) then
        (Err (Errorf "address is required"), s)
      else
        let '(raw, s) := fetchIncomingRaw b inp s in
        ((λ raw, IncomingTransfers (pb_Model b) (pb_Chain b) raw (ii_Address inp)) <$> raw, s)
  end.

(** A query by hash. *)
Definition hashQuery (chain coin network hash : string) : TxQueryInput := {|
  tq_Chain := chain; tq_Coin := coin; tq_Network := network; tq_Address := ""; tq_ContractAddress := ""; tq_Hash := hash;
  tq_Page := 0; tq_PageSize := 0; tq_Cursor := "" |}.

Definition serviceFinality (r : Router (ChainPlugin S)) (chain coin network txHash : string) (s : S) : result TxFinality * S :=
  match validateChainNetwork chain network with
  | Err e => (Err e, s)
  | Ok _ =>
      if decide (TrimSpace txHash = "") then (Err (Errorf "tx_hash is required"), s) else
      match Resolve chain network r with
      | Err e => (Err e, s)
      | Ok b =>
          let '(raw, s) := withRetry "get-tx-by-hash"
            (withAdapter b (λ p, cp_GetTxByHash p (hashQuery (pb_Chain b) coin network txHash))) s in
          (raw ← raw;
           let out := Finality txHash raw in
           Ok (if decide (TrimSpace (gf_TxHash out) = "") then
                 {| gf_TxHash := txHash; gf_Confirmations := gf_Confirmations out; gf_Status := gf_Status out;
                    gf_Found := gf_Found out |}
               else out), s)
      end
  end.

Definition serviceBalance (r : Router (ChainPlugin S)) (chain coin network address contractAddress : string) (s : S)
    : result BalanceResult * S :=
  match validateChainNetwork chain network with
  | Err e => (Err e, s)
  | Ok _ =>
      if decide (TrimSpace address = "") then (Err (Errorf "address is required"), s) else
      match Resolve chain network r with
      | Err e => (Err e, s)
      | Ok b =>
          let '(acc, s) := withRetry "get-account" (withAdapter b (λ p, cp_GetAccount p {|
            ai_Chain := pb_Chain b; ai_Coin := coin; ai_Network := network; ai_Address := address;
            ai_ContractAddress := contractAddress |})) s in
          ((λ acc, {| gl_Balance := ar_Balance acc; gl_Network := ar_Network acc; gl_Sequence := ar_Sequence acc |}) <$> acc, s)
      end
  end.

Definition serviceConvertAddress (r : Router (ChainPlugin S)) (chain network addrType publicKey : string) (s : S)
    : result string * S :=
  match resolveBinding chain network r with
  | Err e => (Err e, s)
  | Ok b => withRetry "convert-address" (withAdapter b (λ p, cp_ConvertAddress p (pb_Chain b) network addrType publicKey)) s
  end.

(** ** Building and sending *)

Record BuildUnsignedInput := {
  bi_Chain : string;
  bi_Network : string;
  bi_Base64Tx : string;
  bi_Fee : string;
  bi_Vin : list TxVin;
  bi_Vout : list TxVout;
}.

Definition serviceBuildUnsigned (r : Router (ChainPlugin S)) (inp : BuildUnsignedInput) (s : S) : result BuildUnsignedResult * S :=
  match resolveBinding (bi_Chain inp) (bi_Network inp) r with
  | Err e => (Err e, s)
  | Ok b =>
      let utxo op := withRetry op (withAdapter b (λ p,
        cp_BuildUnsignedUTXO p (pb_Chain b) (bi_Network inp) (bi_Fee inp) (bi_Vin inp) (bi_Vout inp))) in
      if decide (bi_Vin inp ≠ [] ∨ bi_Vout inp ≠ [] ∨ bi_Fee inp ≠ "") then utxo "build-unsigned-utxo" s else
      match withRetry "build-unsigned-account" (withAdapter b (λ p,
              cp_BuildUnsignedAccount p (pb_Chain b) (bi_Network inp) (bi_Base64Tx inp))) s with
      | (Ok unsigned, s) => (Ok unsigned, s)
      | (Err e, s) => if is_unsupported e then utxo "build-unsigned-utxo-fallback" s else (Err e, s)
      end
  end.

Definition decodeHexOrBase64 (v : string) : result bytes :=
  if decide (v = "") then Err (Errorf "empty string") else
  match hexDecode (to_bytes v) with
  | Some b => Ok b
  | None => from_option_err (Errorf "illegal base64 data") (DecodeString v)
  end.

(** The loop over signatures and over public keys. *)
Fixpoint decodeEach (what : string) (l : list string) : result (list bytes) :=
  match l with
  | [] => Ok []
  | v :: l =>
      match decodeHexOrBase64 v with
      | Err _ => Err (Errorf ("invalid " +:+ what +:+ " format"))
      | Ok b => rest ← decodeEach what l; Ok (b :: rest)
      end
  end.

Definition buildSignedUTXO (b : PluginBinding (ChainPlugin S)) (network : string) (txData : bytes)
    (signatures publicKeys : list bytes) : S → result bytes * S :=
  withRetry "build-signed-utxo" (withAdapter b (λ p, cp_BuildSignedUTXO p (pb_Chain b) network txData signatures publicKeys)).

Definition buildSignedAccount (b : PluginBinding (ChainPlugin S)) (network base64Tx signature publicKey : string)
    : S → result string * S :=
  withRetry "build-signed-account" (withAdapter b (λ p,
    cp_BuildSignedAccount p (pb_Chain b) network base64Tx signature publicKey)).

(** The raw transaction of a request: its own, or one with the signatures
    attached. *)
Definition rawTransaction (b : PluginBinding (ChainPlugin S)) (inp : BroadcastParams) (s : S) : result string * S :=
  if decide (bc_RawTx inp = "" ∧ bc_UnsignedTx inp ≠ "" ∧ bc_Signatures inp ≠ [] ∧ bc_PublicKeys inp ≠ []) then
    if decide (List.length (bc_Signatures inp) ≠ List.length (bc_PublicKeys inp)) then
      (Err (Errorf "signature count mismatch public_keys count"), s)
    else if decide (pb_Model b = "account") then
      match bc_Signatures inp, bc_PublicKeys inp with
      | [signature], [publicKey] => buildSignedAccount b (bc_Network inp) (bc_UnsignedTx inp) signature publicKey s
      | sigs, pubs => (Err (Errorf ("account model supports single signature, got signatures="
                         +:+ BigString (Z.of_nat (List.length sigs)) +:+ " public_keys="
                         +:+ BigString (Z.of_nat (List.length pubs)))), s)
      end
    else
      match (txData ← from_option_err (Errorf "invalid unsigned_tx, require base64") (DecodeString (bc_UnsignedTx inp));
             sigs ← decodeEach "signature" (bc_Signatures inp);
             pubs ← decodeEach "public key" (bc_PublicKeys inp);
             Ok (txData, sigs, pubs)) with
      | Err e => (Err e, s)
      | Ok (txData, sigs, pubs) =>
          let '(out, s) := buildSignedUTXO b (bc_Network inp) txData sigs pubs s in (of_bytes <$> out, s)
      end
  else (Ok (bc_RawTx inp), s).

Definition serviceSendTx (r : Router (ChainPlugin S)) (inp : BroadcastParams) (s : S) : result string * S :=
  match resolveBinding (bc_Chain inp) (bc_Network inp) r with
  | Err e => (Err e, s)
  | Ok b =>
      match rawTransaction b inp s with
      | (Err e, s) => (Err e, s)
      | (Ok rawTx, s) =>
          if decide (rawTx = "") then (Err (Errorf "raw_tx is required"), s) else
          withRetry "send-tx" (withAdapter b (λ p, cp_SendTx p (pb_Chain b) (bc_Network inp) (bc_Coin inp) rawTx)) s
      end
  end.

(** ** The gRPC server

    [internal/transport/grpc/server.go] passes a request on field by field.
    [rpcError] is what a client sees of an error of the server, and
    [unreachable] a call that does not get there. *)
Variables (rpcError : error → error) (unreachable : S → option error).

Definition remote {A} (call : S → result A * S) (s : S) : result A * S :=
  match unreachable s with
  | Some e => (Err e, s)
  | None => match call s with (Ok a, s) => (Ok a, s) | (Err e, s) => (Err (rpcError e), s) end
  end.
End service.

(** * The chain gateway as it is started

    The EVM plugin ([adapters/account/chains/evm/plugin.go],
    [adapters/account/base_plugin.go]) behind the account adapter and the
    bindings of [internal/bootstrap/bootstrap.go].  The plugins of other chains
    and the adapter of the UTXO model are arguments; geth's curve operations are
    the class [Geth]. *)

Definition evmAccountChains : list string :=
  ["ethereum"; "binance"; "polygon"; "arbitrum"; "optimism"; "linea"; "scroll"; "mantle"; "zksync"].
Definition extraAccountChains : list string := ["cosmos"; "tron"; "aptos"; "sui"; "ton"; "xlm"; "btt"].
Definition defaultUTXOChains : list string := ["bitcoin"; "bitcoincash"; "dash"; "litecoin"; "zen"].

(** The chains of the account model, as the bindings list them. *)
Definition defaultAccountChains : list string := evmAccountChains ++ ["solana"] ++ extraAccountChains.

Definition registerAll {A} (model : string) (adapter : A) (chains : list string) (r : Router A) : result (Router A) :=
  foldl (λ r chain, r ← r; Register {| pb_Chain := NormalizeChain chain; pb_Network := "*"; pb_Model := model;
                                       pb_Adapter := Some adapter |} r) (Ok r) chains.

Definition registerDefaultBindings {A} (accountAdapter utxoAdapter : A) (r : Router A) : result (Router A) :=
  r ← registerAll "account" accountAdapter defaultAccountChains r;
  registerAll "utxo" utxoAdapter defaultUTXOChains r.

(** The adapter of a list of plugins, each with its chain. *)
Definition NewAdapter {S} (plugins : list (string * ChainPlugin S)) : result (gmap string (ChainPlugin S)) :=
  foldl (λ a p, a ← a; registerPlugin (fst p) (snd p) a) (Ok ∅) plugins.

Section wiring.
Context {K} `{Geth K} {C : Type} `{EvmNode C}.
Abbreviation S := (readerState (C := C)).

(** A plugin with the chain it is registered for. *)
Definition New (chain : string) (reader : option Z) : string * ChainPlugin S :=
  let name := NormalizeChain chain in
  (if decide (TrimSpace name = "") then "ethereum" else name, {|
  cp_GetTxByAddress := GetTxByAddress reader; cp_GetTxByHash := GetTxByHash reader; cp_GetAccount := GetAccount reader;
  cp_GetUnspentOutputs _ _ _ s := (Err ErrUnsupported, s);
  cp_ConvertAddress chain _ _ publicKey s := (evmConvertAddress chain publicKey, s);
  cp_SendTx chain network _ rawTx := evmSendTx reader chain network rawTx;
  cp_BuildUnsignedAccount chain network base64Tx := evmBuildUnsigned reader chain network base64Tx;
  cp_BuildSignedAccount chain _ base64Tx signature publicKey s := (evmBuildSigned chain base64Tx signature publicKey, s);
  cp_BuildUnsignedUTXO _ _ _ _ _ s := (Err ErrUnsupported, s); cp_BuildSignedUTXO _ _ _ _ _ s := (Err ErrUnsupported, s) |}).

(** The router of the service: the EVM plugins share one reader. *)
Definition gatewayRouter (reader : option Z) (others : list (string * ChainPlugin S)) (utxoAdapter : ChainPlugin S)
    : result (Router (ChainPlugin S)) :=
  a ← NewAdapter (((λ chain, New chain reader) <$> evmAccountChains) ++ others);
  registerDefaultBindings (accountAdapter a) utxoAdapter NewRouter.
End wiring.
