(* ===== verification/UtxoPlugins.v ===== *)
(** * Plugins of the UTXO chains

    [chain-gateway/internal/adapters/utxo]: [adapter.go], [bridge_plugin.go] and
    the interface [chains/chainadaptor.go] of the source adaptors, then the
    adaptors of Bitcoin ([chains/bitcoin]) and of the chains that are read from
    an explorer ([chains/litecoin], [chains/dash], [chains/bitcoincash]).

    An adaptor may panic, and nothing in the gateway recovers: a panic ends the
    process ([hosted]).  Where a method returns an error the response next to it
    is not looked at, so a method is modelled by one or the other.  btcd, the
    HTTP and RPC clients and protojson are classes. *)
From S2P Require Import Prelude GoStrings GoNumbers GoCodec Ports KeyRef EvmSend Endpoint EvmReader.
From S2P Require Import Normalize EvmPlugin ChainService.

(** ** Calls that may panic *)

Inductive outcome (A : Type) : Type :=
  | Returned (r : result A)
  | Panicked.
Arguments Returned {A} r.
Arguments Panicked {A}.

(** A call made while the rest of the world is [W]. *)
Definition call (W A : Type) : Type := W → outcome A * W.
#[export] Instance call_ret W : MRet (call W) := λ A a w, (Returned (Ok a), w).
#[export] Instance call_bind W : MBind (call W) := λ A B f p w,
  match p w with
  | (Returned (Ok a), w) => f a w
  | (Returned (Err e), w) => (Returned (Err e), w)
  | (Panicked, w) => (Panicked, w)
  end.

Definition returns {W A} (r : result A) : call W A := λ w, (Returned r, w).
Definition panics {W A} : call W A := λ w, (Panicked, w).
Definition asks {W A} (f : W → result A * W) : call W A := λ w, let '(r, w) := f w in (Returned r, w).
(** An outcome that does not depend on the world. *)
Definition ends {W A} (o : outcome A) : call W A := λ w, (o, w).

(** [if err != nil { return nil, errors.Errorf("<what>: %v", err) }] *)
Definition errorsWrap {A} (what : string) (o : outcome A) : outcome A :=
  match o with Returned (Err e) => Returned (Err (Errorf (what +:+ error_text e))) | _ => o end.
Definition wrapping {W A} (what : string) (p : call W A) : call W A := λ w, let '(o, w) := p w in (errorsWrap what o, w).

#[export] Instance outcome_ret : MRet outcome := λ A a, Returned (Ok a).
#[export] Instance outcome_bind : MBind outcome := λ A B f o,
  match o with Returned (Ok a) => f a | Returned (Err e) => Returned (Err e) | Panicked => Panicked end.

(** [for i, x := range l] with an early return. *)
Fixpoint collecting {W A B} (f : A → call W B) (l : list A) : call W (list B) :=
  match l with
  | [] => mret []
  | x :: l => y ← f x; rest ← collecting f l; mret (y :: rest)
  end.

(** *** The process *)

Inductive process (W : Type) : Type :=
  | Up (w : W)
  | Down.
Arguments Up {W} w.
Arguments Down {W}.

(** What the client of a process that is gone sees. *)
Definition processGone : error := Errorf "transport is closing".

Definition hosted {W A} (p : call W A) (s : process W) : result A * process W :=
  match s with
  | Down => (Err processGone, Down)
  | Up w => match p w with (Returned r, w) => (r, Up w) | (Panicked, _) => (Err processGone, Down) end
  end.

(** ** The messages: [chains/rpc/utxo], [chains/rpc/common] *)

Inductive ReturnCode : Type := SUCCESS | ERROR.
Inductive TxStatus : Type := NotFound | Pending | Failed | Success | ContractExecuteFailed | Other.
Definition TxStatus_name (s : TxStatus) : string :=
  match s with
  | NotFound => "NotFound" | Pending => "Pending" | Failed => "Failed" | Success => "Success"
  | ContractExecuteFailed => "ContractExecuteFailed" | Other => "Other"
  end.

(** Every response has a code, a message and fields of its own. *)
Record response (A : Type) := { rs_Code : ReturnCode; rs_Msg : string; rs_Body : A }.
Arguments Build_response {A} _ _ _.
Arguments rs_Code {A} r. Arguments rs_Msg {A} r. Arguments rs_Body {A} r.
Definition success {W A} (msg : string) (a : A) : call W (response A) := mret (Build_response SUCCESS msg a).
(** An answer that reports a failure without an error. *)
Definition refusal {W A} (msg : string) (zero : A) : call W (response A) := mret (Build_response ERROR msg zero).

Record ConvertAddressRequest := { ca_Chain : string; ca_Network : string; ca_Format : string; ca_PublicKey : string }.
Record ValidAddressRequest := { va_Chain : string; va_Network : string; va_Format : string; va_Address : string }.
Record FeeRequest := { fq_Chain : string; fq_Coin : string; fq_Network : string; fq_RawTx : string }.
Record FeeResponse := { fr_BestFee : string; fr_BestFeeSat : string; fr_SlowFee : string; fr_NormalFee : string; fr_FastFee : string }.
Record AccountRequest := { aq_Chain : string; aq_Network : string; aq_Address : string; aq_Brc20Address : string }.
Record AccountResponse := { as_Network : string; as_Balance : string }.
Record UnspentOutputsRequest := { uq_Chain : string; uq_Network : string; uq_Address : string }.
Record UnspentOutput := {
  uo_TxId : string;
  uo_TxHashBigEndian : string;
  uo_TxOutputN : Z;
  uo_Script : string;
  uo_Height : string;
  uo_BlockTime : string;
  uo_Address : string;
  uo_UnspentAmount : string;
  uo_ValueHex : string;
  uo_Confirmations : Z;
  uo_Index : Z;
}.
Record SendTxRequest := { sq_Chain : string; sq_Coin : string; sq_Network : string; sq_RawTx : string }.
Record TxAddressRequest := {
  xa_Chain : string;
  xa_Coin : string;
  xa_Network : string;
  xa_Address : string;
  xa_Page : Z;
  xa_Pagesize : Z;
}.
Record TxHashRequest := { xh_Chain : string; xh_Coin : string; xh_Network : string; xh_Hash : string }.
(** Addresses and values are messages of one text. *)
Record TxMessage := {
  tm_Hash : string;
  tm_Index : Z;
  tm_Froms : list string;
  tm_Tos : list string;
  tm_Values : list string;
  tm_Fee : string;
  tm_Status : TxStatus;
  tm_Type : Z;
  tm_Height : string;
  tm_Brc20Address : string;
  tm_Datetime : string;
}.
Record UnSignTransactionRequest := {
  us_Chain : string;
  us_Network : string;
  us_Fee : string;
  us_Vin : list TxVin;
  us_Vout : list TxVout;
}.
Record UnSignTransactionResponse := { ur_TxData : bytes; ur_SignHashes : list bytes }.
Record SignedTransactionRequest := {
  st_Chain : string;
  st_Network : string;
  st_TxData : bytes;
  st_Signatures : list bytes;
  st_PublicKeys : list bytes;
}.
Record SignedTransactionResponse := { sr_SignedTxData : bytes; sr_Hash : bytes }.

(** The methods the bridge calls. *)
Record IChainAdaptor (W : Type) := {
  ic_ConvertAddress : ConvertAddressRequest → call W (response string);
  ic_ValidAddress : ValidAddressRequest → call W (response bool);
  ic_GetFee : FeeRequest → call W (response FeeResponse);
  ic_GetAccount : AccountRequest → call W (response AccountResponse);
  ic_GetUnspentOutputs : UnspentOutputsRequest → call W (response (list UnspentOutput));
  ic_SendTx : SendTxRequest → call W (response string);
  ic_GetTxByAddress : TxAddressRequest → call W (response (list TxMessage));
  ic_GetTxByHash : TxHashRequest → call W (response TxMessage);
  ic_CreateUnSignTransaction : UnSignTransactionRequest → call W (response UnSignTransactionResponse);
  ic_BuildSignedTransaction : SignedTransactionRequest → call W (response SignedTransactionResponse);
}.
Arguments ic_ConvertAddress {W} i. Arguments ic_ValidAddress {W} i. Arguments ic_GetFee {W} i. Arguments ic_GetAccount {W} i.
Arguments ic_GetUnspentOutputs {W} i. Arguments ic_SendTx {W} i. Arguments ic_GetTxByAddress {W} i.
Arguments ic_GetTxByHash {W} i. Arguments ic_CreateUnSignTransaction {W} i. Arguments ic_BuildSignedTransaction {W} i.

(** ** [protojson.Marshal] and [json.Marshal] of the responses that are passed on *)

Inductive message : Type :=
  | MUnspentOutputs (r : response (list UnspentOutput))
  | MTxByAddress (r : response (list TxMessage))
  | MTxByHash (r : response TxMessage).
Class ProtoJSON := { protojson : message → result jobject; structJSON : message → jobject }.

Definition marshalProtoJSON `{ProtoJSON} (m : message) : jobject :=
  match protojson m with Ok raw => raw | Err _ => structJSON m end.

(** The JSON mapping of proto3: names in lower camel case, a field with its
    zero value left out, a [uint64] as a text and an enumeration by its name. *)
Definition textMember (k v : string) : jobject := if decide (v = "") then [] else [(k, JStr v)].
Definition numberMember (k : string) (v : Z) : jobject := if decide (v = 0) then [] else [(k, jint v)].
Definition uint64Member (k : string) (v : Z) : jobject := if decide (v = 0) then [] else [(k, JStr (BigString v))].
Definition listMember (k : string) (l : list json) : jobject := if decide (l = []) then [] else [(k, JArr l)].
Definition responseMembers {A} (r : response A) : jobject :=
  match rs_Code r with SUCCESS => [] | ERROR => [("code", JStr "ERROR")] end ++ textMember "msg" (rs_Msg r).

Definition unspentMembers (u : UnspentOutput) : jobject :=
  textMember "txId" (uo_TxId u) ++ textMember "txHashBigEndian" (uo_TxHashBigEndian u)
  ++ uint64Member "txOutputN" (uo_TxOutputN u) ++ textMember "script" (uo_Script u) ++ textMember "height" (uo_Height u)
  ++ textMember "blockTime" (uo_BlockTime u) ++ textMember "address" (uo_Address u)
  ++ textMember "unspentAmount" (uo_UnspentAmount u) ++ textMember "valueHex" (uo_ValueHex u)
  ++ uint64Member "confirmations" (uo_Confirmations u) ++ uint64Member "index" (uo_Index u).
Definition texts (k : string) (l : list string) : list json := (λ v, JObj (textMember k v)) <$> l.
Definition txMembers (t : TxMessage) : jobject :=
  textMember "hash" (tm_Hash t) ++ numberMember "index" (tm_Index t) ++ listMember "froms" (texts "address" (tm_Froms t))
  ++ listMember "tos" (texts "address" (tm_Tos t)) ++ textMember "fee" (tm_Fee t)
  ++ match tm_Status t with NotFound => [] | status => [("status", JStr (TxStatus_name status))] end
  ++ listMember "values" (texts "value" (tm_Values t)) ++ numberMember "type" (tm_Type t)
  ++ textMember "height" (tm_Height t) ++ textMember "brc20Address" (tm_Brc20Address t) ++ textMember "datetime" (tm_Datetime t).
Definition messageMembers (m : message) : jobject :=
  match m with
  | MUnspentOutputs r => responseMembers r ++ listMember "unspentOutputs" (JObj ∘ unspentMembers <$> rs_Body r)
  | MTxByAddress r => responseMembers r ++ listMember "tx" (JObj ∘ txMembers <$> rs_Body r)
  | MTxByHash r => responseMembers r ++ [("tx", JObj (txMembers (rs_Body r)))]
  end.
Class ProtoJSONLaws `{ProtoJSON} : Prop := { protojson_spec m : protojson m = Ok (messageMembers m) }.

(** ** [bridge_plugin.go] *)

Record BridgePlugin (W : Type) := {
  bg_chain : string;
  bg_sourceChainName : string;
  bg_adapter : option (IChainAdaptor W);
  bg_initErr : option error;
}.
Arguments bg_chain {W} b. Arguments bg_sourceChainName {W} b. Arguments bg_adapter {W} b. Arguments bg_initErr {W} b.

Definition NewBridgePlugin {W} (chainName sourceChainName : string) (created : result (IChainAdaptor W)) : BridgePlugin W := {|
  bg_chain := ToLower (TrimSpace chainName); bg_sourceChainName := TrimSpace sourceChainName;
  bg_adapter := match created with Ok a => Some a | Err _ => None end;
  bg_initErr := match created with Ok _ => None | Err e => Some e end |}.

Section bridge.
Context {W : Type} `{ProtoJSON}.

Definition ensureReady (p : BridgePlugin W) : result (IChainAdaptor W) :=
  match bg_initErr p with
  | Some e => Err (wrap_error ("utxo chain plugin init failed chain=" +:+ bg_chain p) e)
  | None => from_option_err (Errorf ("utxo chain plugin not initialized chain=" +:+ bg_chain p)) (bg_adapter p)
  end.

Definition expectBridgeCodeOK (code : ReturnCode) (msg : string) : result () :=
  match code with
  | SUCCESS => Ok ()
  | ERROR => Err (Errorf (TrimSpace (if decide (TrimSpace msg = "") then "chain source adapter request failed" else msg)))
  end.

(** What the methods have in common: the adaptor is there, it answers, and the
    code of its answer is SUCCESS. *)
Definition bridged {A} (p : BridgePlugin W) (f : IChainAdaptor W → call W (response A)) : call W (response A) :=
  adapter ← returns (ensureReady p);
  resp ← f adapter;
  _ ← returns (expectBridgeCodeOK (rs_Code resp) (rs_Msg resp));
  mret resp.

Definition bridgeSupportChains (p : BridgePlugin W) (chain : string) : bool := EqualFold (TrimSpace chain) (bg_chain p).

Definition bridgeConvertAddress (p : BridgePlugin W) (network addrType publicKey : string) : call W string :=
  resp ← bridged p (λ a, ic_ConvertAddress a {|
    ca_Chain := bg_sourceChainName p; ca_Network := TrimSpace network; ca_Format := TrimSpace addrType;
    ca_PublicKey := TrimPrefix (TrimSpace publicKey) "0x" |});
  mret (TrimSpace (rs_Body resp)).

Definition bridgeSendTx (p : BridgePlugin W) (network coin rawTx : string) : call W string :=
  resp ← bridged p (λ a, ic_SendTx a {|
    sq_Chain := bg_sourceChainName p; sq_Coin := TrimSpace coin; sq_Network := TrimSpace network; sq_RawTx := TrimSpace rawTx |});
  mret (TrimSpace (rs_Body resp)).

Definition bridgeBuildUnsignedUTXO (p : BridgePlugin W) (network fee : string) (vin : list TxVin) (vout : list TxVout)
    : call W BuildUnsignedResult :=
  resp ← bridged p (λ a, ic_CreateUnSignTransaction a {|
    us_Chain := bg_sourceChainName p; us_Network := TrimSpace network; us_Fee := TrimSpace fee;
    us_Vin := (λ i, {| vin_Hash := TrimSpace (vin_Hash i); vin_Index := vin_Index i; vin_Amount := vin_Amount i;
                       vin_Address := TrimSpace (vin_Address i) |}) <$> vin;
    us_Vout := (λ o, {| vout_Address := TrimSpace (vout_Address o); vout_Amount := vout_Amount o;
                        vout_Index := vout_Index o |}) <$> vout |});
  mret {| br_UnsignedTx := of_bytes (ur_TxData (rs_Body resp)); br_SignHashes := hexEncode <$> ur_SignHashes (rs_Body resp) |}.

Definition bridgeBuildSignedUTXO (p : BridgePlugin W) (network : string) (txData : bytes) (signatures publicKeys : list bytes)
    : call W (bytes * string) :=
  resp ← bridged p (λ a, ic_BuildSignedTransaction a {|
    st_Chain := bg_sourceChainName p; st_Network := TrimSpace network; st_TxData := txData; st_Signatures := signatures;
    st_PublicKeys := publicKeys |});
  mret (sr_SignedTxData (rs_Body resp), hexEncode (sr_Hash (rs_Body resp))).

Definition bridgeValidAddress (p : BridgePlugin W) (network format address : string) : call W bool :=
  resp ← bridged p (λ a, ic_ValidAddress a {|
    va_Chain := bg_sourceChainName p; va_Network := TrimSpace network; va_Format := TrimSpace format;
    va_Address := TrimSpace address |});
  mret (rs_Body resp).

Definition bridgeGetFee (p : BridgePlugin W) (coin network rawTx : string) : call W FeeResponse :=
  resp ← bridged p (λ a, ic_GetFee a {|
    fq_Chain := bg_sourceChainName p; fq_Coin := TrimSpace coin; fq_Network := TrimSpace network; fq_RawTx := TrimSpace rawTx |});
  let r := rs_Body resp in
  mret {| fr_BestFee := TrimSpace (fr_BestFee r); fr_BestFeeSat := TrimSpace (fr_BestFeeSat r);
          fr_SlowFee := TrimSpace (fr_SlowFee r); fr_NormalFee := TrimSpace (fr_NormalFee r);
          fr_FastFee := TrimSpace (fr_FastFee r) |}.

Definition bridgeGetAccount (p : BridgePlugin W) (inp : AccountInput) : call W AccountResult :=
  resp ← bridged p (λ a, ic_GetAccount a {|
    aq_Chain := bg_sourceChainName p; aq_Network := TrimSpace (ai_Network inp); aq_Address := TrimSpace (ai_Address inp);
    aq_Brc20Address := TrimSpace (ai_ContractAddress inp) |});
  mret {| ar_Network := TrimSpace (as_Network (rs_Body resp)); ar_AccountNumber := ""; ar_Sequence := "";
          ar_Balance := TrimSpace (as_Balance (rs_Body resp)) |}.

Definition bridgeGetTxByHash (p : BridgePlugin W) (inp : TxQueryInput) : call W jobject :=
  resp ← bridged p (λ a, ic_GetTxByHash a {|
    xh_Chain := bg_sourceChainName p; xh_Coin := TrimSpace (tq_Coin inp); xh_Network := TrimSpace (tq_Network inp);
    xh_Hash := TrimSpace (tq_Hash inp) |});
  mret (marshalProtoJSON (MTxByHash resp)).

Definition bridgeGetTxByAddress (p : BridgePlugin W) (inp : TxQueryInput) : call W jobject :=
  resp ← bridged p (λ a, ic_GetTxByAddress a {|
    xa_Chain := bg_sourceChainName p; xa_Coin := TrimSpace (tq_Coin inp); xa_Network := TrimSpace (tq_Network inp);
    xa_Address := TrimSpace (tq_Address inp); xa_Page := if decide (tq_Page inp = 0) then 1 else tq_Page inp;
    xa_Pagesize := if decide (tq_PageSize inp = 0) then 50 else tq_PageSize inp |});
  mret (marshalProtoJSON (MTxByAddress resp)).

Definition bridgeGetUnspentOutputs (p : BridgePlugin W) (network address : string) : call W jobject :=
  resp ← bridged p (λ a, ic_GetUnspentOutputs a {|
    uq_Chain := bg_sourceChainName p; uq_Network := TrimSpace network; uq_Address := TrimSpace address |});
  mret (marshalProtoJSON (MUnspentOutputs resp)).

(** The plugin, in the process of the gateway. *)
Definition bridgePlugin (p : BridgePlugin W) : ChainPlugin (process W) := {|
  cp_GetTxByAddress inp := hosted (bridgeGetTxByAddress p inp);
  cp_GetTxByHash inp := hosted (bridgeGetTxByHash p inp);
  cp_GetAccount inp := hosted (bridgeGetAccount p inp);
  cp_GetUnspentOutputs _ network address := hosted (bridgeGetUnspentOutputs p network address);
  cp_ConvertAddress _ network addrType publicKey := hosted (bridgeConvertAddress p network addrType publicKey);
  cp_SendTx _ network coin rawTx := hosted (bridgeSendTx p network coin rawTx);
  cp_BuildUnsignedAccount _ _ _ s := (Err ErrUnsupported, s);
  cp_BuildSignedAccount _ _ _ _ _ s := (Err ErrUnsupported, s);
  cp_BuildUnsignedUTXO _ network fee vin vout := hosted (bridgeBuildUnsignedUTXO p network fee vin vout);
  cp_BuildSignedUTXO _ network txData signatures publicKeys :=
    hosted (out ← bridgeBuildSignedUTXO p network txData signatures publicKeys; mret (fst out)) |}.
End bridge.

(** ** [adapter.go] *)

Section adapter.
Context {S : Type}.
Abbreviation plugins := (gmap string (ChainPlugin S)).

Definition registerUTXO (chain : string) (plugin : ChainPlugin S) (a : plugins) : result plugins :=
  let chain := NormalizeChain chain in
  if decide (chain = "") then Err (Errorf "plugin chain is required") else Ok (<[chain := plugin]> a).

Definition NewUTXOAdapter (l : list (string * ChainPlugin S)) : result plugins :=
  foldl (λ a p, a ← a; registerUTXO (fst p) (snd p) a) (Ok ∅) l.

Definition resolveUTXO (chain : string) (a : plugins) : result (ChainPlugin S) :=
  let normalized := NormalizeChain chain in
  if decide (normalized = "") then Err (Errorf "chain is required") else
  from_option_err (Errorf ("utxo plugin not configured chain=" +:+ normalized)) (a !! normalized).

Definition withUTXO {A} (chain : string) (a : plugins) (f : ChainPlugin S → S → result A * S) (s : S) : result A * S :=
  match resolveUTXO chain a with Ok plugin => f plugin s | Err e => (Err e, s) end.

Definition utxoAdapter (a : plugins) : ChainPlugin S := {|
  cp_GetTxByAddress inp := withUTXO (tq_Chain inp) a (λ p, cp_GetTxByAddress p (normalizedQuery inp));
  cp_GetTxByHash inp := withUTXO (tq_Chain inp) a (λ p, cp_GetTxByHash p (normalizedQuery inp));
  cp_GetAccount inp := withUTXO (ai_Chain inp) a (λ p, cp_GetAccount p {|
    ai_Chain := NormalizeChain (ai_Chain inp); ai_Coin := ai_Coin inp; ai_Network := ToLower (TrimSpace (ai_Network inp));
    ai_Address := ai_Address inp; ai_ContractAddress := ai_ContractAddress inp |});
  cp_GetUnspentOutputs chain network address :=
    withUTXO chain a (λ p, cp_GetUnspentOutputs p (NormalizeChain chain) (ToLower (TrimSpace network)) address);
  cp_ConvertAddress chain network addrType publicKey :=
    withUTXO chain a (λ p, cp_ConvertAddress p (NormalizeChain chain) (ToLower (TrimSpace network)) addrType publicKey);
  cp_SendTx chain network coin rawTx :=
    withUTXO chain a (λ p, cp_SendTx p (NormalizeChain chain) (ToLower (TrimSpace network)) coin rawTx);
  cp_BuildUnsignedAccount _ _ _ s := (Err ErrUnsupported, s);
  cp_BuildSignedAccount _ _ _ _ _ s := (Err ErrUnsupported, s);
  cp_BuildUnsignedUTXO chain network fee vin vout :=
    withUTXO chain a (λ p, cp_BuildUnsignedUTXO p (NormalizeChain chain) (ToLower (TrimSpace network)) fee vin vout);
  cp_BuildSignedUTXO chain network txData signatures publicKeys :=
    withUTXO chain a (λ p, cp_BuildSignedUTXO p (NormalizeChain chain) (ToLower (TrimSpace network)) txData signatures publicKeys) |}.
End adapter.

(** ** What the adaptors of Bitcoin's family use *)

(** Of [chaincfg.Params] the fields the code sets. *)
Record Params := { pm_Net : Z; pm_PubKeyHashAddrID : Z; pm_ScriptHashAddrID : Z; pm_Bech32HRPSegwit : string }.
(** Of [wire.MsgTx]: hashes are 32 bytes. *)
Record TxIn := { ti_Hash : bytes; ti_Index : Z; ti_SignatureScript : bytes; ti_Witness : list bytes; ti_Sequence : Z }.
#[export] Instance TxIn_rebuild : Rebuild TxIn := λ i,
  {| ti_Hash := ti_Hash i; ti_Index := ti_Index i; ti_SignatureScript := ti_SignatureScript i; ti_Witness := ti_Witness i;
     ti_Sequence := ti_Sequence i |}.
Record TxOut := { to_Value : Z; to_PkScript : bytes }.
Record MsgTx := { mt_Version : Z; mt_TxIn : list TxIn; mt_TxOut : list TxOut; mt_LockTime : Z }.
#[export] Instance MsgTx_rebuild : Rebuild MsgTx := λ t,
  {| mt_Version := mt_Version t; mt_TxIn := mt_TxIn t; mt_TxOut := mt_TxOut t; mt_LockTime := mt_LockTime t |}.

(** btcd: keys [btcec], addresses [btcutil], scripts [txscript] and the wire
    format.  [Execute] builds the engine for an input with the standard flags and
    runs it, [SignatureOf] is the DER encoding of the signature with the scalars
    of two byte strings, [ScriptOf] the script that pushes its arguments. *)
Class Btcd := {
  btcaddr : Type;
  btcpub : Type;
  MainNetParams : Params;
  TxVersion : Z;
  Hash160 : bytes → bytes;
  NewAddressPubKeyHash : bytes → Params → result btcaddr;
  NewAddressWitnessPubKeyHash : bytes → Params → result btcaddr;
  NewAddressScriptHash : bytes → Params → result btcaddr;
  NewAddressTaproot : bytes → Params → result btcaddr;
  EncodeAddress : btcaddr → string;
  DecodeAddress : string → Params → result btcaddr;
  IsForNet : btcaddr → Params → bool;
  PayToAddrScript : option btcaddr → result bytes;
  ParsePubKey : bytes → result btcpub;
  IsCompressedPubKey : bytes → bool;
  SerializeCompressed : btcpub → bytes;
  SerializeUncompressed : btcpub → bytes;
  SerializeSchnorr : btcpub → bytes;
  SignatureOf : bytes → bytes → bytes;
  ScriptOf : list bytes → result bytes;
  NewHashFromStr : string → result bytes;
  hash_String : bytes → string;
  Deserialize : bytes → result MsgTx;
  Serialize : MsgTx → result bytes;
  TxHash : MsgTx → bytes;
  CalcSignatureHash : bytes → MsgTx → nat → result bytes;
  Execute : bytes → MsgTx → nat → Z → result ();
  ExtractPkScriptAddrs : bytes → Params → result (list btcaddr);
}.

(** shopspring's decimals, in which amounts are converted. *)
Class Decimals := {
  decimal : Type;
  NewFromString : string → result decimal;
  hundredMillion : decimal;
  decMul : decimal → decimal → decimal;
  decString : decimal → string;
  IntPart : decimal → Z;
}.

Record GasEstimateFeeResponse := {
  ge_BestTransactionFee : string;
  ge_BestTransactionFeeSat : string;
  ge_SlowGasPrice : string;
  ge_StandardGasPrice : string;
  ge_RapidGasPrice : string;
}.
Record AccountUtxoResponse := {
  au_TxId : string;
  au_Height : string;
  au_BlockTime : string;
  au_Address : string;
  au_UnspentAmount : string;
  au_Index : string;
}.
Record AccountTxResponse := {
  at_TxId : string;
  at_From : string;
  at_To : string;
  at_Amount : string;
  at_TxFee : string;
  at_Height : string;
  at_TransactionTime : string;
}.
Record TxResponse := {
  tr_Txid : string;
  tr_InputHashes : list string;
  tr_Outputs : list (string * string);
  tr_Txfee : string;
  tr_Height : string;
  tr_TransactionTime : string;
}.
(** An output of a transaction as a node reports it; the value is the text of
    its [float64]. *)
Record RawVout := { rv_Value : string; rv_Address : string }.

(** The explorer and the node behind [chains/base], for a chain's short name. *)
Class BaseClients (W : Type) := {
  GetEstimateGasFee : string → W → result GasEstimateFeeResponse * W;
  OkLinkBalance : string → string → W → result string * W;
  OkLinkUtxo : string → string → W → result (list AccountUtxoResponse) * W;
  OkLinkTxByAddress : string → string → Z → Z → W → result (list AccountTxResponse) * W;
  OkLinkTxByHash : string → string → W → result TxResponse * W;
  GetRawTransactionVerbose : bytes → W → result (list RawVout) * W;
  SendRawTransaction : MsgTx → W → result bytes * W;
}.

(** [hex.DecodeString] with its error left aside: the bytes before the fault. *)
Fixpoint hexPrefix (l : bytes) : bytes :=
  match l with
  | a :: b :: l' =>
      match hexDigit a, hexDigit b with
      | Some x, Some y => ascii_of_N (16 * x + y) :: hexPrefix l'
      | _, _ => []
      end
  | _ => []
  end.

Section btc_family.
Context {W : Type} `{Btcd} `{BaseClients W} `{Decimals}.

Definition feeResponse (r : GasEstimateFeeResponse) : FeeResponse := {|
  fr_BestFee := ge_BestTransactionFee r; fr_BestFeeSat := ge_BestTransactionFeeSat r; fr_SlowFee := ge_SlowGasPrice r;
  fr_NormalFee := ge_StandardGasPrice r; fr_FastFee := ge_RapidGasPrice r |}.

(** [SendTx] is the same in the four adaptors; a hash that differs is logged. *)
Definition sendRaw (req : SendTxRequest) : call W (response string) :=
  msgTx ← returns (Deserialize (to_bytes (sq_RawTx req)));
  txHash ← asks (SendRawTransaction msgTx);
  success "send tx success" (hash_String txHash).

(** The three formats of addresses of [ConvertAddress] that Bitcoin and Litecoin
    share.  An address that was not made is [nil]: encoding it panics. *)
Definition keyAddress (params : Params) (format : string) (key : bytes) : outcome string :=
  let pubKeyHash := Hash160 key in
  if decide (format = "p2pkh") then
    a ← Returned (NewAddressPubKeyHash pubKeyHash params); mret (EncodeAddress a)
  else if decide (format = "p2wpkh") then
    match NewAddressWitnessPubKeyHash pubKeyHash params with
    | Ok a => mret (EncodeAddress a)
    | Err _ => Panicked
    end
  else if decide (format = "p2sh") then
    let witnessAddr := match NewAddressWitnessPubKeyHash pubKeyHash params with Ok a => Some a | Err _ => None end in
    script ← Returned (PayToAddrScript witnessAddr);
    a ← Returned (NewAddressScriptHash script params);
    mret (EncodeAddress a)
  else Returned (Err (Errorf "Do not support address type")).

(** [ValidAddress] of Bitcoin, which Litecoin has as it is. *)
Definition validMainNet (req : ValidAddressRequest) : call W (response bool) :=
  match DecodeAddress (va_Address req) MainNetParams with
  | Err e => refusal (error_text e) false
  | Ok address =>
      if IsForNet address MainNetParams then success "verify address success" true
      else refusal "address is not valid for this network" false
  end.

(** *** Bitcoin: [chains/bitcoin/bitcoin.go], [blockchain.go], [utils.go] *)

Record TxsItem := {
  xi_Hash : string;
  xi_Fee : Z;
  xi_Time : Z;
  xi_BlockHeight : Z;
  xi_Inputs : list string;
  xi_Out : list (string * Z);
}.
Record BtcUnspentOutput := {
  bu_TxHashBigEndian : string;
  bu_TxHash : string;
  bu_TxOutputN : Z;
  bu_Script : string;
  bu_Value : Z;
  bu_ValueHex : string;
  bu_Confirmations : Z;
  bu_TxIndex : Z;
}.

(** The REST client: a path is answered with a status and the decoded body.
    Balances are by address. *)
Class BlockchainInfo := {
  rest_balances : string → W → result (Z * list (string * Z)) * W;
  rest_unspent : string → W → result (Z * list BtcUnspentOutput) * W;
  rest_address : string → W → result (Z * list TxsItem) * W;
  rest_tx : string → W → result (Z * TxsItem) * W;
}.

(** What every method of the client does with an answer. *)
Definition restAnswer {A} (what failed : string) (f : W → result (Z * A) * W) : call W A := λ w,
  match f w with
  | (Err e, w) => (Returned (Err (wrap_error what e)), w)
  | (Ok (status, a), w) => (Returned (if decide (status = 200) then Ok a else Err (Errorf failed)), w)
  end.

Section bitcoin.
Context `{BlockchainInfo}.

Definition GetAccountBalance (address : string) : call W string :=
  accountBalance ← restAnswer "cannot get account balance" "get account balance fail" (rest_balances ("/balance?active=" +:+ address));
  match assoc address accountBalance with Some v => mret (BigString v) | None => panics end.
Definition GetAccountUtxo (address : string) : call W (list BtcUnspentOutput) :=
  restAnswer "cannot utxo fail" "get account counter fail" (rest_unspent ("/unspent?active=" +:+ address)).
Definition GetTransactionsByAddress (address pageSize page : string) : call W (list TxsItem) :=
  restAnswer "cannot utxo fail" "get account counter fail"
    (rest_address ("/rawaddr/" +:+ address +:+ "?limit=" +:+ pageSize +:+ "&offset=" +:+ page)).
Definition GetTransactionsByHash (txHash : string) : call W TxsItem :=
  restAnswer "cannot utxo fail" "get account counter fail" (rest_tx ("/rawtx/" +:+ txHash)).

Definition btcConvertAddress (req : ConvertAddressRequest) : call W (response string) :=
  let key := hexPrefix (to_bytes (ca_PublicKey req)) in
  address ← ends (if decide (ca_Format req = "p2tr") then
                    pub ← Returned (ParsePubKey key);
                    a ← Returned (NewAddressTaproot (SerializeSchnorr pub) MainNetParams);
                    mret (EncodeAddress a)
                  else keyAddress MainNetParams (ca_Format req) key);
  success "create address success" address.

Definition btcGetFee (req : FeeRequest) : call W (response FeeResponse) :=
  r ← asks (GetEstimateGasFee "BTC"); success "get fee success" (feeResponse r).

Definition btcGetAccount (req : AccountRequest) : call W (response AccountResponse) :=
  balance ← GetAccountBalance (aq_Address req);
  success "get btc balance success" {| as_Network := ""; as_Balance := balance |}.

Definition btcGetUnspentOutputs (req : UnspentOutputsRequest) : call W (response (list UnspentOutput)) :=
  utxoList ← GetAccountUtxo (uq_Address req);
  success "get unspent outputs success" ((λ value, {|
    uo_TxId := bu_TxHash value; uo_TxHashBigEndian := bu_TxHashBigEndian value; uo_TxOutputN := bu_TxOutputN value;
    uo_Script := bu_Script value; uo_Height := ""; uo_BlockTime := ""; uo_Address := "";
    uo_UnspentAmount := BigString (bu_Value value); uo_ValueHex := ""; uo_Confirmations := 0;
    uo_Index := bu_TxIndex value |}) <$> utxoList).

Definition btcTxMessage (t : TxsItem) (direction : Z) : TxMessage := {|
  tm_Hash := xi_Hash t; tm_Index := 0; tm_Froms := xi_Inputs t; tm_Tos := fst <$> xi_Out t;
  tm_Values := (λ o, BigString (snd o)) <$> xi_Out t; tm_Fee := BigString (xi_Fee t); tm_Status := Success;
  tm_Type := direction; tm_Height := BigString (xi_BlockHeight t); tm_Brc20Address := ""; tm_Datetime := BigString (xi_Time t) |}.

(** [from_addrs[0]] panics when a transaction has no inputs. *)
Definition directionOf (address : string) (froms : list string) : outcome Z :=
  match froms with [] => Panicked | from :: _ => mret (if EqualFold address from then 0 else 1) end.

Definition btcGetTxByAddress (req : TxAddressRequest) : call W (response (list TxMessage)) :=
  transaction ← GetTransactionsByAddress (xa_Address req) (BigString (xa_Page req)) (BigString (xa_Pagesize req));
  tx_list ← collecting (λ t, direction ← ends (directionOf (xa_Address req) (xi_Inputs t)); mret (btcTxMessage t direction)) transaction;
  success "get transaction list success" tx_list.

Definition btcGetTxByHash (req : TxHashRequest) : call W (response TxMessage) :=
  transaction ← GetTransactionsByHash (xh_Hash req);
  success "get transaction success" (btcTxMessage transaction 0).

(** *** Transactions *)

Definition newTxIn (v : TxVin) : result TxIn :=
  utxoHash ← NewHashFromStr (vin_Hash v);
  Ok {| ti_Hash := utxoHash; ti_Index := vin_Index v; ti_SignatureScript := []; ti_Witness := []; ti_Sequence := 2 ^ 32 - 1 |}.
Definition addressScript (address : string) : result bytes :=
  a ← DecodeAddress address MainNetParams; PayToAddrScript (Some a).
Definition newTxOut (o : TxVout) : result TxOut :=
  toPkScript ← addressScript (vout_Address o); Ok {| to_Value := vout_Amount o; to_PkScript := toPkScript |}.

(** The loops of [CalcSignHashes]: each stops at its first error. *)
Fixpoint eachOf {A B} (f : A → result B) (l : list A) : result (list B) :=
  match l with [] => Ok [] | x :: l => y ← f x; rest ← eachOf f l; Ok (y :: rest) end.

Definition unsignedTx (Vins : list TxVin) (Vouts : list TxVout) : result MsgTx :=
  ins ← eachOf newTxIn Vins;
  outs ← eachOf newTxOut Vouts;
  Ok {| mt_Version := TxVersion; mt_TxIn := ins; mt_TxOut := outs; mt_LockTime := 0 |}.

Definition signHashOf (rawTx : MsgTx) (e : nat * TxVin) : result bytes :=
  fromPkScript ← addressScript (vin_Address (snd e)); CalcSignatureHash fromPkScript rawTx (fst e).

(** The hashes, and the bytes of a buffer that was made but not written to. *)
Definition CalcSignHashes (Vins : list TxVin) (Vouts : list TxVout) : result (list bytes * bytes) :=
  if decide (Vins = [] ∨ Vouts = []) then Err (Errorf "invalid len in or out") else
  rawTx ← unsignedTx Vins Vouts;
  signHashes ← eachOf (signHashOf rawTx) (zip (seq 0 (List.length Vins)) Vins);
  Ok (signHashes, []).

Definition btcCreateUnSignTransaction (req : UnSignTransactionRequest) : call W (response UnSignTransactionResponse) :=
  r ← returns (CalcSignHashes (us_Vin req) (us_Vout req));
  success "create un sign transaction success" {| ur_TxData := snd r; ur_SignHashes := fst r |}.

(** [None] is a nil [*big.Int]. *)
Definition btcToSatoshi (btcCount : string) : option Z :=
  match NewFromString btcCount with
  | Ok amountDm => SetString10 (decString (decMul amountDm hundredMillion))
  | Err _ => None
  end.

(** One input of [BuildSignedTransaction]. *)
Definition signInput (signatures publicKeys : list bytes) (i : nat) (inp : TxIn) (msgTx : MsgTx) : call W MsgTx :=
  let publicKey := default [] (publicKeys !! i) in
  let signature := default [] (signatures !! i) in
  btcecPub ← returns (ParsePubKey publicKey);
  let pkData := if IsCompressedPubKey publicKey then SerializeCompressed btcecPub else SerializeUncompressed btcecPub in
  preTx ← asks (GetRawTransactionVerbose (ti_Hash inp));
  match preTx !! Z.to_nat (ti_Index inp) with
  | None => panics
  | Some out =>
      fromPkScript ← returns (addressScript (rv_Address out));
      if decide (List.length signature < 64)%nat then returns (Err (Errorf "Invalid signature length")) else
      let sig := SignatureOf (take 32 signature) (take 32 (drop 32 signature)) ++ [byte_of 1] in
      sigScript ← returns (ScriptOf [sig; pkData]);
      let msgTx := msgTx <| mt_TxIn ::= alter (λ t, t <| ti_SignatureScript := sigScript |>) i |> in
      match btcToSatoshi (rv_Value out) with
      | None => panics
      | Some amount => _ ← returns (Execute fromPkScript msgTx i (wrap64 amount)); mret msgTx
      end
  end.

Fixpoint signInputs (signatures publicKeys : list bytes) (i : nat) (ins : list TxIn) (msgTx : MsgTx) : call W MsgTx :=
  match ins with
  | [] => mret msgTx
  | inp :: ins => msgTx ← signInput signatures publicKeys i inp msgTx; signInputs signatures publicKeys (S i) ins msgTx
  end.

Definition btcBuildSignedTransaction (req : SignedTransactionRequest) : call W (response SignedTransactionResponse) :=
  msgTx ← returns (Deserialize (st_TxData req));
  if decide (List.length (st_Signatures req) ≠ List.length (mt_TxIn msgTx)) then
    returns (Err (Errorf "Signature number != Txin number"))
  else if decide (List.length (st_PublicKeys req) ≠ List.length (mt_TxIn msgTx)) then
    returns (Err (Errorf "Pubkey number != Txin number"))
  else
  msgTx ← signInputs (st_Signatures req) (st_PublicKeys req) 0 (mt_TxIn msgTx) msgTx;
  buf ← returns (Serialize msgTx);
  success "" {| sr_SignedTxData := buf; sr_Hash := TxHash msgTx |}.

(** *** Reading a transaction back *)

Record DecodeTxRes := {
  dt_Hash : string;
  dt_SignHashes : list bytes;
  dt_Vins : list TxVin;
  dt_Vouts : list TxVout;
  dt_CostFee : Z;
}.

(** An input given by the caller is completed in place. *)
Definition GetVin (offline : bool) (vins : list TxVin) (index : nat) (inp : TxIn) : call W TxVin :=
  vin ← (if offline then match vins !! index with Some v => mret v | None => panics end
         else
           preTx ← asks (GetRawTransactionVerbose (ti_Hash inp));
           match preTx !! Z.to_nat (ti_Index inp) with
           | None => panics
           | Some out =>
               match btcToSatoshi (rv_Value out) with
               | None => panics
               | Some v => mret {| vin_Hash := ""; vin_Index := 0; vin_Amount := wrap64 v; vin_Address := rv_Address out |}
               end
           end);
  mret {| vin_Hash := hash_String (ti_Hash inp); vin_Index := ti_Index inp; vin_Amount := vin_Amount vin;
          vin_Address := vin_Address vin |}.

Definition VerifySign (vin : TxVin) (msgTx : MsgTx) (index : nat) : result () :=
  fromPkScript ← addressScript (vin_Address vin); Execute fromPkScript msgTx index (vin_Amount vin).

Definition DecodeVins (msgTx : MsgTx) (offline : bool) (vins : list TxVin) (sign : bool) : call W (list TxVin * Z) :=
  ins ← collecting (λ e : nat * TxIn,
          vin ← GetVin offline vins (fst e) (snd e);
          _ ← returns (if sign then VerifySign vin msgTx (fst e) else Ok ());
          mret vin) (zip (seq 0 (List.length (mt_TxIn msgTx))) (mt_TxIn msgTx));
  mret (ins, foldr Z.add 0 (vin_Amount <$> ins)).

(** [pubkeyAddrs[0]] panics on a script that pays no address. *)
Definition DecodeVouts (msgTx : MsgTx) : call W (list TxVout * Z) :=
  outs ← collecting (λ out,
           addrs ← returns (ExtractPkScriptAddrs (to_PkScript out) MainNetParams);
           match addrs with
           | [] => panics
           | a :: _ => mret {| vout_Address := EncodeAddress a; vout_Amount := to_Value out; vout_Index := 0 |}
           end) (mt_TxOut msgTx);
  mret (outs, foldr Z.add 0 (vout_Amount <$> outs)).

Definition DecodeTx (txData : bytes) (vins : list TxVin) (sign : bool) : call W DecodeTxRes :=
  msgTx ← returns (Deserialize txData);
  let offline := bool_decide (vins ≠ []) in
  if decide (offline = true ∧ List.length vins ≠ List.length (mt_TxIn msgTx)) then
    returns (Err (Errorf "the length of deserialized tx's in differs from vin"))
  else
  ins ← DecodeVins msgTx offline vins sign;
  outs ← DecodeVouts msgTx;
  hashes ← returns (CalcSignHashes (fst ins) (fst outs));
  mret {| dt_Hash := if sign then hash_String (TxHash msgTx) else ""; dt_SignHashes := fst hashes; dt_Vins := fst ins;
          dt_Vouts := fst outs; dt_CostFee := snd ins - snd outs |}.

Definition DecodeTransaction (rawData : bytes) (vins : list TxVin) : call W (response (DecodeTxRes * TxStatus)) :=
  res ← DecodeTx rawData vins false; success "decode transaction response" (res, Other).

(** The request is not looked at. *)
Definition VerifySignedTransaction : call W (response bool) :=
  _ ← DecodeTx [] [] true; success "verify transaction success" true.

Definition bitcoinAdaptor : IChainAdaptor W := {|
  ic_ConvertAddress := btcConvertAddress; ic_ValidAddress := validMainNet; ic_GetFee := btcGetFee;
  ic_GetAccount := btcGetAccount; ic_GetUnspentOutputs := btcGetUnspentOutputs; ic_SendTx := sendRaw;
  ic_GetTxByAddress := btcGetTxByAddress; ic_GetTxByHash := btcGetTxByHash;
  ic_CreateUnSignTransaction := btcCreateUnSignTransaction; ic_BuildSignedTransaction := btcBuildSignedTransaction |}.
End bitcoin.

(** *** Litecoin, Dash and Bitcoin Cash: [chains/litecoin], [chains/dash],
    [chains/bitcoincash]

    The three are read from an explorer, under a short name and with messages of
    their own. *)

Record explorerChain := {
  xc_ShortName : string;
  xc_FeeMsg : string;
  xc_AccountMsg : string;
  xc_UtxoMsg : string;
}.
Definition litecoinChain := {| xc_ShortName := "LTC"; xc_FeeMsg := "get litcoin fee success";
  xc_AccountMsg := "Get litecoin account info success"; xc_UtxoMsg := "get ltc utxo success" |}.
Definition dashChain := {| xc_ShortName := "Dash"; xc_FeeMsg := "get dash fee success";
  xc_AccountMsg := "Get dash account info success"; xc_UtxoMsg := "get dash utxo success" |}.
Definition bitcoincashChain := {| xc_ShortName := "BCH"; xc_FeeMsg := "get bch fee success";
  xc_AccountMsg := "Get bch account info success"; xc_UtxoMsg := "get bitcoin cash utxo success" |}.

Definition explorerGetFee (c : explorerChain) (req : FeeRequest) : call W (response FeeResponse) :=
  r ← asks (GetEstimateGasFee (xc_ShortName c)); success (xc_FeeMsg c) (feeResponse r).

Definition explorerGetAccount (c : explorerChain) (req : AccountRequest) : call W (response AccountResponse) :=
  balance ← asks (OkLinkBalance (xc_ShortName c) (aq_Address req));
  success (xc_AccountMsg c) {| as_Network := ""; as_Balance := balance |}.

(** [uint64(txOutN)] of [txOutN, _ := strconv.Atoi(...)] *)
Definition outputNumber (index : string) : Z := parsedInt64 index mod 2 ^ 64.

Definition explorerGetUnspentOutputs (c : explorerChain) (req : UnspentOutputsRequest) : call W (response (list UnspentOutput)) :=
  utxoList ← asks (OkLinkUtxo (xc_ShortName c) (uq_Address req));
  success (xc_UtxoMsg c) ((λ utxoItem, {|
    uo_TxId := au_TxId utxoItem; uo_TxHashBigEndian := ""; uo_TxOutputN := outputNumber (au_Index utxoItem);
    uo_Script := ""; uo_Height := au_Height utxoItem; uo_BlockTime := au_BlockTime utxoItem;
    uo_Address := au_Address utxoItem; uo_UnspentAmount := au_UnspentAmount utxoItem; uo_ValueHex := "";
    uo_Confirmations := 0; uo_Index := outputNumber (au_Index utxoItem) |}) <$> utxoList).

Definition explorerGetTxByAddress (c : explorerChain) (req : TxAddressRequest) : call W (response (list TxMessage)) :=
  l ← asks (OkLinkTxByAddress (xc_ShortName c) (xa_Address req) (xa_Page req) (xa_Pagesize req));
  success "get transaction list success" ((λ t, {|
    tm_Hash := at_TxId t; tm_Index := 0; tm_Froms := [at_From t]; tm_Tos := [at_To t]; tm_Values := [at_Amount t];
    tm_Fee := at_TxFee t; tm_Status := Success; tm_Type := if EqualFold (xa_Address req) (at_From t) then 0 else 1;
    tm_Height := at_Height t; tm_Brc20Address := ""; tm_Datetime := at_TransactionTime t |}) <$> l).

(** [toAddrs = append(fromAddrs, ...)]: the senders and the last output. *)
Definition explorerGetTxByHash (c : explorerChain) (req : TxHashRequest) : call W (response TxMessage) :=
  t ← asks (OkLinkTxByHash (xc_ShortName c) (xh_Hash req));
  success "get transaction detail success" {|
    tm_Hash := tr_Txid t; tm_Index := 0; tm_Froms := tr_InputHashes t;
    tm_Tos := match last (tr_Outputs t) with Some out => tr_InputHashes t ++ [fst out] | None => [] end;
    tm_Values := snd <$> tr_Outputs t; tm_Fee := tr_Txfee t; tm_Status := Success; tm_Type := 0;
    tm_Height := tr_Height t; tm_Brc20Address := ""; tm_Datetime := tr_TransactionTime t |}.

(** The methods that are not written panic. *)
Definition explorerAdaptor (c : explorerChain) (convert : ConvertAddressRequest → call W (response string))
    (valid : ValidAddressRequest → call W (response bool)) : IChainAdaptor W := {|
  ic_ConvertAddress := convert; ic_ValidAddress := valid; ic_GetFee := explorerGetFee c; ic_GetAccount := explorerGetAccount c;
  ic_GetUnspentOutputs := explorerGetUnspentOutputs c; ic_SendTx := sendRaw; ic_GetTxByAddress := explorerGetTxByAddress c;
  ic_GetTxByHash := explorerGetTxByHash c; ic_CreateUnSignTransaction _ := panics; ic_BuildSignedTransaction _ := panics |}.

(** [litecoin/common.go] *)
Definition customParams : Params :=
  {| pm_Net := 0xdbb6c0fb; pm_PubKeyHashAddrID := 0x30; pm_ScriptHashAddrID := 0x32; pm_Bech32HRPSegwit := "ltc" |}.

Definition ltcConvertAddress (req : ConvertAddressRequest) : call W (response string) :=
  address ← ends (keyAddress customParams (ca_Format req) (hexPrefix (to_bytes (ca_PublicKey req))));
  success "create address success" address.

Definition litecoinAdaptor : IChainAdaptor W := explorerAdaptor litecoinChain ltcConvertAddress validMainNet.
Definition dashAdaptor : IChainAdaptor W := explorerAdaptor dashChain (λ _, panics) (λ _, panics).
Definition bitcoincashAdaptor : IChainAdaptor W := explorerAdaptor bitcoincashChain (λ _, panics) (λ _, panics).
End btc_family.
