(* ===== verification/Zen.v ===== *)
(** * Horizen: transactions, addresses and the adaptor

    [chain-gateway/internal/adapters/utxo/chains/zen]: [util/util.go] (variable
    length integers, scripts, addresses, serialising a transaction and the hash
    that is signed), [blockchain.go] (the REST client and the reader of
    transactions) and [zen.go] (the adaptor).

    Base58, HASH160 and gob are classes.  [SignatureForm] copies a transaction
    through JSON, which keeps the texts that [SerializeTX] accepts. *)
From S2P Require Import Prelude GoStrings GoNumbers GoCodec Ports KeyRef EvmSend Endpoint EvmReader.
From S2P Require Import Normalize EvmPlugin ChainService UtxoPlugins.

(** ** Bytes of machine integers *)

Definition byteOf (v : Z) : ascii := byte_of (Z.to_N (v mod 256)).
Definition valueOf (a : ascii) : Z := Z.of_N (N_of_ascii a).

(** [binary.LittleEndian.PutUint..] and [Uint..] over [n] bytes. *)
Fixpoint putLE (n : nat) (v : Z) : bytes := match n with O => [] | S n => byteOf v :: putLE n (v / 256) end.
Fixpoint getLE (l : bytes) : Z := match l with [] => 0 | a :: l => valueOf a + 256 * getLE l end.

(** [buf[lo:hi]] *)
Definition slice (buf : bytes) (lo hi : Z) : outcome bytes :=
  if decide (0 ≤ lo ≤ hi ∧ hi ≤ Z.of_nat (List.length buf)) then
    mret (take (Z.to_nat (hi - lo)) (drop (Z.to_nat lo) buf))
  else Panicked.

(** [hex.DecodeString] as a result. *)
Definition decodeHex (s : string) : result bytes := from_option_err (Errorf "encoding/hex: invalid") (hexDecode (to_bytes s)).

(** ** [util/util.go]: variable length integers *)

Definition NumToVarInt (num : Z) : string :=
  hexEncode (if decide (num < 0xfd) then [byteOf num]
             else if decide (num ≤ 0xffff) then byteOf 0xfd :: putLE 2 num
             else if decide (num ≤ 0xffffffff) then byteOf 0xfe :: putLE 4 num
             else byteOf 0xff :: putLE 8 num).

(** The value and the number of bytes read, 0 for none. *)
Definition ReadVarInt (buf : bytes) (offset : Z) : Z * Z :=
  match drop (Z.to_nat offset) buf with
  | [] => (0, 0)
  | first :: rest =>
      let v := valueOf first in
      let sized (n : nat) := if decide (List.length rest < n)%nat then (0, 0) else (getLE (take n rest), Z.of_nat n + 1) in
      if decide (v < 0xfd) then (v, 1)
      else if decide (v = 0xfd) then sized 2%nat
      else if decide (v = 0xfe) then sized 4%nat
      else sized 8%nat
  end.

Definition ReverseBytes (data : bytes) : bytes := List.rev data.

Definition GetPushDataLength (s : string) : result string :=
  match hexDecode (to_bytes s) with
  | None => Err (Errorf "hex decode error: encoding/hex: invalid")
  | Some data => Ok (NumToVarInt (Z.of_nat (List.length data)))
  end.

(** ** Block heights in scripts *)

Definition scriptNumSize (number : Z) : nat :=
  if decide (0x7fffffff < number) then 5 else if decide (0x7fffff < number) then 4
  else if decide (0x7fff < number) then 3 else if decide (0x7f < number) then 2
  else if decide (0 ≤ number) then 1 else 0.

(** The last byte is changed; without one the index is out of range. *)
Definition signByte (negative : bool) (last : ascii) : ascii :=
  if decide (Z.land (valueOf last) 0x80 ≠ 0) then (if negative then byteOf 0x80 else byteOf 0)
  else if negative then byteOf (Z.lor (valueOf last) 0x80) else last.

Definition scriptNumEncode (number : Z) : outcome bytes :=
  let negative := bool_decide (number < 0) in
  let value := if negative then wrap64 (- number) else number in
  match List.rev (putLE (scriptNumSize value) value) with
  | [] => Panicked
  | last :: front => mret (List.rev (signByte negative last :: front))
  end.

Definition OP_DUP : string := "76".
Definition OP_HASH160 : string := "a9".
Definition OP_EQUALVERIFY : string := "88".
Definition OP_CHECKSIG : string := "ac".
Definition OP_CHECKBLOCKATHEIGHT : string := "b4".
Definition OP_EQUAL : string := "87".
Definition OP_1 : string := "51".

(** [num, _ := strconv.Atoi(op)]: in decimal. *)
Definition OPGetNum (op : string) : Z := parsedInt64 op.

Definition serializeScriptBlockHeight (blockHeight : Z) : outcome string :=
  if decide (-1 ≤ blockHeight ≤ 16) then
    mret (BigString (if decide (0 ≤ blockHeight ≤ 16) then blockHeight + OPGetNum OP_1 - 1 else 0))
  else
    blockHeightBuffer ← scriptNumEncode blockHeight;
    let blockHeightHex := hexEncode blockHeightBuffer in
    blockHeightHexLength ← Returned (GetPushDataLength blockHeightHex);
    mret (blockHeightHexLength +:+ blockHeightHex).

(** ** Addresses *)

Definition pubKeyHash : bytes := [byteOf 0x20; byteOf 0x89].
Definition scriptHash : bytes := [byteOf 0x20; byteOf 0x96].

(** btcutil's [base58] and [Hash160]. *)
Class Base58 := {
  b58Decode : string → bytes;
  b58Encode : bytes → string;
  CheckDecode : string → bytes * ascii * option error;
  hash160 : bytes → bytes;
}.

(** ** Transactions: [types/types.go] *)

Record ParamIn := { pi_TXID : string; pi_Vout : Z; pi_ScriptPubKey : string }.
Record ParamOut := { po_Address : string; po_Satoshis : Z }.
Record TXObjectInputParam := {
  tp_BlockHeight : Z;
  tp_BlockHash : string;
  tp_ParamIns : list ParamIn;
  tp_ParamOuts : list ParamOut;
}.
Record Ins := { in_Hash : string; in_Vout : Z; in_Script : string; in_PrevScriptPubKey : string; in_Sequence : string }.
Record Outs := { out_Satoshis : Z; out_Script : string }.
Record TXObject := { tx_LockTime : Z; tx_Version : Z; tx_Ins : list Ins; tx_Outs : list Outs }.
#[export] Instance Ins_rebuild : Rebuild Ins := λ i,
  {| in_Hash := in_Hash i; in_Vout := in_Vout i; in_Script := in_Script i; in_PrevScriptPubKey := in_PrevScriptPubKey i;
     in_Sequence := in_Sequence i |}.
#[export] Instance TXObject_rebuild : Rebuild TXObject := λ t,
  {| tx_LockTime := tx_LockTime t; tx_Version := tx_Version t; tx_Ins := tx_Ins t; tx_Outs := tx_Outs t |}.

Section util.
Context `{Base58} `{Sha256}.

Definition DoubleSha256 (data : bytes) : bytes := sha256 (sha256 data).
Definition checksum (payload : bytes) : bytes := take 4 (DoubleSha256 payload).

Definition ValidAddress (address : string) : result string :=
  let addressBytes := b58Decode address in
  let n := List.length addressBytes in
  if decide ((7 ≤ n)%nat ∧ (bytes_prefix pubKeyHash addressBytes || bytes_prefix scriptHash addressBytes) = true) then
    let splitHash := drop 2 (take (n - 4) addressBytes) in
    let splitChecksum := drop (n - 4) addressBytes in
    if decide (splitChecksum = checksum (pubKeyHash ++ splitHash)) then
      Ok (if bytes_prefix pubKeyHash addressBytes then "verify address success, It is p2pkh address"
          else "verify address success, It is p2sh address")
    else Err (Errorf "verify address fail, checksum error")
  else Err (Errorf "verify address fail, It is not a valid address").

Definition PublicKeyToAddress (publicKey : string) : result string :=
  compressedPubKeyBytes ← decodeHex publicKey;
  let payload := pubKeyHash ++ hash160 compressedPubKeyBytes in
  Ok (b58Encode (payload ++ checksum payload)).

(** ** Scripts that pay an address, bound to a recent block *)

(** [addrHex[4:]] of the version and the data behind it. *)
Definition subAddrHex (address : string) : outcome string :=
  let '(data, version, _) := CheckDecode address in
  let addrHex := to_bytes (hexEncode (version :: data)) in
  sub ← slice addrHex 4 (Z.of_nat (List.length addrHex)); mret (of_bytes sub).

(** The pushes of both scripts: the address, the block's hash and height. *)
Definition replayParts (address : string) (blockHeight : Z) (blockHash : string) : outcome (string * string) :=
  sub ← subAddrHex address;
  hash ← Returned (decodeHex blockHash);
  let reverted := hexEncode (ReverseBytes hash) in
  subLength ← Returned (GetPushDataLength sub);
  hashLength ← Returned (GetPushDataLength reverted);
  height ← serializeScriptBlockHeight blockHeight;
  mret (subLength +:+ sub, hashLength +:+ reverted +:+ height).

Definition mkPubkeyHashReplayScript (address : string) (blockHeight : Z) (blockHash : string) : outcome string :=
  parts ← replayParts address blockHeight blockHash;
  mret (OP_DUP +:+ OP_HASH160 +:+ fst parts +:+ OP_EQUALVERIFY +:+ OP_CHECKSIG +:+ snd parts +:+ OP_CHECKBLOCKATHEIGHT).

Definition mkScriptHashReplayScript (address : string) (blockHeight : Z) (blockHash : string) : outcome string :=
  parts ← replayParts address blockHeight blockHash;
  mret (OP_HASH160 +:+ fst parts +:+ OP_EQUAL +:+ snd parts +:+ OP_CHECKBLOCKATHEIGHT).

Definition addressToScript (address : string) (blockHeight : Z) (blockHash : string) : outcome string :=
  let addressBytes := b58Decode address in
  if bytes_prefix scriptHash addressBytes then mkScriptHashReplayScript address blockHeight blockHash
  else if bytes_prefix pubKeyHash addressBytes then mkPubkeyHashReplayScript address blockHeight blockHash
  else Returned (Err (Errorf "addressToScript error: invalid address")).

(** ** Building and serialising *)

(** The recipients' scripts, in order. *)
Fixpoint recipients (blockHeight : Z) (blockHash : string) (l : list ParamOut) : outcome (list Outs) :=
  match l with
  | [] => mret []
  | o :: l =>
      script ← addressToScript (po_Address o) blockHeight blockHash;
      rest ← recipients blockHeight blockHash l;
      mret ({| out_Satoshis := po_Satoshis o; out_Script := script |} :: rest)
  end.

Definition CreateRawTX (p : TXObjectInputParam) : outcome TXObject :=
  outs ← recipients (tp_BlockHeight p) (tp_BlockHash p) (tp_ParamOuts p);
  mret {| tx_LockTime := 0; tx_Version := 1;
          tx_Ins := (λ h, {| in_Hash := pi_TXID h; in_Vout := pi_Vout h; in_Script := "";
                             in_PrevScriptPubKey := pi_ScriptPubKey h; in_Sequence := "ffffffff" |}) <$> tp_ParamIns p;
          tx_Outs := outs |}.

Definition SIGHASH_ALL : Z := 1.
Definition SIGHASH_NONE : Z := 2.
Definition SIGHASH_SINGLE : Z := 3.
Definition SIGHASH_ANYONECANPAY : Z := 0x80.

(** A slice read from JSON has room for [capacity] elements beyond its own:
    slicing past its length finds zero values there. *)
Definition SignatureForm (capacity : nat) (txObject : TXObject) (i : nat) (script : string) (hashcode : Z) : outcome TXObject :=
  let newTx := txObject <| tx_Ins ::= fmap (λ x, x <| in_Script := "" |>) |> in
  let n := List.length (tx_Ins newTx) in
  newTx ← (if decide (hashcode = SIGHASH_NONE) then mret (newTx <| tx_Outs := [] |>)
           else if decide (hashcode = SIGHASH_SINGLE) then
             if decide (List.length (tx_Outs newTx) + capacity < n)%nat then Panicked else
             let outs := take n (tx_Outs newTx ++ replicate capacity {| out_Satoshis := 0; out_Script := "" |}) in
             mret (newTx <| tx_Outs := replicate (n - 1) {| out_Satoshis := 2 ^ 64 - 1; out_Script := "" |}
                                       ++ drop (n - 1) outs |>)
           else if decide (hashcode = SIGHASH_ANYONECANPAY) then
             if decide (n < i + 1)%nat then Panicked else mret (newTx <| tx_Ins ::= λ l, take 1 (drop i l) |>)
           else mret newTx);
  if decide (i < List.length (tx_Ins newTx))%nat then
    mret (newTx <| tx_Ins ::= alter (λ x, x <| in_Script := script |>) i |>)
  else Panicked.

(** A script behind its length. *)
Definition pushed (script : string) : result bytes :=
  len ← GetPushDataLength script;
  lenBytes ← decodeHex len;
  scriptBytes ← decodeHex script;
  Ok (lenBytes ++ scriptBytes).

Definition serializeIn (withPrevScriptPubKey : bool) (input : Ins) : result bytes :=
  hashBytes ← decodeHex (in_Hash input);
  prev ← (if withPrevScriptPubKey then pushed (in_PrevScriptPubKey input) else Ok []);
  script ← pushed (in_Script input);
  sequenceBytes ← decodeHex (in_Sequence input);
  Ok (ReverseBytes hashBytes ++ putLE 4 (in_Vout input) ++ prev ++ script ++ sequenceBytes).

Definition serializeOut (out : Outs) : result bytes :=
  script ← pushed (out_Script out); Ok (putLE 8 (out_Satoshis out) ++ script).

(** The loops, each of which writes to one buffer. *)
Fixpoint written {A} (f : A → result bytes) (l : list A) : result bytes :=
  match l with [] => Ok [] | x :: l => b ← f x; rest ← written f l; Ok (b ++ rest) end.

Definition SerializeTX (txObj : TXObject) (withPrevScriptPubKey : bool) : result bytes :=
  insLenBytes ← decodeHex (NumToVarInt (Z.of_nat (List.length (tx_Ins txObj))));
  ins ← written (serializeIn withPrevScriptPubKey) (tx_Ins txObj);
  outsLenBytes ← decodeHex (NumToVarInt (Z.of_nat (List.length (tx_Outs txObj))));
  outs ← written serializeOut (tx_Outs txObj);
  Ok (putLE 4 (tx_Version txObj) ++ insLenBytes ++ ins ++ outsLenBytes ++ outs ++ putLE 4 (tx_LockTime txObj)).

Definition GetScriptSignature (txObject : TXObject) (hashcode : Z) : result bytes :=
  signingTx ← SerializeTX txObject false;
  Ok (DoubleSha256 (signingTx ++ putLE 2 hashcode ++ [byteOf 0; byteOf 0])).
End util.

(** ** [blockchain.go]: reading a transaction *)

Record TxInput := { xn_Hash : string; xn_Vout : Z; xn_Script : string; xn_Sequence : string; xn_PrevScriptPubKey : string }.
Record ZenTxOut := { zo_Satoshis : Z; zo_Script : string }.
Record RawTransaction := { rw_Version : Z; rw_Locktime : Z; rw_Ins : list TxInput; rw_Outs : list ZenTxOut }.

(** A reader takes an offset and leaves the next one.  Offsets are [int]s: a
    length that was read may make their sum wrap. *)
Definition readBytes (what : string) (n : Z) (buf : bytes) (offset : Z) : outcome (bytes * Z) :=
  if decide (Z.of_nat (List.length buf) < wrap64 (offset + n)) then Returned (Err (Errorf what)) else
  b ← slice buf offset (wrap64 (offset + n)); mret (b, wrap64 (offset + n)).

Definition readLength (what : string) (buf : bytes) (offset : Z) : outcome (Z * Z) :=
  let '(v, bytesRead) := ReadVarInt buf offset in
  if decide (bytesRead = 0) then Returned (Err (Errorf what)) else mret (v, offset + bytesRead).

(** [int(v)] of a [uint64] is [wrap64 v]. *)
Definition readScript (whatLength what : string) (buf : bytes) (offset : Z) : outcome (string * Z) :=
  '(scriptLen, offset) ← readLength whatLength buf offset;
  '(script, offset) ← readBytes what (wrap64 scriptLen) buf offset;
  mret (hexEncode script, offset).

Definition readIn (withPrevScriptPubKey : bool) (buf : bytes) (offset : Z) : outcome (TxInput * Z) :=
  '(hash, offset) ← readBytes "cant read prev tx hash" 32 buf offset;
  '(vout, offset) ← readBytes "cant read output index" 4 buf offset;
  '(prev, offset) ← (if withPrevScriptPubKey
                     then readScript "cant read prev script pubkey length" "cant read prev script pubkey" buf offset
                     else mret ("", offset));
  '(script, offset) ← readScript "cant read script length" "cant read script" buf offset;
  '(sequence, offset) ← readBytes "cant read sequence" 4 buf offset;
  mret ({| xn_Hash := hexEncode (ReverseBytes hash); xn_Vout := getLE vout; xn_Script := script;
           xn_Sequence := hexEncode sequence; xn_PrevScriptPubKey := prev |}, offset).

Definition readOut (buf : bytes) (offset : Z) : outcome (ZenTxOut * Z) :=
  '(satoshis, offset) ← readBytes "cant read satoshis" 8 buf offset;
  '(script, offset) ← readScript "cant read script length" "cant read script" buf offset;
  mret ({| zo_Satoshis := getLE satoshis; zo_Script := script |}, offset).

(** [for i := uint64(0); i < n; i++], with fuel: every element takes bytes, so
    more rounds than there are bytes end in an error ([readMany_fuel]). *)
Fixpoint readMany {A} (fuel : nat) (read : Z → outcome (A * Z)) (n : Z) (offset : Z) : outcome (list A * Z) :=
  if decide (n ≤ 0) then mret ([], offset) else
  match fuel with
  | O => Returned (Err (Errorf "no fuel"))
  | S fuel =>
      '(x, offset) ← read offset;
      '(rest, offset) ← readMany fuel read (n - 1) offset;
      mret (x :: rest, offset)
  end.

Definition deserializeBytes (fuel : nat) (buf : bytes) (withPrevScriptPubKey : bool) : outcome RawTransaction :=
  '(version, offset) ← readBytes "no enough data to read version" 4 buf 0;
  '(vinLen, offset) ← readLength "cant read input length" buf offset;
  '(ins, offset) ← readMany fuel (readIn withPrevScriptPubKey buf) vinLen offset;
  '(voutLen, offset) ← readLength "cant read output length" buf offset;
  '(outs, offset) ← readMany fuel (readOut buf) voutLen offset;
  '(locktime, _) ← readBytes "cant read locktime" 4 buf offset;
  mret {| rw_Version := getLE version; rw_Locktime := getLE locktime; rw_Ins := ins; rw_Outs := outs |}.

Definition DeserializeTx (hexStr : string) (withPrevScriptPubKey : bool) : outcome RawTransaction :=
  match hexDecode (to_bytes hexStr) with
  | None => Returned (Err (Errorf "cant decode hex str: encoding/hex: invalid"))
  | Some buf => deserializeBytes (S (List.length buf)) buf withPrevScriptPubKey
  end.

(** *** The REST client *)

Record ZenVin := { zv_TxId : string; zv_Address : string; zv_Coinbase : string }.
Record ZenVout := { zt_Value : string; zt_Hex : string; zt_Addresses : list string }.
(** The fee is the text of its [float64]. *)
Record Items := {
  zi_TXID : string;
  zi_Vin : list ZenVin;
  zi_Vout : list ZenVout;
  zi_BlockHeight : Z;
  zi_Time : Z;
  zi_Fees : string;
}.
Record ZenUnspentOutput := {
  zu_Address : string;
  zu_Txid : string;
  zu_Vout : Z;
  zu_ScriptPubKey : string;
  zu_Satoshis : Z;
  zu_Height : Z;
  zu_Confirmations : Z;
}.
Record Block := { zb_Hash : string; zb_Height : Z; zb_Tx : list string }.

(** What the explorer answers: a status and the decoded body. *)
Class Insight (W : Type) := {
  get_balance : string → W → result (Z * Z) * W;
  get_utxo : string → W → result (Z * list ZenUnspentOutput) * W;
  post_txs : string → Z → Z → W → result (Z * list Items) * W;
  get_tx : string → W → result (Z * Items) * W;
  get_block : string → W → result (Z * Block) * W;
  get_info : W → result (Z * Z) * W;
  get_block_index : string → W → result (Z * string) * W;
  post_send : string → W → result (Z * string) * W;
}.

(** gob, and [ConvertToSatoshi]'s decimals. *)
Class Gob := { gobEncode : TXObject → result bytes; gobDecode : bytes → result TXObject }.

Section adaptor.
Context {W : Type} `{Base58} `{Sha256} `{Insight W} `{Gob} `{Decimals}.

Definition zenAccountBalance (address : string) : call W string :=
  v ← restAnswer "cannot get account balance" "get account balance fail" (get_balance ("/addr/" +:+ address +:+ "/balance"));
  mret (BigString v).
Definition zenAccountUtxo (address : string) : call W (list ZenUnspentOutput) :=
  restAnswer "cannot utxo fail" "get account counter fail" (get_utxo ("/addr/" +:+ address +:+ "/utxo")).
(** [from] and [to] are [uint32]. *)
Definition zenTransactionsByAddress (address : string) (pageSize page : Z) : call W (list Items) :=
  restAnswer "cannot utxo fail" "get account counter fail"
    (post_txs address (wrapu32 (pageSize * (page - 1))) (wrapu32 (pageSize * page))).
Definition zenTransactionsByHash (txHash : string) : call W Items :=
  restAnswer "cannot utxo fail" "get account counter fail" (get_tx ("/tx/" +:+ txHash)).
Definition GetBlockByHash (blockHash : string) : call W Block :=
  restAnswer "cannot get block by height" "get block by height fail" (get_block ("/block/" +:+ blockHash)).
Definition GetLatestBlock : call W Z := restAnswer "cannot get latest block" "get latest block fail" get_info.
Definition GetBlockHashByHeight (blockHeight : Z) : call W string :=
  restAnswer "cannot get block hash by height" "get block hash by height fail"
    (get_block_index ("/block-index/" +:+ BigString blockHeight)).
Definition GetBlockByHeight (blockHeight : Z) : call W Block :=
  height ← (if decide (blockHeight = 0) then GetLatestBlock else mret blockHeight);
  txBlockHash ← GetBlockHashByHeight height;
  GetBlockByHash txBlockHash.
Definition SendTransaction (tx : string) : call W string :=
  restAnswer "cannot send raw tx" "send raw tx fail" (post_send tx).

(** ** [zen.go] *)

Definition zenGetAccount (req : AccountRequest) : call W (response AccountResponse) :=
  balance ← zenAccountBalance (aq_Address req);
  success "get Zen balance success" {| as_Network := aq_Network req; as_Balance := balance |}.

Definition zenGetFee (req : FeeRequest) : call W (response FeeResponse) :=
  success "get fee success" {| fr_BestFee := "0.0001"; fr_BestFeeSat := "10000"; fr_SlowFee := ""; fr_NormalFee := "";
                               fr_FastFee := "" |}.

Definition zenTxMessage (t : Items) (direction : Z) : TxMessage := {|
  tm_Hash := zi_TXID t; tm_Index := 0; tm_Froms := zv_Address <$> zi_Vin t; tm_Tos := zi_Vout t ≫= zt_Addresses;
  tm_Values := zt_Value <$> zi_Vout t; tm_Fee := zi_Fees t; tm_Status := Success; tm_Type := direction;
  tm_Height := BigString (zi_BlockHeight t); tm_Brc20Address := ""; tm_Datetime := BigString (zi_Time t) |}.

Definition zenGetTxByAddress (req : TxAddressRequest) : call W (response (list TxMessage)) :=
  transaction ← zenTransactionsByAddress (xa_Address req) (xa_Pagesize req) (xa_Page req);
  tx_list ← collecting (λ t, direction ← ends (directionOf (xa_Address req) (zv_Address <$> zi_Vin t));
                             mret (zenTxMessage t direction)) transaction;
  success "get transaction list success" tx_list.

Definition zenGetTxByHash (req : TxHashRequest) : call W (response TxMessage) :=
  transaction ← zenTransactionsByHash (xh_Hash req);
  success "get transaction success" (zenTxMessage transaction 0).

Definition zenConvertAddress (req : ConvertAddressRequest) : call W (response string) :=
  address ← returns (PublicKeyToAddress (ca_PublicKey req)); success "create address success" address.

Definition zenValidAddress (req : ValidAddressRequest) : call W (response bool) :=
  msg ← returns (ValidAddress (va_Address req)); success msg true.

Definition zenGetUnspentOutputs (req : UnspentOutputsRequest) : call W (response (list UnspentOutput)) :=
  utxoList ← zenAccountUtxo (uq_Address req);
  success "get unspent outputs success" ((λ value, {|
    uo_TxId := zu_Txid value; uo_TxHashBigEndian := ""; uo_TxOutputN := 0; uo_Script := zu_ScriptPubKey value;
    uo_Height := BigString (zu_Height value); uo_BlockTime := ""; uo_Address := zu_Address value;
    uo_UnspentAmount := BigString (zu_Satoshis value); uo_ValueHex := ""; uo_Confirmations := zu_Confirmations value;
    uo_Index := 0 |}) <$> utxoList).

Definition zenSendTx (req : SendTxRequest) : call W (response string) :=
  _ ← ends (DeserializeTx (sq_RawTx req) false);
  txId ← SendTransaction (sq_RawTx req);
  success "send tx success " txId.

(** *** Payments *)

Definition ConvertToSatoshi (valueStr : string) : Z :=
  match NewFromString valueStr with
  | Err _ => 0
  | Ok valueDecimal => IntPart (decMul valueDecimal hundredMillion)
  end.

(** The script of the output an input spends: the first one that pays the
    input's address. *)
Definition findScript (vin : TxVin) (tx : Items) : result string :=
  match List.find (λ vout, bool_decide (vin_Address vin ∈ zt_Addresses vout)) (zi_Vout tx) with
  | None => Err (Errorf ("cant find address in given tx, txhash: " +:+ vin_Hash vin +:+ ", address: " +:+ vin_Address vin
                          +:+ ", err: <nil>"))
  | Some vout =>
      let vinAmount := ConvertToSatoshi (zt_Value vout) in
      if decide (vinAmount ≠ vin_Amount vin) then
        Err (Errorf ("vin amount that utxo have not equal to vin input, utxo vin amount: " +:+ BigString vinAmount
                     +:+ ", vin input amount: " +:+ BigString (vin_Amount vin)))
      else Ok (zt_Hex vout)
  end.

Definition paramIn (vin : TxVin) : call W ParamIn :=
  tx ← wrapping ("get transaction by hash fail, hash: " +:+ vin_Hash vin +:+ ", err: ") (zenTransactionsByHash (vin_Hash vin));
  scriptPubKey ← returns (findScript vin tx);
  mret {| pi_TXID := vin_Hash vin; pi_Vout := vin_Index vin; pi_ScriptPubKey := scriptPubKey |}.

(** The hash of each input, with its own script in place. *)
Fixpoint signHashes (txObject : TXObject) (i : nat) (l : list Ins) : outcome (list bytes) :=
  match l with
  | [] => mret []
  | x :: l =>
      newTx ← errorsWrap "sign tx fail, err: " (SignatureForm 0 txObject i (in_PrevScriptPubKey x) SIGHASH_ALL);
      scriptSig ← errorsWrap "get script signature fail, err: " (Returned (GetScriptSignature newTx SIGHASH_ALL));
      rest ← signHashes txObject (S i) l;
      mret (scriptSig :: rest)
  end.

Definition zenCalcSignHashes (Vins : list TxVin) (Vouts : list TxVout) : call W (list bytes * bytes) :=
  block ← wrapping "get block by height fail, height: 0, err: " (GetBlockByHeight 0);
  paramIns ← collecting paramIn Vins;
  txObject ← ends (errorsWrap "failed to create raw transaction: " (CreateRawTX {|
    tp_BlockHeight := zb_Height block; tp_BlockHash := zb_Hash block; tp_ParamIns := paramIns;
    tp_ParamOuts := (λ o, {| po_Address := vout_Address o; po_Satoshis := vout_Amount o mod 2 ^ 64 |}) <$> Vouts |}));
  signHash ← ends (signHashes txObject 0 (tx_Ins txObject));
  buf ← ends (errorsWrap "gob encode fail, err: " (Returned (gobEncode txObject)));
  mret (signHash, buf).

Definition zenCreateUnSignTransaction (req : UnSignTransactionRequest) : call W (response UnSignTransactionResponse) :=
  r ← zenCalcSignHashes (us_Vin req) (us_Vout req);
  success "create un sign transaction success" {| ur_TxData := snd r; ur_SignHashes := fst r |}.

(** The script of an input: the signature and the public key. *)
Definition signatureScript (signature publicKey : bytes) : result string :=
  slen ← GetPushDataLength (hexEncode signature);
  pklen ← GetPushDataLength (hexEncode publicKey);
  Ok (slen +:+ hexEncode signature +:+ pklen +:+ hexEncode publicKey).

Fixpoint signIns (ins : list Ins) (signatures publicKeys : list bytes) : result (list Ins) :=
  match ins, signatures, publicKeys with
  | x :: ins, signature :: signatures, publicKey :: publicKeys =>
      script ← signatureScript signature publicKey;
      rest ← signIns ins signatures publicKeys;
      Ok (x <| in_Script := script |> :: rest)
  | _, _, _ => Ok []
  end.

(** The error of the last [SerializeTX] is not looked at. *)
Definition zenBuildSignedTransaction (req : SignedTransactionRequest) : call W (response SignedTransactionResponse) :=
  let none := {| sr_SignedTxData := []; sr_Hash := [] |} in
  if decide (List.length (st_Signatures req) ≠ List.length (st_PublicKeys req)) then
    refusal "signatures length not equal to public keys length" none
  else
  txObj ← returns (gobDecode (st_TxData req));
  if decide (List.length (st_Signatures req) ≠ List.length (tx_Ins txObj)) then
    refusal "signatures length not equal to decoded txObj ins length" none
  else
  ins ← returns (signIns (tx_Ins txObj) (st_Signatures req) (st_PublicKeys req));
  let rawTx := match SerializeTX (txObj <| tx_Ins := ins |>) false with Ok raw => raw | Err _ => [] end in
  success "" {| sr_SignedTxData := rawTx; sr_Hash := DoubleSha256 rawTx |}.

Definition zenAdaptor : IChainAdaptor W := {|
  ic_ConvertAddress := zenConvertAddress; ic_ValidAddress := zenValidAddress; ic_GetFee := zenGetFee;
  ic_GetAccount := zenGetAccount; ic_GetUnspentOutputs := zenGetUnspentOutputs; ic_SendTx := zenSendTx;
  ic_GetTxByAddress := zenGetTxByAddress; ic_GetTxByHash := zenGetTxByHash;
  ic_CreateUnSignTransaction := zenCreateUnSignTransaction; ic_BuildSignedTransaction := zenBuildSignedTransaction |}.
End adaptor.

(** ** The UTXO plugins as the gateway starts them

    The [New] of each chain and [internal/bootstrap/bootstrap.go]; [ready]
    says, by chain, whether its clients could be made. *)

Section start.
Context {W : Type} `{ProtoJSON} `{Btcd} `{BaseClients W} `{Decimals} `{BlockchainInfo (W := W)} `{Base58} `{Sha256}
  `{Insight W} `{Gob}.
Variable ready : string → result ().

Definition newPlugin (name source : string) (adaptor : IChainAdaptor W) : string * ChainPlugin (process W) :=
  let p := NewBridgePlugin name source ((λ _, adaptor) <$> ready name) in (bg_chain p, bridgePlugin p).

Definition startedPlugins : list (string * ChainPlugin (process W)) :=
  [newPlugin "bitcoin" "Bitcoin" bitcoinAdaptor; newPlugin "bitcoincash" "BitcoinCash" bitcoincashAdaptor;
   newPlugin "dash" "Dash" dashAdaptor; newPlugin "litecoin" "Litecoin" litecoinAdaptor; newPlugin "zen" "Zen" zenAdaptor].

(** The router of the service, next to any adapter for the account model. *)
Definition utxoGateway (account : ChainPlugin (process W)) : result (Router (ChainPlugin (process W))) :=
  a ← NewUTXOAdapter startedPlugins;
  registerDefaultBindings account (utxoAdapter a) NewRouter.
End start.
