(* ===== verification/Tron.v ===== *)
(** * The Tron plugin

    [chain-gateway/internal/adapters/account/chains/tron]: the structs of
    [types.go] and their JSON, the client of a Tron node ([tronclient.go]), the
    source adaptor ([tron.go], [trondata.go]) and the plugin ([plugin.go]).

    resty, which sends a document to the node and decodes the answer, the
    explorer OKLink, gotron-sdk's addresses and protojson are classes.  A slice
    that may be nil is an option; decoding an array over a slice reuses the
    elements it shows, those past its end are taken as zero. *)
From S2P Require Import Prelude GoStrings GoNumbers GoJson GoCodec Ports KeyRef EvmSend Endpoint.
From S2P Require Import EvmReader.
From S2P Require Import Normalize EvmPlugin ChainService UtxoPlugins.

(** ** Hexadecimal numbers *)

Fixpoint parse_hex_digits (acc : Z) (l : bytes) : option Z :=
  match l with
  | [] => Some acc
  | a :: l => d ← hexDigit a; parse_hex_digits (16 * acc + Z.of_N d) l
  end.
Definition parse_hex (l : bytes) : option Z := match l with [] => None | _ :: _ => parse_hex_digits 0 l end.

(** [new(big.Int).SetString(s, 16)] *)
Definition SetString16 (s : string) : option Z :=
  match to_bytes s with
  | [] => None
  | a :: l =>
      if Ascii.eqb a "-" then Z.opp <$> parse_hex l
      else if Ascii.eqb a "+" then parse_hex l
      else parse_hex (a :: l)
  end.

Fixpoint print_hex_digits (fuel : nat) (n : Z) (acc : bytes) : bytes :=
  match fuel with
  | O => acc
  | S fuel =>
      let acc := hexChar (Z.to_N (n mod 16)) :: acc in
      if decide (n / 16 = 0) then acc else print_hex_digits fuel (n / 16) acc
  end.
(** [Text(16)] of a big integer. *)
Definition HexText (z : Z) : string :=
  of_bytes (if decide (z < 0) then "-"%char :: print_hex_digits (print_fuel (- z)) (- z) []
            else print_hex_digits (print_fuel z) z []).

(** [strings.TrimLeft(s, "0")] *)
Fixpoint trim_zeros (l : bytes) : bytes :=
  match l with
  | a :: l' => if Ascii.eqb a "0" then trim_zeros l' else l
  | [] => []
  end.

(** [s[lo:hi]] of a string. *)
Definition substring (lo hi : nat) (s : string) : outcome string :=
  if decide (hi ≤ List.length (to_bytes s))%nat then mret (of_bytes (take (hi - lo) (drop lo (to_bytes s)))) else Panicked.

(** An amount of 64 hexadecimal digits in decimal; a number that cannot be read
    is the nil [*big.Int], which prints as [<nil>]. *)
Definition amountOfHex (digits : string) : string :=
  let amountHex := of_bytes (trim_zeros (to_bytes digits)) in
  let amountHex := if decide (amountHex = "") then "0" else amountHex in
  match SetString16 amountHex with Some v => BigString v | None => "<nil>" end.

Definition leftPadHex (value : string) (width : nat) : string :=
  let value := TrimSpace (TrimPrefix value "0x") in
  let n := List.length (to_bytes value) in
  if decide (width ≤ n)%nat then value else Repeat "0" (width - n) +:+ value.

(** ** [types.go] *)

Record ContractValue := {
  cv_OwnerAddress : string;
  cv_ToAddress : string;
  cv_Amount : Z;
  cv_ContractAddress : string;
  cv_Data : string;
  cv_AssetName : string;
}.
Record TxParameter := { pr_Value : ContractValue; pr_TypeURL : string }.
Record Contract := { ct_Parameter : TxParameter; ct_Type : string; ct_PermissionID : Z }.
Record TxRawData := {
  rd_Contract : option (list Contract);
  rd_RefBlockBytes : string;
  rd_RefBlockHash : string;
  rd_Expiration : Z;
  rd_FeeLimit : Z;
  rd_Timestamp : Z;
}.
Record Transaction := {
  tx_Visible : bool;
  tx_Ret : option (list string);
  tx_Signature : option (list string);
  tx_TxID : string;
  tx_RawData : TxRawData;
  tx_RawDataHex : string;
}.
Record TxStructure := { ts_ContractAddress : string; ts_FromAddress : string; ts_ToAddress : string; ts_Value : Z }.
Record BroadcastReturns := { bt_Result : bool; bt_Code : string; bt_Txid : string; bt_Message : string }.
Record TriggerTransactionResponse := {
  tg_Result : bool;
  tg_Code : string;
  tg_Message : string;
  tg_Transaction : Transaction;
}.
Record BlockHeaderRaw := {
  hr_Number : Z;
  hr_TxTrieRoot : string;
  hr_WitnessAddress : string;
  hr_ParentHash : string;
  hr_Version : Z;
  hr_Timestamp : Z;
}.
Record BlockHeader := { bh_RawData : BlockHeaderRaw; bh_WitnessSignature : string }.
Record BlockResponse := { bl_BlockID : string; bl_BlockHeader : BlockHeader; bl_Transactions : option (list Transaction) }.
Record Key := { ky_Address : string; ky_Weight : Z }.
Record Permission := {
  pm_Type : string;
  pm_ID : Z;
  pm_PermissionName : string;
  pm_Threshold : Z;
  pm_Operations : string;
  pm_Keys : option (list Key);
}.
Record Asset := { sa_Key : string; sa_Value : Z }.
Record AccountResource := {
  sr_LatestConsumeTimeForEnergy : Z;
  sr_EnergyWindowSize : Z;
  sr_AcquiredDelegatedFrozenV2BalanceForEnergy : Z;
  sr_EnergyWindowOptimized : bool;
}.
Record Account := {
  ac_Address : string;
  ac_Balance : Z;
  ac_CreateTime : Z;
  ac_LatestConsumeTime : Z;
  ac_NetWindowSize : Z;
  ac_NetWindowOptimized : bool;
  ac_AccountResource : AccountResource;
  ac_OwnerPermission : Permission;
  ac_ActivePermission : option (list Permission);
  ac_FrozenV2 : option (list string);
  ac_AssetV2 : option (list Asset);
  ac_FreeAssetNetUsageV2 : option (list Asset);
  ac_AssetOptimized : bool;
}.

Definition zero_value : ContractValue := {|
  cv_OwnerAddress := ""; cv_ToAddress := ""; cv_Amount := 0; cv_ContractAddress := ""; cv_Data := ""; cv_AssetName := "" |}.
Definition zero_contract : Contract := {|
  ct_Parameter := {| pr_Value := zero_value; pr_TypeURL := "" |}; ct_Type := ""; ct_PermissionID := 0 |}.
Definition zero_raw : TxRawData := {|
  rd_Contract := None; rd_RefBlockBytes := ""; rd_RefBlockHash := ""; rd_Expiration := 0; rd_FeeLimit := 0; rd_Timestamp := 0 |}.
Definition zero_tx : Transaction := {|
  tx_Visible := false; tx_Ret := None; tx_Signature := None; tx_TxID := ""; tx_RawData := zero_raw; tx_RawDataHex := "" |}.
Definition zero_block : BlockResponse := {|
  bl_BlockID := "";
  bl_BlockHeader := {| bh_RawData := {| hr_Number := 0; hr_TxTrieRoot := ""; hr_WitnessAddress := ""; hr_ParentHash := "";
                                        hr_Version := 0; hr_Timestamp := 0 |}; bh_WitnessSignature := "" |};
  bl_Transactions := None |}.
Definition zero_permission : Permission := {|
  pm_Type := ""; pm_ID := 0; pm_PermissionName := ""; pm_Threshold := 0; pm_Operations := ""; pm_Keys := None |}.
Definition zero_account : Account := {|
  ac_Address := ""; ac_Balance := 0; ac_CreateTime := 0; ac_LatestConsumeTime := 0; ac_NetWindowSize := 0;
  ac_NetWindowOptimized := false;
  ac_AccountResource := {| sr_LatestConsumeTimeForEnergy := 0; sr_EnergyWindowSize := 0;
                           sr_AcquiredDelegatedFrozenV2BalanceForEnergy := 0; sr_EnergyWindowOptimized := false |};
  ac_OwnerPermission := zero_permission; ac_ActivePermission := None; ac_FrozenV2 := None; ac_AssetV2 := None;
  ac_FreeAssetNetUsageV2 := None; ac_AssetOptimized := false |}.

(** ** Decoding *)

Definition into_bool (cur : bool) (d : doc) : option bool :=
  match d with DBool b => Some b | DNull => Some cur | _ => None end.
Definition into_list {A} (zero : A) (into : A → doc → option A) (cur : option (list A)) (d : doc) : option (option (list A)) :=
  match d with
  | DArr l => xs ← into_elements zero into (default [] cur) l; Some (Some (take (List.length l) xs))
  | DNull => Some None
  | _ => None
  end.
(** A field of a struct that is already there. *)
Definition over {A} (into : A → doc → option A) (cur : A) (tag : string) (m : list (string * doc)) : option A :=
  decode_all into cur (members_of tag m).

Definition value_members (c : ContractValue) (m : list (string * doc)) : option ContractValue :=
  owner ← over into_string (cv_OwnerAddress c) "owner_address" m;
  to ← over into_string (cv_ToAddress c) "to_address" m;
  amount ← over into_int64 (cv_Amount c) "amount" m;
  contract ← over into_string (cv_ContractAddress c) "contract_address" m;
  data ← over into_string (cv_Data c) "data" m;
  asset ← over into_string (cv_AssetName c) "asset_name" m;
  Some {| cv_OwnerAddress := owner; cv_ToAddress := to; cv_Amount := amount; cv_ContractAddress := contract; cv_Data := data;
          cv_AssetName := asset |}.
Definition parameter_members (c : TxParameter) (m : list (string * doc)) : option TxParameter :=
  value ← over (into_struct value_members) (pr_Value c) "value" m;
  url ← over into_string (pr_TypeURL c) "type_url" m;
  Some {| pr_Value := value; pr_TypeURL := url |}.
Definition contract_members (c : Contract) (m : list (string * doc)) : option Contract :=
  parameter ← over (into_struct parameter_members) (ct_Parameter c) "parameter" m;
  type ← over into_string (ct_Type c) "type" m;
  permission ← over into_int64 (ct_PermissionID c) "Permission_id" m;
  Some {| ct_Parameter := parameter; ct_Type := type; ct_PermissionID := permission |}.
Definition raw_members (c : TxRawData) (m : list (string * doc)) : option TxRawData :=
  contract ← over (into_list zero_contract (into_struct contract_members)) (rd_Contract c) "contract" m;
  ref ← over into_string (rd_RefBlockBytes c) "ref_block_bytes" m;
  hash ← over into_string (rd_RefBlockHash c) "ref_block_hash" m;
  expiration ← over into_int64 (rd_Expiration c) "expiration" m;
  fee ← over into_int64 (rd_FeeLimit c) "fee_limit" m;
  timestamp ← over into_int64 (rd_Timestamp c) "timestamp" m;
  Some {| rd_Contract := contract; rd_RefBlockBytes := ref; rd_RefBlockHash := hash; rd_Expiration := expiration;
          rd_FeeLimit := fee; rd_Timestamp := timestamp |}.
Definition ret_members : string → list (string * doc) → option string := λ c, over into_string c "contractRet".
Definition tx_members (c : Transaction) (m : list (string * doc)) : option Transaction :=
  visible ← over into_bool (tx_Visible c) "visible" m;
  ret ← over (into_list "" (into_struct ret_members)) (tx_Ret c) "ret" m;
  signature ← over (into_list "" into_string) (tx_Signature c) "signature" m;
  id ← over into_string (tx_TxID c) "txID" m;
  raw ← over (into_struct raw_members) (tx_RawData c) "raw_data" m;
  hex ← over into_string (tx_RawDataHex c) "raw_data_hex" m;
  Some {| tx_Visible := visible; tx_Ret := ret; tx_Signature := signature; tx_TxID := id; tx_RawData := raw;
          tx_RawDataHex := hex |}.
Definition TxStructure_fields (m : list (string * doc)) : option TxStructure :=
  contract ← string_field "contract_address" m;
  from ← string_field "from_address" m;
  to ← string_field "to_address" m;
  value ← int64_field "value" m;
  Some {| ts_ContractAddress := contract; ts_FromAddress := from; ts_ToAddress := to; ts_Value := value |}.
Definition BroadcastReturns_members (c : BroadcastReturns) (m : list (string * doc)) : option BroadcastReturns :=
  result ← over into_bool (bt_Result c) "result" m;
  code ← over into_string (bt_Code c) "code" m;
  txid ← over into_string (bt_Txid c) "txid" m;
  message ← over into_string (bt_Message c) "message" m;
  Some {| bt_Result := result; bt_Code := code; bt_Txid := txid; bt_Message := message |}.
Definition trigger_result_members (c : bool * string * string) (m : list (string * doc)) : option (bool * string * string) :=
  result ← over into_bool c.1.1 "result" m;
  code ← over into_string c.1.2 "code" m;
  message ← over into_string c.2 "message" m;
  Some (result, code, message).
Definition trigger_members (c : TriggerTransactionResponse) (m : list (string * doc)) : option TriggerTransactionResponse :=
  '(result, code, message) ← over (into_struct trigger_result_members) (tg_Result c, tg_Code c, tg_Message c) "result" m;
  tx ← over (into_struct tx_members) (tg_Transaction c) "transaction" m;
  Some {| tg_Result := result; tg_Code := code; tg_Message := message; tg_Transaction := tx |}.
Definition header_raw_members (c : BlockHeaderRaw) (m : list (string * doc)) : option BlockHeaderRaw :=
  number ← over into_int64 (hr_Number c) "number" m;
  root ← over into_string (hr_TxTrieRoot c) "txTrieRoot" m;
  witness ← over into_string (hr_WitnessAddress c) "witness_address" m;
  parent ← over into_string (hr_ParentHash c) "parentHash" m;
  version ← over into_int64 (hr_Version c) "version" m;
  timestamp ← over into_int64 (hr_Timestamp c) "timestamp" m;
  Some {| hr_Number := number; hr_TxTrieRoot := root; hr_WitnessAddress := witness; hr_ParentHash := parent;
          hr_Version := version; hr_Timestamp := timestamp |}.
Definition header_members (c : BlockHeader) (m : list (string * doc)) : option BlockHeader :=
  raw ← over (into_struct header_raw_members) (bh_RawData c) "raw_data" m;
  signature ← over into_string (bh_WitnessSignature c) "witness_signature" m;
  Some {| bh_RawData := raw; bh_WitnessSignature := signature |}.
Definition block_members (c : BlockResponse) (m : list (string * doc)) : option BlockResponse :=
  id ← over into_string (bl_BlockID c) "blockID" m;
  header ← over (into_struct header_members) (bl_BlockHeader c) "block_header" m;
  txs ← over (into_list zero_tx (into_struct tx_members)) (bl_Transactions c) "transactions" m;
  Some {| bl_BlockID := id; bl_BlockHeader := header; bl_Transactions := txs |}.

(** An account is decoded as a whole, so that a field of another type makes the
    decoding fail. *)
Definition key_members (c : Key) (m : list (string * doc)) : option Key :=
  address ← over into_string (ky_Address c) "address" m;
  weight ← over into_int64 (ky_Weight c) "weight" m;
  Some {| ky_Address := address; ky_Weight := weight |}.
Definition permission_members (c : Permission) (m : list (string * doc)) : option Permission :=
  type ← over into_string (pm_Type c) "type" m;
  id ← over into_int64 (pm_ID c) "id" m;
  name ← over into_string (pm_PermissionName c) "permission_name" m;
  threshold ← over into_int64 (pm_Threshold c) "threshold" m;
  operations ← over into_string (pm_Operations c) "operations" m;
  keys ← over (into_list {| ky_Address := ""; ky_Weight := 0 |} (into_struct key_members)) (pm_Keys c) "keys" m;
  Some {| pm_Type := type; pm_ID := id; pm_PermissionName := name; pm_Threshold := threshold; pm_Operations := operations;
          pm_Keys := keys |}.
Definition asset_members (c : Asset) (m : list (string * doc)) : option Asset :=
  key ← over into_string (sa_Key c) "key" m;
  value ← over into_int64 (sa_Value c) "value" m;
  Some {| sa_Key := key; sa_Value := value |}.
Definition resource_members (c : AccountResource) (m : list (string * doc)) : option AccountResource :=
  latest ← over into_int64 (sr_LatestConsumeTimeForEnergy c) "latest_consume_time_for_energy" m;
  window ← over into_int64 (sr_EnergyWindowSize c) "energy_window_size" m;
  acquired ← over into_int64 (sr_AcquiredDelegatedFrozenV2BalanceForEnergy c)
               "acquired_delegated_frozenV2_balance_for_energy" m;
  optimized ← over into_bool (sr_EnergyWindowOptimized c) "energy_window_optimized" m;
  Some {| sr_LatestConsumeTimeForEnergy := latest; sr_EnergyWindowSize := window;
          sr_AcquiredDelegatedFrozenV2BalanceForEnergy := acquired; sr_EnergyWindowOptimized := optimized |}.
Definition account_members (c : Account) (m : list (string * doc)) : option Account :=
  let assets := into_list {| sa_Key := ""; sa_Value := 0 |} (into_struct asset_members) in
  address ← over into_string (ac_Address c) "address" m;
  balance ← over into_int64 (ac_Balance c) "balance" m;
  created ← over into_int64 (ac_CreateTime c) "create_time" m;
  latest ← over into_int64 (ac_LatestConsumeTime c) "latest_consume_time" m;
  window ← over into_int64 (ac_NetWindowSize c) "net_window_size" m;
  optimized ← over into_bool (ac_NetWindowOptimized c) "net_window_optimized" m;
  resource ← over (into_struct resource_members) (ac_AccountResource c) "account_resource" m;
  owner ← over (into_struct permission_members) (ac_OwnerPermission c) "owner_permission" m;
  active ← over (into_list zero_permission (into_struct permission_members)) (ac_ActivePermission c) "active_permission" m;
  frozen ← over (into_list "" (into_struct (λ c, over into_string c "type"))) (ac_FrozenV2 c) "frozenV2" m;
  held ← over assets (ac_AssetV2 c) "assetV2" m;
  free ← over assets (ac_FreeAssetNetUsageV2 c) "free_asset_net_usageV2" m;
  assetOptimized ← over into_bool (ac_AssetOptimized c) "asset_optimized" m;
  Some {| ac_Address := address; ac_Balance := balance; ac_CreateTime := created; ac_LatestConsumeTime := latest;
          ac_NetWindowSize := window; ac_NetWindowOptimized := optimized; ac_AccountResource := resource;
          ac_OwnerPermission := owner; ac_ActivePermission := active; ac_FrozenV2 := frozen; ac_AssetV2 := held;
          ac_FreeAssetNetUsageV2 := free; ac_AssetOptimized := assetOptimized |}.

(** ** Encoding *)

Definition unless_zero (tag : string) (v : Z) : list (string * doc) := if decide (v = 0) then [] else [(tag, DInt v)].
(** A nil slice is [null]. *)
Definition DList {A} (f : A → doc) (l : option (list A)) : doc := match l with None => DNull | Some l => DArr (f <$> l) end.

Definition valueDoc (v : ContractValue) : doc := DObj [
  ("owner_address", DStr (cv_OwnerAddress v)); ("to_address", DStr (cv_ToAddress v)); ("amount", DInt (cv_Amount v));
  ("contract_address", DStr (cv_ContractAddress v)); ("data", DStr (cv_Data v)); ("asset_name", DStr (cv_AssetName v))].
Definition parameterDoc (p : TxParameter) : doc :=
  DObj [("value", valueDoc (pr_Value p)); ("type_url", DStr (pr_TypeURL p))].
Definition contractDoc (c : Contract) : doc := DObj (
  [("parameter", parameterDoc (ct_Parameter c)); ("type", DStr (ct_Type c))] ++ unless_zero "Permission_id" (ct_PermissionID c)).
Definition rawDoc (r : TxRawData) : doc := DObj (
  [("contract", DList contractDoc (rd_Contract r)); ("ref_block_bytes", DStr (rd_RefBlockBytes r));
   ("ref_block_hash", DStr (rd_RefBlockHash r)); ("expiration", DInt (rd_Expiration r))]
  ++ unless_zero "fee_limit" (rd_FeeLimit r) ++ [("timestamp", DInt (rd_Timestamp r))]).
Definition retDoc (contractRet : string) : doc := DObj [("contractRet", DStr contractRet)].
Definition txDoc (t : Transaction) : doc := DObj (
  (if tx_Visible t then [("visible", DBool true)] else [])
  ++ [("ret", DList retDoc (tx_Ret t)); ("signature", DList DStr (tx_Signature t)); ("txID", DStr (tx_TxID t));
      ("raw_data", rawDoc (tx_RawData t)); ("raw_data_hex", DStr (tx_RawDataHex t))]).

(** ** Payloads and transactions as texts: the helpers of [tron.go] *)

Definition base64Bytes (s : string) : result bytes := from_option_err (Errorf "illegal base64 data") (DecodeString s).

Definition decodeUnsignedPayload (base64Tx : string) : result TxStructure :=
  match base64Bytes (TrimSpace base64Tx) with
  | Err e => Err (wrap_error "invalid base64_tx" e)
  | Ok raw =>
      match Unmarshal TxStructure_fields (of_bytes raw) with
      | Some data =>
          if decide (TrimSpace (ts_FromAddress data) = "" ∨ TrimSpace (ts_ToAddress data) = "") then
            Err (Errorf "tron payload requires from_address/to_address")
          else Ok data
      | None =>
          match Split (TrimSpace (of_bytes raw)) ":" with
          | [scheme; from; to; amount] =>
              if EqualFold (TrimSpace scheme) "tron" then
                match parseInt64 (TrimSpace amount) with
                | Err e => Err (wrap_error "invalid tron amount" e)
                | Ok value => Ok {| ts_ContractAddress := ""; ts_FromAddress := TrimSpace from; ts_ToAddress := TrimSpace to;
                                    ts_Value := value |}
                end
              else Err (Errorf "unsupported tron payload format")
          | _ => Err (Errorf "unsupported tron payload format")
          end
      end
  end.

Definition decodeTransactionBase64 (rawTx : string) : result Transaction :=
  match base64Bytes (TrimSpace rawTx) with
  | Err e => Err (wrap_error "invalid tron transaction payload" e)
  | Ok raw =>
      match Unmarshal (tx_members zero_tx) (of_bytes raw) with
      | None => Err (Errorf "decode tron transaction failed: json: cannot unmarshal")
      | Some tx =>
          if decide (TrimSpace (tx_TxID tx) = "" ∧ TrimSpace (tx_RawDataHex tx) = "") then Err (Errorf "empty tron transaction")
          else Ok tx
      end
  end.

(** [json.Marshal] of a [Transaction] does not fail. *)
Definition encodeTransactionBase64 (tx : Transaction) : string := EncodeToString (to_bytes (Marshal (txDoc tx))).

Definition hexBytes (s : string) : result bytes := from_option_err (Errorf "encoding/hex: invalid") (hexDecode (to_bytes s)).

Definition normalizeTransactionSignature (signature : string) : result string :=
  let sig := TrimSpace (TrimPrefix signature "0x") in
  if decide (sig = "") then Err (Errorf "empty signature") else
  match hexBytes sig with
  | Err e => Err (wrap_error "invalid tron signature" e)
  | Ok raw =>
      if decide (List.length raw ≠ 65%nat) then
        Err (Errorf ("invalid tron signature length: " +:+ BigString (Z.of_nat (List.length raw))))
      else Ok (hexEncode raw)
  end.

Definition signHashFromTransactionPayload `{Sha256} (unsignedTx : string) : result string :=
  tx ← decodeTransactionBase64 unsignedTx;
  if decide (TrimSpace (tx_TxID tx) ≠ "") then Ok (TrimSpace (tx_TxID tx)) else
  let rawDataHex := TrimSpace (tx_RawDataHex tx) in
  if decide (rawDataHex = "") then Err (Errorf "tron transaction missing txID/raw_data_hex") else
  match hexBytes rawDataHex with
  | Err e => Err (wrap_error "invalid tron raw_data_hex" e)
  | Ok raw => Ok (hexEncode (sha256 raw))
  end.

(** ** The libraries *)

(** An answer of the node: its status, its body, and the document that resty
    decodes into the result of the request, which is there when the status is a
    success and the body is JSON. *)
Record restyResponse := { ry_StatusCode : Z; ry_Body : string; ry_Result : option doc }.
Definition ry_IsError (r : restyResponse) : bool := bool_decide (399 < ry_StatusCode r).
(** A [POST] of a document to a path of the node, with resty's own attempts. *)
Class Resty (W : Type) := { Post : string → doc → W → result restyResponse * W }.
(** The result is the body as [encoding/json] reads it. *)
Class RestyLaws (W : Type) `{Resty W} : Prop := {
  result_is_body path body w resp w' d : Post path body w = (Ok resp, w') → ry_Result resp = Some d → parseText (ry_Body resp) = Some d;
}.

Record OkLinkTx := {
  ol_TxId : string;
  ol_From : string;
  ol_To : string;
  ol_Amount : string;
  ol_Height : string;
  ol_TokenContractAddress : string;
}.
(** The explorer's transactions of an address, by page and size; [token] asks for
    token transfers. *)
Class TronExplorer (W : Type) := { tronTxByAddress : Z → Z → string → bool → W → result (list OkLinkTx) * W }.

(** btcec's public keys and gotron-sdk's addresses: 21 bytes, written in Base58. *)
Class TronKit := {
  tronpub : Type;
  tronParsePubKey : bytes → result tronpub;
  PubkeyToAddress : tronpub → bytes;
  AddressString : bytes → string;
  Base58ToAddress : string → result bytes;
}.
Class TronKitLaws `{TronKit} : Prop := {
  address_round_trip a : List.length a = 21%nat → Base58ToAddress (AddressString a) = Ok a;
  key_address_length k : List.length (PubkeyToAddress k) = 21%nat;
}.

(** ** [tronclient.go] *)

Section client.
Context {W : Type} `{Resty W} `{TronKit}.

(** A request whose answer is decoded into a zero struct. *)
Definition request {A} (path : string) (body : doc) (zero : A) (members : A → list (string * doc) → option A)
    : call W (restyResponse * A) :=
  resp ← asks (Post path body);
  a ← returns (match ry_Result resp with
               | None => Ok zero
               | Some d => from_option_err (Errorf "json: cannot unmarshal") (into_struct members zero d)
               end);
  mret (resp, a).

Definition Wallet {A} (method : string) (body : doc) (zero : A) (members : A → list (string * doc) → option A) : call W A :=
  out ← request ("/wallet/" +:+ method) body zero members; mret (snd out).

(** What the [JsonRpc] methods have in common. *)
Definition apiRequest {A} (path : string) (body : doc) (zero : A) (members : A → list (string * doc) → option A) : call W A :=
  '(resp, a) ← wrapping "request failed: " (request path body zero members);
  if Contains (ry_Body resp) "Error" then returns (Err (Errorf ("API error: " +:+ ry_Body resp)))
  else if ry_IsError resp then returns (Err (Errorf ("API request failed with status code: " +:+ BigString (ry_StatusCode resp))))
  else mret a.

(** [interface{}] that is an [int64] or a [string], in quotes as raw JSON. *)
Inductive blockParam : Type := ByNumber (n : Z) | ByHash (s : string).
Definition quotation : string := of_bytes [chr 34].
Definition idOrNum (p : blockParam) : result doc :=
  from_option_err (Errorf "request failed: json: error calling MarshalJSON for type json.RawMessage")
    (parseText (quotation +:+ match p with ByNumber n => BigString n | ByHash s => s end +:+ quotation)).

Definition getBlock (detail : bool) (p : blockParam) : call W BlockResponse :=
  id ← returns (idOrNum p);
  apiRequest "/wallet/getblock" (DObj [("detail", DBool detail); ("id_or_num", id)]) zero_block block_members.
Definition JsonRpcBlock : blockParam → call W BlockResponse := getBlock true.
Definition JsonRpcBlockHeader : blockParam → call W BlockResponse := getBlock false.

Definition clientGetBlock (p : blockParam) : call W BlockResponse :=
  wrapping "failed to get block by number: " (JsonRpcBlock p).
Definition clientGetBlockHeader (p : blockParam) : call W BlockResponse :=
  response ← wrapping "failed to get block header: " (JsonRpcBlockHeader p);
  if decide (bl_BlockID response = "") then returns (Err (Errorf "empty response received")) else mret response.

(** The address is sent as an array of one. *)
Definition clientGetBalance (address : string) : call W Account :=
  wrapping "failed to get block by hash: "
    (apiRequest "/wallet/getaccount" (DObj [("address", DArr [DStr address]); ("visible", DBool true)]) zero_account account_members).

Definition GetTransactionByHash (hush : string) : call W Transaction :=
  wrapping "failed to get block by hash: "
    (apiRequest "/walletsolidity/gettransactionbyid" (DObj [("value", DArr [DStr hush])]) zero_tx tx_members).

(** The body of [createtransaction], its keys as the encoder sorts them. *)
Definition trxOrder (fromAddress toAddress : string) (amount : Z) : doc := DObj [
  ("amount", DInt amount); ("owner_address", DStr (TrimSpace fromAddress)); ("to_address", DStr (TrimSpace toAddress));
  ("visible", DBool true)].

Definition CreateTRXTransaction (fromAddress toAddress : string) (amount : Z) : call W Transaction :=
  response ← Wallet "createtransaction" (trxOrder fromAddress toAddress amount) zero_tx tx_members;
  if decide (TrimSpace (tx_TxID response) = "") then returns (Err (Errorf "empty tron unsigned transaction")) else mret response.

Definition tronTRC20FeeLimit : Z := 100000000.

(** The arguments of [transfer(address,uint256)]. *)
Definition trc20Parameter (toBytes : bytes) (amount : Z) : string :=
  leftPadHex (hexEncode toBytes) 64 +:+ leftPadHex (HexText amount) 64.

Definition trc20Order (fromAddress contractAddress : string) (toBytes : bytes) (amount : Z) : doc := DObj [
  ("call_value", DInt 0); ("contract_address", DStr (TrimSpace contractAddress)); ("fee_limit", DInt tronTRC20FeeLimit);
  ("function_selector", DStr "transfer(address,uint256)"); ("owner_address", DStr (TrimSpace fromAddress));
  ("parameter", DStr (trc20Parameter toBytes amount)); ("visible", DBool true)].

(** The recipient's 20 bytes. *)
Definition recipientBytes (toAddress : string) : result bytes :=
  match Base58ToAddress (TrimSpace toAddress) with
  | Err e => Err (wrap_error "invalid tron to address" e)
  | Ok toBytes =>
      let toBytes := if decide (List.length toBytes = 21%nat) then tail toBytes else toBytes in
      if decide (List.length toBytes ≠ 20%nat) then
        Err (Errorf ("invalid tron to address bytes length: " +:+ BigString (Z.of_nat (List.length toBytes))))
      else Ok toBytes
  end.

Definition zero_trigger : TriggerTransactionResponse := {|
  tg_Result := false; tg_Code := ""; tg_Message := ""; tg_Transaction := zero_tx |}.

Definition CreateTRC20Transaction (fromAddress toAddress contractAddress : string) (amount : Z) : call W Transaction :=
  toBytes ← returns (recipientBytes toAddress);
  response ← Wallet "triggersmartcontract" (trc20Order fromAddress contractAddress toBytes amount) zero_trigger trigger_members;
  if negb (tg_Result response) then
    let msg := TrimSpace (tg_Message response) in
    returns (Err (Errorf (if decide (msg = "") then "tron trigger smart contract failed" else msg)))
  else if decide (TrimSpace (tx_TxID (tg_Transaction response)) = "") then
    returns (Err (Errorf "empty tron smart contract transaction"))
  else mret (tg_Transaction response).

Definition BroadcastTransaction (tx : Transaction) : call W BroadcastReturns :=
  Wallet "broadcasttransaction" (txDoc tx) {| bt_Result := false; bt_Code := ""; bt_Txid := ""; bt_Message := "" |}
    BroadcastReturns_members.
End client.

(** ** [tron.go] *)

(** [chains/rpc/account]: of [TxMessage] what the adaptor sets, of the blocks
    the answers as they are. *)
Record accountTxMessage := {
  am_Hash : string;
  am_From : string;
  am_To : string;
  am_Value : string;
  am_Fee : string;
  am_Status : TxStatus;
  am_Type : Z;
  am_Height : string;
  am_ContractAddress : string;
  am_Data : string;
}.
Record BlockInfoTransactionList := {
  bi_Hash : string;
  bi_From : string;
  bi_To : string;
  bi_TokenAddress : string;
  bi_Amount : string;
  bi_Height : Z;
}.
Record tronBlock := { br_Height : Z; br_Hash : string; br_Transactions : list BlockInfoTransactionList }.
Record tronBlockHeader := { th_Hash : string; th_ParentHash : string; th_Number : string; th_Time : Z }.
Record tronAccount := { ta_AccountNumber : string; ta_Sequence : string; ta_Balance : string }.
Record tronFee := { tf_SlowFee : string; tf_NormalFee : string; tf_FastFee : string }.

(** [uint64(v)] of an [int64]. *)
Definition uint64 (v : Z) : Z := v mod 2 ^ 64.

(** The recipient and the amount in the data of [transfer(address,uint256)]. *)
Definition transferData (data : string) : outcome (string * string) :=
  to ← substring 32 72 data;
  digits ← substring 72 136 data;
  mret ("41" +:+ to, amountOfHex digits).

(** The switch over the type of the first contract in a block's transaction. *)
Definition blockTransfer (number : Z) (tx : Transaction) (contract : Contract) : outcome BlockInfoTransactionList :=
  let value := pr_Value (ct_Parameter contract) in
  let info from to token amount := {| bi_Hash := tx_TxID tx; bi_From := from; bi_To := to; bi_TokenAddress := token;
                                      bi_Amount := amount; bi_Height := uint64 number |} in
  if decide (ct_Type contract = "TransferContract") then
    mret (info (cv_OwnerAddress value) (cv_ToAddress value) "" (BigString (cv_Amount value)))
  else if decide (ct_Type contract = "TriggerSmartContract") then
    if decide (138 ≤ List.length (to_bytes (cv_Data value)))%nat then
      '(to, amount) ← transferData (cv_Data value);
      mret (info (cv_OwnerAddress value) to (cv_ContractAddress value) amount)
    else mret (info (cv_OwnerAddress value) "" (cv_ContractAddress value) "")
  else if decide (ct_Type contract = "TransferAssetContract") then
    mret (info (cv_OwnerAddress value) (cv_ToAddress value) (cv_AssetName value) (BigString (cv_Amount value)))
  else mret (info "" "" "" "").

Fixpoint blockTransfers (number : Z) (txs : list Transaction) : outcome (list BlockInfoTransactionList) :=
  match txs with
  | [] => mret []
  | tx :: txs =>
      match default [] (rd_Contract (tx_RawData tx)) with
      | [] => blockTransfers number txs
      | contract :: _ =>
          info ← blockTransfer number tx contract;
          rest ← blockTransfers number txs;
          mret (if decide (bi_From info ≠ "" ∧ bi_To info ≠ "") then info :: rest else rest)
      end
  end.

(** JSON of the two responses that are passed on. *)
Inductive accountMessage : Type :=
  | ATxByAddress (r : response (list accountTxMessage))
  | ATxByHash (r : response accountTxMessage).
Class AccountProtoJSON := { accountProtojson : accountMessage → result jobject; accountStructJSON : accountMessage → jobject }.
Definition tronMarshalProtoJSON `{AccountProtoJSON} (m : accountMessage) : jobject :=
  match accountProtojson m with Ok raw => raw | Err _ => accountStructJSON m end.

(** The JSON mapping of proto3, as for the UTXO chains. *)
Definition accountTxMembers (t : accountTxMessage) : jobject :=
  textMember "hash" (am_Hash t) ++ textMember "from" (am_From t) ++ textMember "to" (am_To t) ++ textMember "fee" (am_Fee t)
  ++ match am_Status t with NotFound => [] | status => [("status", JStr (TxStatus_name status))] end
  ++ textMember "value" (am_Value t) ++ numberMember "type" (am_Type t) ++ textMember "height" (am_Height t)
  ++ textMember "contractAddress" (am_ContractAddress t) ++ textMember "data" (am_Data t).
Definition accountMessageMembers (m : accountMessage) : jobject :=
  match m with
  | ATxByAddress r => responseMembers r ++ listMember "tx" (JObj ∘ accountTxMembers <$> rs_Body r)
  | ATxByHash r => responseMembers r ++ [("tx", JObj (accountTxMembers (rs_Body r)))]
  end.
Class AccountProtoJSONLaws `{AccountProtoJSON} : Prop := { accountProtojson_spec m : accountProtojson m = Ok (accountMessageMembers m) }.

Section adaptor.
Context {W : Type} `{Resty W} `{TronExplorer W} `{TronKit} `{Sha256} `{AccountProtoJSON}.

(** [if err != nil { return &Response{Code: ERROR, Msg: err.Error()}, nil }] after
    each step. *)
Definition reported {A} (zero : A) (p : call W (response A)) : call W (response A) := λ w,
  match p w with
  | (Returned (Err e), w) => (Returned (Ok (Build_response ERROR (error_text e) zero)), w)
  | out => out
  end.

(** The node's answer to the transaction. *)
Definition broadcastAnswer (tx : Transaction) (resp : BroadcastReturns) : call W (response string) :=
  if negb (bt_Result resp) then
    let msg := TrimSpace (bt_Message resp) in
    refusal (if decide (msg = "") then "tron broadcast failed" else msg) ""
  else
    let txHash := TrimSpace (bt_Txid resp) in
    let txHash := if decide (txHash = "") then TrimSpace (tx_TxID tx) else txHash in
    if decide (txHash = "") then refusal "empty tron tx hash" "" else success "broadcast tron tx success" txHash.

Definition tronSendTx (rawTx : string) : call W (response string) := reported "" (
  tx ← returns (decodeTransactionBase64 rawTx);
  resp ← BroadcastTransaction tx;
  broadcastAnswer tx resp).

Definition createTransaction (data : TxStructure) : call W Transaction :=
  if decide (TrimSpace (ts_ContractAddress data) = "") then
    CreateTRXTransaction (ts_FromAddress data) (ts_ToAddress data) (ts_Value data)
  else CreateTRC20Transaction (ts_FromAddress data) (ts_ToAddress data) (ts_ContractAddress data) (ts_Value data).

Definition tronBuildUnSignTransaction (base64Tx : string) : call W (response string) := reported "" (
  data ← returns (decodeUnsignedPayload base64Tx);
  tx ← createTransaction data;
  success "build tron unsigned tx success" (encodeTransactionBase64 tx)).

Definition addSignature (tx : Transaction) (signature : string) : Transaction := {|
  tx_Visible := tx_Visible tx; tx_Ret := tx_Ret tx; tx_Signature := Some (default [] (tx_Signature tx) ++ [signature]);
  tx_TxID := tx_TxID tx; tx_RawData := tx_RawData tx; tx_RawDataHex := tx_RawDataHex tx |}.

Definition tronBuildSignedTransaction (base64Tx signature : string) : call W (response string) := reported "" (
  tx ← returns (decodeTransactionBase64 base64Tx);
  signature ← returns (normalizeTransactionSignature signature);
  success "build tron signed tx success" (encodeTransactionBase64 (addSignature tx signature))).

Definition tronConvertAddress (publicKey : string) : call W (response string) := reported "" (
  pubKeyBytes ← wrapping "invalid hex public key: " (returns (hexBytes publicKey));
  pubKey ← wrapping "invalid public key: " (returns (tronParsePubKey pubKeyBytes));
  success "convert address success" (AddressString (PubkeyToAddress pubKey))).

Definition tronValidAddress (address : string) : call W (response bool) :=
  match Base58ToAddress address with
  | Err _ => refusal "convert address error" false
  | Ok _ => success "convert address success" true
  end.

(** [GetBlockByNumber], and [GetBlockByHash] with the same text. *)
Definition tronGetBlock (p : blockParam) : call W (response tronBlock) :=
  rsp ← clientGetBlock p;
  let number := hr_Number (bh_RawData (bl_BlockHeader rsp)) in
  transactions ← ends (blockTransfers number (default [] (bl_Transactions rsp)));
  success "" {| br_Height := number; br_Hash := bl_BlockID rsp; br_Transactions := transactions |}.
Definition GetBlockByNumber (height : Z) : call W (response tronBlock) := tronGetBlock (ByNumber height).
Definition GetBlockByHash (hash : string) : call W (response tronBlock) := tronGetBlock (ByHash hash).

Definition tronGetBlockHeader (p : blockParam) : call W (response tronBlockHeader) :=
  rsp ← clientGetBlockHeader p;
  let raw := bh_RawData (bl_BlockHeader rsp) in
  success "get latest block header success" {|
    th_Hash := bl_BlockID rsp; th_ParentHash := hr_ParentHash raw; th_Number := BigString (uint64 (hr_Number raw));
    th_Time := uint64 (hr_Timestamp raw) |}.

Definition tronGetAccount (address : string) : call W (response tronAccount) :=
  reported {| ta_AccountNumber := ""; ta_Sequence := ""; ta_Balance := "" |} (
  info ← clientGetBalance address;
  success "get account response success"
    {| ta_AccountNumber := "0"; ta_Sequence := "0"; ta_Balance := BigString (ac_Balance info) |}).

Definition tronGetFee : call W (response tronFee) :=
  success "does not currently support" {| tf_SlowFee := ""; tf_NormalFee := ""; tf_FastFee := "" |}.

Definition explorerMessage (tx : OkLinkTx) : accountTxMessage := {|
  am_Hash := ol_TxId tx; am_From := ol_From tx; am_To := ol_To tx; am_Value := ol_Amount tx; am_Fee := ol_TxId tx;
  am_Status := Success; am_Type := 1; am_Height := ol_Height tx; am_ContractAddress := ol_TokenContractAddress tx;
  am_Data := "" |}.

Definition tronGetTxByAddress (page pagesize : Z) (address contractAddress : string) : call W (response (list accountTxMessage)) :=
  list ← asks (tronTxByAddress page pagesize address (bool_decide (contractAddress ≠ "0x00" ∧ contractAddress ≠ "")));
  success "get tx list success" (explorerMessage <$> list).

Definition zero_message : accountTxMessage := {|
  am_Hash := ""; am_From := ""; am_To := ""; am_Value := ""; am_Fee := ""; am_Status := NotFound; am_Type := 0; am_Height := "";
  am_ContractAddress := ""; am_Data := "" |}.

(** The recipient, the amount and the token of a transaction's first contract. *)
Definition contractTransfer (contract : Contract) : outcome (string * string * string) :=
  let value := pr_Value (ct_Parameter contract) in
  let amountStr := BigString (cv_Amount value) in
  if decide (ct_Type contract = "TransferContract") then mret (cv_ToAddress value, amountStr, "")
  else if decide (ct_Type contract = "TriggerSmartContract") then
    '(to, amount) ← transferData (cv_Data value);
    mret (to, amount, cv_ContractAddress value)
  else if decide (ct_Type contract = "TransferAssetContract") then mret (cv_ToAddress value, amountStr, cv_AssetName value)
  else mret (cv_ToAddress value, amountStr, "").

Definition retStatus (ret : option (list string)) : TxStatus :=
  match default [] ret with
  | contractRet :: _ => if decide (contractRet ≠ "SUCCESS") then Failed else Success
  | [] => Success
  end.

Definition tronGetTxByHash (hash : string) : call W (response accountTxMessage) := reported zero_message (
  resp ← wrapping "Get transaction error: " (GetTransactionByHash hash);
  match default [] (rd_Contract (tx_RawData resp)) with
  | [] => refusal "Invalid transaction: no contract data" zero_message
  | contract :: _ =>
      '(to, amount, token) ← ends (contractTransfer contract);
      success "get transaction success" {|
        am_Hash := tx_TxID resp; am_From := cv_OwnerAddress (pr_Value (ct_Parameter contract)); am_To := to;
        am_Value := amount; am_Fee := BigString (rd_FeeLimit (tx_RawData resp)); am_Status := retStatus (tx_Ret resp);
        am_Type := 0; am_Height := ""; am_ContractAddress := token; am_Data := tx_RawDataHex resp |}
  end).

(** ** [plugin.go]: [started] says whether the adaptor could be made *)

Variable started : result ().

Definition ensureWriter : result () :=
  match started with Err e => Err (wrap_error "tron adaptor init failed" e) | Ok _ => Ok () end.

Definition tronExpectCodeOK (code : ReturnCode) (msg : string) : result () :=
  match code with
  | SUCCESS => Ok ()
  | ERROR => Err (Errorf (TrimSpace (if decide (TrimSpace msg = "") then "tron adaptor request failed" else msg)))
  end.

(** What the methods have in common. *)
Definition written {A} (p : call W (response A)) : call W (response A) :=
  _ ← returns ensureWriter;
  resp ← p;
  _ ← returns (tronExpectCodeOK (rs_Code resp) (rs_Msg resp));
  mret resp.

Definition tronSupportChains (chain : string) : bool := bool_decide (NormalizeChain chain = "tron").

Definition pluginConvertAddress (publicKey : string) : call W string :=
  resp ← written (tronConvertAddress (TrimPrefix (TrimSpace publicKey) "0x")); mret (TrimSpace (rs_Body resp)).

Definition pluginSendTx (rawTx : string) : call W string :=
  resp ← written (tronSendTx (TrimSpace rawTx)); mret (TrimSpace (rs_Body resp)).

Definition pluginBuildUnsigned (base64Tx : string) : call W BuildUnsignedResult :=
  resp ← written (tronBuildUnSignTransaction (TrimSpace base64Tx));
  let unsignedTx := TrimSpace (rs_Body resp) in
  if decide (unsignedTx = "") then returns (Err (Errorf "empty unsigned tx")) else
  signHash ← returns (signHashFromTransactionPayload unsignedTx);
  mret {| br_UnsignedTx := unsignedTx; br_SignHashes := [signHash] |}.

Definition pluginBuildSigned (base64Tx signature : string) : call W string :=
  resp ← written (tronBuildSignedTransaction (TrimSpace base64Tx) (TrimSpace signature)); mret (TrimSpace (rs_Body resp)).

Definition pluginValidAddress (address : string) : call W bool :=
  resp ← written (tronValidAddress (TrimSpace address)); mret (rs_Body resp).

Definition pluginGetFee : call W tronFee :=
  resp ← written tronGetFee;
  let r := rs_Body resp in
  mret {| tf_SlowFee := TrimSpace (tf_SlowFee r); tf_NormalFee := TrimSpace (tf_NormalFee r); tf_FastFee := TrimSpace (tf_FastFee r) |}.

Definition pluginGetAccount (inp : AccountInput) : call W AccountResult :=
  resp ← written (tronGetAccount (TrimSpace (ai_Address inp)));
  let r := rs_Body resp in
  mret {| ar_Network := ""; ar_AccountNumber := TrimSpace (ta_AccountNumber r); ar_Sequence := TrimSpace (ta_Sequence r);
          ar_Balance := TrimSpace (ta_Balance r) |}.

Definition pluginGetTxByHash (inp : TxQueryInput) : call W jobject :=
  resp ← written (tronGetTxByHash (TrimSpace (tq_Hash inp))); mret (tronMarshalProtoJSON (ATxByHash resp)).

Definition pluginGetTxByAddress (inp : TxQueryInput) : call W jobject :=
  resp ← written (tronGetTxByAddress (if decide (tq_Page inp = 0) then 1 else tq_Page inp)
    (if decide (tq_PageSize inp = 0) then 50 else tq_PageSize inp) (TrimSpace (tq_Address inp)) (TrimSpace (tq_ContractAddress inp)));
  mret (tronMarshalProtoJSON (ATxByAddress resp)).

(** The plugin in the process of the gateway; what it does not define is
    [BasePlugin]'s. *)
Definition tronPlugin : ChainPlugin (process W) := {|
  cp_GetTxByAddress inp := hosted (pluginGetTxByAddress inp);
  cp_GetTxByHash inp := hosted (pluginGetTxByHash inp);
  cp_GetAccount inp := hosted (pluginGetAccount inp);
  cp_GetUnspentOutputs _ _ _ s := (Err ErrUnsupported, s);
  cp_ConvertAddress _ _ _ publicKey := hosted (pluginConvertAddress publicKey);
  cp_SendTx _ _ _ rawTx := hosted (pluginSendTx rawTx);
  cp_BuildUnsignedAccount _ _ base64Tx := hosted (pluginBuildUnsigned base64Tx);
  cp_BuildSignedAccount _ _ base64Tx signature _ := hosted (pluginBuildSigned base64Tx signature);
  cp_BuildUnsignedUTXO _ _ _ _ _ s := (Err ErrUnsupported, s);
  cp_BuildSignedUTXO _ _ _ _ _ s := (Err ErrUnsupported, s) |}.

(** The router of the service: the account adapter with this plugin, those before
    it and those after it in the list of start-up. *)
Definition accountGateway (before after : list (string * ChainPlugin (process W))) (utxo : ChainPlugin (process W))
    : result (Router (ChainPlugin (process W))) :=
  a ← NewAdapter (before ++ ("tron", tronPlugin) :: after);
  registerDefaultBindings (accountAdapter a) utxo NewRouter.
End adaptor.
