(* ===== verification/ZenProperties.v ===== *)
(** * Horizen: what the transactions promise

    Integers and scripts are read back as they were written, so a transaction
    that was serialised is deserialised to itself; what the adaptor builds and
    signs pays what was asked. *)
From S2P Require Import Prelude GoStrings GoNumbers GoCodec Ports KeyRef EvmSend Endpoint EvmReader.
From S2P Require Import Normalize EvmPlugin ChainService UtxoPlugins Zen.

Lemma Ok_inv {A} (a b : A) : Ok a = Ok b → b = a.
Proof. by intros [= ->]. Qed.

Lemma mret_bind {A B} (a : A) (f : A → outcome B) : (mret a ≫= f) = f a.
Proof. done. Qed.
Lemma returned_bind {A B} (a : A) (f : A → outcome B) : (Returned (Ok a) ≫= f) = f a.
Proof. done. Qed.

(** ** Little-endian integers *)

Lemma valueOf_range a : 0 ≤ valueOf a < 256.
Proof. unfold valueOf. pose proof (Ascii.N_ascii_bounded a). lia. Qed.

Lemma valueOf_byteOf v : valueOf (byteOf v) = v mod 256.
Proof.
  unfold valueOf, byteOf, byte_of. pose proof (Z.mod_pos_bound v 256 ltac:(lia)).
  rewrite Ascii.N_ascii_embedding by lia. lia.
Qed.

Lemma byteOf_valueOf a : byteOf (valueOf a) = a.
Proof.
  unfold byteOf, byte_of. rewrite Z.mod_small by apply valueOf_range. unfold valueOf.
  rewrite N2Z.id. apply Ascii.ascii_N_embedding.
Qed.

Lemma length_putLE n v : List.length (putLE n v) = n.
Proof. revert v. induction n as [|n IH]; intros v; [done|]. cbn. by rewrite IH. Qed.

Lemma getLE_putLE n v : getLE (putLE n v) = v mod 2 ^ (8 * Z.of_nat n).
Proof.
  revert v. induction n as [|n IH]; intros v; [by rewrite Z.mod_1_r|].
  cbn [putLE getLE]. rewrite IH, valueOf_byteOf.
  replace (2 ^ (8 * Z.of_nat (S n))) with (256 * 2 ^ (8 * Z.of_nat n)).
  2:{ change 256 with (2 ^ 8). rewrite <- Z.pow_add_r by lia. f_equal. lia. }
  rewrite Z.rem_mul_r; lia.
Qed.

Lemma getLE_id n v : 0 ≤ v < 2 ^ (8 * Z.of_nat n) → getLE (putLE n v) = v.
Proof. intros Hv. rewrite getLE_putLE. by apply Z.mod_small. Qed.

Lemma putLE_mod n v : putLE n (v mod 2 ^ (8 * Z.of_nat n)) = putLE n v.
Proof.
  revert v. induction n as [|n IH]; intros v; [done|]. cbn [putLE].
  replace (2 ^ (8 * Z.of_nat (S n))) with (256 * 2 ^ (8 * Z.of_nat n)).
  2:{ change 256 with (2 ^ 8). rewrite <- Z.pow_add_r by lia. f_equal. lia. }
  assert (0 < 2 ^ (8 * Z.of_nat n)) by (apply Z.pow_pos_nonneg; lia).
  rewrite Z.rem_mul_r by lia. f_equal.
  - unfold byteOf. do 2 f_equal. rewrite <- (Z.mod_mod v 256) at 2 by lia.
    rewrite Z.add_mod, (Z.mul_comm 256), Z.mod_mul, Z.add_0_r, !Z.mod_mod by lia. done.
  - rewrite (Z.mul_comm 256), Z.div_add by lia. rewrite Z.div_small by (apply Z.mod_pos_bound; lia).
    rewrite Z.add_0_l. apply IH.
Qed.

Lemma getLE_app l l' : getLE (l ++ l') = getLE l + 2 ^ (8 * Z.of_nat (List.length l)) * getLE l'.
Proof.
  induction l as [|a l IH]; [cbn; lia|]. cbn [app getLE List.length]. rewrite IH.
  replace (2 ^ (8 * Z.of_nat (S (List.length l)))) with (256 * 2 ^ (8 * Z.of_nat (List.length l))); [lia|].
  change 256 with (2 ^ 8). rewrite <- Z.pow_add_r by lia. f_equal. lia.
Qed.

Lemma getLE_range l : 0 ≤ getLE l < 2 ^ (8 * Z.of_nat (List.length l)).
Proof.
  induction l as [|a l IH]; [done|]. cbn [getLE List.length]. pose proof (valueOf_range a).
  replace (2 ^ (8 * Z.of_nat (S (List.length l)))) with (256 * 2 ^ (8 * Z.of_nat (List.length l))); [lia|].
  change 256 with (2 ^ 8). rewrite <- Z.pow_add_r by lia. f_equal. lia.
Qed.

(** ** Hexadecimal *)

Lemma decodeHex_hexEncode b : decodeHex (hexEncode b) = Ok b.
Proof. unfold decodeHex. by rewrite hexDecode_Encode. Qed.

Lemma hexDecode_app l l' b : hexDecode l = Some b → hexDecode (l ++ l') = app b <$> hexDecode l'.
Proof.
  revert b. induction l as [l IH] using (induction_ltof1 _ (@List.length ascii)). unfold ltof in IH.
  destruct l as [|x [|y l]]; intros b Hb.
  - injection Hb as <-. cbn. by destruct (hexDecode l').
  - done.
  - cbn [hexDecode app] in *. destruct (hexDigit x), (hexDigit y); [|done..].
    destruct (hexDecode l) as [b'|] eqn:Hl; [|done]. cbn in Hb |- *. injection Hb as <-.
    rewrite (IH l ltac:(cbn; lia) b' Hl). by destruct (hexDecode l').
Qed.

Lemma decodeHex_app s t b c : decodeHex s = Ok b → decodeHex t = Ok c → decodeHex (s +:+ t) = Ok (b ++ c).
Proof.
  unfold decodeHex. rewrite !from_option_err_ok, to_bytes_app. intros Hs Ht. by rewrite (hexDecode_app _ _ b), Ht.
Qed.

(** The text of the same bytes as [hex] prints it. *)
Definition canonicalHex (s : string) : string := match decodeHex s with Ok b => hexEncode b | Err _ => s end.

Lemma canonicalHex_encode b : canonicalHex (hexEncode b) = hexEncode b.
Proof. unfold canonicalHex. by rewrite decodeHex_hexEncode. Qed.

Lemma length_hexDecode l b : hexDecode l = Some b → List.length l = (2 * List.length b)%nat.
Proof.
  revert b. induction l as [l IH] using (induction_ltof1 _ (@List.length ascii)). unfold ltof in IH.
  destruct l as [|x [|y l]]; intros b Hb; [by injection Hb as <-|done|].
  cbn [hexDecode] in Hb. destruct (hexDigit x), (hexDigit y); [|done..].
  destruct (hexDecode l) as [b'|] eqn:Hl; [|done]. cbn in Hb. injection Hb as <-.
  cbn. rewrite (IH l ltac:(cbn; lia) b' Hl). lia.
Qed.

(** ** Variable length integers *)

Definition varint (num : Z) : bytes :=
  if decide (num < 0xfd) then [byteOf num]
  else if decide (num ≤ 0xffff) then byteOf 0xfd :: putLE 2 num
  else if decide (num ≤ 0xffffffff) then byteOf 0xfe :: putLE 4 num
  else byteOf 0xff :: putLE 8 num.

Lemma NumToVarInt_bytes num : decodeHex (NumToVarInt num) = Ok (varint num).
Proof. apply decodeHex_hexEncode. Qed.

Lemma varint_nonempty num : (1 ≤ List.length (varint num))%nat.
Proof. unfold varint. repeat case_decide; cbn; lia. Qed.

Lemma pushed_spec s b : decodeHex s = Ok b → pushed s = Ok (varint (Z.of_nat (List.length b)) ++ b).
Proof.
  intros Hs. unfold pushed, GetPushDataLength. unfold decodeHex in Hs. pose proof Hs as Hs'. apply from_option_err_ok in Hs'.
  rewrite Hs', bind_ok, NumToVarInt_bytes, bind_ok. unfold decodeHex. by rewrite Hs.
Qed.

Lemma pushed_inv s r : pushed s = Ok r → ∃ b, decodeHex s = Ok b ∧ r = varint (Z.of_nat (List.length b)) ++ b.
Proof.
  intros Hr. destruct (decodeHex s) as [b|e] eqn:Hs; [exists b; split; [done|]; rewrite (pushed_spec _ _ Hs) in Hr; by injection Hr|].
  unfold pushed, GetPushDataLength in Hr. unfold decodeHex in Hs. by destruct (hexDecode (to_bytes s)).
Qed.

Lemma ReadVarInt_at p num q : 0 ≤ num < 2 ^ 64 →
  ReadVarInt (p ++ varint num ++ q) (Z.of_nat (List.length p)) = (num, Z.of_nat (List.length (varint num))).
Proof.
  intros Hn. unfold ReadVarInt. rewrite Nat2Z.id, drop_app_length.
  assert (Hsized : ∀ n, (n > 0)%nat → 0 ≤ num < 2 ^ (8 * Z.of_nat n) →
    (if decide (List.length (putLE n num ++ q) < n)%nat then (0, 0) else (getLE (take n (putLE n num ++ q)), Z.of_nat n + 1))
    = (num, Z.of_nat (S n))).
  { intros n Hn0 Hr. rewrite decide_False by (rewrite List.length_app, length_putLE; lia).
    rewrite take_app_le by (rewrite length_putLE; lia). rewrite take_ge by (rewrite length_putLE; lia).
    rewrite getLE_id by done. f_equal. lia. }
  unfold varint. repeat case_decide; cbn [app List.length].
  - rewrite valueOf_byteOf, Z.mod_small by lia. by rewrite decide_True by lia.
  - rewrite valueOf_byteOf. change (0xfd mod 256) with 0xfd. rewrite decide_False, decide_True by lia. rewrite length_putLE.
    by apply Hsized; [lia|cbn; lia].
  - rewrite valueOf_byteOf. change (0xfe mod 256) with 0xfe. rewrite !decide_False, decide_True by lia. rewrite length_putLE.
    by apply Hsized; [lia|cbn; lia].
  - rewrite valueOf_byteOf. change (0xff mod 256) with 0xff. rewrite !decide_False by lia. rewrite length_putLE.
    by apply Hsized; [lia|cbn; lia].
Qed.

(** ** Readers *)

(** [reads r b x]: wherever the bytes [b] are, [r] reads [x] from them and stops
    behind them. *)
Definition reads {A} (r : bytes → Z → outcome (A * Z)) (b : bytes) (x : A) : Prop := ∀ p q,
  Z.of_nat (List.length (p ++ b ++ q)) ≤ int64_max →
  r (p ++ b ++ q) (Z.of_nat (List.length p)) = mret (x, Z.of_nat (List.length p) + Z.of_nat (List.length b)).

Lemma reads_ret {A} (x : A) : reads (λ _ offset, mret (x, offset)) [] x.
Proof. intros p q _. cbn. by rewrite Z.add_0_r. Qed.

Lemma reads_bind {A B} r (k : A → bytes → Z → outcome (B * Z)) b c x y :
  reads r b x → reads (k x) c y → reads (λ buf offset, '(x, offset) ← r buf offset; k x buf offset) (b ++ c) y.
Proof.
  intros Hr Hk p q Hlen. rewrite <- (assoc_L app b c q) in *. rewrite (Hr p (c ++ q) Hlen).
  change (k x (p ++ b ++ c ++ q) (Z.of_nat (List.length p) + Z.of_nat (List.length b))
          = mret (y, Z.of_nat (List.length p) + Z.of_nat (List.length (b ++ c)))).
  rewrite (assoc_L app p b (c ++ q)) in *. rewrite <- Nat2Z.inj_add, <- List.length_app, (Hk (p ++ b) q Hlen).
  do 2 f_equal. rewrite !List.length_app. lia.
Qed.

Lemma reads_map {A B} r (f : A → B) b x : reads r b x → reads (λ buf offset, '(x, offset) ← r buf offset; mret (f x, offset)) b (f x).
Proof. intros Hr. rewrite <- (app_nil_r b). eapply reads_bind; [done|apply reads_ret]. Qed.

Lemma reads_eq {A} (r : bytes → Z → outcome (A * Z)) b x y : y = x → reads r b x → reads r b y.
Proof. by intros ->. Qed.

Lemma slice_at p b q :
  slice (p ++ b ++ q) (Z.of_nat (List.length p)) (Z.of_nat (List.length p) + Z.of_nat (List.length b)) = mret b.
Proof.
  unfold slice. rewrite !List.length_app, decide_True by lia.
  by rewrite Nat2Z.id, drop_app_length, Z.add_simpl_l, Nat2Z.id, take_app_length.
Qed.

Lemma reads_bytes what b n : n = Z.of_nat (List.length b) → reads (readBytes what n) b b.
Proof.
  intros -> p q Hlen. unfold readBytes. rewrite wrap64_id by (unfold in_int64, int64_min; rewrite !List.length_app in Hlen; lia).
  rewrite decide_False by (rewrite !List.length_app; lia). by rewrite slice_at.
Qed.

Lemma reads_length what num : 0 ≤ num < 2 ^ 64 → reads (readLength what) (varint num) num.
Proof.
  intros Hn p q _. unfold readLength. rewrite ReadVarInt_at by done. pose proof (varint_nonempty num).
  by rewrite decide_False by lia.
Qed.

Lemma reads_script whatLength what b : Z.of_nat (List.length b) ≤ int64_max →
  reads (readScript whatLength what) (varint (Z.of_nat (List.length b)) ++ b) (hexEncode b).
Proof.
  intros Hb. unfold readScript. unfold int64_max in Hb.
  eapply (reads_bind _ (λ scriptLen buf offset, '(script, offset) ← readBytes what (wrap64 scriptLen) buf offset;
                                                mret (hexEncode script, offset))).
  - apply reads_length. lia.
  - apply (reads_map _ hexEncode), reads_bytes, wrap64_id. unfold in_int64, int64_min, int64_max. lia.
Qed.

Lemma reads_many {A} r l (xs : list A) fuel n :
  Forall2 (reads r) l xs → n = Z.of_nat (List.length xs) → (List.length xs ≤ fuel)%nat →
  reads (λ buf, readMany fuel (r buf) n) (concat l) xs.
Proof.
  intros Hl -> Hf. revert fuel Hf. induction Hl as [|b x l xs Hb Hl IH]; intros fuel Hf.
  - intros p q _. cbn. destruct fuel; cbn; by rewrite Z.add_0_r.
  - destruct fuel as [|fuel]; [cbn in Hf; lia|]. cbn [concat]. intros p q Hlen.
    cbn [readMany]. rewrite decide_False by (cbn; lia).
    replace (Z.of_nat (List.length (x :: xs)) - 1) with (Z.of_nat (List.length xs)) by (cbn [List.length]; lia).
    refine (reads_bind r (λ x buf offset, '(rest, offset) ← readMany fuel (r buf) (Z.of_nat (List.length xs)) offset;
                                          mret (x :: rest, offset)) b (concat l) x (x :: xs) Hb _ p q Hlen).
    apply (reads_map (λ buf, readMany fuel (r buf) (Z.of_nat (List.length xs))) (cons x)), IH. cbn in Hf. lia.
Qed.

(** ** Transactions *)

(** An input as a transaction on the chain has it. *)
Definition wellFormedIn (i : Ins) : Prop :=
  (∃ h, decodeHex (in_Hash i) = Ok h ∧ List.length h = 32%nat) ∧ 0 ≤ in_Vout i < 2 ^ 32
  ∧ (∃ q, decodeHex (in_Sequence i) = Ok q ∧ List.length q = 4%nat).
Definition wellFormed (t : TXObject) : Prop :=
  Forall wellFormedIn (tx_Ins t) ∧ Forall (λ o, 0 ≤ out_Satoshis o < 2 ^ 64) (tx_Outs t)
  ∧ 0 ≤ tx_Version t < 2 ^ 32 ∧ 0 ≤ tx_LockTime t < 2 ^ 32.

(** What is on the wire of it. *)
Definition wireIn (withPrevScriptPubKey : bool) (i : Ins) : TxInput := {|
  xn_Hash := canonicalHex (in_Hash i); xn_Vout := in_Vout i; xn_Script := canonicalHex (in_Script i);
  xn_Sequence := canonicalHex (in_Sequence i);
  xn_PrevScriptPubKey := if withPrevScriptPubKey then canonicalHex (in_PrevScriptPubKey i) else "" |}.
Definition wireOut (o : Outs) : ZenTxOut := {| zo_Satoshis := out_Satoshis o; zo_Script := canonicalHex (out_Script o) |}.
Definition wireTx (withPrevScriptPubKey : bool) (t : TXObject) : RawTransaction := {|
  rw_Version := tx_Version t; rw_Locktime := tx_LockTime t; rw_Ins := wireIn withPrevScriptPubKey <$> tx_Ins t;
  rw_Outs := wireOut <$> tx_Outs t |}.

Lemma pushed_reads whatLength what s b :
  pushed s = Ok b → Z.of_nat (List.length b) ≤ int64_max → reads (readScript whatLength what) b (canonicalHex s).
Proof.
  intros (c & Hc & ->)%pushed_inv Hlen. unfold canonicalHex. rewrite Hc. apply reads_script. rewrite List.length_app in Hlen. lia.
Qed.

Lemma reads_in wp i b :
  wellFormedIn i → serializeIn wp i = Ok b → Z.of_nat (List.length b) ≤ int64_max → reads (readIn wp) b (wireIn wp i).
Proof.
  intros ((h & Hh & Hh32) & Hv & q & Hq & Hq4) Hb Hlen. unfold serializeIn in Hb. rewrite Hh, bind_ok in Hb.
  apply bind_ok_inv in Hb as (prev & Hprev & Hb). apply bind_ok_inv in Hb as (script & Hs & Hb). rewrite Hq, bind_ok in Hb.
  apply Ok_inv in Hb as ->. rewrite !List.length_app in Hlen. unfold readIn, wireIn.
  eapply reads_bind; [apply reads_bytes; unfold ReverseBytes; rewrite List.length_rev; lia|].
  eapply reads_bind; [apply reads_bytes; by rewrite length_putLE|].
  eapply (reads_bind _ (λ prev buf offset, '(script, offset) ← readScript _ _ buf offset; _) prev _
            (if wp then canonicalHex (in_PrevScriptPubKey i) else "")).
  { destruct wp; [eapply pushed_reads; [done|lia]|]. injection Hprev as <-. apply reads_ret. }
  eapply reads_bind; [eapply pushed_reads; [done|lia]|].
  eapply reads_eq; [|eapply reads_map, reads_bytes; by rewrite Hq4]. cbn beta. f_equal; unfold canonicalHex.
  - rewrite Hh. unfold ReverseBytes. by rewrite List.rev_involutive.
  - by rewrite getLE_id.
  - by rewrite Hq.
Qed.

Lemma reads_out o b :
  0 ≤ out_Satoshis o < 2 ^ 64 → serializeOut o = Ok b → Z.of_nat (List.length b) ≤ int64_max → reads readOut b (wireOut o).
Proof.
  intros Hv Hb Hlen. unfold serializeOut in Hb. apply bind_ok_inv in Hb as (script & Hs & Hb). apply Ok_inv in Hb as ->.
  rewrite List.length_app in Hlen. unfold readOut, wireOut.
  eapply reads_bind; [apply reads_bytes; by rewrite length_putLE|]. 
  eapply reads_eq; [|eapply reads_map, pushed_reads; [done|lia]]. cbn beta. by rewrite getLE_id.
Qed.

Lemma written_length {A} (f : A → result bytes) l b :
  (∀ x c, f x = Ok c → (1 ≤ List.length c)%nat) → written f l = Ok b → (List.length l ≤ List.length b)%nat.
Proof.
  intros Hne. revert b. induction l as [|x l IH]; intros b Hb; [cbn; lia|]. cbn [written] in Hb.
  apply bind_ok_inv in Hb as (b1 & Hb1 & Hb). apply bind_ok_inv in Hb as (b2 & Hb2 & Hb). apply Ok_inv in Hb as ->.
  rewrite List.length_app. specialize (IH _ Hb2). specialize (Hne _ _ Hb1). cbn. lia.
Qed.

(** What a loop writes is what a loop reads, in no more rounds than there are
    bytes. *)
Lemma written_reads {A B} (P : A → Prop) (f : A → result bytes) (g : A → B) r l b fuel :
  (∀ x c, f x = Ok c → (1 ≤ List.length c)%nat) →
  (∀ x c, P x → f x = Ok c → Z.of_nat (List.length c) ≤ int64_max → reads r c (g x)) →
  Forall P l → written f l = Ok b → Z.of_nat (List.length b) ≤ int64_max → (List.length b ≤ fuel)%nat →
  reads (λ buf, readMany fuel (r buf) (Z.of_nat (List.length l))) b (g <$> l).
Proof.
  intros Hne Hf Hl Hb Hlen Hfuel. pose proof (written_length f l b Hne Hb) as Hle.
  assert (∃ bs, b = concat bs ∧ Forall2 (reads r) bs (g <$> l)) as (bs & -> & Hbs).
  { clear Hle Hfuel. revert b Hb Hlen. induction Hl as [|x l Hx Hl IH]; intros b Hb Hlen; [apply Ok_inv in Hb as ->; by exists []|].
    cbn [written] in Hb. apply bind_ok_inv in Hb as (b1 & Hb1 & Hb). apply bind_ok_inv in Hb as (b2 & Hb2 & Hb).
    apply Ok_inv in Hb as ->. rewrite List.length_app in Hlen. destruct (IH b2 Hb2 ltac:(lia)) as (bs & -> & Hbs).
    exists (b1 :: bs). split; [done|]. constructor; [|done]. apply (Hf x); [done..|lia]. }
  apply reads_many; [done|by rewrite length_fmap|rewrite length_fmap; lia].
Qed.

(** [deserializeBytes] from any offset. *)
Definition readTx (fuel : nat) (wp : bool) (buf : bytes) (offset : Z) : outcome (RawTransaction * Z) :=
  '(version, offset) ← readBytes "no enough data to read version" 4 buf offset;
  '(vinLen, offset) ← readLength "cant read input length" buf offset;
  '(ins, offset) ← readMany fuel (readIn wp buf) vinLen offset;
  '(voutLen, offset) ← readLength "cant read output length" buf offset;
  '(outs, offset) ← readMany fuel (readOut buf) voutLen offset;
  '(locktime, offset) ← readBytes "cant read locktime" 4 buf offset;
  mret ({| rw_Version := getLE version; rw_Locktime := getLE locktime; rw_Ins := ins; rw_Outs := outs |}, offset).

Lemma deserializeBytes_readTx fuel buf wp : deserializeBytes fuel buf wp = ('(t, _) ← readTx fuel wp buf 0; mret t).
Proof.
  unfold deserializeBytes, readTx.
  repeat match goal with
  | |- (?m ≫= _) = _ => destruct m as [[[? ?]|]|]; [cbn [mbind outcome_bind]|done|done]
  end. done.
Qed.

Lemma serializeIn_nonempty wp i b : serializeIn wp i = Ok b → (1 ≤ List.length b)%nat.
Proof.
  intros Hb. unfold serializeIn in Hb. do 4 (apply bind_ok_inv in Hb as (? & _ & Hb)). apply Ok_inv in Hb as ->.
  rewrite !List.length_app, length_putLE. lia.
Qed.
Lemma serializeOut_nonempty o b : serializeOut o = Ok b → (1 ≤ List.length b)%nat.
Proof.
  intros Hb. unfold serializeOut in Hb. apply bind_ok_inv in Hb as (? & _ & Hb). apply Ok_inv in Hb as ->.
  rewrite !List.length_app, length_putLE. lia.
Qed.

Lemma reads_tx wp t raw fuel :
  wellFormed t → SerializeTX t wp = Ok raw → Z.of_nat (List.length raw) ≤ int64_max → (List.length raw ≤ fuel)%nat →
  reads (readTx fuel wp) raw (wireTx wp t).
Proof.
  intros (Hins & Houts & Hver & Hlock) Hraw Hlen Hfuel. unfold SerializeTX in Hraw. rewrite !NumToVarInt_bytes, bind_ok in Hraw.
  apply bind_ok_inv in Hraw as (ins & Hi & Hraw). rewrite bind_ok in Hraw.
  apply bind_ok_inv in Hraw as (outs & Ho & Hraw). apply Ok_inv in Hraw as ->. rewrite !List.length_app in Hlen, Hfuel.
  pose proof (written_reads _ _ (wireIn wp) (readIn wp) _ _ fuel
    (serializeIn_nonempty wp) (reads_in wp) Hins Hi ltac:(lia) ltac:(lia)) as Ri.
  pose proof (written_reads _ _ wireOut readOut _ _ fuel
    serializeOut_nonempty reads_out Houts Ho ltac:(lia) ltac:(lia)) as Ro.
  pose proof (written_length _ _ _ (serializeIn_nonempty wp) Hi). pose proof (written_length _ _ _ serializeOut_nonempty Ho).
  unfold int64_max in Hlen. unfold readTx.
  eapply reads_bind; [apply reads_bytes; by rewrite length_putLE|].
  eapply reads_bind; [apply reads_length; lia|]. eapply reads_bind; [exact Ri|].
  eapply reads_bind; [apply reads_length; lia|]. eapply reads_bind; [exact Ro|].
  eapply reads_eq; [|eapply reads_map, reads_bytes; by rewrite length_putLE]. unfold wireTx. cbn beta.
  by rewrite !getLE_id by done.
Qed.

Lemma reads_deserialize wp raw tx :
  reads (readTx (S (List.length raw)) wp) raw tx → Z.of_nat (List.length raw) ≤ int64_max → DeserializeTx (hexEncode raw) wp = mret tx.
Proof.
  intros Hr Hlen. unfold DeserializeTx. rewrite hexDecode_Encode, deserializeBytes_readTx. specialize (Hr [] []).
  cbn [app] in Hr. rewrite app_nil_r in Hr. change (Z.of_nat (List.length [])) with 0 in Hr. by rewrite (Hr Hlen).
Qed.

(** C19. What [SerializeTX] writes, [DeserializeTx] reads: the transaction that
    was serialised, with its texts in lower case, whatever its inputs and
    outputs; no byte is lost, misplaced or misread. *)
Theorem DeserializeTx_SerializeTX t wp raw :
  wellFormed t → SerializeTX t wp = Ok raw → Z.of_nat (List.length raw) ≤ int64_max →
  DeserializeTx (hexEncode raw) wp = mret (wireTx wp t).
Proof. intros Ht Hraw Hlen. apply reads_deserialize; [|done]. apply (reads_tx wp t raw); [done..|lia]. Qed.

(** ** Rounds *)

(** *** A script length that is no length *)

(** Wherever the bytes [b] are, [r] panics on them. *)
Definition strikes {A} (r : bytes → Z → outcome A) (b : bytes) : Prop := ∀ p q,
  Z.of_nat (List.length (p ++ b ++ q)) ≤ int64_max → r (p ++ b ++ q) (Z.of_nat (List.length p)) = Panicked.

Lemma strikes_bind {A B} r (k : A → bytes → Z → outcome B) b c x :
  reads r b x → strikes (k x) c → strikes (λ buf offset, '(x, offset) ← r buf offset; k x buf offset) (b ++ c).
Proof.
  intros Hr Hk p q Hlen. rewrite <- (assoc_L app b c q) in *. rewrite (Hr p (c ++ q) Hlen).
  change (k x (p ++ b ++ c ++ q) (Z.of_nat (List.length p) + Z.of_nat (List.length b)) = Panicked).
  rewrite (assoc_L app p b (c ++ q)) in *. by rewrite <- Nat2Z.inj_add, <- List.length_app, (Hk (p ++ b) q Hlen).
Qed.
Lemma strikes_first {A B} r (k : A → bytes → outcome B) b : strikes r b → strikes (λ buf offset, x ← r buf offset; k x buf) b.
Proof. intros Hr p q Hlen. by rewrite (Hr p q Hlen). Qed.

Lemma oversized_bytes what n : - 2 ^ 63 ≤ n < 0 → strikes (readBytes what n) [].
Proof.
  intros Hn p q Hlen. unfold int64_max in Hlen. unfold readBytes.
  rewrite wrap64_id by (unfold in_int64, int64_min, int64_max; rewrite !List.length_app in Hlen; lia).
  rewrite decide_False by (rewrite !List.length_app; lia). unfold slice. by rewrite decide_False by lia.
Qed.

Lemma oversized_script whatLength what num : 2 ^ 63 ≤ num < 2 ^ 64 → strikes (readScript whatLength what) (varint num).
Proof.
  intros Hn. rewrite <- (app_nil_r (varint num)). unfold readScript.
  eapply (strikes_bind _ (λ scriptLen buf offset, '(script, offset) ← readBytes what (wrap64 scriptLen) buf offset; mret (hexEncode script, offset))).
  - apply reads_length. lia.
  - apply (strikes_first _ (λ x _, let '(script, offset) := x in mret (hexEncode script, offset))), oversized_bytes. unfold wrap64. lia.
Qed.

(** The bytes up to the length of the first script. *)
Definition oversized (version txid vout : bytes) (num : Z) : bytes := version ++ varint 1 ++ txid ++ vout ++ varint num.

Lemma oversized_strikes version txid vout num fuel :
  List.length version = 4%nat → List.length txid = 32%nat → List.length vout = 4%nat → 2 ^ 63 ≤ num < 2 ^ 64 →
  strikes (readTx (S fuel) false) (oversized version txid vout num).
Proof.
  intros Hv Ht Ho Hn.
  assert (Hin : strikes (readIn false) (txid ++ vout ++ varint num)).
  { unfold readIn. eapply strikes_bind; [apply reads_bytes; by rewrite Ht|]. eapply strikes_bind; [apply reads_bytes; by rewrite Ho|].
    change (varint num) with ([] ++ varint num).
    eapply (strikes_bind _ (λ prev buf offset, '(script, offset) ← readScript _ _ buf offset; _) [] _ ""); [apply reads_ret|].
    eapply strikes_first, oversized_script. lia. }
  unfold readTx, oversized. eapply strikes_bind; [apply reads_bytes; by rewrite Hv|].
  eapply strikes_bind; [apply reads_length; lia|]. eapply strikes_first. intros p q Hlen.
  cbn [readMany]. rewrite decide_False by lia. by rewrite (Hin p q Hlen).
Qed.

Lemma oversized_panics version txid vout num l :
  List.length version = 4%nat → List.length txid = 32%nat → List.length vout = 4%nat → 2 ^ 63 ≤ num < 2 ^ 64 →
  Z.of_nat (List.length (oversized version txid vout num ++ l)) ≤ int64_max →
  deserializeBytes (S (List.length (oversized version txid vout num ++ l))) (oversized version txid vout num ++ l) false = Panicked.
Proof.
  intros Hv Ht Ho Hn Hlen. rewrite deserializeBytes_readTx.
  change (oversized version txid vout num ++ l) with ([] ++ oversized version txid vout num ++ l).
  by rewrite (oversized_strikes version txid vout num _ Hv Ht Ho Hn [] l Hlen).
Qed.


(** A reader that moves on, within the buffer. *)
Definition advances {A} (buf : bytes) (r : Z → outcome (A * Z)) (least : Z) : Prop := ∀ offset x offset',
  0 ≤ offset ≤ Z.of_nat (List.length buf) → r offset = mret (x, offset') →
  offset + least ≤ offset' ≤ Z.of_nat (List.length buf).
Lemma outcome_bind_ok {A B} (o : outcome A) (f : A → outcome B) b : (o ≫= f) = mret b → ∃ a, o = mret a ∧ f a = mret b.
Proof. destruct o as [[a|e]|]; intros E; [by exists a|done|done]. Qed.

Lemma advances_bind {A B} buf (r : Z → outcome (A * Z)) (k : A → Z → outcome (B * Z)) m n :
  0 ≤ m → advances buf r m → (∀ x, advances buf (k x) n) → advances buf (λ offset, '(x, offset) ← r offset; k x offset) (m + n).
Proof.
  intros Hm Hr Hk offset y offset' Ho E. apply outcome_bind_ok in E as ([x o] & E1 & E2).
  pose proof (Hr offset x o Ho E1). pose proof (Hk x o y offset' ltac:(lia) E2). lia.
Qed.

Lemma advances_ret {A} buf (x : A) : advances buf (λ offset, mret (x, offset)) 0.
Proof. intros offset y offset' Ho [= <- <-]. lia. Qed.

Lemma advances_bytes what n buf : advances buf (readBytes what n buf) 0.
Proof.
  intros offset x offset' Ho E. unfold readBytes in E. case_decide; [done|]. apply outcome_bind_ok in E as (b & Eb & E).
  injection E as <- <-. unfold slice in Eb. case_decide; [lia|done].
Qed.

Lemma ReadVarInt_bounds buf offset : 0 ≤ offset ≤ Z.of_nat (List.length buf) →
  (ReadVarInt buf offset).2 = 0 ∨ 1 ≤ (ReadVarInt buf offset).2 ≤ Z.of_nat (List.length buf) - offset.
Proof.
  intros Ho. unfold ReadVarInt. assert (Hl : List.length (drop (Z.to_nat offset) buf) = (List.length buf - Z.to_nat offset)%nat)
    by apply length_drop.
  destruct (drop (Z.to_nat offset) buf) as [|first rest]; [by left|]. cbn in Hl.
  repeat case_decide; cbn; lia.
Qed.

Lemma advances_length what buf : advances buf (readLength what buf) 1.
Proof.
  intros offset x offset' Ho E. unfold readLength in E. pose proof (ReadVarInt_bounds buf offset Ho) as Hb.
  destruct (ReadVarInt buf offset) as [v n]. case_decide; [done|]. injection E as <- <-. cbn in Hb. lia.
Qed.

Lemma advances_script whatLength what buf : advances buf (readScript whatLength what buf) 1.
Proof.
  unfold readScript. apply (advances_bind _ _ (λ scriptLen offset, _) 1 0); [lia|apply advances_length|]. intros scriptLen.
  apply (advances_bind _ _ (λ script offset, _) 0 0); [lia|apply advances_bytes|]. intros. apply advances_ret.
Qed.

Lemma advances_in wp buf : advances buf (readIn wp buf) 1.
Proof.
  unfold readIn. apply (advances_bind _ _ (λ hash offset, _) 0 1); [lia|apply advances_bytes|]. intros hash.
  apply (advances_bind _ _ (λ vout offset, _) 0 1); [lia|apply advances_bytes|]. intros vout.
  apply (advances_bind _ (λ offset, if wp then readScript "cant read prev script pubkey length" "cant read prev script pubkey" buf offset
                                    else mret ("", offset)) (λ prev offset, _) 0 1); [lia| |].
  { destruct wp; [|apply advances_ret]. intros o x o' Ho E. pose proof (advances_script _ _ _ _ _ _ Ho E). lia. }
  intros prev. apply (advances_bind _ _ (λ script offset, _) 1 0); [lia|apply advances_script|]. intros script.
  apply (advances_bind _ _ (λ sequence offset, _) 0 0); [lia|apply advances_bytes|]. intros. apply advances_ret.
Qed.

Lemma advances_out buf : advances buf (readOut buf) 1.
Proof.
  unfold readOut. apply (advances_bind _ _ (λ satoshis offset, _) 0 1); [lia|apply advances_bytes|]. intros satoshis.
  apply (advances_bind _ _ (λ script offset, _) 1 0); [lia|apply advances_script|]. intros. apply advances_ret.
Qed.

(** More fuel than bytes changes nothing. *)
Lemma readMany_fuel {A} buf (r : Z → outcome (A * Z)) f f' n offset :
  advances buf r 1 → 0 ≤ offset ≤ Z.of_nat (List.length buf) →
  Z.of_nat (List.length buf) - offset < Z.of_nat f → Z.of_nat (List.length buf) - offset < Z.of_nat f' →
  readMany f r n offset = readMany f' r n offset.
Proof.
  intros Hr. revert f' n offset. induction f as [|f IH]; intros f' n offset Ho Hf Hf'; [lia|].
  destruct f' as [|f']; [lia|]. cbn [readMany]. case_decide; [done|].
  destruct (r offset) as [[[x o]|]|] eqn:E; [|done|done]. cbn [mbind outcome_bind].
  pose proof (Hr offset x o Ho E). by rewrite (IH f' (n - 1) o) by lia.
Qed.

Lemma advances_many {A} buf (r : Z → outcome (A * Z)) f n : advances buf r 1 → advances buf (readMany f r n) 0.
Proof.
  intros Hr. revert n. induction f as [|f IH]; intros n offset x o Ho E; cbn [readMany] in E.
  - case_decide; [|done]. injection E as <- <-. lia.
  - case_decide; [injection E as <- <-; lia|]. apply outcome_bind_ok in E as ([y o1] & E1 & E).
    apply outcome_bind_ok in E as ([ys o2] & E2 & E). injection E as <- <-.
    pose proof (Hr _ _ _ Ho E1). pose proof (IH (n - 1) o1 ys o2 ltac:(lia) E2). lia.
Qed.

(** The fuel of [DeserializeTx] is enough: whatever counts the text claims (up to
    2^64 inputs), no more rounds are made than there are bytes, so more fuel
    changes nothing. *)
Lemma DeserializeTx_rounds fuel buf wp :
  (List.length buf < fuel)%nat → deserializeBytes fuel buf wp = DeserializeTx (hexEncode buf) wp.
Proof.
  intros Hf. unfold DeserializeTx. rewrite hexDecode_Encode. unfold deserializeBytes.
  destruct (readBytes _ 4 buf 0) as [[[version o1]|]|] eqn:E1; [|done..]. cbn [mbind outcome_bind].
  assert (0 ≤ 0 ≤ Z.of_nat (List.length buf)) as B0 by lia. pose proof (advances_bytes _ _ _ _ _ _ B0 E1).
  destruct (readLength _ buf o1) as [[[vinLen o2]|]|] eqn:E2; [|done..]. cbn [mbind outcome_bind].
  assert (0 ≤ o1 ≤ Z.of_nat (List.length buf)) as B1 by lia. pose proof (advances_length _ _ _ _ _ B1 E2).
  rewrite (readMany_fuel buf (readIn wp buf) fuel (S (List.length buf))) by (apply advances_in || lia).
  destruct (readMany _ (readIn wp buf) vinLen o2) as [[[ins o3]|]|] eqn:E3; [|done..]. cbn [mbind outcome_bind].
  assert (0 ≤ o2 ≤ Z.of_nat (List.length buf)) as B2 by lia.
  pose proof (advances_many buf _ _ _ (advances_in wp buf) _ _ _ B2 E3).
  destruct (readLength _ buf o3) as [[[voutLen o4]|]|] eqn:E4; [|done..]. cbn [mbind outcome_bind].
  assert (0 ≤ o3 ≤ Z.of_nat (List.length buf)) as B3 by lia. pose proof (advances_length _ _ _ _ _ B3 E4).
  by rewrite (readMany_fuel buf (readOut buf) fuel (S (List.length buf))) by (apply advances_out || lia).
Qed.

(** ** Block heights *)

(** The number a script reads from the top of its stack. *)
Definition scriptNumValue (l : bytes) : Z :=
  match List.rev l with
  | [] => 0
  | last :: front =>
      let v := getLE (List.rev front) + 2 ^ (8 * Z.of_nat (List.length front)) * Z.land (valueOf last) 0x7f in
      if decide (Z.land (valueOf last) 0x80 = 0) then v else - v
  end.
(** Nodes refuse a number with more bytes than it needs. *)
Definition minimalNum (l : bytes) : Prop :=
  match List.rev l with
  | [] => True
  | [a] => Z.land (valueOf a) 0x7f ≠ 0
  | a :: b :: _ => Z.land (valueOf a) 0x7f ≠ 0 ∨ Z.land (valueOf b) 0x80 ≠ 0
  end.

Lemma putLE_snoc m v : putLE (S m) v = putLE m v ++ [byteOf (v / 2 ^ (8 * Z.of_nat m))].
Proof.
  revert v. induction m as [|m IH]; intros v; [cbn; by rewrite Z.div_1_r|].
  change (putLE (S (S m)) v) with (byteOf v :: putLE (S m) (v / 256)). rewrite IH. cbn [app putLE]. do 4 f_equal.
  rewrite Z.div_div by (try apply Z.pow_pos_nonneg; lia). f_equal. change 256 with (2 ^ 8).
  rewrite <- Z.pow_add_r by lia. f_equal. lia.
Qed.

Lemma sign_bits x : 0 ≤ x < 128 →
  Z.land x 0x80 = 0 ∧ Z.land x 0x7f = x ∧ Z.lor x 0x80 = x + 128 ∧ Z.land (x + 128) 0x80 = 0x80 ∧ Z.land (x + 128) 0x7f = x.
Proof.
  intros Hx. assert (Hall : forallb (λ k, let x := Z.of_nat k in
    bool_decide (Z.land x 0x80 = 0 ∧ Z.land x 0x7f = x ∧ Z.lor x 0x80 = x + 128 ∧ Z.land (x + 128) 0x80 = 0x80
                 ∧ Z.land (x + 128) 0x7f = x)) (seq 0 128) = true) by (vm_compute; reflexivity).
  rewrite forallb_forall in Hall. specialize (Hall (Z.to_nat x)). cbv zeta in Hall. rewrite Z2Nat.id in Hall by lia.
  apply (bool_decide_eq_true _), Hall, List.in_seq. lia.
Qed.

Lemma top_bit b : 128 ≤ valueOf b → Z.land (valueOf b) 0x80 ≠ 0.
Proof.
  intros Hb. pose proof (valueOf_range b). destruct (sign_bits (valueOf b - 128) ltac:(lia)) as (_ & _ & _ & E & _).
  rewrite Z.sub_add in E. by rewrite E.
Qed.

(** The bytes of a value below its size's sign bit, and not below the size
    before. *)
Lemma scriptNumSize_spec v : 0 < v < 2 ^ 39 →
  ∃ m, scriptNumSize v = S m ∧ v < 2 ^ (8 * Z.of_nat m + 7) ∧ 2 ^ (8 * Z.of_nat m - 1) ≤ v ∧ (m ≤ 4)%nat.
Proof.
  intros Hv. unfold scriptNumSize. repeat case_decide.
  - exists 4%nat. cbn. lia.
  - exists 3%nat. cbn. lia.
  - exists 2%nat. cbn. lia.
  - exists 1%nat. cbn. lia.
  - exists 0%nat. split_and!; [done|cbn; lia|change (2 ^ (8 * Z.of_nat 0 - 1)) with 0; lia|lia].
  - lia.
Qed.

Lemma scriptNumValue_snoc front x (negative : bool) : 0 ≤ x < 128 →
  scriptNumValue (front ++ [byteOf (if negative then x + 128 else x)])
  = let v := getLE front + 2 ^ (8 * Z.of_nat (List.length front)) * x in if negative then - v else v.
Proof.
  intros Hx. destruct (sign_bits x Hx) as (E1 & E2 & _ & E4 & E5). unfold scriptNumValue. rewrite List.rev_app_distr. cbn [List.rev app].
  rewrite List.rev_involutive, List.length_rev, valueOf_byteOf. cbv zeta. destruct negative.
  - rewrite (Z.mod_small (x + 128)) by lia. rewrite E5, E4. by rewrite decide_False.
  - rewrite (Z.mod_small x) by lia. by rewrite E1, E2, decide_True.
Qed.

Lemma scriptNumEncode_spec n : n ≠ 0 → Z.abs n < 2 ^ 39 →
  ∃ l, scriptNumEncode n = mret l ∧ scriptNumValue l = n ∧ minimalNum l ∧ (1 ≤ List.length l ≤ 5)%nat.
Proof.
  intros Hn0 Hn. unfold scriptNumEncode. set (negative := bool_decide (n < 0)).
  replace (if negative then wrap64 (- n) else n) with (Z.abs n).
  2:{ subst negative. case_bool_decide; [rewrite wrap64_id by (unfold in_int64, int64_min, int64_max; lia); lia|lia]. }
  destruct (scriptNumSize_spec (Z.abs n) ltac:(lia)) as (m & -> & Hlt & Hge & Hm). set (v := Z.abs n) in *. cbv zeta.
  rewrite putLE_snoc, List.rev_app_distr. cbn [List.rev app]. set (x := v / 2 ^ (8 * Z.of_nat m)).
  assert (Hpow : 0 < 2 ^ (8 * Z.of_nat m)) by (apply Z.pow_pos_nonneg; lia).
  assert (Hx : 0 ≤ x < 128).
  { unfold x. split; [apply Z.div_pos; lia|]. apply Z.div_lt_upper_bound; [done|]. change 128 with (2 ^ 7).
    by rewrite <- Z.pow_add_r by lia. }
  destruct (sign_bits x Hx) as (E1 & _ & E3 & _ & _).
  assert (Hsign : signByte negative (byteOf x) = byteOf (if negative then x + 128 else x)).
  { unfold signByte. rewrite valueOf_byteOf, Z.mod_small by lia. rewrite E1, decide_False by (intros E; by apply E).
    destruct negative; [by rewrite E3|done]. }
  rewrite Hsign, List.rev_involutive. eexists. split; [done|]. split_and!.
  - rewrite scriptNumValue_snoc by done. rewrite getLE_putLE, length_putLE. cbv zeta.
    replace (v mod 2 ^ (8 * Z.of_nat m) + 2 ^ (8 * Z.of_nat m) * x) with v by (unfold x; pose proof (Z.div_mod v (2 ^ (8 * Z.of_nat m)) ltac:(lia)); lia).
    unfold v, negative. case_bool_decide; lia.
  - unfold minimalNum. rewrite List.rev_app_distr. cbn [List.rev app].
    assert (Hlow : Z.land (valueOf (byteOf (if negative then x + 128 else x))) 0x7f = x).
    { destruct (sign_bits x Hx) as (_ & L1 & _ & _ & L2). rewrite valueOf_byteOf.
      destruct negative; rewrite Z.mod_small by lia; [exact L2|exact L1]. }
    rewrite Hlow. destruct m as [|m]; [cbn; unfold x; cbn; rewrite Z.div_1_r; lia|].
    rewrite putLE_snoc, List.rev_app_distr. cbn [List.rev app].
    destruct (decide (x = 0)) as [Hx0|]; [right|by left]. apply top_bit. rewrite valueOf_byteOf.
    assert (v < 2 ^ (8 * Z.of_nat (S m))) by (apply Z.div_small_iff in Hx0; lia).
    assert (0 < 2 ^ (8 * Z.of_nat m)) by (apply Z.pow_pos_nonneg; lia).
    replace (2 ^ (8 * Z.of_nat (S m) - 1)) with (2 ^ (8 * Z.of_nat m) * 128) in Hge.
    2:{ change 128 with (2 ^ 7). rewrite <- Z.pow_add_r by lia. f_equal. lia. }
    replace (2 ^ (8 * Z.of_nat (S m))) with (2 ^ (8 * Z.of_nat m) * 256) in * by (change 256 with (2 ^ 8); rewrite <- Z.pow_add_r by lia; f_equal; lia).
    rewrite Z.mod_small.
    + apply Z.div_le_lower_bound; lia.
    + split; [apply Z.div_pos; lia|apply Z.div_lt_upper_bound; lia].
  - rewrite List.length_app. cbn. lia.
  - rewrite List.length_app, length_putLE. cbn. lia.
Qed.

Lemma hexEncode_app a b : hexEncode (a ++ b) = hexEncode a +:+ hexEncode b.
Proof.
  unfold hexEncode. rewrite flat_map_app. rewrite <- (of_to_bytes (_ +:+ _)), to_bytes_app, !to_of_bytes. done.
Qed.

Lemma append_assoc s t u : s +:+ (t +:+ u) = (s +:+ t) +:+ u.
Proof.
  assert (E : to_bytes (s +:+ (t +:+ u)) = to_bytes ((s +:+ t) +:+ u)) by (rewrite !to_bytes_app; apply app_assoc).
  apply (f_equal of_bytes) in E. by rewrite !of_to_bytes in E.
Qed.

Lemma GetPushDataLength_hex l : GetPushDataLength (hexEncode l) = Ok (NumToVarInt (Z.of_nat (List.length l))).
Proof. unfold GetPushDataLength. by rewrite hexDecode_Encode. Qed.

Lemma NumToVarInt_small (l : bytes) : (List.length l < 253)%nat →
  NumToVarInt (Z.of_nat (List.length l)) = hexEncode [byteOf (Z.of_nat (List.length l))].
Proof. intros Hl. unfold NumToVarInt. by rewrite decide_True by lia. Qed.

(** A push of fewer than 76 bytes: their number and the bytes. *)
Definition pushOf (l : bytes) : bytes := byteOf (Z.of_nat (List.length l)) :: l.

Lemma push_hex l : (List.length l < 253)%nat →
  NumToVarInt (Z.of_nat (List.length l)) +:+ hexEncode l = hexEncode (pushOf l).
Proof. intros Hl. rewrite NumToVarInt_small by done. unfold pushOf. change (byteOf (Z.of_nat (List.length l)) :: l) with ([byteOf (Z.of_nat (List.length l))] ++ l).
  by rewrite hexEncode_app. Qed.

(** C40. The block height of a replay script, for every height a script number
    can hold but those from -1 to 16, is one push of the shortest number that
    stands for it, of one to five bytes.  The heights from -1 to 16 have opcodes
    of their own, which the code gets wrong, see [small_heights]. *)
Theorem block_height_is_minimal h :
  Z.abs h < 2 ^ 39 → ¬ (-1 ≤ h ≤ 16) →
  ∃ l, serializeScriptBlockHeight h = mret (hexEncode (pushOf l)) ∧ scriptNumValue l = h ∧ minimalNum l
    ∧ (1 ≤ List.length l ≤ 5)%nat.
Proof.
  intros Hh Hs. destruct (scriptNumEncode_spec h ltac:(lia) Hh) as (l & Hl & Hv & Hm & Hlen). exists l. split; [|done].
  unfold serializeScriptBlockHeight. rewrite decide_False by done. rewrite Hl, mret_bind. cbv zeta.
  rewrite GetPushDataLength_hex, returned_bind. by rewrite push_hex by lia.
Qed.

(** The heights below: [OPGetNum] reads the opcode in decimal, so only 1 to 9
    have theirs; 10 is taken for 16, and -1 makes a script that is not
    hexadecimal. *)
Lemma small_heights :
  Forall (λ h, serializeScriptBlockHeight h = mret (hexEncode [byteOf (0x50 + h)])) [1; 2; 3; 4; 5; 6; 7; 8; 9]
  ∧ Forall (λ h, serializeScriptBlockHeight h = mret (hexEncode [byteOf (0x56 + h)])) [10; 11; 12; 13; 14; 15; 16]
  ∧ serializeScriptBlockHeight 0 = mret (hexEncode [byteOf 0x50])
  ∧ serializeScriptBlockHeight (-1) = mret "0" ∧ decodeHex "0" = Err (Errorf "encoding/hex: invalid").
Proof. split_and!; [repeat constructor; vm_compute; reflexivity..| | |]; vm_compute; reflexivity. Qed.

(** ** Addresses *)

(** Base58 and its check: the version and the data, and the first four bytes of
    their double SHA-256 behind them.  HASH160 has 20 bytes, SHA-256 has 32. *)
Class Base58Laws `{Base58, Sha256} : Prop := {
  b58Decode_Encode l : b58Decode (b58Encode l) = l;
  CheckDecode_Encode v data : CheckDecode (b58Encode (v :: data ++ take 4 (sha256 (sha256 (v :: data))))) = (data, v, None);
  length_hash160 l : List.length (hash160 l) = 20%nat;
  length_sha256 l : List.length (sha256 l) = 32%nat;
}.

Section addresses.
Context `{Base58Laws}.

Lemma length_checksum l : List.length (checksum l) = 4%nat.
Proof. unfold checksum, DoubleSha256. rewrite length_take, length_sha256. lia. Qed.

(** An address with one of the two prefixes, as it is written. *)
Lemma ValidAddress_encoded prefix payload sum :
  prefix = pubKeyHash ∨ prefix = scriptHash → (1 ≤ List.length payload)%nat → List.length sum = 4%nat →
  is_ok (ValidAddress (b58Encode (prefix ++ payload ++ sum))) = bool_decide (sum = checksum (pubKeyHash ++ payload)).
Proof.
  intros Hp Hl Hs. unfold ValidAddress. rewrite b58Decode_Encode. cbv zeta.
  assert (Hlen : List.length (prefix ++ payload ++ sum) = (List.length payload + 6)%nat)
    by (rewrite !List.length_app, Hs; destruct Hp as [-> | ->]; cbn; lia).
  rewrite decide_True.
  2:{ split; [lia|]. destruct Hp as [-> | ->]; [done|]. apply orb_true_iff. by right. }
  rewrite Hlen. replace (List.length payload + 6 - 4)%nat with (List.length (prefix ++ payload))
    by (rewrite List.length_app; destruct Hp as [-> | ->]; cbn; lia).
  rewrite (assoc_L app prefix payload sum), take_app_length, drop_app_length.
  replace (drop 2 (prefix ++ payload)) with payload by (destruct Hp as [-> | ->]; done).
  case_decide as E; [by rewrite bool_decide_true|by rewrite bool_decide_false].
Qed.

(** The script that pays a key, after the block it is bound to. *)
Definition payKeyScript (key blockHash num : bytes) : bytes :=
  [byteOf 0x76; byteOf 0xa9] ++ pushOf (hash160 key) ++ [byteOf 0x88; byteOf 0xac]
  ++ pushOf (ReverseBytes blockHash) ++ pushOf num ++ [byteOf 0xb4].

Lemma block_height_push height : 16 < height < 2 ^ 39 →
  ∃ num, serializeScriptBlockHeight height = mret (hexEncode (pushOf num)) ∧ scriptNumValue num = height ∧ minimalNum num.
Proof.
  intros Hh. destruct (scriptNumEncode_spec height ltac:(lia) ltac:(lia)) as (l & Hl & Hv & Hm & Hll). exists l. split; [|done].
  unfold serializeScriptBlockHeight. rewrite decide_False by lia. rewrite Hl, mret_bind. cbv zeta.
  rewrite GetPushDataLength_hex, returned_bind. by rewrite push_hex by lia.
Qed.

Lemma subAddrHex_ok address v x data e : CheckDecode address = (x :: data, v, e) → subAddrHex address = mret (hexEncode data).
Proof.
  intros Hc. unfold subAddrHex. rewrite Hc. cbv zeta. change (v :: x :: data) with ([v; x] ++ data). rewrite hexEncode_app, to_bytes_app.
  pose proof (slice_at (to_bytes (hexEncode [v; x])) (to_bytes (hexEncode data)) []) as Hs. rewrite app_nil_r in Hs.
  rewrite <- Nat2Z.inj_add, <- List.length_app in Hs. change (Z.of_nat (List.length (to_bytes (hexEncode [v; x])))) with 4 in Hs.
  by rewrite Hs, mret_bind, of_to_bytes.
Qed.

Lemma replayParts_ok address v x data e blockHash hash height num :
  CheckDecode address = (x :: data, v, e) → (List.length data < 253)%nat → decodeHex blockHash = Ok hash → (List.length hash < 253)%nat →
  serializeScriptBlockHeight height = mret (hexEncode (pushOf num)) →
  replayParts address height blockHash = mret (hexEncode (pushOf data), hexEncode (pushOf (ReverseBytes hash) ++ pushOf num)).
Proof.
  intros Hc Hd Hhash Hlen Hnum. unfold replayParts. rewrite (subAddrHex_ok _ _ _ _ _ Hc), mret_bind, Hhash, returned_bind. cbv zeta.
  rewrite !GetPushDataLength_hex, !returned_bind, Hnum, mret_bind.
  rewrite push_hex by done. rewrite (hexEncode_app (pushOf (ReverseBytes hash))).
  rewrite <- (push_hex (ReverseBytes hash)) by (unfold ReverseBytes; by rewrite List.length_rev). by rewrite append_assoc.
Qed.

(** C20. The address of a public key is valid, and paying it makes the standard
    script that pays the hash of that very key, bound to the block that was given
    (its hash in the order of the wire, its height as a minimal number). *)
Theorem key_address_is_paid publicKey key blockHash hash height :
  decodeHex publicKey = Ok key → decodeHex blockHash = Ok hash → List.length hash = 32%nat → 16 < height < 2 ^ 39 →
  ∃ address num, PublicKeyToAddress publicKey = Ok address ∧ is_ok (ValidAddress address) = true
    ∧ scriptNumValue num = height ∧ minimalNum num
    ∧ addressToScript address height blockHash = mret (hexEncode (payKeyScript key hash num)).
Proof.
  intros Hkey Hhash Hlen Hheight. destruct (block_height_push height Hheight) as (num & Hnum & Hv & Hm).
  unfold PublicKeyToAddress. rewrite Hkey, bind_ok. cbv zeta. rewrite <- (assoc_L app).
  eexists _, num. split; [done|]. split_and!; [|done..|].
  { rewrite ValidAddress_encoded; [by apply bool_decide_true|by left|rewrite length_hash160; lia|apply length_checksum]. }
  unfold addressToScript. rewrite b58Decode_Encode. cbv zeta.
  replace (bytes_prefix scriptHash _) with false by (vm_compute; reflexivity).
  replace (bytes_prefix pubKeyHash _) with true by (vm_compute; reflexivity).
  unfold mkPubkeyHashReplayScript. erewrite replayParts_ok; [|apply (CheckDecode_Encode (byteOf 32) (byteOf 137 :: hash160 key))
    |rewrite length_hash160; lia|done|lia|done].
  rewrite mret_bind. cbn [fst snd]. unfold payKeyScript. rewrite !hexEncode_app.
  replace (hexEncode [byteOf 118; byteOf 169]) with (OP_DUP +:+ OP_HASH160) by (vm_compute; reflexivity).
  replace (hexEncode [byteOf 136; byteOf 172]) with (OP_EQUALVERIFY +:+ OP_CHECKSIG) by (vm_compute; reflexivity).
  replace (hexEncode [byteOf 180]) with OP_CHECKBLOCKATHEIGHT by (vm_compute; reflexivity). by rewrite <- !append_assoc.
Qed.

(** A pay-to-script address that is written as the chain writes it is refused,
    unless two checksums agree: the checksum is taken with the other prefix. *)
Lemma script_address_refused script :
  let address := b58Encode (scriptHash ++ hash160 script ++ checksum (scriptHash ++ hash160 script)) in
  is_ok (ValidAddress address) = true → checksum (scriptHash ++ hash160 script) = checksum (pubKeyHash ++ hash160 script).
Proof.
  intros address. unfold address. rewrite ValidAddress_encoded; [|by right|rewrite length_hash160; lia|apply length_checksum].
  apply bool_decide_eq_true_1.
Qed.

(** An address with a prefix of the chain that does not pass its check: the
    empty data is sliced out of range. *)
Lemma unchecked_address_panics address height blockHash e :
  (bytes_prefix scriptHash (b58Decode address) || bytes_prefix pubKeyHash (b58Decode address)) = true →
  CheckDecode address = ([], byteOf 0, Some e) → addressToScript address height blockHash = Panicked.
Proof.
  intros Hp Hc. assert (Hsub : subAddrHex address = Panicked) by (unfold subAddrHex; rewrite Hc; vm_compute; reflexivity).
  unfold addressToScript, mkScriptHashReplayScript, mkPubkeyHashReplayScript, replayParts. cbv zeta. rewrite Hsub.
  destruct (bytes_prefix scriptHash _); [done|]. cbn [orb] in Hp. by rewrite Hp.
Qed.
End addresses.

(** ** Payments *)

Class GobLaws `{Gob} : Prop := { gob_round_trip t b : gobEncode t = Ok b → gobDecode b = Ok t }.

(** The transaction whose hash an input signs: its own script alone is there. *)
Definition signingForm (t : TXObject) (i : nat) (script : string) : TXObject :=
  t <| tx_Ins := alter (λ x, x <| in_Script := script |>) i ((λ x, x <| in_Script := "" |>) <$> tx_Ins t) |>.

Section payments.
Context {W : Type} `{Base58} `{Sha256} `{Insight W} `{Gob} `{Decimals}.

Lemma SignatureForm_all capacity t i script :
  (i < List.length (tx_Ins t))%nat → SignatureForm capacity t i script SIGHASH_ALL = mret (signingForm t i script).
Proof.
  intros Hi. unfold SignatureForm. cbv zeta. rewrite (decide_False (P := SIGHASH_ALL = SIGHASH_NONE)), (decide_False (P := SIGHASH_ALL = SIGHASH_SINGLE)), (decide_False (P := SIGHASH_ALL = SIGHASH_ANYONECANPAY)) by done.
  rewrite mret_bind. upd. by rewrite decide_True by (by rewrite length_fmap).
Qed.

Lemma call_bind_inv {A B} (p : call W A) (f : A → call W B) w b w' :
  (p ≫= f) w = (Returned (Ok b), w') → ∃ a w1, p w = (Returned (Ok a), w1) ∧ f a w1 = (Returned (Ok b), w').
Proof. unfold mbind, call_bind. destruct (p w) as [[[a|]|] w1]; [eauto|done..]. Qed.

Lemma collecting_inv {A B} (f : A → call W B) l w ys w' :
  collecting f l w = (Returned (Ok ys), w') → Forall2 (λ x y, ∃ w1 w2, f x w1 = (Returned (Ok y), w2)) l ys.
Proof.
  revert w ys. induction l as [|x l IH]; intros w ys E; [injection E as <- <-; constructor|].
  cbn [collecting] in E. apply call_bind_inv in E as (y & w1 & Hy & E). apply call_bind_inv in E as (rest & w2 & Hr & E).
  injection E as <- <-. constructor; [eauto|by eapply IH].
Qed.

Lemma wrapping_inv {A} what (p : call W A) w a w' : wrapping what p w = (Returned (Ok a), w') → p w = (Returned (Ok a), w').
Proof. unfold wrapping. destruct (p w) as [[[x|]|] w1]; cbn; congruence. Qed.

Lemma errorsWrap_inv {A} what (o : outcome A) a : errorsWrap what o = mret a → o = mret a.
Proof. destruct o as [[x|]|]; [done|done|done]. Qed.

Lemma errorsWrap_ret {A} what (a : A) : errorsWrap what (mret a) = mret a.
Proof. done. Qed.

Lemma ends_inv {A} (o : outcome A) w a (w' : W) : ends o w = (Returned (Ok a), w') → o = mret a ∧ w' = w.
Proof. unfold ends. by intros [= -> ->]. Qed.

(** An output of a transaction that pays a recipient. *)
Definition paysOut (height : Z) (blockHash : string) (o : ParamOut) (x : Outs) : Prop :=
  out_Satoshis x = po_Satoshis o ∧ addressToScript (po_Address o) height blockHash = mret (out_Script x).

Lemma recipients_inv height blockHash l outs : recipients height blockHash l = mret outs → Forall2 (paysOut height blockHash) l outs.
Proof.
  revert outs. induction l as [|o l IH]; intros outs E; cbn [recipients] in E; [injection E as <-; constructor|].
  apply outcome_bind_ok in E as (script & Hs & E). apply outcome_bind_ok in E as (rest & Hr & E). injection E as <-.
  constructor; [done|by apply IH].
Qed.

Lemma paramIn_inv vin w p w' : paramIn vin w = (Returned (Ok p), w') → pi_TXID p = vin_Hash vin ∧ pi_Vout p = vin_Index vin.
Proof.
  intros E. apply call_bind_inv in E as (tx & w1 & _ & E). apply call_bind_inv in E as (script & w2 & _ & E).
  by injection E as <- _.
Qed.

(** What each input of [t] signs. *)
Definition signsForm (t : TXObject) (e : nat * Ins) (h : bytes) : Prop :=
  ∃ raw, SerializeTX (signingForm t (fst e) (in_PrevScriptPubKey (snd e))) false = Ok raw
         ∧ h = DoubleSha256 (raw ++ [byteOf 1; byteOf 0; byteOf 0; byteOf 0]).

Lemma signHashes_inv t i l hashes :
  signHashes t i l = mret hashes → drop i (tx_Ins t) = l →
  Forall2 (signsForm t) (zip (seq i (List.length l)) l) hashes.
Proof.
  revert i hashes. induction l as [|x l IH]; intros i hashes E Hl; cbn [signHashes] in E; [injection E as <-; constructor|].
  assert (Hi : (i < List.length (tx_Ins t))%nat).
  { destruct (decide (i < List.length (tx_Ins t))%nat); [done|]. rewrite drop_ge in Hl by lia. done. }
  rewrite SignatureForm_all, errorsWrap_ret, mret_bind in E by done.
  apply outcome_bind_ok in E as (h & Hh & E). apply outcome_bind_ok in E as (rest & Hr & E). injection E as <-.
  cbn [List.length seq zip_with]. constructor.
  - apply errorsWrap_inv in Hh. injection Hh as Hh. unfold GetScriptSignature in Hh. apply bind_ok_inv in Hh as (raw & Hraw & Hh).
    injection Hh as <-. exists raw. split; [exact Hraw|]. f_equal.
  - apply IH; [done|]. by rewrite <- Nat.add_1_r, <- drop_drop, Hl.
Qed.

(** What [CalcSignHashes] returns is a transaction with the inputs and outputs
    that were asked for, in their order, and the hash that each input signs. *)
Lemma zenCalcSignHashes_inv Vins Vouts w hashes buf w' :
  zenCalcSignHashes Vins Vouts w = (Returned (Ok (hashes, buf)), w') →
  ∃ t block, gobEncode t = Ok buf ∧ tx_Version t = 1 ∧ tx_LockTime t = 0
    ∧ Forall2 (λ v x, in_Hash x = vin_Hash v ∧ in_Vout x = vin_Index v ∧ in_Sequence x = "ffffffff") Vins (tx_Ins t)
    ∧ Forall2 (λ o x, paysOut (zb_Height block) (zb_Hash block) {| po_Address := vout_Address o; po_Satoshis := vout_Amount o mod 2 ^ 64 |} x)
        Vouts (tx_Outs t)
    ∧ signHashes t 0 (tx_Ins t) = mret hashes.
Proof.
  intros E. unfold zenCalcSignHashes in E. apply call_bind_inv in E as (block & w1 & _ & E).
  apply call_bind_inv in E as (ins & w2 & Hins & E). apply call_bind_inv in E as (t & w3 & Ht & E).
  apply call_bind_inv in E as (hs & w4 & Hh & E). apply call_bind_inv in E as (b & w5 & Hb & E). injection E as <- <- <-.
  apply ends_inv in Ht as [Ht _]. apply ends_inv in Hh as [Hh _]. apply ends_inv in Hb as [Hb _].
  apply errorsWrap_inv in Ht. apply errorsWrap_inv in Hb. injection Hb as Hb.
  unfold CreateRawTX in Ht. apply outcome_bind_ok in Ht as (outs & Houts & Ht). cbn [tp_ParamOuts tp_BlockHeight tp_BlockHash tp_ParamIns] in *.
  injection Ht as <-. eexists _, block. split_and!; [exact Hb|done|done| | |exact Hh].
  - cbn [tx_Ins]. apply collecting_inv in Hins. apply Forall2_fmap_r. eapply Forall2_impl; [exact Hins|].
    intros v p (? & ? & Hp). apply paramIn_inv in Hp as [Hp1 Hp2]. cbn. by rewrite Hp1, Hp2.
  - cbn [tx_Outs]. apply recipients_inv in Houts. rewrite Forall2_fmap_l in Houts. exact Houts.
Qed.

(** The script of a signed input: the signature and the key behind their
    lengths. *)
Definition sigScript (signature publicKey : bytes) : bytes :=
  varint (Z.of_nat (List.length signature)) ++ signature ++ varint (Z.of_nat (List.length publicKey)) ++ publicKey.

Lemma signatureScript_ok signature publicKey : signatureScript signature publicKey = Ok (hexEncode (sigScript signature publicKey)).
Proof.
  unfold signatureScript. rewrite !GetPushDataLength_hex, !bind_ok. unfold sigScript. by rewrite !hexEncode_app.
Qed.

(** Signing changes the scripts alone. *)
Definition signedAs (x : Ins) (s : bytes * bytes) (y : Ins) : Prop := y = x <| in_Script := hexEncode (sigScript (fst s) (snd s)) |>.

Lemma signIns_ok ins signatures publicKeys :
  List.length signatures = List.length ins → List.length publicKeys = List.length ins →
  ∃ signed, signIns ins signatures publicKeys = Ok signed
    ∧ Forall2 (λ e y, signedAs (fst e) (snd e) y) (zip ins (zip signatures publicKeys)) signed
    ∧ Forall2 (λ x y, in_Hash y = in_Hash x ∧ in_Vout y = in_Vout x ∧ in_Sequence y = in_Sequence x
                      ∧ is_ok (decodeHex (in_Script y)) = true) ins signed.
Proof.
  revert signatures publicKeys. induction ins as [|x ins IH]; intros [|s signatures] [|k publicKeys] Hs Hk; try done.
  - exists []. split_and!; constructor.
  - cbn [signIns]. destruct (IH signatures publicKeys) as (signed & Hsigned & Hf & Hg); [by injection Hs|by injection Hk|].
    rewrite signatureScript_ok, Hsigned, !bind_ok. eexists. split; [done|]. split; cbn [zip zip_with]; (constructor; [|done]); [done|].
    upd. by rewrite decodeHex_hexEncode.
Qed.

Lemma written_ok {A} (f : A → result bytes) l : Forall (λ x, is_ok (f x) = true) l → ∃ b, written f l = Ok b.
Proof.
  induction 1 as [|x l Hx _ (rest & Hr)]; [by exists []|]. cbn [written]. destruct (f x) as [b|]; [|done].
  exists (b ++ rest). by rewrite bind_ok, Hr.
Qed.

Lemma SerializeTX_ok t wp ins outs :
  written (serializeIn wp) (tx_Ins t) = Ok ins → written serializeOut (tx_Outs t) = Ok outs → ∃ raw, SerializeTX t wp = Ok raw.
Proof. intros Hi Ho. unfold SerializeTX. rewrite !NumToVarInt_bytes, !bind_ok, Hi, bind_ok, bind_ok, Ho, bind_ok. eauto. Qed.

Lemma SerializeTX_outs t wp raw : SerializeTX t wp = Ok raw → ∃ outs, written serializeOut (tx_Outs t) = Ok outs.
Proof.
  unfold SerializeTX. rewrite !NumToVarInt_bytes, !bind_ok. intros E. apply bind_ok_inv in E as (ins & _ & E).
  rewrite bind_ok in E. apply bind_ok_inv in E as (outs & Ho & _). eauto.
Qed.

(** An input that names an output of a transaction. *)
Definition namesOutput (v : TxVin) : Prop :=
  (∃ h, decodeHex (vin_Hash v) = Ok h ∧ List.length h = 32%nat) ∧ 0 ≤ vin_Index v < 2 ^ 32.

Lemma signed_serializes t signed Vins hashes :
  signHashes t 0 (tx_Ins t) = mret hashes → Vins ≠ [] → Forall namesOutput Vins →
  Forall2 (λ v x, in_Hash x = vin_Hash v ∧ in_Vout x = vin_Index v ∧ in_Sequence x = "ffffffff") Vins (tx_Ins t) →
  Forall2 (λ x y, in_Hash y = in_Hash x ∧ in_Vout y = in_Vout x ∧ in_Sequence y = in_Sequence x
                  ∧ is_ok (decodeHex (in_Script y)) = true) (tx_Ins t) signed →
  (∃ raw, SerializeTX (t <| tx_Ins := signed |>) false = Ok raw)
  ∧ Forall wellFormedIn signed ∧ Forall2 (λ v y, in_Hash y = vin_Hash v ∧ in_Vout y = vin_Index v) Vins signed.
Proof.
  intros Hh Hne Hv Hins Hsigned.
  assert (Hboth : Forall2 (λ v y, in_Hash y = vin_Hash v ∧ in_Vout y = vin_Index v ∧ in_Sequence y = "ffffffff"
                                  ∧ is_ok (decodeHex (in_Script y)) = true) Vins signed).
  { revert Hsigned. clear Hh Hne Hv. revert signed. induction Hins as [|v x Vins ins (E1 & E2 & E3) Hins IH]; intros signed Hs.
    - inversion Hs. constructor.
    - inversion_clear Hs as [|? y ? signed' (F1 & F2 & F3 & F4) Hs']. constructor; [|by apply IH]. by rewrite F1, F2, F3. }
  assert (Hwf : Forall wellFormedIn signed).
  { clear Hh Hne Hins Hsigned. revert Hboth. induction Hv as [|v Vins ((h & Hh & Hl) & Hi) Hv IH] in signed |- *;
      intros Hb; inversion_clear Hb as [|? y ? signed' (E1 & E2 & E3 & _) Hb']; [constructor|].
    constructor; [|by apply IH]. split_and!; [exists h; by rewrite E1|rewrite E2; lia..|].
    rewrite E3. exists [byteOf 255; byteOf 255; byteOf 255; byteOf 255]. split; [|done]. vm_compute. reflexivity. }
  split_and!; [|done|eapply Forall2_impl; [exact Hboth|]; by intros v y (? & ? & _)].
  assert (Houts : ∃ outs, written serializeOut (tx_Outs t) = Ok outs).
  { pose proof (signHashes_inv t 0 _ _ Hh eq_refl) as Hf. destruct Hins as [|v x Vins ins Hvx Hins]; [done|].
    inversion_clear Hf as [|? ? ? ? (raw & Hraw & _) _]. by apply SerializeTX_outs in Hraw. }
  destruct Houts as [outs Houts].
  destruct (written_ok (serializeIn false) signed) as [ins' Hins'].
  { clear Hh Houts Hins Hsigned Hne Hv. revert Hwf. induction Hboth as [|v y Vins signed (_ & _ & _ & E4) _ IH]; [constructor|].
    intros [((h & Hh & _) & _ & q & Hq & _) Hwf]%Forall_cons. constructor; [|by apply IH].
    unfold serializeIn. rewrite Hh, !bind_ok, Hq. destruct (decodeHex (in_Script y)) as [b|] eqn:Hb; [|done]. by rewrite (pushed_spec _ b Hb). }
  apply (SerializeTX_ok _ _ ins' outs); [by upd|by upd].
Qed.

Lemma signed_scripts (ins : list Ins) (l : list (bytes * bytes)) signed :
  List.length l = List.length ins → Forall2 (λ e y, signedAs (fst e) (snd e) y) (zip ins l) signed →
  Forall2 (λ s y, canonicalHex (in_Script y) = hexEncode (sigScript (fst s) (snd s))) l signed.
Proof.
  revert l signed. induction ins as [|x ins IH]; intros [|s l] signed Hl Hf; try done; inversion_clear Hf; [constructor|].
  constructor; [|apply IH; [by injection Hl|done]]. unfold signedAs in *. subst. upd. apply canonicalHex_encode.
Qed.

(** A payment as the chain reads it: the inputs and their scripts, the outputs. *)
Definition requested (height : Z) (blockHash : string) (o : TxVout) (x : ZenTxOut) : Prop :=
  zo_Satoshis x = vout_Amount o mod 2 ^ 64
  ∧ ∃ script, addressToScript (vout_Address o) height blockHash = mret script ∧ zo_Script x = canonicalHex script.

(** C18. A payment that was built and signed is, read back as a node reads it, the
    payment that was asked for: the same inputs in their order, each with its
    signature and key, and for every recipient, in order, an output of the amount
    with the script that pays the address; and the hash each input signs commits
    to those outputs. *)
Theorem signed_payment_is_the_request `{!GobLaws} Vins Vouts w hashes buf w' chain network signatures publicKeys (w2 : W) :
  zenCalcSignHashes Vins Vouts w = (Returned (Ok (hashes, buf)), w') → Vins ≠ [] → Forall namesOutput Vins →
  List.length signatures = List.length Vins → List.length publicKeys = List.length Vins →
  ∃ t block raw, gobDecode buf = Ok t
    ∧ zenBuildSignedTransaction {| st_Chain := chain; st_Network := network; st_TxData := buf; st_Signatures := signatures;
                                   st_PublicKeys := publicKeys |} w2
      = (Returned (Ok (Build_response SUCCESS "" {| sr_SignedTxData := raw; sr_Hash := DoubleSha256 raw |})), w2)
    ∧ Forall2 (signsForm t) (zip (seq 0 (List.length Vins)) (tx_Ins t)) hashes
    ∧ (Z.of_nat (List.length raw) ≤ int64_max → ∃ tx, DeserializeTx (hexEncode raw) false = mret tx
         ∧ Forall2 (λ v x, xn_Hash x = canonicalHex (vin_Hash v) ∧ xn_Vout x = vin_Index v) Vins (rw_Ins tx)
         ∧ Forall2 (λ s x, xn_Script x = hexEncode (sigScript (fst s) (snd s))) (zip signatures publicKeys) (rw_Ins tx)
         ∧ Forall2 (requested (zb_Height block) (zb_Hash block)) Vouts (rw_Outs tx) ∧ rw_Outs tx = wireOut <$> tx_Outs t).
Proof.
  intros Hcalc Hne Hv Hs Hk. apply zenCalcSignHashes_inv in Hcalc as (t & block & Hgob & Hver & Hlock & Hins & Houts & Hh).
  pose proof (Forall2_length _ _ _ Hins) as Hlen.
  destruct (signIns_ok (tx_Ins t) signatures publicKeys) as (signed & Hsigned & Hscripts & Hsame); [lia..|].
  destruct (signed_serializes t signed Vins hashes Hh Hne Hv Hins Hsame) as ((raw & Hraw) & Hwf & Hnamed).
  pose proof (signHashes_inv t 0 _ _ Hh eq_refl) as Hforms. rewrite <- Hlen in Hforms.
  exists t, block, raw. split; [by apply gob_round_trip|]. split.
  { unfold zenBuildSignedTransaction. cbn [st_Signatures st_PublicKeys st_TxData]. cbv zeta. rewrite decide_False by lia.
    rewrite (gob_round_trip _ _ Hgob). unfold mbind, call_bind, returns. rewrite decide_False by lia.
    by rewrite Hsigned, Hraw. }
  split; [exact Hforms|]. intros Hbound. exists (wireTx false (t <| tx_Ins := signed |>)). split_and!.
  - apply reads_deserialize; [|done]. apply (reads_tx false); [|done..|lia]. unfold wellFormed. upd. rewrite Hver, Hlock.
    split_and!; [done| |lia..]. eapply Forall2_Forall_r; [exact Houts|]. apply Forall_true. intros o x [Hx _]. rewrite Hx.
    apply Z.mod_pos_bound. lia.
  - cbn [rw_Ins wireTx]. upd. apply Forall2_fmap_r. eapply Forall2_impl; [exact Hnamed|]. intros v x [Hx1 Hx2]. cbn. by rewrite Hx1, Hx2.
  - cbn [rw_Ins wireTx]. upd. apply Forall2_fmap_r. apply (signed_scripts (tx_Ins t)); [rewrite length_zip_with; lia|done].
  - cbn [rw_Outs wireTx]. upd. apply Forall2_fmap_r. eapply Forall2_impl; [exact Houts|]. intros o x [Hx1 Hx2]. split; [done|].
    by exists (out_Script x).
  - done.
Qed.
End payments.

(** ** Concrete instances *)

#[export] Instance Ins_eq_dec : EqDecision Ins.
Proof. solve_decision. Defined.
#[export] Instance Outs_eq_dec : EqDecision Outs.
Proof. solve_decision. Defined.
#[export] Instance TXObject_eq_dec : EqDecision TXObject.
Proof. solve_decision. Defined.

Module ZenExample.
(** Hashes of the right length, and a base 16 with the check. *)
Definition toySha : Sha256 := λ l, byteOf (getLE (take 4 l)) :: replicate 31 (byteOf 7).
#[export] Existing Instance toySha.
Definition toyCheckDecode (s : string) : bytes * ascii * option error :=
  match default [] (hexDecode (to_bytes s)) with
  | [] => ([], byteOf 0, Some (Errorf "invalid format: version and/or checksum bytes missing"))
  | v :: rest =>
      let data := take (List.length rest - 4) rest in
      if decide (drop (List.length rest - 4) rest = take 4 (sha256 (sha256 (v :: data)))) then (data, v, None)
      else ([], byteOf 0, Some (Errorf "checksum error"))
  end.
#[export] Instance toyBase58 : Base58 := {|
  b58Decode s := default [] (hexDecode (to_bytes s)); b58Encode := hexEncode; CheckDecode := toyCheckDecode;
  hash160 l := replicate 20 (byteOf (getLE (take 4 l))) |}.
#[export] Instance toyBase58Laws : Base58Laws.
Proof.
  split; [intros l; cbn; by rewrite hexDecode_Encode| |done..]. intros v data. cbn [CheckDecode b58Encode toyBase58]. unfold toyCheckDecode.
  rewrite hexDecode_Encode. cbn [from_option id].
  set (sum := take 4 (sha256 (sha256 (v :: data)))). assert (List.length sum = 4%nat) as Hs by done. cbv zeta.
  rewrite List.length_app, Hs, Nat.add_sub, take_app_length, drop_app_length. by rewrite decide_True.
Qed.

(** A block, and a transaction with one output to the sender. *)
Definition someHash : string := hexEncode (replicate 32 (byteOf 0xab)).
Definition payer : string := default "" (match PublicKeyToAddress "0201" with Ok a => Some a | Err _ => None end).
Definition payee : string := default "" (match PublicKeyToAddress "0302" with Ok a => Some a | Err _ => None end).
#[export] Instance toyInsight : Insight () := {|
  get_balance _ w := (Ok (200, 5), w); get_utxo _ w := (Ok (200, []), w); post_txs _ _ _ w := (Ok (200, []), w);
  get_tx _ w := (Ok (200, {| zi_TXID := someHash; zi_Vin := []; zi_Vout := [{| zt_Value := "3"; zt_Hex := "51"; zt_Addresses := [payer] |}];
                            zi_BlockHeight := 90; zi_Time := 0; zi_Fees := "0" |}), w);
  get_block _ w := (Ok (200, {| zb_Hash := someHash; zb_Height := 100; zb_Tx := [] |}), w); get_info w := (Ok (200, 100), w);
  get_block_index _ w := (Ok (200, someHash), w); post_send _ w := (Ok (200, someHash), w) |}.
#[export] Instance toyDecimals : Decimals := {|
  decimal := Z; NewFromString s := from_option_err (Errorf "can't convert") (SetString10 s); hundredMillion := 100000000;
  decMul := Z.mul; decString := BigString; IntPart := id |}.

Definition someVin : list TxVin := [{| vin_Hash := someHash; vin_Index := 1; vin_Amount := 300000000; vin_Address := payer |}].
Definition someVout : list TxVout := [{| vout_Address := payee; vout_Amount := 299990000; vout_Index := 0 |}].
Definition someTx : TXObject :=
  match CreateRawTX {| tp_BlockHeight := 100; tp_BlockHash := someHash;
                       tp_ParamIns := [{| pi_TXID := someHash; pi_Vout := 1; pi_ScriptPubKey := "51" |}];
                       tp_ParamOuts := [{| po_Address := payee; po_Satoshis := 299990000 |}] |} with
  | Returned (Ok t) => t
  | _ => {| tx_LockTime := 0; tx_Version := 1; tx_Ins := []; tx_Outs := [] |}
  end.
(** gob of that transaction, and of no other. *)
#[export] Instance toyGob : Gob := {|
  gobEncode t := if decide (t = someTx) then Ok [byteOf 0x7f] else Err (Errorf "gob"); gobDecode _ := Ok someTx |}.
#[export] Instance toyGobLaws : GobLaws.
Proof. split. cbn. intros t b. by case_decide as E; [rewrite E|]. Qed.
End ZenExample.

Section zen_witnesses.
Import ZenExample.

Lemma DeserializeTx_SerializeTX_witness :
  ∃ raw, SerializeTX someTx true = Ok raw ∧ List.length raw = 123%nat ∧ DeserializeTx (hexEncode raw) true = mret (wireTx true someTx).
Proof.
  eexists. split; [vm_compute; reflexivity|]. split; [vm_compute; reflexivity|].
  apply (DeserializeTx_SerializeTX someTx true).
  - split_and!; [|repeat constructor; vm_compute; congruence..]. constructor; [|constructor].
    split_and!; [|vm_compute; congruence..|].
    + eexists. split; [vm_compute; reflexivity|vm_compute; reflexivity].
    + eexists. split; [vm_compute; reflexivity|vm_compute; reflexivity].
  - vm_compute. reflexivity.
  - vm_compute. congruence.
Defined.

Lemma block_height_is_minimal_witness :
  ∃ l, serializeScriptBlockHeight 1000000 = mret (hexEncode (pushOf l)) ∧ scriptNumValue l = 1000000 ∧ minimalNum l
    ∧ (1 ≤ List.length l ≤ 5)%nat.
Proof. apply block_height_is_minimal; lia. Defined.

Lemma key_address_is_paid_witness :
  ∃ address num, PublicKeyToAddress "0201" = Ok address ∧ is_ok (ValidAddress address) = true
    ∧ scriptNumValue num = 1000000 ∧ minimalNum num
    ∧ addressToScript address 1000000 someHash = mret (hexEncode (payKeyScript [byteOf 2; byteOf 1] (replicate 32 (byteOf 0xab)) num)).
Proof. apply key_address_is_paid; [vm_compute; reflexivity..|lia]. Defined.

Lemma signed_payment_is_the_request_witness :
  ∃ hashes w, zenCalcSignHashes someVin someVout () = (Returned (Ok (hashes, [byteOf 0x7f])), w)
  ∧ ∃ t block raw, gobDecode [byteOf 0x7f] = Ok t
    ∧ zenBuildSignedTransaction {| st_Chain := "Zen"; st_Network := "mainnet"; st_TxData := [byteOf 0x7f];
                                   st_Signatures := [replicate 64 (byteOf 1)]; st_PublicKeys := [[byteOf 2; byteOf 1]] |} ()
      = (Returned (Ok (Build_response SUCCESS "" {| sr_SignedTxData := raw; sr_Hash := DoubleSha256 raw |})), ())
    ∧ Forall2 (signsForm t) (zip (seq 0 1) (tx_Ins t)) hashes
    ∧ (Z.of_nat (List.length raw) ≤ int64_max → ∃ tx, DeserializeTx (hexEncode raw) false = mret tx
         ∧ Forall2 (λ v x, xn_Hash x = canonicalHex (vin_Hash v) ∧ xn_Vout x = vin_Index v) someVin (rw_Ins tx)
         ∧ Forall2 (λ s x, xn_Script x = hexEncode (sigScript (fst s) (snd s)))
             (zip [replicate 64 (byteOf 1)] [[byteOf 2; byteOf 1]]) (rw_Ins tx)
         ∧ Forall2 (requested (zb_Height block) (zb_Hash block)) someVout (rw_Outs tx) ∧ rw_Outs tx = wireOut <$> tx_Outs t).
Proof.
  do 2 eexists. split; [vm_compute; reflexivity|].
  eapply (signed_payment_is_the_request someVin someVout ()); [vm_compute; reflexivity|done| |done..].
  constructor; [|constructor]. split; [|vm_compute; split; congruence].
  exists (replicate 32 (byteOf 0xab)). split; vm_compute; reflexivity.
Defined.
End zen_witnesses.
