(* ===== verification/GatewayPages.v ===== *)
(** * Pages of an EVM chain, as the service answers them

    The wiring leads from the service to the reader, and the JSON between the
    plugin and the service is read back, up to what the normalisation changes. *)
From S2P Require Import Prelude GoStrings GoNumbers KeyRef KeyPaths Endpoint EndpointSystem.
From S2P Require Import EvmReader.
From S2P Require Import Normalize EvmPlugin EvmSend ChainService.

(** ** The default bindings *)

(** A chain that is its own name. *)
Definition canonical (c : string) : Prop := NormalizeChain c = c ∧ TrimSpace c ≠ "" ∧ c ≠ "".

Section bindings.
Context {A : Type}.
Implicit Types (p account utxo : A) (r : Router A).

Definition defaultBinding (model : string) p (c : string) : PluginBinding A :=
  {| pb_Chain := c; pb_Network := "*"; pb_Model := model; pb_Adapter := Some p |}.

(** The bindings of some chains: each hides what was there. *)
Lemma registerAll_canonical model p l (r0 : Router A) :
  Forall canonical l → NoDup l →
  ∃ r, registerAll model p l r0 = Ok r
    ∧ (∀ c, c ∈ l → r !! bindingKey c "*" = Some (defaultBinding model p c))
    ∧ ∀ k, (∀ c, c ∈ l → k ≠ bindingKey c "*") → r !! k = r0 !! k.
Proof.
  intros Hl Hd. revert r0. induction l as [|c l IH]; intros r0.
  - exists r0. split; [done|]. split; [|done]. intros c Hc. by apply not_elem_of_nil in Hc.
  - apply Forall_cons in Hl as [(Hc & _ & Hne) Hl]. apply NoDup_cons in Hd as [Hni Hd].
    unfold registerAll. cbn [foldl mbind result_bind].
    replace (Register _ r0) with (Ok (<[bindingKey c "*" := defaultBinding model p c]> r0) : result (Router A)).
    2:{ unfold Register. cbn [pb_Chain pb_Network pb_Model pb_Adapter]. rewrite !Hc, decide_False by done.
        by replace (normalizeNetwork "*") with "*" by (vm_compute; reflexivity). }
    destruct (IH Hl Hd (<[bindingKey c "*" := defaultBinding model p c]> r0)) as (r & Hr & Hin & Hout).
    exists r. split; [exact Hr|]. split.
    + intros c' [->|Hc']%elem_of_cons; [|by apply Hin]. rewrite Hout; [by rewrite lookup_insert_eq|].
      intros c' Hc' E. unfold bindingKey in E. apply append_inj_r in E. by subst.
    + intros k Hk. rewrite Hout; [|intros c' Hc'; apply Hk; by right]. apply lookup_insert_ne.
      intros E. apply (Hk c); [by left|done].
Qed.

Lemma account_not_utxo : Forall (λ c, c ∉ defaultUTXOChains) defaultAccountChains.
Proof. apply (bool_decide_unpack _). vm_compute. exact I. Qed.

Lemma bindings_canonical :
  Forall canonical defaultAccountChains ∧ Forall canonical defaultUTXOChains ∧ NoDup defaultAccountChains ∧ NoDup defaultUTXOChains.
Proof.
  split; [|split]; [repeat (constructor; [vm_compute; split_and!; congruence|]); constructor..|].
  split; apply (bool_decide_unpack _); vm_compute; exact I.
Qed.

(** No chain's name holds the separator, so no chain's key with a network is
    another chain's default. *)
Lemma chains_unseparated : Forall (λ c, "|"%char ∉ to_bytes c) (defaultAccountChains ++ defaultUTXOChains).
Proof. apply (bool_decide_unpack _). vm_compute. exact I. Qed.

Lemma bindingKey_default c c' n :
  c ∈ defaultAccountChains ++ defaultUTXOChains → c' ∈ defaultAccountChains ++ defaultUTXOChains →
  bindingKey c n = bindingKey c' "*" → c' = c ∧ n = "*".
Proof.
  intros Hc Hc' E. pose proof chains_unseparated as Hs. rewrite Forall_forall in Hs.
  assert (Hsplit : ∀ x m, "|"%char ∉ to_bytes x → split_bytes "|" (to_bytes (bindingKey x m)) = to_bytes x :: split_bytes "|" (to_bytes m)).
  { intros x m Hx. unfold bindingKey. rewrite !to_bytes_app. by apply split_app_sep. }
  pose proof (Hsplit c n (Hs _ Hc)) as E1. rewrite E, (Hsplit c' "*" (Hs _ Hc')) in E1. injection E1 as E1 _.
  apply (f_equal of_bytes) in E1. rewrite !of_to_bytes in E1. subst c'. split; [done|]. unfold bindingKey in E.
  apply (inj (String.append c)) in E. by apply (inj (String.append "|")) in E.
Qed.

(** What the router of the service answers for a default chain. *)
Lemma default_bindings account utxo :
  ∃ r, registerDefaultBindings account utxo NewRouter = Ok r ∧ ∀ chain network,
    normalizeNetwork network ≠ "" →
    (NormalizeChain chain ∈ defaultAccountChains → Resolve chain network r = Ok (defaultBinding "account" account (NormalizeChain chain)))
    ∧ (NormalizeChain chain ∈ defaultUTXOChains → Resolve chain network r = Ok (defaultBinding "utxo" utxo (NormalizeChain chain))).
Proof.
  destruct bindings_canonical as (Hl1 & Hl2 & Hd1 & Hd2).
  destruct (registerAll_canonical "account" account _ NewRouter Hl1 Hd1) as (r1 & Hr1 & Hin1 & Hout1).
  destruct (registerAll_canonical "utxo" utxo _ r1 Hl2 Hd2) as (r & Hr & Hin2 & Hout2).
  exists r. unfold registerDefaultBindings. rewrite Hr1, bind_ok. split; [done|]. intros chain network Hn.
  assert (Hres : ∀ b, NormalizeChain chain ∈ defaultAccountChains ++ defaultUTXOChains →
                 r !! bindingKey (NormalizeChain chain) "*" = Some b → Resolve chain network r = Ok b).
  { intros b Hc Hb. unfold Resolve. cbv zeta. rewrite decide_False.
    2:{ intros E. rewrite E in Hc. revert Hc. apply (bool_decide_unpack _). vm_compute. exact I. }
    rewrite decide_False by done. unfold wildcardNetwork. rewrite Hb.
    destruct (r !! bindingKey _ (normalizeNetwork network)) as [hit|] eqn:Hh; [|done].
    destruct (decide (normalizeNetwork network = "*")) as [E|Hne]; [rewrite E, Hb in Hh; by injection Hh as <-|].
    exfalso. assert (Hkey : ∀ c', c' ∈ defaultAccountChains ++ defaultUTXOChains →
                       bindingKey (NormalizeChain chain) (normalizeNetwork network) ≠ bindingKey c' "*").
    { intros c' Hc' E. destruct (bindingKey_default _ c' _ Hc Hc' E) as [_ Hs]. exact (Hne Hs). }
    rewrite Hout2 in Hh by (intros c' Hc'; apply Hkey, elem_of_app; by right).
    rewrite Hout1 in Hh by (intros c' Hc'; apply Hkey, elem_of_app; by left). done. }
  split; intros Hc; (apply Hres; [apply elem_of_app; auto|]); [|by apply Hin2].
  rewrite Hout2; [by apply Hin1|]. intros c' Hc' E.
  apply (bindingKey_default _ c') in E as [-> _]; [|apply elem_of_app; auto..].
  exact (proj1 (Forall_forall _ _) account_not_utxo _ Hc Hc').
Qed.

End bindings.

Lemma resolveBinding_ok {S} chain network (r : Router (ChainPlugin S)) b :
  NormalizeChain chain ≠ "" → normalizeNetwork network ≠ "" → Resolve chain network r = Ok b → resolveBinding chain network r = Ok b.
Proof.
  intros Hc Hn Hr. unfold resolveBinding, validateChainNetwork. rewrite decide_False; [by rewrite bind_ok|].
  intros [E|E]; [apply Hc; unfold NormalizeChain|apply Hn; unfold normalizeNetwork]; by rewrite E.
Qed.

(** ** The wiring *)

Section wiring.
Context {K} `{Geth K} {C : Type} `{EvmNode C}.
Abbreviation S := (readerState (C := C)).
Variables (reader : option Z) (others : list (string * ChainPlugin S)) (utxo : ChainPlugin S).

(** The other plugins are for other chains. *)
Definition other_chains : Prop :=
  Forall (λ p : string * ChainPlugin S, NormalizeChain p.1 ≠ "" ∧ NormalizeChain p.1 ∉ evmAccountChains) others.

Lemma registerPlugin_others a c :
  other_chains → c ∈ evmAccountChains →
  ∃ a', foldl (λ (a : result (gmap string (ChainPlugin S))) p, a ← a; registerPlugin (fst p) (snd p) a) (Ok a) others = Ok a'
    ∧ a' !! c = a !! c.
Proof.
  intros Ho Hc. revert a. induction Ho as [|[name p] rest [Hn Hne] _ IH]; intros a; [by exists a|].
  cbn [foldl fst snd mbind result_bind] in *. unfold registerPlugin at 2. rewrite decide_False by done.
  destruct (IH (<[NormalizeChain name := p]> a)) as (a' & -> & Ha'). exists a'. split; [done|]. rewrite Ha'.
  apply lookup_insert_ne. intros E. apply Hne. by rewrite E.
Qed.

Lemma evm_canonical : Forall canonical evmAccountChains.
Proof. repeat (constructor; [vm_compute; split_and!; congruence|]). constructor. Qed.

Lemma New_canonical c : canonical c → (New c reader).1 = c.
Proof. intros (Hc & Ht & _). cbn. by rewrite Hc, decide_False. Qed.

Lemma NewAdapter_canonical l a0 :
  Forall canonical l → NoDup l →
  ∃ a, foldl (λ (a : result (gmap string (ChainPlugin S))) p, a ← a; registerPlugin (fst p) (snd p) a) (Ok a0)
         ((λ chain, New chain reader) <$> l) = Ok a
    ∧ (∀ c, c ∈ l → a !! c = Some (New c reader).2) ∧ ∀ c, c ∉ l → a !! c = a0 !! c.
Proof.
  intros Hl Hd. revert a0. induction l as [|c l IH]; intros a0.
  - exists a0. split; [done|]. split; [|done]. intros c Hc. by apply not_elem_of_nil in Hc.
  - apply Forall_cons in Hl as [Hc Hl]. apply NoDup_cons in Hd as [Hni Hd]. rewrite fmap_cons. cbn [foldl mbind result_bind].
    rewrite New_canonical by done. destruct Hc as (Hc & _ & Hne). unfold registerPlugin at 2. rewrite Hc, decide_False by done.
    destruct (IH Hl Hd (<[c := (New c reader).2]> a0)) as (a & -> & Hin & Hout). exists a. split; [done|]. split.
    + intros c' [->|Hc']%elem_of_cons; [|by apply Hin]. by rewrite Hout, lookup_insert_eq.
    + intros c' Hc'. apply not_elem_of_cons in Hc' as [Hne' Hc']. rewrite Hout by done. by apply lookup_insert_ne.
Qed.

Lemma NewAdapter_evm c :
  other_chains → c ∈ evmAccountChains →
  ∃ a, NewAdapter (((λ chain, New chain reader) <$> evmAccountChains) ++ others) = Ok a ∧ a !! c = Some (New c reader).2.
Proof.
  intros Ho Hc. unfold NewAdapter. rewrite foldl_app.
  destruct (NewAdapter_canonical evmAccountChains ∅ evm_canonical) as (a0 & -> & Hin & _);
    [apply (bool_decide_unpack _); vm_compute; exact I|].
  destruct (registerPlugin_others a0 c Ho Hc) as (a & -> & Ha). exists a. split; [done|]. rewrite Ha. by apply Hin.
Qed.

(** The default binding of an EVM chain. *)
Definition evmBinding (c : string) (a : gmap string (ChainPlugin S)) : PluginBinding (ChainPlugin S) :=
  {| pb_Chain := c; pb_Network := "*"; pb_Model := "account"; pb_Adapter := Some (accountAdapter a) |}.

Lemma gateway_resolves chain :
  other_chains → NormalizeChain chain ∈ evmAccountChains →
  ∃ r a, gatewayRouter reader others utxo = Ok r ∧ a !! NormalizeChain chain = Some (New (NormalizeChain chain) reader).2
    ∧ ∀ network, normalizeNetwork network ≠ "" →
        resolveBinding chain network r = Ok (evmBinding (NormalizeChain chain) a)
        ∧ Resolve chain network r = Ok (evmBinding (NormalizeChain chain) a).
Proof.
  intros Ho Hc. assert (Hcan : canonical (NormalizeChain chain)) by exact (proj1 (Forall_forall _ _) evm_canonical _ Hc).
  destruct (NewAdapter_evm _ Ho Hc) as (a & Ha & Hac).
  destruct (default_bindings (accountAdapter a) utxo) as (r & Hr & Hres).
  exists r, a. unfold gatewayRouter. rewrite Ha, bind_ok. split_and!; [done..|]. intros network Hn.
  assert (E : Resolve chain network r = Ok (evmBinding (NormalizeChain chain) a))
    by (apply (Hres chain network Hn), elem_of_app; by left).
  split; [|done]. apply resolveBinding_ok; [|done..]. by destruct Hcan as (_ & _ & ?).
Qed.
End wiring.

(** ** Numbers of a node *)

Lemma confirmationsAt_exact latest r :
  0 ≤ latest < 2 ^ 53 - 501 → (∀ n, r = Ok n → 0 ≤ n) → exact (confirmationsAt latest r).
Proof.
  intros Hl Hr. unfold confirmationsAt, exact, int64_of_uint64. destruct r as [bn|]; [|lia]. specialize (Hr bn eq_refl).
  case_decide; [|lia]. rewrite (wrap64_id (latest - bn)) by (unfold in_int64, int64_min, int64_max; lia).
  rewrite wrap64_id by (unfold in_int64, int64_min, int64_max; lia). lia.
Qed.

Lemma BigString_nonzero z : 0 < z → TrimSpace (BigString z) ≠ "" ∧ BigString z ≠ "0".
Proof.
  intros Hz. rewrite TrimSpace_BigString. split; intros E.
  - pose proof (SetString_String z) as Hs. by rewrite E in Hs.
  - change "0" with (BigString 0) in E. apply BigString_inj in E. lia.
Qed.

(** ** What is kept of a transfer *)

(** The hash, the recipient and the amount; the rest is the page's or the
    receipt's. *)
Definition gist (t : IncomingTransfer) : string * string * string :=
  (TrimSpace (gt_TxHash t), TrimSpace (gt_ToAddress t), gt_Amount t).

(** The items that move an amount. *)
Definition moving (items : list IncomingTransfer) : list IncomingTransfer := filter (λ t, gt_Amount t ≠ "0") items.

Lemma gist_listed i t : TrimSpace (gt_Amount t) = gt_Amount t → gt_Amount t ≠ "" → gist (listed i t) = gist t ∧ gt_Amount (listed i t) = gt_Amount t.
Proof.
  intros Ha Hne. assert (E : gt_Amount (listed i t) = gt_Amount t) by (cbn; by rewrite Ha, decide_False).
  split; [|done]. unfold gist. rewrite E. cbn [listed gt_TxHash gt_ToAddress]. rewrite TrimSpace_idem. f_equal. f_equal.
  unfold fallback. rewrite TrimSpace_idem. case_decide as Hf; [by rewrite Hf|apply TrimSpace_idem].
Qed.

Lemma moving_listed items :
  Forall (λ t, TrimSpace (gt_Amount t) = gt_Amount t ∧ gt_Amount t ≠ "" ∧ gt_Amount t ≠ "0") items →
  gist <$> moving (imap listed items) = gist <$> items.
Proof.
  assert (Hf : ∀ f : nat → IncomingTransfer → IncomingTransfer,
    (∀ i t, TrimSpace (gt_Amount t) = gt_Amount t → gt_Amount t ≠ "" → gist (f i t) = gist t ∧ gt_Amount (f i t) = gt_Amount t) →
    Forall (λ t, TrimSpace (gt_Amount t) = gt_Amount t ∧ gt_Amount t ≠ "" ∧ gt_Amount t ≠ "0") items →
    gist <$> moving (imap f items) = gist <$> items).
  2:{ apply Hf. apply gist_listed. }
  intros f Hf Hi. revert f Hf. induction Hi as [|t items (Ht & Hne & H0) _ IH]; intros f Hf; [done|].
  cbn [imap]. unfold moving. rewrite filter_cons. destruct (Hf 0%nat t Ht Hne) as [Hg Ha]. rewrite Ha, decide_True by done.
  rewrite !fmap_cons, Hg. f_equal. apply IH. intros i. apply (Hf (S i)).
Qed.

Lemma moving_none items : Forall (λ t, gt_Amount t = "0") items → moving items = [].
Proof.
  intros Hi. unfold moving. induction Hi as [|t items Ht _ IH]; [done|].
  rewrite filter_cons, decide_False by (intros E; by apply E). done.
Qed.

(** ** A scan through the service *)

(** What the service makes of the items of a page. *)
Definition serviceItems (out : IncomingTransferResult) : list IncomingTransfer :=
  if decide (gr_Items out = []) then imap (blockTransfer "") (filter (λ b, TrimSpace (gb_Hash b) ≠ "") (gr_Blocks out))
  else imap listed (gr_Items out).

Lemma withRetry_ok {S A} transient (cancelled : S → option error) op (fn : S → result A * S) s a s' :
  fn s = (Ok a, s') → withRetry transient cancelled op fn s = (Ok a, s').
Proof. intros Hf. unfold withRetry. cbn [retryTimes]. by rewrite Hf. Qed.

Lemma withRetry_ok_inv {S A transient} {cancelled : S → option error} {op} {fn : S → result A * S} {s a s'} :
  withRetry transient cancelled op fn s = (Ok a, s') → ∃ s1, fn s1 = (Ok a, s').
Proof.
  unfold withRetry. generalize 3%nat. intros n. revert s. induction n as [|n IH]; intros s; cbn [retryTimes]; [done|].
  destruct (fn s) as [[out|e] s1] eqn:Hf; [intros [= <- <-]; by exists s|].
  destruct (negb _ || _); [done|]. destruct (cancelled s1); [done|]. apply IH.
Qed.

Lemma evm_scanned : Forall (λ c, allowEmptyAddressScan "account" c = true ∧ normalizeChain c ∈ normalizedEvmChains) evmAccountChains.
Proof. apply (bool_decide_unpack _). vm_compute. exact I. Qed.

Section scan.
Context {K} `{Geth K} {C : Type} `{EvmNode C}.
Abbreviation S := (readerState (C := C)).
Variables (others : list (string * ChainPlugin S)) (utxo : ChainPlugin S) (r : Router (ChainPlugin S)) (lookback : Z).
Variables (latest : Z) (block : Z → option rpcBlock) (receipt : string → option rpcReceipt).
Variables (transient : error → bool) (cancelled : S → option error).
Variables (chain coin network : string) (pageSize : Z).
Hypothesis Hnode : answering latest block receipt.
Hypothesis Hothers : other_chains others.
Hypothesis Hrouter : gatewayRouter (Some lookback) others utxo = Ok r.
Hypothesis Hchain : NormalizeChain chain ∈ evmAccountChains.
Hypothesis Hnetwork : normalizeNetwork network ≠ "".
Hypothesis Hlatest : 0 ≤ latest < 2 ^ 53 - 501.
Hypothesis Hsize : 0 ≤ pageSize.

(** The blocks have fewer than [2^40] transactions, with their positions. *)
Hypothesis Hblocks : ∀ n, Z.of_nat (List.length (rb_Transactions (blockAt block n))) < 2 ^ 40
  ∧ Forall (λ tx, uint64OrZero (rt_TransactionIndex tx) < 2 ^ 53) (rb_Transactions (blockAt block n)).

Abbreviation c := (NormalizeChain chain).
Abbreviation network' := (ToLower (TrimSpace network)).

(** The scanner's question for the transfers to any address. *)
Definition scanInput (cursor : string) : IncomingTransferInput := {|
  ii_Model := "account"; ii_Chain := chain; ii_Coin := coin; ii_Network := network; ii_Address := ""; ii_Cursor := cursor;
  ii_Page := 1; ii_PageSize := pageSize; ii_ContractAddress := "" |}.

Definition pageSize' : Z := if decide (pageSize = 0) then 50 else pageSize.

Lemma pageSize'_bounded : boundedPage 500 pageSize' = boundedPage 500 pageSize ∧ 0 ≤ pageSize'.
Proof. unfold boundedPage, pageSize'. repeat case_decide; lia. Qed.

(** What the chain has to say about a page. *)
Abbreviation transfers := (transfersIn latest block receipt "").
Abbreviation page := (pageAfter latest block receipt "" pageSize').

Lemma transfer_facts txs :
  Forall (λ tx, uint64OrZero (rt_TransactionIndex tx) < 2 ^ 53) txs →
  Forall (λ t, sound t ∧ TrimSpace (gt_Amount t) = gt_Amount t ∧ gt_Amount t ≠ "" ∧ gt_Amount t ≠ "0")
    (transfersOf latest receipt "" txs).
Proof.
  intros Ht. rewrite Forall_forall. intros t (tx & Htx & Hi)%list_elem_of_omap.
  rewrite Forall_forall in Ht. specialize (Ht tx Htx).
  unfold incomingAmount in Hi. case_decide as Hskip; [done|]. destruct (hexToBig (rt_Value tx)) as [amt|]; [|done].
  case_decide as Hamt; [done|]. injection Hi as <-. destruct (BigString_nonzero amt) as [Hb Hz]; [lia|].
  split; [|cbn [transferOf gt_Amount]; by rewrite TrimSpace_BigString in *]. split; [cbn; tauto|]. cbn [transferOf gt_Index gt_Confirmations]. split.
  - assert (0 ≤ uint64OrZero (rt_TransactionIndex tx)).
    { unfold uint64OrZero. destruct (hexToUint64 (rt_TransactionIndex tx)) as [n|] eqn:E; [|lia].
      by apply hexToUint64_range in E as [? _]. }
    unfold int64_of_uint64, exact. rewrite wrap64_id by (unfold in_int64, int64_min, int64_max; lia). lia.
  - case_decide; [unfold exact; lia|]. apply confirmationsAt_exact; [done|]. intros n Hn. by apply hexToUint64_range in Hn as [? _].
Qed.

Lemma transfers_facts b n :
  Forall (λ t, sound t ∧ TrimSpace (gt_Amount t) = gt_Amount t ∧ gt_Amount t ≠ "" ∧ gt_Amount t ≠ "0") (transfers b n).
Proof. unfold transfersIn. apply Forall_bind, Forall_forall. intros k _. apply transfer_facts. by destruct (Hblocks k). Qed.

Lemma transfers_length b n : 0 ≤ n ≤ 500 → Z.of_nat (List.length (transfers b n)) < 2 ^ 53.
Proof.
  intros Hn. assert (Hm : ∀ l : list Z, Z.of_nat (List.length (l ≫= λ k, transfersOf latest receipt "" (rb_Transactions (blockAt block k))))
                    ≤ Z.of_nat (List.length l) * 2 ^ 40).
  { induction l as [|k l IH]; [cbn; lia|]. cbn [mbind list_bind List.length]. rewrite length_app.
    assert (Ho : ∀ txs, (List.length (transfersOf latest receipt "" txs) ≤ List.length txs)%nat).
    { induction txs as [|tx txs IHt]; [done|]. unfold transfersOf in *. cbn [omap list_omap].
      case_match; cbn [List.length]; lia. }
    specialize (Ho (rb_Transactions (blockAt block k))). destruct (Hblocks k) as [Hk _]. lia. }
  specialize (Hm (seqZ b n)). rewrite length_seqZ in Hm. unfold transfersIn. lia.
Qed.

Lemma page_read_back v : 0 ≤ v ≤ latest → ∀ chain, normalizeChain chain ∈ normalizedEvmChains →
  extractAccountTransfers chain (transfersPayload (page v)) "" = (serviceItems (page v), BigString (pageEnd latest pageSize' v))
  ∧ gist <$> moving (serviceItems (page v)) = gist <$> transfers (v + 1) (pageEnd latest pageSize' v - v).
Proof.
  intros Hv chain' Hn. pose proof (transfers_facts (v + 1) (pageEnd latest pageSize' v - v)) as Hf.
  assert (Hb : 0 ≤ pageEnd latest pageSize' v - v ≤ 500).
  { destruct pageSize'_bounded as [_ Hp]. pose proof (boundedPage_range pageSize' Hp 500 ltac:(lia) ltac:(lia)).
    unfold pageEnd. lia. }
  pose proof (transfers_length (v + 1) _ Hb) as Hl.
  assert (Hcur : TrimSpace (BigString (pageEnd latest pageSize' v)) ≠ "").
  { rewrite TrimSpace_BigString. intros E. pose proof (SetString_String (pageEnd latest pageSize' v)) as Hs. by rewrite E in Hs. }
  unfold serviceItems. cbn [pageAfter gr_Items gr_Blocks]. case_decide as He.
  - rewrite blocks_read_as_transfers by done. cbn [pageAfter gr_NextCursor gr_Blocks]. rewrite TrimSpace_BigString.
    split; [done|]. rewrite He, moving_none; [done|]. apply Forall_lookup. intros i t. rewrite list_lookup_imap.
    by intros (b & _ & ->)%fmap_Some.
  - rewrite items_read_back; try done; cbn [pageAfter gr_Items gr_NextCursor].
    + rewrite TrimSpace_BigString. split; [done|]. apply moving_listed. eapply Forall_impl; [exact Hf|]. tauto.
    + eapply Forall_impl; [exact Hf|]. tauto.
Qed.

(** One page, up to the items that move nothing. *)
Lemma service_page v (s : S) :
  0 ≤ v ≤ latest → has_endpoints c network' s →
  ∃ s' items, serviceIncoming transient cancelled r (scanInput (BigString v)) s
      = (Ok {| gr_Items := items; gr_NextCursor := BigString (pageEnd latest pageSize' v);
               gr_Blocks := extractBlockMetas (transfersPayload (page v)) |}, s')
    ∧ gist <$> moving items = gist <$> transfers (v + 1) (pageEnd latest pageSize' v - v)
    ∧ has_endpoints c network' s'.
Proof.
  intros Hv Hs. destruct (gateway_resolves (Some lookback) others utxo chain Hothers Hchain) as (r' & a & Hr' & Ha & Hres).
  rewrite Hrouter in Hr'. injection Hr' as <-. destruct (Hres network Hnetwork) as [Hb _]. clear Hres.
  destruct pageSize'_bounded as [_ Hp0].
  destruct (page_after latest block receipt "" Hnode ltac:(lia) lookback c network' pageSize' Hp0 "" eq_refl v s Hv Hs)
    as (s' & Hpage & Hs').
  assert (Hcan : canonical c) by exact (proj1 (Forall_forall _ _) evm_canonical c Hchain).
  assert (Hcc : NormalizeChain c = c) by apply Hcan.
  destruct (proj1 (Forall_forall _ _) evm_scanned c Hchain) as [Hscan Hnorm].
  assert (Hraw : fetchIncomingRaw transient cancelled (evmBinding c a) (scanInput (BigString v)) s = (Ok (transfersPayload (page v)), s')).
  { unfold fetchIncomingRaw. cbn [evmBinding pb_Model pb_Adapter]. rewrite decide_False by done. apply withRetry_ok.
    unfold withAdapter. cbn [evmBinding pb_Adapter accountAdapter cp_GetTxByAddress tq_Chain pb_Chain scanInput].
    unfold withPlugin, resolvePlugin. cbv zeta. rewrite Hcc, decide_False by apply Hcan. rewrite Ha. cbn [from_option_err].
    unfold New. cbn [snd cp_GetTxByAddress]. unfold GetTxByAddress, withReader, map_result, normalizedQuery.
    cbn [tq_ContractAddress tq_Chain tq_Network tq_Address tq_Cursor tq_PageSize scanInput ii_ContractAddress ii_Coin ii_Network
         ii_Address ii_Cursor ii_PageSize ii_Page]. change (TrimSpace "") with "". rewrite (decide_False (P := "" ≠ "")) by naive_solver.
    fold pageSize'. rewrite Hcc. by rewrite Hpage. }
  destruct (page_read_back v Hv c Hnorm) as [Hitems Hgist].
  eexists s', _. split; [|split; [|exact Hs']].
  - unfold serviceIncoming. cbn [scanInput ii_Chain ii_Network ii_Model ii_Address] in *. rewrite Hb.
    cbn [evmBinding pb_Model pb_Chain] in *. rewrite decide_False by naive_solver.
    rewrite decide_False by (intros [_ E]; by rewrite Hscan in E). rewrite Hraw. cbn [fmap result_fmap]. unfold IncomingTransfers.
    rewrite decide_False by done. by rewrite Hitems.
  - exact Hgist.
Qed.
(** [n] pages through the service, each from the cursor of the one before. *)
Fixpoint followService (n : nat) (cursor : string) (s : S) : result (list IncomingTransfer * string) :=
  match n with
  | O => Ok ([], cursor)
  | Datatypes.S n =>
      match serviceIncoming transient cancelled r (scanInput cursor) s with
      | (Err e, _) => Err e
      | (Ok page, s) =>
          rest ← followService n (gr_NextCursor page) s;
          Ok (gr_Items page ++ fst rest, snd rest)
      end
  end.

Lemma moving_app l1 l2 : moving (l1 ++ l2) = moving l1 ++ moving l2.
Proof. apply filter_app. Qed.

Lemma followService_after n : ∀ v (s : S),
  0 ≤ v ≤ latest → has_endpoints c network' s → latest ≤ v + Z.of_nat n * boundedPage 500 pageSize →
  ∃ items, followService n (BigString v) s = Ok (items, BigString latest)
    ∧ gist <$> moving items = gist <$> transfers (v + 1) (latest - v).
Proof.
  destruct pageSize'_bounded as [Hb Hp]. pose proof (boundedPage_range pageSize' Hp 500 ltac:(lia) ltac:(lia)) as Hr.
  rewrite <- Hb. clear Hb. induction n as [|n IH]; intros v s Hv Hs Hn; cbn [followService].
  - assert (v = latest) as -> by lia. exists []. split; [done|]. by rewrite Z.sub_diag.
  - destruct (service_page v s Hv Hs) as (s' & items & -> & Hg & Hs'). cbn [gr_NextCursor gr_Items].
    set (e := pageEnd latest pageSize' v) in *.
    assert (He : v ≤ e ≤ latest ∧ latest ≤ e + Z.of_nat n * boundedPage 500 pageSize') by (unfold e, pageEnd; lia).
    destruct (IH e s' ltac:(lia) Hs' ltac:(lia)) as (rest & -> & Hrest). cbn [mbind result_bind fst snd].
    eexists. split; [done|]. rewrite moving_app, fmap_app, Hg, Hrest, <- fmap_app.
    replace (latest - v) with ((e - v) + (latest - e)) by lia. rewrite transfersIn_split by lia. do 3 f_equal. lia.
Qed.
End scan.

(** The service of a gateway for an EVM chain, over a node that answers. *)
Record serving {K C} `{Geth K} `{EvmNode C} (r : Router (ChainPlugin (readerState (C := C)))) (chain network : string)
    (latest : Z) (block : Z → option rpcBlock) (receipt : string → option rpcReceipt) : Prop := {
  sv_wired : ∃ lookback others utxo, other_chains others ∧ gatewayRouter (Some lookback) others utxo = Ok r;
  sv_chain : NormalizeChain chain ∈ evmAccountChains;
  sv_network : normalizeNetwork network ≠ "";
  sv_node : answering latest block receipt;
  sv_height : 0 ≤ latest < 2 ^ 53 - 501;
  sv_blocks : ∀ n, Z.of_nat (List.length (rb_Transactions (blockAt block n))) < 2 ^ 40
    ∧ Forall (λ tx, uint64OrZero (rt_TransactionIndex tx) < 2 ^ 53) (rb_Transactions (blockAt block n));
}.

(** * Properties of the chain gateway *)

(** ** A concrete gateway *)

(** A node of height 3: block 1 has a transfer to alice, block 2 none, and
    block 3 the node does not have. *)
Definition payment : rpcTx := {|
  rt_Hash := "0xfeed"; rt_From := "0xBob"; rt_To := "0xAlice"; rt_Value := "0x64"; rt_TransactionIndex := "0x0";
  rt_BlockNumber := "0x1" |}.
Definition blockNamed (n hash parent : string) (txs : list rpcTx) : rpcBlock :=
  {| rb_Number := n; rb_Hash := hash; rb_ParentHash := parent; rb_Transactions := txs |}.
Definition blocks (n : Z) : option rpcBlock :=
  if decide (n = 1) then Some (blockNamed "0x1" "0xb1" "0xb0" [payment])
  else if decide (n = 2) then Some (blockNamed "0x2" "0xb2" "0xb1" [])
  else None.
Definition confirmedIn (n : string) : rpcReceipt := {| rc_Status := "0x1"; rc_BlockNumber := n |}.
Definition receipts (hash : string) : option rpcReceipt :=
  if decide (hash = "0xfeed") then Some (confirmedIn "0x1") else None.

(** The state of the node is the time. *)
#[export] Instance smallNode : EvmNode Z := {|
  nd_now c := c; nd_intn _ _ := 0; nd_cancelled _ := None; nd_partial _ := 0;
  nd_blockNumber _ c := (Ok "0x3", c + 1);
  nd_block _ n c := (Ok (blocks n), c + 1);
  nd_logs _ _ c := (Ok [], c + 1);
  nd_tx _ _ c := (Ok None, c + 1);
  nd_receipt _ h c := (Ok (receipts h), c + 1);
  nd_balance _ _ c := (Ok "0x5", c + 1);
  nd_pendingNonce _ _ c := (Ok "0x7", c + 1);
  nd_sendRaw _ raw c := (Ok "0xhash", c + 1);
|}.

#[export] Instance noGeth : Geth () := {|
  geth_decompress _ := Ok (); geth_unmarshal _ := Ok (); geth_address _ := "0x0000000000000000000000000000000000000000";
  signed_tx := bytes; HexToAddress _ := replicate 20 zero; Keccak256 _ := replicate 32 zero; LeftPadBytes b _ := b;
  tx_hash _ _ := "0xhash"; WithSignature _ _ sig := Ok sig; tx_sender _ _ := Ok ""; MarshalBinary sig := Ok sig |}.

Abbreviation smallState := (readerState (C := Z)).

(** A plugin without operations. *)
Definition noPlugin : ChainPlugin smallState := {|
  cp_GetTxByAddress _ s := (Err ErrUnsupported, s); cp_GetTxByHash _ s := (Err ErrUnsupported, s);
  cp_GetAccount _ s := (Err ErrUnsupported, s); cp_GetUnspentOutputs _ _ _ s := (Err ErrUnsupported, s);
  cp_ConvertAddress _ _ _ _ s := (Err ErrUnsupported, s); cp_SendTx _ _ _ _ s := (Err ErrUnsupported, s);
  cp_BuildUnsignedAccount _ _ _ s := (Err ErrUnsupported, s); cp_BuildSignedAccount _ _ _ _ _ s := (Err ErrUnsupported, s);
  cp_BuildUnsignedUTXO _ _ _ _ _ s := (Err ErrUnsupported, s); cp_BuildSignedUTXO _ _ _ _ _ s := (Err ErrUnsupported, s) |}.

Definition smallRouter : Router (ChainPlugin smallState) :=
  match gatewayRouter (Some 0) [] noPlugin with Ok r => r | Err _ => ∅ end.
Definition smallStart : smallState := (manager_run [OpRefresh (Ok nodes)] managerStart, 20).

Lemma small_wired : gatewayRouter (Some 0) [] noPlugin = Ok smallRouter.
Proof.
  unfold smallRouter.
  destruct (gateway_resolves (Some 0) [] noPlugin "eth") as (r & a & Hr & _); [constructor|vm_compute; left|]. by rewrite Hr.
Qed.

Lemma small_serving : serving smallRouter "eth" "mainnet" 3 blocks receipts.
Proof.
  split.
  - exists 0, [], noPlugin. split; [constructor|exact small_wired].
  - vm_compute. left.
  - vm_compute. discriminate.
  - split; [intros ep c; by exists "0x3"|done|done].
  - lia.
  - intros n. unfold blockAt, blocks. repeat case_decide; cbn; (split; [lia|]); repeat constructor.
Qed.

(** ** Properties *)

Section properties.
Context {K} `{Geth K} {C : Type} `{EvmNode C}.
Implicit Types (r : Router (ChainPlugin (readerState (C := C)))) (s : readerState (C := C)).

(** C13. Reading an EVM chain through the service is complete: pages that each
    start from the cursor of the one before, from block [v], reach the head
    after enough of them, and the items that move an amount are, in order,
    exactly the transfers of the blocks after [v].  The node answers and its
    height stays; a block it answers with [null] has no transfers. *)
Theorem pages_cover_chain transient cancelled r chain coin network latest block receipt pageSize v s n :
  serving r chain network latest block receipt → 0 ≤ pageSize → 0 ≤ v ≤ latest →
  has_endpoints (NormalizeChain chain) (ToLower (TrimSpace network)) s →
  latest ≤ v + Z.of_nat n * boundedPage 500 pageSize →
  ∃ items, followService r transient cancelled chain coin network pageSize n (BigString v) s = Ok (items, BigString latest)
    ∧ gist <$> moving items = gist <$> transfersIn latest block receipt "" (v + 1) (latest - v).
Proof.
  intros [(lookback & others & utxo & Ho & Hr) Hc Hn Hnode Hl Hb] Hp Hv Hs Hpages.
  exact (followService_after others utxo r lookback latest block receipt transient cancelled chain coin network pageSize
           Hnode Ho Hr Hc Hn Hl Hp Hb n v s Hv Hs Hpages).
Qed.

(** A block the node does not have is passed over: a node behind the
    others, which answers [null] for a block, loses the transfers of that block
    without an error, and the cursor ends behind it. *)
Theorem missing_block_is_skipped transient cancelled r chain coin network latest block receipt pageSize v k s n :
  serving r chain network latest block receipt → 0 ≤ pageSize → 0 ≤ v < k → k ≤ latest →
  has_endpoints (NormalizeChain chain) (ToLower (TrimSpace network)) s →
  latest ≤ v + Z.of_nat n * boundedPage 500 pageSize → block k = None →
  ∃ items, followService r transient cancelled chain coin network pageSize n (BigString v) s = Ok (items, BigString latest)
    ∧ gist <$> moving items
      = gist <$> transfersIn latest block receipt "" (v + 1) (k - v - 1) ++ transfersIn latest block receipt "" (k + 1) (latest - k).
Proof.
  intros [(lookback & others & utxo & Ho & Hr) Hc Hn Hnode Hl Hb] Hp Hv Hk Hs Hpages Hnone.
  destruct (followService_after others utxo r lookback latest block receipt transient cancelled chain coin network pageSize
              Hnode Ho Hr Hc Hn Hl Hp Hb n v s ltac:(lia) Hs Hpages) as (items & Hf & Hg).
  exists items. split; [done|]. rewrite Hg. f_equal.
  replace (latest - v) with ((k - v - 1) + (1 + (latest - k))) by lia. rewrite !transfersIn_split by lia. f_equal.
  replace (v + 1 + (k - v - 1)) with k by lia. unfold transfersIn at 1. rewrite seqZ_cons by lia. cbn.
  unfold blockAt. rewrite Hnone. done.
Qed.

(** An endpoint answers for what the caller did: a cursor that is not a
    number is reported as a failure of the endpoint that was chosen, although
    the node answered. *)
Theorem bad_cursor_blames_endpoint lookback chain network address cursor pageSize latest block receipt s ep :
  answering latest block receipt → selectEndpoint chain network s = Ok ep →
  TrimSpace cursor ≠ "" → parse_nat10 (to_bytes (TrimSpace cursor)) = None →
  ∃ c, ListIncomingTransfers lookback chain network address cursor pageSize s
       = (Err (Errorf "invalid cursor"),
          (ReportFailure (nd_now c) (sl_Key ep) (Some (Errorf "invalid cursor")) s.1, c)).
Proof.
  intros Hnode Hep Hne Hc. unfold ListIncomingTransfers, withEndpoint. rewrite Hep. unfold incomingPage.
  unfold nbind at 1. pose proof (blockNumber_ok latest block receipt Hnode ep s.2) as Hl.
  destruct (blockNumber ep s.2) as [res c]. cbn in Hl. subst res. exists c.
  unfold resolveFromBlock. rewrite decide_False by done. by rewrite Hc.
Qed.
End properties.

Lemma pages_cover_chain_witness :
  ∃ items, followService smallRouter (λ _, false) (λ _, None) "eth" "ETH" "mainnet" 2 2 "0" smallStart = Ok (items, "3")
    ∧ gist <$> moving items = [("0xfeed", "0xAlice", "100")].
Proof.
  apply (pages_cover_chain (λ _, false) (λ _, None) smallRouter "eth" "ETH" "mainnet" 3 blocks receipts 2 0 smallStart 2 small_serving);
    [lia|lia|vm_compute; split_and!; discriminate|vm_compute; discriminate].
Defined.

Lemma missing_block_is_skipped_witness :
  ∃ items, followService smallRouter (λ _, false) (λ _, None) "eth" "ETH" "mainnet" 2 1 "1" smallStart = Ok (items, "3")
    ∧ moving items = [].
Proof.
  destruct (missing_block_is_skipped (λ _, false) (λ _, None) smallRouter "eth" "ETH" "mainnet" 3 blocks receipts 2 1 3
              smallStart 1 small_serving) as (items & Hf & Hg);
    [lia|lia|lia|vm_compute; split_and!; discriminate|vm_compute; discriminate|reflexivity|].
  exists items. split; [exact Hf|].
  apply (fmap_nil_inv gist). etrans; [exact Hg|]. vm_compute. reflexivity.
Defined.

(** Two such calls open the circuit of the endpoint. *)
Definition blamed : smallState := (ListIncomingTransfers 0 "ethereum" "mainnet" "" "latest" 2 smallStart).2.
Lemma bad_cursor_blames_endpoint_witness :
  (∃ c, ListIncomingTransfers 0 "ethereum" "mainnet" "" "latest" 2 smallStart
     = (Err (Errorf "invalid cursor"), (ReportFailure (nd_now c) (keyOf "a") (Some (Errorf "invalid cursor")) smallStart.1, c)))
  ∧ is_Some (entry blamed.1 (keyOf "a") ≫= λ st, if decide (es_failStreak st = 1) then Some () else None).
Proof.
  split; [|vm_compute; by eexists].
  apply (bad_cursor_blames_endpoint 0 "ethereum" "mainnet" "" "latest" 2 3 blocks receipts smallStart (toSelected (newState (node "a" 3))));
    [exact (sv_node _ _ _ _ _ _ small_serving)|vm_compute; reflexivity|discriminate|vm_compute; reflexivity].
Defined.
