(* ===== verification/EvmPayments.v ===== *)
(** * The transaction of a withdrawal

    wallet-core's orchestrator with its chain client ([ChainClient]) in front of
    the gateway's service and EVM plugin: what a node is handed for a request. *)
From S2P Require Import Prelude GoStrings GoNumbers GoJson GoCodec Ports LedgerTables LedgerWithdraw.
From S2P Require Import Calls Orchestrator.
From S2P Require Import Dispatcher DispatcherTraces ChainClient KeyRef Endpoint EndpointSystem EvmReader.
From S2P Require Import Normalize EvmPlugin.
From S2P Require Import EvmSend ChainService GatewayPages.

(** ** The payload and the request *)

(** The gateway's struct has the same tags as the dispatcher's. *)
Definition requestOf (p : evmDynamicFeePayload) : evmDynamicFeeRequest := {|
  er_ChainID := ev_ChainID p; er_NonceMode := ev_NonceMode p; er_FromAddress := ev_FromAddress p; er_Nonce := ev_Nonce p;
  er_MaxPriorityFeePerGas := ev_MaxPriorityFeePerGas p; er_MaxFeePerGas := ev_MaxFeePerGas p;
  er_GasLimit := ev_GasLimit p; er_ToAddress := ev_ToAddress p; er_Amount := ev_Amount p;
  er_ContractAddress := ev_ContractAddress p |}.

Lemma requestFields_payload m : requestFields m = requestOf <$> payloadFields m.
Proof.
  unfold requestFields, payloadFields.
  repeat match goal with |- context [?f ?tag m] => destruct (f tag m); [cbn [mbind option_bind]|done] end. done.
Qed.

Lemma payloadFields_members p :
  0 ≤ ev_Nonce p < 2 ^ 64 → 0 ≤ ev_GasLimit p < 2 ^ 64 → payloadFields (payloadMembers p) = Some p.
Proof.
  intros Hn Hg. unfold payloadFields, payloadMembers, unless_empty.
  rewrite (string_once "chainId" _ (ev_ChainID p)), (string_unless_empty "nonceMode" _ (ev_NonceMode p)),
    (string_unless_empty "fromAddress" _ (ev_FromAddress p)), (uint64_once "nonce" _ (ev_Nonce p)),
    (string_once "maxPriorityFeePerGas" _ (ev_MaxPriorityFeePerGas p)), (string_once "maxFeePerGas" _ (ev_MaxFeePerGas p)),
    (uint64_once "gasLimit" _ (ev_GasLimit p)), (string_once "toAddress" _ (ev_ToAddress p)),
    (string_once "amount" _ (ev_Amount p)), (string_unless_empty "contractAddress" _ (ev_ContractAddress p));
    try done; [by destruct p|..]; repeat case_decide; reflexivity.
Qed.

Lemma payloadMembers_flat p : request_ok (requestOf p) → flat_members (payloadMembers p).
Proof. intros []. unfold payloadMembers, flat_members. cbn in *. flat_tac. Qed.

(** The plugin reads wallet-core's text of a payload. *)
Lemma decode_payloadMembers `{Geth K} p tx :
  request_ok (requestOf p) → requestTx (requestOf p) = Ok tx →
  decodePayloadTx (encode64doc (payloadMembers p)) = Ok (tx, requestOf p).
Proof.
  intros Hok Htx. apply decodePayloadTx_members; [by apply payloadMembers_flat| |done].
  rewrite requestFields_payload, payloadFields_members; [done|apply Hok..].
Qed.

(** The dispatcher reads the plugin's text of a transaction. *)
Lemma decodePayload_of_tx `{Geth K} text tx req :
  TrimSpace text = text → decodePayloadTx text = Ok (tx, req) →
  ∃ p, decodePayload (PayloadCodec := jsonCodec) text = Ok p ∧ req = requestOf p.
Proof.
  unfold decodePayloadTx, decodeDynamicFeeTx. intros ->. cbn [decodePayload jsonCodec]. intros Hx. mbind_inv Hx. mbind_inv Hx. mbind_inv Hx.
  injection Hx as <- <-. apply from_option_err_ok in Ha, Ha0. rewrite Ha. cbn [from_option_err]. rewrite bind_ok. unfold Unmarshal in *.
  apply bind_Some in Ha0 as (d & Hd & Hreq). rewrite Hd. cbn [mbind option_bind].
  destruct d; try done; cbn [struct_of] in *; rewrite requestFields_payload in Hreq;
    apply fmap_Some in Hreq as (p & Hp & ->); exists p; by rewrite Hp.
Qed.

Lemma SetString10_utf8 s n : SetString10 s = Some n → valid_utf8 s.
Proof.
  intros Hs%SetString10_clean. apply ascii_utf8. apply forallb_forall. intros a Ha. rewrite Forall_forall in Hs.
  specialize (Hs a ltac:(by apply list_elem_of_In)). unfold clean_char in Hs. apply andb_prop in Hs as [_ Hs%N.leb_le].
  apply N.ltb_lt. lia.
Qed.

(** ** Replacements *)

(** The same transaction with other fees. *)
Definition same_payment (tx tx' : DynamicFeeTx) : Prop :=
  tx_ChainID tx' = tx_ChainID tx ∧ tx_Nonce tx' = tx_Nonce tx ∧ tx_Gas tx' = tx_Gas tx ∧ tx_To tx' = tx_To tx
  ∧ tx_Value tx' = tx_Value tx ∧ tx_Data tx' = tx_Data tx.

Lemma requestTx_ok `{Geth K} req tx :
  requestTx req = Ok tx → SetString10 (TrimSpace (er_ChainID req)) = Some (tx_ChainID tx)
    ∧ SetString10 (TrimSpace (er_MaxPriorityFeePerGas req)) = Some (tx_GasTipCap tx)
    ∧ SetString10 (TrimSpace (er_MaxFeePerGas req)) = Some (tx_GasFeeCap tx)
    ∧ is_Some (SetString10 (TrimSpace (er_Amount req))).
Proof.
  unfold requestTx. intros Hx. mbind_inv Hx. mbind_inv Hx. mbind_inv Hx. mbind_inv Hx. injection Hx as <-.
  apply from_option_err_ok in Ha, Ha0, Ha1, Ha2. cbn. rewrite Ha, Ha0, Ha1, Ha2. by split_and!.
Qed.

Lemma bump_replaces `{Geth K} text bps out tx req :
  TrimSpace text = text → decodePayloadTx text = Ok (tx, req) →
  bumpEVMReplacementPayload (H0 := jsonCodec) text bps = Ok out →
  ∃ tx' req', decodePayloadTx out = Ok (tx', req') ∧ usesFixedNonce (er_NonceMode req') = true
    ∧ same_payment tx tx' ∧ tx_GasTipCap tx < tx_GasTipCap tx' ∧ tx_GasFeeCap tx < tx_GasFeeCap tx'
    ∧ tx_GasTipCap tx' ≤ tx_GasFeeCap tx'.
Proof.
  intros Htrim Hd Hb. apply decodePayloadTx_ok in Hd as Hok. destruct Hok as [Hreq Htx].
  apply bumpEVMReplacementPayload_spec in Hb as (p & p' & tip & fee & tip' & fee' & Hp & Ho & Htip & Hfee & Htip' & Hfee'
    & Hlt1 & Hlt2 & Hle & Emode & Eid & Efrom & Enonce & Eto & Eamt & Eca & Egas).
  destruct (decodePayload_of_tx text tx req Htrim Hd) as (p0 & Hp0 & ->). rewrite Hp in Hp0. injection Hp0 as <-.
  assert (out = encode64doc (payloadMembers p')) as -> by by injection Ho.
  destruct (requestTx_ok _ _ Htx) as (Hid & Ht & Hf & _). cbn [requestOf er_ChainID er_MaxPriorityFeePerGas er_MaxFeePerGas] in *.
  rewrite (SetString10_trimmed _ _ Htip), Htip in Ht. rewrite (SetString10_trimmed _ _ Hfee), Hfee in Hf.
  injection Ht as ->. injection Hf as ->.
  set (tx' := {| tx_ChainID := tx_ChainID tx; tx_Nonce := tx_Nonce tx; tx_GasTipCap := tip'; tx_GasFeeCap := fee';
    tx_Gas := tx_Gas tx; tx_To := tx_To tx; tx_Value := tx_Value tx; tx_Data := tx_Data tx |}).
  assert (requestTx (requestOf p') = Ok tx') as Htx'.
  { clear -Htx Htip' Hfee' Eid Enonce Eto Eamt Eca Egas. unfold requestTx in *.
    cbn [requestOf er_ChainID er_NonceMode er_FromAddress er_Nonce er_MaxPriorityFeePerGas er_MaxFeePerGas er_GasLimit
         er_ToAddress er_Amount er_ContractAddress] in *.
    rewrite Eid, Enonce, Eto, Eamt, Eca, Egas, (SetString10_trimmed _ _ Htip'), (SetString10_trimmed _ _ Hfee'), Htip', Hfee'.
    mbind_inv Htx. mbind_inv Htx. mbind_inv Htx. mbind_inv Htx. rewrite Ha, Ha2. injection Htx as <-. done. }
  assert (request_ok (requestOf p')) as Hok'.
  { destruct Hreq. cbn in *. split; cbn; rewrite ?Eid, ?Efrom, ?Enonce, ?Eto, ?Eamt, ?Eca, ?Egas, ?Emode; try done;
      [by apply ascii_utf8|by eapply SetString10_utf8..]. }
  exists tx', (requestOf p'). split; [by apply decode_payloadMembers|].
  split; [by cbn; rewrite Emode|]. by split_and!.
Qed.

(** ** wallet-core on the gateway *)

(** The stub's methods when the service is behind the connection. *)
Definition gatewayClient {S} (rpcError : error → error) (unreachable : S → option error) (transient : error → bool)
    (cancelled : S → option error) (r : Router (ChainPlugin S)) : ChainGatewayServiceClient S := {|
  gw_BuildUnsignedTx q := remote rpcError unreachable (serviceBuildUnsigned transient cancelled r {|
    bi_Chain := bq_Chain q; bi_Network := bq_Network q; bi_Base64Tx := bq_Base64Tx q; bi_Fee := bq_Fee q;
    bi_Vin := bq_Vin q; bi_Vout := bq_Vout q |});
  gw_SendTx p := remote rpcError unreachable (serviceSendTx transient cancelled r p);
  gw_GetBalance chain coin network address contract := remote rpcError unreachable (λ s,
    let '(out, s) := serviceBalance transient cancelled r chain coin network address contract s in
    ((λ out, {| cb_Balance := gl_Balance out; cb_Network := gl_Network out; cb_Sequence := gl_Sequence out |}) <$> out, s));
  gw_ConvertAddress chain network addrType publicKey :=
    remote rpcError unreachable (serviceConvertAddress transient cancelled r chain network addrType publicKey) |}.

(** A node with the list of the raw transactions it was handed. *)
Definition journal {C} `{EvmNode C} : EvmNode (C * list string) :=
  let on {A} (f : C → A * C) (c : C * list string) : A * (C * list string) := let '(a, c') := f c.1 in (a, (c', c.2)) in {|
  nd_now c := nd_now c.1; nd_intn c := nd_intn c.1; nd_cancelled c := nd_cancelled c.1; nd_partial := nd_partial;
  nd_blockNumber ep := on (nd_blockNumber ep); nd_block ep n := on (nd_block ep n); nd_logs ep f := on (nd_logs ep f);
  nd_tx ep h := on (nd_tx ep h); nd_receipt ep h := on (nd_receipt ep h); nd_balance ep a := on (nd_balance ep a);
  nd_pendingNonce ep a := on (nd_pendingNonce ep a);
  nd_sendRaw ep raw c := let '(a, c') := nd_sendRaw ep raw c.1 in (a, (c', c.2 ++ [raw])) |}.

Section gateway.
Context {K} `{Geth K} {C : Type} `{EvmNode C}.
#[local] Existing Instance journal.
Abbreviation S := (readerState (C := C * list string)).
Variables (transient : error → bool) (cancelled : S → option error).
Variables (lookback : Z) (others : list (string * ChainPlugin S)) (utxo : ChainPlugin S) (r : Router (ChainPlugin S)).
Hypothesis Hothers : other_chains others.
Hypothesis Hrouter : gatewayRouter (Some lookback) others utxo = Ok r.

(** What the node was handed so far. *)
Definition handed (s : S) : list string := s.2.2.

Abbreviation reader := (Some lookback).

Lemma withEndpoint_handed {A} chain network (body : SelectedEndpoint → nodeM (C * list string) A) (s : S) l :
  (∀ ep c, (body ep c).2.2 = c.2 ++ l) →
  ∃ m, (m ≤ 1)%nat ∧ handed (withEndpoint chain network body s).2 = handed s ++ concat (replicate m l).
Proof.
  intros Hb. unfold withEndpoint, handed. destruct (selectEndpoint chain network s) as [ep|e].
  - specialize (Hb ep s.2). exists 1%nat. split; [lia|]. cbn [replicate concat]. rewrite app_nil_r.
    destruct (body ep s.2) as [[a|e] c]; exact Hb.
  - exists 0%nat. split; [lia|]. cbn. by rewrite app_nil_r.
Qed.

Lemma concat_nils {A} m : concat (replicate m ([] : list A)) = [].
Proof. by induction m. Qed.
Lemma concat_ones {A} m (a : A) : concat (replicate m [a]) = replicate m a.
Proof. induction m as [|m IH]; [done|]. cbn. by rewrite IH. Qed.

Lemma fetchPendingNonce_handed chain network from (s : S) :
  handed (fetchPendingNonce reader chain network from s).2 = handed s.
Proof.
  unfold fetchPendingNonce, pluginCall.
  destruct (withEndpoint_handed chain network (λ ep, nd_pendingNonce ep from) s []) as (m & _ & Hm).
  { intros ep c. cbn. destruct (nd_pendingNonce ep from c.1) as [a c']. by rewrite app_nil_r. }
  rewrite concat_nils, app_nil_r in Hm. by destruct (withEndpoint _ _ _ s) as [out s1].
Qed.

Lemma evmBuildUnsigned_handed chain network base64Tx (s : S) :
  handed (evmBuildUnsigned reader chain network base64Tx s).2 = handed s.
Proof.
  unfold evmBuildUnsigned. destruct (negb _); [done|]. destruct (decodePayloadTx base64Tx) as [[tx req]|]; [|done].
  destruct (_ && _); [|done]. pose proof (fetchPendingNonce_handed chain network (er_FromAddress req) s) as Hf.
  by destruct (fetchPendingNonce _ _ _ _ s) as [[nonce|e] s1].
Qed.

Lemma evmSendTx_handed chain network rawTx (s : S) :
  ∃ m, (m ≤ 1)%nat ∧ handed (evmSendTx reader chain network rawTx s).2 = handed s ++ replicate m (TrimSpace rawTx).
Proof.
  unfold evmSendTx, pluginCall. destruct (negb _); [exists 0%nat; split; [lia|by cbn; rewrite app_nil_r]|].
  destruct (withEndpoint_handed chain network (λ ep, nd_sendRaw ep (TrimSpace rawTx)) s [TrimSpace rawTx]) as (m & Hm & E).
  { intros ep c. cbn. by destruct (nd_sendRaw ep (TrimSpace rawTx) c.1). }
  rewrite concat_ones in E. exists m. split; [done|]. by destruct (withEndpoint _ _ _ s).
Qed.

Lemma retryTimes_handed {A} n op (fn : S → result A * S) (s : S) raw :
  (∀ s, ∃ m, (m ≤ 1)%nat ∧ handed (fn s).2 = handed s ++ replicate m raw) →
  ∃ m, (m ≤ n)%nat ∧ handed (retryTimes transient cancelled n op fn s).2 = handed s ++ replicate m raw.
Proof.
  intros Hf. revert s. induction n as [|n IH]; intros s; cbn [retryTimes]; [exists 0%nat; split; [lia|by cbn; rewrite app_nil_r]|].
  destruct (Hf s) as (m & Hm & E). destruct (fn s) as [[out|e] s1]; cbn [snd] in E; [exists m; split; [lia|done]|].
  destruct (_ || _); [exists m; split; [lia|done]|]. destruct (cancelled s1); [exists m; split; [lia|done]|].
  destruct (IH s1) as (m' & Hm' & E'). exists (m + m')%nat. split; [lia|].
  by rewrite E', E, <- app_assoc, replicate_add.
Qed.

Lemma retryTimes_quiet {A} n op (fn : S → result A * S) (s : S) :
  (∀ s, handed (fn s).2 = handed s) → handed (retryTimes transient cancelled n op fn s).2 = handed s.
Proof.
  intros Hf. revert s. induction n as [|n IH]; intros s; cbn [retryTimes]; [done|].
  specialize (Hf s) as E. destruct (fn s) as [[out|e] s1]; cbn [snd] in E; [done|].
  destruct (_ || _); [done|]. destruct (cancelled s1); [done|]. by rewrite IH.
Qed.
(** *** One chain *)

Variables (chain network : string).
Hypothesis Hchain : NormalizeChain chain ∈ evmAccountChains.
Abbreviation c := (NormalizeChain chain).
Abbreviation network' := (ToLower (TrimSpace network)).

Lemma chain_binding :
  (∃ e, resolveBinding chain network r = Err e)
  ∨ ∃ a, resolveBinding chain network r = Ok (evmBinding c a) ∧ a !! c = Some (New c reader).2.
Proof.
  destruct (gateway_resolves reader others utxo chain Hothers Hchain) as (r' & a & Hr' & Ha & Hres).
  rewrite Hrouter in Hr'. injection Hr' as <-. destruct (decide (normalizeNetwork network = "")) as [Hn|Hn].
  - left. unfold resolveBinding, validateChainNetwork. unfold normalizeNetwork in Hn.
    case_decide; [by eexists|]. cbn [mbind result_bind]. unfold Resolve, normalizeNetwork. rewrite Hn.
    cbv zeta. case_decide; by eexists.
  - right. exists a. split; [by apply Hres|done].
Qed.

(** The adapter of the binding leads to the plugin. *)
Lemma adapter_plugin {A} a (f : ChainPlugin S → S → result A * S) :
  a !! c = Some (New c reader).2 → NormalizeChain c = c ∧ withPlugin c a f = f (New c reader).2.
Proof.
  intros Ha. destruct (proj1 (Forall_forall _ _) evm_canonical c Hchain) as (Hcc & _ & Hne). split; [done|].
  unfold withPlugin, resolvePlugin. cbv zeta. by rewrite Hcc, decide_False, Ha by done.
Qed.

Lemma serviceBuildUnsigned_evm base64Tx fee vin vout (s : S) :
  let out := serviceBuildUnsigned transient cancelled r {|
    bi_Chain := chain; bi_Network := network; bi_Base64Tx := base64Tx; bi_Fee := fee; bi_Vin := vin; bi_Vout := vout |} s in
  handed out.2 = handed s ∧ ∀ u, out.1 = Ok u → ∃ s0, evmBuildUnsigned reader c network' base64Tx s0 = (Ok u, out.2).
Proof.
  cbv zeta. unfold serviceBuildUnsigned. cbn [bi_Chain bi_Network bi_Base64Tx bi_Fee bi_Vin bi_Vout].
  destruct chain_binding as [[e ->]|(a & -> & Ha)]; [done|].
  unfold withAdapter. cbn [evmBinding pb_Adapter pb_Chain accountAdapter cp_BuildUnsignedUTXO cp_BuildUnsignedAccount].
  destruct (adapter_plugin a (λ p, cp_BuildUnsignedAccount p (NormalizeChain c) network' base64Tx) Ha) as [Hcc ->].
  rewrite Hcc. cbn [New snd cp_BuildUnsignedAccount].
  assert (∀ op s, let out := withRetry transient cancelled op (λ s : S, (Err ErrUnsupported : result BuildUnsignedResult, s)) s in
    handed out.2 = handed s ∧ ∀ u, out.1 = Ok u → False) as Hutxo.
  { intros op s1. cbv zeta. split; [by apply retryTimes_quiet|]. intros u Hu.
    destruct (withRetry _ _ _ _ s1) as [o s2] eqn:E. cbn in Hu. subst o. destruct (withRetry_ok_inv E) as (? & [=]). }
  case_decide.
  { destruct (Hutxo "build-unsigned-utxo" s) as [Hq Hno]. split; [done|]. intros u Hu. by destruct (Hno u Hu). }
  pose proof (retryTimes_quiet 3 "build-unsigned-account" (evmBuildUnsigned reader c network' base64Tx) s
    (evmBuildUnsigned_handed c network' base64Tx)) as Hq. fold (withRetry (A := BuildUnsignedResult) transient cancelled) in Hq.
  destruct (withRetry transient cancelled "build-unsigned-account" _ s) as [[u|e] s1] eqn:E.
  - split; [exact Hq|]. intros u' [= <-]. destruct (withRetry_ok_inv E) as [s0 Hs0]. by exists s0.
  - destruct (is_unsupported e); [|done]. destruct (Hutxo "build-unsigned-utxo-fallback" s1) as [Hq2 Hno].
    split; [by rewrite Hq2|]. intros u Hu. by destruct (Hno u Hu).
Qed.

Lemma serviceSendTx_evm coin unsignedTx signature publicKey (s : S) :
  unsignedTx ≠ "" →
  let out := serviceSendTx transient cancelled r {|
    bc_Chain := chain; bc_Network := network; bc_Coin := coin; bc_RawTx := ""; bc_UnsignedTx := unsignedTx;
    bc_Signatures := [signature]; bc_PublicKeys := [publicKey] |} s in
  handed out.2 = handed s ∨
  ∃ raw n, (1 ≤ n ≤ 3)%nat ∧ handed out.2 = handed s ++ replicate n (TrimSpace raw)
    ∧ evmBuildSigned c unsignedTx signature publicKey = Ok raw.
Proof.
  intros Hu. cbv zeta. unfold serviceSendTx. cbn [bc_Chain bc_Network bc_Coin].
  destruct chain_binding as [[e ->]|(a & -> & Ha)]; [by left|].
  unfold rawTransaction. cbn [bc_RawTx bc_UnsignedTx bc_Signatures bc_PublicKeys bc_Network evmBinding pb_Model pb_Chain].
  rewrite decide_True by done. rewrite decide_False by (intros E; by apply E). rewrite decide_True by done.
  unfold buildSignedAccount, withAdapter.
  cbn [evmBinding pb_Adapter pb_Chain accountAdapter cp_BuildSignedAccount cp_SendTx].
  destruct (adapter_plugin a (λ p, cp_BuildSignedAccount p (NormalizeChain c) network' unsignedTx signature publicKey) Ha) as [Hcc ->].
  rewrite Hcc. cbn [New snd cp_BuildSignedAccount].
  pose proof (retryTimes_quiet 3 "build-signed-account" (λ s : S, (evmBuildSigned c unsignedTx signature publicKey, s)) s
    (λ _, eq_refl)) as Hq. fold (withRetry (A := string) transient cancelled) in Hq.
  destruct (withRetry transient cancelled "build-signed-account" _ s) as [[raw|e] s1] eqn:E; [|by left].
  cbn [snd] in Hq. destruct (withRetry_ok_inv E) as (s0 & [= Hraw _]). case_decide; [by left|].
  destruct (adapter_plugin a (λ p, cp_SendTx p c network' coin raw) Ha) as [_ Hsend].
  rewrite Hsend. cbn [New snd cp_SendTx].
  destruct (retryTimes_handed 3 "send-tx" (evmSendTx reader c network' raw) s1 _ (evmSendTx_handed c network' raw)) as (m & Hm & Em).
  unfold withRetry. change (λ s2 : S, evmSendTx reader c network' raw s2) with (evmSendTx (C := C * list string) reader c network' raw).
  rewrite Em, Hq. destruct m as [|m]; [left; cbn; by rewrite app_nil_r|].
  right. exists raw, (Datatypes.S m). split; [lia|]. by split.
Qed.
End gateway.

(** ** What a request asks for *)

(** The names of the EVM chains, in both programs. *)
Definition evmNames : list string := evmAccountChains ++ ["eth"; "bsc"; "bnb"; "matic"; "arb"].

Lemma assoc_in {A} k (l : list (string * A)) x : assoc k l = Some x → (k, x) ∈ l.
Proof.
  unfold assoc. destruct (List.find _ l) as [[k' x']|] eqn:Hf; [|done]. intros [= <-].
  apply List.find_some in Hf as [Hin Hk]. apply bool_decide_eq_true in Hk. cbn in Hk. subst. by apply list_elem_of_In.
Qed.

Lemma evm_name chain : NormalizeChain chain ∈ evmAccountChains → ToLower (TrimSpace chain) ∈ evmNames.
Proof.
  assert (Forall (λ p, p.2 ∈ evmAccountChains → p.1 ∈ evmNames) chainAlias) as Hall
    by (apply (bool_decide_unpack _); vm_compute; exact I).
  rewrite Forall_forall in Hall. unfold NormalizeChain. set (v := ToLower (TrimSpace chain)).
  case_decide; [by intros Hx%(bool_decide_pack _); vm_compute in Hx|].
  destruct (assoc v chainAlias) as [x|] eqn:Ha; cbn [default].
  - apply assoc_in in Ha. exact (Hall _ Ha).
  - intros Hv. apply elem_of_app. by left.
Qed.

(** An EVM chain is one for wallet-core, and not Solana. *)
Lemma evm_chain_facts chain :
  NormalizeChain chain ∈ evmAccountChains →
  isEVMChain (ChainClient.normalizeChain chain) = true ∧ TrimSpace chain ≠ "" ∧ isSolanaChain chain = false
  ∧ EqualFold (TrimSpace chain) "solana" = false.
Proof.
  intros Hc%evm_name. split_and!.
  - unfold ChainClient.normalizeChain. revert Hc. generalize (ToLower (TrimSpace chain)) as v. intros v Hv.
    assert (Forall (λ v, isEVMChain (if decide (v = "eth") then "ethereum" else if decide (v ∈ ["bsc"; "bnb"]) then "binance"
      else if decide (v = "matic") then "polygon" else if decide (v = "arb") then "arbitrum" else v) = true) evmNames) as Hall
      by (apply (bool_decide_unpack _); vm_compute; exact I).
    rewrite Forall_forall in Hall. exact (Hall v Hv).
  - intros E. rewrite E in Hc. apply (bool_decide_pack _) in Hc. by vm_compute in Hc.
  - unfold isSolanaChain. apply bool_decide_eq_false. intros Hs.
    assert (Forall (λ v, v ∉ ["sol"; "solana"]) evmNames) as Hall by (apply (bool_decide_unpack _); vm_compute; exact I).
    rewrite Forall_forall in Hall. by apply (Hall _ Hc).
  - unfold EqualFold. apply bool_decide_eq_false. intros Hf.
    assert (Forall (λ v, Forall (λ a, N_of_ascii a < 128)%N (to_bytes v) ∧ v ≠ "solana") evmNames) as Hall
      by (apply (bool_decide_unpack _); vm_compute; exact I).
    rewrite Forall_forall in Hall. destruct (Hall _ Hc) as [Hlow Hne]. unfold ToLower in Hlow. rewrite to_of_bytes in Hlow.
    rewrite lower_fold in Hf; [|done|rewrite Hf; vm_compute; by repeat constructor].
    apply Hne. unfold ToLower. rewrite Hf. by vm_compute.
Qed.

Lemma evmChainID_text chain network id : evmChainID chain network = Ok id → valid_utf8 id ∧ TrimSpace id = id.
Proof.
  unfold evmChainID. cbv zeta. intros Hx%from_option_err_ok. apply bind_Some in Hx as (networks & Hn%assoc_in & Hid%assoc_in).
  assert (Forall (λ p, Forall (λ q, forallb (λ a, (N_of_ascii a <? 128)%N) (to_bytes q.2) = true ∧ TrimSpace q.2 = q.2) p.2)
    evmChainIDs) as Hall
    by (apply (bool_decide_unpack _); vm_compute; exact I).
  rewrite Forall_forall in Hall. specialize (Hall _ Hn). cbn in Hall. rewrite Forall_forall in Hall.
  destruct (Hall _ Hid) as [Hascii Ht]. split; [by apply ascii_utf8|exact Ht].
Qed.

(** The texts of the request and of the environment can be written in JSON. *)
Record writable (env : chainEnv) (params : BuildUnsignedParams) : Prop := {
  wr_From : valid_utf8 (TrimSpace (bp_From params));
  wr_To : valid_utf8 (TrimSpace (bp_To params));
  wr_Amount : valid_utf8 (TrimSpace (bp_Amount params));
  wr_Contract : valid_utf8 (TrimSpace (bp_ContractAddress params));
  wr_tip : valid_utf8 (env_EVM_MAX_PRIORITY_FEE_WEI env);
  wr_fee : valid_utf8 (env_EVM_MAX_FEE_WEI env);
}.

Lemma envOrDefault_utf8 v fallback : valid_utf8 v → valid_utf8 fallback → valid_utf8 (envOrDefault v fallback).
Proof. unfold envOrDefault. by case_decide. Qed.

Lemma envOrDefaultInt_range v fallback : 0 < fallback < 2 ^ 63 → 0 ≤ envOrDefaultInt v fallback < 2 ^ 64.
Proof.
  unfold envOrDefaultInt, parseInt64. destruct (SetString10 v) as [n|]; [|lia]. unfold int64_min, int64_max.
  case_decide; [case_decide; lia|lia].
Qed.

Lemma evmPayload_ok env params chainID :
  writable env params → valid_utf8 chainID → request_ok (requestOf (evmPayload env params chainID)).
Proof.
  intros [] Hid. split; cbn; try done; try (by apply ascii_utf8); try (by apply envOrDefault_utf8; [|apply ascii_utf8]).
  case_decide; by apply envOrDefaultInt_range.
Qed.

Section payment.
Context `{Geth K}.

Lemma decode_payload_inv p tx req :
  request_ok (requestOf p) → decodePayloadTx (encode64doc (payloadMembers p)) = Ok (tx, req) →
  req = requestOf p ∧ requestTx req = Ok tx.
Proof.
  intros Hok Hd. destruct (decode_encode64doc requestFields _ (payloadMembers_flat p Hok)) as [Ht Hf].
  rewrite requestFields_payload, payloadFields_members in Hf by apply Hok. cbn [fmap option_fmap option_map] in Hf.
  unfold decodePayloadTx, decodeDynamicFeeTx in Hd. rewrite Ht in Hd. mbind_inv Hd. mbind_inv Hd. mbind_inv Hd.
  apply from_option_err_ok in Ha, Ha0. rewrite Ha in Hf. cbn [mbind option_bind] in Hf. rewrite Hf in Ha0.
  injection Ha0 as <-. injection Hd as <- <-. by split.
Qed.

(** The transaction a withdrawal asks for, up to its nonce: the amount to the
    recipient, in the chain's coin or by a call of the token's contract. *)
Definition pays (env : chainEnv) (params : BuildUnsignedParams) (tx : DynamicFeeTx) : Prop :=
  let contract := TrimSpace (bp_ContractAddress params) in
  let recipient := HexToAddress K (TrimSpace (bp_To params)) in
  ∃ id amt, evmChainID (ChainClient.normalizeChain (bp_Chain params)) (ToLower (TrimSpace (bp_Network params))) = Ok id
    ∧ SetString10 id = Some (tx_ChainID tx)
    ∧ SetString10 (TrimSpace (bp_Amount params)) = Some amt
    ∧ (if decide (ToLower contract ∈ noContracts)
       then tx_To tx = recipient ∧ tx_Value tx = amt ∧ tx_Data tx = []
       else tx_To tx = HexToAddress K contract ∧ tx_Value tx = 0 ∧ tx_Data tx = buildERC20TransferData recipient amt).

Lemma pays_withNonce env params tx n : pays env params tx → pays env params (withNonce n tx).
Proof. done. Qed.

(** What is built for a request that brings no transaction of its own. *)
Lemma built_pays env params t tx0 req0 :
  NormalizeChain (bp_Chain params) ∈ evmAccountChains → writable env params → TrimSpace (bp_Base64Tx params) = "" →
  buildBase64Tx env params = Ok t → decodePayloadTx t = Ok (tx0, req0) →
  pays env params tx0 ∧ er_FromAddress req0 = TrimSpace (bp_From params) ∧ TrimSpace (er_FromAddress req0) ≠ ""
  ∧ usesFixedNonce (er_NonceMode req0) = false.
Proof.
  intros Hchain Hw Hb. destruct (evm_chain_facts _ Hchain) as (Hevm & Hne & _). unfold buildBase64Tx.
  rewrite decide_False by (intros E; by apply E). rewrite decide_False by done. case_decide as Hreq; [done|].
  rewrite Hevm. intros Hx Hd. mbind_inv Hx. rename a into id. injection Hx as <-.
  destruct (evmChainID_text _ _ _ Ha) as [Hid Htrim].
  apply decode_payload_inv in Hd as [-> Htx]; [|by apply evmPayload_ok].
  split; [|split; [done|split; [|done]]].
  2:{ change (er_FromAddress _) with (TrimSpace (bp_From params)). rewrite TrimSpace_idem. tauto. }
  unfold requestTx in Htx. cbn [requestOf evmPayload er_ChainID er_Amount er_ToAddress er_ContractAddress
    ev_ChainID ev_Amount ev_ToAddress ev_ContractAddress] in Htx. rewrite !TrimSpace_idem in Htx.
  mbind_inv Htx. mbind_inv Htx. mbind_inv Htx. mbind_inv Htx. injection Htx as <-.
  apply from_option_err_ok in Ha0, Ha3.
  rewrite Htrim in Ha0. exists id, a2. cbn [tx_ChainID tx_To tx_Value tx_Data]. split_and!; [done..|].
  case_bool_decide as Hn; [by rewrite decide_True|by rewrite decide_False].
Qed.
End payment.

(** ** Runs *)

(** wallet-core in front of a gateway: what is outside, what the connections and
    the retries do, and the router of the gateway. *)
Section system.
Context {K} `{Geth K} {C : Type} `{EvmNode C} `{Postgres} `{SolanaLib} {E : Type} (outside : Outside E) (env : chainEnv).
#[local] Existing Instance journal.
Abbreviation S := (readerState (C := C * list string)).
Variables (rpcError : error → error) (unreachable : S → option error).
Variables (transient : error → bool) (cancelled : S → option error) (r : Router (ChainPlugin S)).

Definition paying : Outside (E * S) :=
  withChain env (gatewayClient rpcError unreachable transient cancelled r) outside.
#[local] Existing Instance paying.

(** The raw transactions the node was handed. *)
Definition handedTo (w : world (E * S)) : list string := handed (w_out w).2.

(** The sign service's answers. *)
Definition signs (tenantID signType keyID message signature : string) : Prop :=
  ∃ e : E, (out_call (SignMessage tenantID signType keyID message) e).1 = Ok signature.

(** A gateway wired as at start-up. *)
Definition wired : Prop := ∃ lookback others utxo, other_chains others ∧ gatewayRouter (Some lookback) others utxo = Ok r.

Lemma in_tx_out {A} (op : Z → ledger → result (A * ledger)) (w : world (E * S)) :
  w_out (in_tx op w).2 = (out_db (w_out w)).2.
Proof.
  unfold in_tx. destruct (out_db (w_out w)) as [[now|e] c]; [|done]. by destruct (op now (w_ledger w)) as [[a l]|].
Qed.

Lemma ledger_handed c (w : world (E * S)) : handedTo (on_port (LedgerCall c) w).2 = handedTo w.
Proof.
  unfold handedTo. cbn [on_port world_handler]. rewrite in_tx_out. destruct w as [l [e s]]. cbn.
  by destruct (out_db e) as [now e'].
Qed.

Lemma sign_handed t st k h (w : world (E * S)) :
  handedTo (on_port (SignMessage t st k h) w).2 = handedTo w
  ∧ ∀ sig, (on_port (SignMessage t st k h) w).1 = Ok sig → signs t st k h sig.
Proof.
  destruct w as [l [e s]]. unfold handedTo. cbn [on_port world_handler]. unfold Calls.outside. cbn.
  destruct (out_call (SignMessage t st k h) e) as [a e'] eqn:Ho. cbn. split; [done|].
  intros sig ->. exists e. by rewrite Ho.
Qed.

Lemma remote_handed {A} (f : S → result A * S) s :
  (handed (remote rpcError unreachable f s).2 = handed s ∧ ∀ a, (remote rpcError unreachable f s).1 ≠ Ok a)
  ∨ (remote rpcError unreachable f s).2 = (f s).2 ∧ ∀ a, (remote rpcError unreachable f s).1 = Ok a → (f s).1 = Ok a.
Proof.
  unfold remote. destruct (unreachable s); [by left|]. right. by destruct (f s) as [[a|e] s'].
Qed.

Lemma build_handed lookback others utxo params (w : world (E * S)) :
  other_chains others → gatewayRouter (Some lookback) others utxo = Ok r → NormalizeChain (bp_Chain params) ∈ evmAccountChains →
  handedTo (on_port (BuildUnsignedTx params) w).2 = handedTo w
  ∧ ∀ u, (on_port (BuildUnsignedTx params) w).1 = Ok u →
    br_UnsignedTx u ≠ "" ∧ ∃ t (s0 s1 : S), buildBase64Tx env params = Ok t
      ∧ evmBuildUnsigned (Some lookback) (NormalizeChain (bp_Chain params)) (ToLower (TrimSpace (bp_Network params))) t s0 = (Ok u, s1).
Proof.
  intros Ho Hr Hc. destruct w as [l [e s]]. cbn [on_port world_handler]. unfold Calls.outside. cbn. unfold grpcBuildUnsignedTx, missingChain, handedTo. case_decide; [done|].
  destruct (buildBase64Tx env params) as [t|]; [|done].
  cbn [gatewayClient gw_BuildUnsignedTx bq_Chain bq_Network bq_Base64Tx bq_Fee bq_Vin bq_Vout].
  pose proof (serviceBuildUnsigned_evm transient cancelled lookback others utxo r Ho Hr (bp_Chain params) (bp_Network params) Hc
    t (bp_Fee params) (bp_Vin params) (bp_Vout params) s) as [Hq Hu].
  destruct (remote_handed (serviceBuildUnsigned transient cancelled r {| bi_Chain := bp_Chain params;
    bi_Network := bp_Network params; bi_Base64Tx := t; bi_Fee := bp_Fee params; bi_Vin := bp_Vin params;
    bi_Vout := bp_Vout params |}) s) as [[Hs Hno]|[Hs Hok]];
    destruct (remote rpcError unreachable _ s) as [out s1]; cbn [fst snd] in *.
  - split; [exact Hs|]. intros u Hx. unfold nonempty in Hx. mbind_inv Hx. by destruct (Hno a).
  - subst s1. split; [exact Hq|]. intros u Hx. unfold nonempty in Hx. mbind_inv Hx. case_decide; [done|]. injection Hx as ->.
    split; [done|]. destruct (Hu u (Hok u Ha)) as [s0 Hs0].
    exists t, s0. by eexists.
Qed.

Lemma broadcast_handed lookback others utxo chain network coin unsignedTx signature publicKey (w : world (E * S)) :
  other_chains others → gatewayRouter (Some lookback) others utxo = Ok r → NormalizeChain chain ∈ evmAccountChains →
  unsignedTx ≠ "" →
  let w' := (on_port (Broadcast {| bc_Chain := chain; bc_Network := network; bc_Coin := coin; bc_RawTx := "";
              bc_UnsignedTx := unsignedTx; bc_Signatures := [signature]; bc_PublicKeys := [publicKey] |}) w).2 in
  handedTo w' = handedTo w ∨
  ∃ raw n, (1 ≤ n ≤ 3)%nat ∧ handedTo w' = handedTo w ++ replicate n (TrimSpace raw)
    ∧ evmBuildSigned (NormalizeChain chain) unsignedTx signature publicKey = Ok raw.
Proof.
  intros Ho Hr Hc Hu. destruct w as [l [e s]]. cbn [on_port world_handler]. unfold Calls.outside. cbn. unfold grpcBroadcast, missingChain, handedTo. cbn [bc_Chain bc_Network].
  case_decide; [by left|]. cbn [gatewayClient gw_SendTx].
  pose proof (serviceSendTx_evm transient cancelled lookback others utxo r Ho Hr chain network Hc coin unsignedTx signature publicKey s Hu) as Hq.
  cbv zeta in Hq.
  destruct (remote_handed (serviceSendTx transient cancelled r {| bc_Chain := chain; bc_Network := network; bc_Coin := coin;
    bc_RawTx := ""; bc_UnsignedTx := unsignedTx; bc_Signatures := [signature]; bc_PublicKeys := [publicKey] |}) s) as [[Hs _]|[Hs _]];
    destruct (remote rpcError unreachable _ s) as [out s1]; cbn [fst snd] in *; [by left|]. by subst s1.
Qed.
(** [n] times at most three, one raw transaction that carries the first signer's
    signature of the hash of [tx]. *)
Definition sent_signed (req : WithdrawRequest) (tx : DynamicFeeTx) (w w' : world (E * S)) : Prop :=
  ∃ signer signType signature raw n,
    head (rq_Signers req) = Some signer ∧ (1 ≤ n ≤ 3)%nat
    ∧ signs (rq_TenantID req) signType (sr_KeyID signer) (tx_hash K (tx_ChainID tx) tx) signature
    ∧ signed_with tx signature (sr_PublicKey signer) raw
    ∧ handedTo w' = handedTo w ++ replicate n raw.

(** What is built from the text [t] for a request. *)
Definition built_from (t : string) (params : BuildUnsignedParams) (tx0 : DynamicFeeTx) (req0 : evmDynamicFeeRequest)
    (tx : DynamicFeeTx) : Prop :=
  decodePayloadTx t = Ok (tx0, req0) ∧ ∃ lookback (s s' : S),
    nonce_from (Some lookback) (NormalizeChain (bp_Chain params)) (ToLower (TrimSpace (bp_Network params))) tx0 req0 tx s s'.

(** Signing one hash. *)
Lemma run_buildSignatures t st chain signers h (w : world (E * S)) :
  isSolanaChain chain = false →
  handedTo (run (buildSignatures t st chain signers [h]) w).2 = handedTo w
  ∧ ∀ sigs, (run (buildSignatures t st chain signers [h]) w).1 = Ok sigs →
    ∃ signer sig, head signers = Some signer ∧ signs t st (sr_KeyID signer) h sig ∧ sigs = ([sig], [sr_PublicKey signer]).
Proof.
  intros Hsol. unfold buildSignatures. case_decide; [done|]. destruct signers as [|signer signers]; [done|].
  rewrite decide_False by (cbn [length]; lia). cbn [signEach]. rewrite decide_False by (cbn [length]; lia). cbn [lookup list_lookup].
  rewrite run_bind_ok, run_call. destruct (sign_handed t st (sr_KeyID signer) h w) as [Hq Hs].
  destruct (on_port (SignMessage t st (sr_KeyID signer) h) w) as [[sig|e] w1]; cbn [fst snd] in *; [|done].
  rewrite run_bind_ok. cbn. split; [done|]. intros sigs [= <-]. exists signer, sig.
  unfold normalizeBroadcastPublicKey. rewrite Hsol. eauto.
Qed.

Lemma run_buildSignAndBroadcast req (w : world (E * S)) :
  wired → NormalizeChain (bp_Chain (rq_Tx req)) ∈ evmAccountChains →
  let w' := (run (buildSignAndBroadcast req) w).2 in
  handedTo w' = handedTo w
  ∨ ∃ t tx0 req0 tx, buildBase64Tx env (rq_Tx req) = Ok t ∧ built_from t (rq_Tx req) tx0 req0 tx ∧ sent_signed req tx w w'.
Proof.
  intros (lookback & others & utxo & Ho & Hr) Hc. cbv zeta. destruct (evm_chain_facts _ Hc) as (_ & _ & Hsol & _).
  unfold buildSignAndBroadcast. rewrite run_bind_ok, run_call.
  destruct (build_handed lookback others utxo (rq_Tx req) w Ho Hr Hc) as [Hq1 Hb].
  destruct (on_port (BuildUnsignedTx (rq_Tx req)) w) as [[u|e] w1]; cbn [fst snd] in *; [|by left].
  destruct (Hb u eq_refl) as (Hne & t & s0 & s1 & Ht & Hbuild).
  destruct (evmBuildUnsigned_ok _ _ _ _ _ _ _ Hbuild) as (tx0 & req0 & tx & req' & Hd0 & Hd & Htrim & Hh & Hn & _).
  rewrite run_bind_ok. cbn [run fst snd]. destruct (resolveSigners req) as [signers|] eqn:Hsg; [|by left].
  assert (signers = rq_Signers req) as -> by (unfold resolveSigners in Hsg; destruct (rq_Signers req); [done|by injection Hsg]).
  rewrite Hh. rewrite decide_False by done. rewrite run_bind_ok.
  destruct (run_buildSignatures (rq_TenantID req) (resolveSignType (rq_SignType req) (bp_Chain (rq_Tx req)) [tx_hash K (tx_ChainID tx) tx])
    (bp_Chain (rq_Tx req)) (rq_Signers req) (tx_hash K (tx_ChainID tx) tx) w1 Hsol) as [Hq2 Hs].
  destruct (run (buildSignatures _ _ _ _ _) w1) as [[sigs|e] w2]; cbn [fst snd] in *; [|left; by rewrite Hq2].
  destruct (Hs sigs eq_refl) as (signer & sig & Hhead & Hsig & ->). rewrite run_bind_ok. unfold broadcastUnsignedTx. rewrite run_call.
  cbn [fst snd].
  assert (∀ A B (x : result A) (f : A → result B) (w : world (E * S)),
    (match x with Ok a => run (Ret (f a)) w | Err e => (Err e, w) end).2 = w) as Hend by by intros A B [].
  rewrite Hend.
  destruct (broadcast_handed lookback others utxo (bp_Chain (rq_Tx req)) (bp_Network (rq_Tx req)) (bp_Coin (rq_Tx req))
    (br_UnsignedTx u) sig (sr_PublicKey signer) w2 Ho Hr Hc Hne) as [Hq3|(raw & n & Hn3 & Hq3 & Hraw)].
  - left. by rewrite Hq3, Hq2.
  - right. exists t, tx0, req0, tx. split; [done|]. split; [split; [done|]; by exists lookback, s0, s1|].
    destruct (evmBuildSigned_ok _ _ _ _ _ Hraw) as (tx1 & req1 & Hd1 & Hsw). rewrite Hd in Hd1. injection Hd1 as <- <-.
    assert (TrimSpace raw = raw) as Hrt.
    { destruct Hsw as (? & ? & ? & encoded & _ & _ & _ & _ & -> & _). apply TrimSpace_0xhex. }
    rewrite Hrt in Hq3. eexists signer, _, sig, raw, n. split_and!; try done; try lia. by rewrite Hq3, Hq2, Hq1.
Qed.
(** ** Jobs *)

(** Writes of the ledger hand the node nothing. *)
Definition writes {R} (x : port R) : Prop := match x with LedgerCall _ => True | _ => False end.

Lemma writes_handed {A} (p : prog A) (w : world (E * S)) :
  all_calls (@writes) p → handedTo (run p w).2 = handedTo w.
Proof.
  revert w. induction p as [a|R x k IH]; intros w Hp; cbn [run]; [done|]. destruct Hp as [Hx Hk].
  destruct x; try done. pose proof (ledger_handed c w) as Hq. destruct (on_port (LedgerCall c) w) as [a w1]. cbn [snd] in Hq.
  rewrite <- Hq. apply IH, Hk.
Qed.

Lemma run_ensureChainFunds req (w : world (E * S)) :
  NormalizeChain (bp_Chain (rq_Tx req)) ∈ evmAccountChains → run (ensureChainFunds req) w = (Ok (), w).
Proof.
  intros Hc. destruct (evm_chain_facts _ Hc) as (_ & _ & _ & Hsol). unfold ensureChainFunds, isSolanaTokenWithdraw.
  by rewrite Hsol.
Qed.

Lemma jobFailed_handed d job reason (w : world (E * S)) : handedTo (run (jobFailed d job reason) w).2 = handedTo w.
Proof. apply writes_handed. unfold jobFailed. by destruct (shouldRetry d _); cbn. Qed.

Lemma run_handleJob d job (w : world (E * S)) :
  NormalizeChain (bp_Chain (wj_Tx job)) ∈ evmAccountChains →
  handedTo (run (handleJob d job) w).2 = handedTo (run (buildSignAndBroadcast (jobRequest job (wj_Tx job))) w).2.
Proof.
  intros Hc. unfold handleJob, ExecuteQueuedWithUnsigned. rewrite run_bind, run_bind_ok, run_ensureChainFunds by exact Hc.
  cbn [fst snd]. rewrite run_bind_ok. destruct (run (buildSignAndBroadcast _) w) as [[b|e] w1]; cbn [fst snd]; [|apply jobFailed_handed].
  rewrite run_bind. unfold confirmWithdraw. rewrite run_call.
  match goal with |- context [on_port (LedgerCall ?x) w1] =>
    pose proof (ledger_handed x w1) as Hq; destruct (on_port (LedgerCall x) w1) as [[[]|e] w2] end; unfold confirmFailed; cbn [fst snd run] in *.
  - rewrite <- Hq. by apply writes_handed.
  - rewrite jobFailed_handed. exact Hq.
Qed.

Lemma run_handleAcceleration `{PayloadCodec} d job (w : world (E * S)) :
  NormalizeChain (bp_Chain (wj_Tx job)) ∈ evmAccountChains →
  match bumpEVMReplacementPayload (bp_Base64Tx (wj_Tx job)) (accelerateGasBumpBps d) with
  | Err _ => handedTo (run (handleAcceleration d job) w).2 = handedTo w
  | Ok text => handedTo (run (handleAcceleration d job) w).2
      = handedTo (run (buildSignAndBroadcast (jobRequest job ((wj_Tx job) <| bp_Base64Tx := text |>))) w).2
  end.
Proof.
  intros Hc. unfold handleAcceleration. destruct (bumpEVMReplacementPayload _ _) as [text|e]; [|by apply writes_handed].
  rewrite run_bind. unfold SpeedUpBroadcasted. rewrite run_bind_ok, run_ensureChainFunds by exact Hc. cbn [fst snd].
  destruct (run (buildSignAndBroadcast _) w) as [[b|e] w1]; cbn [fst snd]; by rewrite writes_handed.
Qed.
End system.
