(* ===== verification/PaymentProperties.v ===== *)
(** * Properties of what a node is handed

    [EvmPayments] instantiated: theorems about the jobs of the dispatcher and
    the texts between the programs, and a concrete node to witness them. *)
From S2P Require Import Prelude GoStrings GoNumbers GoJson GoCodec Ports LedgerTables LedgerWithdraw.
From S2P Require Import LedgerQueue Calls.
From S2P Require Import Orchestrator Dispatcher DispatcherTraces ChainClient KeyRef Endpoint EndpointSystem.
From S2P Require Import EvmReader Normalize.
From S2P Require Import EvmPlugin EvmSend ChainService GatewayPages EvmPayments LedgerProperties.
From S2P Require Import Site.

(** The nonce a node answered for the sender of a request. *)
Definition node_nonce {K C} `{Geth K} `{EvmNode C} (params : BuildUnsignedParams) (nonce : Z) : Prop :=
  ∃ lookback (s s' : readerState (C := C)),
    fetchPendingNonce (Some lookback) (NormalizeChain (bp_Chain params)) (ToLower (TrimSpace (bp_Network params)))
      (TrimSpace (bp_From params)) s = (Ok nonce, s').

Section jobs.
Context {K} `{Geth K} {C : Type} `{EvmNode C} `{Postgres} `{SolanaLib} {E : Type} (outside : Outside E) (env : chainEnv).
#[local] Existing Instance journal.
Abbreviation S := (readerState (C := C * list string)).
Variables (rpcError : error → error) (unreachable : S → option error).
Variables (transient : error → bool) (cancelled : S → option error) (r : Router (ChainPlugin S)).
#[local] Instance paying_jobs : Outside (E * S) := paying outside env rpcError unreachable transient cancelled r.

(** C5. One run of a claimed job on an EVM chain, whatever the connections, the
    node and the sign service do, hands the node nothing or one transaction
    (its text at most three times).  That carries a signature the sign service
    gave, for the job's first key, of the hash of this very transaction, and,
    if the order brings no transaction of its own, pays: the order's amount to
    its recipient, on the chain of its network, or the token transfer that does,
    with the nonce the node answered.  An order that brings one gets that
    transaction signed instead, whatever its amount and recipient are. *)
Theorem job_sends_its_payment (d : WithdrawDispatcher) (job : WithdrawJob) (w : world (E * S)) :
  wired r → NormalizeChain (bp_Chain (wj_Tx job)) ∈ evmAccountChains → writable env (wj_Tx job) →
  let w' := (run (handleJob d job) w).2 in
  handedTo w' = handedTo w
  ∨ ∃ tx, sent_signed outside (jobRequest job (wj_Tx job)) tx w w'
    ∧ if decide (TrimSpace (bp_Base64Tx (wj_Tx job)) = "")
      then pays env (wj_Tx job) tx ∧ node_nonce (C := C * list string) (wj_Tx job) (tx_Nonce tx)
      else ∃ tx0 req0, built_from (TrimSpace (bp_Base64Tx (wj_Tx job))) (wj_Tx job) tx0 req0 tx.
Proof.
  intros Hr Hc Hw w'.
  assert (handedTo w' = _) as Hrun by exact (run_handleJob outside env rpcError unreachable transient cancelled r d job w Hc).
  destruct (run_buildSignAndBroadcast outside env rpcError unreachable transient cancelled r
    (jobRequest job (wj_Tx job)) w Hr Hc) as [Hq|(t & tx0 & req0 & tx & Ht & Hb & Hs)].
  { left. by rewrite Hrun, Hq. }
  right. exists tx. split.
  { destruct Hs as (signer & st & sig & raw & n & Hh & Hn & Hsig & Hsw & Hq). exists signer, st, sig, raw, n. by rewrite Hrun. }
  cbn [jobRequest rq_Tx] in *. case_decide as Hbase.
  - destruct Hb as (Hd & lookback & s & s' & Hn).
    destruct (built_pays env (wj_Tx job) t tx0 req0 Hc Hw Hbase Ht Hd) as (Hp & Hf & Hne & Hfix).
    unfold nonce_from in Hn. rewrite bool_decide_eq_true_2, Hfix in Hn by done. cbn [negb andb] in Hn.
    destruct Hn as (nonce & Hn & ->). rewrite Hf in Hn. split; [by apply pays_withNonce|]. by exists lookback, s, s'.
  - exists tx0, req0. unfold buildBase64Tx in Ht. rewrite decide_True in Ht by done. by injection Ht as ->.
Qed.

(** C22. A replacement is the same payment at a higher price.  If the stored text
    is that of a transaction with its nonce fixed, as the gateway returns it,
    an acceleration hands the node nothing or one transaction with the same
    nonce, chain, recipient, value, data and gas limit, a tip and a fee cap
    that are strictly higher, the cap not below the tip, signed as it is. *)
Theorem replacement_is_the_payment (d : WithdrawDispatcher) (job : WithdrawJob) (w : world (E * S)) tx req :
  wired r → NormalizeChain (bp_Chain (wj_Tx job)) ∈ evmAccountChains →
  TrimSpace (bp_Base64Tx (wj_Tx job)) = bp_Base64Tx (wj_Tx job) → decodePayloadTx (bp_Base64Tx (wj_Tx job)) = Ok (tx, req) →
  let w' := (run (handleAcceleration (H0 := jsonCodec) d job) w).2 in
  handedTo w' = handedTo w
  ∨ ∃ tx', same_payment tx tx' ∧ tx_GasTipCap tx < tx_GasTipCap tx' ∧ tx_GasFeeCap tx < tx_GasFeeCap tx'
      ∧ tx_GasTipCap tx' ≤ tx_GasFeeCap tx' ∧ sent_signed outside (jobRequest job (wj_Tx job)) tx' w w'.
Proof.
  intros Hr Hc Htrim Hd w'.
  pose proof (run_handleAcceleration outside env rpcError unreachable transient cancelled r (H3 := jsonCodec) d job w Hc) as Hrun.
  destruct (bumpEVMReplacementPayload (bp_Base64Tx (wj_Tx job)) (accelerateGasBumpBps d)) as [text|e] eqn:Hbump; [|by left].
  destruct (bump_replaces _ _ _ _ _ Htrim Hd Hbump) as (tx' & req' & Hd' & Hfix & Hsame & Htip & Hfee & Hcap).
  set (again := (wj_Tx job) <| bp_Base64Tx := text |>) in *.
  assert (NormalizeChain (bp_Chain again) ∈ evmAccountChains) as Hc' by exact Hc.
  assert (handedTo w' = handedTo (run (buildSignAndBroadcast (jobRequest job again)) w).2) as Hrun' by exact Hrun.
  destruct (run_buildSignAndBroadcast outside env rpcError unreachable transient cancelled r (jobRequest job again) w Hr Hc') as [Hq|(t & tx0 & req0 & tx1 & Ht & Hb & Hs)].
  { left. by rewrite Hrun'. }
  right. exists tx'. split_and!; try done.
  assert (tx1 = tx') as ->.
  { destruct Hb as (Hd0 & lookback & s & s' & Hn). unfold buildBase64Tx in Ht. cbn [jobRequest rq_Tx] in Ht.
    change (bp_Base64Tx again) with text in Ht. case_decide as Hb.
    2:{ exfalso. unfold decodePayloadTx in Hd'. rewrite Hb in Hd'. by vm_compute in Hd'. }
    injection Ht as <-. assert (decodePayloadTx (TrimSpace text) = decodePayloadTx text) as Etext
      by (unfold decodePayloadTx; by rewrite TrimSpace_idem).
    rewrite Etext, Hd' in Hd0. injection Hd0 as <- <-. unfold nonce_from in Hn. rewrite Hfix, andb_false_r in Hn. by destruct Hn. }
  destruct Hs as (signer & st & sig & raw & n & Hh & Hn & Hsig & Hsw & Hq). exists signer, st, sig, raw, n.
  split_and!; try done; try lia. by rewrite Hrun'.
Qed.
End jobs.

(** ** Texts *)

(** The JSON in base64 between the programs loses nothing: what wallet-core
    writes for a payload of UTF-8 texts and 64-bit numbers is read by its own
    dispatcher as that payload, and by the gateway as the request with the same
    fields; escapes, omitted fields and padding included. *)
Theorem payload_read_back (p : evmDynamicFeePayload) :
  request_ok (requestOf p) →
  decodePayload (PayloadCodec := jsonCodec) (encode64doc (payloadMembers p)) = Ok p
  ∧ (raw ← DecodeString (encode64doc (payloadMembers p)); Unmarshal requestFields (of_bytes raw)) = Some (requestOf p).
Proof.
  intros Hok. pose proof (payloadMembers_flat p Hok) as Hf.
  assert (payloadFields (payloadMembers p) = Some p) as Hp by (apply payloadFields_members; apply Hok).
  split; [|rewrite (proj2 (decode_encode64doc requestFields _ Hf)); by rewrite requestFields_payload, Hp].
  pose proof (proj2 (decode_encode64doc payloadFields _ Hf)) as Hd. rewrite Hp in Hd.
  apply bind_Some in Hd as (raw & Hraw & Hd). cbn [decodePayload jsonCodec]. rewrite Hraw. cbn [from_option_err].
  by rewrite bind_ok, Hd.
Qed.

Lemma payload_read_back_witness :
  let p := {| ev_ChainID := "1"; ev_NonceMode := ""; ev_FromAddress := "a<b"; ev_Nonce := 7; ev_MaxPriorityFeePerGas := "100";
    ev_MaxFeePerGas := "200"; ev_GasLimit := 21000; ev_ToAddress := "0xb"; ev_Amount := "10"; ev_ContractAddress := "" |} in
  decodePayload (PayloadCodec := jsonCodec) (encode64doc (payloadMembers p)) = Ok p.
Proof. intros p. apply (payload_read_back p). split; cbn; try lia; by apply ascii_utf8; vm_compute. Defined.

(** go-ethereum's documentation: addresses have 20 bytes, hashes 32, and
    [LeftPadBytes] puts zeros in front up to the length. *)
Class GethLaws K `{Geth K} := {
  HexToAddress_length : ∀ s, List.length (HexToAddress K s) = 20%nat;
  Keccak256_length : ∀ b, List.length (Keccak256 K b) = 32%nat;
  LeftPadBytes_spec : ∀ b n, LeftPadBytes K b n = replicate (n - List.length b) zero ++ b;
}.

(** The number of bytes, the most significant first. *)
Definition be_value (l : bytes) : Z := fold_left (λ v a, v * 256 + Z.of_N (N_of_ascii a)) l 0.

Lemma be_value_app l1 l2 : be_value (l1 ++ l2) = be_value l1 * 256 ^ Z.of_nat (List.length l2) + be_value l2.
Proof.
  unfold be_value. rewrite fold_left_app. generalize (fold_left (λ v a, v * 256 + Z.of_N (N_of_ascii a)) l1 0) as v.
  induction l2 as [|a l2 IH] using rev_ind; intros v; [cbn; lia|].
  rewrite !fold_left_app, List.length_app, Nat2Z.inj_add. cbn [fold_left List.length]. rewrite IH, Z.pow_add_r by lia. lia.
Qed.

Lemma be_bytes_spec fuel : ∀ v acc, 0 ≤ v < 256 ^ Z.of_nat fuel →
  ∃ l, be_bytes fuel v acc = l ++ acc ∧ be_value l = v ∧ ∀ n, v < 256 ^ Z.of_nat n → (List.length l ≤ n)%nat.
Proof.
  induction fuel as [|fuel IH]; intros v acc Hv; cbn [be_bytes].
  { exists []. split_and!; [done|cbn in *; lia|intros; cbn; lia]. }
  case_decide; [exists []; split_and!; [done|cbn; lia|intros; cbn; lia]|].
  rewrite Nat2Z.inj_succ, Z.pow_succ_r in Hv by lia.
  destruct (IH (v / 256) (byte_of (Z.to_N (v mod 256)) :: acc)) as (l & -> & Hl & Hn).
  { split; [apply Z.div_pos; lia|apply Z.div_lt_upper_bound; lia]. }
  pose proof (Z.mod_pos_bound v 256 ltac:(lia)) as Hm.
  exists (l ++ [byte_of (Z.to_N (v mod 256))]). split_and!.
  - by rewrite <- app_assoc.
  - rewrite be_value_app, Hl. cbn [List.length be_value fold_left]. unfold byte_of. rewrite N_ascii_embedding by lia.
    pose proof (Z.div_mod v 256 ltac:(lia)). rewrite Z2N.id by lia. lia.
  - intros n Hlt. rewrite List.length_app. cbn [List.length]. destruct n as [|n]; [cbn in Hlt; lia|].
    rewrite Nat2Z.inj_succ, Z.pow_succ_r in Hlt by lia. specialize (Hn n ltac:(apply Z.div_lt_upper_bound; lia)). lia.
Qed.

Lemma bigBytes_spec v n : 0 ≤ v < 256 ^ Z.of_nat n → be_value (bigBytes v) = v ∧ (List.length (bigBytes v) ≤ n)%nat.
Proof.
  intros Hv. unfold bigBytes. rewrite Z.abs_eq by lia.
  destruct (be_bytes_spec (S (Z.to_nat (Z.log2 v))) v []) as (l & -> & Hl & Hn).
  { split; [lia|]. rewrite Nat2Z.inj_succ, Z2Nat.id by apply Z.log2_nonneg.
    destruct (decide (v = 0)) as [->|Hne]; [done|]. destruct (Z.log2_spec v ltac:(lia)) as [_ Hlt].
    eapply Z.lt_le_trans; [exact Hlt|]. apply Z.pow_le_mono_l. lia. }
  rewrite app_nil_r. split; [done|]. apply Hn. lia.
Qed.

Lemma be_value_zeros n l : be_value (replicate n zero ++ l) = be_value l.
Proof. unfold be_value. rewrite fold_left_app. f_equal. induction n as [|n IH]; [done|exact IH]. Qed.

(** The data of a token transfer is a well-formed call of
    [transfer(address,uint256)]: four bytes of selector and two words of 32,
    the recipient's address behind twelve zeros and the amount, for every
    amount a [uint256] holds.  (Nothing bounds the amount before.) *)
Theorem token_call_encodes `{GethLaws K} (recipient : string) (amount : Z) :
  0 ≤ amount < 2 ^ 256 →
  let data := buildERC20TransferData (HexToAddress K recipient) amount in
  List.length data = 68%nat ∧ take 4 data = take 4 (Keccak256 K (to_bytes "transfer(address,uint256)"))
  ∧ take 32 (drop 4 data) = replicate 12 zero ++ HexToAddress K recipient ∧ be_value (drop 36 data) = amount.
Proof.
  intros Hv data. destruct (bigBytes_spec amount 32) as [Hval Hlen]; [exact Hv|].
  set (sel := take 4 (Keccak256 K (to_bytes "transfer(address,uint256)"))).
  assert (List.length sel = 4%nat) as Hs by (unfold sel; rewrite length_take, Keccak256_length; done).
  assert (data = sel ++ (replicate 12 zero ++ HexToAddress K recipient)
    ++ replicate (32 - List.length (bigBytes amount)) zero ++ bigBytes amount) as ->.
  { unfold data, buildERC20TransferData. fold sel. by rewrite !LeftPadBytes_spec, HexToAddress_length. }
  set (word := replicate 12 zero ++ HexToAddress K recipient).
  assert (List.length word = 32%nat) as Hw by (unfold word; by rewrite length_app, length_replicate, HexToAddress_length).
  split_and!.
  - rewrite !length_app, Hs, Hw, length_replicate. lia.
  - by rewrite <- Hs, take_app_length.
  - rewrite drop_app_length' by done. by apply take_app_length'.
  - rewrite app_assoc, drop_app_length' by (rewrite length_app; lia). by rewrite be_value_zeros.
Qed.

(** ** A concrete node *)

(** A key has the address [0xsender]; a signed transaction is printed as what it
    pays. *)
Inductive key := TheKey.
Definition printTx (tx : DynamicFeeTx) : string :=
  BigString (tx_Value tx) +:+ " to " +:+ of_bytes (List.filter (λ a, negb (Ascii.eqb a zero)) (tx_To tx)) +:+ " nonce " +:+ BigString (tx_Nonce tx) +:+ " tip "
  +:+ BigString (tx_GasTipCap tx) +:+ " cap " +:+ BigString (tx_GasFeeCap tx).
Definition printGeth : Geth key := {|
  geth_decompress _ := Ok TheKey; geth_unmarshal _ := Ok TheKey; geth_address _ := "0xSender";
  signed_tx := DynamicFeeTx; HexToAddress s := take 20 (to_bytes s ++ replicate 20 zero); Keccak256 _ := replicate 32 zero;
  LeftPadBytes b n := replicate (n - List.length b) zero ++ b;
  tx_hash _ tx := "hash:" +:+ printTx tx; WithSignature _ tx _ := Ok tx; tx_sender _ _ := Ok "0xsender";
  MarshalBinary tx := Ok (to_bytes (printTx tx)) |}.
#[local] Existing Instance printGeth.
#[local] Existing Instance journal.

(** A database and a sign service that answer. *)
Definition signatureText : string := of_bytes (replicate 128 "1"%char).
Definition answering_all : Outside Z := {|
  out_db := λ c, (Ok c, c + 1);
  out_locked := λ _ _, false;
  out_call := λ R c, match c in port R return Z → R * Z with
    | SignMessage _ _ _ _ => λ s, (Ok signatureText, s)
    | c => λ s, (refuse c, s)
    end |}.

Definition defaultEnv : chainEnv := {|
  env_EVM_MAX_PRIORITY_FEE_WEI := ""; env_EVM_MAX_FEE_WEI := ""; env_EVM_GAS_LIMIT := ""; env_EVM_ERC20_GAS_LIMIT := "" |}.

Abbreviation nodeState := (readerState (C := Z * list string)).
Definition noOtherPlugin : ChainPlugin nodeState := {|
  cp_GetTxByAddress _ s := (Err ErrUnsupported, s); cp_GetTxByHash _ s := (Err ErrUnsupported, s);
  cp_GetAccount _ s := (Err ErrUnsupported, s); cp_GetUnspentOutputs _ _ _ s := (Err ErrUnsupported, s);
  cp_ConvertAddress _ _ _ _ s := (Err ErrUnsupported, s); cp_SendTx _ _ _ _ s := (Err ErrUnsupported, s);
  cp_BuildUnsignedAccount _ _ _ s := (Err ErrUnsupported, s); cp_BuildSignedAccount _ _ _ _ _ s := (Err ErrUnsupported, s);
  cp_BuildUnsignedUTXO _ _ _ _ _ s := (Err ErrUnsupported, s); cp_BuildSignedUTXO _ _ _ _ _ s := (Err ErrUnsupported, s) |}.
Definition nodeRouter : Router (ChainPlugin nodeState) :=
  match gatewayRouter (Some 0) [] noOtherPlugin with Ok r => r | Err _ => ∅ end.
Lemma node_wired : wired nodeRouter.
Proof.
  exists 0, [], noOtherPlugin. split; [constructor|]. unfold nodeRouter.
  destruct (gateway_resolves (Some 0) [] noOtherPlugin "eth") as (r & a & Hr & _); [constructor|vm_compute; left|]. by rewrite Hr.
Qed.

#[local] Instance site : Outside (Z * nodeState) :=
  paying answering_all defaultEnv (λ e, e) (λ _, None) (λ _, false) (λ _, None) nodeRouter.
Definition siteStart : world (Z * nodeState) := World queued (5, (manager_run [OpRefresh (Ok nodes)] managerStart, (20, []))).

(** Order [w-5] of 10 to [0xb], signed with a key of 33 bytes. *)
Definition keyText : string := "02" +:+ of_bytes (replicate 64 "3"%char).
Definition payingJob (base64Tx : string) : WithdrawJob := {|
  wj_ID := 1; wj_TenantID := "t"; wj_AccountID := "alice"; wj_OrderID := "w-5"; wj_TxHash := "";
  wj_RequiredConfs := 2; wj_AttemptCount := 1; wj_ReplaceCount := 0;
  wj_Signers := [{| sr_KeyID := "k1"; sr_PublicKey := keyText |}]; wj_SignType := "ecdsa";
  wj_Tx := (Demo.tx "0xAA" "10") <| bp_Base64Tx := base64Tx |> |}.

Definition runJob (base64Tx : string) : world (Z * nodeState) :=
  (run (handleJob (dispatcher 5) (payingJob base64Tx)) siteStart).2.
Definition sentText (text : string) : string := "0x" +:+ hexEncode (to_bytes text).

Example job_sent : handedTo (runJob "") = [sentText "10 to 0xb nonce 7 tip 1000000000 cap 20000000000"].
Proof. vm_compute. reflexivity. Qed.

(** A transaction of the client's own in the order of 10. *)
Definition clientText : string := encode64doc (payloadMembers {|
  ev_ChainID := "1"; ev_NonceMode := "pending"; ev_FromAddress := "0xAA"; ev_Nonce := 0;
  ev_MaxPriorityFeePerGas := "100"; ev_MaxFeePerGas := "200"; ev_GasLimit := 21000; ev_ToAddress := "0xEve";
  ev_Amount := "1000"; ev_ContractAddress := "" |}).

(** It is what is signed and sent, and the order is recorded as sent. *)
Lemma client_transaction_sent :
  handedTo (runJob clientText) = [sentText "1000 to 0xEve nonce 7 tip 100 cap 200"]
  ∧ fz_amount <$> ledger_freezes (w_ledger (runJob clientText)) !! ("t", "w-5") = Some "10"
  ∧ fz_status <$> ledger_freezes (w_ledger (runJob clientText)) !! ("t", "w-5") = Some "BROADCASTED".
Proof. vm_compute. by split_and!. Qed.

Lemma site_writable base64Tx : writable defaultEnv (wj_Tx (payingJob base64Tx)).
Proof. split; by apply ascii_utf8; vm_compute. Qed.

Lemma site_chain base64Tx : NormalizeChain (bp_Chain (wj_Tx (payingJob base64Tx))) ∈ evmAccountChains.
Proof. vm_compute. left. Qed.

Lemma job_sends_its_payment_witness :
  handedTo (runJob "") = [sentText "10 to 0xb nonce 7 tip 1000000000 cap 20000000000"]
  ∧ ∃ tx, pays defaultEnv (wj_Tx (payingJob "")) tx ∧ sent_signed answering_all (jobRequest (payingJob "") (wj_Tx (payingJob ""))) tx siteStart (runJob "").
Proof.
  split; [exact job_sent|].
  destruct (job_sends_its_payment answering_all defaultEnv (λ e, e) (λ _, None) (λ _, false) (λ _, None) nodeRouter
    (dispatcher 5) (payingJob "") siteStart node_wired (site_chain "") (site_writable "")) as [Hq|(tx & Hs & Hp)].
  - exfalso. assert (handedTo (runJob "") = handedTo siteStart) as Hj by exact Hq. rewrite job_sent in Hj. by vm_compute in Hj.
  - exists tx. destruct (decide (TrimSpace (bp_Base64Tx (wj_Tx (payingJob ""))) = "")) as [_|Hn]; [|by vm_compute in Hn].
    split; [by destruct Hp|exact Hs].
Defined.

(** The text the dispatcher stored, and its acceleration. *)
Definition storedText : string :=
  from_option (λ j, bp_Base64Tx (jb_tx j)) "" (withdraw_jobs (w_ledger (runJob "")) !! ("t", "w-5")).
Definition accelerated : world (Z * nodeState) :=
  (run (handleAcceleration (H0 := jsonCodec) (dispatcher 5) (payingJob storedText)) (runJob "")).2.

Example replacement_sent : handedTo accelerated
  = [sentText "10 to 0xb nonce 7 tip 1000000000 cap 20000000000"; sentText "10 to 0xb nonce 7 tip 1200000000 cap 24000000000"].
Proof. vm_compute. reflexivity. Qed.

Lemma replacement_is_the_payment_witness :
  ∃ tx tx' req, decodePayloadTx storedText = Ok (tx, req) ∧ same_payment tx tx' ∧ tx_GasTipCap tx < tx_GasTipCap tx'.
Proof.
  destruct (decodePayloadTx storedText) as [[tx req]|e] eqn:Hd; [|exfalso; by vm_compute in Hd].
  destruct (replacement_is_the_payment answering_all defaultEnv (λ e, e) (λ _, None) (λ _, false) (λ _, None) nodeRouter
    (dispatcher 5) (payingJob storedText) (runJob "") tx req node_wired (site_chain storedText)
    ltac:(vm_compute; reflexivity) Hd) as [Hq|(tx' & Hsame & Htip & _)].
  - exfalso. assert (handedTo accelerated = handedTo (runJob "")) as Hj by exact Hq.
    rewrite replacement_sent, job_sent in Hj. by vm_compute in Hj.
  - exists tx, tx', req. by split_and!.
Defined.

#[local] Instance printGeth_laws : GethLaws key.
Proof.
  split; [|done|done]. intros s. cbn [HexToAddress printGeth]. rewrite length_take, length_app, length_replicate. lia.
Qed.

Lemma token_call_encodes_witness :
  List.length (buildERC20TransferData (HexToAddress key "0xb") 1000) = 68%nat.
Proof. exact (proj1 (token_call_encodes (K := key) "0xb" 1000 ltac:(lia))). Defined.
