(* ===== verification/CoreProperties.v ===== *)
(** * Properties of the orchestrator, the dispatcher and the handlers *)
From S2P Require Import Prelude GoStrings GoNumbers Ports LedgerTables LedgerWithdraw LedgerDeposit.
From S2P Require Import LedgerQueue.
From S2P Require Import Calls Programs Orchestrator Dispatcher DispatcherTraces LedgerAccounting.
From S2P Require Import LedgerSystem.
From S2P Require Import LedgerProperties DispatcherSystem Site.

(** ** The attempts at one order

    A withdrawal is claimed from the queue again and again until it is sent,
    released or given up.  Here: what a claim does to the row of one order, and
    the histories of an order between its claims. *)

Section attempts.
Context `{Postgres} {C : Type} `{Outside C} `{SolanaLib}.
Variables (d : WithdrawDispatcher) (k : order_key).




(** The job was given up and the order is still frozen. *)
Definition stranded (l : ledger) : Prop :=
  ∃ f j, ledger_freezes l !! k = Some f ∧ withdraw_jobs l !! k = Some j
  ∧ fz_status f = "FROZEN" ∧ jb_status j = "FAILED".

(** More is locked on the order's account than the account has. *)
Definition locked_out (l : ledger) : Prop :=
  ∃ f, ledger_freezes l !! k = Some f
  ∧ held ba_available l (claim_account k f) < held ba_withdraw_locked l (claim_account k f).












End attempts.

(** ** Traces *)

Section traces.
Context `{SolanaLib} `{PayloadCodec}.

(** C9. Everything one claimed job can do, whatever the chain, the signer and
    the database answer.  It calls the chain's broadcast at most once, whatever
    comes back, an error or a lost answer included.  When no hash came back it
    either reschedules itself or, out of attempts, releases the order and marks
    itself failed, with the error as the reason.  With a hash it confirms the
    order first and marks itself done; but when that confirmation fails it takes
    the failure path as well. *)
Theorem handleJob_traces (d : WithdrawDispatcher) (job : WithdrawJob) (tr : list event) :
  exec (handleJob d job) tr () →
  (∃ e, (sent tr = [] ∨ ∃ p, sent tr = [(p, Err e)]) ∧ after_failure d job (error_text e) (ledger_calls tr)) ∨
  (∃ p h unsigned r, sent tr = [(p, Ok h)] ∧ ledger_calls tr =
     [(ConfirmWithdrawCall (wj_TenantID job) (wj_AccountID job) (wj_OrderID job) h, Ok ());
      (MarkQueuedWithdrawDoneCall (wj_TenantID job) (wj_OrderID job) h unsigned, r)]) ∨
  (∃ p h e rest, sent tr = [(p, Ok h)]
     ∧ ledger_calls tr = (ConfirmWithdrawCall (wj_TenantID job) (wj_AccountID job) (wj_OrderID job) h, Err e) :: rest
     ∧ after_failure d job
         ("withdraw broadcasted but ledger confirm failed, txHash=" +:+ h +:+ ": " +:+ error_text e) rest).
Proof. apply handleJob_trace. Qed.

(** C10. [CreateAndBroadcast] freezes before it broadcasts and calls the
    broadcast at most once.  It releases what it froze exactly when no hash came
    back, with that error as the reason: because an earlier step failed, or
    because the one broadcast was answered with an error, be it the chain's
    refusal or a lost answer to a payment that was sent.  With a hash it never
    releases; it confirms, and its answer is that of the confirmation. *)
Theorem CreateAndBroadcast_traces (req : WithdrawRequest) (tr : list event) (r : result string) :
  exec (CreateAndBroadcast req) tr r →
  let freeze := FreezeWithdrawCall (rq_TenantID req) (rq_AccountID req) (rq_OrderID req)
    (bp_Chain (rq_Tx req)) (bp_Network (rq_Tx req)) (bp_Coin (rq_Tx req)) (bp_Amount (rq_Tx req))
    (Z.max 1 (rq_RequiredConfs req)) in
  (∃ e, r = Err e ∧ sent tr = [] ∧ (ledger_calls tr = [] ∨ ledger_calls tr = [(freeze, Err e)])) ∨
  (∃ e released, (sent tr = [] ∨ ∃ p, sent tr = [(p, Err e)]) ∧ is_ok r = false ∧ ledger_calls tr =
     [(freeze, Ok ());
      (ReleaseWithdrawCall (rq_TenantID req) (rq_AccountID req) (rq_OrderID req) (error_text e), released)]) ∨
  (∃ p h c, sent tr = [(p, Ok h)] ∧ ledger_calls tr =
     [(freeze, Ok ());
      (ConfirmWithdrawCall (rq_TenantID req) (rq_AccountID req) (rq_OrderID req) h, c)]
     ∧ (r = Ok h ↔ c = Ok ())).
Proof.
  intros Hx freeze. unfold CreateAndBroadcast in Hx.
  apply exec_bind_ok in Hx as (tr1 & tr2 & r1 & -> & H1 & Hx).
  destruct (silent_trace _ _ _ (ensureChainFunds_silent _) H1) as [E1 E2]. autorewrite with ledger. rewrite E1, E2.
  destruct r1 as [[]|e]; [|destruct Hx as [-> ->]; left; eauto].
  apply exec_bind_ok in Hx as (tr3 & tr4 & r2 & -> & H2 & Hx). unfold freezeWithdraw in H2.
  replace (if decide (rq_RequiredConfs req ≤ 0) then 1 else rq_RequiredConfs req)
    with (Z.max 1 (rq_RequiredConfs req)) in H2 by (case_decide; lia).
  apply exec_call in H2. subst tr3. autorewrite with ledger. cbn [sent ledger_calls omap list_omap ledger_call_of sent_of].
  destruct r2 as [[]|e]; [|destruct Hx as [-> ->]; left; eauto].
  apply exec_bind in Hx as (tr3 & tr5 & b & -> & Hb & Hx). apply buildSignAndBroadcast_trace in Hb as [E3 Hs].
  autorewrite with ledger. rewrite E3. right. destruct b as [b|e].
  - destruct Hs as [p ->]. apply exec_bind in Hx as (tr6 & tr7 & c & -> & Hc%exec_call & Hx). subst tr6.
    right. exists p, (bd_TxHash b), c. destruct c as [[]|e]; destruct Hx as [-> ->]; by split_and!.
  - apply exec_bind in Hx as (tr6 & tr7 & c & -> & Hc%exec_call & Hx). subst tr6.
    left. exists e, c. destruct c as [[]|e']; destruct Hx as [-> ->]; cbn; rewrite app_nil_r; by split_and!.
Qed.

(** An acceleration calls the broadcast at most once.  It replaces the
    recorded hash exactly when a hash came back, and otherwise only resets the
    job; it never confirms, fails or releases the order. *)
Theorem handleAcceleration_traces (d : WithdrawDispatcher) (job : WithdrawJob) (tr : list event) :
  exec (handleAcceleration d job) tr () →
  (∃ p h unsigned r, sent tr = [(p, Ok h)] ∧ ledger_calls tr =
     [(ReplaceBroadcastedWithdrawCall (wj_TenantID job) (wj_OrderID job) (wj_TxHash job) h unsigned, r)]) ∨
  (∃ e r, (sent tr = [] ∨ ∃ p, sent tr = [(p, Err e)]) ∧ ledger_calls tr =
     [(ResetBroadcastedWithdrawCall (wj_TenantID job) (wj_OrderID job) (error_text e), r)]).
Proof.
  unfold handleAcceleration. destruct (bumpEVMReplacementPayload _ _) as [p|e].
  - intros (tr1 & tr2 & b & -> & Hb & Hx)%exec_bind. apply BroadcastOnly_trace in Hb as [E1 Hs].
    autorewrite with ledger. rewrite E1. destruct b as [b|e].
    + destruct Hs as [p' ->]. apply exec_bind in Hx as (tr3 & tr4 & r & -> & Hc%exec_call & [-> _]). subst tr3.
      left. cbn. eauto 10.
    + apply exec_bind in Hx as (tr3 & tr4 & r & -> & Hc%exec_call & [-> _]). subst tr3.
      right. exists e, r. cbn. by rewrite app_nil_r.
  - intros (tr3 & tr4 & r & -> & Hc%exec_call & [-> _])%exec_bind. subst tr3. right. exists e, r. by split; [left|].
Qed.
End traces.

(** The answers to broadcasts get lost; the database always answers. *)
Definition lossy : Outside Z := {|
  out_db := λ c, (Ok c, c + 1);
  out_locked := λ _ _, false;
  out_call := λ R c, match c in port R return Z → R * Z with
    | Broadcast p => λ s, (Err (Errorf "timeout"), s)
    | c => out_call (Outside := calm) c
    end;
|}.
Definition lossyTrace {A} (p : prog A) (l : ledger) : list event :=
  traced (H := @world_handler _ _ lossy) p (World l 5).

(** Sent and recorded in one world; in the other the answer is lost, and the job
    does not send again but waits for its next attempt. *)
Lemma handleJob_traces_witness :
  (∃ p unsigned r, let tr := traced (handleJob (dispatcher 5) theJob) (start [] queued) in
     sent tr = [(p, Ok "0x0")] ∧ ledger_calls tr =
       [(ConfirmWithdrawCall "t" "alice" "w-5" "0x0", Ok ()); (MarkQueuedWithdrawDoneCall "t" "w-5" "0x0" unsigned, r)])
  ∧ (∃ p e, let tr := lossyTrace (handleJob (dispatcher 5) theJob) queued in
     sent tr = [(p, Err e)] ∧ after_failure (dispatcher 5) theJob (error_text e) (ledger_calls tr)).
Proof.
  split; cbv zeta.
  - pose proof (traced_exec (handleJob (dispatcher 5) theJob) (start [] queued)) as Htr. set (tr := traced _ _) in *.
    assert (E : snd <$> sent tr = [Ok "0x0"] ∧ snd <$> ledger_calls tr = [Ok (); Ok ()]) by (vm_compute; by split).
    destruct (handleJob_traces _ _ _ Htr) as [(e & [Hs|[p Hs]] & _)|[(p & h & u & r & Hs & Hc)|(p & h & e & rest & Hs & Hc & _)]];
      rewrite Hs in E; destruct E as [[= ->] E]; [|rewrite Hc in E; discriminate E].
    exists p, u, r. split; [exact Hs|exact Hc].
  - pose proof (traced_exec (H := @world_handler _ _ lossy) (handleJob (dispatcher 5) theJob) (World queued 5)) as Htr.
    fold (lossyTrace (handleJob (dispatcher 5) theJob) queued) in Htr. set (tr := lossyTrace _ _) in *.
    assert (E : snd <$> sent tr = [Err (Errorf "timeout")]) by (vm_compute; reflexivity).
    destruct (handleJob_traces _ _ _ Htr) as [(e & [Hs|[p Hs]] & Hf)|[(p & h & u & r & Hs & _)|(p & h & e & rest & Hs & _)]];
      try (exfalso; rewrite Hs in E; discriminate E).
    by exists p, e.
Defined.

(** A payment that is sent and confirmed, and one whose answer is lost and that
    is released. *)
Lemma CreateAndBroadcast_traces_witness :
  (let p := CreateAndBroadcast (jobRequest theJob (wj_Tx theJob)) in
   let tr := traced p (start [] Demo.funded) in
   (run p (start [] Demo.funded)).1 = Ok "0x0" ∧ snd <$> sent tr = [Ok "0x0"]
   ∧ (ConfirmWithdrawCall "t" "alice" "w-5" "0x0", Ok ()) ∈ ledger_calls tr)
  ∧ (let tr := lossyTrace (CreateAndBroadcast (jobRequest theJob (wj_Tx theJob))) Demo.funded in
   ∃ p e released, sent tr = [(p, Err e)]
   ∧ (ReleaseWithdrawCall "t" "alice" "w-5" (error_text e), released) ∈ ledger_calls tr).
Proof.
  split; cbv zeta.
  - pose proof (traced_exec (CreateAndBroadcast (jobRequest theJob (wj_Tx theJob))) (start [] Demo.funded)) as Htr.
    set (tr := traced _ _) in *. set (r := (run _ _).1) in *.
    assert (E : r = Ok "0x0" ∧ snd <$> sent tr = [Ok "0x0"]) by (vm_compute; by split).
    destruct E as [Er E]. split_and!; [done|done|].
    destruct (CreateAndBroadcast_traces _ _ _ Htr) as [(e & He & _)|[(e & rl & _ & He & _)|(p & h & c & Hs & Hc & Hr)]];
      [by rewrite Er in He|by rewrite Er in He|].
    rewrite Hs in E. injection E as ->. rewrite Hc. rewrite (proj1 Hr Er). right. left.
  - pose proof (traced_exec (H := @world_handler _ _ lossy) (CreateAndBroadcast (jobRequest theJob (wj_Tx theJob)))
      (World Demo.funded 5)) as Htr.
    fold (lossyTrace (CreateAndBroadcast (jobRequest theJob (wj_Tx theJob))) Demo.funded) in Htr. set (tr := lossyTrace _ _) in *.
    assert (E : snd <$> sent tr = [Err (Errorf "timeout")]) by (vm_compute; reflexivity).
    destruct (CreateAndBroadcast_traces _ _ _ Htr) as [(e & _ & Hs & _)|[(e & rl & [Hs|[p Hs]] & _ & Hc)|(p & h & c & Hs & _)]];
      try (exfalso; rewrite Hs in E; discriminate E).
    exists p, e, rl. split; [done|]. rewrite Hc. right. left.
Defined.

Lemma handleAcceleration_traces_witness :
  ∃ tr, exec (handleAcceleration (dispatcher 5) theJob) tr () ∧ List.length (ledger_calls tr) = 1%nat.
Proof.
  destruct (exec_total (handleAcceleration (dispatcher 5) theJob) (λ R, refuse)) as (tr & [] & Htr).
  exists tr. split; [done|].
  by destruct (handleAcceleration_traces _ _ _ Htr) as [(p & h & u & r & _ & ->)|(rs & r & _ & ->)].
Defined.

(** ** Against the real ledger *)

(** C6. Any number of job and acceleration goroutines, interleaved call by call
    in any order, with any answers of the chain and the signer and a database
    that may fail at any time, keep the accounting of the ledger, provided each
    job names an existing order of its own account: without that the release of
    a failed job credits another account, which [ReleaseWithdraw] does not look
    at. *)
Theorem dispatcher_keeps_accounting `{Postgres, Outside C, SolanaLib, PayloadCodec} (d : WithdrawDispatcher)
    (jobs stale : list WithdrawJob) (ps : list (prog ())) (w w' : world C) :
  accounting (w_ledger w) →
  (∀ job, job ∈ jobs → owned (wj_TenantID job, wj_AccountID job, wj_OrderID job) (w_ledger w)) →
  rtc thread_step (List.map (handleJob d) jobs ++ List.map (handleAcceleration d) stale, w) (ps, w') →
  accounting (w_ledger w').
Proof.
  intros Hacc Hjobs Hr.
  set (owners := List.map (λ job, (wj_TenantID job, wj_AccountID job, wj_OrderID job)) jobs).
  eapply (threads_owners_hold owners); [| |exact Hr].
  - apply Forall_app. split; apply Forall_forall; intros p (job & <- & Hin)%list_elem_of_In%in_map_iff;
      [|apply handleAcceleration_port_ok].
    apply handleJob_port_ok, list_elem_of_In, in_map_iff. by exists job.
  - split; [done|]. intros x (job & <- & Hin)%list_elem_of_In%in_map_iff. by apply Hjobs, list_elem_of_In.
Qed.


(** Two orders of alice's, from two addresses. *)
Definition secondRequest : WithdrawQueueInput := {|
  wq_TenantID := "t"; wq_AccountID := "alice"; wq_OrderID := "w-6"; wq_RequiredConfs := 2;
  wq_Signers := wq_Signers request; wq_SignType := "ecdsa"; wq_Tx := Demo.tx "0xBB" "20" |}.
Definition queuedTwo : ledger := run_tx (QueueWithdraw 1000 secondRequest) queued.
Definition secondJob : WithdrawJob := {|
  wj_ID := 2; wj_TenantID := "t"; wj_AccountID := "alice"; wj_OrderID := "w-6"; wj_TxHash := "";
  wj_RequiredConfs := 2; wj_AttemptCount := 1; wj_ReplaceCount := 0; wj_Signers := wq_Signers secondRequest;
  wj_SignType := "ecdsa"; wj_Tx := wq_Tx secondRequest |}.

Lemma queuedTwo_ok : QueueWithdraw 1000 secondRequest queued = Ok queuedTwo.
Proof. run_tx_ok. Qed.
Lemma queuedTwo_accounting : accounting queuedTwo.
Proof.
  exact (ledger_step_accounting ToLower Demo.any_sweep _ _
    (step_op _ _ (OpCall _ (QueueWithdrawCall _)) _ _ I I queuedTwo_ok) queued_accounting).
Qed.

Definition status_of (l : ledger) (o : string) : option string := fz_status <$> ledger_freezes l !! ("t", o).
Definition account_of (l : ledger) (o : string) : option string := fz_account_id <$> ledger_freezes l !! ("t", o).

Lemma owned_by o l : account_of l o = Some "alice" → owned ("t", "alice", o) l.
Proof. unfold account_of. intros (f & Hf & Ha)%fmap_Some. by exists f. Qed.

(** Their two jobs, each on its last attempt, call by call in turns; the
    database fails on the second of its calls, the confirmation of [w-6].  So
    [w-5] is recorded as broadcast and [w-6] released. *)
Lemma dispatcher_keeps_accounting_witness :
  ∃ ps w', rtc thread_step ([handleJob (dispatcher 1) theJob; handleJob (dispatcher 1) secondJob],
                            start [2] queuedTwo) (ps, w')
    ∧ status_of (w_ledger w') "w-5" = Some "BROADCASTED" ∧ status_of (w_ledger w') "w-6" = Some "RELEASED"
    ∧ accounting (w_ledger w').
Proof.
  set (s := concat (replicate 8 [0; 1]%nat)).
  set (out := schedule s [handleJob (dispatcher 1) theJob; handleJob (dispatcher 1) secondJob] (start [2] queuedTwo)).
  assert (Hs : rtc thread_step ([handleJob (dispatcher 1) theJob; handleJob (dispatcher 1) secondJob],
                                start [2] queuedTwo) (out.1, out.2)).
  { rewrite <- surjective_pairing. apply schedule_steps. }
  exists out.1, out.2. split; [exact Hs|]. split; [by vm_compute|]. split; [by vm_compute|].
  refine (dispatcher_keeps_accounting (dispatcher 1) [theJob; secondJob] [] _ (start [2] queuedTwo) _
    queuedTwo_accounting _ Hs).
  intros job [->|[->|[]%not_elem_of_nil]%elem_of_cons]%elem_of_cons; apply owned_by; by vm_compute.
Defined.




(** A chain and a signer that refuse every call, and two attempts. *)
Definition refusing : Outside Z := {|
  out_db := λ c, (Ok c, c + 1);
  out_locked := λ _ _, false;
  out_call := λ R c s, (refuse c, s) |}.







(** The stranded order: a second deposit of 150 is still locked when the first,
    of 100, is reorganised away under the queued order. *)
Definition lockedOut : ledger :=
  run_tx (CreditDeposit (Demo.deposit "dep-1" "100" "REORGED" 10))
    (run_tx (CreditDeposit (Demo.deposit "dep-2" "150" "" 4)) queued).

Example locked_out_order_is_stranded :
  let l := w_ledger (run (H := @world_handler _ _ refusing) (handleJob (dispatcher 1) theJob) (World lockedOut 5)).2 in
  locked_out ("t", "w-5") l ∧ stranded ("t", "w-5") l ∧ columns l Demo.account = columns lockedOut Demo.account.
Proof.
  cbv zeta. set (l := w_ledger _).
  destruct (ledger_freezes l !! ("t", "w-5")) as [f|] eqn:Hf; [|exfalso; by vm_compute in Hf].
  destruct (withdraw_jobs l !! ("t", "w-5")) as [j|] eqn:Hj; [|exfalso; by vm_compute in Hj].
  assert (Hf' := Hf). vm_compute in Hf'. injection Hf' as <-.
  assert (Hj' := Hj). vm_compute in Hj'. injection Hj' as <-.
  split_and!; [eexists; split; [exact Hf|by vm_compute]|do 2 eexists; split_and!; [exact Hf|exact Hj|done..]|by vm_compute].
Qed.

(** ** A broadcast the database does not learn of *)

(** When the database fails on the one call that confirms a broadcast, the
    job is queued again and the next round broadcasts the same payment a second
    time: two transactions for an order of 10. *)
Theorem failed_confirmation_sends_twice :
  let w := dispatchRound (dispatcher 5) (dispatchRound (dispatcher 5) (start [2] queued)) in
  bc_UnsignedTx <$> st_sent (w_out w) = ["unsigned:10"; "unsigned:10"]
  ∧ fz_status <$> ledger_freezes (w_ledger w) !! ("t", "w-5") = Some "BROADCASTED"
  ∧ fz_amount <$> ledger_freezes (w_ledger w) !! ("t", "w-5") = Some "10".
Proof. vm_compute. by split_and!. Qed.

(** And when that was the last attempt, the order is released: the payment
    is on the chain and the account has its funds back as well. *)
Theorem failed_confirmation_releases_sent :
  let w := dispatchRound (dispatcher 1) (start [2] queued) in
  bc_UnsignedTx <$> st_sent (w_out w) = ["unsigned:10"]
  ∧ fz_status <$> ledger_freezes (w_ledger w) !! ("t", "w-5") = Some "RELEASED"
  ∧ columns (w_ledger w) Demo.account = columns Demo.funded Demo.account.
Proof. vm_compute. by split_and!. Qed.

(** ** Delays, fees and amounts *)

(** The retry delay is exponential back-off without overflow: it doubles
    from the base delay at the second attempt on, six times at most, never
    exceeds the maximum, is always positive and never shrinks. *)
Theorem retry_backoff (d : WithdrawDispatcher) (n m : Z) :
  ds_BaseBackoff d ≤ 2 ^ 56 →
  retryDelay d n = Z.min (topDelay d) (baseDelay d * 2 ^ doublings n)
  ∧ 0 < retryDelay d n ≤ topDelay d
  ∧ (n ≤ m → retryDelay d n ≤ retryDelay d m).
Proof.
  intros Hb. rewrite !retryDelay_eq by done.
  pose proof (baseDelay_pos d). pose proof (topDelay_pos d).
  assert (0 < 2 ^ doublings n) by (apply Z.pow_pos_nonneg; unfold doublings; lia).
  split_and!; [done|nia|lia|]. intros Hle%doublings_mono.
  assert (2 ^ doublings n ≤ 2 ^ doublings m) by (apply Z.pow_le_mono_r; lia). nia.
Qed.

Lemma retry_backoff_witness : retryDelay (dispatcher 5) 3 = 4 * second.
Proof. rewrite (proj1 (retry_backoff (dispatcher 5) 3 3 ltac:(done))). by vm_compute. Defined.

(** A replacement transaction pays strictly more, in the tip as in the fee
    cap, keeps the cap at or above the tip, and changes nothing else: same
    nonce, sender, recipient, amount, contract, chain and gas limit. *)
Theorem replacement_pays_more `{PayloadCodec} (tx : string) (bps : Z) (out : string) :
  bumpEVMReplacementPayload tx bps = Ok out →
  ∃ p p' tip fee tip' fee',
    decodePayload tx = Ok p ∧ encodePayload p' = Ok out
    ∧ SetString10 (ev_MaxPriorityFeePerGas p) = Some tip ∧ SetString10 (ev_MaxFeePerGas p) = Some fee
    ∧ SetString10 (ev_MaxPriorityFeePerGas p') = Some tip' ∧ SetString10 (ev_MaxFeePerGas p') = Some fee'
    ∧ tip < tip' ∧ fee < fee' ∧ tip' ≤ fee'
    ∧ ev_NonceMode p' = "fixed" ∧ ev_ChainID p' = ev_ChainID p ∧ ev_FromAddress p' = ev_FromAddress p
    ∧ ev_Nonce p' = ev_Nonce p ∧ ev_ToAddress p' = ev_ToAddress p ∧ ev_Amount p' = ev_Amount p
    ∧ ev_ContractAddress p' = ev_ContractAddress p ∧ ev_GasLimit p' = ev_GasLimit p.
Proof. apply bumpEVMReplacementPayload_spec. Qed.

Lemma replacement_pays_more_witness :
  bumpEVMReplacementPayload "p" 0 = Ok "120/240" ∧
  ∃ p tip, decodePayload "p" = Ok p ∧ SetString10 (ev_MaxPriorityFeePerGas p) = Some tip.
Proof.
  assert (Hb : bumpEVMReplacementPayload "p" 0 = Ok "120/240") by by vm_compute. split; [done|].
  destruct (replacement_pays_more _ _ _ Hb) as (p & p' & tip & fee & tip' & fee' & Hp & _ & Ht & _). eauto.
Defined.

(** Converting a display amount to base units is exact: with at most
    [dec] fraction digits, [i.f] becomes the number [i f] times the remaining
    power of ten, for digit strings of any length. *)
Theorem display_amount_exact (i f : bytes) (dec v : Z) :
  is_digits i → i ≠ [] → is_digits f → Z.of_nat (List.length f) ≤ dec → parse_digits 0 (i ++ f) = Some v →
  normalizeDisplayAmount (of_bytes (i ++ "."%char :: f)) dec
  = Ok (BigString (v * 10 ^ (dec - Z.of_nat (List.length f)))).
Proof. apply normalizeDisplayAmount_digits. Qed.

Lemma display_amount_exact_witness : normalizeDisplayAmount "12.5" 6 = Ok "12500000".
Proof.
  assert (Hd : ∀ l, forallb (λ a, bool_decide (is_Some (digit_of a))) l = true → is_digits l).
  { intros l Hl. apply Forall_forall. intros a Ha%list_elem_of_In.
    rewrite forallb_forall in Hl. by apply Hl, bool_decide_eq_true in Ha. }
  etrans; [apply (display_amount_exact ["1"; "2"]%char ["5"]%char 6 125)|by vm_compute];
    [by apply Hd; vm_compute|done|by apply Hd; vm_compute|done|done].
Defined.

(** * The HTTP handlers *)
From S2P Require Import Prelude GoStrings GoNumbers Ports LedgerTables LedgerWithdraw LedgerVault.
From S2P Require Import Calls.
From S2P Require Import Orchestrator Dispatcher DispatcherTraces Handlers TreasuryHandlers.
From S2P Require Import HandlerTraces LedgerAccounting LedgerSystem LedgerProperties DispatcherSystem.
From S2P Require Import HandlerSystem Site.

(** ** Requests to instantiate them with *)

Module Requests.
Definition handler : WithdrawHandler := {| wh_Registry := true; wh_Ledger := true; wh_KeyManager := true; wh_ChainAddr := true |}.
Definition post {B} (b : B) : http_request B := {|
  hq_Method := "POST"; hq_RequestID := ""; hq_Query := λ _, ""; hq_Body := Some b |}.

(** 10 ETH from the vault account to the cold account. *)
Definition transfer : TreasuryTransferRequest := {|
  ttq_TenantID := "t"; ttq_TransferOrderID := "x-1"; ttq_FromAccountID := "vault"; ttq_ToAccountID := "cold-1";
  ttq_Chain := "ethereum"; ttq_Network := "mainnet"; ttq_Asset := "ETH"; ttq_Amount := "10";
  ttq_SourceTier := ""; ttq_DestinationTier := "" |}.
(** 25 ETH from alice to the vault account. *)
Definition sweep : SweepRunRequest := {|
  srq_TenantID := "t"; srq_SweepOrderID := "s-9"; srq_FromAccountID := "alice"; srq_TreasuryAccountID := "vault";
  srq_ColdAccountID := ""; srq_HotBalanceCap := ""; srq_Chain := "ethereum"; srq_Network := "mainnet";
  srq_Asset := "ETH"; srq_Amount := "25" |}.
Definition withdraw : CreateWithdrawRequest := {|
  cwq_TenantID := "t"; cwq_AccountID := "alice"; cwq_OrderID := "w-9"; cwq_KeyID := "k1"; cwq_KeyIDs := [];
  cwq_SignType := ""; cwq_Chain := "ethereum"; cwq_Network := "mainnet"; cwq_Coin := "ETH"; cwq_From := "0xAA";
  cwq_To := "0xb"; cwq_Amount := "10"; cwq_ContractAddress := ""; cwq_AmountUnit := ""; cwq_TokenDecimals := 0;
  cwq_Base64Tx := ""; cwq_Fee := ""; cwq_Vin := []; cwq_Vout := [] |}.

Lemma transfer_given : order_given (post transfer) "t" "x-1".
Proof. by exists transfer. Qed.
End Requests.

(** ** Withdrawals *)

(** Creating a withdrawal never broadcasts and writes at most once: it
    queues the order of the request, signed by exactly the requested keys in
    their order, and the response is a success when that write was. *)
Theorem Create_writes_once (h : WithdrawHandler) (r : http_request CreateWithdrawRequest) (tr : list event)
    (a : reply CreateWithdrawResponse) :
  exec (Create h r) tr a →
  sent tr = [] ∧
  (ledger_calls tr = [] ∨
   ∃ req confs signers x, hq_Body r = Some req
    ∧ List.map sr_KeyID signers = requestedKeys req ∧ signers ≠ [] ∧ is_reply a = is_ok x
    ∧ ledger_calls tr = [(QueueWithdrawCall
      {| wq_TenantID := cwq_TenantID req; wq_AccountID := cwq_AccountID req; wq_OrderID := cwq_OrderID req;
         wq_RequiredConfs := confs; wq_Signers := signers; wq_SignType := cwq_SignType req;
         wq_Tx := withdrawTx req |}, x)]).
Proof.
  intros [E|(req & confs & s & x & Hr & Hk & Hne & Ha & E)]%Create_trace; injection E as -> ->; eauto 12.
Qed.

Lemma Create_writes_once_witness :
  ∃ tr a, exec (Create Requests.handler (Requests.post Requests.withdraw)) tr a ∧ sent tr = [].
Proof.
  destruct (exec_total (Create Requests.handler (Requests.post Requests.withdraw)) (λ R, refuse)) as (tr & a & Htr).
  exists tr, a. split; [done|]. apply (Create_writes_once _ _ _ _ Htr).
Defined.

(** ** Sweeps and treasury transfers *)

(** A sweep that is not refused beforehand reserves its order first.  Only
    a committed reservation is followed by a broadcast; a failed broadcast is
    recorded as a failed sweep, an accepted one is recorded with its hash in up
    to three tries, and a sweep that was broadcast is never recorded as failed. *)
Theorem SweepRun_traces `{SolanaLib} (h : WithdrawHandler) (r : http_request SweepRunRequest) (tr : list event)
    (a : reply SweepRunResponse) :
  exec (SweepRun h r) tr a →
  (observed tr = ([], []) ∧ is_reply a = false) ∨
  ∃ req orderID confs dest,
    hq_Body r = Some req ∧ (srq_SweepOrderID req ≠ "" → orderID = srq_SweepOrderID req) ∧
    let req' := setSweepOrder (setTreasury req) orderID in
    transfer_trace (sweepReserve req' confs dest) (λ s, FailSweepOnChainCall (srq_TenantID req') orderID s 0)
      (sweepMark req' confs dest) (is_reply a) (observed tr).
Proof. apply SweepRun_trace. Qed.

Lemma SweepRun_traces_witness :
  ∃ tr a, exec (SweepRun Requests.handler (Requests.post Requests.sweep)) tr a ∧ (List.length (sent tr) ≤ 1)%nat.
Proof.
  destruct (exec_total (SweepRun Requests.handler (Requests.post Requests.sweep)) (λ R, refuse)) as (tr & a & Htr).
  exists tr, a. split; [done|].
  destruct (SweepRun_traces _ _ _ _ Htr) as [[E _]|(? & ? & ? & ? & _ & _ & E)]; [injection E as -> _; cbn; lia|].
  by apply transfer_trace_sent in E.
Defined.

(** C28. Delivering one treasury transfer request with a given order id any
    number of times, one delivery after the other, with whatever failures of the
    database, the chain or the signer in between, hands the chain at most one
    transaction, whatever is answered to it.  Deliveries at the same time are
    another matter, see [concurrent_transfers_send_twice]. *)
Theorem treasury_transfer_sends_once `{Postgres, Outside C, SolanaLib} (h : WithdrawHandler)
    (r : http_request TreasuryTransferRequest) (t o : string) (n : nat) (w : world C) :
  order_given r t o → (List.length (sends n (TreasuryTransfer h r) w) ≤ 1)%nat.
Proof. apply TreasuryTransfer_sends. Qed.

Lemma treasury_transfer_sends_once_witness :
  let p := TreasuryTransfer Requests.handler (Requests.post Requests.transfer) in
  (List.length (sends 3 p (start [] Demo.swept)) ≤ 1)%nat ∧ sends 3 p (start [] Demo.swept) ≠ [].
Proof.
  split; [exact (treasury_transfer_sends_once _ _ _ _ 3 _ Requests.transfer_given)|]. by vm_compute.
Defined.

(** The sweep handler has no such guard: a sweep that is requested twice
    under one order id is broadcast twice, because the ledger accepts the
    second reservation of a broadcast sweep. *)
Theorem sweep_rerun_sends_again :
  List.length (sends 2 (SweepRun Requests.handler (Requests.post Requests.sweep)) (start [] Demo.funded)) = 2%nat.
Proof. vm_compute. reflexivity. Qed.

(** Nor does the guard of treasury transfers hold for two requests at the
    same time: both find no order, both reserve (the ledger accepts the second
    reservation) and both broadcast; 20 leave the chain account, 10 the vault. *)
Theorem concurrent_transfers_send_twice :
  ∃ ps w, rtc thread_step (replicate 2 (TreasuryTransfer Requests.handler (Requests.post Requests.transfer)),
                           start [] Demo.swept) (ps, w)
    ∧ bc_UnsignedTx <$> st_sent (w_out w) = ["unsigned:10"; "unsigned:10"]
    ∧ vault_balances (w_ledger w) !! ("t", "vault", "ETH") = Some "15".
Proof.
  set (s := [0; 0; 0; 1; 1; 1]%nat ++ replicate 8 0%nat ++ replicate 8 1%nat).
  set (out := schedule s (replicate 2 (TreasuryTransfer Requests.handler (Requests.post Requests.transfer)))
                (start [] Demo.swept)).
  exists out.1, out.2. split; [|by vm_compute].
  pose proof (schedule_steps s (replicate 2 (TreasuryTransfer Requests.handler (Requests.post Requests.transfer)))
                (start [] Demo.swept)) as Hs. fold out in Hs. by destruct out.
Qed.

(** ** The waterline of the hot vault *)

(** Below its floor a hot vault is LOW and the cold vault should send what
    is missing; above its cap it is HIGH and should send the excess; and
    carrying out the suggestion makes it NORMAL. *)
Theorem waterline_suggestion (v f c : string) (m n k : Z) :
  int_string v m → int_string f n → int_string c k → 0 ≤ m → 0 ≤ n → 0 ≤ k → (0 < k → n ≤ k) →
  ∃ state action amt, waterline v f c = Ok (state, action, BigString amt)
    ∧ (state = "LOW" ↔ m < n) ∧ (state = "HIGH" ↔ 0 < k < m) ∧ 0 ≤ amt
    ∧ let after := if decide (m < n) then m + amt else m - amt in
      waterline (BigString after) f c = Ok ("NORMAL", "NONE", "0").
Proof.
  intros Hv Hf Hc Hm Hn Hk Hnk. rewrite (waterline_eq _ _ _ _ _ _ Hv Hf Hc) by done.
  destruct (decide (m < n)); [|destruct (decide (0 < k < m))].
  - do 3 eexists. split_and!; [done|split; [lia|done]|split; [done|lia]|lia|].
    cbv zeta. repeat case_decide; try lia; rewrite (waterline_eq _ _ _ _ _ _ (int_string_Big _) Hf Hc) by lia;
      by rewrite !decide_False by lia.
  - do 3 eexists. split_and!; [done|split; [done|lia]|done|lia|].
    cbv zeta. repeat case_decide; try lia; rewrite (waterline_eq _ _ _ _ _ _ (int_string_Big _) Hf Hc) by lia;
      by rewrite !decide_False by lia.
  - exists "NORMAL", "NONE", 0. split_and!; [done|done..|lia|].
    cbv zeta. repeat case_decide; try lia; rewrite (waterline_eq _ _ _ _ _ _ (int_string_Big _) Hf Hc) by lia;
      by rewrite !decide_False by lia.
Qed.

Lemma waterline_suggestion_witness :
  ∃ state action amt, waterline "70" "20" "50" = Ok (state, action, BigString amt) ∧ state = "HIGH".
Proof.
  destruct (waterline_suggestion "70" "20" "50" 70 20 50) as (s & a & amt & E & _ & H & _); [done|done|done|lia..|].
  exists s, a, amt. split; [done|]. apply H. lia.
Defined.

(** With a cap in force a sweep goes to the hot account only if that
    account's vault stays within the cap, and to the cold account otherwise. *)
Theorem sweep_respects_cap (h : WithdrawHandler) (req : SweepRunRequest) (c : Z) (tr : list event) (acct tier : string) :
  wh_Ledger h = true → TrimSpace (srq_ColdAccountID req) ≠ "" →
  int_string (srq_HotBalanceCap req) c → 0 < c →
  exec (resolveSweepDestinationAccount h req) tr (Ok (acct, tier)) →
  ∃ hot items v a,
    tr = [Ev (AssetsOf (srq_TenantID req) hot) (Ok items)]
    ∧ int_string (vaultAvailableIn (srq_Asset req) items) v ∧ int_string (srq_Amount req) a
    ∧ (acct, tier) = if decide (c < v + a) then (TrimSpace (srq_ColdAccountID req), "COLD") else (hot, "HOT").
Proof. apply resolveSweepDestinationAccount_trace. Qed.

Module CappedSweep.
Definition request : SweepRunRequest := {|
  srq_TenantID := "t"; srq_SweepOrderID := "s-9"; srq_FromAccountID := "alice"; srq_TreasuryAccountID := "vault";
  srq_ColdAccountID := "cold-1"; srq_HotBalanceCap := "40"; srq_Chain := "ethereum"; srq_Network := "mainnet";
  srq_Asset := "ETH"; srq_Amount := "25" |}.
Definition items : list AccountAsset := [{|
  aa_Asset := "ETH"; aa_Available := "0"; aa_Frozen := "0"; aa_WithdrawLocked := "0"; aa_Withdrawable := "0";
  aa_VaultAvailable := "25" |}].
End CappedSweep.

Lemma sweep_respects_cap_witness :
  ∃ tr acct, exec (resolveSweepDestinationAccount Requests.handler CappedSweep.request) tr (Ok (acct, "COLD")) ∧ tr ≠ [].
Proof.
  assert (Htr : exec (resolveSweepDestinationAccount Requests.handler CappedSweep.request)
                  [Ev (AssetsOf "t" "vault") (Ok CappedSweep.items)] (Ok ("cold-1", "COLD"))).
  { unfold resolveSweepDestinationAccount. rewrite decide_False by (vm_compute; intuition congruence).
    apply exec_bind_ok. eexists [_], [], (Ok "25"). split; [done|]. split.
    - apply exec_bind_ok. eexists [_], [], (Ok CappedSweep.items). split; [done|].
      split; [by apply exec_call|]. split; [done|by vm_compute].
    - apply exec_bind_ok. exists [], [], (Ok "50"). split; [done|]. split; [split; [done|by vm_compute]|].
      split; [done|by vm_compute]. }
  exists [Ev (AssetsOf "t" "vault") (Ok CappedSweep.items)], "cold-1". split; [done|].
  destruct (sweep_respects_cap Requests.handler CappedSweep.request 40 _ _ _ eq_refl ltac:(done) ltac:(done) ltac:(lia) Htr)
    as (hot & items & v & a & E & _). by rewrite E.
Defined.
