(* ===== verification/ScanEvents.v ===== *)
(** * The scanner's events

    The rest of [scan-account-service/internal/store/postgres.go]: the events
    seen on chain and their reorganisation candidates, the outbox, the block
    hashes and the outgoing transactions that were not found. *)
From S2P Require Import Prelude GoStrings GoNumbers ScanStore.

(** ** Events seen on chain *)

(** One transaction: insert a new event, or update the one that is there when
    its status changed or its confirmations grew. *)
Definition UpsertSeenEvent (now : Z) (w : WatchAddress) (txHash : string) (eventIndex : Z) (status : string)
    (confirmations : Z) (amount fromAddress toAddress : string) (s : store) : result (SeenEventChange * store) :=
  let k := seenKey w txHash eventIndex in
  match st_seen s !! k with
  | None =>
      Ok ({| sc_Notify := true; sc_Inserted := true; sc_OldStatus := ""; sc_NewStatus := status;
             sc_OldConfirms := 0; sc_NewConfirms := confirmations |},
          s <| st_seen := <[k := {|
            se_status := status; se_confirmations := confirmations; se_amount := amount; se_from_address := fromAddress;
            se_to_address := toAddress; se_not_found_count := 0; se_created_at := now; se_updated_at := now |}]> (st_seen s) |>)
  | Some old =>
      let shouldNotify := bool_decide (ToUpper status ≠ ToUpper (se_status old) ∨ se_confirmations old < confirmations) in
      if negb shouldNotify then
        Ok ({| sc_Notify := false; sc_Inserted := false; sc_OldStatus := se_status old; sc_NewStatus := se_status old;
               sc_OldConfirms := se_confirmations old; sc_NewConfirms := se_confirmations old |}, s)
      else
        Ok ({| sc_Notify := true; sc_Inserted := false; sc_OldStatus := se_status old; sc_NewStatus := status;
               sc_OldConfirms := se_confirmations old; sc_NewConfirms := confirmations |},
            s <| st_seen := <[k := {|
              se_status := status; se_confirmations := confirmations; se_amount := amount; se_from_address := fromAddress;
              se_to_address := toAddress; se_not_found_count := 0; se_created_at := se_created_at old;
              se_updated_at := now |}]> (st_seen s) |>)
  end.

Record ReorgCandidate := {
  rc_watch : WatchAddress;
  rc_TxHash : string;
  rc_EventIndex : Z;
  rc_Status : string;
  rc_Confirmations : Z;
  rc_Amount : string;
  rc_FromAddress : string;
  rc_ToAddress : string;
  rc_NotFoundCount : Z;
}.

Definition candidateKey (c : ReorgCandidate) : seen_key := seenKey (rc_watch c) (rc_TxHash c) (rc_EventIndex c).

(** [LEFT JOIN scan_watch_addresses]: the watch of the event, active or not;
    the key is unique. *)
Definition watchOf (k : watch_key) (s : store) : option WatchAddress :=
  wr_watch <$> List.find (λ r, bool_decide (watchKey (wr_watch r) = k)) (st_watches s).

(** The candidate's columns, with the defaults of [COALESCE]. *)
Definition scanCandidate (s : store) (e : seen_key * seen_row) : ReorgCandidate :=
  let '((tenant, account, model, chain, coin, network, address), txHash, eventIndex) := e.1 in
  let sw := watchOf (e.1.1.1) s in {|
  rc_watch := {|
    wt_TenantID := tenant; wt_AccountID := account; wt_Model := model; wt_Chain := chain; wt_Coin := coin;
    wt_Network := network; wt_Address := address;
    wt_ContractAddress := from_option wt_ContractAddress "" sw;
    wt_MinConfirmations := from_option wt_MinConfirmations 1 sw;
    wt_UnlockConfirmations := from_option wt_UnlockConfirmations 1 sw;
    wt_TreasuryAccountID := from_option wt_TreasuryAccountID "treasury-main" sw;
    wt_ColdAccountID := from_option wt_ColdAccountID "" sw;
    wt_AutoSweep := from_option wt_AutoSweep false sw;
    wt_SweepThreshold := from_option wt_SweepThreshold "0" sw;
    wt_HotBalanceCap := from_option wt_HotBalanceCap "0" sw |};
  rc_TxHash := txHash; rc_EventIndex := eventIndex; rc_Status := se_status e.2; rc_Confirmations := se_confirmations e.2;
  rc_Amount := se_amount e.2; rc_FromAddress := se_from_address e.2; rc_ToAddress := se_to_address e.2;
  rc_NotFoundCount := se_not_found_count e.2 |}.

(** The confirmations up to which an event may still be reorganised away. *)
Definition reorgDepth (reorgWindow : Z) (sw : option WatchAddress) : Z :=
  let least := Z.max (from_option wt_MinConfirmations 1 sw) 1 in
  Z.max (from_option wt_UnlockConfirmations (least + reorgWindow) sw) least.

(** [ORDER BY se.updated_at DESC, se.created_at DESC] *)
Definition fresher (a b : seen_key * seen_row) : Prop :=
  se_updated_at b.2 < se_updated_at a.2
  ∨ se_updated_at b.2 = se_updated_at a.2 ∧ se_created_at b.2 ≤ se_created_at a.2.
#[export] Instance fresher_dec a b : Decision (fresher a b).
Proof. unfold fresher. apply _. Defined.

Section events.
Context `{SqlText}.

Definition ListReorgCandidates (reorgWindow limit : Z) (allowedChains : list string) (s : store)
    : result (list ReorgCandidate) :=
  let reorgWindow := if decide (reorgWindow ≤ 0) then 6 else reorgWindow in
  let limit := if decide (limit ≤ 0) then 500 else limit in
  let rows := filter (λ e : seen_key * seen_row,
    (sql_upper (se_status e.2) ∉ ["REORGED"; "REVERTED"])
    ∧ (0 < se_not_found_count e.2 ∨ se_confirmations e.2 < reorgDepth reorgWindow (watchOf (e.1.1.1) s))
    ∧ chain_allowed allowedChains (wt_Chain (rc_watch (scanCandidate s e)))) (map_to_list (st_seen s)) in
  Ok (scanCandidate s <$> take (Z.to_nat limit) (merge_sort fresher rows)).

(** [UPDATE ... RETURNING not_found_count]; no row is [sql.ErrNoRows]. *)
Definition IncrementSeenEventNotFound (now : Z) (c : ReorgCandidate) (s : store) : result (Z * store) :=
  match st_seen s !! candidateKey c with
  | None => Err ErrNoRows
  | Some r =>
      let count := se_not_found_count r + 1 in
      Ok (count, s <| st_seen := <[candidateKey c :=
        r <| se_not_found_count := count |> <| se_updated_at := now |>]> (st_seen s) |>)
  end.

Definition ResetSeenEventNotFound (now : Z) (c : ReorgCandidate) (s : store) : result store :=
  Ok (s <| st_seen ::= alter (λ r, r <| se_not_found_count := 0 |> <| se_updated_at := now |>) (candidateKey c) |>).

(** ** The outbox *)

(** The checks of both inserts. A payload is never the empty string. *)
Definition checkOutboxEvent (ev : OutboxEvent) : result () :=
  if decide (TrimSpace (ev_EventKey ev) = "" ∨ TrimSpace (ev_EventType ev) = "") then
    Err (Errorf "event_key/event_type are required")
  else if decide (TrimSpace (ev_TenantID ev) = "" ∨ TrimSpace (ev_Chain ev) = "" ∨ TrimSpace (ev_Network ev) = "") then
    Err (Errorf "tenant_id/chain/network are required")
  else Ok ().

(** The row an insert or a conflicting update writes. *)
Definition outboxRow (now id : Z) (ev : OutboxEvent) : outbox_row := {|
  ox_id := id; ox_tenant_id := ev_TenantID ev; ox_chain := ev_Chain ev; ox_network := ev_Network ev;
  ox_event_type := ev_EventType ev; ox_payload := ev_Payload ev; ox_status := "PENDING"; ox_attempt_count := 0;
  ox_max_attempts := if decide (ev_MaxAttempts ev ≤ 0) then 12 else ev_MaxAttempts ev;
  ox_next_retry_at := now; ox_last_error := "" |}.

(** [INSERT ... ON CONFLICT (event_key) DO UPDATE ... WHERE replace]: a
    conflict uses up an id of the sequence. *)
Definition insertOutbox (replace : outbox_row → Prop) `{∀ r, Decision (replace r)} (now : Z) (ev : OutboxEvent) (s : store)
    : store :=
  let id := st_next_outbox_id s in
  let s := s <| st_next_outbox_id ::= Z.succ |> in
  match st_outbox s !! ev_EventKey ev with
  | None => s <| st_outbox := <[ev_EventKey ev := outboxRow now id ev]> (st_outbox s) |>
  | Some old =>
      if decide (replace old) then s <| st_outbox := <[ev_EventKey ev := outboxRow now (ox_id old) ev]> (st_outbox s) |>
      else s
  end.

Definition UpsertOutboxEvent (now : Z) (ev : OutboxEvent) (s : store) : result store :=
  _ ← checkOutboxEvent ev;
  Ok (insertOutbox (λ r, ox_status r ∉ ["DONE"; "FAILED"]) now ev s).

Definition InsertOutboxEventIfAbsent (now : Z) (ev : OutboxEvent) (s : store) : result store :=
  _ ← checkOutboxEvent ev;
  Ok (insertOutbox (λ r, ox_status r = "FAILED") now ev s).

Definition scanOutboxEvent (e : string * outbox_row) : OutboxEvent := {|
  ev_ID := ox_id e.2; ev_EventKey := e.1; ev_TenantID := ox_tenant_id e.2; ev_Chain := ox_chain e.2;
  ev_Network := ox_network e.2; ev_EventType := ox_event_type e.2; ev_Payload := ox_payload e.2;
  ev_Attempt := ox_attempt_count e.2; ev_MaxAttempts := ox_max_attempts e.2 |}.

Definition outbox_le (a b : string * outbox_row) : Prop := ox_id a.2 ≤ ox_id b.2.
#[export] Instance outbox_le_dec a b : Decision (outbox_le a b).
Proof. unfold outbox_le. apply _. Defined.

(** [FOR UPDATE SKIP LOCKED]: rows another statement holds are skipped; the
    statement's own locks end with it. *)
Definition ListPendingOutboxEvents (now : Z) (locked : string → bool) (limit : Z) (allowedChains : list string) (s : store)
    : result (list OutboxEvent) :=
  let limit := if decide (limit ≤ 0) then 200 else limit in
  let rows := filter (λ e : string * outbox_row, ox_status e.2 = "PENDING" ∧ ox_next_retry_at e.2 ≤ now
    ∧ chain_allowed allowedChains (ox_chain e.2) ∧ locked e.1 = false) (map_to_list (st_outbox s)) in
  Ok (scanOutboxEvent <$> take (Z.to_nat limit) (merge_sort outbox_le rows)).

(** [UPDATE scan_event_outbox SET ... WHERE id = id] *)
Definition updateOutbox (id : Z) (f : outbox_row → outbox_row) (s : store) : store :=
  s <| st_outbox ::= fmap (λ r, if decide (ox_id r = id) then f r else r) |>.

Definition MarkOutboxEventDone (id : Z) (s : store) : result store :=
  Ok (updateOutbox id (λ r, r <| ox_status := "DONE" |>) s).

(** In seconds. *)
Definition outboxRetryBackoff (eventType : string) (attempt : Z) : Z :=
  let t := ToUpper (TrimSpace eventType) in
  let '(base, maxBackoff) :=
    if decide (t = "DEPOSIT_NOTIFY") then (2, 60)
    else if decide (t = "PROJECT_DEPOSIT_NOTIFY") then (5, 300)
    else if decide (t = "SWEEP_TRIGGER") then (15, 600)
    else if decide (t = "SWEEP_RUN") then (30, 1800)
    else (2, 300) in
  let attempt := if decide (attempt < 1) then 1 else attempt in
  Z.min (base * 2 ^ Z.min (attempt - 1) 6) maxBackoff.

Definition MarkOutboxEventRetry (now : Z) (ev : OutboxEvent) (reason : string) (s : store) : result store :=
  let nextAttempt := ev_Attempt ev + 1 in
  let maxAttempts := if decide (ev_MaxAttempts ev ≤ 0) then 12 else ev_MaxAttempts ev in
  let status := if decide (maxAttempts ≤ nextAttempt) then "FAILED" else "PENDING" in
  let backoff := outboxRetryBackoff (TrimSpace (ev_EventType ev)) nextAttempt in
  Ok (updateOutbox (ev_ID ev) (λ r,
    r <| ox_status := status |> <| ox_attempt_count := nextAttempt |> <| ox_last_error := TrimSpace reason |>
      <| ox_next_retry_at := now + backoff |>) s).

(** ** Block hashes *)

Definition blockKey (chain network : string) (blockNumber : Z) : string * string * Z :=
  (ToLower (TrimSpace chain), ToLower (TrimSpace network), blockNumber).

Definition UpsertBlockHash (chain network : string) (blockNumber : Z) (blockHash parentHash : string) (s : store) : result store :=
  Ok (s <| st_blocks ::= <[blockKey chain network blockNumber :=
    {| bl_hash := ToLower (TrimSpace blockHash); bl_parent := ToLower (TrimSpace parentHash) |}]> |>).

Definition GetBlockHash (chain network : string) (blockNumber : Z) (s : store) : result (option block_row) :=
  Ok (st_blocks s !! blockKey chain network blockNumber).

Definition PruneBlockHashes (chain network : string) (keepAfter : Z) (s : store) : result store :=
  Ok (s <| st_blocks ::= filter (λ e : (string * string * Z) * block_row,
    ¬ (e.1.1.1 = ToLower (TrimSpace chain) ∧ e.1.1.2 = ToLower (TrimSpace network) ∧ e.1.2 < keepAfter)) |>).

(** ** Outgoing transactions that were not found *)

Record OutgoingNotFoundState := { nf_NotFoundCount : Z; nf_FirstNotFoundAt : Z }.

Definition outgoingKey (kind tenantID orderID txHash : string) : string * string * string * string :=
  (ToLower (TrimSpace kind), tenantID, orderID, TrimSpace txHash).

Definition IncrementOutgoingNotFound (now : Z) (kind tenantID orderID chain network txHash : string) (s : store)
    : result (OutgoingNotFoundState * store) :=
  let k := outgoingKey kind tenantID orderID txHash in
  let '(count, first) := match st_outgoing s !! k with
                         | None => (1, now)
                         | Some r => (og_not_found_count r + 1, og_first_not_found_at r)
                         end in
  Ok ({| nf_NotFoundCount := count; nf_FirstNotFoundAt := first |},
      s <| st_outgoing := <[k := {|
        og_chain := ToLower (TrimSpace chain); og_network := ToLower (TrimSpace network);
        og_not_found_count := count; og_first_not_found_at := first |}]> (st_outgoing s) |>).

Definition ClearOutgoingNotFound (kind tenantID orderID txHash : string) (s : store) : result store :=
  Ok (s <| st_outgoing ::= delete (outgoingKey kind tenantID orderID txHash) |>).
End events.
