(* ===== verification/Scanner.v ===== *)
(** * The scanner of account chains: deposits and reorganisations

    [scan-account-service/internal/worker/scanner.go], [scanner_deposit.go] and
    [scanner_reorg.go].  The scanner is a state-passing program over its tables
    and what is outside: the database connection, the chain gateway, wallet-core
    and the project's own service ([ScanOutside]).  Watches and groups are
    scanned one after the other, in the order they are listed in; the code
    starts a goroutine for each.  Log lines are left out. *)
From S2P Require Import Prelude GoStrings GoNumbers ScanStore ScanEvents.

(** ** Data *)

Record IncomingTransfer := {
  it_TxHash : string;
  it_FromAddress : string;
  it_ToAddress : string;
  it_Amount : string;
  it_Confirmations : Z;
  it_Index : Z;
  it_Status : string;
}.
Record BlockMeta := { bm_Number : Z; bm_Hash : string; bm_ParentHash : string }.
Record IncomingPage := { ip_Items : list IncomingTransfer; ip_NextCursor : string; ip_Blocks : list BlockMeta }.
Record TxFinality := { tf_Found : bool; tf_Status : string; tf_Confirmations : Z }.

(** What the scanner asks of wallet-core. *)
Record OnchainNotify := {
  on_TenantID : string;
  on_OrderID : string;
  on_TxHash : string;
  on_Status : string;
  on_Reason : string;
  on_Confirmations : Z;
  on_RequiredConfs : Z;
}.
Inductive wallet_call : Type :=
  | DepositNotifyCall (p : DepositOutboxPayload)
  | SweepRunCall (p : SweepOutboxPayload)
  | WithdrawOnchainCall (n : OnchainNotify)
  | SweepOnchainCall (n : OnchainNotify)
  | TreasuryOnchainCall (n : OnchainNotify).

Record ProjectDepositNotify := {
  pn_BizID : string;
  pn_ChainID : Z;
  pn_TxHash : string;
  pn_TxIndex : Z;
  pn_Address : string;
  pn_Asset : string;
  pn_Amount : string;
}.

(** A transaction of wallet-core that is waiting for confirmations; a sweep and
    a treasury transfer have no attempt status. *)
Record PendingOutgoing := {
  po_TenantID : string;
  po_OrderID : string;
  po_Chain : string;
  po_Network : string;
  po_TxHash : string;
  po_AttemptStatus : string;
  po_RequiredConfs : Z;
  po_BroadcastedAt : Z;
}.

Record ScannerConfig := {
  cf_AccountPageSize : Z;
  cf_AccountMaxPages : Z;
  cf_AccountMaxEmptyPages : Z;
  cf_AccountCursorStallGuard : Z;
  cf_WatchLimit : Z;
  cf_ReorgWindow : Z;
  cf_ReorgCandidateLimit : Z;
  cf_ReorgNotFoundThreshold : Z;
  cf_OutgoingNotFoundThreshold : Z;
  cf_OutgoingNotFoundGrace : Z;
  cf_EnableAccountScan : bool;
  cf_EnableUTXOScan : bool;
  cf_EnableReorgReconcile : bool;
  cf_EnableOutboxDispatch : bool;
  cf_EnableOutgoingScan : bool;
  cf_SweepMinBalance : string;
  cf_ProjectNotify : bool;
  cf_ProjectChainIDMap : gmap string Z;
  cf_ProjectDefaultChainID : Z;
  cf_AllowedChains : list string;
}.

(** The defaults [Run] fills in. *)
Definition runDefaults (c : ScannerConfig) : ScannerConfig :=
  let or (v d : Z) := if decide (v ≤ 0) then d else v in
  let watchLimit := or (cf_WatchLimit c) 500 in {|
  cf_AccountPageSize := or (cf_AccountPageSize c) 50;
  cf_AccountMaxPages := or (cf_AccountMaxPages c) 2;
  cf_AccountMaxEmptyPages := or (cf_AccountMaxEmptyPages c) 2;
  cf_AccountCursorStallGuard := or (cf_AccountCursorStallGuard c) 1;
  cf_WatchLimit := watchLimit;
  cf_ReorgWindow := or (cf_ReorgWindow c) 6;
  cf_ReorgCandidateLimit := or (cf_ReorgCandidateLimit c) watchLimit;
  cf_ReorgNotFoundThreshold := or (cf_ReorgNotFoundThreshold c) 3;
  cf_OutgoingNotFoundThreshold := or (cf_OutgoingNotFoundThreshold c) 3;
  cf_OutgoingNotFoundGrace := or (cf_OutgoingNotFoundGrace c) 45000000000;
  cf_EnableAccountScan := cf_EnableAccountScan c; cf_EnableUTXOScan := cf_EnableUTXOScan c;
  cf_EnableReorgReconcile := cf_EnableReorgReconcile c; cf_EnableOutboxDispatch := cf_EnableOutboxDispatch c;
  cf_EnableOutgoingScan := cf_EnableOutgoingScan c; cf_SweepMinBalance := cf_SweepMinBalance c;
  cf_ProjectNotify := cf_ProjectNotify c; cf_ProjectChainIDMap := cf_ProjectChainIDMap c;
  cf_ProjectDefaultChainID := cf_ProjectDefaultChainID c; cf_AllowedChains := cf_AllowedChains c |}.

(** ** The world of the scanner *)

Class ScanOutside (C : Type) := {
  so_db : C → result Z * C;
  so_locked : C → string → bool;
  so_clock : C → Z;
  so_age_text : Z → string;
  so_incoming : string → string → string → string → string → string → Z → string → C → result IncomingPage * C;
  so_finality : string → string → string → string → C → result TxFinality * C;
  so_balance : string → string → string → string → C → result string * C;
  so_wallet : string → wallet_call → C → result () * C;
  so_project : string → ProjectDepositNotify → C → result () * C;
  so_withdraws : Z → C → result (list PendingOutgoing) * C;
  so_sweeps : Z → C → result (list PendingOutgoing) * C;
  so_transfers : Z → C → result (list PendingOutgoing) * C;
}.

(** [sw_sent] is a history: the calls wallet-core was sent and its answers, the
    last first. *)
Record sworld (C : Type) := SWorld { sw_store : store; sw_out : C; sw_sent : list (wallet_call * result ()) }.
Arguments SWorld {C} sw_store sw_out sw_sent.
Arguments sw_store {C} s.
Arguments sw_out {C} s.
Arguments sw_sent {C} s.

Definition scan (C A : Type) : Type := sworld C → A * sworld C.
#[export] Instance scan_ret {C} : MRet (scan C) := λ A a w, (a, w).
#[export] Instance scan_bind {C} : MBind (scan C) := λ A B f p w, let '(a, w) := p w in f a w.

(** [x, err := p; if err != nil { return err }] *)
Definition scan_ok {C A B} (p : scan C (result A)) (f : A → scan C (result B)) : scan C (result B) :=
  r ← p; match r with Ok a => f a | Err e => mret (Err e) end.
Notation "x ⟵ p ; q" := (scan_ok p (λ x, q))
  (at level 20, p at level 100, q at level 200, right associativity).

(** [for _, x := range l { if err := f(x); err != nil { return err } }] *)
Fixpoint forEach {C A} (l : list A) (f : A → scan C (result ())) : scan C (result ()) :=
  match l with [] => mret (Ok ()) | x :: l => _ ⟵ f x; forEach l f end.

(** The same, going on after an error. *)
Fixpoint forAll {C A B} (l : list A) (f : A → scan C B) : scan C () :=
  match l with [] => mret () | x :: l => _ ← f x; forAll l f end.

Section scanner.
Context `{SqlText} {C : Type} `{ScanOutside C} (cfg : ScannerConfig).

(** A statement, or a transaction: the database gives it a [NOW()], or fails. *)
Definition db {A} (op : Z → store → result (A * store)) : scan C (result A) := λ w,
  let '(r, c) := so_db (sw_out w) in
  match r with
  | Err e => (Err e, SWorld (sw_store w) c (sw_sent w))
  | Ok now =>
      match op now (sw_store w) with
      | Ok (a, s) => (Ok a, SWorld s c (sw_sent w))
      | Err e => (Err e, SWorld (sw_store w) c (sw_sent w))
      end
  end.

Definition exec_db (op : Z → store → result store) : scan C (result ()) :=
  db (λ now s, s' ← op now s; Ok ((), s')).
Definition query {A} (op : store → result A) : scan C (result A) := db (λ _ s, a ← op s; Ok (a, s)).

Definition outside {A} (f : C → A * C) : scan C A := λ w,
  let '(a, c) := f (sw_out w) in (a, SWorld (sw_store w) c (sw_sent w)).

(** ** Deposits *)

(** The confirmations a watch asks for. *)
Definition minConfOf (w : WatchAddress) : Z := if decide (wt_MinConfirmations w ≤ 0) then 1 else wt_MinConfirmations w.
Definition unlockConfOf (w : WatchAddress) : Z :=
  if decide (0 < wt_UnlockConfirmations w ∧ wt_UnlockConfirmations w < minConfOf w) then minConfOf w
  else wt_UnlockConfirmations w.

Definition depositPayload (w : WatchAddress) (txHash : string) (eventIndex : Z) (amount fromAddr toAddr : string)
    (confirmations requiredConfirmations unlockConfirmations : Z) (scanStatus : string) : DepositOutboxPayload :=
  let treasury := fallback (wt_TreasuryAccountID w) "treasury-main" in
  let other := bool_decide (TrimSpace (wt_AccountID w) ≠ TrimSpace treasury) in {|
  dp_TenantID := wt_TenantID w; dp_AccountID := wt_AccountID w;
  dp_OrderID := depositOrderID txHash eventIndex (wt_AccountID w) (wt_Network w);
  dp_EventIndex := eventIndex; dp_Chain := wt_Chain w; dp_Network := wt_Network w; dp_Coin := wt_Coin w;
  dp_Amount := amount; dp_TxHash := txHash; dp_FromAddress := fromAddr; dp_ToAddress := toAddr;
  dp_WatchAddress := wt_Address w; dp_TreasuryID := treasury; dp_ColdAccountID := TrimSpace (wt_ColdAccountID w);
  dp_AutoSweep := wt_AutoSweep w; dp_SweepThreshold := TrimSpace (wt_SweepThreshold w);
  dp_HotBalanceCap := TrimSpace (wt_HotBalanceCap w); dp_Confirmations := confirmations;
  dp_RequiredConfs := requiredConfirmations; dp_UnlockConfs := unlockConfirmations; dp_ScanStatus := scanStatus;
  dp_Status := mapDepositLedgerStatus scanStatus; dp_ProjectNotify := other; dp_SweepTrigger := wt_AutoSweep w && other |}.

(** An event of the outbox before it has a row. *)
Definition newEvent (key tenantID chain network eventType : string) (p : payload) : OutboxEvent := {|
  ev_ID := 0; ev_EventKey := key; ev_TenantID := tenantID; ev_Chain := ToLower (TrimSpace chain);
  ev_Network := ToLower (TrimSpace network); ev_EventType := eventType; ev_Payload := p; ev_Attempt := 0;
  ev_MaxAttempts := 24 |}.

Definition enqueueDepositEvent (w : WatchAddress) (txHash : string) (eventIndex : Z) (amount fromAddr toAddr : string)
    (confirmations requiredConfirmations unlockConfirmations : Z) (scanStatus : string) : scan C (result ()) :=
  let p := depositPayload w txHash eventIndex amount fromAddr toAddr confirmations requiredConfirmations
             unlockConfirmations scanStatus in
  exec_db (λ now, UpsertOutboxEvent now
    (newEvent (depositEventKey (wt_TenantID w) (wt_Chain w) (wt_Network w) txHash eventIndex)
       (wt_TenantID w) (wt_Chain w) (wt_Network w) "DEPOSIT_NOTIFY" (DepositPayload p))).

(** A transfer to a watch: it is recorded, and announced when it changed.
    [true] when it was announced. *)
Definition recordTransfer (w : WatchAddress) (tx : IncomingTransfer) (idx : Z) : scan C (result bool) :=
  let minConf := minConfOf w in
  let unlockConf := unlockConfOf w in
  let eventIdx := if decide (it_Index tx ≤ 0) then idx else it_Index tx in
  let status := resolveDepositScanStatus (it_Status tx) (it_Confirmations tx) minConf unlockConf (cf_ReorgWindow cfg) in
  let toAddr := fallback (it_ToAddress tx) (wt_Address w) in
  change ⟵ db (λ now, UpsertSeenEvent now w (it_TxHash tx) eventIdx status (it_Confirmations tx) (it_Amount tx)
                         (it_FromAddress tx) toAddr);
  if negb (sc_Notify change) then mret (Ok false)
  else
    _ ⟵ enqueueDepositEvent w (it_TxHash tx) eventIdx (it_Amount tx) (it_FromAddress tx) toAddr (it_Confirmations tx)
          minConf unlockConf status;
    mret (Ok true).

(** *** One watch *)

(** The transfers of a page, with their positions, and the last one announced. *)
Fixpoint scanItems (w : WatchAddress) (managedAddrs : gset string) (txs : list IncomingTransfer) (idx : Z) (lastTx : string)
    : scan C (result string) :=
  match txs with
  | [] => mret (Ok lastTx)
  | tx :: txs =>
      if shouldSkipInternalTransfer (it_FromAddress tx) managedAddrs then scanItems w managedAddrs txs (idx + 1) lastTx
      else
        notified ⟵ recordTransfer w tx idx;
        scanItems w managedAddrs txs (idx + 1) (if notified then it_TxHash tx else lastTx)
  end.

(** At most [n] pages from [cursor]. *)
Fixpoint scanPages (n : nat) (w : WatchAddress) (managedAddrs : gset string) (guard : paginationGuard)
    (cursor lastTx : string) : scan C (result (string * string)) :=
  match n with
  | O => mret (Ok (cursor, lastTx))
  | S n =>
      page ⟵ outside (so_incoming (wt_Model w) (wt_Chain w) (wt_Coin w) (wt_Network w) (wt_Address w) cursor
                        (cf_AccountPageSize cfg) (wt_ContractAddress w));
      lastTx ⟵ scanItems w managedAddrs (ip_Items page) 0 lastTx;
      let nextCursor := ip_NextCursor page in
      let '(guard, o) := Observe guard cursor nextCursor (Z.of_nat (List.length (ip_Items page))) in
      let cursor := if decide (ob_reason o = "max_empty_pages") then nextCursor else cursor in
      if ob_stop o then mret (Ok (cursor, lastTx))
      else if negb (ob_advance o) then mret (Ok (cursor, lastTx))
      else scanPages n w managedAddrs guard nextCursor lastTx
  end.

(** [managedAddrs = nil] is [None]. *)
Definition scanOneWatch (w : WatchAddress) (managedAddrs : option (gset string)) : scan C (result ()) :=
  if decide (TrimSpace (wt_Network w) = "") then mret (Err (Errorf "watch network is required"))
  else if isEVMChain (wt_Chain w) && negb (isNativeEVMAsset (wt_Chain w) (wt_Coin w))
          && bool_decide (TrimSpace (wt_ContractAddress w) = "") then mret (Ok ())
  else
  cursor ⟵ query (GetCheckpoint w);
  managed ⟵ match managedAddrs with
             | Some managed => mret (Ok managed)
             | None => query (ListManagedAddresses (wt_Model w) (wt_Chain w) (wt_Network w))
             end;
  let maxPages := if EqualFold (TrimSpace (wt_Model w)) "utxo" then 1 else cf_AccountMaxPages cfg in
  reached ⟵ scanPages (Z.to_nat maxPages) w managed
               (newPaginationGuard (cf_AccountMaxEmptyPages cfg) (cf_AccountCursorStallGuard cfg)) cursor "";
  exec_db (λ now, UpsertCheckpoint now w (fst reached) (snd reached)).

(** *** A group of watches of one coin *)

Record watchGroup := {
  wg_Model : string;
  wg_Chain : string;
  wg_Coin : string;
  wg_Network : string;
  wg_Watches : list WatchAddress;
}.

(** The transfers of a page to the watches of the group. *)
Fixpoint groupItems (watches : list WatchAddress) (managedAddrs : gset string) (txs : list IncomingTransfer) (idx : Z)
    : scan C (result ()) :=
  match txs with
  | [] => mret (Ok ())
  | tx :: txs =>
      _ ⟵ (if shouldSkipInternalTransfer (it_FromAddress tx) managedAddrs then mret (Ok ())
            else
              let toAddr := ToLower (TrimSpace (it_ToAddress tx)) in
              if decide (toAddr = "") then mret (Ok ())
              else forEach (filter (λ w, ToLower (TrimSpace (wt_Address w)) = toAddr) watches)
                     (λ w, _ ⟵ recordTransfer w tx idx; mret (Ok ())));
      groupItems watches managedAddrs txs (idx + 1)
  end.

(** The parents the new blocks name are compared with the stored hashes, for
    the log; errors are ignored. *)
Definition recordBlocks (chain network : string) (blocks : list BlockMeta) : scan C () :=
  forAll blocks (λ bm,
    if decide (bm_Hash bm = "") then mret (Ok ())
    else
      _ ← query (GetBlockHash chain network (bm_Number bm - 1));
      exec_db (λ _, UpsertBlockHash chain network (bm_Number bm) (bm_Hash bm) (bm_ParentHash bm))).

(** Pages from [currentCursor]; the result is the checkpoint and the last
    transaction. *)
Fixpoint groupPages (n : nat) (group : watchGroup) (managedAddrs : gset string) (guard : paginationGuard)
    (currentCursor nextCheckpoint lastTx : string) : scan C (result (string * string)) :=
  match n with
  | O => mret (Ok (nextCheckpoint, lastTx))
  | S n =>
      page ⟵ outside (so_incoming (wg_Model group) (wg_Chain group) (wg_Coin group) (wg_Network group) "" currentCursor
                        (cf_AccountPageSize cfg) "");
      let nextCursor := ip_NextCursor page in
      let lastTx := from_option (λ tx, TrimSpace (it_TxHash tx)) lastTx (last (ip_Items page)) in
      _ ← recordBlocks (wg_Chain group) (wg_Network group) (ip_Blocks page);
      _ ⟵ groupItems (wg_Watches group) managedAddrs (ip_Items page) 0;
      let '(guard, o) := Observe guard currentCursor nextCursor (Z.of_nat (List.length (ip_Items page))) in
      let nextCheckpoint :=
        if decide (ob_advance o = true ∨ ob_reason o = "max_empty_pages") then nextCursor else nextCheckpoint in
      if ob_stop o then mret (Ok (nextCheckpoint, lastTx))
      else if negb (ob_advance o) then mret (Ok (nextCheckpoint, lastTx))
      else groupPages n group managedAddrs guard nextCursor nextCheckpoint lastTx
  end.

(** [strconv.ParseInt(s, 10, 64)] *)
Definition parseInt64 (s : string) : option Z :=
  match SetString10 s with Some v => if decide (in_int64 v) then Some v else None | None => None end.

Definition scanOneAccountGroup (group : watchGroup) : scan C (result ()) :=
  if decide (wg_Watches group = []) then mret (Ok ())
  else if decide (TrimSpace (wg_Network group) = "") then mret (Err (Errorf "group network is required"))
  else
  chainCursor ⟵ query (GetChainCheckpoint (wg_Model group) (wg_Chain group) (wg_Coin group) (wg_Network group));
  let chainCursor := fst chainCursor in
  if decide (filter (λ w, ToLower (TrimSpace (wt_Address w)) ≠ "") (wg_Watches group) = []) then mret (Ok ())
  else
  managed ⟵ query (ListManagedAddresses (wg_Model group) (wg_Chain group) (wg_Network group));
  let maxPages := if decide (cf_AccountMaxPages cfg ≤ 0) then 1 else cf_AccountMaxPages cfg in
  reached ⟵ groupPages (Z.to_nat maxPages) group managed
               (newPaginationGuard (cf_AccountMaxEmptyPages cfg) (cf_AccountCursorStallGuard cfg))
               chainCursor chainCursor "";
  let '(nextCheckpoint, lastTx) := reached in
  _ ⟵ exec_db (λ now, UpsertChainCheckpoint now (wg_Model group) (wg_Chain group) (wg_Coin group) (wg_Network group)
                         nextCheckpoint lastTx);
  _ ← forAll (wg_Watches group) (λ w, exec_db (λ now, UpsertCheckpoint now w nextCheckpoint lastTx));
  match parseInt64 nextCheckpoint with
  | Some cursorNum =>
      if decide (512 < cursorNum) then
        _ ← exec_db (λ _, PruneBlockHashes (wg_Chain group) (wg_Network group) (cursorNum - 512)); mret (Ok ())
      else mret (Ok ())
  | None => mret (Ok ())
  end.

(** *** A model *)

Definition groupKey (w : WatchAddress) : string * string * string * string :=
  (ToLower (TrimSpace (wt_Model w)), ToLower (TrimSpace (wt_Chain w)), ToUpper (TrimSpace (wt_Coin w)),
   ToLower (TrimSpace (wt_Network w))).

(** The groups in the order their first watches come in. *)
Fixpoint groupWatches (watches : list WatchAddress) (groups : list watchGroup) : list watchGroup :=
  match watches with
  | [] => groups
  | w :: watches =>
      let '(model, chain, coin, network) := groupKey w in
      let is_group g := bool_decide ((wg_Model g, wg_Chain g, wg_Coin g, wg_Network g) = groupKey w) in
      groupWatches watches
        (if existsb is_group groups then
           (λ g, if is_group g then {| wg_Model := wg_Model g; wg_Chain := wg_Chain g; wg_Coin := wg_Coin g;
                                       wg_Network := wg_Network g; wg_Watches := wg_Watches g ++ [w] |} else g) <$> groups
         else groups ++ [{| wg_Model := model; wg_Chain := chain; wg_Coin := coin; wg_Network := network; wg_Watches := [w] |}])
  end.

Definition scanWatchesIndividuallyWithManaged (watches : list WatchAddress) (managedAddrs : option (gset string)) : scan C () :=
  forAll watches (λ w, scanOneWatch w managedAddrs).

Definition scanAccountModel (watches : list WatchAddress) : scan C () :=
  forAll (groupWatches watches []) (λ group,
    if supportsChainWideAccountScan (wg_Chain group) (wg_Coin group) then
      _ ← scanOneAccountGroup group; mret ()
    else
      managed ← query (ListManagedAddresses (wg_Model group) (wg_Chain group) (wg_Network group));
      match managed with
      | Err _ => mret ()
      | Ok managed => scanWatchesIndividuallyWithManaged (wg_Watches group) (Some managed)
      end).

Definition scanModel (model : string) : scan C (result ()) :=
  watches ⟵ query (ListWatchAddresses model (cf_WatchLimit cfg) (cf_AllowedChains cfg));
  if decide (watches = []) then mret (Ok ())
  else if EqualFold (TrimSpace model) "account" then _ ← scanAccountModel watches; mret (Ok ())
  else _ ← scanWatchesIndividuallyWithManaged watches None; mret (Ok ()).

(** ** Reorganisations *)

Definition buildWatchFromCandidate (c : ReorgCandidate) (minConf unlockConf : Z) : WatchAddress :=
  let w := rc_watch c in {|
  wt_TenantID := wt_TenantID w; wt_AccountID := wt_AccountID w; wt_Model := wt_Model w; wt_Chain := wt_Chain w;
  wt_Coin := wt_Coin w; wt_Network := wt_Network w; wt_Address := wt_Address w; wt_ContractAddress := wt_ContractAddress w;
  wt_MinConfirmations := minConf; wt_UnlockConfirmations := unlockConf; wt_AutoSweep := wt_AutoSweep w;
  wt_TreasuryAccountID := fallback (wt_TreasuryAccountID w) "treasury-main";
  wt_ColdAccountID := TrimSpace (wt_ColdAccountID w); wt_SweepThreshold := wt_SweepThreshold w;
  wt_HotBalanceCap := wt_HotBalanceCap w |}.

(** The candidate's next status and confirmations; [None] leaves it. *)
Definition candidateState (c : ReorgCandidate) (minConf unlockConf : Z) (finality : TxFinality)
    : scan C (result (option (string * Z))) :=
  if negb (tf_Found finality) then
    miss ⟵ db (λ now, IncrementSeenEventNotFound now c);
    mret (Ok (if decide (miss < cf_ReorgNotFoundThreshold cfg) then None else Some ("REORGED", 0)))
  else
    let nextStatus := resolveDepositScanStatus (tf_Status finality) (tf_Confirmations finality) minConf unlockConf
                        (cf_ReorgWindow cfg) in
    _ ⟵ (if decide (0 < rc_NotFoundCount c) then exec_db (λ now, ResetSeenEventNotFound now c) else mret (Ok ()));
    mret (Ok (Some (nextStatus, tf_Confirmations finality))).

(** An error leaves the candidate and goes on with the next one. *)
Definition reconcileCandidate (c : ReorgCandidate) : scan C (result ()) :=
  let w := rc_watch c in
  if decide (TrimSpace (wt_Network w) = "") then mret (Ok ()) else
  let minConf := minConfOf w in
  let unlockConf := unlockConfOf w in
  finality ⟵ outside (so_finality (wt_Chain w) (wt_Coin w) (wt_Network w) (rc_TxHash c));
  next ⟵ candidateState c minConf unlockConf finality;
  match next with
  | None => mret (Ok ())
  | Some (nextStatus, nextConf) =>
      let w := buildWatchFromCandidate c minConf unlockConf in
      let toAddr := fallback (rc_ToAddress c) (wt_Address w) in
      change ⟵ db (λ now, UpsertSeenEvent now w (rc_TxHash c) (rc_EventIndex c) nextStatus nextConf (rc_Amount c)
                             (rc_FromAddress c) toAddr);
      if negb (sc_Notify change) then mret (Ok ())
      else enqueueDepositEvent w (rc_TxHash c) (rc_EventIndex c) (rc_Amount c) (rc_FromAddress c) toAddr nextConf
             minConf unlockConf nextStatus
  end.

Definition reconcileReorgCandidates : scan C (result ()) :=
  let limit := if decide (cf_ReorgCandidateLimit cfg ≤ 0) then cf_WatchLimit cfg else cf_ReorgCandidateLimit cfg in
  candidates ⟵ query (ListReorgCandidates (cf_ReorgWindow cfg) limit (cf_AllowedChains cfg));
  _ ← forAll candidates reconcileCandidate;
  mret (Ok ()).
End scanner.
