(* ===== verification/ScanOutbox.v ===== *)
(** * The scanner of account chains: outbox, outgoing transactions, ticks

    [scan-account-service/internal/worker/scanner_outbox.go],
    [scanner_project_notify.go], [scanner_outgoing.go] and the tick of
    [scanner.go]. *)
From S2P Require Import Prelude GoStrings GoNumbers ScanStore ScanEvents Scanner.

(** ** Payloads *)

(** [json.Unmarshal] of one payload into the other's struct fills the fields
    the two have in common. *)
Definition asDeposit (p : payload) : DepositOutboxPayload :=
  match p with
  | DepositPayload p => p
  | SweepPayload p => {|
      dp_TenantID := sp_TenantID p; dp_AccountID := ""; dp_OrderID := ""; dp_EventIndex := 0; dp_Chain := sp_Chain p;
      dp_Network := sp_Network p; dp_Coin := ""; dp_Amount := sp_Amount p; dp_TxHash := ""; dp_FromAddress := "";
      dp_ToAddress := ""; dp_WatchAddress := ""; dp_TreasuryID := sp_TreasuryAccountID p;
      dp_ColdAccountID := sp_ColdAccountID p; dp_AutoSweep := false; dp_SweepThreshold := "";
      dp_HotBalanceCap := sp_HotBalanceCap p; dp_Confirmations := 0; dp_RequiredConfs := 0; dp_UnlockConfs := 0;
      dp_ScanStatus := ""; dp_Status := ""; dp_ProjectNotify := false; dp_SweepTrigger := false |}
  end.
Definition asSweep (p : payload) : SweepOutboxPayload :=
  match p with
  | SweepPayload p => p
  | DepositPayload p => {|
      sp_TenantID := dp_TenantID p; sp_SweepOrderID := ""; sp_FromAccountID := ""; sp_TreasuryAccountID := dp_TreasuryID p;
      sp_ColdAccountID := dp_ColdAccountID p; sp_HotBalanceCap := dp_HotBalanceCap p; sp_Chain := dp_Chain p;
      sp_Network := dp_Network p; sp_Asset := ""; sp_Amount := dp_Amount p |}
  end.

Definition requestID (prefix : string) (ev : OutboxEvent) : string :=
  prefix +:+ BigString (ev_ID ev) +:+ "-" +:+ BigString (ev_Attempt ev + 1).

Section outbox.
Context `{SqlText} {C : Type} `{ScanOutside C} (cfg : ScannerConfig).

(** A request to wallet-core, remembered whether it succeeds or not. *)
Definition walletCore (reqID : string) (c : wallet_call) : scan C (result ()) := λ w,
  let '(r, o) := so_wallet reqID c (sw_out w) in (r, SWorld (sw_store w) o ((c, r) :: sw_sent w)).

(** ** Events *)

Definition enqueueProjectDepositOutboxEvent (p : DepositOutboxPayload) : scan C (result ()) :=
  exec_db (λ now, InsertOutboxEventIfAbsent now
    (newEvent (projectDepositEventKey (dp_TenantID p) (dp_Chain p) (dp_Network p) (dp_TxHash p) (dp_EventIndex p))
       (dp_TenantID p) (dp_Chain p) (dp_Network p) "PROJECT_DEPOSIT_NOTIFY" (DepositPayload p))).

Definition enqueueSweepTriggerOutboxEvent (p : DepositOutboxPayload) : scan C (result ()) :=
  exec_db (λ now, InsertOutboxEventIfAbsent now
    (newEvent (sweepTriggerEventKey (dp_TenantID p) (dp_Chain p) (dp_Network p) (dp_TxHash p) (dp_EventIndex p))
       (dp_TenantID p) (dp_Chain p) (dp_Network p) "SWEEP_TRIGGER" (DepositPayload p))).

(** Errors of the two follow-up events are only logged. *)
Definition handleDepositOutboxEvent (ev : OutboxEvent) : scan C (result ()) :=
  let p := asDeposit (ev_Payload ev) in
  if decide (dp_TenantID p = "" ∨ dp_AccountID p = "" ∨ dp_OrderID p = "" ∨ dp_Chain p = "" ∨ dp_Network p = "") then
    mret (Err (Errorf "invalid deposit outbox payload"))
  else
  _ ⟵ walletCore (requestID "scan-outbox-deposit-" ev) (DepositNotifyCall p);
  if decide (ToUpper (TrimSpace (dp_Status p)) ≠ "CONFIRMED") then mret (Ok ())
  else
  _ ← (if dp_ProjectNotify p then enqueueProjectDepositOutboxEvent p else mret (Ok ()));
  _ ← (if dp_SweepTrigger p then enqueueSweepTriggerOutboxEvent p else mret (Ok ()));
  mret (Ok ()).

Definition resolveProjectChainID (chain network : string) : option Z :=
  let key := ToLower (TrimSpace chain) +:+ ":" +:+ ToLower (TrimSpace network) in
  match cf_ProjectChainIDMap cfg !! key with
  | Some id => if decide (0 < id) then Some id
               else if decide (0 < cf_ProjectDefaultChainID cfg) then Some (cf_ProjectDefaultChainID cfg) else None
  | None => if decide (0 < cf_ProjectDefaultChainID cfg) then Some (cf_ProjectDefaultChainID cfg) else None
  end.

(** Where a deposit arrived. *)
Definition depositAddress (p : DepositOutboxPayload) : string :=
  let address := TrimSpace (dp_WatchAddress p) in
  if decide (address = "") then TrimSpace (dp_ToAddress p) else address.

Definition notifyProjectDeposit (reqID : string) (p : DepositOutboxPayload) : scan C (result ()) :=
  if negb (cf_ProjectNotify cfg) then mret (Ok ())
  else if decide (ToUpper (TrimSpace (dp_Status p)) ≠ "CONFIRMED") then mret (Ok ())
  else
  match resolveProjectChainID (dp_Chain p) (dp_Network p) with
  | None => mret (Err (Errorf "project notify chain id not configured"))
  | Some chainID =>
      let address := depositAddress p in
      if decide (address = "") then mret (Err (Errorf "project notify address empty"))
      else outside (so_project reqID {|
        pn_BizID := "walletsaas:" +:+ ToLower (TrimSpace (dp_Chain p)) +:+ ":" +:+ ToLower (TrimSpace (dp_Network p)) +:+ ":"
                    +:+ TrimSpace (dp_TxHash p) +:+ ":" +:+ BigString (dp_EventIndex p);
        pn_ChainID := chainID; pn_TxHash := TrimSpace (dp_TxHash p); pn_TxIndex := dp_EventIndex p; pn_Address := address;
        pn_Asset := ToUpper (TrimSpace (dp_Coin p)); pn_Amount := TrimSpace (dp_Amount p) |})
  end.

Definition handleProjectDepositOutboxEvent (ev : OutboxEvent) : scan C (result ()) :=
  let p := asDeposit (ev_Payload ev) in
  if negb (dp_ProjectNotify p) then mret (Ok ())
  else notifyProjectDeposit (requestID "scan-outbox-project-deposit-" ev) p.

Definition sweepPayloadOf (p : DepositOutboxPayload) : SweepOutboxPayload := {|
  sp_TenantID := dp_TenantID p;
  sp_SweepOrderID := sweepOrderID (dp_TxHash p) (dp_EventIndex p) (dp_AccountID p) (dp_Network p);
  sp_FromAccountID := dp_AccountID p; sp_TreasuryAccountID := fallback (dp_TreasuryID p) "treasury-main";
  sp_ColdAccountID := TrimSpace (dp_ColdAccountID p); sp_HotBalanceCap := TrimSpace (dp_HotBalanceCap p);
  sp_Chain := dp_Chain p; sp_Network := dp_Network p; sp_Asset := ToUpper (dp_Coin p); sp_Amount := dp_Amount p |}.

Definition handleSweepTriggerOutboxEvent (ev : OutboxEvent) : scan C (result ()) :=
  let p := asDeposit (ev_Payload ev) in
  if negb (dp_SweepTrigger p) || negb (dp_AutoSweep p) then mret (Ok ())
  else
  let threshold := TrimSpace (dp_SweepThreshold p) in
  let threshold := if decide (threshold = "" ∨ threshold = "0") then TrimSpace (cf_SweepMinBalance cfg) else threshold in
  let watchAddr := depositAddress p in
  if decide (watchAddr = "") then mret (Ok ()) else
  currentBalance ⟵ outside (so_balance (dp_Chain p) (dp_Coin p) (dp_Network p) watchAddr);
  if negb (meetsThreshold currentBalance threshold) then mret (Ok ())
  else exec_db (λ now, InsertOutboxEventIfAbsent now
    (newEvent (sweepEventKey (dp_TenantID p) (dp_Chain p) (dp_Network p) (dp_TxHash p) (dp_EventIndex p))
       (dp_TenantID p) (dp_Chain p) (dp_Network p) "SWEEP_RUN" (SweepPayload (sweepPayloadOf p)))).

Definition handleSweepOutboxEvent (ev : OutboxEvent) : scan C (result ()) :=
  let p := asSweep (ev_Payload ev) in
  if decide (sp_TenantID p = "" ∨ sp_SweepOrderID p = "" ∨ sp_FromAccountID p = "" ∨ sp_Chain p = "" ∨ sp_Network p = "") then
    mret (Err (Errorf "invalid sweep outbox payload"))
  else walletCore (requestID "scan-outbox-sweep-" ev) (SweepRunCall p).

(** ** Dispatch *)

Definition handleOutboxEvent (ev : OutboxEvent) : scan C (result ()) :=
  let t := ToUpper (TrimSpace (ev_EventType ev)) in
  if decide (t = "DEPOSIT_NOTIFY") then handleDepositOutboxEvent ev
  else if decide (t = "PROJECT_DEPOSIT_NOTIFY") then handleProjectDepositOutboxEvent ev
  else if decide (t = "SWEEP_TRIGGER") then handleSweepTriggerOutboxEvent ev
  else if decide (t = "SWEEP_RUN") then handleSweepOutboxEvent ev
  else mret (Err (Errorf ("unsupported outbox event type=" +:+ ev_EventType ev))).

Definition markHandled (ev : OutboxEvent) (handled : result ()) : scan C (result ()) :=
  match handled with
  | Err e => exec_db (λ now, MarkOutboxEventRetry now ev (error_text e))
  | Ok _ => exec_db (λ _, MarkOutboxEventDone (ev_ID ev))
  end.

Definition dispatchEvent (ev : OutboxEvent) : scan C (result ()) :=
  handled ← handleOutboxEvent ev;
  markHandled ev handled.

(** The rows other statements have locked are known when the query runs. *)
Definition listPending : scan C (result (list OutboxEvent)) := λ w,
  db (λ now s, evs ← ListPendingOutboxEvents now (so_locked (sw_out w)) (cf_WatchLimit cfg) (cf_AllowedChains cfg) s;
               Ok (evs, s)) w.

Definition dispatchOutbox : scan C (result ()) :=
  events ⟵ listPending;
  _ ← forAll events dispatchEvent;
  mret (Ok ()).

(** ** Outgoing transactions *)

Definition outgoingKindWithdraw : string := "withdraw".
Definition outgoingKindSweep : string := "sweep".
Definition outgoingKindTreasuryTransfer : string := "treasury_transfer".

(** The notification of a kind. *)
Definition onchainCall (kind : string) (n : OnchainNotify) : wallet_call :=
  if decide (kind = outgoingKindSweep) then SweepOnchainCall n
  else if decide (kind = outgoingKindTreasuryTransfer) then TreasuryOnchainCall n
  else WithdrawOnchainCall n.

Definition handleMissingOutgoingTx (kind : string) (it : PendingOutgoing) : scan C (result ()) :=
  state ⟵ db (λ now, IncrementOutgoingNotFound now kind (po_TenantID it) (po_OrderID it) (po_Chain it) (po_Network it) (po_TxHash it));
  now ← outside (λ c, (so_clock c, c));
  let age := now - po_BroadcastedAt it in
  if negb (shouldFailOutgoingNotFound (po_Chain it) age (nf_NotFoundCount state) (cf_OutgoingNotFoundThreshold cfg)
             (cf_OutgoingNotFoundGrace cfg)) then mret (Ok ())
  else
  let count := BigString (nf_NotFoundCount state) in
  let reason := "onchain tx not found after " +:+ count +:+ " checks and " +:+ so_age_text age +:+ " since broadcast" in
  let reqID := "scan-" +:+ kind +:+ "-notfound-" +:+ po_TenantID it +:+ "-" +:+ po_OrderID it +:+ "-" +:+ count in
  _ ⟵ walletCore reqID (onchainCall kind {|
        on_TenantID := po_TenantID it; on_OrderID := po_OrderID it; on_TxHash := po_TxHash it; on_Status := "FAILED";
        on_Reason := reason; on_Confirmations := 0; on_RequiredConfs := Z.max (po_RequiredConfs it) 1 |});
  exec_db (λ _, ClearOutgoingNotFound kind (po_TenantID it) (po_OrderID it) (po_TxHash it)).

(** One transaction of a kind; [prefix] starts the id of its request. A
    replaced attempt of a withdrawal is never reported missing or failed. *)
Definition checkOutgoing (kind prefix : string) (it : PendingOutgoing) : scan C (result ()) :=
  if decide (TrimSpace (po_Network it) = "") then mret (Ok ()) else
  finality ⟵ outside (so_finality (po_Chain it) "" (po_Network it) (po_TxHash it));
  let replaced := bool_decide (kind = outgoingKindWithdraw) && EqualFold (TrimSpace (po_AttemptStatus it)) "REPLACED" in
  if negb (tf_Found finality) then
    if replaced then mret (Ok ()) else handleMissingOutgoingTx kind it
  else
  _ ← exec_db (λ _, ClearOutgoingNotFound kind (po_TenantID it) (po_OrderID it) (po_TxHash it));
  let s := ToUpper (TrimSpace (tf_Status finality)) in
  let notify status reason :=
    walletCore (prefix +:+ po_TenantID it +:+ "-" +:+ po_OrderID it +:+ "-" +:+ BigString (tf_Confirmations finality))
      (onchainCall kind {|
        on_TenantID := po_TenantID it; on_OrderID := po_OrderID it; on_TxHash := po_TxHash it; on_Status := status;
        on_Reason := reason; on_Confirmations := tf_Confirmations finality;
        on_RequiredConfs := Z.max (po_RequiredConfs it) 1 |}) in
  if decide (s ∈ ["REVERTED"; "FAILED"]) then
    if replaced then mret (Ok ()) else notify "FAILED" "onchain tx reverted"
  else if decide (s = "PENDING") then mret (Ok ())
  else notify "CONFIRMED" "".

Definition scanOutgoingConfirmations : scan C (result ()) :=
  withdraws ⟵ outside (so_withdraws (cf_WatchLimit cfg));
  _ ← forAll withdraws (checkOutgoing outgoingKindWithdraw "scan-withdraw-onchain-");
  sweeps ⟵ outside (so_sweeps (cf_WatchLimit cfg));
  _ ← forAll sweeps (checkOutgoing outgoingKindSweep "scan-sweep-onchain-");
  transfers ⟵ outside (so_transfers (cf_WatchLimit cfg));
  _ ← forAll transfers (checkOutgoing outgoingKindTreasuryTransfer "scan-treasury-onchain-");
  mret (Ok ()).

(** ** A tick *)

Definition tick : scan C (result ()) :=
  _ ⟵ (if cf_EnableAccountScan cfg then scanModel cfg "account" else mret (Ok ()));
  _ ⟵ (if cf_EnableUTXOScan cfg then scanModel cfg "utxo" else mret (Ok ()));
  _ ⟵ (if cf_EnableReorgReconcile cfg then reconcileReorgCandidates cfg else mret (Ok ()));
  _ ⟵ (if cf_EnableOutboxDispatch cfg then dispatchOutbox else mret (Ok ()));
  if cf_EnableOutgoingScan cfg then scanOutgoingConfirmations else mret (Ok ()).

(** [Run]: ticks without end; an error of a tick is logged. *)
Fixpoint ticks (n : nat) : scan C () :=
  match n with O => mret () | S n => _ ← tick; ticks n end.
End outbox.
