(* ===== verification/UtxoScanner.v ===== *)
(** * The scanner of UTXO chains

    [scan-utxo-service]: an older copy of the account scanner that works on the
    same tables of the same database.  Its structs have fewer columns
    ([columns]) and its payloads fewer fields; what it shares with its sibling
    word for word ([depositOrderID], the checkpoints, [UpsertSeenEvent], ...) is
    the definition of [ScanStore] and [ScanEvents], and what differs is defined
    here under the same names.  The outside is the same too. *)
From S2P Require Import Prelude GoStrings GoNumbers ScanStore ScanEvents Scanner ScanOutbox.

(** ** What the copy has word for word

    [scanner_utils.go] and the checkpoints and seen events of [postgres.go]. *)

Definition depositOrderID := ScanStore.depositOrderID.
Definition sweepOrderID := ScanStore.sweepOrderID.
Definition depositEventKey := ScanStore.depositEventKey.
Definition sweepEventKey := ScanStore.sweepEventKey.
Definition fallback := ScanStore.fallback.
Definition meetsThreshold := ScanStore.meetsThreshold.
Definition GetCheckpoint := ScanStore.GetCheckpoint.
Definition UpsertCheckpoint := ScanStore.UpsertCheckpoint.
Definition GetChainCheckpoint := ScanStore.GetChainCheckpoint.
Definition UpsertChainCheckpoint := ScanStore.UpsertChainCheckpoint.
Definition UpsertSeenEvent := ScanEvents.UpsertSeenEvent.
Definition IncrementSeenEventNotFound := ScanEvents.IncrementSeenEventNotFound.
Definition ResetSeenEventNotFound := ScanEvents.ResetSeenEventNotFound.
Definition MarkOutboxEventDone := ScanEvents.MarkOutboxEventDone.

(** ** [internal/store/postgres.go] *)

(** The columns the service selects; a field its struct does not have is
    empty. *)
Definition columns (w : WatchAddress) : WatchAddress := {|
  wt_TenantID := wt_TenantID w; wt_AccountID := wt_AccountID w; wt_Model := wt_Model w; wt_Chain := wt_Chain w;
  wt_Coin := wt_Coin w; wt_Network := wt_Network w; wt_Address := wt_Address w; wt_ContractAddress := "";
  wt_MinConfirmations := wt_MinConfirmations w; wt_UnlockConfirmations := 0;
  wt_TreasuryAccountID := wt_TreasuryAccountID w; wt_ColdAccountID := ""; wt_AutoSweep := wt_AutoSweep w;
  wt_SweepThreshold := wt_SweepThreshold w; wt_HotBalanceCap := "" |}.

Section store.
Context `{SqlText}.

Definition ListWatchAddresses (model : string) (limit : Z) (s : store) : result (list WatchAddress) :=
  Ok (take (Z.to_nat limit) ((λ r, columns (wr_watch r)) <$> filter (λ r,
    wr_active r = true ∧ wt_Model (wr_watch r) = ToLower (TrimSpace model) ∧ watch_listed s (wr_watch r)) (st_watches s))).

Definition ListReorgCandidates (reorgWindow limit : Z) (s : store) : result (list ReorgCandidate) :=
  let reorgWindow := if decide (reorgWindow ≤ 0) then 6 else reorgWindow in
  let limit := if decide (limit ≤ 0) then 500 else limit in
  let least (e : seen_key * seen_row) := Z.max (from_option wt_MinConfirmations 1 (watchOf (e.1.1.1) s)) 1 in
  let rows := filter (λ e : seen_key * seen_row,
    sql_upper (se_status e.2) ≠ "REVERTED"
    ∧ (sql_upper (se_status e.2) = "PENDING" ∨ 0 < se_not_found_count e.2 ∨ se_confirmations e.2 < least e + reorgWindow))
    (map_to_list (st_seen s)) in
  Ok (scanCandidate s <$> take (Z.to_nat limit) (merge_sort fresher rows)).
End store.

(** The conflicting row is replaced whatever its status is. *)
Definition UpsertOutboxEvent (now : Z) (ev : OutboxEvent) (s : store) : result store :=
  _ ← checkOutboxEvent ev;
  Ok (insertOutbox (λ _, True) now ev s).

Definition ListPendingOutboxEvents (now limit : Z) (s : store) : result (list OutboxEvent) :=
  let limit := if decide (limit ≤ 0) then 200 else limit in
  let rows := filter (λ e : string * outbox_row, ox_status e.2 = "PENDING" ∧ ox_next_retry_at e.2 ≤ now)
                (map_to_list (st_outbox s)) in
  Ok (scanOutboxEvent <$> take (Z.to_nat limit) (merge_sort outbox_le rows)).

Definition MarkOutboxEventRetry (now id currentAttempt maxAttempts : Z) (reason : string) (s : store) : result store :=
  let nextAttempt := currentAttempt + 1 in
  let maxAttempts := if decide (maxAttempts ≤ 0) then 12 else maxAttempts in
  let status := if decide (maxAttempts ≤ nextAttempt) then "FAILED" else "PENDING" in
  let backoff := Z.min (2 ^ Z.min nextAttempt 6) 300 in
  Ok (updateOutbox id (λ r,
    r <| ox_status := status |> <| ox_attempt_count := nextAttempt |> <| ox_last_error := TrimSpace reason |>
      <| ox_next_retry_at := now + backoff |>) s).

(** ** [internal/worker/scanner_utils.go] *)

Definition resolveDepositStatus (rawStatus : string) (confirmations minConf : Z) : string :=
  let status := ToUpper (TrimSpace rawStatus) in
  if decide (status = "REVERTED" ∨ status = "FAILED") then "REVERTED"
  else if decide (status = "PENDING") then "PENDING"
  else if decide (confirmations < 0) then if decide (status = "CONFIRMED") then "CONFIRMED" else "PENDING"
  else
  let minConf := if decide (minConf ≤ 0) then 1 else minConf in
  if decide (0 ≤ confirmations ∧ confirmations < minConf) then "PENDING" else "CONFIRMED".

(** ** [internal/worker/scanner.go] *)

Record UtxoScanner := {
  us_AccountPageSize : Z;
  us_AccountMaxPages : Z;
  us_WatchLimit : Z;
  us_ReorgWindow : Z;
  us_ReorgCandidateLimit : Z;
  us_ReorgNotFoundThreshold : Z;
  us_EnableAccountScan : bool;
  us_EnableUTXOScan : bool;
  us_EnableReorgReconcile : bool;
  us_EnableOutboxDispatch : bool;
  us_EnableOutgoingScan : bool;
  us_SweepMinBalance : string;
  us_ProjectNotify : bool;
  us_ProjectChainIDMap : gmap string Z;
  us_ProjectDefaultChainID : Z;
}.

(** The defaults [Run] fills in. *)
Definition runDefaults (c : UtxoScanner) : UtxoScanner :=
  let or (v d : Z) := if decide (v ≤ 0) then d else v in
  let watchLimit := or (us_WatchLimit c) 500 in {|
  us_AccountPageSize := or (us_AccountPageSize c) 50; us_AccountMaxPages := or (us_AccountMaxPages c) 2;
  us_WatchLimit := watchLimit; us_ReorgWindow := or (us_ReorgWindow c) 6;
  us_ReorgCandidateLimit := or (us_ReorgCandidateLimit c) watchLimit;
  us_ReorgNotFoundThreshold := or (us_ReorgNotFoundThreshold c) 3;
  us_EnableAccountScan := us_EnableAccountScan c; us_EnableUTXOScan := us_EnableUTXOScan c;
  us_EnableReorgReconcile := us_EnableReorgReconcile c; us_EnableOutboxDispatch := us_EnableOutboxDispatch c;
  us_EnableOutgoingScan := us_EnableOutgoingScan c; us_SweepMinBalance := us_SweepMinBalance c;
  us_ProjectNotify := us_ProjectNotify c; us_ProjectChainIDMap := us_ProjectChainIDMap c;
  us_ProjectDefaultChainID := us_ProjectDefaultChainID c |}.

(** [runWithMode] of [internal/bootstrap]: which parts of a tick run. *)
Definition runWithMode (mode : string) (c : UtxoScanner) : UtxoScanner :=
  let account := bool_decide (mode ≠ "utxo") in {|
  us_AccountPageSize := us_AccountPageSize c; us_AccountMaxPages := us_AccountMaxPages c; us_WatchLimit := us_WatchLimit c;
  us_ReorgWindow := us_ReorgWindow c; us_ReorgCandidateLimit := us_ReorgCandidateLimit c;
  us_ReorgNotFoundThreshold := us_ReorgNotFoundThreshold c;
  us_EnableAccountScan := account; us_EnableUTXOScan := bool_decide (mode ≠ "account");
  us_EnableReorgReconcile := account; us_EnableOutboxDispatch := account; us_EnableOutgoingScan := account;
  us_SweepMinBalance := us_SweepMinBalance c; us_ProjectNotify := us_ProjectNotify c;
  us_ProjectChainIDMap := us_ProjectChainIDMap c; us_ProjectDefaultChainID := us_ProjectDefaultChainID c |}.

Section scanner.
Context `{SqlText} {C : Type} `{ScanOutside C} (cfg : UtxoScanner).

(** ** [internal/worker/scanner_deposit.go] *)

(** The payload's JSON lacks the other fields of the account scanner's struct,
    which reads them as empty. *)
Definition depositPayload (w : WatchAddress) (txHash : string) (eventIndex : Z) (amount fromAddr toAddr : string)
    (confirmations requiredConfirmations : Z) (status : string) : DepositOutboxPayload := {|
  dp_TenantID := wt_TenantID w; dp_AccountID := wt_AccountID w;
  dp_OrderID := depositOrderID txHash eventIndex (wt_AccountID w) (wt_Network w);
  dp_EventIndex := eventIndex; dp_Chain := wt_Chain w; dp_Network := wt_Network w; dp_Coin := wt_Coin w;
  dp_Amount := amount; dp_TxHash := txHash; dp_FromAddress := fromAddr; dp_ToAddress := toAddr;
  dp_WatchAddress := wt_Address w; dp_TreasuryID := fallback (wt_TreasuryAccountID w) "treasury-main";
  dp_ColdAccountID := ""; dp_AutoSweep := false; dp_SweepThreshold := TrimSpace (wt_SweepThreshold w);
  dp_HotBalanceCap := ""; dp_Confirmations := confirmations; dp_RequiredConfs := requiredConfirmations;
  dp_UnlockConfs := 0; dp_ScanStatus := ""; dp_Status := status; dp_ProjectNotify := false; dp_SweepTrigger := false |}.

Definition enqueueDepositEvent (w : WatchAddress) (txHash : string) (eventIndex : Z) (amount fromAddr toAddr : string)
    (confirmations requiredConfirmations : Z) (status : string) : scan C (result ()) :=
  exec_db (λ now, UpsertOutboxEvent now
    (newEvent (depositEventKey (wt_TenantID w) (wt_Chain w) (wt_Network w) txHash eventIndex)
       (wt_TenantID w) (wt_Chain w) (wt_Network w) "DEPOSIT_NOTIFY"
       (DepositPayload (depositPayload w txHash eventIndex amount fromAddr toAddr confirmations requiredConfirmations status)))).

(** [true] when the transfer was announced. *)
Definition recordTransfer (w : WatchAddress) (tx : IncomingTransfer) (idx : Z) : scan C (result bool) :=
  let minConf := minConfOf w in
  let eventIdx := if decide (it_Index tx ≤ 0) then idx else it_Index tx in
  let status := resolveDepositStatus (it_Status tx) (it_Confirmations tx) minConf in
  let toAddr := fallback (it_ToAddress tx) (wt_Address w) in
  change ⟵ db (λ now, UpsertSeenEvent now w (it_TxHash tx) eventIdx status (it_Confirmations tx) (it_Amount tx)
                         (it_FromAddress tx) toAddr);
  if negb (sc_Notify change) then mret (Ok false)
  else
    _ ⟵ enqueueDepositEvent w (it_TxHash tx) eventIdx (it_Amount tx) (it_FromAddress tx) toAddr (it_Confirmations tx)
          minConf status;
    mret (Ok true).

(** *** One watch *)

Fixpoint scanItems (w : WatchAddress) (txs : list IncomingTransfer) (idx : Z) (lastTx : string) : scan C (result string) :=
  match txs with
  | [] => mret (Ok lastTx)
  | tx :: txs =>
      notified ⟵ recordTransfer w tx idx;
      scanItems w txs (idx + 1) (if notified then it_TxHash tx else lastTx)
  end.

(** At most [n] of the [maxPages] pages. *)
Fixpoint scanPages (n : nat) (maxPages : Z) (w : WatchAddress) (cursor lastTx : string) : scan C (result (string * string)) :=
  match n with
  | O => mret (Ok (cursor, lastTx))
  | S n =>
      page ⟵ outside (so_incoming (wt_Model w) (wt_Chain w) (wt_Coin w) (wt_Network w) (wt_Address w) cursor
                        (us_AccountPageSize cfg) "");
      lastTx ⟵ scanItems w (ip_Items page) 0 lastTx;
      let nextCursor := ip_NextCursor page in
      if decide (nextCursor = "" ∨ nextCursor = cursor ∨ ip_Items page = [] ∨ maxPages = 1) then mret (Ok (cursor, lastTx))
      else scanPages n maxPages w nextCursor lastTx
  end.

Definition scanOneWatch (w : WatchAddress) : scan C (result ()) :=
  if decide (TrimSpace (wt_Network w) = "") then mret (Err (Errorf "watch network is required")) else
  cursor ⟵ query (GetCheckpoint w);
  let maxPages := if EqualFold (TrimSpace (wt_Model w)) "utxo" then 1 else us_AccountMaxPages cfg in
  reached ⟵ scanPages (Z.to_nat maxPages) maxPages w cursor "";
  let cursor := if decide (maxPages = 1) then "" else fst reached in
  exec_db (λ now, UpsertCheckpoint now w cursor (snd reached)).

(** *** A group of watches of one coin *)

Fixpoint groupItems (watches : list WatchAddress) (txs : list IncomingTransfer) (idx : Z) : scan C (result ()) :=
  match txs with
  | [] => mret (Ok ())
  | tx :: txs =>
      let toAddr := ToLower (TrimSpace (it_ToAddress tx)) in
      _ ⟵ (if decide (toAddr = "") then mret (Ok ())
            else forEach (filter (λ w, ToLower (TrimSpace (wt_Address w)) = toAddr) watches)
                   (λ w, _ ⟵ recordTransfer w tx idx; mret (Ok ())));
      groupItems watches txs (idx + 1)
  end.

Fixpoint groupPages (n : nat) (group : watchGroup) (currentCursor nextCheckpoint lastTx : string)
    : scan C (result (string * string)) :=
  match n with
  | O => mret (Ok (nextCheckpoint, lastTx))
  | S n =>
      page ⟵ outside (so_incoming (wg_Model group) (wg_Chain group) (wg_Coin group) (wg_Network group) "" currentCursor
                        (us_AccountPageSize cfg) "");
      let nextCursor := ip_NextCursor page in
      let nextCheckpoint := if decide (nextCursor ≠ "") then nextCursor else nextCheckpoint in
      let lastTx := from_option (λ tx, TrimSpace (it_TxHash tx)) lastTx (last (ip_Items page)) in
      _ ⟵ groupItems (wg_Watches group) (ip_Items page) 0;
      if decide (nextCursor = "" ∨ nextCursor = currentCursor ∨ ip_Items page = []) then mret (Ok (nextCheckpoint, lastTx))
      else groupPages n group nextCursor nextCheckpoint lastTx
  end.

Definition scanOneAccountGroup (group : watchGroup) : scan C (result ()) :=
  if decide (wg_Watches group = []) then mret (Ok ())
  else if decide (TrimSpace (wg_Network group) = "") then mret (Err (Errorf "group network is required"))
  else
  chainCursor ⟵ query (GetChainCheckpoint (wg_Model group) (wg_Chain group) (wg_Coin group) (wg_Network group));
  let chainCursor := fst chainCursor in
  if decide (filter (λ w, ToLower (TrimSpace (wt_Address w)) ≠ "") (wg_Watches group) = []) then mret (Ok ())
  else
  let maxPages := if decide (us_AccountMaxPages cfg ≤ 0) then 1 else us_AccountMaxPages cfg in
  reached ⟵ groupPages (Z.to_nat maxPages) group chainCursor chainCursor "";
  let '(nextCheckpoint, lastTx) := reached in
  _ ⟵ exec_db (λ now, UpsertChainCheckpoint now (wg_Model group) (wg_Chain group) (wg_Coin group) (wg_Network group)
                         nextCheckpoint lastTx);
  _ ← forAll (wg_Watches group) (λ w, exec_db (λ now, UpsertCheckpoint now w nextCheckpoint lastTx));
  mret (Ok ()).

(** *** A model *)

Definition supportsChainWideAccountScan (chain : string) : bool := bool_decide (ToLower (TrimSpace chain) ∈ evmChains).

Definition scanWatchesIndividually (watches : list WatchAddress) : scan C () := forAll watches scanOneWatch.

Definition scanAccountModel (watches : list WatchAddress) : scan C () :=
  forAll (groupWatches watches []) (λ group,
    if supportsChainWideAccountScan (wg_Chain group) then _ ← scanOneAccountGroup group; mret ()
    else scanWatchesIndividually (wg_Watches group)).

Definition scanModel (model : string) : scan C (result ()) :=
  watches ⟵ query (ListWatchAddresses model (us_WatchLimit cfg));
  if decide (watches = []) then mret (Ok ())
  else if EqualFold (TrimSpace model) "account" then _ ← scanAccountModel watches; mret (Ok ())
  else _ ← scanWatchesIndividually watches; mret (Ok ()).

(** ** [internal/worker/scanner_reorg.go] *)

(** [AutoSweep] is not set. *)
Definition buildWatchFromCandidate (c : ReorgCandidate) (minConf : Z) : WatchAddress :=
  let w := rc_watch c in {|
  wt_TenantID := wt_TenantID w; wt_AccountID := wt_AccountID w; wt_Model := wt_Model w; wt_Chain := wt_Chain w;
  wt_Coin := wt_Coin w; wt_Network := wt_Network w; wt_Address := wt_Address w; wt_ContractAddress := "";
  wt_MinConfirmations := minConf; wt_UnlockConfirmations := 0;
  wt_TreasuryAccountID := fallback (wt_TreasuryAccountID w) "treasury-main"; wt_ColdAccountID := "";
  wt_AutoSweep := false; wt_SweepThreshold := wt_SweepThreshold w; wt_HotBalanceCap := "" |}.

Definition candidateState (c : ReorgCandidate) (minConf : Z) (finality : TxFinality) : scan C (result (option (string * Z))) :=
  if negb (tf_Found finality) then
    miss ⟵ db (λ now, IncrementSeenEventNotFound now c);
    mret (Ok (if decide (miss < us_ReorgNotFoundThreshold cfg) then None else Some ("REVERTED", 0)))
  else
    let nextStatus := resolveDepositStatus (tf_Status finality) (tf_Confirmations finality) minConf in
    _ ⟵ (if decide (0 < rc_NotFoundCount c) then exec_db (λ now, ResetSeenEventNotFound now c) else mret (Ok ()));
    mret (Ok (Some (nextStatus, tf_Confirmations finality))).

(** An error leaves the candidate and goes on with the next one. *)
Definition reconcileCandidate (c : ReorgCandidate) : scan C (result ()) :=
  let w := rc_watch c in
  if decide (TrimSpace (wt_Network w) = "") then mret (Ok ()) else
  let minConf := minConfOf w in
  finality ⟵ outside (so_finality (wt_Chain w) (wt_Coin w) (wt_Network w) (rc_TxHash c));
  next ⟵ candidateState c minConf finality;
  match next with
  | None => mret (Ok ())
  | Some (nextStatus, nextConf) =>
      let w := buildWatchFromCandidate c minConf in
      let toAddr := fallback (rc_ToAddress c) (wt_Address w) in
      change ⟵ db (λ now, UpsertSeenEvent now w (rc_TxHash c) (rc_EventIndex c) nextStatus nextConf (rc_Amount c)
                             (rc_FromAddress c) toAddr);
      if negb (sc_Notify change) then mret (Ok ())
      else enqueueDepositEvent w (rc_TxHash c) (rc_EventIndex c) (rc_Amount c) (rc_FromAddress c) toAddr nextConf
             minConf nextStatus
  end.

Definition reconcileReorgCandidates : scan C (result ()) :=
  let limit := if decide (us_ReorgCandidateLimit cfg ≤ 0) then us_WatchLimit cfg else us_ReorgCandidateLimit cfg in
  candidates ⟵ query (ListReorgCandidates (us_ReorgWindow cfg) limit);
  _ ← forAll candidates reconcileCandidate;
  mret (Ok ()).

(** ** [internal/worker/scanner_project_notify.go], [scanner_outbox.go] *)

Definition resolveProjectChainID (chain network : string) : option Z :=
  let key := ToLower (TrimSpace chain) +:+ ":" +:+ ToLower (TrimSpace network) in
  let orDefault := if decide (0 < us_ProjectDefaultChainID cfg) then Some (us_ProjectDefaultChainID cfg) else None in
  match us_ProjectChainIDMap cfg !! key with
  | Some id => if decide (0 < id) then Some id else orDefault
  | None => orDefault
  end.

Definition notifyProjectDeposit (reqID : string) (p : DepositOutboxPayload) : scan C (result ()) :=
  if negb (us_ProjectNotify cfg) then mret (Ok ())
  else if decide (ToUpper (TrimSpace (dp_Status p)) ≠ "CONFIRMED") then mret (Ok ())
  else
  match resolveProjectChainID (dp_Chain p) (dp_Network p) with
  | None => mret (Err (Errorf "project notify chain id not configured"))
  | Some chainID =>
      let address := depositAddress p in
      if decide (address = "") then mret (Err (Errorf "project notify address empty"))
      else outside (so_project reqID {|
        pn_BizID := "walletsaas:" +:+ ToLower (TrimSpace (dp_Chain p)) +:+ ":" +:+ ToLower (TrimSpace (dp_Network p)) +:+ ":"
                    +:+ TrimSpace (dp_TxHash p) +:+ ":" +:+ BigString (dp_EventIndex p);
        pn_ChainID := chainID; pn_TxHash := TrimSpace (dp_TxHash p); pn_TxIndex := dp_EventIndex p; pn_Address := address;
        pn_Asset := ToUpper (TrimSpace (dp_Coin p)); pn_Amount := TrimSpace (dp_Amount p) |})
  end.

(** The request for wallet-core has no scan status and no unlock
    confirmations, whoever wrote the payload. *)
Definition depositNotice (p : DepositOutboxPayload) : wallet_call := DepositNotifyCall {|
  dp_TenantID := dp_TenantID p; dp_AccountID := dp_AccountID p; dp_OrderID := dp_OrderID p;
  dp_EventIndex := dp_EventIndex p; dp_Chain := dp_Chain p; dp_Network := dp_Network p; dp_Coin := dp_Coin p;
  dp_Amount := dp_Amount p; dp_TxHash := dp_TxHash p; dp_FromAddress := dp_FromAddress p; dp_ToAddress := dp_ToAddress p;
  dp_WatchAddress := dp_WatchAddress p; dp_TreasuryID := dp_TreasuryID p; dp_ColdAccountID := ""; dp_AutoSweep := false;
  dp_SweepThreshold := dp_SweepThreshold p; dp_HotBalanceCap := ""; dp_Confirmations := dp_Confirmations p;
  dp_RequiredConfs := dp_RequiredConfs p; dp_UnlockConfs := 0; dp_ScanStatus := ""; dp_Status := dp_Status p;
  dp_ProjectNotify := false; dp_SweepTrigger := false |}.

Definition sweepPayloadOf (p : DepositOutboxPayload) : SweepOutboxPayload := {|
  sp_TenantID := dp_TenantID p;
  sp_SweepOrderID := sweepOrderID (dp_TxHash p) (dp_EventIndex p) (dp_AccountID p) (dp_Network p);
  sp_FromAccountID := dp_AccountID p; sp_TreasuryAccountID := fallback (dp_TreasuryID p) "treasury-main";
  sp_ColdAccountID := ""; sp_HotBalanceCap := ""; sp_Chain := dp_Chain p; sp_Network := dp_Network p;
  sp_Asset := ToUpper (dp_Coin p); sp_Amount := dp_Amount p |}.

(** A sweep when the balance of the address is above the threshold. *)
Definition enqueueSweep (p : DepositOutboxPayload) : scan C (result ()) :=
  let threshold := TrimSpace (dp_SweepThreshold p) in
  let threshold := if decide (threshold = "" ∨ threshold = "0") then TrimSpace (us_SweepMinBalance cfg) else threshold in
  let watchAddr := depositAddress p in
  if decide (watchAddr = "") then mret (Ok ()) else
  currentBalance ⟵ outside (so_balance (dp_Chain p) (dp_Coin p) (dp_Network p) watchAddr);
  if negb (meetsThreshold currentBalance threshold) then mret (Ok ())
  else exec_db (λ now, UpsertOutboxEvent now
    (newEvent (sweepEventKey (dp_TenantID p) (dp_Chain p) (dp_Network p) (dp_TxHash p) (dp_EventIndex p))
       (dp_TenantID p) (dp_Chain p) (dp_Network p) "SWEEP_RUN" (SweepPayload (sweepPayloadOf p)))).

Definition handleDepositOutboxEvent (ev : OutboxEvent) : scan C (result ()) :=
  let p := asDeposit (ev_Payload ev) in
  if decide (dp_TenantID p = "" ∨ dp_AccountID p = "" ∨ dp_OrderID p = "" ∨ dp_Chain p = "" ∨ dp_Network p = "") then
    mret (Err (Errorf "invalid deposit outbox payload"))
  else
  let reqID := requestID "scan-outbox-deposit-" ev in
  _ ⟵ walletCore reqID (depositNotice p);
  if decide (ToUpper (TrimSpace (dp_Status p)) ≠ "CONFIRMED") then mret (Ok ())
  else if decide (TrimSpace (dp_AccountID p) = TrimSpace (dp_TreasuryID p)) then mret (Ok ())
  else
  _ ⟵ notifyProjectDeposit reqID p;
  enqueueSweep p.

(** The struct has no cold account and no cap. *)
Definition handleSweepOutboxEvent (ev : OutboxEvent) : scan C (result ()) :=
  let p := asSweep (ev_Payload ev) in
  if decide (sp_TenantID p = "" ∨ sp_SweepOrderID p = "" ∨ sp_FromAccountID p = "" ∨ sp_Chain p = "" ∨ sp_Network p = "") then
    mret (Err (Errorf "invalid sweep outbox payload"))
  else walletCore (requestID "scan-outbox-sweep-" ev) (SweepRunCall {|
    sp_TenantID := sp_TenantID p; sp_SweepOrderID := sp_SweepOrderID p; sp_FromAccountID := sp_FromAccountID p;
    sp_TreasuryAccountID := sp_TreasuryAccountID p; sp_ColdAccountID := ""; sp_HotBalanceCap := ""; sp_Chain := sp_Chain p;
    sp_Network := sp_Network p; sp_Asset := sp_Asset p; sp_Amount := sp_Amount p |}).

Definition handleOutboxEvent (ev : OutboxEvent) : scan C (result ()) :=
  let t := ToUpper (TrimSpace (ev_EventType ev)) in
  if decide (t = "DEPOSIT_NOTIFY") then handleDepositOutboxEvent ev
  else if decide (t = "SWEEP_RUN") then handleSweepOutboxEvent ev
  else mret (Err (Errorf ("unsupported outbox event type=" +:+ ev_EventType ev))).

Definition dispatchEvent (ev : OutboxEvent) : scan C (result ()) :=
  handled ← handleOutboxEvent ev;
  match handled with
  | Err e => exec_db (λ now, MarkOutboxEventRetry now (ev_ID ev) (ev_Attempt ev) (ev_MaxAttempts ev) (error_text e))
  | Ok _ => exec_db (λ _, MarkOutboxEventDone (ev_ID ev))
  end.

Definition dispatchOutbox : scan C (result ()) :=
  events ⟵ db (λ now s, evs ← ListPendingOutboxEvents now (us_WatchLimit cfg) s; Ok (evs, s));
  _ ← forAll events dispatchEvent;
  mret (Ok ()).

(** ** [internal/worker/scanner_outgoing.go] *)

Definition checkOutgoing (notify : OnchainNotify → wallet_call) (prefix : string) (it : PendingOutgoing) : scan C (result ()) :=
  if decide (TrimSpace (po_Network it) = "") then mret (Ok ()) else
  finality ⟵ outside (so_finality (po_Chain it) "" (po_Network it) (po_TxHash it));
  if negb (tf_Found finality) then mret (Ok ())
  else
  let s := ToUpper (TrimSpace (tf_Status finality)) in
  if decide (s = "PENDING") then mret (Ok ())
  else
  let failed := bool_decide (s = "REVERTED" ∨ s = "FAILED") in
  walletCore (prefix +:+ po_TenantID it +:+ "-" +:+ po_OrderID it +:+ "-" +:+ BigString (tf_Confirmations finality))
    (notify {|
      on_TenantID := po_TenantID it; on_OrderID := po_OrderID it; on_TxHash := po_TxHash it;
      on_Status := if failed then "FAILED" else "CONFIRMED"; on_Reason := if failed then "onchain tx reverted" else "";
      on_Confirmations := tf_Confirmations finality; on_RequiredConfs := Z.max (po_RequiredConfs it) 1 |}).

Definition scanOutgoingConfirmations : scan C (result ()) :=
  withdraws ⟵ outside (so_withdraws (us_WatchLimit cfg));
  _ ← forAll withdraws (checkOutgoing WithdrawOnchainCall "scan-withdraw-onchain-");
  sweeps ⟵ outside (so_sweeps (us_WatchLimit cfg));
  _ ← forAll sweeps (checkOutgoing SweepOnchainCall "scan-sweep-onchain-");
  mret (Ok ()).

(** ** A tick *)

Definition tick : scan C (result ()) :=
  _ ⟵ (if us_EnableAccountScan cfg then scanModel "account" else mret (Ok ()));
  _ ⟵ (if us_EnableUTXOScan cfg then scanModel "utxo" else mret (Ok ()));
  _ ⟵ (if us_EnableReorgReconcile cfg then reconcileReorgCandidates else mret (Ok ()));
  _ ⟵ (if us_EnableOutboxDispatch cfg then dispatchOutbox else mret (Ok ()));
  if us_EnableOutgoingScan cfg then scanOutgoingConfirmations else mret (Ok ()).
End scanner.

(** * Both services on the tables they share

    [cmd/main.go] of the two services: each [Run]s its ticks for ever, in its
    own process, on the database both are configured with. *)
Section services.
Context `{SqlText} {C : Type} `{ScanOutside C} (cfg : ScannerConfig) (ucfg : UtxoScanner).

Inductive service := AccountService | UtxoService.

Definition serviceTick (s : service) : scan C (result ()) :=
  match s with AccountService => ScanOutbox.tick cfg | UtxoService => tick ucfg end.

(** Ticks one after the other, in the order [l]; an error of a tick is logged. *)
Fixpoint serve (l : list service) : scan C () :=
  match l with [] => mret () | s :: l => _ ← serviceTick s; serve l end.

(** A tick of the UTXO scanner while the account scanner is busy with one
    event: after wallet-core has answered, before the row is marked. *)
Definition overtaken (ev : OutboxEvent) : scan C (result ()) :=
  handled ← ScanOutbox.handleOutboxEvent cfg ev;
  _ ← tick ucfg;
  markHandled ev handled.
End services.
