(* ===== verification/UtxoPayments.v ===== *)
(** * The UTXO chains behind the service

    What a client of the chain gateway gets for a UTXO chain: which transfers,
    which finality, and what becomes of a payment.  The router is the one of
    start-up ([utxoGateway]), its plugins run in the process of the gateway, and
    the nodes and explorers are any. *)
From S2P Require Import Prelude GoStrings GoNumbers GoCodec Ports KeyRef EvmSend Endpoint EvmReader.
From S2P Require Import Normalize EvmPlugin ChainService UtxoPlugins Zen ZenProperties.
From S2P Require Import GatewayPages.
From S2P Require UtxoScanner.

(** ** The way to a plugin *)

Section gateway.
Context {W : Type} `{ProtoJSON} `{Btcd} `{BaseClients W} `{Decimals} `{BlockchainInfo (W := W)} `{Base58} `{Sha256}
  `{Insight W} `{Gob}.
Variables (ready : string → result ()) (account : ChainPlugin (process W)).

(** The adaptor of a chain and its name there. *)
Definition adaptorOf (c : string) : string * IChainAdaptor W :=
  if decide (c = "bitcoin") then ("Bitcoin", bitcoinAdaptor)
  else if decide (c = "bitcoincash") then ("BitcoinCash", bitcoincashAdaptor)
  else if decide (c = "dash") then ("Dash", dashAdaptor)
  else if decide (c = "litecoin") then ("Litecoin", litecoinAdaptor)
  else ("Zen", zenAdaptor).
Definition pluginOf (c : string) : BridgePlugin W :=
  NewBridgePlugin c (fst (adaptorOf c)) ((λ _, snd (adaptorOf c)) <$> ready c).

Lemma started_adapter : ∃ a, NewUTXOAdapter (startedPlugins ready) = Ok a
  ∧ Forall (λ c, a !! c = Some (bridgePlugin (pluginOf c))) defaultUTXOChains.
Proof. eexists. split; [reflexivity|]. repeat (constructor; [reflexivity|]). constructor. Qed.

Lemma gateway_starts : ∃ r, utxoGateway ready account = Ok r.
Proof.
  unfold utxoGateway. destruct started_adapter as (a & Ha & _). rewrite Ha, bind_ok.
  destruct (default_bindings account (utxoAdapter a)) as (r & Hr & _). by exists r.
Qed.

(** Every UTXO chain is bound to the adapter, which has its plugin. *)
Lemma utxoGateway_resolves r chain network :
  utxoGateway ready account = Ok r → NormalizeChain chain ∈ defaultUTXOChains → normalizeNetwork network ≠ "" →
  ∃ a, resolveBinding chain network r = Ok (defaultBinding "utxo" (utxoAdapter a) (NormalizeChain chain))
    ∧ resolveUTXO (NormalizeChain chain) a = Ok (bridgePlugin (pluginOf (NormalizeChain chain))).
Proof.
  intros Hr Hc Hn. unfold utxoGateway in Hr. destruct started_adapter as (a & Ha & Hall). rewrite Ha, bind_ok in Hr. exists a.
  destruct (default_bindings account (utxoAdapter a)) as (r' & Hr' & Hres). rewrite Hr in Hr'. injection Hr' as <-.
  assert (Hcan : canonical (NormalizeChain chain)).
  { destruct bindings_canonical as (_ & Hl & _). by rewrite Forall_forall in Hl; apply Hl. }
  destruct Hcan as (Hcc & _ & Hne). split.
  - apply resolveBinding_ok; [done..|]. by apply Hres.
  - unfold resolveUTXO. cbv zeta. rewrite Hcc, decide_False by done. rewrite Forall_forall in Hall. by rewrite (Hall _ Hc).
Qed.

(** *** Attempts *)

Variables (transient : error → bool) (cancelled : process W → option error).

(** A call that fails wherever it is made fails after any number of attempts. *)
Lemma withRetry_fails {A} (P Q : process W → Prop) op (f : process W → result A * process W) s :
  (∀ s, P s → ∃ e s', f s = (Err e, s') ∧ Q s') → (∀ s, Q s → P s) → P s → ∃ e s', withRetry transient cancelled op f s = (Err e, s') ∧ Q s'.
Proof.
  intros Hf HQ. unfold withRetry. generalize 2%nat as n. intros n. revert s. induction n as [|n IH]; intros s Hs.
  - cbn [retryTimes]. destruct (Hf s Hs) as (e & s' & -> & Hs'). rewrite orb_true_r. by eexists _, s'.
  - change (retryTimes transient cancelled (S (S n)) op f s) with
      (match f s with
       | (Ok out, s) => (Ok out, s)
       | (Err e, s) => if negb (isRetryable transient e) || bool_decide (S n = 0%nat) then (Err (wrap_error op e), s)
                       else match cancelled s with Some c => (Err c, s) | None => retryTimes transient cancelled (S n) op f s end
       end).
    destruct (Hf s Hs) as (e & s' & -> & Hs'). case_match; [by eexists _, s'|]. case_match; [by eexists _, s'|by apply IH, HQ].
Qed.

(** What a hosted call returns, its plugin returned. *)
Lemma hosted_ok {A} (p : call W A) s a s' : hosted p s = (Ok a, s') → ∃ w w', s = Up w ∧ s' = Up w' ∧ p w = (Returned (Ok a), w').
Proof.
  unfold hosted. destruct s as [w|]; [|done]. destruct (p w) as [[r|] w'] eqn:E; [|done]. intros [= -> <-]. eauto.
Qed.

(** A plugin that is there answers what its adaptor answers. *)
Lemma bridged_inv {A} (p : BridgePlugin W) (f : IChainAdaptor W → call W (response A)) w resp w' :
  bridged p f w = (Returned (Ok resp), w') →
  ∃ a, bg_adapter p = Some a ∧ f a w = (Returned (Ok resp), w') ∧ rs_Code resp = SUCCESS.
Proof.
  intros E. unfold bridged in E. apply call_bind_inv in E as (a & w1 & Ha & E). apply call_bind_inv in E as (r & w2 & Hf & E).
  apply call_bind_inv in E as (u & w3 & Hc & E). injection E as <- <-. exists a.
  unfold returns in Ha, Hc. injection Ha as Ha <-. injection Hc as Hc <-. split_and!; [|done|].
  - unfold ensureReady in Ha. destruct (bg_initErr p); [done|]. by apply from_option_err_ok in Ha.
  - by destruct (rs_Code r).
Qed.

Lemma pluginOf_adapter c a : bg_adapter (pluginOf c) = Some a → a = snd (adaptorOf c).
Proof. unfold pluginOf, NewBridgePlugin. cbn. destruct (ready c); cbn; congruence. Qed.
End gateway.

(** A chain of a list, one by one. *)
Ltac each_chain Hc tac := repeat (apply elem_of_cons in Hc as [Hc|Hc]; [rewrite Hc; tac|]); by apply not_elem_of_nil in Hc.

(** From the adapter of a binding to the plugin of its chain. *)
Ltac to_plugin_goal Ha :=
  unfold withAdapter; cbn [defaultBinding pb_Adapter pb_Chain utxoAdapter hashQuery tq_Chain cp_GetUnspentOutputs cp_GetTxByHash
    cp_BuildUnsignedUTXO cp_BuildSignedUTXO cp_ConvertAddress cp_SendTx]; unfold withUTXO; rewrite Ha;
  cbn [bridgePlugin cp_GetUnspentOutputs cp_GetTxByHash cp_BuildUnsignedUTXO cp_BuildSignedUTXO cp_ConvertAddress cp_SendTx].
Tactic Notation "to_plugin" constr(Ha) := to_plugin_goal Ha.
Tactic Notation "to_plugin" constr(Ha) "in" hyp(E) := revert E; to_plugin_goal Ha; intros E.

(** ** Unspent outputs as transfers *)

(** What the service makes of an output of an explorer: the index is its
    [Index], whatever the output's number is. *)
Definition outputTransfer (watch : string) (u : UnspentOutput) : option IncomingTransfer :=
  if decide (TrimSpace (uo_TxId u) = "") then None else
  Some {| gt_TxHash := TrimSpace (uo_TxId u); gt_FromAddress := "";
          gt_ToAddress := if decide (TrimSpace (uo_Address u) = "") then watch else TrimSpace (uo_Address u);
          gt_Amount := if decide (TrimSpace (uo_UnspentAmount u) = "") then "0" else TrimSpace (uo_UnspentAmount u);
          gt_Confirmations := Z.min int64_max (uo_Confirmations u); gt_Index := Z.min int64_max (uo_Index u); gt_Status := "";
          gt_ContractAddress := "" |}.

Lemma assoc_app {A} k (l l' : list (string * A)) : assoc k (l ++ l') = match assoc k l with Some v => Some v | None => assoc k l' end.
Proof.
  unfold assoc. induction l as [|[k' v] l IH]; [done|]. cbn [app List.find fst].
  destruct (bool_decide (k' = k)); [done|exact IH].
Qed.

(** A member that is there, or not. *)
Definition present (v : string) : option json := if decide (v = "") then None else Some (JStr v).
Definition presentNumber (v : Z) : option json := if decide (v = 0) then None else Some (JStr (BigString v)).

Lemma assoc_text k v : assoc k (textMember k v) = present v.
Proof. unfold textMember, present, assoc. case_decide; [done|]. cbn. by rewrite bool_decide_true. Qed.
Lemma assoc_text_other k k' v : k' ≠ k → assoc k (textMember k' v) = None.
Proof. intros Hk. unfold textMember, assoc. case_decide; [done|]. cbn. by rewrite bool_decide_false. Qed.
Lemma assoc_uint64 k v : assoc k (uint64Member k v) = presentNumber v.
Proof. unfold uint64Member, presentNumber, assoc. case_decide; [done|]. cbn. by rewrite bool_decide_true. Qed.
Lemma assoc_uint64_other k k' v : k' ≠ k → assoc k (uint64Member k' v) = None.
Proof. intros Hk. unfold uint64Member, assoc. case_decide; [done|]. cbn. by rewrite bool_decide_false. Qed.

(** Look a key up among members. *)
Ltac members :=
  rewrite !assoc_app;
  repeat first [rewrite assoc_text_other by discriminate | rewrite assoc_uint64_other by discriminate
               | rewrite assoc_text | rewrite assoc_uint64];
  try match goal with |- match ?x with _ => _ end = ?x => by destruct x end;
  done.

Lemma unspent_assoc u :
  let m := unspentMembers u in
  assoc "txId" m = present (uo_TxId u) ∧ assoc "address" m = present (uo_Address u)
  ∧ assoc "unspentAmount" m = present (uo_UnspentAmount u) ∧ assoc "confirmations" m = presentNumber (uo_Confirmations u)
  ∧ assoc "index" m = presentNumber (uo_Index u)
  ∧ Forall (λ k, assoc k m = None) ["tx_hash"; "hash"; "txid"; "amount"; "unspent_amount"; "value"; "to"; "to_address";
                                    "confirm"; "confirmation"; "vout"; "tx_out_n"; "txOutN"].
Proof. cbv zeta. unfold unspentMembers. split_and!; [members..|]. repeat (constructor; [members|]). constructor. Qed.

Lemma pickString_present m k keys v :
  assoc k m = present v → pickString m (k :: keys) = if decide (TrimSpace v = "") then pickString m keys else TrimSpace v.
Proof.
  intros Hk. cbn [pickString]. rewrite Hk. unfold present. case_decide as E; [subst v; by rewrite decide_True|].
  repeat case_decide; done.
Qed.
Lemma pickString_absent m keys : Forall (λ k, assoc k m = None) keys → pickString m keys = "".
Proof. induction 1 as [|k keys Hk _ IH]; [done|]. cbn [pickString]. by rewrite Hk. Qed.
Lemma pickString_skip m k keys : assoc k m = None → pickString m (k :: keys) = pickString m keys.
Proof. intros Hk. cbn [pickString]. by rewrite Hk. Qed.
Lemma pickInt64_absent m keys : Forall (λ k, assoc k m = None) keys → pickInt64 m keys = 0.
Proof. induction 1 as [|k keys Hk _ IH]; [done|]. cbn [pickInt64]. by rewrite Hk. Qed.
Lemma pickInt64_present m k keys v :
  assoc k m = presentNumber v → Forall (λ k, assoc k m = None) keys → 0 ≤ v → pickInt64 m (k :: keys) = Z.min int64_max v.
Proof.
  intros Hk Hs Hv. cbn [pickInt64]. rewrite Hk. unfold presentNumber. case_decide as E.
  - rewrite pickInt64_absent by done. unfold int64_max. lia.
  - rewrite TrimSpace_BigString. unfold parsedInt64. rewrite SetString_String. unfold int64_max, int64_min. lia.
Qed.

Definition countable (u : UnspentOutput) : Prop := 0 ≤ uo_Confirmations u ∧ 0 ≤ uo_Index u.

Ltac in_keys := apply (bool_decide_unpack _); vm_compute; exact I.

Lemma utxoTransfer_members watch u : countable u → utxoTransfer watch (unspentMembers u) = outputTransfer watch u.
Proof.
  intros [Hc Hi]. destruct (unspent_assoc u) as (Htx & Haddr & Hamt & Hconf & Hidx & Hnone).
  set (m := unspentMembers u) in *. rewrite Forall_forall in Hnone.
  assert (Nil : pickString m [] = "") by done.
  assert (Hash : pickString m hashKeys = TrimSpace (uo_TxId u)).
  { unfold hashKeys. rewrite !pickString_skip by (apply Hnone; in_keys). rewrite (pickString_present m _ [] _ Htx), Nil. by case_decide. }
  assert (Amount : pickString m ["amount"; "unspent_amount"; "value"; "unspentAmount"] = TrimSpace (uo_UnspentAmount u)).
  { rewrite !pickString_skip by (apply Hnone; in_keys). rewrite (pickString_present m _ [] _ Hamt), Nil. by case_decide. }
  assert (Address : pickString m ["address"; "to"; "to_address"] = TrimSpace (uo_Address u)).
  { rewrite (pickString_present m _ _ _ Haddr), !pickString_skip by (apply Hnone; in_keys). rewrite Nil. by case_decide. }
  assert (Confirmations : pickInt64 m ["confirmations"; "confirm"; "confirmation"] = Z.min int64_max (uo_Confirmations u)).
  { apply pickInt64_present; [done| |done]. repeat (constructor; [apply Hnone; in_keys|]). constructor. }
  assert (Index : pickInt64 m ["index"; "vout"; "tx_out_n"; "txOutN"] = Z.min int64_max (uo_Index u)).
  { apply pickInt64_present; [done| |done]. repeat (constructor; [apply Hnone; in_keys|]). constructor. }
  unfold utxoTransfer, outputTransfer. cbv zeta. by rewrite Hash, Amount, Address, Confirmations, Index.
Qed.

(** The candidates of a response are its outputs. *)
Definition flat (m : jobject) : Prop := Forall (λ e, ∃ s, snd e = JStr s) m.
Lemma flat_text k v : flat (textMember k v).
Proof. unfold textMember. case_decide; repeat constructor. by eexists. Qed.
Lemma flat_uint64 k v : flat (uint64Member k v).
Proof. unfold uint64Member. case_decide; repeat constructor. by eexists. Qed.
Lemma flat_app m m' : flat m → flat m' → flat (m ++ m').
Proof. apply Forall_app_2. Qed.
Lemma unspent_flat u : flat (unspentMembers u).
Proof. unfold unspentMembers. repeat apply flat_app; first [apply flat_text|apply flat_uint64]. Qed.

Lemma flat_collect m : flat m → List.flat_map (λ e, collectObjectCandidates (snd e)) m = [].
Proof. induction 1 as [|[k x] m (s & E) _ IH]; [done|]. cbn in *. by rewrite E, IH. Qed.

Lemma collect_unspent watch l :
  Forall countable l → omap (utxoTransfer watch) (List.flat_map collectObjectCandidates (JObj ∘ unspentMembers <$> l)) = omap (outputTransfer watch) l.
Proof.
  induction 1 as [|u l Hu _ IH]; [done|]. cbn [fmap list_fmap List.flat_map compose collectObjectCandidates].
  rewrite flat_collect by apply unspent_flat. rewrite app_nil_r, omap_app, IH. change (omap (outputTransfer watch) (u :: l)) with
    (match outputTransfer watch u with Some y => y :: omap (outputTransfer watch) l | None => omap (outputTransfer watch) l end).
  rewrite <- (utxoTransfer_members watch u Hu). case_decide as E; cbn [omap list_omap].
  - by destruct (utxoTransfer watch (unspentMembers u)).
  - unfold utxoTransfer. cbv zeta. by rewrite decide_True.
Qed.

Lemma extract_unspent watch r :
  rs_Code r = SUCCESS → Forall countable (rs_Body r) →
  extractUTXOTransfers (messageMembers (MUnspentOutputs r)) watch = omap (outputTransfer watch) (rs_Body r).
Proof.
  intros Hcode Hl. unfold extractUTXOTransfers. cbn [messageMembers]. unfold responseMembers. rewrite Hcode. cbn [app collectObjectCandidates].
  rewrite pickString_absent.
  2:{ repeat (constructor; [rewrite assoc_app, assoc_text_other by discriminate; unfold listMember; by case_decide|]). constructor. }
  rewrite decide_False by (intros E; by apply E). cbn [app]. rewrite List.flat_map_app, (flat_collect (textMember _ _)) by apply flat_text.
  cbn [app]. unfold listMember. case_decide as E.
  - destruct (rs_Body r); [done|discriminate].
  - cbn [List.flat_map snd collectObjectCandidates]. rewrite app_nil_r. by apply collect_unspent.
Qed.

(** ** Transfers of a UTXO chain *)

Section service.
Context {W : Type} `{ProtoJSON} `{!ProtoJSONLaws} `{Btcd} `{BaseClients W} `{Decimals} `{BlockchainInfo (W := W)} `{Base58} `{Sha256}
  `{Insight W} `{Gob}.
Variables (ready : string → result ()) (account : ChainPlugin (process W)).
Variables (transient : error → bool) (cancelled : process W → option error).

(** What the explorer of a chain says of an address. *)
Definition outputsOf (c address : string) (w : W) (resp : response (list UnspentOutput)) (w' : W) : Prop :=
  ∃ source network, ic_GetUnspentOutputs (snd (adaptorOf c)) {| uq_Chain := source; uq_Network := network;
                                                                uq_Address := TrimSpace address |} w = (Returned (Ok resp), w').

Lemma utxo_incoming r inp s out s' :
  utxoGateway ready account = Ok r → NormalizeChain (ii_Chain inp) ∈ defaultUTXOChains → normalizeNetwork (ii_Network inp) ≠ "" →
  serviceIncoming transient cancelled r inp s = (Ok out, s') →
  ∃ w resp w', outputsOf (NormalizeChain (ii_Chain inp)) (ii_Address inp) w resp w' ∧ rs_Code resp = SUCCESS
    ∧ (Forall countable (rs_Body resp) → gr_Items out = omap (outputTransfer (ii_Address inp)) (rs_Body resp)).
Proof.
  intros Hr Hc Hn E. destruct (utxoGateway_resolves ready account r _ _ Hr Hc Hn) as (a & Hb & Ha).
  unfold serviceIncoming in E. rewrite Hb in E. cbn [defaultBinding pb_Model pb_Chain] in E. case_decide; [done|]. case_decide; [done|].
  destruct (fetchIncomingRaw _ _ _ _ s) as [[raw|e] s1] eqn:Hf; [|done]. cbn [fmap result_fmap] in E.
  assert (out = IncomingTransfers "utxo" (NormalizeChain (ii_Chain inp)) raw (ii_Address inp)) as -> by congruence. clear E.
  unfold fetchIncomingRaw in Hf. cbn [defaultBinding pb_Model pb_Chain] in Hf. rewrite decide_True in Hf by done.
  apply withRetry_ok_inv in Hf as [s2 E]. to_plugin Ha in E.
  apply hosted_ok in E as (w & w' & -> & -> & E). apply call_bind_inv in E as (resp & w1 & E & E').
  injection E' as <- <-. apply bridged_inv in E as (ad & Had & E & Hcode). apply pluginOf_adapter in Had as ->.
  exists w, resp, w1. split_and!; [do 2 eexists; exact E|done|]. intros Hl.
  unfold IncomingTransfers, marshalProtoJSON. rewrite decide_True by done. rewrite protojson_spec. by apply extract_unspent.
Qed.

(** *** Bitcoin and Horizen *)

(** Numbers of the explorer are unsigned. *)
Definition unsignedAnswers : Prop :=
  (∀ path w status l w', rest_unspent path w = (Ok (status, l), w') → Forall (λ u, 0 ≤ bu_TxIndex u) l)
  ∧ (∀ path w status l w', get_utxo path w = (Ok (status, l), w') → Forall (λ u, 0 ≤ zu_Confirmations u) l).

Lemma restAnswer_inv {A} what failed (f : W → result (Z * A) * W) w a w' :
  restAnswer what failed f w = (Returned (Ok a), w') → f w = (Ok (200, a), w').
Proof. unfold restAnswer. destruct (f w) as [[[status b]|] w1]; [|done]. case_decide; [subst; congruence|done]. Qed.

(** An output as Bitcoin's explorer reports it, and what is kept of it. *)
Definition btcOutput (u : BtcUnspentOutput) : UnspentOutput := {|
  uo_TxId := bu_TxHash u; uo_TxHashBigEndian := bu_TxHashBigEndian u; uo_TxOutputN := bu_TxOutputN u; uo_Script := bu_Script u;
  uo_Height := ""; uo_BlockTime := ""; uo_Address := ""; uo_UnspentAmount := BigString (bu_Value u); uo_ValueHex := "";
  uo_Confirmations := 0; uo_Index := bu_TxIndex u |}.
Definition zenOutput (u : ZenUnspentOutput) : UnspentOutput := {|
  uo_TxId := zu_Txid u; uo_TxHashBigEndian := ""; uo_TxOutputN := 0; uo_Script := zu_ScriptPubKey u;
  uo_Height := BigString (zu_Height u); uo_BlockTime := ""; uo_Address := zu_Address u;
  uo_UnspentAmount := BigString (zu_Satoshis u); uo_ValueHex := ""; uo_Confirmations := zu_Confirmations u; uo_Index := 0 |}.

Lemma btc_outputs address w resp w' :
  outputsOf "bitcoin" address w resp w' →
  ∃ l, rest_unspent ("/unspent?active=" +:+ TrimSpace address) w = (Ok (200, l), w') ∧ rs_Body resp = btcOutput <$> l.
Proof.
  intros (source & network & E). cbn [adaptorOf snd] in E. apply call_bind_inv in E as (l & w1 & El & E). injection E as <- <-.
  apply restAnswer_inv in El. by exists l.
Qed.
Lemma zen_outputs address w resp w' :
  outputsOf "zen" address w resp w' →
  ∃ l, get_utxo ("/addr/" +:+ TrimSpace address +:+ "/utxo") w = (Ok (200, l), w') ∧ rs_Body resp = zenOutput <$> l.
Proof.
  intros (source & network & E). cbn [adaptorOf snd] in E. apply call_bind_inv in E as (l & w1 & El & E). injection E as <- <-.
  apply restAnswer_inv in El. by exists l.
Qed.
(** The chains of the other explorer. *)
Lemma explorer_outputs c address w resp w' :
  c ∈ ["bitcoincash"; "dash"; "litecoin"] → outputsOf c address w resp w' → Forall (λ u, uo_Confirmations u = 0 ∧ 0 ≤ uo_Index u) (rs_Body resp).
Proof.
  intros Hc (source & network & E).
  assert (∃ x, ic_GetUnspentOutputs (snd (adaptorOf c)) = explorerGetUnspentOutputs x) as (x & Hx).
  { each_chain Hc ltac:(by eexists). }
  rewrite Hx in E. apply call_bind_inv in E as (l & w1 & El & E). injection E as <- <-. cbn [rs_Body]. apply Forall_fmap, Forall_true.
  intros u. cbn. unfold outputNumber. split; [done|]. apply Z.mod_pos_bound. lia.
Qed.

Lemma omap_Forall {A B} (f : A → option B) (P : B → Prop) l : (∀ x y, x ∈ l → f x = Some y → P y) → Forall P (omap f l).
Proof.
  intros Hf. apply Forall_forall. intros y Hy. apply list_elem_of_omap in Hy as (x & Hx & Hy). by eapply Hf.
Qed.

Lemma omap_over {A B C} (f : B → option C) (g : A → B) (l : list A) : omap f (g <$> l) = omap (λ x, f (g x)) l.
Proof. induction l as [|x l IH]; [done|]. cbn. by rewrite IH. Qed.

(** C21. The transfers of a UTXO chain are the unspent outputs its explorer
    reports for the address, in its order, each with its transaction and its
    amount; of Bitcoin with the number of the transaction as their index and
    no confirmations, of Horizen with the confirmations and no index. *)
Theorem utxo_transfers_are_the_outputs r inp s out s' :
  utxoGateway ready account = Ok r → NormalizeChain (ii_Chain inp) ∈ ["bitcoin"; "zen"] → normalizeNetwork (ii_Network inp) ≠ "" →
  unsignedAnswers → serviceIncoming transient cancelled r inp s = (Ok out, s') →
  ∃ w w', (NormalizeChain (ii_Chain inp) = "bitcoin" ∧ ∃ l,
             rest_unspent ("/unspent?active=" +:+ TrimSpace (ii_Address inp)) w = (Ok (200, l), w')
             ∧ gr_Items out = omap (λ u, outputTransfer (ii_Address inp) (btcOutput u)) l)
    ∨ (NormalizeChain (ii_Chain inp) = "zen" ∧ ∃ l,
             get_utxo ("/addr/" +:+ TrimSpace (ii_Address inp) +:+ "/utxo") w = (Ok (200, l), w')
             ∧ gr_Items out = omap (λ u, outputTransfer (ii_Address inp) (zenOutput u)) l).
Proof.
  intros Hr Hc Hn [Hbtc Hzen] E. apply elem_of_cons in Hc as [Hc|Hc]; [|apply list_elem_of_singleton in Hc].
  all: apply utxo_incoming in E as (w & resp & w' & Ho & _ & Hi); [|done|rewrite Hc; in_keys|done]; rewrite Hc in *; exists w, w'.
  - left. apply btc_outputs in Ho as (l & Hl & Hb). split; [done|]. exists l. split; [done|]. rewrite Hi, Hb, omap_over; [done|].
    rewrite Hb. apply Forall_fmap. eapply Forall_impl; [by eapply Hbtc|]. intros u Hu. cbn beta in Hu. by split.
  - right. apply zen_outputs in Ho as (l & Hl & Hb). split; [done|]. exists l. split; [done|]. rewrite Hi, Hb, omap_over; [done|].
    rewrite Hb. apply Forall_fmap. eapply Forall_impl; [by eapply Hzen|]. intros u Hu. cbn beta in Hu. by split.
Qed.

(** C37. A transfer of any UTXO chain but Horizen is pending for the scanner for
    ever: what the service answers has neither a status nor confirmations, however
    deep the output is in the chain, so no threshold is ever met. *)
Theorem utxo_deposit_stays_pending r inp s out s' minConf :
  utxoGateway ready account = Ok r → NormalizeChain (ii_Chain inp) ∈ ["bitcoin"; "bitcoincash"; "dash"; "litecoin"] →
  normalizeNetwork (ii_Network inp) ≠ "" → unsignedAnswers → serviceIncoming transient cancelled r inp s = (Ok out, s') →
  Forall (λ it, UtxoScanner.resolveDepositStatus (gt_Status it) (gt_Confirmations it) minConf = "PENDING") (gr_Items out).
Proof.
  intros Hr Hc Hn Hu E.
  assert (Hnone : ∀ l, Forall (λ u, uo_Confirmations u = 0 ∧ 0 ≤ uo_Index u) l →
    Forall countable l ∧ Forall (λ it, UtxoScanner.resolveDepositStatus (gt_Status it) (gt_Confirmations it) minConf = "PENDING")
                           (omap (outputTransfer (ii_Address inp)) l)).
  { intros l Hl. rewrite Forall_forall in Hl. split; [apply Forall_forall; intros u Hin; destruct (Hl u Hin); split; lia|].
    apply omap_Forall. intros u it Hin Ht. destruct (Hl u Hin) as [Hz _]. unfold outputTransfer in Ht. case_decide; [done|].
    injection Ht as <-. cbn. rewrite Hz. unfold UtxoScanner.resolveDepositStatus. change (ToUpper (TrimSpace "")) with "". cbv zeta.
    rewrite !decide_False by (intros; intuition congruence). rewrite decide_False by (unfold int64_max; lia).
    by rewrite decide_True by (case_decide; unfold int64_max; lia). }
  apply utxo_incoming in E as (w & resp & w' & Ho & _ & Hi); [|done| |done].
  2:{ clear -Hc. each_chain Hc in_keys. }
  apply elem_of_cons in Hc as [Hc|Hc].
  - rewrite Hc in Ho. apply btc_outputs in Ho as (l & Hl & Hb).
    destruct (Hnone (rs_Body resp)) as [Ha Hb2]; [|by rewrite Hi].
    rewrite Hb. apply Forall_fmap. eapply Forall_impl; [by eapply (proj1 Hu)|]. intros u Hi0. exact (conj eq_refl Hi0).
  - destruct (Hnone (rs_Body resp)) as [Ha Hb2]; [by eapply explorer_outputs|by rewrite Hi].
Qed.

(** *** Finality *)

(** The response of [GetTxByHash] is searched in its transaction. *)
Lemma search_tx keys r s :
  rs_Code r = SUCCESS → directString (messageMembers (MTxByHash r)) keys = None →
  directString (txMembers (rs_Body r)) keys = Some s → s ≠ "" → findFirstString keys (JObj (messageMembers (MTxByHash r))) = s.
Proof.
  intros Hcode Hd Hs Hne. cbn [findFirstString]. rewrite Hd. cbn [messageMembers]. unfold responseMembers. rewrite Hcode. cbn [app].
  rewrite List.flat_map_app. unfold textMember. case_decide; cbn [List.flat_map snd app]; rewrite (findFirstString_direct _ _ _ Hs);
    unfold firstText; cbn [app List.find]; by rewrite bool_decide_true.
Qed.

Lemma tx_status_text t : tm_Status t = Success → directString (txMembers t) ["status"; "tx_status"; "state"; "receipt_status"] = Some "Success".
Proof.
  intros Ht. cbn [directString]. enough (assoc "status" (txMembers t) = Some (JStr "Success")) as -> by done.
  unfold txMembers. rewrite Ht. rewrite !assoc_app.
  rewrite !assoc_text_other by discriminate. unfold numberMember, listMember, assoc. repeat (case_decide; [cbn; try done|]; cbn; try done).
Qed.

Lemma firstNumber_zeros l : Forall (λ n, n = 0) l → firstNumber l = 0.
Proof. unfold firstNumber. induction 1 as [|n l -> _ IH]; [done|]. cbn [List.find]. rewrite bool_decide_eq_false_2 by (intros E; by apply E). exact IH. Qed.
Lemma Forall_flat {A B} (P : B → Prop) (f : A → list B) l : (∀ x, x ∈ l → Forall P (f x)) → Forall P (List.flat_map f l).
Proof. induction l as [|x l IH]; intros Hl; [by constructor|]. apply Forall_app_2; [apply Hl; by left|apply IH; intros; apply Hl; by right]. Qed.

(** No number is found among texts. *)
Definition countKeys : list string := ["confirmations"; "confirmation"; "confirm"].
Lemma flat_numberless m : flat m → Forall (λ k, assoc k m = None) countKeys → findFirstInt64 countKeys (JObj m) = 0.
Proof.
  intros Hm Hk. assert (Hd : directInt64 m countKeys = None).
  { clear Hm. induction Hk as [|k keys Hk _ IH]; [done|]. cbn [directInt64]. by rewrite Hk. }
  cbn [findFirstInt64]. rewrite Hd. enough (List.flat_map _ m = []) as -> by done.
  clear Hd Hk. induction Hm as [|[k x] m (s & E) _ IH]; [done|]. cbn in *. by rewrite E, IH.
Qed.
Lemma text_numberless k v : k ∉ countKeys → findFirstInt64 countKeys (JObj (textMember k v)) = 0.
Proof.
  intros Hk. apply flat_numberless; [apply flat_text|]. apply Forall_forall. intros k' Hk'. apply assoc_text_other. by intros ->.
Qed.
Lemma texts_numberless k l : k ∉ countKeys →
  Forall (λ n, n = 0) (List.flat_map (λ it, match it with JObj _ => [findFirstInt64 countKeys it] | _ => [] end) (texts k l)).
Proof.
  intros Hk. apply Forall_flat. intros x Hx. unfold texts in Hx. apply list_elem_of_fmap in Hx as (v & -> & _).
  constructor; [by apply text_numberless|constructor].
Qed.

Lemma assoc_number_other k k' v : k' ≠ k → assoc k (numberMember k' v) = None.
Proof. intros Hk. unfold numberMember, assoc. case_decide; [done|]. cbn. by rewrite bool_decide_false. Qed.
Lemma assoc_list_other k k' l : k' ≠ k → assoc k (listMember k' l) = None.
Proof. intros Hk. unfold listMember, assoc. case_decide; [done|]. cbn. by rewrite bool_decide_false. Qed.

Lemma tx_numberless t : findFirstInt64 countKeys (JObj (txMembers t)) = 0.
Proof.
  assert (Hd : directInt64 (txMembers t) countKeys = None).
  { cbn [directInt64 countKeys]. assert (Hk : Forall (λ k, assoc k (txMembers t) = None) countKeys).
    { unfold txMembers. repeat (constructor;
        [rewrite !assoc_app, !assoc_text_other, !assoc_number_other, !assoc_list_other by discriminate; by destruct (tm_Status t)|]).
      constructor. }
    rewrite Forall_forall in Hk. by rewrite !Hk by in_keys. }
  cbn [findFirstInt64]. rewrite Hd. apply firstNumber_zeros. unfold txMembers. rewrite !List.flat_map_app.
  repeat apply Forall_app_2;
    try (unfold textMember, numberMember; case_decide; cbn; repeat constructor; fail).
  all: match goal with |- context [listMember _ _] => idtac | _ => by destruct (tm_Status t); cbn; repeat constructor end.
  all: unfold listMember; case_decide; cbn [List.flat_map snd]; [constructor|rewrite app_nil_r; apply texts_numberless].
  all: by apply (bool_decide_unpack _); vm_compute.
Qed.

(** A transaction that a UTXO chain knows, mined or not. *)
Lemma transaction_finality txHash r :
  rs_Code r = SUCCESS → tm_Status (rs_Body r) = Success → TrimSpace txHash ≠ "" →
  Finality txHash (messageMembers (MTxByHash r)) = {| gf_TxHash := txHash; gf_Confirmations := -1; gf_Status := "CONFIRMED"; gf_Found := true |}.
Proof.
  intros Hcode Hst Hh.
  assert (Hstatus : findFirstString ["status"; "tx_status"; "state"; "receipt_status"] (JObj (messageMembers (MTxByHash r))) = "Success").
  { apply search_tx; [done| |by apply tx_status_text|done]. cbn [messageMembers]. unfold responseMembers. rewrite Hcode. cbn [directString app].
    by rewrite !assoc_app, !assoc_text_other by discriminate. }
  assert (Hcount : findFirstInt64 countKeys (JObj (messageMembers (MTxByHash r))) = 0).
  { cbn [messageMembers]. unfold responseMembers. rewrite Hcode. cbn [app]. cbn [findFirstInt64].
    assert (Hd : directInt64 (textMember "msg" (rs_Msg r) ++ [("tx", JObj (txMembers (rs_Body r)))]) countKeys = None).
    { cbn [directInt64 countKeys]. by rewrite !assoc_app, !assoc_text_other by discriminate. }
    rewrite Hd. rewrite List.flat_map_app. unfold textMember. apply firstNumber_zeros. apply Forall_app_2; [by case_decide; repeat constructor|].
    cbn [List.flat_map snd app]. constructor; [apply tx_numberless|constructor]. }
  unfold Finality. fold countKeys. rewrite Hstatus, Hcount, decide_False by done. cbv zeta.
  assert (bool_decide (txHash ≠ "" ∨ findFirstString ["tx_hash"; "txid"; "txId"; "hash"] (JObj (messageMembers (MTxByHash r))) ≠ "") = true) as ->.
  { apply bool_decide_eq_true_2. left. by intros ->. }
  done.
Qed.

Lemma found_status c q w resp w' :
  c ∈ defaultUTXOChains → ic_GetTxByHash (snd (adaptorOf (W := W) c)) q w = (Returned (Ok resp), w') → tm_Status (rs_Body resp) = Success.
Proof.
  intros Hc E. repeat (apply elem_of_cons in Hc as [-> | Hc];
    [cbn in E; apply call_bind_inv in E as (t & w1 & _ & E); by injection E as <- _|]). by apply not_elem_of_nil in Hc.
Qed.

(** C38. A payment that a UTXO chain knows at all is reported as confirmed with an
    unknown number of confirmations, though the transaction may be in no block:
    no adaptor looks at its height. *)
Theorem utxo_payment_confirmed_unmined r chain coin network txHash s out s' :
  utxoGateway ready account = Ok r → NormalizeChain chain ∈ defaultUTXOChains → normalizeNetwork network ≠ "" →
  serviceFinality transient cancelled r chain coin network txHash s = (Ok out, s') →
  out = {| gf_TxHash := txHash; gf_Confirmations := -1; gf_Status := "CONFIRMED"; gf_Found := true |}.
Proof.
  intros Hr Hc Hn E. destruct (utxoGateway_resolves ready account r _ _ Hr Hc Hn) as (a & Hb & Ha).
  unfold resolveBinding in Hb. unfold serviceFinality in E. destruct (validateChainNetwork chain network); [|done].
  case_decide as Hh; [done|]. rewrite bind_ok in Hb. rewrite Hb in E.
  destruct (withRetry _ _ _ _ s) as [[raw|e] s1] eqn:Hw; [|done].
  apply withRetry_ok_inv in Hw as [s0 Hw]. to_plugin Ha in Hw. apply hosted_ok in Hw as (w & w' & -> & -> & Hw).
  apply call_bind_inv in Hw as (resp & w1 & Hw & E'). injection E' as <- <-.
  apply bridged_inv in Hw as (ad & Had & Hw & Hcode). apply pluginOf_adapter in Had as ->.
  apply found_status in Hw; [|done]. unfold marshalProtoJSON in E. rewrite protojson_spec in E. cbn [mbind result_bind] in E.
  rewrite transaction_finality in E by done. cbn in E. rewrite decide_False in E by done. by injection E as <- _.
Qed.

(** *** Payments *)

(** What is built for a UTXO chain its plugin built, whichever way it came. *)
Lemma utxo_built r inp s u s' :
  utxoGateway ready account = Ok r → NormalizeChain (bi_Chain inp) ∈ defaultUTXOChains → normalizeNetwork (bi_Network inp) ≠ "" →
  serviceBuildUnsigned transient cancelled r inp s = (Ok u, s') →
  ∃ req w resp w', ic_CreateUnSignTransaction (snd (adaptorOf (NormalizeChain (bi_Chain inp)))) req w = (Returned (Ok resp), w')
    ∧ rs_Code resp = SUCCESS ∧ br_UnsignedTx u = of_bytes (ur_TxData (rs_Body resp)).
Proof.
  intros Hr Hc Hn E. destruct (utxoGateway_resolves ready account r _ _ Hr Hc Hn) as (a & Hb & Ha).
  unfold serviceBuildUnsigned in E. rewrite Hb in E.
  assert (Hutxo : ∃ op s1, withRetry transient cancelled op (withAdapter (defaultBinding "utxo" (utxoAdapter a) (NormalizeChain (bi_Chain inp)))
    (λ p, cp_BuildUnsignedUTXO p (NormalizeChain (bi_Chain inp)) (bi_Network inp) (bi_Fee inp) (bi_Vin inp) (bi_Vout inp))) s1 = (Ok u, s')).
  { case_decide; [by do 2 eexists|]. destruct (withRetry _ _ _ _ s) as [[u0|e] s1] eqn:Hw.
    - exfalso. apply withRetry_ok_inv in Hw as [s2 Hw]. by cbn in Hw.
    - case_match; [by do 2 eexists|done]. }
  clear E. destruct Hutxo as (op & s1 & E). apply withRetry_ok_inv in E as [s2 E]. to_plugin Ha in E. apply hosted_ok in E as (w & w' & -> & -> & E).
  apply call_bind_inv in E as (resp & w1 & E & E'). injection E' as <- <-.
  apply bridged_inv in E as (ad & Had & E & Hcode). apply pluginOf_adapter in Had as ->.
  eexists _, w, resp, w1. split_and!; [exact E|exact Hcode|reflexivity].
Qed.

(** Of a Bitcoin payment the service hands out an empty transaction, so that
    it cannot be sent: a broadcast of what was built, with any signatures, is
    refused for having no transaction. *)
Theorem bitcoin_payment_is_never_sent r inp s u s' p s2 :
  utxoGateway ready account = Ok r → NormalizeChain (bi_Chain inp) = "bitcoin" → normalizeNetwork (bi_Network inp) ≠ "" →
  serviceBuildUnsigned transient cancelled r inp s = (Ok u, s') →
  NormalizeChain (bc_Chain p) = "bitcoin" → normalizeNetwork (bc_Network p) ≠ "" → bc_UnsignedTx p = br_UnsignedTx u → bc_RawTx p = "" →
  br_UnsignedTx u = "" ∧ serviceSendTx transient cancelled r p s2 = (Err (Errorf "raw_tx is required"), s2).
Proof.
  intros Hr Hc Hn E Hpc Hpn Hpu Hraw. apply utxo_built in E as (req & w & resp & w' & E & _ & Hu); [|done|rewrite Hc; in_keys|done].
  assert (Hempty : br_UnsignedTx u = "").
  { rewrite Hc in E. cbn in E. apply call_bind_inv in E as ([hashes buf] & w1 & E & E'). injection E' as <- <-. rewrite Hu. cbn.
    injection E as E <-. unfold CalcSignHashes in E. case_decide; [done|].
    apply bind_ok_inv in E as (t & _ & E). apply bind_ok_inv in E as (hs & _ & E). by injection E as <- <-. }
  split; [done|]. destruct (utxoGateway_resolves ready account r (bc_Chain p) (bc_Network p) Hr) as (a & Hb & _); [rewrite Hpc; in_keys|done|].
  unfold serviceSendTx, rawTransaction. rewrite Hb, Hpu, Hempty, Hraw. rewrite decide_False by (intros (_ & Hne & _); by apply Hne). by rewrite decide_True.
Qed.

(** A call that leaves the gateway as it is does so after any number of attempts. *)
Lemma withRetry_keeps {A} op (f : process W → result A * process W) s : (∀ s, snd (f s) = s) → snd (withRetry transient cancelled op f s) = s.
Proof.
  intros Hf. unfold withRetry. generalize 3%nat as n. intros n. revert s. induction n as [|n IH]; intros s; cbn [retryTimes]; [done|].
  pose proof (Hf s) as Hs. destruct (f s) as [[a|e] s1]; cbn in Hs; subst s1; [done|]. case_match; [done|]. case_match; [done|apply IH].
Qed.

(** Calls that ask nobody and end. *)
Definition quiet {A} (p : call W A) : Prop := ∀ w, ∃ o, p w = (Returned o, w).
Lemma hosted_keeps {A} (p : call W A) s : quiet p → snd (hosted p s) = s.
Proof. intros Hp. destruct s as [w|]; [|done]. unfold hosted. by destruct (Hp w) as [o ->]. Qed.
Lemma quiet_returns {A} (r : result A) : quiet (returns r).
Proof. intros w. by exists r. Qed.
Lemma quiet_ret {A} (a : A) : quiet (mret a).
Proof. intros w. by exists (Ok a). Qed.
Lemma quiet_bind {A B} (p : call W A) (f : A → call W B) : quiet p → (∀ a, quiet (f a)) → quiet (p ≫= f).
Proof. intros Hp Hf w. destruct (Hp w) as [[a|e] E]; unfold mbind, call_bind; rewrite E; [apply Hf|by eexists]. Qed.
Lemma quiet_bridged {A} c (f : IChainAdaptor W → call W (response A)) : quiet (f (snd (adaptorOf c))) → quiet (bridged (pluginOf ready c) f).
Proof.
  intros Hf w. unfold bridged. destruct (ensureReady (pluginOf ready c)) as [ad|e] eqn:Hr; [|by eexists].
  assert (ad = snd (adaptorOf c)) as ->.
  { apply (pluginOf_adapter ready). unfold ensureReady in Hr. destruct (bg_initErr _); [done|]. by apply from_option_err_ok in Hr. }
  revert w. change (quiet (resp ← f (snd (adaptorOf c)); _ ← returns (expectBridgeCodeOK (rs_Code resp) (rs_Msg resp)); mret resp)).
  apply quiet_bind; [done|]. intros resp. apply quiet_bind; [apply quiet_returns|]. intros []. apply quiet_ret.
Qed.

(** Signing for Horizen asks nobody. *)
Lemma zen_signs_alone req : quiet (zenBuildSignedTransaction req).
Proof.
  unfold zenBuildSignedTransaction. case_decide; [apply quiet_ret|]. apply quiet_bind; [apply quiet_returns|]. intros t.
  case_decide; [apply quiet_ret|]. apply quiet_bind; [apply quiet_returns|]. intros ins. apply quiet_ret.
Qed.

(** The first byte of a transaction, its version, is no hexadecimal digit. *)
Definition unreadable (l : bytes) : Prop := ∃ l', l = byteOf 1 :: l'.
Lemma SerializeTX_unreadable t raw : tx_Version t = 1 → SerializeTX t false = Ok raw → unreadable raw.
Proof.
  intros Ht E. unfold SerializeTX in E. rewrite Ht in E. repeat (apply bind_ok_inv in E as (? & _ & E)). injection E as <-. by eexists.
Qed.
Lemma unreadable_refused l : unreadable l → ∃ e, DeserializeTx (TrimSpace (of_bytes l)) false = Returned (Err e).
Proof.
  intros [l' ->]. unfold TrimSpace. rewrite to_of_bytes. change (trim_left (byteOf 1 :: l')) with (trim_with is_space2 is_space3 (byteOf 1 :: l')).
  assert (trim_with is_space2 is_space3 (byteOf 1 :: l') = byteOf 1 :: l') as -> by (apply trim_with_clean; by intros).
  destruct (trim_right_prefix (byteOf 1 :: l')) as [q Hq]. unfold DeserializeTx. rewrite to_of_bytes.
  destruct (trim_right (byteOf 1 :: l')) as [|c [|d l2]]; [by eexists| |]; injection Hq as <- _; by eexists.
Qed.

(** What is signed of a transaction of version 1 cannot be read. *)
Lemma zen_signed_unreadable req t (w : W) resp w' :
  gobDecode (st_TxData req) = Ok t → tx_Version t = 1 → zenBuildSignedTransaction req w = (Returned (Ok resp), w') →
  sr_SignedTxData (rs_Body resp) = [] ∨ unreadable (sr_SignedTxData (rs_Body resp)).
Proof.
  intros Ht Hv E. unfold zenBuildSignedTransaction in E. case_decide; [injection E as <- _; by left|].
  apply call_bind_inv in E as (t' & w1 & Ht' & E). injection Ht' as Ht' <-. rewrite Ht in Ht'. injection Ht' as <-.
  case_decide; [injection E as <- _; by left|]. apply call_bind_inv in E as (ins & w2 & _ & E). injection E as <- _. cbn.
  destruct (SerializeTX _ false) as [raw|e] eqn:Hraw; [right|by left]. by eapply SerializeTX_unreadable in Hraw.
Qed.

Lemma zen_send_refused network coin raw s :
  unreadable raw → ∃ e, hosted (bridgeSendTx (W := W) (pluginOf ready "zen") network coin (of_bytes raw)) s = (Err e, s).
Proof.
  intros Hraw. destruct s as [w|]; [|by eexists]. destruct (unreadable_refused raw Hraw) as [e He]. unfold hosted, bridgeSendTx, bridged.
  destruct (ensureReady (pluginOf ready "zen")) as [ad|e'] eqn:Hr; [|by eexists].
  assert (ad = zenAdaptor) as ->.
  { change zenAdaptor with (snd (adaptorOf (W := W) "zen")). apply (pluginOf_adapter ready). unfold ensureReady in Hr.
    destruct (bg_initErr _); [done|]. by apply from_option_err_ok in Hr. }
  unfold returns, mbind, call_bind. cbn [zenAdaptor ic_SendTx]. unfold zenSendTx, ends, mbind, call_bind. cbn [sq_RawTx]. rewrite He. by eexists.
Qed.

(** C35. A Horizen payment that was built is not sent, whatever the signatures:
    sent back in the encoding the service asks for, it is signed as bytes,
    which the check before the explorer reads as hexadecimal digits.  The world
    is left as it is. *)
Theorem zen_payment_is_never_sent `{!GobLaws} r inp s u s' p s2 :
  utxoGateway ready account = Ok r → NormalizeChain (bi_Chain inp) = "zen" → normalizeNetwork (bi_Network inp) ≠ "" →
  serviceBuildUnsigned transient cancelled r inp s = (Ok u, s') →
  NormalizeChain (bc_Chain p) = "zen" → normalizeNetwork (bc_Network p) ≠ "" →
  DecodeString (bc_UnsignedTx p) = Some (to_bytes (br_UnsignedTx u)) → bc_RawTx p = "" →
  ∃ e, serviceSendTx transient cancelled r p s2 = (Err e, s2).
Proof.
  intros Hr Hc Hn E Hpc Hpn Hpu Hraw. apply utxo_built in E as (req & w & resp & w' & E & _ & Hu); [|done|rewrite Hc; in_keys|done].
  rewrite Hc in E. cbn in E. apply call_bind_inv in E as ([hashes buf] & w1 & E & E'). injection E' as <- <-. cbn in Hu.
  apply zenCalcSignHashes_inv in E as (t & block & Henc & Hv & _). apply gob_round_trip in Henc. rewrite Hu, to_of_bytes in Hpu.
  destruct (utxoGateway_resolves ready account r (bc_Chain p) (bc_Network p) Hr) as (a & Hb & Ha); [rewrite Hpc; in_keys|done|].
  rewrite Hpc in Hb, Ha. unfold serviceSendTx. rewrite Hb. unfold rawTransaction. rewrite Hraw, Hpu.
  case_decide; [|rewrite decide_True by done; by eexists]. case_decide; [by eexists|]. cbn [defaultBinding pb_Model].
  rewrite decide_False by done. cbn [from_option_err]. rewrite bind_ok.
  destruct (decodeEach "signature" (bc_Signatures p)) as [sigs|e]; [|by eexists]. rewrite bind_ok.
  destruct (decodeEach "public key" (bc_PublicKeys p)) as [pubs|e]; [|by eexists]. rewrite bind_ok.
  destruct (buildSignedUTXO _ _ _ _ _ _ _ s2) as [out s3] eqn:Hs.
  unfold buildSignedUTXO in Hs. cbn [defaultBinding pb_Chain] in Hs.
  assert (Hquiet : ∀ s, snd (withAdapter (defaultBinding "utxo" (utxoAdapter a) "zen")
    (λ p0, cp_BuildSignedUTXO p0 "zen" (bc_Network p) buf sigs pubs) s) = s).
  { intros s0. to_plugin Ha. apply hosted_keeps, quiet_bind; [|intros; apply quiet_ret].
    apply quiet_bind; [|intros; apply quiet_ret]. apply quiet_bridged, zen_signs_alone. }
  assert (s3 = s2) as -> by (pose proof (withRetry_keeps "build-signed-utxo" _ s2 Hquiet) as Hk; by rewrite Hs in Hk).
  destruct out as [raw|e]; [|by eexists]. cbn [fmap result_fmap].
  assert (Hout : raw = [] ∨ unreadable raw).
  { apply withRetry_ok_inv in Hs as [s0 Hs]. to_plugin Ha in Hs.
    apply hosted_ok in Hs as (w2 & w3 & _ & _ & Hs). apply call_bind_inv in Hs as (res & w4 & Hs & Hx). injection Hx as <- _.
    apply call_bind_inv in Hs as (res0 & w5 & Hs & Hx). injection Hx as <- _.
    apply bridged_inv in Hs as (ad & Had & Hs & _). apply pluginOf_adapter in Had as ->. cbn in Hs |- *.
    by eapply zen_signed_unreadable in Hs. }
  destruct Hout as [-> | Hout]; [by eexists|]. rewrite decide_False by (destruct Hout as [? ->]; discriminate).
  match goal with |- ∃ e, withRetry _ _ ?op ?f _ = _ =>
    destruct (withRetry_fails transient cancelled (λ s, s = s2) (λ s, s = s2) op f s2) as (e & s4 & -> & ->); [|by intros|reflexivity|by exists e] end.
  intros s0 ->. to_plugin Ha. destruct (zen_send_refused (ToLower (TrimSpace (bc_Network p))) (bc_Coin p) raw s2 Hout) as [e He].
  rewrite He. exists e, s2. split; reflexivity.
Qed.

(** *** Panics *)

(** What a client sends that ends the gateway, by chain: a payment, an address,
    or a transaction whose first script has a length of 2^63 or more. *)
Inductive fatal : string → (Router (ChainPlugin (process W)) → process W → process W) → Prop :=
  | fatal_build inp : NormalizeChain (bi_Chain inp) ∈ ["bitcoincash"; "dash"; "litecoin"] → normalizeNetwork (bi_Network inp) ≠ "" →
      bi_Vin inp ≠ [] ∨ bi_Vout inp ≠ [] ∨ bi_Fee inp ≠ "" →
      fatal (NormalizeChain (bi_Chain inp)) (λ r s, snd (serviceBuildUnsigned transient cancelled r inp s))
  | fatal_convert chain network addrType publicKey : NormalizeChain chain ∈ ["bitcoincash"; "dash"] → normalizeNetwork network ≠ "" →
      fatal (NormalizeChain chain) (λ r s, snd (serviceConvertAddress transient cancelled r chain network addrType publicKey s))
  | fatal_send p version txid vout num l : NormalizeChain (bc_Chain p) = "zen" → normalizeNetwork (bc_Network p) ≠ "" →
      hexDecode (to_bytes (TrimSpace (bc_RawTx p))) = Some (oversized version txid vout num ++ l) →
      List.length version = 4%nat → List.length txid = 32%nat → List.length vout = 4%nat → 2 ^ 63 ≤ num < 2 ^ 64 →
      Z.of_nat (List.length (oversized version txid vout num ++ l)) ≤ int64_max →
      fatal (NormalizeChain (bc_Chain p)) (λ r s, snd (serviceSendTx transient cancelled r p s)).

Lemma withRetry_down {A} op (f : process W → result A * process W) s :
  (∀ s, ∃ e, f s = (Err e, Down)) → snd (withRetry transient cancelled op f s) = Down.
Proof.
  intros Hf. destruct (withRetry_fails transient cancelled (λ _, True) (.= Down) op f s) as (e & s' & -> & ->); [|done..].
  intros s0 _. destruct (Hf s0) as [e ->]. by exists e, Down.
Qed.
Lemma hosted_down {A} (p : call W A) s : (∀ w, fst (p w) = Panicked) → ∃ e, hosted p s = (Err e, Down).
Proof.
  intros Hp. destruct s as [w|]; [|by eexists]. unfold hosted. specialize (Hp w). destruct (p w) as [o w']. cbn in Hp. subst o. by eexists.
Qed.

(** A plugin that was made panics with its adaptor. *)
Lemma bridged_down {A B} c (f : IChainAdaptor W → call W (response A)) (k : response A → call W B) w :
  ready c = Ok () → fst (f (snd (adaptorOf c)) w) = Panicked → fst ((bridged (pluginOf ready c) f ≫= k) w) = Panicked.
Proof.
  intros Hr Hf. unfold bridged. assert (ensureReady (pluginOf ready c) = Ok (snd (adaptorOf c))) as ->.
  { unfold ensureReady, pluginOf, NewBridgePlugin. by rewrite Hr. }
  unfold returns, mbind, call_bind. destruct (f (snd (adaptorOf c)) w) as [o w']. cbn in Hf. by subst o.
Qed.

(** C36. A request of any client ends the gateway where an adaptor panics: a
    payment on Litecoin, Dash or Bitcoin Cash, an address on the last two, or a
    transaction for Horizen that announces a script of 2^63 bytes or more.
    Nothing between the client and the adaptor stops it. *)
Theorem fatal_request_ends_the_gateway r c request s :
  utxoGateway ready account = Ok r → ready c = Ok () → fatal c request → request r s = Down.
Proof.
  intros Hr Hready Hf. destruct Hf as [inp Hc Hn Hany|chain network addrType publicKey Hc Hn|p version txid vout num l Hc Hn Hx Hv Ht Ho Hnum Hlen].
  - destruct (utxoGateway_resolves ready account r (bi_Chain inp) (bi_Network inp) Hr) as (a & Hb & Ha); [|exact Hn|].
    { clear -Hc. each_chain Hc in_keys. }
    unfold serviceBuildUnsigned. rewrite Hb. rewrite decide_True by exact Hany. apply withRetry_down. intros s0. to_plugin Ha. apply hosted_down. intros w. apply bridged_down; [exact Hready|]. clear -Hc.
    each_chain Hc ltac:(reflexivity).
  - destruct (utxoGateway_resolves ready account r chain network Hr) as (a & Hb & Ha); [|exact Hn|].
    { clear -Hc. each_chain Hc in_keys. }
    unfold serviceConvertAddress. rewrite Hb. apply withRetry_down. intros s0. to_plugin Ha. apply hosted_down. intros w. apply bridged_down; [exact Hready|]. clear -Hc.
    each_chain Hc ltac:(reflexivity).
  - destruct (utxoGateway_resolves ready account r (bc_Chain p) (bc_Network p) Hr) as (a & Hb & Ha); [rewrite Hc; in_keys|exact Hn|].
    assert (Hne : bc_RawTx p ≠ "") by (intros E; rewrite E in Hx; destruct version; [discriminate Hv|discriminate Hx]).
    unfold serviceSendTx. rewrite Hb. unfold rawTransaction. rewrite decide_False by (intros (E & _); exact (Hne E)).
    rewrite decide_False by exact Hne. apply withRetry_down. intros s0. to_plugin Ha.
    apply hosted_down. intros w. apply bridged_down; [exact Hready|]. rewrite Hc. cbn [adaptorOf snd].
    change (fst (zenSendTx (W := W) {| sq_Chain := "Zen"; sq_Coin := TrimSpace (bc_Coin p);
      sq_Network := TrimSpace (ToLower (TrimSpace (bc_Network p))); sq_RawTx := TrimSpace (bc_RawTx p) |} w) = Panicked).
    unfold zenSendTx, ends, mbind, call_bind. cbn [sq_RawTx]. unfold DeserializeTx. rewrite Hx. by rewrite oversized_panics.
Qed.
End service.

(** ** An example *)

(** A library for the scripts and transactions of Bitcoin, an explorer with one
    output and one transaction that is in no block, and no other node. *)
Module UtxoExample.
Export ZenExample.
#[export] Instance toyBtcd : Btcd := {|
  btcaddr := string; btcpub := bytes;
  MainNetParams := {| pm_Net := 0; pm_PubKeyHashAddrID := 0; pm_ScriptHashAddrID := 5; pm_Bech32HRPSegwit := "bc" |}; TxVersion := 1;
  Hash160 := take 20; NewAddressPubKeyHash h _ := Ok (hexEncode h); NewAddressWitnessPubKeyHash h _ := Ok (hexEncode h);
  NewAddressScriptHash s _ := Ok (hexEncode s); NewAddressTaproot k _ := Ok (hexEncode k); EncodeAddress a := a;
  DecodeAddress s _ := Ok s; IsForNet _ _ := true;
  PayToAddrScript a := from_option_err (Errorf "unable to generate payment script") (to_bytes <$> a);
  ParsePubKey := Ok; IsCompressedPubKey _ := true; SerializeCompressed k := k; SerializeUncompressed k := k; SerializeSchnorr k := k;
  SignatureOf := app; ScriptOf l := Ok (concat l); NewHashFromStr s := Ok (to_bytes s); hash_String := of_bytes;
  Deserialize _ := Err (Errorf "unexpected EOF"); Serialize _ := Ok []; TxHash _ := []; CalcSignatureHash s _ _ := Ok s;
  Execute _ _ _ _ := Ok (); ExtractPkScriptAddrs s _ := Ok [of_bytes s] |}.

Definition noNode : error := Errorf "connection refused".
#[export] Instance toyClients : BaseClients () := {|
  GetEstimateGasFee _ w := (Err noNode, w); OkLinkBalance _ _ w := (Err noNode, w); OkLinkUtxo _ _ w := (Err noNode, w);
  OkLinkTxByAddress _ _ _ _ w := (Err noNode, w); OkLinkTxByHash _ _ w := (Err noNode, w);
  GetRawTransactionVerbose _ w := (Err noNode, w); SendRawTransaction _ w := (Err noNode, w) |}.

Definition someOutput : BtcUnspentOutput := {| bu_TxHashBigEndian := "ba"; bu_TxHash := "ab"; bu_TxOutputN := 1; bu_Script := "51";
  bu_Value := 700; bu_ValueHex := "02bc"; bu_Confirmations := 12; bu_TxIndex := 33 |}.
Definition unmined : TxsItem :=
  {| xi_Hash := "ab"; xi_Fee := 10; xi_Time := 0; xi_BlockHeight := 0; xi_Inputs := ["from"]; xi_Out := [("to", 700)] |}.
#[export] Instance toyBlockchain : BlockchainInfo (W := ()) := {|
  rest_balances _ w := (Ok (200, []), w); rest_unspent _ w := (Ok (200, [someOutput]), w); rest_address _ w := (Ok (200, []), w);
  rest_tx _ w := (Ok (200, unmined), w) |}.

#[export] Instance toyProtoJSON : ProtoJSON := {| protojson m := Ok (messageMembers m); structJSON := messageMembers |}.
#[export] Instance toyProtoJSONLaws : ProtoJSONLaws.
Proof. by split. Qed.

Definition allReady (c : string) : result () := Ok ().
Definition someAccount : ChainPlugin (process ()) := snd (newPlugin allReady "zen" "Zen" zenAdaptor).
Definition neverTransient (e : error) : bool := false.
Definition neverCancelled (s : process ()) : option error := None.
Definition someRouter : Router (ChainPlugin (process ())) :=
  match utxoGateway allReady someAccount with Ok r => r | Err _ => ∅ end.
Lemma some_router : utxoGateway allReady someAccount = Ok someRouter.
Proof. unfold someRouter. destruct (gateway_starts allReady someAccount) as [r Hr]. rewrite Hr. reflexivity. Qed.
Lemma toy_unsigned : unsignedAnswers.
Proof. split; intros path w status l w'; [intros [= <- <- <-]; repeat constructor; done|intros [= <- <- <-]; constructor]. Qed.

Definition ask (chain : string) : IncomingTransferInput := {| ii_Model := "utxo"; ii_Chain := chain; ii_Coin := ""; ii_Network := "mainnet";
  ii_Address := "me"; ii_Cursor := ""; ii_Page := 0; ii_PageSize := 0; ii_ContractAddress := "" |}.
Definition someDeposit : IncomingTransfer := {| gt_TxHash := "ab"; gt_FromAddress := ""; gt_ToAddress := "me"; gt_Amount := "700";
  gt_Confirmations := 0; gt_Index := 33; gt_Status := ""; gt_ContractAddress := "" |}.
Definition payment (chain : string) (vin : list TxVin) (vout : list TxVout) : BuildUnsignedInput :=
  {| bi_Chain := chain; bi_Network := "mainnet"; bi_Base64Tx := ""; bi_Fee := ""; bi_Vin := vin; bi_Vout := vout |}.
Definition broadcast (chain unsignedTx : string) : BroadcastParams := {| bc_Chain := chain; bc_Network := "mainnet"; bc_Coin := "";
  bc_RawTx := ""; bc_UnsignedTx := unsignedTx; bc_Signatures := [hexEncode (replicate 64 (byteOf 1))]; bc_PublicKeys := ["0201"] |}.
Definition btcVin : list TxVin := [{| vin_Hash := "ab"; vin_Index := 1; vin_Amount := 700; vin_Address := "me" |}].
Definition btcVout : list TxVout := [{| vout_Address := "you"; vout_Amount := 690; vout_Index := 0 |}].
End UtxoExample.

Section utxo_witnesses.
Import UtxoExample.

Lemma utxo_transfers_are_the_outputs_witness :
  ∃ out, serviceIncoming neverTransient neverCancelled someRouter (ask "bitcoin") (Up ()) = (Ok out, Up ()) ∧ gr_Items out = [someDeposit]
  ∧ ∃ w w', ("bitcoin" = "bitcoin" ∧ ∃ l, rest_unspent "/unspent?active=me" w = (Ok (200, l), w')
               ∧ gr_Items out = omap (λ u, outputTransfer "me" (btcOutput u)) l)
      ∨ ("bitcoin" = "zen" ∧ ∃ l, get_utxo "/addr/me/utxo" w = (Ok (200, l), w')
               ∧ gr_Items out = omap (λ u, outputTransfer "me" (zenOutput u)) l).
Proof.
  eexists. split; [vm_compute; reflexivity|]. split; [reflexivity|].
  apply (utxo_transfers_are_the_outputs allReady someAccount neverTransient neverCancelled someRouter (ask "bitcoin") (Up ()) _ (Up ())).
  - exact some_router.
  - in_keys.
  - vm_compute. congruence.
  - exact toy_unsigned.
  - vm_compute. reflexivity.
Defined.

Lemma utxo_deposit_stays_pending_witness :
  ∃ out, serviceIncoming neverTransient neverCancelled someRouter (ask "bitcoin") (Up ()) = (Ok out, Up ()) ∧ gr_Items out = [someDeposit]
  ∧ Forall (λ it, UtxoScanner.resolveDepositStatus (gt_Status it) (gt_Confirmations it) 1 = "PENDING") (gr_Items out).
Proof.
  eexists. split; [vm_compute; reflexivity|]. split; [reflexivity|].
  apply (utxo_deposit_stays_pending allReady someAccount neverTransient neverCancelled someRouter (ask "bitcoin") (Up ()) _ (Up ())).
  - exact some_router.
  - in_keys.
  - vm_compute. congruence.
  - exact toy_unsigned.
  - vm_compute. reflexivity.
Defined.

Lemma utxo_payment_confirmed_unmined_witness :
  ∃ out, serviceFinality neverTransient neverCancelled someRouter "bitcoin" "" "mainnet" "ab" (Up ()) = (Ok out, Up ())
  ∧ out = {| gf_TxHash := "ab"; gf_Confirmations := -1; gf_Status := "CONFIRMED"; gf_Found := true |}.
Proof.
  eexists. split; [vm_compute; reflexivity|].
  apply (utxo_payment_confirmed_unmined allReady someAccount neverTransient neverCancelled someRouter "bitcoin" "" "mainnet" "ab"
           (Up ()) _ (Up ())).
  - exact some_router.
  - in_keys.
  - vm_compute. congruence.
  - vm_compute. reflexivity.
Defined.

Lemma bitcoin_payment_is_never_sent_witness :
  ∃ u, serviceBuildUnsigned neverTransient neverCancelled someRouter (payment "bitcoin" btcVin btcVout) (Up ()) = (Ok u, Up ())
  ∧ br_SignHashes u = ["6d65"] ∧ br_UnsignedTx u = ""
  ∧ serviceSendTx neverTransient neverCancelled someRouter (broadcast "bitcoin" (br_UnsignedTx u)) (Up ())
    = (Err (Errorf "raw_tx is required"), Up ()).
Proof.
  eexists. split; [vm_compute; reflexivity|]. split; [reflexivity|].
  eapply (bitcoin_payment_is_never_sent allReady someAccount neverTransient neverCancelled someRouter (payment "bitcoin" btcVin btcVout)
            (Up ()) _ (Up ())).
  - exact some_router.
  - reflexivity.
  - vm_compute. congruence.
  - vm_compute. reflexivity.
  - reflexivity.
  - vm_compute. congruence.
  - reflexivity.
  - reflexivity.
Defined.

Lemma zen_payment_is_never_sent_witness :
  ∃ u, serviceBuildUnsigned neverTransient neverCancelled someRouter (payment "zen" someVin someVout) (Up ()) = (Ok u, Up ())
  ∧ ∃ e, serviceSendTx neverTransient neverCancelled someRouter (broadcast "zen" (EncodeToString (to_bytes (br_UnsignedTx u)))) (Up ())
         = (Err e, Up ()).
Proof.
  eexists. split; [vm_compute; reflexivity|].
  eapply (zen_payment_is_never_sent allReady someAccount neverTransient neverCancelled someRouter (payment "zen" someVin someVout)
            (Up ()) _ (Up ())).
  - exact some_router.
  - reflexivity.
  - vm_compute. congruence.
  - vm_compute. reflexivity.
  - reflexivity.
  - vm_compute. congruence.
  - vm_compute. reflexivity.
  - reflexivity.
Defined.

Lemma fatal_request_ends_the_gateway_witness :
  snd (serviceConvertAddress neverTransient neverCancelled someRouter "dash" "mainnet" "p2pkh" "0201" (Up ())) = Down.
Proof.
  apply (fatal_request_ends_the_gateway allReady someAccount neverTransient neverCancelled someRouter "dash"
           (λ r s, snd (serviceConvertAddress neverTransient neverCancelled r "dash" "mainnet" "p2pkh" "0201" s))).
  - exact some_router.
  - reflexivity.
  - apply (fatal_convert neverTransient neverCancelled "dash" "mainnet" "p2pkh" "0201"); [in_keys|vm_compute; congruence].
Defined.
End utxo_witnesses.
