(* ===== verification/TronProperties.v ===== *)
(** * Properties of the Tron plugin

    What a Tron node answers is handed back to it as it was read: the JSON of
    [types.go] read and printed again, and with it the way of a payment through
    the service, from the order to the transaction that is broadcast. *)
From S2P Require Import Prelude GoStrings GoNumbers GoJson GoCodec Ports KeyRef EvmSend Endpoint.
From S2P Require Import EvmReader.
From S2P Require Import Normalize EvmPlugin KeyAgreement ChainClient ChainService GatewayPages EvmPayments.
From S2P Require Import UtxoPlugins ZenProperties.
From S2P Require Import UtxoPayments Tron.

(** ** Documents that were read *)

(** Every string in it is UTF-8. *)
Inductive clean : doc → Prop :=
  | clean_null : clean DNull
  | clean_bool b : clean (DBool b)
  | clean_num s : clean (DNum s)
  | clean_str s : valid_utf8 s → clean (DStr s)
  | clean_arr l : Forall clean l → clean (DArr l)
  | clean_obj m : Forall (λ e, clean (snd e)) m → clean (DObj m).

Lemma parse_clean fuel :
  (∀ depth l d rest, parse_value fuel depth l = Some (d, rest) → clean d)
  ∧ (∀ depth l m rest, parse_members fuel depth l = Some (m, rest) → Forall (λ e, clean (snd e)) m)
  ∧ (∀ depth l xs rest, parse_elements fuel depth l = Some (xs, rest) → Forall clean xs).
Proof.
  induction fuel as [|fuel (IHv & IHm & IHe)]; [done|]. split_and!; intros depth l; [intros d|intros m|intros xs];
    intros rest Hx; cbn [parse_value parse_members parse_elements] in Hx.
  - repeat (case_match; try done); cbn in Hx;
      try (apply bind_Some in Hx as ([? ?] & ? & Hx)); try (apply bind_Some in Hx as (? & ? & Hx)); simplify_eq;
      constructor; eauto using parse_string_utf8.
  - destruct (skip_space l) as [|a l1]; [done|]. destruct (is_chr 34 a); [|done].
    apply bind_Some in Hx as ([k l2] & _ & Hx). destruct (skip_space l2) as [|c l3]; [done|]. destruct (is_chr 58 c); [|done].
    apply bind_Some in Hx as ([v l4] & Hv%IHv & Hx).
    destruct (skip_space l4) as [|e l5]; [done|]. destruct (is_chr 125 e); [injection Hx as <- _; by repeat constructor|].
    destruct (is_chr 44 e); [|done]. apply bind_Some in Hx as ([m' rest'] & Hm%IHm & Hx). injection Hx as <- _. by constructor.
  - apply bind_Some in Hx as ([v l1] & Hv%IHv & Hx). destruct (skip_space l1) as [|e l2]; [done|].
    destruct (is_chr 93 e); [injection Hx as <- _; by repeat constructor|]. destruct (is_chr 44 e); [|done].
    apply bind_Some in Hx as ([xs' rest'] & Hm%IHe & Hx). injection Hx as <- _. by constructor.
Qed.

Lemma parseText_clean s d : parseText s = Some d → clean d.
Proof.
  unfold parseText. intros ([v rest] & Hv & Hx)%bind_Some. apply (proj1 (parse_clean _)) in Hv. by destruct (skip_space rest); simplify_eq.
Qed.

(** ** What decoding keeps *)

Definition keeps_into {A} (P : A → Prop) (into : A → doc → option A) : Prop := ∀ c d a, P c → clean d → into c d = Some a → P a.
Definition keeps_fields {A} (P : A → Prop) (fields : A → list (string * doc) → option A) : Prop :=
  ∀ c m a, P c → Forall (λ e, clean (snd e)) m → fields c m = Some a → P a.

Lemma keeps_string : keeps_into valid_utf8 into_string.
Proof. intros c d a Hc Hd Hx. destruct d; simplify_eq/=; [done|]. by inversion Hd. Qed.
Lemma keeps_int64 : keeps_into in_int64 into_int64.
Proof.
  intros c d a Hc Hd Hx. unfold into_int64, into_int in Hx. destruct d; simplify_eq/=; [done|].
  apply bind_Some in Hx as (v & _ & Hx). by case_decide; simplify_eq.
Qed.
Lemma keeps_bool : keeps_into (λ _, True) into_bool.
Proof. done. Qed.
Lemma keeps_struct {A} P (fields : A → list (string * doc) → option A) : keeps_fields P fields → keeps_into P (into_struct fields).
Proof. intros Hf c d a Hc Hd Hx. destruct d; simplify_eq/=; [done|]. inversion Hd; subst. by eapply Hf. Qed.

Definition all_of {A} (P : A → Prop) (l : option (list A)) : Prop := Forall P (default [] l).

Lemma keeps_list {A} P (zero : A) into : keeps_into P into → P zero → keeps_into (all_of P) (into_list zero into).
Proof.
  intros Hi Hz c d a Hc Hd Hx. unfold into_list in Hx. destruct d as [| | | |l|]; simplify_eq; [constructor|].
  apply bind_Some in Hx as (xs & Hx & [= <-]). apply Forall_take. clear -Hz Hi Hc Hd Hx. unfold all_of in Hc.
  assert (Hl : Forall clean l) by (by inversion Hd). clear Hd. revert Hc xs Hx. generalize (default [] c) as cur.
  induction Hl as [|d l Hd Hl IH]; intros cur Hcur xs Hx; cbn in Hx; [by simplify_eq|].
  apply bind_Some in Hx as (x & Hx & (rest & Hr & [= <-])%bind_Some). constructor.
  - eapply Hi; [|exact Hd|exact Hx]. destruct Hcur; [exact Hz|done].
  - eapply IH; [|exact Hr]. by destruct Hcur.
Qed.

Lemma keeps_over {A} P into (cur : A) tag m a :
  keeps_into P into → P cur → Forall (λ e, clean (snd e)) m → over into cur tag m = Some a → P a.
Proof.
  unfold over. intros Hi Hcur Hm. assert (Hms : Forall clean (members_of tag m)).
  { unfold members_of. apply Forall_fmap. rewrite Forall_forall in Hm |- *. intros e He. apply Hm.
    apply list_elem_of_In, List.filter_In in He as [He _]. by apply list_elem_of_In. }
  clear Hm. revert cur Hcur. induction Hms as [|d l Hd _ IH]; intros cur Hcur Hx; cbn in Hx; [by simplify_eq|].
  apply bind_Some in Hx as (c & Hc & Hx). eapply IH; [|exact Hx]. by eapply Hi.
Qed.

(** A step of a struct's decoding: the field that was read is kept. *)
Ltac keep_field H :=
  let v := fresh "v" in let Hv := fresh "Hv" in
  apply bind_Some in H as (v & Hv & H);
  eapply keeps_over in Hv; [|solve [eauto with keeps]|eassumption|eassumption].

Create HintDb keeps.
#[export] Hint Resolve keeps_string keeps_int64 keeps_bool : keeps.
#[export] Hint Resolve keeps_struct keeps_list : keeps.

(** ** Transactions that were read *)

Definition good_value (v : ContractValue) : Prop :=
  valid_utf8 (cv_OwnerAddress v) ∧ valid_utf8 (cv_ToAddress v) ∧ in_int64 (cv_Amount v) ∧ valid_utf8 (cv_ContractAddress v)
  ∧ valid_utf8 (cv_Data v) ∧ valid_utf8 (cv_AssetName v).
Definition good_parameter (p : TxParameter) : Prop := good_value (pr_Value p) ∧ valid_utf8 (pr_TypeURL p).
Definition good_contract (c : Contract) : Prop :=
  good_parameter (ct_Parameter c) ∧ valid_utf8 (ct_Type c) ∧ in_int64 (ct_PermissionID c).
Definition good_raw (r : TxRawData) : Prop :=
  all_of good_contract (rd_Contract r) ∧ valid_utf8 (rd_RefBlockBytes r) ∧ valid_utf8 (rd_RefBlockHash r)
  ∧ in_int64 (rd_Expiration r) ∧ in_int64 (rd_FeeLimit r) ∧ in_int64 (rd_Timestamp r).
Definition good_tx (t : Transaction) : Prop :=
  all_of valid_utf8 (tx_Ret t) ∧ all_of valid_utf8 (tx_Signature t) ∧ valid_utf8 (tx_TxID t) ∧ good_raw (tx_RawData t)
  ∧ valid_utf8 (tx_RawDataHex t).

Lemma in_int64_0 : in_int64 0.
Proof. by apply (bool_decide_unpack _). Qed.
#[export] Hint Resolve valid_utf8_nil in_int64_0 : keeps.

Lemma good_zero_contract : good_contract zero_contract.
Proof. unfold good_contract, good_parameter, good_value. split_and!; eauto with keeps. Qed.
Lemma good_zero_tx : good_tx zero_tx.
Proof. unfold good_tx, good_raw, all_of. split_and!; cbn; eauto with keeps. Qed.

Lemma keeps_value : keeps_fields good_value value_members.
Proof.
  intros c m a (H1 & H2 & H3 & H4 & H5 & H6) Hm Hx. unfold value_members in Hx. do 6 keep_field Hx.
  injection Hx as <-. by split_and!.
Qed.
#[export] Hint Resolve keeps_value good_zero_contract good_zero_tx : keeps.
Lemma keeps_parameter : keeps_fields good_parameter parameter_members.
Proof.
  intros c m a (H1 & H2) Hm Hx. unfold parameter_members in Hx. do 2 keep_field Hx. injection Hx as <-. by split_and!.
Qed.
#[export] Hint Resolve keeps_parameter : keeps.
Lemma keeps_contract : keeps_fields good_contract contract_members.
Proof.
  intros c m a (H1 & H2 & H3) Hm Hx. unfold contract_members in Hx. do 3 keep_field Hx. injection Hx as <-. by split_and!.
Qed.
#[export] Hint Resolve keeps_contract : keeps.
Lemma keeps_raw : keeps_fields good_raw raw_members.
Proof.
  intros c m a (H1 & H2 & H3 & H4 & H5 & H6) Hm Hx. unfold raw_members in Hx. do 6 keep_field Hx.
  injection Hx as <-. by split_and!.
Qed.
Lemma keeps_ret : keeps_fields valid_utf8 ret_members.
Proof. intros c m a Hc Hm Hx. by eapply keeps_over in Hx; [|apply keeps_string|..]. Qed.
#[export] Hint Resolve keeps_raw keeps_ret : keeps.
Lemma keeps_tx : keeps_fields good_tx tx_members.
Proof.
  intros c m a (H1 & H2 & H3 & H4 & H5) Hm Hx. unfold tx_members in Hx.
  apply bind_Some in Hx as (v0 & _ & Hx). do 5 keep_field Hx. injection Hx as <-. by split_and!.
Qed.
#[export] Hint Resolve keeps_tx : keeps.

(** ** Printed and read again *)

Definition reads_as {A} (P : A → Prop) (into : A → doc → option A) (zero : A) (enc : A → doc) : Prop :=
  ∀ a, P a → into zero (enc a) = Some a.

Lemma into_int64_DInt cur z : in_int64 z → into_int64 cur (DInt z) = Some z.
Proof. intros Hz. unfold into_int64, DInt, into_int. cbn. rewrite SetString_String. cbn. by rewrite decide_True. Qed.

Lemma reads_list {A} P into (zero : A) enc :
  reads_as P into zero enc → reads_as (all_of P) (into_list zero into) None (DList enc).
Proof.
  intros Hi [xs|] Hl; [|done]. cbn [DList into_list default].
  enough (into_elements zero into [] (enc <$> xs) = Some xs) as ->.
  { cbn [mbind option_bind]. by rewrite length_fmap, firstn_all. }
  change (Forall P xs) in Hl. induction Hl as [|a l Ha _ IH]; [done|]. cbn [fmap list_fmap into_elements head default].
  rewrite (Hi a Ha). cbn [mbind option_bind tail]. change (list_fmap A doc enc l) with (enc <$> l). by rewrite IH.
Qed.

(** The members for each tag of a printed struct, by computation. *)
Ltac read_members :=
  repeat match goal with
    |- context [over ?into ?cur ?tag ?m] =>
      let ds := eval cbv -[DInt DList valueDoc parameterDoc contractDoc rawDoc retDoc] in (members_of tag m) in
      change (over into cur tag m) with (decode_all into cur ds)
    end;
  cbn [decode_all into_string into_struct mbind option_bind].

Lemma value_read v : good_value v → value_members zero_value (match valueDoc v with DObj m => m | _ => [] end) = Some v.
Proof.
  destruct v as [owner to amt contract data asset]. intros (_ & _ & Ha & _). cbn in Ha.
  cbn [valueDoc cv_OwnerAddress cv_ToAddress cv_Amount cv_ContractAddress cv_Data cv_AssetName]. unfold value_members. read_members.
  rewrite into_int64_DInt by done. done.
Qed.

Lemma parameter_read : reads_as good_parameter (into_struct parameter_members) {| pr_Value := zero_value; pr_TypeURL := "" |} parameterDoc.
Proof.
  intros [v url] [Hv _]. unfold parameterDoc. cbn [into_struct pr_Value pr_TypeURL]. unfold parameter_members. read_members.
  cbn [pr_Value pr_TypeURL]. pose proof (value_read v Hv) as Hr. unfold valueDoc in *. cbn [into_struct]. by rewrite Hr.
Qed.

Lemma contract_read : reads_as good_contract (into_struct contract_members) zero_contract contractDoc.
Proof.
  intros [p type id] (Hp & _ & Hid). unfold contractDoc. cbn [into_struct ct_Parameter ct_Type ct_PermissionID] in *.
  unfold contract_members, unless_zero. pose proof (parameter_read p Hp) as Hr. cbn [zero_contract ct_Parameter ct_Type ct_PermissionID].
  case_decide; read_members; cbn [app]; rewrite Hr; cbn [mbind option_bind]; subst; [done|]. by rewrite into_int64_DInt.
Qed.

Lemma raw_read : reads_as good_raw (into_struct raw_members) zero_raw rawDoc.
Proof.
  intros [cs ref hash expiration fee timestamp] (Hc & _ & _ & He & Hf & Ht). unfold rawDoc.
  cbn [into_struct rd_Contract rd_RefBlockBytes rd_RefBlockHash rd_Expiration rd_FeeLimit rd_Timestamp] in *.
  unfold raw_members, unless_zero. pose proof (reads_list _ _ _ _ contract_read cs Hc) as Hr.
  cbn [zero_raw rd_Contract rd_RefBlockBytes rd_RefBlockHash rd_Expiration rd_FeeLimit rd_Timestamp].
  case_decide; cbn [app]; read_members; rewrite Hr; cbn [mbind option_bind]; rewrite !into_int64_DInt by done; by subst.
Qed.

Lemma ret_read : reads_as valid_utf8 (into_struct ret_members) "" retDoc.
Proof. by intros s _. Qed.

Lemma tx_read t : good_tx t → tx_members zero_tx (match txDoc t with DObj m => m | _ => [] end) = Some t.
Proof.
  destruct t as [visible ret sigs id raw hex]. intros (Hr & Hs & _ & Hraw & _). unfold txDoc.
  cbn [tx_Visible tx_Ret tx_Signature tx_TxID tx_RawData tx_RawDataHex] in *. unfold tx_members.
  pose proof (reads_list _ _ _ _ ret_read ret Hr) as Er.
  pose proof (reads_list valid_utf8 into_string "" DStr (λ s _, eq_refl) sigs Hs) as Es. pose proof (raw_read raw Hraw) as Ew.
  cbn [zero_tx tx_Visible tx_Ret tx_Signature tx_TxID tx_RawData tx_RawDataHex].
  destruct visible; cbn [app]; read_members; rewrite Er; cbn [mbind option_bind into_bool]; rewrite Es; cbn [mbind option_bind];
    rewrite Ew; done.
Qed.

(** *** As text *)

Lemma printable_list {A} P (enc : A → doc) l : (∀ a, P a → printable (enc a)) → all_of P l → printable (DList enc l).
Proof.
  intros He Hl. destruct l as [l|]; [|constructor]. constructor. apply Forall_fmap. eapply Forall_impl; [exact Hl|]. done.
Qed.

Ltac print_fields := repeat match goal with
  | |- Forall _ (_ ++ _) => apply Forall_app; split
  | |- Forall _ (_ :: _) => constructor
  | |- Forall _ [] => constructor
  | |- _ ∧ _ => split
  end; cbn [fst snd]; try (by eauto using printable); try solve [eexists [_; _; _]; done].

Lemma value_printable v : good_value v → printable (valueDoc v).
Proof.
  intros (? & ? & ? & ? & ? & ?). unfold valueDoc. constructor. print_fields; by apply ascii_utf8.
Qed.
Lemma parameter_printable p : good_parameter p → printable (parameterDoc p).
Proof. intros [Hv ?]. pose proof (value_printable _ Hv). unfold parameterDoc. constructor. print_fields; by apply ascii_utf8. Qed.
Lemma contract_printable c : good_contract c → printable (contractDoc c).
Proof.
  intros (Hp & ? & ?). pose proof (parameter_printable _ Hp). unfold contractDoc, unless_zero. constructor.
  print_fields; try by apply ascii_utf8. case_decide; print_fields; by apply ascii_utf8.
Qed.
Lemma raw_printable r : good_raw r → printable (rawDoc r).
Proof.
  intros (Hc & ? & ? & ? & ? & ?). pose proof (printable_list _ _ _ contract_printable Hc). unfold rawDoc, unless_zero. constructor.
  print_fields; try by apply ascii_utf8. case_decide; print_fields; by apply ascii_utf8.
Qed.
Lemma tx_printable t : good_tx t → printable (txDoc t).
Proof.
  intros (Hr & Hs & ? & Hw & ?). pose proof (raw_printable _ Hw).
  assert (printable (DList retDoc (tx_Ret t))).
  { apply (printable_list valid_utf8); [|done]. intros s Hv. constructor. print_fields. by apply ascii_utf8. }
  assert (printable (DList DStr (tx_Signature t))) by (apply (printable_list valid_utf8); [by constructor|done]).
  unfold txDoc. constructor. print_fields; try by apply ascii_utf8. destruct (tx_Visible t); print_fields; by apply ascii_utf8.
Qed.

Lemma nesting_list {A} (enc : A → doc) l n : (∀ a, nesting (enc a) ≤ n)%nat → (nesting (DList enc l) ≤ S n)%nat.
Proof.
  intros He. destruct l as [l|]; [|cbn; lia]. cbn [DList nesting]. enough (list_max (List.map nesting (enc <$> l)) ≤ n)%nat by lia.
  apply List.list_max_le, Forall_map, Forall_fmap, Forall_forall. intros a _. apply He.
Qed.

Lemma nesting_obj m n : Forall (λ e, nesting (snd e) ≤ n)%nat m → (nesting (DObj m) ≤ S n)%nat.
Proof. intros Hm. cbn [nesting]. enough (list_max (List.map (λ e, nesting (snd e)) m) ≤ n)%nat by lia. by apply List.list_max_le, Forall_map. Qed.

Ltac shallow := apply nesting_obj; unfold unless_zero; repeat case_match; cbn [app];
  repeat first [apply Forall_nil_2 | apply Forall_cons_2]; cbn [snd nesting DInt]; try lia.

Lemma tx_nesting t : (nesting (txDoc t) ≤ 6)%nat.
Proof.
  assert (Hv : ∀ v, (nesting (valueDoc v) ≤ 1)%nat) by (intros v; unfold valueDoc; shallow).
  assert (Hp : ∀ p, (nesting (parameterDoc p) ≤ 2)%nat).
  { intros p. pose proof (Hv (pr_Value p)). unfold parameterDoc. shallow. }
  assert (Hc : ∀ c, (nesting (contractDoc c) ≤ 3)%nat).
  { intros c. pose proof (Hp (ct_Parameter c)). unfold contractDoc. shallow. }
  assert (Hr : ∀ s, (nesting (retDoc s) ≤ 1)%nat) by (intros s; unfold retDoc; shallow).
  pose proof (nesting_list DStr (tx_Signature t) 0 ltac:(done)). pose proof (nesting_list retDoc (tx_Ret t) 1 Hr).
  pose proof (nesting_list contractDoc (rd_Contract (tx_RawData t)) 3 Hc).
  assert (nesting (rawDoc (tx_RawData t)) ≤ 5)%nat.
  { unfold rawDoc. shallow. }
  unfold txDoc. shallow.
Qed.

Lemma parse_tx t : good_tx t → parseText (Marshal (txDoc t)) = Some (txDoc t).
Proof.
  intros Ht. apply parseText_Marshal; [by apply tx_printable|]. pose proof (tx_nesting t). unfold maxNestingDepth. lia.
Qed.

(** A transaction in base64 is read back as it was. *)
Lemma decode_encode_transaction t :
  good_tx t → TrimSpace (tx_TxID t) ≠ "" → decodeTransactionBase64 (encodeTransactionBase64 t) = Ok t.
Proof.
  intros Ht Hid. unfold decodeTransactionBase64, encodeTransactionBase64, base64Bytes.
  rewrite TrimSpace_EncodeToString, DecodeString_EncodeToString. cbn [from_option_err]. rewrite of_to_bytes.
  unfold Unmarshal. rewrite parse_tx by done. cbn [mbind option_bind].
  pose proof (tx_read t Ht) as Hr. unfold txDoc in *. cbn [struct_of]. rewrite Hr. rewrite decide_False by tauto. done.
Qed.

Lemma encoded_trimmed t : TrimSpace (encodeTransactionBase64 t) = encodeTransactionBase64 t.
Proof. apply TrimSpace_EncodeToString. Qed.
Lemma encoded_nonempty t : encodeTransactionBase64 t ≠ "".
Proof.
  unfold encodeTransactionBase64. intros E. pose proof (DecodeString_EncodeToString (to_bytes (Marshal (txDoc t)))) as Hd.
  rewrite E in Hd. injection Hd as Hd. unfold Marshal, txDoc in Hd. rewrite to_of_bytes in Hd. discriminate Hd.
Qed.

(** ** Payments *)

(** What a node is asked to build for an order. *)
Definition nodeOrder `{TronKit} (params : BuildUnsignedParams) (value : Z) : result (string * doc) :=
  if decide (TrimSpace (bp_ContractAddress params) = "") then
    Ok ("/wallet/createtransaction", trxOrder (bp_From params) (bp_To params) value)
  else
    toBytes ← recipientBytes (bp_To params);
    Ok ("/wallet/triggersmartcontract", trc20Order (bp_From params) (bp_ContractAddress params) toBytes value).

(** The transaction in its answer. *)
Definition nodeAnswered (params : BuildUnsignedParams) (d : doc) (tx : Transaction) : Prop :=
  if decide (TrimSpace (bp_ContractAddress params) = "") then into_struct tx_members zero_tx d = Some tx
  else ∃ g, into_struct trigger_members zero_trigger d = Some g ∧ tg_Result g = true ∧ tg_Transaction g = tx.

Lemma keeps_trigger : keeps_fields (λ g, good_tx (tg_Transaction g)) trigger_members.
Proof.
  intros c m a Hc Hm Hx. unfold trigger_members in Hx. apply bind_Some in Hx as ([[? ?] ?] & _ & Hx). keep_field Hx.
  by injection Hx as <-.
Qed.

Lemma answered_good params d tx : clean d → nodeAnswered params d tx → good_tx tx.
Proof.
  unfold nodeAnswered. intros Hd. case_decide.
  - intros Hx. eapply (keeps_struct good_tx); [apply keeps_tx|apply good_zero_tx|exact Hd|exact Hx].
  - intros (g & Hx & _ & <-). pattern g. eapply (keeps_struct (λ g, good_tx (tg_Transaction g))); [apply keeps_trigger| |exact Hd|exact Hx].
    apply good_zero_tx.
Qed.

Section payment.
Context {W : Type} `{RestyLaws W} `{TronExplorer W} `{TronKit} `{Sha256} `{AccountProtoJSON}.

Lemma request_inv {A} path body (zero : A) members w resp a w' :
  request path body zero members w = (Returned (Ok (resp, a)), w') →
  Post path body w = (Ok resp, w') ∧ (a = zero ∨ ∃ d, ry_Result resp = Some d ∧ clean d ∧ into_struct members zero d = Some a).
Proof.
  unfold request. intros (resp' & w1 & Hp & Hx)%call_bind_inv. apply call_bind_inv in Hx as (a' & w2 & Ha & Hx).
  injection Hx as <- <- <-. unfold asks in Hp. destruct (Post path body w) as [r w3] eqn:Hpost. injection Hp as -> <-.
  unfold returns in Ha. injection Ha as Ha <-. split; [done|].
  destruct (ry_Result resp') as [d|] eqn:Hd; [right|left; by injection Ha].
  exists d. split; [done|]. split; [by eapply parseText_clean, result_is_body|by apply from_option_err_ok in Ha].
Qed.

Lemma Wallet_inv {A} method body (zero : A) members w a w' :
  Wallet method body zero members w = (Returned (Ok a), w') →
  ∃ resp, Post ("/wallet/" +:+ method) body w = (Ok resp, w')
    ∧ (a = zero ∨ ∃ d, ry_Result resp = Some d ∧ clean d ∧ into_struct members zero d = Some a).
Proof.
  unfold Wallet. intros ([resp a'] & w1 & Hr & Hx)%call_bind_inv. injection Hx as <- <-. apply request_inv in Hr. by exists resp.
Qed.

(** What the node built. *)
Lemma createTransaction_inv params data w tx w' :
  ts_ContractAddress data = TrimSpace (bp_ContractAddress params) → ts_FromAddress data = TrimSpace (bp_From params) →
  ts_ToAddress data = TrimSpace (bp_To params) → createTransaction data w = (Returned (Ok tx), w') →
  ∃ path body resp d, nodeOrder params (ts_Value data) = Ok (path, body) ∧ Post path body w = (Ok resp, w')
    ∧ ry_Result resp = Some d ∧ nodeAnswered params d tx ∧ good_tx tx ∧ TrimSpace (tx_TxID tx) ≠ "".
Proof.
  intros Hc Hf Ht Hx. unfold createTransaction in Hx. rewrite Hc, TrimSpace_idem in Hx. unfold nodeOrder.
  pose proof (answered_good params) as Hgood. unfold nodeAnswered in Hgood |- *. case_decide as He.
  - unfold CreateTRXTransaction in Hx. apply call_bind_inv in Hx as (r & w1 & Hw & Hx). case_decide as Hid; [done|].
    injection Hx as <- <-. apply Wallet_inv in Hw as (resp & Hp & [->|(d & Hd & Hcl & Hr)]); [done|].
    do 2 eexists. exists resp, d. split; [reflexivity|]. rewrite Hf, Ht in Hp. unfold trxOrder in *. rewrite !TrimSpace_idem in Hp.
    split_and!; eauto.
  - unfold CreateTRC20Transaction in Hx. apply call_bind_inv in Hx as (b & w1 & Hb & Hx). unfold returns in Hb.
    injection Hb as Hb <-. rewrite Ht in Hb. unfold recipientBytes in *. rewrite TrimSpace_idem in Hb. rewrite Hb.
    apply call_bind_inv in Hx as (g & w2 & Hw & Hx). destruct (tg_Result g) eqn:Hg; [|done]. cbn [negb] in Hx.
    case_decide as Hid; [done|]. injection Hx as <- <-. apply Wallet_inv in Hw as (resp & Hp & [->|(d & Hd & Hcl & Hr)]); [done|].
    do 2 eexists. exists resp, d. split; [reflexivity|]. rewrite Hf in Hp. unfold trc20Order in *. rewrite !TrimSpace_idem in Hp.
    split_and!; eauto.
Qed.

(** *** Through the gateway *)

Variables (started : result ()) (before after : list (string * ChainPlugin (process W))) (utxo : ChainPlugin (process W)).

(** No plugin behind it takes its place. *)
Definition not_replaced : Prop := Forall (λ p : string * ChainPlugin (process W), NormalizeChain p.1 ≠ "tron") after.

Lemma registered_after a a' :
  not_replaced → foldl (λ (a : result (gmap string (ChainPlugin (process W)))) p, a ← a; registerPlugin (fst p) (snd p) a) (Ok a) after = Ok a' →
  a' !! "tron" = a !! "tron".
Proof.
  intros Hn. revert a. induction Hn as [|[name p] rest Hne _ IH]; intros a; [by intros [= ->]|].
  cbn [foldl fst snd mbind result_bind] in *. unfold registerPlugin at 2. case_decide; intros Hx.
  - exfalso. clear -Hx. induction rest as [|q rest IH]; [done|]. by cbn in Hx.
  - rewrite (IH _ Hx). by apply lookup_insert_ne.
Qed.

Lemma accountGateway_resolves r chain network :
  not_replaced → accountGateway started before after utxo = Ok r → NormalizeChain chain = "tron" → normalizeNetwork network ≠ "" →
  ∃ a, resolveBinding chain network r = Ok (defaultBinding "account" (accountAdapter a) "tron")
    ∧ resolvePlugin "tron" a = Ok (tronPlugin started).
Proof.
  intros Hn Hr Hc Hnet. unfold accountGateway in Hr. apply bind_ok_inv in Hr as (a & Ha & Hr). exists a. split.
  - destruct (default_bindings (accountAdapter a) utxo) as (r' & Hr' & Hres). rewrite Hr in Hr'. injection Hr' as <-.
    apply resolveBinding_ok; [by rewrite Hc|done|]. rewrite <- Hc. apply Hres; [done|]. rewrite Hc. in_keys.
  - unfold NewAdapter in Ha. rewrite foldl_app in Ha. cbn [foldl fst snd] in Ha.
    destruct (foldl _ _ before) as [a0|e]; cbn [mbind result_bind] in Ha.
    2:{ exfalso. clear -Ha. induction after as [|q rest IH]; [done|]. by cbn in Ha. }
    unfold registerPlugin at 2 in Ha. change (NormalizeChain "tron") with "tron" in Ha. rewrite decide_False in Ha by done.
    apply registered_after in Ha; [|done]. unfold resolvePlugin. change (NormalizeChain "tron") with "tron". cbv zeta.
    rewrite decide_False by done. rewrite Ha, lookup_insert_eq. done.
Qed.

(** A method of the adapter is the plugin's. *)
Ltac to_tron Ha := unfold withAdapter; cbn [defaultBinding pb_Adapter pb_Chain accountAdapter cp_BuildUnsignedAccount cp_BuildSignedAccount
  cp_SendTx cp_GetTxByAddress cp_BuildUnsignedUTXO tq_Chain]; unfold withPlugin; rewrite ?Ha;
  cbn [tronPlugin cp_BuildUnsignedAccount cp_BuildSignedAccount cp_SendTx cp_GetTxByAddress].

Lemma written_inv {A} (p : call W (response A)) w resp w' :
  written started p w = (Returned (Ok resp), w') → p w = (Returned (Ok resp), w') ∧ rs_Code resp = SUCCESS ∧ started = Ok ().
Proof.
  unfold written. intros (u & w1 & Hu & Hx)%call_bind_inv. apply call_bind_inv in Hx as (r & w2 & Hp & Hx).
  apply call_bind_inv in Hx as (v & w3 & Hv & Hx). injection Hx as <- <-. unfold returns in Hu, Hv. injection Hu as Hu <-.
  injection Hv as Hv <-. split; [done|]. split; [by destruct (rs_Code r)|]. unfold ensureWriter in Hu. by destruct started as [[]|].
Qed.

Lemma reported_inv {A} (zero : A) (p : call W (response A)) w resp w' :
  reported zero p w = (Returned (Ok resp), w') → rs_Code resp = SUCCESS → p w = (Returned (Ok resp), w').
Proof. unfold reported. destruct (p w) as [[[r|e]|] w1]; [done| |done]. by intros [= <- _]. Qed.

(** The payload of an order, as the plugin reads it. *)
Definition order_text (params : BuildUnsignedParams) : Prop :=
  valid_utf8 (TrimSpace (bp_From params)) ∧ valid_utf8 (TrimSpace (bp_To params)) ∧ valid_utf8 (TrimSpace (bp_ContractAddress params)).

Lemma payload_members params value : order_text params →
  printable (DObj (tronMembers params value)) ∧ (nesting (DObj (tronMembers params value)) ≤ 1)%nat.
Proof.
  intros (? & ? & ?). unfold tronMembers, unless_empty. split; [|by shallow].
  constructor. case_decide; cbn [app]; print_fields; by apply ascii_utf8.
Qed.

Lemma payload_data params value : order_text params → in_int64 value → TrimSpace (bp_From params) ≠ "" → TrimSpace (bp_To params) ≠ "" →
  decodeUnsignedPayload (encode64doc (tronMembers params value)) = Ok {|
    ts_ContractAddress := TrimSpace (bp_ContractAddress params); ts_FromAddress := TrimSpace (bp_From params);
    ts_ToAddress := TrimSpace (bp_To params); ts_Value := value |}.
Proof.
  intros Hv Hint Hf Ht. unfold decodeUnsignedPayload, encode64doc, base64Bytes.
  rewrite TrimSpace_EncodeToString, DecodeString_EncodeToString. cbn [from_option_err]. rewrite of_to_bytes.
  destruct (payload_members params value Hv) as [Hp Hn]. unfold Unmarshal. rewrite parseText_Marshal; [|done|unfold maxNestingDepth; lia].
  cbn [mbind option_bind struct_of]. unfold TxStructure_fields, string_field, int64_field, decode_field, tronMembers, unless_empty.
  repeat match goal with |- context [decode_all ?into ?cur (members_of ?tag ?m)] =>
    change (decode_all into cur (members_of tag m)) with (over into cur tag m) end.
  pose proof (TrimSpace_idem (bp_From params)) as Ef. pose proof (TrimSpace_idem (bp_To params)) as Et.
  generalize dependent (TrimSpace (bp_From params)). generalize dependent (TrimSpace (bp_To params)).
  generalize (TrimSpace (bp_ContractAddress params)). intros contract to Ht Et from Hf Ef.
  case_decide as Hc; cbn [app]; read_members; rewrite into_int64_DInt by done; cbn [mbind option_bind ts_FromAddress ts_ToAddress];
    rewrite Ef, Et, decide_False by tauto; [by rewrite Hc|done].
Qed.

(** What the plugin builds. *)
Lemma pluginBuildUnsigned_inv params value w u w' :
  order_text params → in_int64 value → TrimSpace (bp_From params) ≠ "" → TrimSpace (bp_To params) ≠ "" →
  pluginBuildUnsigned started (encode64doc (tronMembers params value)) w = (Returned (Ok u), w') →
  ∃ path body resp d tx, nodeOrder params value = Ok (path, body) ∧ Post path body w = (Ok resp, w')
    ∧ ry_Result resp = Some d ∧ nodeAnswered params d tx ∧ good_tx tx ∧ TrimSpace (tx_TxID tx) ≠ ""
    ∧ u = {| br_UnsignedTx := encodeTransactionBase64 tx; br_SignHashes := [TrimSpace (tx_TxID tx)] |} ∧ started = Ok ().
Proof.
  intros Hv Hint Hf Ht. unfold pluginBuildUnsigned. intros (resp & w1 & Hw & Hx)%call_bind_inv.
  apply written_inv in Hw as (Hw & Hcode & Hst). apply reported_inv in Hw; [|done].
  apply call_bind_inv in Hw as (data & w2 & Hd & Hw). unfold returns in Hd. injection Hd as Hd <-.
  unfold encode64doc in Hd. rewrite TrimSpace_EncodeToString in Hd. pose proof (payload_data params value Hv Hint Hf Ht) as Hp.
  unfold encode64doc in Hp. rewrite Hp in Hd. injection Hd as <-.
  apply call_bind_inv in Hw as (tx & w3 & Htx & Hw). injection Hw as <- <-. cbn [rs_Body] in Hx.
  apply (createTransaction_inv params) in Htx as (path & body & resp & d & Ho & Hpost & Hd & Ha & Hg & Hid); [|done..].
  exists path, body, resp, d, tx. cbn [ts_Value] in Ho.
  rewrite encoded_trimmed, decide_False in Hx by apply encoded_nonempty. apply call_bind_inv in Hx as (h & w4 & Hh & Hx). injection Hx as <- <-.
  unfold returns, signHashFromTransactionPayload in Hh. rewrite decode_encode_transaction in Hh by done.
  rewrite bind_ok, decide_True in Hh by done. injection Hh as <- <-. by split_and!.
Qed.

Lemma good_signed tx raw : good_tx tx → good_tx (addSignature tx (hexEncode raw)).
Proof.
  intros (? & Hs & ? & ? & ?). split_and!; [done| |done..]. unfold all_of in *. cbn [addSignature tx_Signature].
  apply Forall_app. split; [exact Hs|]. constructor; [|constructor]. apply ascii_utf8.
  pose proof (hexEncode_chars (λ a, N.ltb (N_of_ascii a) 128) raw ltac:(vm_compute; reflexivity)) as Hc.
  apply forallb_forall. intros a Ha. rewrite Forall_forall in Hc. by apply Hc, list_elem_of_In.
Qed.

(** What the caller of the service gets for a node's answer to
    [broadcasttransaction]. *)
Definition sendVerdict (tx : Transaction) (resp : result restyResponse) : result string :=
  let zero := {| bt_Result := false; bt_Code := ""; bt_Txid := ""; bt_Message := "" |} in
  let failed msg := Err (Errorf (TrimSpace (if decide (TrimSpace msg = "") then "tron adaptor request failed" else msg))) in
  match (a ← resp; match ry_Result a with
                   | None => Ok zero
                   | Some d => from_option_err (Errorf "json: cannot unmarshal") (into_struct BroadcastReturns_members zero d)
                   end) with
  | Err e => failed (error_text e)
  | Ok b =>
      if bt_Result b then Ok (if decide (TrimSpace (bt_Txid b) = "") then TrimSpace (tx_TxID tx) else TrimSpace (bt_Txid b))
      else failed (if decide (TrimSpace (bt_Message b) = "") then "tron broadcast failed" else TrimSpace (bt_Message b))
  end.

Lemma sends_exactly tx (w : W) :
  started = Ok () → good_tx tx → TrimSpace (tx_TxID tx) ≠ "" →
  pluginSendTx started (encodeTransactionBase64 tx) w =
    let '(resp, w) := Post "/wallet/broadcasttransaction" (txDoc tx) w in (Returned (sendVerdict tx resp), w).
Proof.
  intros -> Hg Hid. unfold pluginSendTx, written, ensureWriter, tronSendTx. rewrite encoded_trimmed.
  unfold reported, mbind, call_bind, returns at 1. rewrite decode_encode_transaction by done. unfold returns at 1.
  unfold BroadcastTransaction, Wallet, request, mbind, call_bind, asks.
  change ("/wallet/" +:+ "broadcasttransaction") with "/wallet/broadcasttransaction".
  destruct (Post _ (txDoc tx) w) as [[a|e] w1]; unfold sendVerdict; cbn [mbind result_bind]; [|reflexivity].
  unfold returns, mret, call_ret. destruct (ry_Result a) as [d|]; [|reflexivity].
  destruct (into_struct BroadcastReturns_members _ d) as [b|]; [|reflexivity]. cbn [from_option_err snd]. unfold broadcastAnswer.
  destruct (bt_Result b); cbn [negb]; unfold success, refusal, mret, call_ret; cbn [rs_Code rs_Msg tronExpectCodeOK rs_Body].
  - destruct (decide (TrimSpace (bt_Txid b) = "")) as [Ht|Ht].
    + rewrite decide_False by done. cbn [rs_Code rs_Msg tronExpectCodeOK rs_Body]. by rewrite TrimSpace_idem.
    + rewrite decide_False by done. cbn [rs_Code rs_Msg tronExpectCodeOK rs_Body]. by rewrite TrimSpace_idem.
  - reflexivity.
Qed.

Lemma signs_exactly tx signature raw (w : W) :
  started = Ok () → good_tx tx → TrimSpace (tx_TxID tx) ≠ "" → normalizeTransactionSignature (TrimSpace signature) = Ok raw →
  pluginBuildSigned started (encodeTransactionBase64 tx) signature w
  = (Returned (Ok (encodeTransactionBase64 (addSignature tx raw))), w).
Proof.
  intros -> Hg Hid Hs. unfold pluginBuildSigned, written, ensureWriter, tronBuildSignedTransaction. rewrite encoded_trimmed.
  unfold reported, mbind, call_bind, returns. rewrite decode_encode_transaction by done. rewrite Hs.
  unfold success, mret, call_ret. cbn [rs_Code rs_Msg tronExpectCodeOK rs_Body]. by rewrite encoded_trimmed.
Qed.

(** *** The service *)

Variables (transient : error → bool) (cancelled : process W → option error).

Lemma withRetry_ext {A} op (f g : process W → result A * process W) s :
  (∀ s, f s = g s) → withRetry transient cancelled op f s = withRetry transient cancelled op g s.
Proof.
  intros Hfg. unfold withRetry. generalize 3%nat as n. intros n. revert s. induction n as [|n IH]; intros s; cbn [retryTimes]; [done|].
  rewrite Hfg. destruct (g s) as [[a|e] s1]; [done|]. destruct (negb _ || _); [done|]. destruct (cancelled s1); [done|]. apply IH.
Qed.

Lemma tron_names chain : ToLower (TrimSpace chain) = "tron" → NormalizeChain chain = "tron" ∧ ChainClient.normalizeChain chain = "tron".
Proof. unfold NormalizeChain, ChainClient.normalizeChain. by intros ->. Qed.

(** The text of an order that brings no transaction of its own. *)
Lemma tron_text env params t :
  ToLower (TrimSpace (bp_Chain params)) = "tron" → TrimSpace (bp_Base64Tx params) = "" → buildBase64Tx env params = Ok t →
  ∃ value, parseInt64 (TrimSpace (bp_Amount params)) = Ok value ∧ t = encode64doc (tronMembers params value)
    ∧ TrimSpace (bp_From params) ≠ "" ∧ TrimSpace (bp_To params) ≠ "".
Proof.
  intros Hc Hb Hx. destruct (tron_names _ Hc) as [_ Hn]. unfold buildBase64Tx in Hx. rewrite Hn in Hx.
  rewrite decide_False in Hx by (intros E; by apply E). case_decide; [done|]. case_decide as Hreq; [done|]. cbv zeta in Hx.
  change (isEVMChain "tron") with false in Hx. cbn iota in Hx. rewrite decide_True in Hx by done.
  destruct (parseInt64 _) as [value|e]; [|done]. injection Hx as <-. exists value. tauto.
Qed.

Lemma parseInt64_range s v : parseInt64 s = Ok v → in_int64 v.
Proof. unfold parseInt64. repeat case_match; try done. all: intros [= <-]; done. Qed.

(** C39. A Tron payment through the service of the gateway.  When the service
    has built the unsigned transaction of an order that brings none of its own
    (its chain is named tron, its texts are UTF-8, it names a network, and no
    plugin registered later takes Tron's place), a node was asked to build exactly
    the order: the transfer of TRX, or the call of the token's transfer with the
    recipient's 20 bytes and the amount; and the hash to sign is the transaction
    id in the node's answer.  Sending that transaction back with a signature of 65
    bytes makes the service post, once in every attempt and nothing else, the
    transaction the node had answered, with all its fields as they were read and
    this one signature more; the hash the caller gets is the node's.  (That the id
    is the hash of the transaction, and the transaction the order's, is the node's
    word: nothing checks it.) *)
Theorem tron_payment_is_sent_as_built env params t r s u s' :
  not_replaced → accountGateway started before after utxo = Ok r → order_text params →
  ToLower (TrimSpace (bp_Chain params)) = "tron" → normalizeNetwork (bp_Network params) ≠ "" →
  TrimSpace (bp_Base64Tx params) = "" → buildBase64Tx env params = Ok t →
  serviceBuildUnsigned transient cancelled r {| bi_Chain := bp_Chain params; bi_Network := bp_Network params; bi_Base64Tx := t;
    bi_Fee := ""; bi_Vin := []; bi_Vout := [] |} s = (Ok u, s') →
  ∃ value path body w resp w' d tx,
    parseInt64 (TrimSpace (bp_Amount params)) = Ok value ∧ nodeOrder params value = Ok (path, body)
    ∧ Post path body w = (Ok resp, w') ∧ s' = Up w' ∧ ry_Result resp = Some d ∧ nodeAnswered params d tx
    ∧ br_SignHashes u = [TrimSpace (tx_TxID tx)]
    ∧ ∀ coin signature publicKey raw w2, normalizeTransactionSignature (TrimSpace signature) = Ok raw →
        serviceSendTx transient cancelled r {| bc_Chain := bp_Chain params; bc_Network := bp_Network params; bc_Coin := coin;
          bc_RawTx := ""; bc_UnsignedTx := br_UnsignedTx u; bc_Signatures := [signature]; bc_PublicKeys := [publicKey] |} (Up w2)
        = withRetry transient cancelled "send-tx" (hosted (λ w3,
            let '(resp, w4) := Post "/wallet/broadcasttransaction" (txDoc (addSignature tx raw)) w3 in
            (Returned (sendVerdict tx resp), w4))) (Up w2).
Proof.
  intros Hrep Hr Hv Hc Hnet Hb Hbuild Hx. destruct (tron_text env params t Hc Hb Hbuild) as (value & Hval & -> & Hf & Ht).
  destruct (tron_names _ Hc) as [Hname _].
  destruct (accountGateway_resolves r (bp_Chain params) (bp_Network params) Hrep Hr Hname Hnet) as (a & Hbind & Ha).
  unfold serviceBuildUnsigned in Hx. cbn [bi_Chain bi_Network bi_Base64Tx bi_Fee bi_Vin bi_Vout] in Hx. rewrite Hbind in Hx. cbv zeta in Hx.
  rewrite decide_False in Hx by tauto.
  assert (∃ s0, hosted (pluginBuildUnsigned started (encode64doc (tronMembers params value))) s0 = (Ok u, s')) as [s0 Hs0].
  { destruct (withRetry transient cancelled "build-unsigned-account" _ s) as [[u1|e] s1] eqn:E.
    - injection Hx as -> ->. apply withRetry_ok_inv in E as [s0 E]. exists s0. revert E. by to_tron Ha.
    - destruct (is_unsupported e); [|done]. apply withRetry_ok_inv in Hx as [s0 Hx]. revert Hx. by to_tron Ha. }
  apply hosted_ok in Hs0 as (w & w' & _ & -> & Hp).
  destruct (pluginBuildUnsigned_inv params value w u w' Hv (parseInt64_range _ _ Hval) Hf Ht Hp)
    as (path & body & resp & d & tx & Ho & Hpost & Hd & Hans & Hg & Hid & -> & Hst).
  exists value, path, body, w, resp, w', d, tx. split_and!; try done. intros coin signature publicKey raw w2 Hs.
  assert (∃ b, raw = hexEncode b) as [b Hraw].
  { unfold normalizeTransactionSignature in Hs. case_decide; [done|]. destruct (hexBytes _) as [b|]; [|done].
    case_decide; [done|]. injection Hs as <-. by exists b. }
  unfold serviceSendTx. cbn [bc_Chain bc_Network bc_Coin]. rewrite Hbind. unfold rawTransaction.
  cbn [bc_RawTx bc_UnsignedTx bc_Signatures bc_PublicKeys bc_Network br_UnsignedTx].
  rewrite decide_True by (split_and!; [reflexivity|apply encoded_nonempty|discriminate|discriminate]). rewrite decide_False by (intros Hne; apply Hne; reflexivity).
  cbn [defaultBinding pb_Model]. rewrite decide_True by done.
  assert (buildSignedAccount transient cancelled (defaultBinding "account" (accountAdapter a) "tron") (bp_Network params)
            (encodeTransactionBase64 tx) signature publicKey (Up w2)
          = (Ok (encodeTransactionBase64 (addSignature tx raw)), Up w2)) as Hsigned.
  { unfold buildSignedAccount. apply withRetry_ok. to_tron Ha. unfold hosted. by rewrite (signs_exactly tx signature raw w2 Hst Hg Hid Hs). }
  rewrite Hsigned. cbn beta iota. rewrite decide_False by apply encoded_nonempty.
  apply withRetry_ext. intros [w3|]; [|by to_tron Ha]. to_tron Ha. unfold hosted.
  rewrite sends_exactly; [|done|rewrite Hraw; by apply good_signed|done].
  by destruct (Post "/wallet/broadcasttransaction" _ w3) as [resp3 w4].
Qed.
End payment.

(** ** An example *)

(** A node that answers from its own documents; the world is what was posted to
    it. *)
Module TronExample.
Definition posts : Type := list (string * doc).
Definition answering (d : doc) : restyResponse := {| ry_StatusCode := 200; ry_Body := Marshal d; ry_Result := parseText (Marshal d) |}.

(** A token transfer, as a node builds it: no field of the request is in it but
    the contract, and the data is what was asked. *)
Definition builtTx : doc := DObj [("visible", DBool true); ("txID", DStr "a1b2"); ("raw_data_hex", DStr "0a02");
  ("raw_data", DObj [("expiration", DInt 60000); ("contract", DArr [DObj [("type", DStr "TriggerSmartContract");
    ("parameter", DObj [("value", DObj [("owner_address", DStr "TFrom"); ("contract_address", DStr "TToken")])])]])])].
Definition nodeAnswer (path : string) : doc :=
  if decide (path = "/wallet/triggersmartcontract") then DObj [("result", DObj [("result", DBool true)]); ("transaction", builtTx)]
  else if decide (path = "/wallet/createtransaction") then builtTx
  else DObj [("result", DBool true); ("txid", DStr "a1b2")].
#[export] Instance toyResty : Resty posts := {| Post path body w := (Ok (answering (nodeAnswer path)), w ++ [(path, body)]) |}.
#[export] Instance toyRestyLaws : RestyLaws posts.
Proof. split. intros path body w resp w' d [= <- <-]. done. Qed.

(** An explorer that lists one payment to TMe. *)
Definition deposit : OkLinkTx := {| ol_TxId := "cd"; ol_From := "TYou"; ol_To := "TMe"; ol_Amount := "5"; ol_Height := "70";
  ol_TokenContractAddress := "" |}.
#[export] Instance toyTronExplorer : TronExplorer posts := {| tronTxByAddress _ _ _ _ w := (Ok [deposit], w) |}.

(** Addresses of 21 bytes, written in hexadecimal. *)
#[export] Instance toyTronKit : TronKit := {| tronpub := bytes; tronParsePubKey := Ok; PubkeyToAddress k := take 21 (k ++ replicate 21 (ascii_of_N 0));
  AddressString := hexEncode; Base58ToAddress s := from_option_err (Errorf "illegal base58 data") (hexDecode (to_bytes s)) |}.
#[export] Instance toySha : Sha256 := take 32.
#[export] Instance toyAccountProtoJSON : AccountProtoJSON :=
  {| accountProtojson m := Ok (accountMessageMembers m); accountStructJSON := accountMessageMembers |}.

(** A plugin that supports nothing. *)
Definition inert : ChainPlugin (process posts) := {|
  cp_GetTxByAddress _ s := (Err ErrUnsupported, s); cp_GetTxByHash _ s := (Err ErrUnsupported, s);
  cp_GetAccount _ s := (Err ErrUnsupported, s); cp_GetUnspentOutputs _ _ _ s := (Err ErrUnsupported, s);
  cp_ConvertAddress _ _ _ _ s := (Err ErrUnsupported, s); cp_SendTx _ _ _ _ s := (Err ErrUnsupported, s);
  cp_BuildUnsignedAccount _ _ _ s := (Err ErrUnsupported, s); cp_BuildSignedAccount _ _ _ _ _ s := (Err ErrUnsupported, s);
  cp_BuildUnsignedUTXO _ _ _ _ _ s := (Err ErrUnsupported, s); cp_BuildSignedUTXO _ _ _ _ _ s := (Err ErrUnsupported, s) |}.
Definition others : list (string * ChainPlugin (process posts)) := [("solana", inert)].
Definition tronRouter : Router (ChainPlugin (process posts)) :=
  match accountGateway (Ok ()) [("ethereum", inert)] others inert with Ok r => r | Err _ => ∅ end.
Lemma tron_router : accountGateway (Ok ()) [("ethereum", inert)] others inert = Ok tronRouter.
Proof.
  assert (∃ a, NewAdapter ([("ethereum", inert)] ++ ("tron", tronPlugin (Ok ())) :: others) = Ok a) as [a Ha] by (eexists; reflexivity).
  unfold tronRouter, accountGateway. rewrite Ha, bind_ok.
  destruct (default_bindings (accountAdapter a) inert) as (r & -> & _). reflexivity.
Qed.

Definition recipient : string := of_bytes (List.concat (replicate 21 (to_bytes "41"))).
Definition tokenOrder : BuildUnsignedParams := {| bp_Chain := "Tron"; bp_Network := "mainnet"; bp_Coin := "USDT"; bp_From := "TFrom";
  bp_To := recipient; bp_Amount := "255"; bp_Base64Tx := ""; bp_ContractAddress := "TToken"; bp_AmountUnit := ""; bp_TokenDecimals := 6;
  bp_Fee := ""; bp_Vin := []; bp_Vout := [] |}.
Definition someEnv : chainEnv := {| env_EVM_MAX_PRIORITY_FEE_WEI := ""; env_EVM_MAX_FEE_WEI := ""; env_EVM_GAS_LIMIT := "";
  env_EVM_ERC20_GAS_LIMIT := "" |}.
Definition someSignature : string := of_bytes (List.concat (replicate 65 (to_bytes "0b"))).
End TronExample.

Section tron_witness.
Import TronExample.

Definition never (e : error) : bool := false.
Definition running (s : process posts) : option error := None.
Definition orderText : string := match buildBase64Tx someEnv tokenOrder with Ok t => t | Err _ => "" end.

(** The transaction the node answers. *)
Definition tokenTx : Transaction :=
  match into_struct trigger_members zero_trigger (nodeAnswer "/wallet/triggersmartcontract") with
  | Some g => tg_Transaction g | None => zero_tx end.

(** The plugin's answer carries the payment, but with the members [from], [to] and
    [value]; the normaliser reads [froms], [tos] and [values], as for EVM. *)
Example tron_deposit_is_not_found :
  fst (pluginGetTxByAddress (Ok ()) {| tq_Chain := "tron"; tq_Coin := ""; tq_Network := "mainnet"; tq_Address := "TMe";
         tq_ContractAddress := ""; tq_Page := 0; tq_PageSize := 0; tq_Cursor := ""; tq_Hash := "" |} [])
  = Returned (Ok (accountMessageMembers (ATxByAddress (Build_response SUCCESS "get tx list success" [explorerMessage deposit]))))
  ∧ gr_Items <$> fst (serviceIncoming never running tronRouter {| ii_Model := "account"; ii_Chain := "tron"; ii_Coin := "";
         ii_Network := "mainnet"; ii_Address := "TMe"; ii_Cursor := ""; ii_Page := 0; ii_PageSize := 0; ii_ContractAddress := "" |} (Up []))
    = Ok [].
Proof. split; vm_compute; reflexivity. Qed.

(** The data of [transfer(address,uint256)] without a prefix has 136 digits: the
    reader of a transaction takes it, the reader of a block wants two more. *)
Definition tokenTransfer (toBytes : bytes) (amount : Z) : Contract := {|
  ct_Parameter := {| pr_Value := {| cv_OwnerAddress := "41aa"; cv_ToAddress := ""; cv_Amount := 0; cv_ContractAddress := "41bb";
    cv_Data := "a9059cbb" +:+ trc20Parameter toBytes amount; cv_AssetName := "" |}; pr_TypeURL := "" |};
  ct_Type := "TriggerSmartContract"; ct_PermissionID := 0 |}.
Example token_transfers_are_lost_in_blocks :
  contractTransfer (tokenTransfer (replicate 20 "A"%char) 255) = mret (of_bytes (take 42 (to_bytes recipient)), "255", "41bb")
  ∧ blockTransfers 7 [{| tx_Visible := false; tx_Ret := None; tx_Signature := None; tx_TxID := "ab"; tx_RawDataHex := "";
      tx_RawData := {| rd_Contract := Some [tokenTransfer (replicate 20 "A"%char) 255]; rd_RefBlockBytes := ""; rd_RefBlockHash := "";
        rd_Expiration := 0; rd_FeeLimit := 0; rd_Timestamp := 0 |} |}] = mret [].
Proof. split; vm_compute; reflexivity. Qed.

(** A call of another function of a token, with no arguments, cannot be read. *)
Example short_call_panics : contractTransfer {|
  ct_Parameter := {| pr_Value := {| cv_OwnerAddress := "41aa"; cv_ToAddress := ""; cv_Amount := 0; cv_ContractAddress := "41bb";
    cv_Data := "d0e30db0"; cv_AssetName := "" |}; pr_TypeURL := "" |}; ct_Type := "TriggerSmartContract"; ct_PermissionID := 0 |} = Panicked.
Proof. reflexivity. Qed.

(** An order for the alias trx reaches the plugin, as a text it refuses. *)
Example alias_is_refused :
  NormalizeChain "trx" = "tron"
  ∧ ∃ t, buildBase64Tx someEnv {| bp_Chain := "trx"; bp_Network := "mainnet"; bp_Coin := "TRX"; bp_From := "TFrom"; bp_To := "TYou";
      bp_Amount := "5"; bp_Base64Tx := ""; bp_ContractAddress := ""; bp_AmountUnit := ""; bp_TokenDecimals := 0; bp_Fee := "";
      bp_Vin := []; bp_Vout := [] |} = Ok t
    ∧ decodeUnsignedPayload t = Err (Errorf "unsupported tron payload format").
Proof. split; [reflexivity|]. eexists. split; [vm_compute; reflexivity|]. vm_compute. reflexivity. Qed.

Lemma tron_payment_is_sent_as_built_witness :
  ∃ u, serviceBuildUnsigned never running tronRouter {| bi_Chain := bp_Chain tokenOrder; bi_Network := bp_Network tokenOrder;
      bi_Base64Tx := orderText; bi_Fee := ""; bi_Vin := []; bi_Vout := [] |} (Up [])
    = (Ok u, Up [("/wallet/triggersmartcontract", trc20Order "TFrom" "TToken" (replicate 20 "A"%char) 255)])
  ∧ br_SignHashes u = ["a1b2"]
  ∧ serviceSendTx never running tronRouter {| bc_Chain := bp_Chain tokenOrder; bc_Network := bp_Network tokenOrder; bc_Coin := "USDT";
      bc_RawTx := ""; bc_UnsignedTx := br_UnsignedTx u; bc_Signatures := ["0x" +:+ someSignature]; bc_PublicKeys := ["02"] |} (Up [])
    = (Ok "a1b2", Up [("/wallet/broadcasttransaction", txDoc (addSignature tokenTx someSignature))]).
Proof.
  destruct (serviceBuildUnsigned never running tronRouter {| bi_Chain := bp_Chain tokenOrder; bi_Network := bp_Network tokenOrder;
      bi_Base64Tx := orderText; bi_Fee := ""; bi_Vin := []; bi_Vout := [] |} (Up [])) as [[u|e] s'] eqn:Hu;
    [|vm_compute in Hu; discriminate Hu].
  pose proof (tron_payment_is_sent_as_built (Ok ()) [("ethereum", inert)] others inert never running someEnv tokenOrder orderText tronRouter
    (Up []) u s') as Hp.
  destruct Hp as (value & path & body & w & resp & w' & d & tx & Hv & Ho & Hpost & -> & Hd & Hans & Hh & Hsend).
  - constructor; [|constructor]. vm_compute. discriminate.
  - exact tron_router.
  - split_and!; apply ascii_utf8; reflexivity.
  - reflexivity.
  - discriminate.
  - reflexivity.
  - vm_compute. reflexivity.
  - exact Hu.
  - vm_compute in Hv. injection Hv as <-. vm_compute in Ho. injection Ho as <- <-. injection Hpost as <- _. vm_compute in Hd. injection Hd as <-.
    destruct Hans as (g & Hg & _ & <-). vm_compute in Hg. injection Hg as <-. exists u.
    split; [|split].
    + apply (f_equal snd) in Hu. vm_compute in Hu. injection Hu as <-. reflexivity.
    + rewrite Hh. reflexivity.
    + etrans; [apply (Hsend "USDT" ("0x" +:+ someSignature) "02" someSignature []); reflexivity|]. vm_compute. reflexivity.
Defined.
End tron_witness.
