(* ===== verification/ScanInvariant.v ===== *)
(** * The outbox of the scanner

    What every program of the scanner keeps: rows have their own ids, a row
    that announces a deposit is under that deposit's key, and a row is [DONE]
    only when wallet-core accepted its announcement. *)
From S2P Require Import Prelude GoStrings GoNumbers ScanStore ScanEvents Scanner ScanOutbox.

(** ** Invariant *)

Definition payloadKey (p : DepositOutboxPayload) : string :=
  depositEventKey (dp_TenantID p) (dp_Chain p) (dp_Network p) (dp_TxHash p) (dp_EventIndex p).

Definition is_deposit (r : outbox_row) : Prop := ToUpper (TrimSpace (ox_event_type r)) = "DEPOSIT_NOTIFY".

Record outbox_ok (s : store) (sent : list (wallet_call * result ())) : Prop := {
  ok_ids : ∀ k k' r r', st_outbox s !! k = Some r → st_outbox s !! k' = Some r' → ox_id r = ox_id r' → k = k';
  ok_fresh : ∀ k r, st_outbox s !! k = Some r → ox_id r < st_next_outbox_id s;
  ok_payload : ∀ k r, st_outbox s !! k = Some r → is_deposit r → ∃ p, ox_payload r = DepositPayload p ∧ payloadKey p = k;
  ok_delivered : ∀ k r, st_outbox s !! k = Some r → is_deposit r → ox_status r = "DONE" →
    (DepositNotifyCall (asDeposit (ox_payload r)), Ok ()) ∈ sent;
}.

(** The row under [k] is done. *)
Definition row_done (s : store) (k : string) : Prop := ∃ r, st_outbox s !! k = Some r ∧ ox_status r = "DONE".

(** A call does not announce a deposit whose row is done. *)
Definition not_again (s : store) (c : wallet_call * result ()) : Prop :=
  match fst c with DepositNotifyCall p => ¬ row_done s (payloadKey p) | _ => True end.

(** ** Programs step by step *)

(** What holds of every statement of a program holds of the program, for a
    relation between the worlds before and after that composes. *)
Section holds.
Context {C : Type} (R : relation (sworld C)) `{!PreOrder R}.

Definition holds {A} (p : scan C A) : Prop := ∀ w, R w (p w).2.

Lemma holds_ret {A} (a : A) : holds (mret a).
Proof. intros w. cbn. reflexivity. Qed.

Lemma holds_bind {A B} (p : scan C A) (f : A → scan C B) : holds p → (∀ a, holds (f a)) → holds (p ≫= f).
Proof.
  intros Hp Hf w. cbn. specialize (Hp w). unfold mbind, scan_bind. destruct (p w) as [a w']. etrans; [exact Hp|apply Hf].
Qed.

Lemma holds_ok {A B} (p : scan C (result A)) (f : A → scan C (result B)) :
  holds p → (∀ a, holds (f a)) → holds (scan_ok p f).
Proof. intros Hp Hf. apply holds_bind; [done|]. intros [a|e]; [apply Hf|apply holds_ret]. Qed.

Lemma holds_forEach {A} (l : list A) (f : A → scan C (result ())) : (∀ a, holds (f a)) → holds (forEach l f).
Proof. intros Hf. induction l as [|a l IH]; [apply holds_ret|]. by apply holds_ok. Qed.

Lemma holds_forAll {A B} (l : list A) (f : A → scan C B) : (∀ a, holds (f a)) → holds (forAll l f).
Proof. intros Hf. induction l as [|a l IH]; [apply holds_ret|]. by apply holds_bind. Qed.
End holds.

(** A program that ends without an error had none on the way. *)
Lemma scan_ok_inv {C A B} (p : scan C (result A)) (f : A → scan C (result B)) w b w' :
  scan_ok p f w = (Ok b, w') → ∃ a w1, p w = (Ok a, w1) ∧ f a w1 = (Ok b, w').
Proof.
  unfold scan_ok, mbind, scan_bind. destruct (p w) as [[a|e] w1]; [|done]. intros Hf. by exists a, w1.
Qed.

Lemma db_inv `{ScanOutside C} {A} (op : Z → store → result (A * store)) (w w' : sworld C) a :
  db op w = (Ok a, w') → ∃ now c s, op now (sw_store w) = Ok (a, s) ∧ w' = SWorld s c (sw_sent w).
Proof.
  unfold db. destruct (so_db (sw_out w)) as [[now|e] c]; [|done].
  destruct (op now (sw_store w)) as [[a' s]|e] eqn:Ho; [|done]. intros [= <- <-]. by exists now, c, s.
Qed.

Lemma exec_inv `{ScanOutside C} (op : Z → store → result store) (w w' : sworld C) :
  exec_db op w = (Ok (), w') → ∃ now c s, op now (sw_store w) = Ok s ∧ w' = SWorld s c (sw_sent w).
Proof.
  intros (now & c & s & Hx & ->)%db_inv. exists now, c, s. split; [|done]. mbind_inv Hx. by injection Hx as <-.
Qed.

(** What no statement breaks: an invariant of the tables and of the calls
    sent so far. *)
Section carried.
Context {C : Type} (P : store → list (wallet_call * result ()) → Prop).

Definition carried (w w' : sworld C) : Prop := P (sw_store w) (sw_sent w) → P (sw_store w') (sw_sent w').

#[export] Instance carried_preorder : PreOrder carried.
Proof. split; unfold carried; repeat intro; auto. Qed.

Context `{ScanOutside C}.

Lemma carried_outside {A} (f : C → A * C) : holds carried (outside f).
Proof. intros w. unfold carried, outside. by destruct (f (sw_out w)). Qed.

Lemma carried_db {A} (op : Z → store → result (A * store)) :
  (∀ now s a s' sent, op now s = Ok (a, s') → P s sent → P s' sent) → holds carried (db op).
Proof.
  intros Hop w Hw. unfold db. destruct (so_db (sw_out w)) as [[now|e] c]; [|done].
  destruct (op now (sw_store w)) as [[a s]|e] eqn:Ho; [|done]. by apply (Hop _ _ _ _ _ Ho).
Qed.

Lemma carried_exec (op : Z → store → result store) :
  (∀ now s s' sent, op now s = Ok s' → P s sent → P s' sent) → holds carried (exec_db op).
Proof.
  intros Hop. apply carried_db. intros now s a s' sent Hx. mbind_inv Hx. injection Hx as _ <-. by apply (Hop now).
Qed.

Lemma carried_query {A} (op : store → result A) : holds carried (query op).
Proof. apply carried_db. intros now s a s' sent Hx. mbind_inv Hx. by injection Hx as _ <-. Qed.
End carried.

(** ** What a program may do *)

Section invariant.
Context `{SqlText} {C : Type} `{ScanOutside C}.

Definition good (w : sworld C) : Prop := outbox_ok (sw_store w) (sw_sent w).

(** Pending rows stay as they are, and done rows for ever. *)
Definition rows_kept (s s' : store) : Prop :=
  ∀ k r, st_outbox s !! k = Some r → (ox_status r = "DONE" → st_outbox s' !! k = Some r).

Definition steps_to (w w' : sworld C) : Prop :=
  good w → good w' ∧ rows_kept (sw_store w) (sw_store w')
    ∧ ∃ new, sw_sent w' = new ++ sw_sent w ∧ Forall (not_again (sw_store w)) new.

#[export] Instance steps_to_preorder : PreOrder steps_to.
Proof.
  split.
  - intros w Hw. split; [done|]. split; [by intros ????|]. by exists [].
  - intros w1 w2 w3 H12 H23 Hw. destruct (H12 Hw) as (Hw2 & Hk & new & Hn & Hf).
    destruct (H23 Hw2) as (Hw3 & Hk' & new' & Hn' & Hf'). split; [done|]. split.
    + intros k r Hr Hd. apply Hk'; [|done]. by apply Hk.
    + exists (new' ++ new). rewrite Hn', Hn, app_assoc. split; [done|]. apply Forall_app. split; [|done].
      eapply Forall_impl; [exact Hf'|]. intros [[] res]; cbn; try done. intros Hnd (r & Hr & Hd). apply Hnd.
      exists r. split; [|done]. by apply Hk.
Qed.

Definition keeps {A} (p : scan C A) : Prop := holds steps_to p.

#[local] Abbreviation keeps_ret := (holds_ret steps_to).
#[local] Abbreviation keeps_bind := (holds_bind steps_to).
#[local] Abbreviation keeps_ok := (holds_ok steps_to).
#[local] Abbreviation keeps_forEach := (holds_forEach steps_to).
#[local] Abbreviation keeps_forAll := (holds_forAll steps_to).

Lemma keeps_outside {A} (f : C → A * C) : keeps (outside f).
Proof. intros w. unfold outside. destruct (f (sw_out w)). cbn. intros Hw. split; [done|]. split; [by intros ????|]. by exists []. Qed.

(** Statements that leave the outbox alone. *)
Definition same_outbox (s s' : store) : Prop :=
  st_outbox s' = st_outbox s ∧ st_next_outbox_id s' = st_next_outbox_id s.

Lemma keeps_db {A} (op : Z → store → result (A * store)) :
  (∀ now s a s' sent, op now s = Ok (a, s') → outbox_ok s sent → outbox_ok s' sent ∧ rows_kept s s') → keeps (db op).
Proof.
  intros Hop w. unfold db. destruct (so_db (sw_out w)) as [[now|e] c]; cbn.
  - destruct (op now (sw_store w)) as [[a s]|e] eqn:Ho; cbn; intros Hw.
    + destruct (Hop _ _ _ _ _ Ho Hw) as [Hok Hk]. split; [done|]. split; [done|]. by exists [].
    + split; [done|]. split; [by intros ????|]. by exists [].
  - intros Hw. split; [done|]. split; [by intros ????|]. by exists [].
Qed.

Lemma same_outbox_ok s s' sent : same_outbox s s' → outbox_ok s sent → outbox_ok s' sent ∧ rows_kept s s'.
Proof.
  intros [Ho Hn] [I1 I2 I3 I4]. split; [split|]; unfold rows_kept; rewrite ?Ho, ?Hn; try done.
Qed.

Lemma keeps_exec (op : Z → store → result store) :
  (∀ now s s' sent, op now s = Ok s' → outbox_ok s sent → outbox_ok s' sent ∧ rows_kept s s') → keeps (exec_db op).
Proof.
  intros Hop. apply keeps_db. intros now s a s' sent Hx. mbind_inv Hx. injection Hx as _ <-. by apply (Hop now).
Qed.

Lemma keeps_query {A} (op : store → result A) : keeps (query op).
Proof.
  apply keeps_db. intros now s a s' sent Hx. mbind_inv Hx. injection Hx as _ <-. by apply same_outbox_ok.
Qed.

(** ** Writing an event *)

(** What an event must be to have a row. *)
Definition event_ok (ev : OutboxEvent) : Prop :=
  ToUpper (TrimSpace (ev_EventType ev)) = "DEPOSIT_NOTIFY" →
  ∃ p, ev_Payload ev = DepositPayload p ∧ payloadKey p = ev_EventKey ev.

Lemma bump_ok s sent : outbox_ok s sent → outbox_ok (s <| st_next_outbox_id ::= Z.succ |>) sent.
Proof. intros [I1 I2 I3 I4]. split; try done. cbn. intros k r Hr. specialize (I2 _ _ Hr). lia. Qed.

(** A row written under its own id, or under one that is not used. *)
Lemma putRow_ok now id ev s sent :
  event_ok ev → id ≤ st_next_outbox_id s → (∀ k r, st_outbox s !! k = Some r → ox_id r = id → k = ev_EventKey ev) →
  outbox_ok s sent →
  outbox_ok (s <| st_next_outbox_id ::= Z.succ |> <| st_outbox := <[ev_EventKey ev := outboxRow now id ev]> (st_outbox s) |>) sent.
Proof.
  intros Hev Hid Huniq [I1 I2 I3 I4]. set (s' := s <| st_next_outbox_id ::= Z.succ |> <| st_outbox := _ |>).
  assert (Hl : ∀ k r, st_outbox s' !! k = Some r →
    (k = ev_EventKey ev ∧ r = outboxRow now id ev) ∨ (k ≠ ev_EventKey ev ∧ st_outbox s !! k = Some r)).
  { intros k r. change (st_outbox s') with (<[ev_EventKey ev := outboxRow now id ev]> (st_outbox s)).
    intros [[<- <-]|[Hne Hr]]%lookup_insert_Some; [by left|right]. split; [congruence|done]. }
  split.
  - intros k k' r r' [[-> ->]|[Hk Hr]]%Hl [[-> ->]|[Hk' Hr']]%Hl; cbn [outboxRow ox_id]; intros He; try done.
    + symmetry. by apply (Huniq _ _ Hr').
    + by apply (Huniq _ _ Hr).
    + by apply (I1 _ _ _ _ Hr Hr').
  - change (st_next_outbox_id s') with (Z.succ (st_next_outbox_id s)).
    intros k r [[-> ->]|[Hk Hr]]%Hl; cbn [outboxRow ox_id]; [lia|]. specialize (I2 _ _ Hr). lia.
  - intros k r [[-> ->]|[Hk Hr]]%Hl Hd; [by apply Hev|by apply I3].
  - intros k r [[-> ->]|[Hk Hr]]%Hl Hd Hst; [done|by apply (I4 k)].
Qed.

(** An insert keeps the outbox well formed, whatever rows it may replace. *)
Lemma insertOutbox_ok replace `{!∀ r, Decision (replace r)} now ev s sent :
  event_ok ev → outbox_ok s sent → outbox_ok (insertOutbox replace now ev s) sent.
Proof.
  intros Hev Hok. unfold insertOutbox. change (st_outbox (s <| st_next_outbox_id ::= Z.succ |>)) with (st_outbox s).
  destruct (st_outbox s !! ev_EventKey ev) as [old|] eqn:Hold.
  - case_decide as Hr; [|by apply bump_ok]. apply putRow_ok; [done| | |done].
    + pose proof (ok_fresh _ _ Hok _ _ Hold). lia.
    + intros k r Hk He. by apply (ok_ids _ _ Hok _ _ _ _ Hk Hold).
  - apply putRow_ok; [done|cbn; lia| |done]. intros k r Hk He. pose proof (ok_fresh _ _ Hok _ _ Hk). lia.
Qed.

(** It keeps the done rows when it does not replace them. *)
Lemma insertOutbox_kept replace `{!∀ r, Decision (replace r)} now ev s :
  (∀ r, replace r → ox_status r ≠ "DONE") → rows_kept s (insertOutbox replace now ev s).
Proof.
  intros Hrep k r Hr Hst. unfold insertOutbox. change (st_outbox (s <| st_next_outbox_id ::= Z.succ |>)) with (st_outbox s).
  destruct (st_outbox s !! ev_EventKey ev) as [old|] eqn:Hold; [case_decide as Hd; [|done]|];
    cbn; (rewrite lookup_insert_ne; [done|]); intros <-; [|congruence].
  assert (old = r) as -> by congruence. by apply (Hrep r).
Qed.

Lemma upsert_ok now ev s s' sent :
  event_ok ev → UpsertOutboxEvent now ev s = Ok s' → outbox_ok s sent → outbox_ok s' sent ∧ rows_kept s s'.
Proof.
  intros Hev Hx. unfold UpsertOutboxEvent in Hx. mbind_inv Hx. injection Hx as <-. intros Hok.
  split; [by apply insertOutbox_ok|]. apply insertOutbox_kept. intros r Hr Hd. apply Hr. rewrite Hd. by left.
Qed.

Lemma insert_absent_ok now ev s s' sent :
  event_ok ev → InsertOutboxEventIfAbsent now ev s = Ok s' → outbox_ok s sent → outbox_ok s' sent ∧ rows_kept s s'.
Proof.
  intros Hev Hx. unfold InsertOutboxEventIfAbsent in Hx. mbind_inv Hx. injection Hx as <-. intros Hok.
  split; [by apply insertOutbox_ok|]. apply insertOutbox_kept. intros r Hr Hd. congruence.
Qed.

(** ** The scanning programs *)

Lemma same_outbox_keeps {A} (op : Z → store → result (A * store)) :
  (∀ now s a s', op now s = Ok (a, s') → same_outbox s s') → keeps (db op).
Proof. intros Hop. apply keeps_db. intros now s a s' sent Hx. apply same_outbox_ok. by eapply Hop. Qed.

Lemma same_outbox_exec (op : Z → store → result store) :
  (∀ now s s', op now s = Ok s' → same_outbox s s') → keeps (exec_db op).
Proof. intros Hop. apply keeps_exec. intros now s s' sent Hx. apply same_outbox_ok. by eapply Hop. Qed.

Lemma keeps_seen w txHash eventIndex status confirmations amount from to :
  keeps (db (λ now, UpsertSeenEvent now w txHash eventIndex status confirmations amount from to)).
Proof.
  apply same_outbox_keeps. intros now s a s'. unfold UpsertSeenEvent.
  destruct (st_seen s !! _); [destruct (negb _)|]; by intros [= <- <-].
Qed.

Lemma keeps_enqueue w txHash eventIndex amount from to confs reqConfs unlockConfs status :
  keeps (enqueueDepositEvent w txHash eventIndex amount from to confs reqConfs unlockConfs status).
Proof.
  apply keeps_exec. intros now s s' sent. apply upsert_ok. intros _. eexists. split; [reflexivity|]. reflexivity.
Qed.

Context (cfg : ScannerConfig).

Lemma keeps_record w tx idx : keeps (recordTransfer cfg w tx idx).
Proof.
  unfold recordTransfer. apply keeps_ok; [apply keeps_seen|]. intros change. destruct (negb _); [apply keeps_ret|].
  apply keeps_ok; [apply keeps_enqueue|]. intros _. apply keeps_ret.
Qed.

Lemma keeps_items w managed txs idx lastTx : keeps (scanItems cfg w managed txs idx lastTx).
Proof.
  revert idx lastTx. induction txs as [|tx txs IH]; intros idx lastTx; cbn; [apply keeps_ret|].
  destruct (shouldSkipInternalTransfer _ _); [apply IH|]. apply keeps_ok; [apply keeps_record|]. intros b. apply IH.
Qed.

Lemma keeps_pages n w managed guard cursor lastTx : keeps (scanPages cfg n w managed guard cursor lastTx).
Proof.
  revert guard cursor lastTx. induction n as [|n IH]; intros guard cursor lastTx; cbn; [apply keeps_ret|].
  apply keeps_ok; [apply keeps_outside|]. intros page. apply keeps_ok; [apply keeps_items|]. intros l.
  destruct (Observe _ _ _ _) as [g o]. destruct (ob_stop o); [apply keeps_ret|]. destruct (negb _); [apply keeps_ret|apply IH].
Qed.

Lemma keeps_checkpoint w cursor lastTx : keeps (exec_db (λ now, UpsertCheckpoint now w cursor lastTx)).
Proof. apply same_outbox_exec. by intros now s s' [= <-]. Qed.

Lemma keeps_watch w managed : keeps (scanOneWatch cfg w managed).
Proof.
  unfold scanOneWatch. case_decide; [apply keeps_ret|]. destruct (_ && _); [apply keeps_ret|].
  apply keeps_ok; [apply keeps_query|]. intros cursor.
  apply keeps_ok; [destruct managed; [apply keeps_ret|apply keeps_query]|]. intros m.
  apply keeps_ok; [apply keeps_pages|]. intros r. apply keeps_checkpoint.
Qed.

Lemma keeps_blocks chain network blocks : keeps (recordBlocks chain network blocks).
Proof.
  apply keeps_forAll. intros bm. case_decide; [apply keeps_ret|]. apply keeps_bind; [apply keeps_query|]. intros _.
  apply same_outbox_exec. by intros now s s' [= <-].
Qed.

Lemma keeps_group_items watches managed txs idx : keeps (groupItems cfg watches managed txs idx).
Proof.
  revert idx. induction txs as [|tx txs IH]; intros idx; cbn; [apply keeps_ret|]. apply keeps_ok; [|intros _; apply IH].
  destruct (shouldSkipInternalTransfer _ _); [apply keeps_ret|]. case_decide; [apply keeps_ret|].
  apply keeps_forEach. intros w. apply keeps_ok; [apply keeps_record|]. intros _. apply keeps_ret.
Qed.

Lemma keeps_group_pages n group managed guard cursor next lastTx :
  keeps (groupPages cfg n group managed guard cursor next lastTx).
Proof.
  revert guard cursor next lastTx. induction n as [|n IH]; intros guard cursor next lastTx; cbn; [apply keeps_ret|].
  apply keeps_ok; [apply keeps_outside|]. intros page. apply keeps_bind; [apply keeps_blocks|]. intros _.
  apply keeps_ok; [apply keeps_group_items|]. intros _.
  destruct (Observe _ _ _ _) as [g o]. destruct (ob_stop o); [apply keeps_ret|]. destruct (negb _); [apply keeps_ret|apply IH].
Qed.

Lemma keeps_group group : keeps (scanOneAccountGroup cfg group).
Proof.
  unfold scanOneAccountGroup. case_decide; [apply keeps_ret|]. case_decide; [apply keeps_ret|].
  apply keeps_ok; [apply keeps_query|]. intros cursor. case_decide; [apply keeps_ret|].
  apply keeps_ok; [apply keeps_query|]. intros managed. apply keeps_ok; [apply keeps_group_pages|]. intros [next lastTx].
  apply keeps_ok; [apply same_outbox_exec; by intros now s s' [= <-]|]. intros _.
  apply keeps_bind; [apply keeps_forAll; intros w; apply keeps_checkpoint|]. intros _.
  destruct (parseInt64 _); [|apply keeps_ret]. case_decide; [|apply keeps_ret].
  apply keeps_bind; [apply same_outbox_exec; by intros now s s' [= <-]|]. intros _. apply keeps_ret.
Qed.

Lemma keeps_model model : keeps (scanModel cfg model).
Proof.
  unfold scanModel. apply keeps_ok; [apply keeps_query|]. intros watches. case_decide; [apply keeps_ret|].
  assert (Hind : ∀ l managed, keeps (scanWatchesIndividuallyWithManaged cfg l managed))
    by (intros l managed; apply keeps_forAll; intros w; apply keeps_watch).
  destruct (EqualFold _ _); (apply keeps_bind; [|intros _; apply keeps_ret]); [|apply Hind].
  apply keeps_forAll. intros group. destruct (supportsChainWideAccountScan _ _).
  - apply keeps_bind; [apply keeps_group|]. intros _. apply keeps_ret.
  - apply keeps_bind; [apply keeps_query|]. intros [managed|e]; [apply Hind|apply keeps_ret].
Qed.

Lemma keeps_reconcile : keeps (reconcileReorgCandidates cfg).
Proof.
  unfold reconcileReorgCandidates. apply keeps_ok; [apply keeps_query|]. intros cands.
  apply keeps_bind; [|intros _; apply keeps_ret]. apply keeps_forAll. intros c. unfold reconcileCandidate.
  case_decide; [apply keeps_ret|]. apply keeps_ok; [apply keeps_outside|]. intros finality. apply keeps_ok.
  - unfold candidateState. destruct (negb _).
    + apply keeps_ok; [|intros m; apply keeps_ret]. apply same_outbox_keeps. intros now s a s'.
      unfold IncrementSeenEventNotFound. destruct (st_seen s !! _); by intros [= <- <-].
    + apply keeps_ok; [|intros _; apply keeps_ret]. case_decide; [|apply keeps_ret].
      apply same_outbox_exec. by intros now s s' [= <-].
  - intros [[st conf]|]; [|apply keeps_ret]. apply keeps_ok; [apply keeps_seen|]. intros change.
    destruct (negb _); [apply keeps_ret|apply keeps_enqueue].
Qed.

(** ** The dispatch of the outbox *)

(** The event is a pending row as it was read. *)
Definition listed (s : store) (ev : OutboxEvent) : Prop :=
  ∃ r, st_outbox s !! ev_EventKey ev = Some r ∧ scanOutboxEvent (ev_EventKey ev, r) = ev ∧ ox_status r = "PENDING".

(** Pending rows other than the one with [id] stay as they are. *)
Definition pending_kept (id : option Z) (s s' : store) : Prop :=
  ∀ k r, st_outbox s !! k = Some r → ox_status r = "PENDING" → Some (ox_id r) ≠ id → st_outbox s' !! k = Some r.

Lemma listed_kept id s s' ev : pending_kept id s s' → Some (ev_ID ev) ≠ id → listed s ev → listed s' ev.
Proof.
  intros Hp Hid (r & Hr & He & Hs). exists r. split; [|done]. apply Hp; [done|done|].
  rewrite <- He in Hid. exact Hid.
Qed.

Lemma pending_kept_trans id s1 s2 s3 : pending_kept id s1 s2 → pending_kept id s2 s3 → pending_kept id s1 s3.
Proof. intros H12 H23 k r Hr Hs Hid. apply H23; [by apply H12|done|done]. Qed.

(** *** Follow-up events *)

(** What handling an event does to the world after its call. *)
Definition followed (w w' : sworld C) : Prop :=
  steps_to w w' ∧ pending_kept None (sw_store w) (sw_store w') ∧ sw_sent w' = sw_sent w.

#[export] Instance followed_preorder : PreOrder followed.
Proof.
  split.
  - intros w. split; [done|]. split; [by intros k r|done].
  - intros w1 w2 w3 (H1 & P1 & S1) (H2' & P2 & S2). split; [by etrans|]. split; [by eapply pending_kept_trans|congruence].
Qed.

Lemma insertOutbox_pending replace `{!∀ r, Decision (replace r)} now ev s :
  (∀ r, replace r → ox_status r ≠ "PENDING") → pending_kept None s (insertOutbox replace now ev s).
Proof.
  intros Hrep k r Hr Hs _. unfold insertOutbox. cbn [st_outbox update].
  change (st_outbox (s <| st_next_outbox_id ::= Z.succ |>)) with (st_outbox s).
  assert (Hput : ∀ m : gmap string outbox_row, ∀ x, m !! k = Some r → k ≠ ev_EventKey ev → <[ev_EventKey ev := x]> m !! k = Some r)
    by (intros m x Hm Hne; by rewrite lookup_insert_ne).
  destruct (st_outbox s !! ev_EventKey ev) as [old|] eqn:Hold.
  - case_decide as Hd; [|done]. apply (Hput (st_outbox s)); [done|]. intros ->.
    assert (old = r) as -> by congruence. by apply (Hrep r).
  - apply (Hput (st_outbox s)); [done|]. intros ->. congruence.
Qed.

Lemma followed_insert (ev : OutboxEvent) : event_ok ev → holds followed (exec_db (λ now, InsertOutboxEventIfAbsent now ev)).
Proof.
  intros Hev w. split.
  { apply (keeps_exec (λ now, InsertOutboxEventIfAbsent now ev)). intros now s s' sent. by apply insert_absent_ok. }
  unfold exec_db, db. destruct (so_db (sw_out w)) as [[now|e] c]; cbn; [|split; [by intros k r|done]].
  destruct (InsertOutboxEventIfAbsent now ev (sw_store w)) as [s|e] eqn:Hx; cbn; [|split; [by intros k r|done]].
  split; [|done]. unfold InsertOutboxEventIfAbsent in Hx. mbind_inv Hx. injection Hx as <-.
  apply insertOutbox_pending. intros r Hr Hp. congruence.
Qed.

(** An event of another type announces no deposit. *)
Lemma other_type_ok key tenant chain network t p :
  ToUpper (TrimSpace t) ≠ "DEPOSIT_NOTIFY" → event_ok (newEvent key tenant chain network t p).
Proof. intros Ht He. done. Qed.

Lemma followed_outside {A} (f : C → A * C) : holds followed (outside f).
Proof.
  intros w. unfold outside. destruct (f (sw_out w)). cbn. split; [|split; [by intros k r|done]].
  intros Hw. split; [done|]. split; [by intros ????|]. by exists [].
Qed.

(** *** Handling one event *)

(** What handling a listed event does, whatever comes of it. *)
Definition handled (w : sworld C) (ev : OutboxEvent) (x : result () * sworld C) : Prop :=
  steps_to w x.2 ∧ pending_kept None (sw_store w) (sw_store x.2)
  ∧ (ToUpper (TrimSpace (ev_EventType ev)) = "DEPOSIT_NOTIFY" → x.1 = Ok () →
     (DepositNotifyCall (asDeposit (ev_Payload ev)), Ok ()) ∈ sw_sent x.2).

Lemma listed_not_done s ev k sent :
  outbox_ok s sent → listed s ev → k = ev_EventKey ev → ¬ row_done s k.
Proof. intros _ (r & Hr & _ & Hp) -> (r' & Hr' & Hd). congruence. Qed.

(** A call to wallet-core that may be sent. *)
Lemma walletCore_step reqID c w :
  (good w → not_again (sw_store w) (c, Ok ())) →
  steps_to w (walletCore reqID c w).2 ∧ sw_store (walletCore reqID c w).2 = sw_store w
  ∧ (c, (walletCore reqID c w).1) ∈ sw_sent (walletCore reqID c w).2.
Proof.
  intros Hn. unfold walletCore. destruct (so_wallet reqID c (sw_out w)) as [r o]. cbn. split; [|split; [done|by left]].
  intros [I1 I2 I3 I4]. split; [split; try done; intros k r' Hr Hd Hs; right; by apply (I4 k)|].
  split; [by intros ????|]. exists [(c, r)]. split; [done|]. constructor; [|done]. by apply Hn.
Qed.

Lemma followed_handled w1 w ev x :
  steps_to w w1 → sw_store w1 = sw_store w →
  (ToUpper (TrimSpace (ev_EventType ev)) = "DEPOSIT_NOTIFY" →
   (DepositNotifyCall (asDeposit (ev_Payload ev)), Ok ()) ∈ sw_sent w1) →
  followed w1 x.2 → handled w ev x.
Proof.
  intros Hs Hst Hin (F & Fp & Fs). split; [by etrans|]. split; [by rewrite <- Hst|]. intros Ht _. rewrite Fs. by apply Hin.
Qed.

Lemma handleDeposit_handled w ev :
  (good w → listed (sw_store w) ev) → ToUpper (TrimSpace (ev_EventType ev)) = "DEPOSIT_NOTIFY" →
  handled w ev (handleDepositOutboxEvent ev w).
Proof.
  intros Hl Ht. unfold handleDepositOutboxEvent. set (p := asDeposit (ev_Payload ev)).
  case_decide. { split; [done|]. split; [by intros k r|]. done. }
  unfold scan_ok at 1. unfold mbind, scan_bind.
  destruct (walletCore_step (requestID "scan-outbox-deposit-" ev) (DepositNotifyCall p) w) as (Hs & Hst & Hin).
  { intros Hw. cbn. intros Hd. specialize (Hl Hw). destruct Hl as (r & Hr & He & Hp).
    destruct (ok_payload _ _ Hw _ _ Hr) as (q & Hq & Hk).
    { unfold is_deposit. by rewrite <- He in Ht. }
    destruct Hd as (r' & Hr' & Hd'). unfold p in Hr'. rewrite <- He in Hr'. cbn in Hr'. rewrite Hq in Hr'. cbn in Hr'.
    rewrite Hk in Hr'. congruence. }
  destruct (walletCore _ _ w) as [[[]|e] w1]; cbn [fst snd] in *.
  2: { split; [done|]. split; [by cbn; rewrite Hst; intros k r|]. cbn. done. }
  case_decide. { split; [done|]. split; [by cbn; rewrite Hst; intros k r|]. done. }
  apply (followed_handled w1); [done|done|by intros _|]. unfold scan_bind.
  apply (holds_bind followed (if dp_ProjectNotify p then enqueueProjectDepositOutboxEvent p else mret (Ok ()))).
  { destruct (dp_ProjectNotify p); [|apply holds_ret, _]. apply followed_insert, other_type_ok. by vm_compute. }
  intros _. apply (holds_bind followed (if dp_SweepTrigger p then enqueueSweepTriggerOutboxEvent p else mret (Ok ())));
    [|intros _; apply holds_ret, _].
  destruct (dp_SweepTrigger p); [|apply holds_ret, _]. apply followed_insert, other_type_ok. by vm_compute.
Qed.

(** Handlers of other events call nothing but the sweep. *)
Lemma followed_other w ev x :
  ToUpper (TrimSpace (ev_EventType ev)) ≠ "DEPOSIT_NOTIFY" → followed w x.2 → handled w ev x.
Proof. intros Ht (F & Fp & _). split; [done|]. by split. Qed.

Lemma handleProject_followed ev w : followed w (handleProjectDepositOutboxEvent cfg ev w).2.
Proof.
  unfold handleProjectDepositOutboxEvent. destruct (negb _); [done|]. unfold notifyProjectDeposit.
  destruct (negb _); [done|]. case_decide; [done|]. destruct (resolveProjectChainID _ _); [|done].
  case_decide; [done|]. apply followed_outside.
Qed.

Lemma handleSweepTrigger_followed ev w : followed w (handleSweepTriggerOutboxEvent cfg ev w).2.
Proof.
  unfold handleSweepTriggerOutboxEvent. destruct (_ || _); [done|]. case_decide; [done|]. unfold scan_ok.
  apply (holds_bind followed (outside _)); [apply followed_outside|]. intros [balance|e]; [|apply holds_ret, _].
  destruct (negb _); [apply holds_ret, _|]. apply followed_insert, other_type_ok. by vm_compute.
Qed.

Lemma handleOutboxEvent_handled w ev : (good w → listed (sw_store w) ev) → handled w ev (handleOutboxEvent cfg ev w).
Proof.
  intros Hl. unfold handleOutboxEvent. case_decide; [by apply handleDeposit_handled|].
  case_decide; [by apply followed_other, handleProject_followed|].
  case_decide; [by apply followed_other, handleSweepTrigger_followed|].
  case_decide; [|by apply followed_other]. unfold handleSweepOutboxEvent. case_decide; [by apply followed_other|].
  destruct (walletCore_step (requestID "scan-outbox-sweep-" ev) (SweepRunCall (asSweep (ev_Payload ev))) w) as (Hs & Hst & _); [done|].
  split; [done|]. split; [by rewrite Hst; intros k r|done].
Qed.

(** *** Marking it *)

Lemma updateOutbox_lookup id f s k :
  st_outbox (updateOutbox id f s) !! k = (λ r, if decide (ox_id r = id) then f r else r) <$> st_outbox s !! k.
Proof. apply lookup_fmap. Qed.

(** An update of the listed row that keeps its id, type and payload. *)
Lemma updateOutbox_ok ev f s sent :
  (∀ r, ox_id (f r) = ox_id r ∧ ox_event_type (f r) = ox_event_type r ∧ ox_payload (f r) = ox_payload r) →
  ∀ r0, (is_deposit r0 → ox_status (f r0) = "DONE" → (DepositNotifyCall (asDeposit (ev_Payload ev)), Ok ()) ∈ sent) →
  st_outbox s !! ev_EventKey ev = Some r0 → scanOutboxEvent (ev_EventKey ev, r0) = ev → ox_status r0 = "PENDING" →
  outbox_ok s sent →
  outbox_ok (updateOutbox (ev_ID ev) f s) sent ∧ rows_kept s (updateOutbox (ev_ID ev) f s)
  ∧ pending_kept (Some (ev_ID ev)) s (updateOutbox (ev_ID ev) f s).
Proof.
  intros Hf r0 Hdone Hr0 He Hp [I1 I2 I3 I4]. assert (Hid : ox_id r0 = ev_ID ev) by (by rewrite <- He).
  assert (Hinv : ∀ k r', st_outbox (updateOutbox (ev_ID ev) f s) !! k = Some r' →
    (k = ev_EventKey ev ∧ r' = f r0) ∨ (k ≠ ev_EventKey ev ∧ st_outbox s !! k = Some r')).
  { intros k r'. rewrite updateOutbox_lookup. intros (r & Hr & ->)%fmap_Some. case_decide as Hd.
    - left. assert (k = ev_EventKey ev) as -> by (apply (I1 _ _ _ _ Hr Hr0); congruence). split; [done|]. congruence.
    - right. split; [|done]. intros ->. congruence. }
  destruct (Hf r0) as (F1 & F2 & F3). split; [split|split].
  - intros k k' r r' [[-> ->]|[Hk Hr]]%Hinv [[-> ->]|[Hk' Hr']]%Hinv; rewrite ?F1; intros Hx; try done.
    + by apply (I1 _ _ _ _ Hr0 Hr').
    + by apply (I1 _ _ _ _ Hr Hr0).
    + by apply (I1 _ _ _ _ Hr Hr').
  - change (st_next_outbox_id (updateOutbox (ev_ID ev) f s)) with (st_next_outbox_id s).
    intros k r [[-> ->]|[Hk Hr]]%Hinv; rewrite ?F1; by eapply I2.
  - intros k r [[-> ->]|[Hk Hr]]%Hinv; [|by apply I3]. unfold is_deposit. rewrite F2, F3. intros Ht. by apply (I3 _ r0).
  - intros k r [[-> ->]|[Hk Hr]]%Hinv; [|by apply (I4 k)]. intros Ht Hd. rewrite F3.
    replace (ox_payload r0) with (ev_Payload ev) by (by rewrite <- He). apply Hdone; [|done].
    unfold is_deposit in *. by rewrite F2 in Ht.
  - intros k r Hr Hd. rewrite updateOutbox_lookup, Hr. cbn. rewrite decide_False; [done|]. intros Hx.
    assert (k = ev_EventKey ev) as -> by (apply (I1 _ _ _ _ Hr Hr0); congruence). congruence.
  - intros k r Hr Hd Hx. rewrite updateOutbox_lookup, Hr. cbn. rewrite decide_False; [done|]. congruence.
Qed.

Lemma dispatchEvent_steps w ev :
  listed (sw_store w) ev →
  steps_to w (dispatchEvent cfg ev w).2
  ∧ (good w → pending_kept (Some (ev_ID ev)) (sw_store w) (sw_store (dispatchEvent cfg ev w).2)).
Proof.
  intros Hl. destruct (handleOutboxEvent_handled w ev (λ _, Hl)) as (Hs & Hp & Hc). unfold dispatchEvent, markHandled, mbind, scan_bind.
  destruct (handleOutboxEvent cfg ev w) as [res w1]. cbn [fst snd] in Hs, Hp, Hc.
  assert (Hp' : pending_kept (Some (ev_ID ev)) (sw_store w) (sw_store w1)) by (intros k r Hr Hst _; by apply Hp).
  apply (listed_kept None _ (sw_store w1)) in Hl as (r0 & Hr0 & He & Hst); [|done|done].
  assert (Hmark : ∀ op f, (∀ now s, op now s = Ok (updateOutbox (ev_ID ev) (f now) s)) →
    (∀ now r, ox_id (f now r) = ox_id r ∧ ox_event_type (f now r) = ox_event_type r ∧ ox_payload (f now r) = ox_payload r) →
    (∀ now, is_deposit r0 → ox_status (f now r0) = "DONE" → (DepositNotifyCall (asDeposit (ev_Payload ev)), Ok ()) ∈ sw_sent w1) →
    steps_to w (exec_db op w1).2 ∧ (good w → pending_kept (Some (ev_ID ev)) (sw_store w) (sw_store (exec_db op w1).2))).
  { intros op f Hop Hf Hd. unfold exec_db, db. destruct (so_db (sw_out w1)) as [[now|e] c]; cbn.
    - rewrite Hop. cbn. assert (Hstep : good w1 → outbox_ok (updateOutbox (ev_ID ev) (f now) (sw_store w1)) (sw_sent w1)
        ∧ rows_kept (sw_store w1) (updateOutbox (ev_ID ev) (f now) (sw_store w1))
        ∧ pending_kept (Some (ev_ID ev)) (sw_store w1) (updateOutbox (ev_ID ev) (f now) (sw_store w1)))
        by (by apply (updateOutbox_ok _ _ _ _ (Hf now) r0 (Hd now))).
      split.
      + etrans; [exact Hs|]. intros Hw1. destruct (Hstep Hw1) as (Ho & Hk & _). split; [done|]. split; [done|]. by exists [].
      + intros Hw. destruct (Hs Hw) as [Hw1 _]. eapply pending_kept_trans; [exact Hp'|]. by apply Hstep.
    - split; [|done]. etrans; [exact Hs|]. intros Hw1. split; [done|]. split; [by intros ????|]. by exists []. }
  destruct res as [[]|e].
  - apply (Hmark _ (λ _ r, r <| ox_status := "DONE" |>)); [done|done|]. intros now Hd _. apply Hc; [|done].
    unfold is_deposit in Hd. by rewrite <- He.
  - apply (Hmark _ (λ now r, r <| ox_status := (if decide ((if decide (ev_MaxAttempts ev ≤ 0) then 12 else ev_MaxAttempts ev)
        ≤ ev_Attempt ev + 1) then "FAILED" else "PENDING") |> <| ox_attempt_count := ev_Attempt ev + 1 |>
      <| ox_last_error := TrimSpace (error_text e) |>
      <| ox_next_retry_at := now + outboxRetryBackoff (TrimSpace (ev_EventType ev)) (ev_Attempt ev + 1) |>)); [done|done|].
    intros now _. cbn. case_decide; done.
Qed.

(** *** The whole list *)

Lemma forAll_dispatch evs w :
  NoDup (ev_ID <$> evs) → (good w → Forall (listed (sw_store w)) evs) → steps_to w (forAll evs (dispatchEvent cfg) w).2.
Proof.
  revert w. induction evs as [|ev evs IH]; intros w Hnd Hl; [done|]. cbn. unfold mbind, scan_bind.
  apply NoDup_cons in Hnd as [Hni Hnd].
  intros Hw. assert (Hev := Hl Hw). apply Forall_cons in Hev as [Hev Hevs].
  destruct (dispatchEvent_steps w ev Hev) as [Hs Hp]. specialize (Hp Hw).
  destruct (dispatchEvent cfg ev w) as [res w1]. cbn [fst snd] in *. revert Hw. change (steps_to w (forAll evs (dispatchEvent cfg) w1).2).
  etrans; [exact Hs|]. apply IH; [done|]. intros Hw1. apply Forall_forall. intros ev' Hin.
  rewrite Forall_forall in Hevs. apply (listed_kept _ _ _ _ Hp); [|by apply Hevs].
  intros [= Heq]. apply Hni. rewrite <- Heq. apply list_elem_of_fmap. eauto.
Qed.

Lemma dispatchOutbox_steps : keeps (dispatchOutbox cfg).
Proof.
  intros w. unfold dispatchOutbox, scan_ok, mbind, scan_bind, listPending, db.
  destruct (so_db (sw_out w)) as [[now|e] c]; cbn.
  2: { intros Hw. split; [done|]. split; [by intros ????|]. by exists []. }
  match goal with |- context [take ?n (merge_sort outbox_le ?l)] => set (rows := take n (merge_sort outbox_le l)); set (all := l) in * end.
  assert (Hrows : ∀ e, e ∈ rows → st_outbox (sw_store w) !! e.1 = Some e.2 ∧ ox_status e.2 = "PENDING").
  { intros e He. apply elem_of_take in He as (i & Hi & _). apply list_elem_of_lookup_2 in Hi.
    rewrite merge_sort_Permutation in Hi. apply list_elem_of_filter in Hi as [(Hp & _) Hi].
    split; [|done]. apply elem_of_map_to_list. by destruct e. }
  assert (Hstep : steps_to w (SWorld (sw_store w) c (sw_sent w)))
    by (intros Hw; split; [done|]; split; [by intros ????|]; by exists []).
  assert (Hnd : good w → NoDup (ev_ID <$> (scanOutboxEvent <$> rows))).
  { intros Hw. rewrite <- list_fmap_compose. apply NoDup_fmap_2_strong.
    - intros x y [Hx _]%Hrows [Hy _]%Hrows Heq. cbn in Heq. assert (x.1 = y.1) as E by (by apply (ok_ids _ _ Hw _ _ _ _ Hx Hy)).
      destruct x, y. cbn in *. subst. congruence.
    - eapply sublist_NoDup; [|apply sublist_take]. rewrite merge_sort_Permutation.
      apply NoDup_filter, NoDup_map_to_list. }
  intros Hw. assert (Hd : steps_to w (forAll (scanOutboxEvent <$> rows) (dispatchEvent cfg) (SWorld (sw_store w) c (sw_sent w))).2).
  { etrans; [exact Hstep|]. apply forAll_dispatch; [by apply Hnd|]. intros _. apply Forall_fmap, Forall_forall.
    intros e [He Hp]%Hrows. exists e.2. done. }
  specialize (Hd Hw). destruct (forAll _ _ _) as [u w']. exact Hd.
Qed.

(** ** Ticks *)

Lemma keeps_missing kind it : keeps (handleMissingOutgoingTx cfg kind it).
Proof.
  unfold handleMissingOutgoingTx. apply keeps_ok.
  { apply same_outbox_keeps. intros now s a s'. unfold IncrementOutgoingNotFound.
    destruct (st_outgoing s !! _); by intros [= <- <-]. }
  intros state. apply keeps_bind; [apply keeps_outside|]. intros now. destruct (negb _); [apply keeps_ret|].
  apply keeps_ok; [|intros _; apply same_outbox_exec; by intros now' s s' [= <-]].
  intros w. apply walletCore_step. intros _. unfold onchainCall. by repeat case_decide.
Qed.

Lemma keeps_check kind prefix it : keeps (checkOutgoing cfg kind prefix it).
Proof.
  unfold checkOutgoing. case_decide; [apply keeps_ret|]. apply keeps_ok; [apply keeps_outside|]. intros finality.
  destruct (negb _); [destruct (_ && _); [apply keeps_ret|apply keeps_missing]|].
  apply keeps_bind; [apply same_outbox_exec; by intros now' s s' [= <-]|]. intros _.
  assert (Hn : ∀ status reason, keeps (walletCore (prefix +:+ po_TenantID it +:+ "-" +:+ po_OrderID it +:+ "-" +:+ BigString (tf_Confirmations finality))
      (onchainCall kind {|
        on_TenantID := po_TenantID it; on_OrderID := po_OrderID it; on_TxHash := po_TxHash it; on_Status := status;
        on_Reason := reason; on_Confirmations := tf_Confirmations finality;
        on_RequiredConfs := Z.max (po_RequiredConfs it) 1 |}))).
  { intros status reason w. apply walletCore_step. intros _. unfold onchainCall. by repeat case_decide. }
  case_decide; [destruct (_ && _); [apply keeps_ret|apply Hn]|]. case_decide; [apply keeps_ret|apply Hn].
Qed.

Lemma keeps_outgoing : keeps (scanOutgoingConfirmations cfg).
Proof.
  unfold scanOutgoingConfirmations.
  assert (Hall : ∀ l kind prefix (q : scan C (result ())), keeps q → keeps (_ ← forAll l (checkOutgoing cfg kind prefix); q))
    by (intros l kind prefix q Hq; apply keeps_bind; [apply keeps_forAll; intros it; apply keeps_check|done]).
  apply keeps_ok; [apply keeps_outside|]. intros l1. apply Hall. apply keeps_ok; [apply keeps_outside|]. intros l2. apply Hall.
  apply keeps_ok; [apply keeps_outside|]. intros l3. apply Hall, keeps_ret.
Qed.

Lemma keeps_tick : keeps (tick cfg).
Proof.
  assert (Hif : ∀ b (q : scan C (result ())), keeps q → keeps (if b : bool then q else mret (Ok ())))
    by (intros [] q Hq; [done|apply keeps_ret]).
  unfold tick. apply keeps_ok; [apply Hif, keeps_model|]. intros _. apply keeps_ok; [apply Hif, keeps_model|]. intros _.
  apply keeps_ok; [apply Hif, keeps_reconcile|]. intros _. apply keeps_ok; [apply Hif, dispatchOutbox_steps|]. intros _.
  apply Hif, keeps_outgoing.
Qed.

Lemma keeps_ticks n : keeps (ticks cfg n).
Proof. induction n as [|n IH]; cbn; [apply keeps_ret|]. apply keeps_bind; [apply keeps_tick|]. by intros _. Qed.
End invariant.
