(* ===== verification/ScanGateway.v ===== *)
(** * The scanner in front of the chain gateway

    [scan-account-service/internal/client/chain_gateway.go] over the gRPC server
    of [chain-gateway/internal/transport/grpc/server.go], which passes a request
    to the service field by field.  [withGateway] is the scanner's world when
    the modelled service answers its chain calls. *)
From S2P Require Import Prelude GoStrings GoNumbers KeyRef Endpoint EvmReader Normalize EvmPlugin.
From S2P Require Import EvmSend.
From S2P Require Import ChainService.
From S2P Require Import ScanStore ScanEvents Scanner.

(** ** The gate of a chain *)

(** [gc_next] is the zero time when no call was made; the semaphore holds
    [gc_capacity] calls. *)
Record chainRequestGate := { gc_capacity : Z; gc_interval : Z; gc_next : option Z }.

Record ChainGatewayOptions := {
  co_DefaultConcurrency : Z;
  co_ConcurrencyByChain : gmap string Z;
  co_DefaultInterval : option Z;
  co_IntervalByChain : gmap string Z;
  co_RetryMaxAttempts : Z;
  co_RetryBaseDelay : Z;
  co_RetryMaxDelay : Z;
}.

Definition gateKey (chain : string) : string :=
  let key := ToLower (TrimSpace chain) in if decide (key = "") then "default" else key.

(** The gates are made on first use.  An interval is a second over the queries
    per second, and absent when these are not positive. *)
Definition gateForChain (opts : ChainGatewayOptions) (chain : string) (gates : gmap string chainRequestGate)
    : chainRequestGate * gmap string chainRequestGate :=
  let key := gateKey chain in
  match gates !! key with
  | Some gate => (gate, gates)
  | None =>
      let concurrency := match co_ConcurrencyByChain opts !! key with
                         | Some v => if decide (0 < v) then v else co_DefaultConcurrency opts
                         | None => co_DefaultConcurrency opts
                         end in
      let interval := match co_IntervalByChain opts !! key with
                      | Some v => Some v
                      | None => co_DefaultInterval opts
                      end in
      let gate := {| gc_capacity := if decide (concurrency ≤ 0) then 1 else concurrency;
                     gc_interval := default 0 interval; gc_next := None |} in
      (gate, <[key := gate]> gates)
  end.

(** The time a call may go ahead at. *)
Definition waitTurn (now : Z) (g : chainRequestGate) : Z * chainRequestGate :=
  if decide (gc_interval g ≤ 0) then (now, g) else
  let next n := {| gc_capacity := gc_capacity g; gc_interval := gc_interval g; gc_next := Some n |} in
  match gc_next g with
  | Some target =>
      if decide (now < target) then (target, next (target + gc_interval g)) else (now, next (now + gc_interval g))
  | None => (now, next (now + gc_interval g))
  end.

(** The longest delay before attempt [attempt + 1]; [jitter] is [rand.Int63n]. *)
Definition retryDelay (opts : ChainGatewayOptions) (jitter : Z → Z) (attempt : nat) : Z :=
  let base := if decide (co_RetryBaseDelay opts ≤ 0) then 250 * 10 ^ 6 else co_RetryBaseDelay opts in
  let maxDelay := if decide (co_RetryMaxDelay opts ≤ 0) then 4 * 10 ^ 9 else co_RetryMaxDelay opts in
  let maxDelay := if decide (maxDelay < base) then base else maxDelay in
  let delay := Z.min (base * 2 ^ Z.of_nat attempt) maxDelay in
  let jitterCap := if decide (delay `quot` 2 ≤ 0) then base `quot` 2 else delay `quot` 2 in
  let delay := if decide (0 < jitterCap) then delay + jitter (jitterCap + 1) else delay in
  Z.min delay maxDelay.

Definition retriableHints : list string :=
  ["429"; "resource exhausted"; "unavailable"; "temporarily unavailable"; "timeout"; "timed out"; "connection reset"; "eof"].

(** ** Calls *)

Section client.
Context {S : Type}.

(** [transientCode] is what gRPC says of an error's code, and [interrupted] is
    [ctx.Err()] while the client waits for its turn or before a retry. *)
Variables (opts : ChainGatewayOptions) (transientCode : error → bool) (interrupted : S → option error).

Definition isRetriableChainGatewayError (e : error) : bool :=
  transientCode e || existsb (Contains (ToLower (TrimSpace (error_text e)))) retriableHints.

(** [attempts] more attempts. *)
Fixpoint controlled {A} (attempts : nat) (op : S → result A * S) (s : S) : result A * S :=
  match attempts with
  | O => (Err (Errorf "unreachable"), s)
  | Datatypes.S rest =>
      match interrupted s with
      | Some e => (Err e, s)
      | None =>
          match op s with
          | (Ok out, s) => (Ok out, s)
          | (Err e, s) =>
              if bool_decide (rest = 0%nat) || negb (isRetriableChainGatewayError e) then (Err e, s)
              else match interrupted s with Some e => (Err e, s) | None => controlled rest op s end
          end
      end
  end.

(** The number of attempts is at least one. *)
Definition withChainControl {A} (op : S → result A * S) : S → result A * S :=
  controlled (Z.to_nat (if decide (co_RetryMaxAttempts opts ≤ 0) then 1 else co_RetryMaxAttempts opts)) op.

(** ** The service behind the connection *)

Variables (rpcError : error → error) (unreachable : S → option error).
Variables (transient : error → bool) (cancelled : S → option error) (r : Router (ChainPlugin S)).

Definition checkedNetwork {A} (network : string) (call : string → S → result A * S) (s : S) : result A * S :=
  let network := TrimSpace network in
  if decide (network = "") then (Err (Errorf "network is required"), s) else call network s.

Definition clientTransfer (it : EvmReader.IncomingTransfer) : IncomingTransfer := {|
  it_TxHash := gt_TxHash it; it_FromAddress := gt_FromAddress it; it_ToAddress := gt_ToAddress it;
  it_Amount := gt_Amount it; it_Confirmations := gt_Confirmations it; it_Index := gt_Index it; it_Status := gt_Status it |}.

Definition clientPage (out : IncomingTransferResult) : IncomingPage := {|
  ip_Items := clientTransfer <$> gr_Items out; ip_NextCursor := gr_NextCursor out;
  ip_Blocks := (λ b, {| bm_Number := gb_Number b; bm_Hash := gb_Hash b; bm_ParentHash := gb_ParentHash b |}) <$> gr_Blocks out |}.

Definition clientIncoming (model chain coin network address cursor : string) (pageSize : Z) (contract : string)
    : S → result IncomingPage * S :=
  withChainControl (checkedNetwork network (λ network s,
    let '(out, s) := remote rpcError unreachable (serviceIncoming transient cancelled r {|
      ii_Model := model; ii_Chain := chain; ii_Coin := coin; ii_Network := network; ii_Address := address;
      ii_Cursor := cursor; ii_Page := 1; ii_PageSize := wrapu32 pageSize; ii_ContractAddress := TrimSpace contract |}) s in
    (clientPage <$> out, s))).

Definition clientFinality (chain coin network txHash : string) : S → result TxFinality * S :=
  withChainControl (checkedNetwork network (λ network s,
    let '(out, s) := remote rpcError unreachable (serviceFinality transient cancelled r chain coin network txHash) s in
    ((λ out, {| tf_Found := gf_Found out; tf_Status := ToUpper (TrimSpace (gf_Status out));
                tf_Confirmations := gf_Confirmations out |}) <$> out, s))).

(** The request has no contract address. *)
Definition clientBalance (chain coin network address : string) : S → result string * S :=
  withChainControl (checkedNetwork network (λ network s,
    let '(out, s) := remote rpcError unreachable (serviceBalance transient cancelled r chain coin network address "") s in
    ((λ out, TrimSpace (gl_Balance out)) <$> out, s))).

(** The scanner's world with the gateway behind it. *)
Definition withGateway {E} (scanOutside : ScanOutside E) : ScanOutside (E * S) :=
  let on {A} (f : E → A * E) (c : E * S) : A * (E * S) := let '(a, e) := f c.1 in (a, (e, c.2)) in
  let ask {A} (f : S → A * S) (c : E * S) : A * (E * S) := let '(a, s) := f c.2 in (a, (c.1, s)) in {|
  so_db := on so_db;
  so_locked c := so_locked c.1;
  so_clock c := so_clock c.1;
  so_age_text := so_age_text;
  so_incoming model chain coin network address cursor size contract :=
    ask (clientIncoming model chain coin network address cursor size contract);
  so_finality chain coin network txHash := ask (clientFinality chain coin network txHash);
  so_balance chain coin network address := ask (clientBalance chain coin network address);
  so_wallet reqID call := on (so_wallet reqID call);
  so_project reqID n := on (so_project reqID n);
  so_withdraws limit := on (so_withdraws limit);
  so_sweeps limit := on (so_sweeps limit);
  so_transfers limit := on (so_transfers limit);
|}.
End client.
