(* ===== verification/ScanCore.v ===== *)
(** * The scanner in front of wallet-core

    [scan-account-service/internal/client/wallet_core.go]: every call of the
    scanner is an HTTP request to a handler of wallet-core; a status of 300 or
    more is an error.  [withCore] is the scanner's world when wallet-core, with
    its ledger, answers those calls. *)
From S2P Require Import Prelude GoStrings GoNumbers Ports LedgerTables Calls Handlers.
From S2P Require Import TreasuryHandlers.
From S2P Require Import Orchestrator ScanStore ScanEvents Scanner ScanOutbox.

(** ** Requests *)

(** [postJSON] *)
Definition postJSON {B} (requestID : string) (body : B) : http_request B :=
  {| hq_Method := "POST"; hq_RequestID := requestID; hq_Query := λ _, ""; hq_Body := Some body |}.

Definition depositRequest (p : DepositOutboxPayload) : DepositNotifyRequest := {|
  dnq_TenantID := dp_TenantID p; dnq_AccountID := dp_AccountID p; dnq_OrderID := dp_OrderID p; dnq_Chain := dp_Chain p;
  dnq_Network := dp_Network p; dnq_Coin := dp_Coin p; dnq_Amount := dp_Amount p; dnq_TxHash := dp_TxHash p;
  dnq_FromAddress := dp_FromAddress p; dnq_ToAddress := dp_ToAddress p; dnq_Confirmations := dp_Confirmations p;
  dnq_RequiredConfs := dp_RequiredConfs p; dnq_UnlockConfs := dp_UnlockConfs p; dnq_ScanStatus := dp_ScanStatus p;
  dnq_Status := dp_Status p |}.

Definition sweepRequest (p : SweepOutboxPayload) : SweepRunRequest := {|
  srq_TenantID := sp_TenantID p; srq_SweepOrderID := sp_SweepOrderID p; srq_FromAccountID := sp_FromAccountID p;
  srq_TreasuryAccountID := sp_TreasuryAccountID p; srq_ColdAccountID := sp_ColdAccountID p;
  srq_HotBalanceCap := sp_HotBalanceCap p; srq_Chain := sp_Chain p; srq_Network := sp_Network p; srq_Asset := sp_Asset p;
  srq_Amount := sp_Amount p |}.

Section core.
Context `{Postgres} {W : Type} `{Outside W} `{SolanaLib} (h : WithdrawHandler) (statusText : Z → string).

(** [resp.Status] is the status with its text. *)
Definition answered {A} (path : string) (x : reply A * world W) : result () * world W :=
  (match x.1 with
   | HttpOk _ => Ok ()
   | HttpError status _ =>
       if decide (300 ≤ status) then Err (Errorf ("wallet-core " +:+ path +:+ " failed: " +:+ statusText status)) else Ok ()
   end, x.2).

Definition coreCall (reqID : string) (c : wallet_call) (w : world W) : result () * world W :=
  match c with
  | DepositNotifyCall p => answered "/v1/deposit/notify" (run (DepositNotify h (postJSON reqID (depositRequest p))) w)
  | SweepRunCall p => answered "/v1/sweep/run" (run (SweepRun h (postJSON reqID (sweepRequest p))) w)
  | WithdrawOnchainCall n =>
      answered "/v1/withdraw/onchain/notify" (run (WithdrawOnchainNotify (postJSON reqID
        {| wnq_TenantID := on_TenantID n; wnq_OrderID := on_OrderID n; wnq_TxHash := on_TxHash n; wnq_Status := on_Status n;
           wnq_Reason := on_Reason n; wnq_Confirmations := on_Confirmations n; wnq_RequiredConfs := on_RequiredConfs n |})) w)
  | SweepOnchainCall n =>
      answered "/v1/sweep/onchain/notify" (run (SweepOnchainNotify (postJSON reqID
        {| snq_TenantID := on_TenantID n; snq_SweepOrderID := on_OrderID n; snq_TxHash := on_TxHash n; snq_Status := on_Status n;
           snq_Reason := on_Reason n; snq_Confirmations := on_Confirmations n; snq_RequiredConfs := on_RequiredConfs n |})) w)
  | TreasuryOnchainCall n =>
      answered "/v1/treasury/onchain/notify" (run (TreasuryTransferOnchainNotify (postJSON reqID
        {| tnq_TenantID := on_TenantID n; tnq_TransferOrderID := on_OrderID n; tnq_TxHash := on_TxHash n;
           tnq_Status := on_Status n; tnq_Reason := on_Reason n; tnq_Confirmations := on_Confirmations n;
           tnq_RequiredConfs := on_RequiredConfs n |})) w)
  end.

(** The scanner's world with wallet-core behind it. *)
Definition withCore {E} (scanOutside : ScanOutside E) : ScanOutside (E * world W) :=
  let on {A} (f : E → A * E) (c : E * world W) : A * (E * world W) := let '(a, e) := f c.1 in (a, (e, c.2)) in {|
  so_db := on so_db;
  so_locked c := so_locked c.1;
  so_clock c := so_clock c.1;
  so_age_text := so_age_text;
  so_incoming model chain coin network address cursor size contract :=
    on (so_incoming model chain coin network address cursor size contract);
  so_finality chain coin network txHash := on (so_finality chain coin network txHash);
  so_balance chain coin network address := on (so_balance chain coin network address);
  so_wallet reqID call c := let '(r, w) := coreCall reqID call c.2 in (r, (c.1, w));
  so_project reqID n := on (so_project reqID n);
  so_withdraws limit := on (so_withdraws limit);
  so_sweeps limit := on (so_sweeps limit);
  so_transfers limit := on (so_transfers limit);
|}.
End core.

(** * Properties of the scanner of account chains *)
From S2P Require Import LedgerDeposit.
From S2P Require Import Site ScanInvariant.

(** ** A concrete scanner *)

#[local] Existing Instance asciiText.

(** A clock and the pages the chain gateway answers next. *)
Record feed := { fd_now : Z; fd_pages : list IncomingPage }.

Definition feedOutside : ScanOutside feed := {|
  so_db c := (Ok (fd_now c), {| fd_now := fd_now c + 1; fd_pages := fd_pages c |});
  so_locked _ _ := false;
  so_clock c := fd_now c;
  so_age_text _ := "0s";
  so_incoming _ _ _ _ _ _ _ _ c :=
    match fd_pages c with
    | [] => (Ok {| ip_Items := []; ip_NextCursor := ""; ip_Blocks := [] |}, c)
    | page :: pages => (Ok page, {| fd_now := fd_now c; fd_pages := pages |})
    end;
  so_finality _ _ _ _ c := (Err (Errorf "down"), c);
  so_balance _ _ _ _ c := (Err (Errorf "down"), c);
  so_wallet _ _ c := (Err (Errorf "down"), c);
  so_project _ _ c := (Err (Errorf "down"), c);
  so_withdraws _ c := (Ok [], c);
  so_sweeps _ c := (Ok [], c);
  so_transfers _ c := (Ok [], c);
|}.

Definition coreHandler : WithdrawHandler := {| wh_Registry := true; wh_Ledger := true; wh_KeyManager := true; wh_ChainAddr := true |}.

#[export] Instance feedWithCore : ScanOutside (feed * world state) :=
  withCore coreHandler (λ _, "status") feedOutside.

Definition watch : WatchAddress := {|
  wt_TenantID := "t"; wt_AccountID := "alice"; wt_Model := "account"; wt_Chain := "ethereum"; wt_Coin := "ETH";
  wt_Network := "mainnet"; wt_Address := "0xAlice"; wt_ContractAddress := ""; wt_MinConfirmations := 2;
  wt_UnlockConfirmations := 2; wt_TreasuryAccountID := "treasury-main"; wt_ColdAccountID := ""; wt_AutoSweep := false;
  wt_SweepThreshold := "0"; wt_HotBalanceCap := "0" |}.

Definition scanTables : store := {|
  st_watches := [{| wr_watch := watch; wr_active := true |}]; st_registry := None; st_checkpoints := ∅;
  st_chain_checkpoints := ∅; st_seen := ∅; st_outbox := ∅; st_next_outbox_id := 1; st_blocks := ∅; st_outgoing := ∅ |}.

Definition scanConfig : ScannerConfig := runDefaults {|
  cf_AccountPageSize := 0; cf_AccountMaxPages := 0; cf_AccountMaxEmptyPages := 0; cf_AccountCursorStallGuard := 0;
  cf_WatchLimit := 0; cf_ReorgWindow := 0; cf_ReorgCandidateLimit := 0; cf_ReorgNotFoundThreshold := 0;
  cf_OutgoingNotFoundThreshold := 0; cf_OutgoingNotFoundGrace := 0; cf_EnableAccountScan := true;
  cf_EnableUTXOScan := false; cf_EnableReorgReconcile := false; cf_EnableOutboxDispatch := true;
  cf_EnableOutgoingScan := false; cf_SweepMinBalance := ""; cf_ProjectNotify := false; cf_ProjectChainIDMap := ∅;
  cf_ProjectDefaultChainID := 0; cf_AllowedChains := [] |}.

(** A deposit of 100 with the confirmations it has by then. *)
Definition depositPage (confirmations : Z) : IncomingPage := {|
  ip_Items := [{| it_TxHash := "0xfeed"; it_FromAddress := "0xBob"; it_ToAddress := "0xAlice"; it_Amount := "100";
                  it_Confirmations := confirmations; it_Index := 1; it_Status := "" |}];
  ip_NextCursor := ""; ip_Blocks := [] |}.

Definition scanStart (confirmations : list Z) : sworld (feed * world state) :=
  SWorld scanTables ({| fd_now := 1; fd_pages := depositPage <$> confirmations |}, start [] empty_ledger) [].

(** The ledger behind the scanner, and alice's deposit in it. *)
Definition coreLedger (w : sworld (feed * world state)) : ledger := w_ledger (snd (sw_out w)).
Definition aliceDeposit (w : sworld (feed * world state)) : option (string * bool) :=
  (λ r, (de_status r, de_credited r)) <$> deposit_events (coreLedger w) !! ("t", "dep_0xfeed_1_alice_mainnet").

(** ** Properties *)

Lemma empty_outbox_good {C} (w : sworld C) : st_outbox (sw_store w) = ∅ → good w.
Proof. intros He. split; rewrite He; intros *; by rewrite lookup_empty. Qed.

(** A deposit event leaves the outbox only when wallet-core has accepted it:
    whatever the chain, the database and wallet-core answer, from an empty
    outbox every row of a deposit that is DONE after any number of ticks is one
    whose announcement wallet-core answered without an error. *)
Theorem done_means_delivered `{SqlText} {C} `{ScanOutside C} (cfg : ScannerConfig) (n : nat) (w : sworld C) k r :
  st_outbox (sw_store w) = ∅ →
  st_outbox (sw_store (ticks cfg n w).2) !! k = Some r → is_deposit r → ox_status r = "DONE" →
  ∃ p, ox_payload r = DepositPayload p ∧ payloadKey p = k ∧ (DepositNotifyCall p, Ok ()) ∈ sw_sent (ticks cfg n w).2.
Proof.
  intros He Hr Hd Hs. destruct (keeps_ticks cfg n w (empty_outbox_good w He)) as [Hgood _].
  destruct (ok_payload _ _ Hgood _ _ Hr Hd) as (p & Hp & Hk). exists p. split; [done|]. split; [done|].
  pose proof (ok_delivered _ _ Hgood _ _ Hr Hd Hs) as Hin. by rewrite Hp in Hin.
Qed.

Lemma done_means_delivered_witness :
  ∃ p, payloadKey p = "dep:t:ethereum:mainnet:0xfeed:1"
    ∧ (DepositNotifyCall p, Ok ()) ∈ sw_sent (ticks scanConfig 1 (scanStart [12])).2
    ∧ aliceDeposit (ticks scanConfig 1 (scanStart [12])).2 = Some ("FINALIZED", true).
Proof.
  destruct (st_outbox (sw_store (ticks scanConfig 1 (scanStart [12])).2) !! "dep:t:ethereum:mainnet:0xfeed:1") as [r|] eqn:Hr;
    [|vm_compute in Hr; discriminate Hr].
  destruct (done_means_delivered scanConfig 1 (scanStart [12]) _ r eq_refl Hr) as (p & _ & Hk & Hin).
  - vm_compute in Hr. injection Hr as <-. reflexivity.
  - vm_compute in Hr. injection Hr as <-. reflexivity.
  - exists p. split; [exact Hk|]. split; [exact Hin|]. vm_compute. reflexivity.
Defined.

(** A deposit is announced to wallet-core once: when its row is DONE, no
    later tick writes the row or announces that deposit again, although its
    confirmations grow or it is reorganised away.  A deposit first seen with too
    few confirmations is never credited. *)
Theorem announced_deposit_is_final `{SqlText} {C} `{ScanOutside C} (cfg : ScannerConfig) (n : nat) (w : sworld C) k r :
  outbox_ok (sw_store w) (sw_sent w) → st_outbox (sw_store w) !! k = Some r → ox_status r = "DONE" →
  st_outbox (sw_store (ticks cfg n w).2) !! k = Some r
  ∧ ∃ new, sw_sent (ticks cfg n w).2 = new ++ sw_sent w ∧ ∀ p answer, (DepositNotifyCall p, answer) ∈ new → payloadKey p ≠ k.
Proof.
  intros Hok Hr Hd. destruct (keeps_ticks cfg n w Hok) as (_ & Hrows & new & Hn & Hf). split; [by apply Hrows|].
  exists new. split; [done|]. intros p answer Hin Hk. rewrite Forall_forall in Hf. apply Hf in Hin. cbn in Hin.
  apply Hin. rewrite Hk. by exists r.
Qed.

(** The second tick sees 12 confirmations of the two that are asked for. *)
Lemma announced_deposit_is_final_witness :
  let w := (ticks scanConfig 1 (scanStart [1; 12])).2 in
  let w' := (ticks scanConfig 1 w).2 in
  ((λ r, (se_status r, se_confirmations r)) <$> (st_seen (sw_store w') !! seenKey watch "0xfeed" 1)) = Some ("FINALIZED", 12)
  ∧ aliceDeposit w' = Some ("PENDING", false)
  ∧ (∀ n r, st_outbox (sw_store w) !! "dep:t:ethereum:mainnet:0xfeed:1" = Some r →
       st_outbox (sw_store (ticks scanConfig n w).2) !! "dep:t:ethereum:mainnet:0xfeed:1" = Some r).
Proof.
  split; [vm_compute; reflexivity|]. split; [vm_compute; reflexivity|]. intros n r Hr.
  refine (proj1 (announced_deposit_is_final scanConfig n _ _ r
    (proj1 (keeps_ticks scanConfig 1 (scanStart [1; 12]) (empty_outbox_good (scanStart [1; 12]) eq_refl))) Hr _)).
  vm_compute in Hr. injection Hr as <-. reflexivity.
Defined.

(** What the ledger is told follows the confirmations: a transfer that did
    not fail is CONFIRMED exactly when the chain calls it final or it has the
    confirmations its watch asks for, at least one; a failed or reorganised one
    is REVERTED. *)
Theorem deposit_status_by_confirmations raw confirmations minConf unlockConf reorgWindow :
  let s := ToUpper (TrimSpace raw) in
  let ledger := mapDepositLedgerStatus (resolveDepositScanStatus raw confirmations minConf unlockConf reorgWindow) in
  (ledger = "REVERTED" ↔ (s ∈ ["REORGED"; "REVERTED"; "FAILED"]))
  ∧ (ledger = "CONFIRMED" ↔ (s ∉ ["REORGED"; "REVERTED"; "FAILED"]) ∧ (s = "FINALIZED" ∨ Z.max minConf 1 ≤ confirmations)).
Proof.
  cbv zeta. unfold resolveDepositScanStatus. set (s := ToUpper (TrimSpace raw)).
  assert (M : mapDepositLedgerStatus "REORGED" = "REVERTED" ∧ mapDepositLedgerStatus "FINALIZED" = "CONFIRMED"
    ∧ mapDepositLedgerStatus "CONFIRMED" = "CONFIRMED" ∧ mapDepositLedgerStatus "SEEN" = "PENDING"
    ∧ mapDepositLedgerStatus "PENDING" = "PENDING") by (split_and!; reflexivity).
  destruct M as (M1 & M2 & M3 & M4 & M5).
  repeat case_decide; rewrite ?M1, ?M2, ?M3, ?M4, ?M5; split; split; intros Hq; try discriminate Hq; try tauto;
    try (exfalso; intuition lia); try (split; [assumption|]; solve [left; assumption|right; lia]).
Qed.
