(* ===== verification/UtxoProperties.v ===== *)
(** * Properties of the scanner of UTXO chains

    What the two scanners guarantee on the database they share, and where the
    older copy differs from its sibling. *)
From S2P Require Import Prelude GoStrings GoNumbers UtxoScanner.
From S2P Require Import Ports LedgerTables LedgerDeposit Calls DispatcherTraces Handlers HandlerTraces.
From S2P Require Import HandlerSystem Site.
From S2P Require Import ScanStore ScanEvents Scanner ScanOutbox ScanInvariant ScanCore.

(** ** The outbox stays well formed *)

Section outbox.
Context `{SqlText} {C : Type} `{ScanOutside C} (cfg : UtxoScanner).

#[local] Abbreviation safe := (holds (carried outbox_ok)).
#[local] Abbreviation safe_ret := (holds_ret (carried outbox_ok)).
#[local] Abbreviation safe_bind := (holds_bind (carried outbox_ok)).
#[local] Abbreviation safe_ok := (holds_ok (carried outbox_ok)).
#[local] Abbreviation safe_forEach := (holds_forEach (carried outbox_ok)).
#[local] Abbreviation safe_forAll := (holds_forAll (carried outbox_ok)).

(** What keeps done rows as well keeps the outbox well formed. *)
Lemma keeps_safe {A} (p : scan C A) : keeps p → safe p.
Proof. intros Hp w Hw. by apply Hp. Qed.

Lemma safe_quiet {A} (op : Z → store → result (A * store)) :
  (∀ now s a s', op now s = Ok (a, s') → same_outbox s s') → safe (db op).
Proof. intros Hop. by apply keeps_safe, same_outbox_keeps. Qed.

Lemma safe_quiet_exec (op : Z → store → result store) :
  (∀ now s s', op now s = Ok s' → same_outbox s s') → safe (exec_db op).
Proof. intros Hop. by apply keeps_safe, same_outbox_exec. Qed.

Lemma safe_upsert ev : event_ok ev → safe (exec_db (λ now, UtxoScanner.UpsertOutboxEvent now ev)).
Proof.
  intros Hev. apply carried_exec. intros now s s' sent Hx. unfold UtxoScanner.UpsertOutboxEvent in Hx. mbind_inv Hx.
  injection Hx as <-. by apply insertOutbox_ok.
Qed.

Lemma safe_enqueue w txHash eventIndex amount from to confs reqConfs status :
  safe (UtxoScanner.enqueueDepositEvent w txHash eventIndex amount from to confs reqConfs status).
Proof. apply safe_upsert. intros _. eexists. split; reflexivity. Qed.

Lemma safe_record w tx idx : safe (UtxoScanner.recordTransfer w tx idx).
Proof.
  unfold UtxoScanner.recordTransfer. apply safe_ok; [apply keeps_safe, keeps_seen|]. intros change.
  destruct (negb _); [apply safe_ret|]. apply safe_ok; [apply safe_enqueue|]. intros _. apply safe_ret.
Qed.

Lemma safe_items w txs idx lastTx : safe (UtxoScanner.scanItems w txs idx lastTx).
Proof.
  revert idx lastTx. induction txs as [|tx txs IH]; intros idx lastTx; cbn; [apply safe_ret|].
  apply safe_ok; [apply safe_record|]. intros b. apply IH.
Qed.

Lemma safe_pages n maxPages w cursor lastTx : safe (UtxoScanner.scanPages cfg n maxPages w cursor lastTx).
Proof.
  revert cursor lastTx. induction n as [|n IH]; intros cursor lastTx; cbn; [apply safe_ret|].
  apply safe_ok; [apply carried_outside|]. intros page. apply safe_ok; [apply safe_items|]. intros l.
  case_decide; [apply safe_ret|apply IH].
Qed.

Lemma safe_checkpoint w cursor lastTx : safe (exec_db (λ now, UpsertCheckpoint now w cursor lastTx)).
Proof. apply keeps_safe, keeps_checkpoint. Qed.

Lemma safe_watch w : safe (UtxoScanner.scanOneWatch cfg w).
Proof.
  unfold UtxoScanner.scanOneWatch. case_decide; [apply safe_ret|]. apply safe_ok; [apply carried_query|]. intros cursor.
  apply safe_ok; [apply safe_pages|]. intros r. apply safe_checkpoint.
Qed.

Lemma safe_group_items watches txs idx : safe (UtxoScanner.groupItems watches txs idx).
Proof.
  revert idx. induction txs as [|tx txs IH]; intros idx; cbn; [apply safe_ret|]. apply safe_ok; [|intros _; apply IH].
  case_decide; [apply safe_ret|]. apply safe_forEach. intros w. apply safe_ok; [apply safe_record|]. intros _. apply safe_ret.
Qed.

Lemma safe_group_pages n group cursor next lastTx : safe (UtxoScanner.groupPages cfg n group cursor next lastTx).
Proof.
  revert cursor next lastTx. induction n as [|n IH]; intros cursor next lastTx; cbn; [apply safe_ret|].
  apply safe_ok; [apply carried_outside|]. intros page. apply safe_ok; [apply safe_group_items|]. intros _.
  case_decide; [apply safe_ret|apply IH].
Qed.

Lemma safe_group group : safe (UtxoScanner.scanOneAccountGroup cfg group).
Proof.
  unfold UtxoScanner.scanOneAccountGroup. case_decide; [apply safe_ret|]. case_decide; [apply safe_ret|].
  apply safe_ok; [apply carried_query|]. intros cursor. case_decide; [apply safe_ret|].
  apply safe_ok; [apply safe_group_pages|]. intros [next lastTx].
  apply safe_ok; [apply safe_quiet_exec; by intros now s s' [= <-]|]. intros _.
  apply safe_bind; [apply safe_forAll; intros w; apply safe_checkpoint|]. intros _. apply safe_ret.
Qed.

Lemma safe_watches l : safe (UtxoScanner.scanWatchesIndividually cfg l).
Proof. apply safe_forAll. intros w. apply safe_watch. Qed.

Lemma safe_model model : safe (UtxoScanner.scanModel cfg model).
Proof.
  unfold UtxoScanner.scanModel. apply safe_ok; [apply carried_query|]. intros watches. case_decide; [apply safe_ret|].
  destruct (EqualFold _ _); (apply safe_bind; [|intros _; apply safe_ret]); [|apply safe_watches].
  apply safe_forAll. intros group. destruct (UtxoScanner.supportsChainWideAccountScan _); [|apply safe_watches].
  apply safe_bind; [apply safe_group|]. intros _. apply safe_ret.
Qed.

Lemma safe_reconcile : safe (UtxoScanner.reconcileReorgCandidates cfg).
Proof.
  unfold UtxoScanner.reconcileReorgCandidates. apply safe_ok; [apply carried_query|]. intros cands.
  apply safe_bind; [|intros _; apply safe_ret]. apply safe_forAll. intros c. unfold UtxoScanner.reconcileCandidate.
  case_decide; [apply safe_ret|]. apply safe_ok; [apply carried_outside|]. intros finality. apply safe_ok.
  - unfold UtxoScanner.candidateState. destruct (negb _).
    + apply safe_ok; [|intros m; apply safe_ret]. apply safe_quiet. intros now s a s'.
      unfold UtxoScanner.IncrementSeenEventNotFound, IncrementSeenEventNotFound.
      destruct (st_seen s !! _); by intros [= <- <-].
    + apply safe_ok; [|intros _; apply safe_ret]. case_decide; [|apply safe_ret].
      apply safe_quiet_exec. by intros now s s' [= <-].
  - intros [[st conf]|]; [|apply safe_ret]. apply safe_ok; [apply keeps_safe, keeps_seen|]. intros change.
    destruct (negb _); [apply safe_ret|apply safe_enqueue].
Qed.

Lemma safe_wallet reqID c : safe (walletCore reqID c).
Proof.
  intros w [I1 I2 I3 I4]. unfold walletCore. destruct (so_wallet reqID c (sw_out w)) as [r o]. cbn.
  split; [done|done|done|]. intros k r' Hr Hd Hs. right. by apply (I4 k).
Qed.

Lemma safe_outgoing : safe (UtxoScanner.scanOutgoingConfirmations cfg).
Proof.
  assert (Hcheck : ∀ notify prefix it, safe (UtxoScanner.checkOutgoing notify prefix it)).
  { intros notify prefix it. unfold UtxoScanner.checkOutgoing. case_decide; [apply safe_ret|].
    apply safe_ok; [apply carried_outside|]. intros finality. destruct (negb _); [apply safe_ret|].
    case_decide; [apply safe_ret|]. apply safe_wallet. }
  unfold UtxoScanner.scanOutgoingConfirmations. apply safe_ok; [apply carried_outside|]. intros l1.
  apply safe_bind; [by apply safe_forAll|]. intros _. apply safe_ok; [apply carried_outside|]. intros l2.
  apply safe_bind; [by apply safe_forAll|]. intros _. apply safe_ret.
Qed.

(** A service that leaves the dispatch to its sibling. *)
Lemma safe_tick : us_EnableOutboxDispatch cfg = false → safe (UtxoScanner.tick cfg).
Proof.
  intros Hoff. assert (Hif : ∀ b (q : scan C (result ())), safe q → safe (if b : bool then q else mret (Ok ())))
    by (intros [] q Hq; [done|apply safe_ret]).
  unfold UtxoScanner.tick. apply safe_ok; [apply Hif, safe_model|]. intros _. apply safe_ok; [apply Hif, safe_model|]. intros _.
  apply safe_ok; [apply Hif, safe_reconcile|]. intros _. rewrite Hoff. apply safe_ok; [apply safe_ret|]. intros _.
  apply Hif, safe_outgoing.
Qed.

Lemma safe_serve acfg l : us_EnableOutboxDispatch cfg = false → safe (serve acfg cfg l).
Proof.
  intros Hoff. induction l as [|[] l IH]; cbn; [apply safe_ret|..]; (apply safe_bind; [|by intros _]).
  - apply keeps_safe, keeps_tick.
  - by apply safe_tick.
Qed.
End outbox.

(** C25. Both services on one database: whatever the chain, the database and
    wallet-core answer, and in whatever order the two take their ticks, every
    row of a deposit that is DONE is one whose announcement, with the payload the
    row has, wallet-core answered without an error. *)
Theorem scanners_deliver `{SqlText} {C} `{ScanOutside C} (cfg : ScannerConfig) (ucfg : UtxoScanner) (l : list service)
    (w : sworld C) k r :
  us_EnableOutboxDispatch ucfg = false → st_outbox (sw_store w) = ∅ →
  st_outbox (sw_store (serve cfg ucfg l w).2) !! k = Some r → is_deposit r → ox_status r = "DONE" →
  ∃ p, ox_payload r = DepositPayload p ∧ payloadKey p = k ∧ (DepositNotifyCall p, Ok ()) ∈ sw_sent (serve cfg ucfg l w).2.
Proof.
  intros Hoff He Hr Hd Hs. pose proof (safe_serve ucfg cfg l Hoff w (empty_outbox_good w He)) as Hgood.
  destruct (ok_payload _ _ Hgood _ _ Hr Hd) as (p & Hp & Hk). exists p. split; [done|]. split; [done|].
  pose proof (ok_delivered _ _ Hgood _ _ Hr Hd Hs) as Hin. by rewrite Hp in Hin.
Qed.

(** ** A concrete site *)

#[local] Existing Instance asciiText.

Definition utxoConfig : UtxoScanner := UtxoScanner.runDefaults (UtxoScanner.runWithMode "utxo" {|
  us_AccountPageSize := 0; us_AccountMaxPages := 0; us_WatchLimit := 0; us_ReorgWindow := 0; us_ReorgCandidateLimit := 0;
  us_ReorgNotFoundThreshold := 0; us_EnableAccountScan := true; us_EnableUTXOScan := false; us_EnableReorgReconcile := true;
  us_EnableOutboxDispatch := true; us_EnableOutgoingScan := true; us_SweepMinBalance := ""; us_ProjectNotify := false;
  us_ProjectChainIDMap := ∅; us_ProjectDefaultChainID := 0 |}).

Definition utxoWatch : WatchAddress := {|
  wt_TenantID := "t"; wt_AccountID := "alice"; wt_Model := "utxo"; wt_Chain := "bitcoin"; wt_Coin := "BTC";
  wt_Network := "mainnet"; wt_Address := "0xAlice"; wt_ContractAddress := ""; wt_MinConfirmations := 2;
  wt_UnlockConfirmations := 6; wt_TreasuryAccountID := "treasury-main"; wt_ColdAccountID := ""; wt_AutoSweep := false;
  wt_SweepThreshold := "0"; wt_HotBalanceCap := "0" |}.

(** The chain shows the deposit with the next confirmations at every tick of
    the UTXO scanner. *)
Definition utxoStart (confirmations : list Z) : sworld (feed * world state) :=
  SWorld (scanTables <| st_watches := [{| wr_watch := utxoWatch; wr_active := true |}] |>)
    ({| fd_now := 1; fd_pages := depositPage <$> confirmations |}, start [] empty_ledger) [].

Definition serveSite (confirmations : list Z) (l : list service) : sworld (feed * world state) :=
  (serve scanConfig utxoConfig l (utxoStart confirmations)).2.

Definition utxoKey : string := "dep:t:bitcoin:mainnet:0xfeed:1".
Definition utxoDeposit (w : sworld (feed * world state)) : option (string * Z * bool) :=
  (λ r, (de_status r, de_confirmations r, de_unlocked r)) <$> deposit_events (coreLedger w) !! ("t", "dep_0xfeed_1_alice_mainnet").
Definition aliceBitcoin (w : sworld (feed * world state)) : option (string * string) :=
  (λ b, (ba_available b, ba_withdraw_locked b)) <$> ledger_balances (coreLedger w) !! ("t", "alice", "BTC").

Lemma scanners_deliver_witness :
  ∃ p, payloadKey p = utxoKey ∧ dp_Status p = "CONFIRMED"
    ∧ (DepositNotifyCall p, Ok ()) ∈ sw_sent (serveSite [1; 12] [UtxoService; AccountService; UtxoService; AccountService])
    ∧ utxoDeposit (serveSite [1; 12] [UtxoService; AccountService; UtxoService; AccountService])
      = Some ("CONFIRMED", 12, false).
Proof.
  set (l := [UtxoService; AccountService; UtxoService; AccountService]).
  destruct (st_outbox (sw_store (serveSite [1; 12] l)) !! utxoKey) as [r|] eqn:Hr; [|vm_compute in Hr; discriminate Hr].
  destruct (scanners_deliver scanConfig utxoConfig l (utxoStart [1; 12]) utxoKey r eq_refl eq_refl Hr) as (p & Hp & Hk & Hin).
  - vm_compute in Hr. injection Hr as <-. reflexivity.
  - vm_compute in Hr. injection Hr as <-. reflexivity.
  - exists p. split; [exact Hk|]. split; [|split; [exact Hin|vm_compute; reflexivity]].
    vm_compute in Hr. injection Hr as <-. cbn in Hp. injection Hp as <-. reflexivity.
Defined.

(** ** A change is announced again *)

Section record.
Context `{SqlText} {C : Type} `{ScanOutside C}.

(** The number a transfer of a page has: its own or its position. *)
Definition eventIndexOf (tx : IncomingTransfer) (idx : Z) : Z := if decide (it_Index tx ≤ 0) then idx else it_Index tx.

(** What the scanner announces of a transfer. *)
Definition announcement (w : WatchAddress) (tx : IncomingTransfer) (idx : Z) : DepositOutboxPayload :=
  UtxoScanner.depositPayload w (it_TxHash tx) (eventIndexOf tx idx) (it_Amount tx) (it_FromAddress tx)
    (fallback (it_ToAddress tx) (wt_Address w)) (it_Confirmations tx) (minConfOf w)
    (UtxoScanner.resolveDepositStatus (it_Status tx) (it_Confirmations tx) (minConfOf w)).

Lemma upsert_writes now ev s s' :
  UtxoScanner.UpsertOutboxEvent now ev s = Ok s' →
  (∃ id, st_outbox s' = <[ev_EventKey ev := outboxRow now id ev]> (st_outbox s)) ∧ st_seen s' = st_seen s.
Proof.
  intros Hx. unfold UtxoScanner.UpsertOutboxEvent in Hx. mbind_inv Hx. injection Hx as <-. unfold insertOutbox.
  change (st_outbox (s <| st_next_outbox_id ::= Z.succ |>)) with (st_outbox s).
  destruct (st_outbox s !! ev_EventKey ev); [rewrite decide_True by done|]; (split; [eexists; reflexivity|done]).
Qed.

(** Whether a state of a transfer is news. *)
Definition is_news (seen : option seen_row) (status : string) (confirmations : Z) : bool :=
  match seen with
  | None => true
  | Some old => bool_decide (ToUpper status ≠ ToUpper (se_status old) ∨ se_confirmations old < confirmations)
  end.

Lemma seen_change now w txHash i status confs amount from to s ch s' :
  UpsertSeenEvent now w txHash i status confs amount from to s = Ok (ch, s') →
  sc_Notify ch = is_news (st_seen s !! seenKey w txHash i) status confs ∧ st_outbox s' = st_outbox s
  ∧ (sc_Notify ch = false → s' = s)
  ∧ (sc_Notify ch = true → ∃ e, st_seen s' !! seenKey w txHash i = Some e ∧ se_status e = status ∧ se_confirmations e = confs).
Proof.
  unfold UpsertSeenEvent. destruct (st_seen s !! seenKey w txHash i) as [old|]; cbn [is_news].
  - destruct (bool_decide _) eqn:Hb; cbn [negb]; intros [= <- <-]; cbn; rewrite ?Hb; (split; [done|]).
    + split; [done|]. split; [done|]. intros _. eexists. split; [apply lookup_insert_eq|done].
    + done.
  - intros [= <- <-]. cbn. split; [done|]. split; [done|]. split; [done|]. intros _. eexists.
    split; [apply lookup_insert_eq|done].
Qed.

(** A transfer that is new, whose status changed or whose confirmations grew
    is announced with what is known of it now, whatever became of the row of its
    earlier announcement: the row is pending again and no other row is touched.
    Otherwise nothing is written. *)
Theorem utxo_change_is_announced (w : WatchAddress) (tx : IncomingTransfer) (idx : Z) (st st' : sworld C) b :
  UtxoScanner.recordTransfer w tx idx st = (Ok b, st') →
  let p := announcement w tx idx in
  let k := seenKey w (it_TxHash tx) (eventIndexOf tx idx) in
  b = is_news (st_seen (sw_store st) !! k) (dp_Status p) (it_Confirmations tx)
  ∧ (b = false → sw_store st' = sw_store st)
  ∧ (b = true →
     (∃ r, st_outbox (sw_store st') = <[payloadKey p := r]> (st_outbox (sw_store st))
        ∧ ox_status r = "PENDING" ∧ ox_attempt_count r = 0 ∧ ox_payload r = DepositPayload p)
     ∧ ∃ e, st_seen (sw_store st') !! k = Some e ∧ se_status e = dp_Status p ∧ se_confirmations e = it_Confirmations tx).
Proof.
  intros Hrun p k. unfold UtxoScanner.recordTransfer in Hrun.
  apply scan_ok_inv in Hrun as (ch & w1 & (now & c & s1 & Hup & ->)%db_inv & Hrun).
  apply seen_change in Hup as (Hn & Hout & Hquiet & Hput). fold (eventIndexOf tx idx) in *. fold k in Hn, Hput.
  change (is_news (st_seen (sw_store st) !! k) (dp_Status p) (it_Confirmations tx)) with
    (is_news (st_seen (sw_store st) !! k) (UtxoScanner.resolveDepositStatus (it_Status tx) (it_Confirmations tx) (minConfOf w))
       (it_Confirmations tx)). rewrite <- Hn. destruct (sc_Notify ch); cbn [negb] in Hrun.
  - apply scan_ok_inv in Hrun as ([] & w2 & (now2 & c2 & s2 & Hw & ->)%exec_inv & Hrun). injection Hrun as <- <-.
    apply upsert_writes in Hw as [(id & Ho) Hs]. cbn [sw_store] in *. split; [done|]. split; [done|]. intros _. split.
    + rewrite Ho, Hout. eexists. by split.
    + rewrite Hs. by apply Hput.
  - injection Hrun as <- <-. split; [done|]. split; [|done]. intros _. by apply Hquiet.
Qed.
End record.

(** The row of the deposit is done when its confirmations grow to 12. *)
Lemma utxo_change_is_announced_witness :
  let st := serveSite [1] [UtxoService; AccountService] in
  (ox_status <$> st_outbox (sw_store st) !! utxoKey) = Some "DONE"
  ∧ ∃ tx st' r, UtxoScanner.recordTransfer utxoWatch tx 0 st = (Ok true, st')
      ∧ st_outbox (sw_store st') = <[utxoKey := r]> (st_outbox (sw_store st)) ∧ ox_status r = "PENDING".
Proof.
  set (st := serveSite [1] [UtxoService; AccountService]).
  set (tx := {| it_TxHash := "0xfeed"; it_FromAddress := "0xBob"; it_ToAddress := "0xAlice"; it_Amount := "100";
                it_Confirmations := 12; it_Index := 1; it_Status := "" |}).
  split; [vm_compute; reflexivity|]. exists tx.
  assert (Hok : (UtxoScanner.recordTransfer utxoWatch tx 0 st).1 = Ok true) by (vm_compute; reflexivity).
  destruct (UtxoScanner.recordTransfer utxoWatch tx 0 st) as [res st'] eqn:Hrun. cbn [fst] in Hok. subst res.
  destruct (utxo_change_is_announced utxoWatch tx 0 st st' true Hrun) as (_ & _ & Htrue).
  destruct (Htrue eq_refl) as ((r & Ho & Hs & _) & _). exists st', r. split; [reflexivity|]. split; [exact Ho|exact Hs].
Defined.

(** ** The two readings of a status *)

Lemma utxo_status raw confirmations minConf :
  let s := ToUpper (TrimSpace raw) in
  UtxoScanner.resolveDepositStatus raw confirmations minConf =
    if decide (s = "REVERTED" ∨ s = "FAILED") then "REVERTED"
    else if decide (s ≠ "PENDING" ∧ (Z.max minConf 1 ≤ confirmations ∨ s = "CONFIRMED" ∧ confirmations < 0)) then "CONFIRMED"
    else "PENDING".
Proof.
  cbv zeta. unfold UtxoScanner.resolveDepositStatus. repeat case_decide; try done; exfalso; intuition (congruence || lia).
Qed.

Lemma account_status raw confirmations minConf unlockConf reorgWindow :
  let s := ToUpper (TrimSpace raw) in
  mapDepositLedgerStatus (resolveDepositScanStatus raw confirmations minConf unlockConf reorgWindow) =
    if decide (s = "REORGED" ∨ s = "REVERTED" ∨ s = "FAILED") then "REVERTED"
    else if decide (s = "FINALIZED" ∨ Z.max minConf 1 ≤ confirmations) then "CONFIRMED" else "PENDING".
Proof.
  cbv zeta. unfold resolveDepositScanStatus. set (s := ToUpper (TrimSpace raw)).
  assert (Hin : s ∈ ["REORGED"; "REVERTED"; "FAILED"] ↔ s = "REORGED" ∨ s = "REVERTED" ∨ s = "FAILED") by set_solver.
  repeat case_decide; try reflexivity; exfalso; intuition (congruence || lia).
Qed.

(** The two scanners tell the ledger the same of a transfer, whatever its
    unlock depth, except in four cases: the chain calls it pending although it has
    the confirmations, calls it final before it has them, calls it reorganised
    away, or calls it confirmed and has no count for it. *)
Theorem scanners_agree_on_status raw confirmations minConf unlockConf reorgWindow :
  let s := ToUpper (TrimSpace raw) in
  mapDepositLedgerStatus (resolveDepositScanStatus raw confirmations minConf unlockConf reorgWindow)
    = UtxoScanner.resolveDepositStatus raw confirmations minConf
  ↔ ¬ (s = "REORGED" ∨ s = "PENDING" ∧ Z.max minConf 1 ≤ confirmations
       ∨ s = "FINALIZED" ∧ confirmations < Z.max minConf 1 ∨ s = "CONFIRMED" ∧ confirmations < 0).
Proof.
  cbv zeta. rewrite utxo_status, account_status. set (s := ToUpper (TrimSpace raw)).
  assert (D : "REORGED" ≠ "REVERTED" ∧ "REORGED" ≠ "FAILED" ∧ "PENDING" ≠ "REVERTED") by done.
  repeat case_decide; (split; [intros Hq; try discriminate Hq|intros Hn; try reflexivity; exfalso]);
    intuition (congruence || lia).
Qed.

(** ** The deposits of the UTXO scanner in wallet-core *)

(** No deposit of the ledger is final, and none is unlocked. *)
Definition none_final (d : ledger) : Prop :=
  map_Forall (λ _ r, normalizeStoredDepositStatus (de_status r) ≠ "FINALIZED" ∧ de_unlocked r = false) (deposit_events d).

(** The announcements [enqueueDepositEvent] writes. *)
Definition utxo_notice (c : wallet_call) : Prop :=
  ∃ w txHash i amount from to confs reqConfs raw seen minConf status,
    c = DepositNotifyCall (UtxoScanner.depositPayload w txHash i amount from to confs reqConfs status)
    ∧ (status = "REVERTED" ∨ status = UtxoScanner.resolveDepositStatus raw seen minConf).

Lemma final_resolve old target :
  normalizeStoredDepositStatus (resolveEffectiveDepositStatus old target) = "FINALIZED" →
  normalizeStoredDepositStatus old = "FINALIZED" ∨ normalizeStoredDepositStatus target = "FINALIZED".
Proof.
  unfold resolveEffectiveDepositStatus.
  by destruct (normalizeStored_cases old) as [->|[->|[->| ->]]];
    destruct (normalizeStored_cases target) as [->|[->|[->| ->]]]; auto.
Qed.

Lemma applyDeposit_none_final inp old d d' :
  normalizeStoredDepositStatus (depositTarget inp) ≠ "FINALIZED" → normalizeStoredDepositStatus old ≠ "FINALIZED" →
  none_final d → ∀ c, applyDeposit inp (resolveEffectiveDepositStatus old (depositTarget inp)) c false d = Ok d' → none_final d'.
Proof.
  intros Ht Ho Hd c (c' & u & He & Hu & _)%applyDeposit_events.
  assert (Heff : normalizeStoredDepositStatus (resolveEffectiveDepositStatus old (depositTarget inp)) ≠ "FINALIZED")
    by (by intros [?|?]%final_resolve).
  unfold none_final. rewrite He. intros k r. rewrite sql_update_lookup. case_decide as Hk; [|apply Hd].
  intros (r0 & _ & ->)%fmap_Some. cbn. split; [exact Heff|]. apply not_true_is_false. intros [?|Hf]%Hu; [done|].
  by rewrite Hf in Heff.
Qed.

(** A notification that does not make its deposit final makes none final. *)
Lemma CreditDeposit_none_final inp d d' :
  normalizeStoredDepositStatus (depositTarget inp) ≠ "FINALIZED" → none_final d → CreditDeposit inp d = Ok d' → none_final d'.
Proof.
  intros Ht Hd. unfold CreditDeposit. destruct (deposit_events d !! depositKey inp) as [r|] eqn:Hr.
  - destruct (Hd _ _ Hr) as [Hs ->]. by apply applyDeposit_none_final.
  - apply applyDeposit_none_final; [done|done|]. apply map_Forall_insert_2; [|done]. by split.
Qed.

Lemma utxo_target inp :
  dc_ScanStatus inp = "" → dc_UnlockConfs inp = 0 →
  dc_Status inp = "REVERTED" ∨ dc_Status inp = "PENDING" ∨ dc_Status inp = "CONFIRMED" →
  normalizeStoredDepositStatus (depositTarget inp) ≠ "FINALIZED".
Proof.
  intros Hs Hu Hst. unfold depositTarget, depositUnlock. rewrite Hs, Hu, decide_False by lia.
  unfold normalizeDepositLifecycleStatus. rewrite (decide_False (P := 0 > 0 ∧ 0 < _)), (decide_False (P := 0 > 0 ∧ 0 ≤ _)) by lia.
  assert (T : ToUpper (TrimSpace "") = "" ∧ ToUpper (TrimSpace "REVERTED") = "REVERTED" ∧ ToUpper (TrimSpace "PENDING") = "PENDING"
    ∧ ToUpper (TrimSpace "CONFIRMED") = "CONFIRMED") by (split_and!; reflexivity). destruct T as (T1 & T2 & T3 & T4).
  cbv [candidateStatus]. rewrite T1. rewrite (decide_False (P := 0 > 0 ∧ _)) by lia.
  destruct Hst as [->|[->| ->]]; rewrite ?T2, ?T3, ?T4; by repeat case_decide.
Qed.

Section core.
Context `{Postgres} {W : Type} `{Outside W} `{SolanaLib} (h : WithdrawHandler) (statusText : Z → string).

Lemma DepositNotify_keeps K r :
  (∀ req, hq_Body r = Some req → HandlerSystem.keeps K (LedgerCall (CreditDepositCall (creditInput req)))) →
  all_calls (@HandlerSystem.keeps K) (DepositNotify h r).
Proof.
  intros Hc. unfold DepositNotify. apply all_calls_bind_reply; [done|]. intros _.
  apply all_calls_decode. intros req Hreq. apply all_calls_bind_reply; [done|]. intros _.
  apply all_calls_bind_reply; [apply no_write_keeps, silent_no_write, ensureAccountActive_silent|]. intros _.
  apply all_calls_orHttp. split; [by apply Hc|done].
Qed.

(** Wallet-core answers these calls one after the other. *)
Fixpoint delivered (cs : list (string * wallet_call)) (w : world W) : world W :=
  match cs with [] => w | (reqID, c) :: cs => delivered cs (coreCall h statusText reqID c w).2 end.

Lemma utxo_notice_none_final reqID c (w : world W) :
  utxo_notice c → none_final (w_ledger w) → none_final (w_ledger (coreCall h statusText reqID c w).2).
Proof.
  intros (x & tx & i & amount & from & to & confs & req & raw & seen & minConf & status & -> & Hst) Hw.
  unfold coreCall, answered. cbn [snd]. apply (run_keeps none_final); [|done].
  apply DepositNotify_keeps. intros r [= <-] now l l' Hl HK.
  apply (CreditDeposit_none_final _ _ _) in Hl; [done| |done]. apply utxo_target; [done|done|]. cbn.
  destruct Hst as [->| ->]; [by left|]. rewrite utxo_status. repeat case_decide; auto.
Qed.

(** A deposit of a UTXO chain stays withdraw-locked: whatever announcements
    of the UTXO scanner wallet-core receives, of any deposits, in any order, any
    number of times and with any confirmations, none of them makes a deposit
    final or unlocks its amount, for they carry neither the unlock confirmations
    of the watch nor a scan status. *)
Theorem utxo_deposits_stay_locked (cs : list (string * wallet_call)) (w : world W) :
  Forall (λ c, utxo_notice c.2) cs → none_final (w_ledger w) → none_final (w_ledger (delivered cs w)).
Proof.
  intros Hcs. revert w. induction Hcs as [|[reqID c] cs Hc _ IH]; intros w Hw; [done|].
  cbn [delivered]. apply IH. by apply utxo_notice_none_final.
Qed.
End core.

(** Two announcements of alice's deposit, with 1 and with 12 confirmations. *)
Definition aliceNotice (confirmations : Z) : wallet_call :=
  DepositNotifyCall (UtxoScanner.depositPayload utxoWatch "0xfeed" 1 "100" "0xBob" "0xAlice" confirmations 2
    (UtxoScanner.resolveDepositStatus "" confirmations 2)).

Lemma utxo_deposits_stay_locked_witness :
  let w := delivered coreHandler (λ _, "status") [("1", aliceNotice 1); ("2", aliceNotice 12)] (start [] empty_ledger) in
  none_final (w_ledger w)
  ∧ ((λ r, (de_status r, de_confirmations r))
       <$> deposit_events (w_ledger w) !! ("t", "dep_0xfeed_1_alice_mainnet")) = Some ("CONFIRMED", 12)
  ∧ ((λ b, (ba_available b, ba_withdraw_locked b))
       <$> ledger_balances (w_ledger w) !! ("t", "alice", "BTC")) = Some ("100", "100").
Proof.
  split; [|split; vm_compute; reflexivity]. apply utxo_deposits_stay_locked; [|by apply map_Forall_empty].
  repeat constructor; repeat eexists; right; reflexivity.
Defined.

(** ** The two services at the same time *)

(** The first row of the outbox that is listed, and the world after. *)
Definition listedFirst (w : sworld (feed * world state)) : option OutboxEvent :=
  match (listPending scanConfig w).1 with Ok [ev] => Some ev | _ => None end.

(** The account scanner lists the deposit with 1 confirmation and sends it; the
    UTXO scanner sees 12 before the row is marked; then both take two more
    ticks, and the chain still shows 12. *)
Definition overtakenSite : sworld (feed * world state) :=
  let w := serveSite [1; 12; 12; 12] [UtxoService] in
  match listedFirst w with
  | Some ev => (serve scanConfig utxoConfig [AccountService; UtxoService; AccountService; UtxoService]
                  (overtaken scanConfig utxoConfig ev (listPending scanConfig w).2).2).2
  | None => w
  end.

Definition announcedStatus (c : wallet_call * result ()) : option string :=
  match c.1 with DepositNotifyCall p => Some (dp_Status p) | _ => None end.

(** DONE means delivered only while the two services take turns: when the
    UTXO scanner announces a new state of a deposit between wallet-core's answer
    to the old one and the account scanner's mark, the row of the new state is
    marked as done although it was never sent.  The deposit stays uncredited
    through later ticks, where ticks in turn would have it credited. *)
Theorem overtaken_announcement_is_lost :
  ((λ r, (ox_status r, dp_Status (asDeposit (ox_payload r)))) <$> st_outbox (sw_store overtakenSite) !! utxoKey)
    = Some ("DONE", "CONFIRMED")
  ∧ announcedStatus <$> sw_sent overtakenSite = [Some "PENDING"]
  ∧ utxoDeposit overtakenSite = Some ("PENDING", 1, false) ∧ aliceBitcoin overtakenSite = None
  ∧ let inTurn := serveSite [1; 12; 12; 12] [UtxoService; AccountService; UtxoService; AccountService] in
    utxoDeposit inTurn = Some ("CONFIRMED", 12, false) ∧ aliceBitcoin inTurn = Some ("100", "100").
Proof. cbv zeta. split_and!; vm_compute; reflexivity. Qed.
