(* ===== verification/ScanGatewayProperties.v ===== *)
(** * Properties of the scanner and the chain gateway together *)
From S2P Require Import Prelude GoStrings GoNumbers KeyRef Endpoint EvmReader Normalize EvmPlugin.
From S2P Require Import EvmSend.
From S2P Require Import ChainService.
From S2P Require Import EndpointSystem GatewayPages.
From S2P Require Import Ports LedgerTables Calls Site.
From S2P Require Import ScanStore ScanEvents Scanner ScanOutbox ScanInvariant ScanCore ScanGateway.

(** ** Calls of the client *)

Section client.
Context {S : Type} (opts : ChainGatewayOptions) (transientCode : error → bool) (interrupted : S → option error).
Variables (rpcError : error → error) (unreachable : S → option error).
Variables (transient : error → bool) (cancelled : S → option error) (r : Router (ChainPlugin S)).

Lemma controlled_ok {A} n (op : S → result A * S) s a s' :
  controlled transientCode interrupted n op s = (Ok a, s') → ∃ s1, op s1 = (Ok a, s').
Proof.
  revert s. induction n as [|n IH]; intros s; cbn [controlled]; [done|].
  destruct (interrupted s); [done|]. destruct (op s) as [[out|e] s1] eqn:Ho; [intros [= <- <-]; by exists s|].
  destruct (bool_decide (n = 0%nat) || _); [done|]. destruct (interrupted s1); [done|]. apply IH.
Qed.

Lemma Finality_found txHash raw : TrimSpace txHash ≠ "" → gf_Found (Finality txHash raw) = true.
Proof.
  intros Hh. unfold Finality. cbn [gf_Found]. rewrite decide_False by done.
  rewrite (bool_decide_eq_true_2 (txHash ≠ "" ∨ _)); [done|]. left. intros ->. by apply Hh.
Qed.

Lemma serviceFinality_found chain coin network txHash s out s' :
  serviceFinality transient cancelled r chain coin network txHash s = (Ok out, s') → gf_Found out = true.
Proof.
  unfold serviceFinality. destruct (validateChainNetwork chain network); [|done]. case_decide as Hh; [done|].
  destruct (Resolve chain network r) as [b|]; [|done]. destruct (withRetry _ _ _ _ s) as [[raw|e] s1]; [|done].
  cbn [mbind result_bind]. pose proof (Finality_found txHash raw Hh) as Hf. destruct (Finality txHash raw) as [hash n st found].
  cbn in Hf |- *. intros Hx. injection Hx as <- _. by case_decide.
Qed.

Lemma clientFinality_found chain coin network txHash s f s' :
  clientFinality opts transientCode interrupted rpcError unreachable transient cancelled r chain coin network txHash s
  = (Ok f, s') → tf_Found f = true.
Proof.
  intros [s1 Hc]%controlled_ok. unfold checkedNetwork in Hc. case_decide; [done|]. unfold remote in Hc.
  destruct (unreachable s1); [done|]. destruct (serviceFinality _ _ _ _ _ _ _ s1) as [[out|e] s2] eqn:Hs; [|done].
  injection Hc as <- _. by apply serviceFinality_found in Hs.
Qed.
End client.

(** ** Deposits the scanner has seen *)

(** No event was missed, and none is gone. *)
Definition all_there (s : store) : Prop :=
  map_Forall (λ _ r, se_not_found_count r = 0 ∧ se_status r ≠ "REORGED") (st_seen s).

Section seen.
Context `{SqlText} {C : Type} `{ScanOutside C}.

(** A program that ends with every event there when it starts so. *)
Definition leaves_there {A} (p : scan C A) : Prop := holds (carried (λ s _, all_there s)) p.

Lemma there_outside {A B} (g : C → result A * C) (k : A → scan C (result B)) :
  (∀ c a c', g c = (Ok a, c') → leaves_there (k a)) → leaves_there (scan_ok (outside g) k).
Proof.
  intros Hk [s c sent] Hw. unfold scan_ok, mbind, scan_bind, outside. cbn [sw_out sw_store sw_sent] in *.
  destruct (g c) as [[a|e] c'] eqn:Hg; [|done]. by apply (Hk _ _ _ Hg).
Qed.

Lemma there_then {A B D} (p : scan C (result A)) (x : B) (k : B → scan C (result D)) :
  leaves_there (scan_ok p (λ _, k x)) → leaves_there (scan_ok (scan_ok p (λ _, mret (Ok x))) k).
Proof.
  intros Hp w Hw. specialize (Hp w Hw). unfold scan_ok, mbind, scan_bind in *. by destruct (p w) as [[a|e] w'].
Qed.

Lemma there_seen w txHash eventIndex status confirmations amount from to :
  status ≠ "REORGED" →
  leaves_there (db (λ now, UpsertSeenEvent now w txHash eventIndex status confirmations amount from to)).
Proof.
  intros Hst. apply carried_db. intros now s a s' sent Hx Hs. unfold UpsertSeenEvent in Hx.
  assert (Hput : ∀ row, se_not_found_count row = 0 → se_status row = status →
    all_there (s <| st_seen := <[seenKey w txHash eventIndex := row]> (st_seen s) |>)).
  { intros row H1 H2. apply map_Forall_insert_2; [|done]. rewrite H2. done. }
  destruct (st_seen s !! _) as [old|]; [destruct (negb _)|]; injection Hx as _ <-; [done|by apply Hput..].
Qed.

Lemma there_enqueue w txHash eventIndex amount from to confs reqConfs unlockConfs status :
  leaves_there (enqueueDepositEvent w txHash eventIndex amount from to confs reqConfs unlockConfs status).
Proof.
  apply carried_exec. intros now s s' sent Hx. unfold UpsertOutboxEvent in Hx. mbind_inv Hx. injection Hx as <-.
  intros Hs. unfold insertOutbox. case_match; [case_decide|]; done.
Qed.
End seen.

(** ** A transaction the node does not know *)

Section vanished.
Context {K} `{Geth K} {C : Type} `{EvmNode C}.
Abbreviation S := (readerState (C := C)).

(** No transaction is known to the node. *)
Definition forgotten : Prop := ∀ ep h c, (nd_tx ep h c).1 = Ok None.

Lemma vanished_finality (chain network h : string) (s : S) out s' :
  forgotten → GetTxFinality chain network h s = (Ok out, s') →
  out = {| gf_TxHash := TrimSpace h; gf_Confirmations := 0; gf_Status := "PENDING"; gf_Found := false |}.
Proof.
  intros Hf. unfold GetTxFinality, withEndpoint. destruct (selectEndpoint _ _ _) as [ep|]; [|done].
  unfold nbind at 1. unfold getTransactionByHash.
  pose proof (Hf ep h s.2) as Hn. unfold rpcCall. destruct (nd_tx ep h s.2) as [res c]. cbn in Hn. subst res.
  cbn. by intros [= <- _].
Qed.

Lemma vanished_payload h raw out :
  TrimSpace h ≠ "" → raw = finalityPayload {| gf_TxHash := TrimSpace h; gf_Confirmations := 0; gf_Status := "PENDING"; gf_Found := false |} →
  Finality h raw = out → gf_Status out = "PENDING" ∧ gf_Confirmations out = -1.
Proof.
  intros Hh -> <-. unfold Finality. cbn [gf_Status gf_Confirmations].
  rewrite (findFirstString_direct ["status"; "tx_status"; "state"; "receipt_status"] _ "PENDING") by reflexivity.
  split; [|reflexivity]. rewrite decide_False by (vm_compute; discriminate). vm_compute. reflexivity.
Qed.

Lemma vanished_service lookback others utxo (r : Router (ChainPlugin S)) transient cancelled chain coin network h (s : S) out s' :
  other_chains others → gatewayRouter (Some lookback) others utxo = Ok r → NormalizeChain chain ∈ evmAccountChains → forgotten →
  serviceFinality transient cancelled r chain coin network h s = (Ok out, s') →
  gf_Status out = "PENDING" ∧ gf_Confirmations out = -1.
Proof.
  intros Ho Hr Hc Hf. destruct (gateway_resolves (Some lookback) others utxo chain Ho Hc) as (r' & a & Hr' & Ha & Hres).
  rewrite Hr in Hr'. injection Hr' as <-. unfold serviceFinality.
  destruct (validateChainNetwork chain network) as [[]|] eqn:Hv; [|done]. case_decide as Hh; [done|].
  destruct (decide (normalizeNetwork network = "")) as [Hn|Hn].
  { unfold Resolve. cbv zeta. case_decide; [done|]. by rewrite decide_True. }
  destruct (Hres network Hn) as [_ ->]. destruct (withRetry _ _ _ _ s) as [[raw|e] s1] eqn:Hw; [|done].
  cbn [mbind result_bind]. destruct (withRetry_ok_inv Hw) as [s0 Hraw]. clear Hw.
  assert (Hp : raw = finalityPayload {| gf_TxHash := TrimSpace h; gf_Confirmations := 0; gf_Status := "PENDING"; gf_Found := false |}).
  { unfold withAdapter in Hraw. cbn [evmBinding pb_Adapter pb_Chain accountAdapter cp_GetTxByHash hashQuery tq_Chain] in Hraw.
    unfold withPlugin, resolvePlugin in Hraw. cbv zeta in Hraw.
    destruct (proj1 (Forall_forall _ _) evm_canonical _ Hc) as (Hcc & _ & Hne). rewrite Hcc, decide_False, Ha in Hraw by done.
    cbn [from_option_err New snd cp_GetTxByHash] in Hraw. unfold GetTxByHash, withReader, map_result in Hraw.
    cbn [normalizedQuery hashQuery tq_Chain tq_Network tq_Hash] in Hraw.
    destruct (GetTxFinality _ _ h s0) as [[o|e] s2] eqn:Hg; [|done]. cbn [fmap result_fmap fst snd] in Hraw.
    apply vanished_finality in Hg as ->; [|done]. by injection Hraw as <- _. }
  destruct (vanished_payload h raw _ Hh Hp eq_refl) as [Hst Hcf].
  destruct (Finality h raw) as [hash n st found]. cbn in Hst, Hcf |- *. intros Hx. injection Hx as <- _. by case_decide.
Qed.
End vanished.

(** ** Candidates whose transactions are gone *)

Definition chainOf (k : seen_key) : string := let '((_, _, _, chain, _, _, _), _, _) := k in chain.

(** Every event was seen on an EVM chain. *)
Definition seen_on_evm (s : store) : Prop := map_Forall (λ k _, NormalizeChain (chainOf k) ∈ evmAccountChains) (st_seen s).

Lemma candidates_on_evm `{SqlText} window limit allowed s cs :
  seen_on_evm s → ListReorgCandidates window limit allowed s = Ok cs →
  Forall (λ c, NormalizeChain (wt_Chain (rc_watch c)) ∈ evmAccountChains) cs.
Proof.
  unfold ListReorgCandidates. cbv zeta. intros Hs [= <-]. apply Forall_fmap, Forall_take.
  rewrite merge_sort_Permutation. apply Forall_forall. intros [k row] [_ Hin]%list_elem_of_filter.
  apply elem_of_map_to_list in Hin. specialize (Hs _ _ Hin). cbn in *.
  by destruct k as [[[[[[[[t a] m] ch] co] n] ad] h] i].
Qed.

Section reconcile.
Context {K} `{Geth K} {C : Type} `{EvmNode C} `{SqlText} {E : Type} (scanOutside : ScanOutside E) (cfg : ScannerConfig).
Abbreviation S := (readerState (C := C)).
Variables (opts : ChainGatewayOptions) (transientCode : error → bool) (interrupted : S → option error).
Variables (rpcError : error → error) (unreachable : S → option error).
Variables (transient : error → bool) (cancelled : S → option error).
Variables (lookback : Z) (others : list (string * ChainPlugin S)) (utxo : ChainPlugin S) (r : Router (ChainPlugin S)).
Hypothesis Hothers : other_chains others.
Hypothesis Hrouter : gatewayRouter (Some lookback) others utxo = Ok r.
Hypothesis Hforgotten : forgotten (C := C).

#[local] Instance behind : ScanOutside (E * S) :=
  withGateway opts transientCode interrupted rpcError unreachable transient cancelled r scanOutside.

Lemma client_vanished chain coin network h s f s' :
  NormalizeChain chain ∈ evmAccountChains →
  clientFinality opts transientCode interrupted rpcError unreachable transient cancelled r chain coin network h s = (Ok f, s') →
  tf_Found f = true ∧ tf_Status f = "PENDING".
Proof.
  intros Hc Hf. split; [by eapply clientFinality_found|]. apply controlled_ok in Hf as [s1 Hf].
  unfold checkedNetwork in Hf. case_decide; [done|]. unfold remote in Hf. destruct (unreachable s1); [done|].
  destruct (serviceFinality _ _ _ _ _ _ _ s1) as [[out|e] s2] eqn:Hs; [|done].
  apply (vanished_service lookback others utxo) in Hs as [Hst _]; try done. injection Hf as <- _. cbn. by rewrite Hst.
Qed.

Lemma reconcile_there cand :
  NormalizeChain (wt_Chain (rc_watch cand)) ∈ evmAccountChains → leaves_there (reconcileCandidate cfg cand).
Proof.
  intros Hc. unfold reconcileCandidate. case_decide; [apply (holds_ret (carried _))|]. apply there_outside. intros [e s] f [e' s'] Hf.
  assert (Hask : clientFinality opts transientCode interrupted rpcError unreachable transient cancelled r
                   (wt_Chain (rc_watch cand)) (wt_Coin (rc_watch cand)) (wt_Network (rc_watch cand)) (rc_TxHash cand) s = (Ok f, s')).
  { cbn [so_finality behind withGateway fst snd] in Hf. destruct (clientFinality _ _ _ _ _ _ _ _ _ _ _ _ s) as [res s1].
    by injection Hf as -> _ ->. }
  apply client_vanished in Hask as [Hfound Hst]; [|done]. unfold candidateState. rewrite Hfound, Hst. cbn [negb].
  apply there_then. apply (holds_ok (carried _)).
  - case_decide; [|apply (holds_ret (carried _))]. apply carried_exec. intros now s0 s1 sent Hx Hs. injection Hx as <-.
    change (all_there _) with
      (map_Forall (λ _ r, se_not_found_count r = 0 ∧ se_status r ≠ "REORGED")
         (alter (λ r, r <| se_not_found_count := 0 |> <| se_updated_at := now |>) (candidateKey cand) (st_seen s0))).
    intros k row. rewrite lookup_alter. case_decide; [subst|by apply Hs].
    destruct (st_seen s0 !! candidateKey cand) as [row0|] eqn:Hr; [|done]. intros [= <-]. cbn. by destruct (Hs _ _ Hr).
  - intros _. apply (holds_ok (carried _)); [apply there_seen|].
    + unfold resolveDepositScanStatus. rewrite decide_False by (apply (bool_decide_unpack _); vm_compute; exact I). by repeat case_decide.
    + intros change. destruct (negb _); [apply (holds_ret (carried _))|]. apply there_enqueue.
Qed.
(** A deposit whose transaction is gone is never reorganised away: over the
    gateway, when no node of an EVM chain knows any transaction, the scanner's
    look at its candidates counts no miss and marks no event REORGED.  The
    service answers every hash as found ([Finality] takes the hash it was asked
    for as a finding), so the scanner's thresholds for missing transactions are
    never reached. *)
Theorem vanished_deposits_are_kept (w : sworld (E * S)) :
  seen_on_evm (sw_store w) → all_there (sw_store w) → all_there (sw_store (reconcileReorgCandidates cfg w).2).
Proof.
  intros Hevm Hw. unfold reconcileReorgCandidates, scan_ok at 1, mbind, scan_bind, query, db. cbn [sw_store sw_out].
  destruct (so_db (sw_out w)) as [[now|e] c]; [|done].
  destruct (ListReorgCandidates _ _ _ (sw_store w)) as [cs|e] eqn:Hcs; [|done]. cbn [mbind result_bind].
  apply candidates_on_evm in Hcs; [|done]. set (w' := SWorld (sw_store w) c (sw_sent w)).
  assert (Hall : leaves_there (forAll cs (reconcileCandidate cfg))).
  { clear -Hcs Hothers Hrouter Hforgotten. induction Hcs as [|cand cs Hc _ IH]; [apply (holds_ret (carried _))|].
    apply (holds_bind (carried _)); [by apply reconcile_there|done]. }
  specialize (Hall w' Hw). by destruct (forAll cs (reconcileCandidate cfg) w').
Qed.
End reconcile.

(** ** A concrete scanner *)

#[local] Existing Instance asciiText.

(** No limit, one attempt; the context is never done. *)
Definition calmOptions : ChainGatewayOptions := {|
  co_DefaultConcurrency := 2; co_ConcurrencyByChain := ∅; co_DefaultInterval := None; co_IntervalByChain := ∅;
  co_RetryMaxAttempts := 1; co_RetryBaseDelay := 0; co_RetryMaxDelay := 0 |}.

(** A deposit to alice with two confirmations, in the block before the last. *)
Definition confirmedTables : store :=
  scanTables <| st_seen := {[ seenKey watch "0xgone" 1 := {|
    se_status := "CONFIRMED"; se_confirmations := 1; se_amount := "100"; se_from_address := "0xBob";
    se_to_address := "0xAlice"; se_not_found_count := 0; se_created_at := 1; se_updated_at := 1 |} ]} |>.

Definition behindFeed : ScanOutside (feed * smallState) :=
  withGateway calmOptions (λ _, false) (λ _, None) id (λ _, None) (λ _, false) (λ _, None) smallRouter feedOutside.

Definition vanishedStart : sworld (feed * smallState) := SWorld confirmedTables ({| fd_now := 5; fd_pages := [] |}, smallStart) [].

Lemma vanished_deposits_are_kept_witness :
  let w := (reconcileReorgCandidates (H0 := behindFeed) scanConfig vanishedStart).2 in
  all_there (sw_store w)
  ∧ ((λ r, (se_status r, se_confirmations r)) <$> (st_seen (sw_store w) !! seenKey watch "0xgone" 1)) = Some ("SEEN", -1).
Proof.
  split; [|vm_compute; reflexivity].
  apply (vanished_deposits_are_kept feedOutside scanConfig calmOptions (λ _, false) (λ _, None) id (λ _, None) (λ _, false)
           (λ _, None) 0 [] noPlugin smallRouter).
  - constructor.
  - exact small_wired.
  - by intros ep h c.
  - refine (proj2 (map_Forall_singleton _ (seenKey watch "0xgone" 1) _) _). vm_compute. left.
  - refine (proj2 (map_Forall_singleton _ (seenKey watch "0xgone" 1) _) _). vm_compute. split; [reflexivity|discriminate].
Defined.

(** ** A chain that grows while it is scanned *)

Definition paid (hash to : string) (n : string) : rpcTx := {|
  rt_Hash := hash; rt_From := "0xBob"; rt_To := to; rt_Value := "0x64"; rt_TransactionIndex := "0x0"; rt_BlockNumber := n |}.

(** Block 1 pays carol, block 2 pays alice. *)
Definition twoBlocks (n : Z) : option rpcBlock :=
  if decide (n = 1) then Some (blockNamed "0x1" "0xb1" "0xb0" [paid "0xaaaa" "0xCarol" "0x1"])
  else if decide (n = 2) then Some (blockNamed "0x2" "0xb2" "0xb1" [paid "0xfeed" "0xAlice" "0x2"])
  else None.
Definition twoReceipts (hash : string) : option rpcReceipt :=
  if decide (hash = "0xaaaa") then Some (confirmedIn "0x1")
  else if decide (hash = "0xfeed") then Some (confirmedIn "0x2") else None.

(** The state is the number of requests so far: block 2 comes after the fourth. *)
#[export] Instance growingNode : EvmNode nat := {|
  nd_now _ := 0; nd_intn _ _ := 0; nd_cancelled _ := None; nd_partial _ := 0;
  nd_blockNumber _ c := (Ok (if (c <? 4)%nat then "0x1" else "0x2"), Datatypes.S c);
  nd_block _ n c := (Ok (twoBlocks n), Datatypes.S c);
  nd_logs _ _ c := (Ok [], Datatypes.S c);
  nd_tx _ _ c := (Ok None, Datatypes.S c);
  nd_receipt _ h c := (Ok (twoReceipts h), Datatypes.S c);
  nd_balance _ _ c := (Ok "0x5", Datatypes.S c);
  nd_pendingNonce _ _ c := (Ok "0x7", Datatypes.S c);
  nd_sendRaw _ raw c := (Ok "0xhash", Datatypes.S c);
|}.

Definition growingPlugin : ChainPlugin (readerState (C := nat)) := {|
  cp_GetTxByAddress _ s := (Err ErrUnsupported, s); cp_GetTxByHash _ s := (Err ErrUnsupported, s);
  cp_GetAccount _ s := (Err ErrUnsupported, s); cp_GetUnspentOutputs _ _ _ s := (Err ErrUnsupported, s);
  cp_ConvertAddress _ _ _ _ s := (Err ErrUnsupported, s); cp_SendTx _ _ _ _ s := (Err ErrUnsupported, s);
  cp_BuildUnsignedAccount _ _ _ s := (Err ErrUnsupported, s); cp_BuildSignedAccount _ _ _ _ _ s := (Err ErrUnsupported, s);
  cp_BuildUnsignedUTXO _ _ _ _ _ s := (Err ErrUnsupported, s); cp_BuildSignedUTXO _ _ _ _ _ s := (Err ErrUnsupported, s) |}.
Definition growingRouter : Router (ChainPlugin (readerState (C := nat))) :=
  match gatewayRouter (Some 0) [] growingPlugin with Ok r => r | Err _ => ∅ end.

(** The database fails once, at the statement number [n]. *)
Definition flakyFeed (n : Z) : ScanOutside feed := {|
  so_db c := (if decide (fd_now c = n) then Err (Errorf "connection lost") else Ok (fd_now c),
              {| fd_now := fd_now c + 1; fd_pages := fd_pages c |});
  so_locked := so_locked (ScanOutside := feedOutside); so_clock := so_clock (ScanOutside := feedOutside);
  so_age_text := so_age_text (ScanOutside := feedOutside); so_incoming := so_incoming (ScanOutside := feedOutside);
  so_finality := so_finality (ScanOutside := feedOutside); so_balance := so_balance (ScanOutside := feedOutside);
  so_wallet := so_wallet (ScanOutside := feedOutside); so_project := so_project (ScanOutside := feedOutside);
  so_withdraws := so_withdraws (ScanOutside := feedOutside); so_sweeps := so_sweeps (ScanOutside := feedOutside);
  so_transfers := so_transfers (ScanOutside := feedOutside);
|}.

Definition quickWatch : WatchAddress := {|
  wt_TenantID := "t"; wt_AccountID := "alice"; wt_Model := "account"; wt_Chain := "ethereum"; wt_Coin := "ETH";
  wt_Network := "mainnet"; wt_Address := "0xAlice"; wt_ContractAddress := ""; wt_MinConfirmations := 1;
  wt_UnlockConfirmations := 1; wt_TreasuryAccountID := "treasury-main"; wt_ColdAccountID := ""; wt_AutoSweep := false;
  wt_SweepThreshold := "0"; wt_HotBalanceCap := "0" |}.

Definition flakyScan (n : Z) : ScanOutside ((feed * readerState (C := nat)) * world state) :=
  withCore coreHandler (λ _, "status")
    (withGateway calmOptions (λ _, false) (λ _, None) id (λ _, None) (λ _, false) (λ _, None) growingRouter (flakyFeed n)).

Definition flakyStart : sworld ((feed * readerState (C := nat)) * world state) :=
  SWorld (scanTables <| st_watches := [{| wr_watch := quickWatch; wr_active := true |}] |>)
    ({| fd_now := 1; fd_pages := [] |}, (manager_run [OpRefresh (Ok nodes)] managerStart, 0%nat), start [] empty_ledger) [].
Definition run_flaky (n : Z) (k : nat) := (ticks (H0 := flakyScan n) scanConfig k flakyStart).2.

Definition aliceHas (w : sworld ((feed * readerState (C := nat)) * world state)) : option string :=
  ba_available <$> ledger_balances (w_ledger (snd (sw_out w))) !! ("t", "alice", "ETH").

(** A first transaction of a block has index 0, which the gateway and the
    scanner replace by its position in the page, so the event of a transfer
    depends on the page it was read from.  Here block 2 alone is the second page
    of a scan whose checkpoint the database does not take; the next tick reads
    both blocks in one page, and wallet-core credits the one transfer of 100 to
    alice a second time.  When the checkpoint is taken she has 100. *)
Theorem rescanned_transfer_credited_twice :
  gist <$> transfersIn 2 twoBlocks twoReceipts "0xalice" 0 3 = [("0xfeed", "0xAlice", "100")]
  ∧ aliceHas (run_flaky 1000 2) = Some "100" ∧ aliceHas (run_flaky 10 1) = Some "100"
  ∧ aliceHas (run_flaky 10 2) = Some "200".
Proof. split_and!; vm_compute; reflexivity. Qed.

(** ** The gate of a chain *)

(** The times at which calls that come at [nows] go ahead. *)
Fixpoint turns (g : chainRequestGate) (nows : list Z) : list Z :=
  match nows with
  | [] => []
  | now :: nows => let '(t, g) := waitTurn now g in t :: turns g nows
  end.

(** Consecutive elements are at least [d] apart. *)
Fixpoint spaced (d : Z) (l : list Z) : Prop :=
  match l with
  | a :: (b :: _) as l' => a + d ≤ b ∧ spaced d l'
  | _ => True
  end.

Lemma waitTurn_interval now g : gc_interval (waitTurn now g).2 = gc_interval g.
Proof. unfold waitTurn. repeat case_match; done. Qed.

Lemma waitTurn_next now g : 0 < gc_interval g → gc_next (waitTurn now g).2 = Some ((waitTurn now g).1 + gc_interval g).
Proof. intros Hi. unfold waitTurn. rewrite decide_False by lia. repeat case_match; done. Qed.

Lemma waitTurn_after now g t : 0 < gc_interval g → gc_next g = Some t → t ≤ (waitTurn now g).1.
Proof. intros Hi Hg. unfold waitTurn. rewrite decide_False by lia. rewrite Hg. case_decide; cbn; lia. Qed.

(** The calls to a chain go ahead at least the configured interval apart,
    whenever they come, so at most [d / interval + 1] of them within any [d];
    and no call goes ahead before it came. *)
Theorem turns_are_spaced g nows : 0 < gc_interval g → spaced (gc_interval g) (turns g nows) ∧ Forall2 Z.le nows (turns g nows).
Proof.
  intros Hi. remember (gc_interval g) as d eqn:Hd. revert g Hd. induction nows as [|now nows IH]; intros g Hd; [done|].
  cbn [turns]. pose proof (waitTurn_interval now g) as Hg. pose proof (waitTurn_next now g) as Hn.
  assert (Hge : now ≤ (waitTurn now g).1) by (unfold waitTurn; repeat case_match; cbn; lia).
  destruct (waitTurn now g) as [t g']. cbn in *. destruct (IH g' ltac:(lia)) as [Hs Hf]. split; [|by constructor].
  destruct nows as [|now' nows]; [done|]. cbn [turns] in *.
  pose proof (waitTurn_after now' g' (t + d)) as Ha. destruct (waitTurn now' g') as [t' g'']. split; [|done].
  apply Ha; [lia|]. rewrite Hd. apply Hn. lia.
Qed.

Lemma turns_are_spaced_witness :
  spaced 500 (turns {| gc_capacity := 2; gc_interval := 500; gc_next := None |} [0; 10; 20; 3000])
  ∧ turns {| gc_capacity := 2; gc_interval := 500; gc_next := None |} [0; 10; 20; 3000] = [0; 500; 1000; 3000].
Proof.
  split; [|vm_compute; reflexivity].
  exact (proj1 (turns_are_spaced {| gc_capacity := 2; gc_interval := 500; gc_next := None |} [0; 10; 20; 3000] ltac:(reflexivity))).
Defined.
