(* ===== verification/ApiSecurity.v ===== *)
(** * api-gateway: tokens, key permissions, chain policies, idempotency

    [internal/security]: the interface the proxy is written against
    ([Provider]), the tables behind it ([Postgres]) and the provider of a
    gateway without a database ([Noop]).  Every method is one statement. *)
From S2P Require Import Prelude GoStrings GoNumbers.

(** ** The interface *)

Record Scope := {
  sc_TenantID : string;
  sc_CanWithdraw : bool;
  sc_CanDeposit : bool;
  sc_CanSweep : bool;
}.

Record IdemResult := { id_State : string; id_Response : string }.

#[export] Instance Scope_eq : EqDecision Scope. Proof. solve_decision. Defined.
#[export] Instance IdemResult_eq : EqDecision IdemResult. Proof. solve_decision. Defined.

Class Provider (S : Type) := {
  ValidateToken (token : string) : S → result Scope * S;
  CheckSignPermission (tenantID keyID : string) : S → result bool * S;
  CheckTenantChainPolicy (tenantID chain network operation amount : string) : S → result () * S;
  Audit (tenantID action requestID detail : string) : S → result () * S;
  Reserve (tenantID requestID operation requestHash : string) : S → result IdemResult * S;
  Commit (tenantID requestID operation response : string) : S → result () * S;
  Reject (tenantID requestID operation reason : string) : S → result () * S;
}.

(** ** Without a database *)

Module Noop.
Definition NoopProvider (S : Type) : Provider S := {|
  ValidateToken _ s := (Err (Errorf "auth provider not configured"), s);
  CheckSignPermission _ _ s := (Err (Errorf "auth provider not configured"), s);
  CheckTenantChainPolicy _ _ _ _ _ s := (Err (Errorf "policy provider not configured"), s);
  Audit _ _ _ _ s := (Ok (), s);
  Reserve _ _ _ _ s := (Err (Errorf "idempotency provider not configured"), s);
  Commit _ _ _ _ s := (Ok (), s);
  Reject _ _ _ _ s := (Ok (), s);
|}.
#[export] Existing Instance NoopProvider.
End Noop.

(** ** Tables *)

Record token_row := {
  tk_tenant_id : string;
  tk_can_withdraw : bool;
  tk_can_deposit : bool;
  tk_can_sweep : bool;
  tk_status : string;
}.

Record idem_row := {
  iq_request_hash : string;
  iq_status : string;
  iq_response : string;
}.
#[export] Instance idem_row_rebuild : Rebuild idem_row :=
  λ r, {| iq_request_hash := iq_request_hash r; iq_status := iq_status r; iq_response := iq_response r |}.
#[export] Instance idem_row_eq : EqDecision idem_row. Proof. solve_decision. Defined.

Record policy_row := {
  po_id : Z;
  po_allow_deposit : bool;
  po_allow_withdraw : bool;
  po_allow_sweep : bool;
  po_max_withdraw_amount : string;
  po_priority : Z;
  po_status : string;
}.

Record audit_row := { au_tenant_id : string; au_action : string; au_request_id : string; au_detail : string }.

(** Tenant, request id and operation. *)
Abbreviation idem_key := (string * string * string)%type.
(** Tenant, chain and network, each possibly ["*"]. *)
Abbreviation policy_key := (string * string * string)%type.

(** The database: every table by its unique key, the audit log newest first. *)
Record security := {
  sy_api_tokens : gmap string token_row;
  sy_tenant_keys : gmap (string * string) string;
  sy_idem_requests : gmap idem_key idem_row;
  sy_tenant_chain_policies : gmap policy_key policy_row;
  sy_audit_logs : list audit_row;
}.
#[export] Instance security_rebuild : Rebuild security :=
  λ s, {| sy_api_tokens := sy_api_tokens s; sy_tenant_keys := sy_tenant_keys s;
          sy_idem_requests := sy_idem_requests s; sy_tenant_chain_policies := sy_tenant_chain_policies s;
          sy_audit_logs := sy_audit_logs s |}.

(** ** The statements *)

Module Postgres.
Definition ValidateToken (token : string) (s : security) : result Scope :=
  match sy_api_tokens s !! token with
  | Some r =>
      if decide (tk_status r = "ACTIVE") then
        Ok {| sc_TenantID := tk_tenant_id r; sc_CanWithdraw := tk_can_withdraw r; sc_CanDeposit := tk_can_deposit r;
              sc_CanSweep := tk_can_sweep r |}
      else Err ErrNoRows
  | None => Err ErrNoRows
  end.

Definition CheckSignPermission (tenantID keyID : string) (s : security) : result bool :=
  Ok (bool_decide (sy_tenant_keys s !! (tenantID, keyID) = Some "ACTIVE")).

(** *** Chain policies *)

(** The [WHERE] clause. *)
Definition policy_applies (tenantID chain network : string) (e : policy_key * policy_row) : Prop :=
  po_status (snd e) = "ACTIVE" ∧ (fst e).1.1 ∈ [tenantID; "*"] ∧ (fst e).1.2 ∈ [chain; "*"] ∧ (fst e).2 ∈ [network; "*"].
#[export] Instance policy_applies_dec t c n e : Decision (policy_applies t c n e).
Proof. unfold policy_applies. apply _. Defined.

(** The [ORDER BY] columns, all descending. *)
Definition policy_rank (tenantID chain network : string) (e : policy_key * policy_row) : list Z :=
  [ (if decide ((fst e).1.1 = tenantID) then 1 else 0); (if decide ((fst e).1.2 = chain) then 1 else 0);
    (if decide ((fst e).2 = network) then 1 else 0); po_priority (snd e); po_id (snd e) ].

(** Lexicographic comparison of rows of columns. *)
Fixpoint lex_ge (l k : list Z) : bool :=
  match l, k with
  | x :: l, y :: k => if decide (x = y) then lex_ge l k else bool_decide (y < x)
  | [], _ :: _ => false
  | _, [] => true
  end.

Definition policy_order (tenantID chain network : string) (e f : policy_key * policy_row) : Prop :=
  lex_ge (policy_rank tenantID chain network e) (policy_rank tenantID chain network f).
#[export] Instance policy_order_dec t c n : RelDecision (policy_order t c n).
Proof. intros e f. unfold policy_order. apply _. Defined.

(** The [SELECT ... LIMIT 1]. *)
Definition selectPolicy (tenantID chain network : string) (s : security) : option policy_row :=
  snd <$> head (merge_sort (policy_order tenantID chain network)
                  (filter (policy_applies tenantID chain network) (map_to_list (sy_tenant_chain_policies s)))).

Definition checkWithdrawLimit (amount maxWithdraw : string) : result () :=
  if decide (TrimSpace amount ≠ "" ∧ TrimSpace maxWithdraw ≠ "" ∧ TrimSpace maxWithdraw ≠ "0") then
    amt ← from_option_err (Errorf "invalid withdraw amount") (SetString10 (TrimSpace amount));
    maxAmt ← from_option_err (Errorf "invalid policy max_withdraw_amount") (SetString10 (TrimSpace maxWithdraw));
    if decide (amt > maxAmt) then Err (Errorf "withdraw amount exceeds tenant chain policy") else Ok ()
  else Ok ().

Definition CheckTenantChainPolicy (tenantID chain network operation amount : string) (s : security) : result () :=
  let tenantID := TrimSpace tenantID in
  let chain := ToLower (TrimSpace chain) in
  let network := ToLower (TrimSpace network) in
  let op := ToLower (TrimSpace operation) in
  if decide (tenantID = "" ∨ chain = "" ∨ network = "") then Err (Errorf "tenant_id/chain/network are required") else
  if decide (op = "") then Err (Errorf "operation is required") else
  match selectPolicy tenantID chain network s with
  | None => Err (Errorf "tenant chain policy denied")
  | Some p =>
      if decide (op = "deposit") then
        if po_allow_deposit p then Ok () else Err (Errorf "deposit not allowed on chain/network")
      else if decide (op = "withdraw") then
        if po_allow_withdraw p then checkWithdrawLimit amount (po_max_withdraw_amount p)
        else Err (Errorf "withdraw not allowed on chain/network")
      else if decide (op = "sweep") then
        if po_allow_sweep p then Ok () else Err (Errorf "sweep not allowed on chain/network")
      else Err (Errorf "unsupported operation")
  end.

Definition Audit (tenantID action requestID detail : string) (s : security) : security :=
  s <| sy_audit_logs ::= cons {| au_tenant_id := tenantID; au_action := action; au_request_id := requestID;
                                 au_detail := detail |} |>.

(** *** Idempotency *)

Definition pendingRow (requestHash : string) : idem_row :=
  {| iq_request_hash := requestHash; iq_status := "PENDING"; iq_response := "" |}.

(** What a reservation answers for the row that is there now. *)
Definition reservation (requestHash : string) (r : idem_row) : IdemResult :=
  if decide (iq_request_hash r ≠ requestHash) then {| id_State := "CONFLICT"; id_Response := "" |}
  else if decide (iq_status r = "SUCCESS") then {| id_State := "REPLAY"; id_Response := iq_response r |}
  else if decide (iq_status r = "FAILED") then {| id_State := "REJECTED"; id_Response := iq_response r |}
  else {| id_State := "NEW"; id_Response := "" |}.

(** [INSERT ... ON CONFLICT DO UPDATE SET updated_at ... RETURNING]. *)
Definition Reserve (tenantID requestID operation requestHash : string) (s : security) : IdemResult * security :=
  let k := (tenantID, requestID, operation) in
  match sy_idem_requests s !! k with
  | Some r => (reservation requestHash r, s)
  | None => (reservation requestHash (pendingRow requestHash),
             s <| sy_idem_requests ::= <[k := pendingRow requestHash]> |>)
  end.

(** [UPDATE idem_requests SET status=..., response=...]. *)
Definition settle (status : string) (tenantID requestID operation response : string) (s : security) : security :=
  s <| sy_idem_requests ::=
       alter (λ r, r <| iq_status := status |> <| iq_response := response |>) (tenantID, requestID, operation) |>.
Definition Commit := settle "SUCCESS".
Definition Reject := settle "FAILED".
End Postgres.

(** ** The provider with a database *)

(** The connection: every statement is executed or fails. *)
Class Connection (C : Type) := statement : C → result () * C.

Section postgres.
Context {C : Type} `{!Connection C}.

Definition query {A} (q : security → result A) (w : security * C) : result A * (security * C) :=
  let '(r, c) := statement (w.2) in (_ ← r; q w.1, (w.1, c)).
Definition execute {A} (f : security → A * security) (w : security * C) : result A * (security * C) :=
  let '(r, c) := statement (w.2) in
  match r with
  | Ok _ => (Ok (f w.1).1, ((f w.1).2, c))
  | Err e => (Err e, (w.1, c))
  end.
Definition execute_ (f : security → security) : security * C → result () * (security * C) := execute (λ s, ((), f s)).

Definition postgres_provider : Provider (security * C) := {|
  ValidateToken t := query (Postgres.ValidateToken t);
  CheckSignPermission t k := query (Postgres.CheckSignPermission t k);
  CheckTenantChainPolicy t c n o a := query (Postgres.CheckTenantChainPolicy t c n o a);
  Audit t a r d := execute_ (Postgres.Audit t a r d);
  Reserve t r o h := execute (Postgres.Reserve t r o h);
  Commit t r o resp := execute_ (Postgres.Commit t r o resp);
  Reject t r o reason := execute_ (Postgres.Reject t r o reason);
|}.
#[export] Existing Instance postgres_provider.
End postgres.
