(* ===== verification/ApiProxy.v ===== *)
(** * api-gateway: the proxy in front of wallet-core

    [internal/transport/http]: every route is [proxy] with a [routeSpec].  A
    request is what [net/http] hands to the handler ([None] for a body that
    could not be read); the proxy is a program over its security provider, its
    HTTP client and its source of request ids. *)
From S2P Require Import Prelude GoStrings GoNumbers GoJson KeyRef Programs ApiSecurity.

Record http_request := {
  rq_Method : string;
  rq_Path : string;
  rq_RawQuery : string;
  rq_Authorization : string;
  rq_RequestID : string;
  rq_Body : option string;
}.

(** A response: its status, the headers the handler sets and its body.  An
    empty content type is left to [net/http]. *)
Record http_response := {
  rp_Status : Z;
  rp_RequestID : string;
  rp_ContentType : string;
  rp_Body : string;
}.

(** The request of [forward]. *)
Record upstream_request := {
  ur_Method : string;
  ur_URL : string;
  ur_ContentType : string;
  ur_Authorization : string;
  ur_RequestID : string;
  ur_Body : string;
}.

(** The answer of wallet-core. *)
Record upstream_response := { us_StatusCode : Z; us_Body : string; us_ContentType : string }.

Inductive gateway_call : Type → Type :=
  | ValidateTokenCall (token : string) : gateway_call (result Scope)
  | CheckSignPermissionCall (tenantID keyID : string) : gateway_call (result bool)
  | CheckPolicyCall (tenantID chain network operation amount : string) : gateway_call (result ())
  | AuditCall (tenantID action requestID detail : string) : gateway_call (result ())
  | ReserveCall (tenantID requestID operation requestHash : string) : gateway_call (result IdemResult)
  | CommitCall (tenantID requestID operation response : string) : gateway_call (result ())
  | RejectCall (tenantID requestID operation reason : string) : gateway_call (result ())
  | RandomIDCall (prefix : string) : gateway_call string
  | DoCall (req : upstream_request) : gateway_call (result upstream_response).

(** ** Routes *)

Record routeSpec := {
  rt_Method : string;
  rt_Action : string;
  rt_Permission : string;
  rt_IdempotencyOp : string;
  rt_RequireTenant : bool;
  rt_RequireChainNetwork : bool;
  rt_CheckSignPermission : bool;
}.

Definition ProxyWithdraw : string * routeSpec := ("/v1/withdraw",
  {| rt_Method := "POST"; rt_Action := "withdraw"; rt_Permission := "withdraw"; rt_IdempotencyOp := "withdraw";
     rt_RequireTenant := true; rt_RequireChainNetwork := true; rt_CheckSignPermission := true |}).
Definition ProxyDepositNotify : string * routeSpec := ("/v1/deposit/notify",
  {| rt_Method := "POST"; rt_Action := "deposit_notify"; rt_Permission := "deposit"; rt_IdempotencyOp := "deposit_notify";
     rt_RequireTenant := true; rt_RequireChainNetwork := true; rt_CheckSignPermission := false |}).
Definition ProxyWithdrawOnchainNotify : string * routeSpec := ("/v1/withdraw/onchain/notify",
  {| rt_Method := "POST"; rt_Action := "withdraw_onchain_notify"; rt_Permission := "withdraw"; rt_IdempotencyOp := "";
     rt_RequireTenant := true; rt_RequireChainNetwork := false; rt_CheckSignPermission := false |}).
Definition ProxySweepRun : string * routeSpec := ("/v1/sweep/run",
  {| rt_Method := "POST"; rt_Action := "sweep_run"; rt_Permission := "sweep"; rt_IdempotencyOp := "sweep_run";
     rt_RequireTenant := true; rt_RequireChainNetwork := true; rt_CheckSignPermission := false |}).
Definition ProxySweepOnchainNotify : string * routeSpec := ("/v1/sweep/onchain/notify",
  {| rt_Method := "POST"; rt_Action := "sweep_onchain_notify"; rt_Permission := "sweep"; rt_IdempotencyOp := "";
     rt_RequireTenant := true; rt_RequireChainNetwork := false; rt_CheckSignPermission := false |}).
Definition ProxyTreasuryTransfer : string * routeSpec := ("/v1/treasury/transfer",
  {| rt_Method := "POST"; rt_Action := "treasury_transfer"; rt_Permission := "sweep"; rt_IdempotencyOp := "treasury_transfer";
     rt_RequireTenant := true; rt_RequireChainNetwork := true; rt_CheckSignPermission := false |}).
Definition ProxyTreasuryTransferOnchainNotify : string * routeSpec := ("/v1/treasury/onchain/notify",
  {| rt_Method := "POST"; rt_Action := "treasury_transfer_onchain_notify"; rt_Permission := "sweep"; rt_IdempotencyOp := "";
     rt_RequireTenant := true; rt_RequireChainNetwork := false; rt_CheckSignPermission := false |}).
Definition ProxyTreasuryTransferStatus : string * routeSpec := ("/v1/treasury/transfer/status",
  {| rt_Method := "GET"; rt_Action := "treasury_transfer_status"; rt_Permission := "read"; rt_IdempotencyOp := "";
     rt_RequireTenant := true; rt_RequireChainNetwork := false; rt_CheckSignPermission := false |}).
Definition ProxyTreasuryWaterline : string * routeSpec := ("/v1/treasury/waterline",
  {| rt_Method := "GET"; rt_Action := "treasury_waterline"; rt_Permission := "read"; rt_IdempotencyOp := "";
     rt_RequireTenant := true; rt_RequireChainNetwork := false; rt_CheckSignPermission := false |}).
Definition ProxyWithdrawStatus : string * routeSpec := ("/v1/withdraw/status",
  {| rt_Method := "GET"; rt_Action := "withdraw_status"; rt_Permission := "read"; rt_IdempotencyOp := "";
     rt_RequireTenant := true; rt_RequireChainNetwork := false; rt_CheckSignPermission := false |}).
Definition ProxyBalance : string * routeSpec := ("/v1/balance",
  {| rt_Method := "GET"; rt_Action := "balance"; rt_Permission := "read"; rt_IdempotencyOp := "";
     rt_RequireTenant := true; rt_RequireChainNetwork := false; rt_CheckSignPermission := false |}).
Definition ProxyCreateAddress : string * routeSpec := ("/v1/address/create",
  {| rt_Method := "POST"; rt_Action := "address_create"; rt_Permission := "deposit"; rt_IdempotencyOp := "";
     rt_RequireTenant := true; rt_RequireChainNetwork := true; rt_CheckSignPermission := false |}).
Definition ProxyAccountUpsert : string * routeSpec := ("/v1/account/upsert",
  {| rt_Method := "POST"; rt_Action := "account_upsert"; rt_Permission := "deposit"; rt_IdempotencyOp := "";
     rt_RequireTenant := true; rt_RequireChainNetwork := false; rt_CheckSignPermission := false |}).
Definition ProxyAccountGet : string * routeSpec := ("/v1/account/get",
  {| rt_Method := "GET"; rt_Action := "account_get"; rt_Permission := "read"; rt_IdempotencyOp := "";
     rt_RequireTenant := true; rt_RequireChainNetwork := false; rt_CheckSignPermission := false |}).
Definition ProxyAccountList : string * routeSpec := ("/v1/account/list",
  {| rt_Method := "GET"; rt_Action := "account_list"; rt_Permission := "read"; rt_IdempotencyOp := "";
     rt_RequireTenant := true; rt_RequireChainNetwork := false; rt_CheckSignPermission := false |}).
Definition ProxyAccountAddresses : string * routeSpec := ("/v1/account/addresses",
  {| rt_Method := "GET"; rt_Action := "account_addresses"; rt_Permission := "read"; rt_IdempotencyOp := "";
     rt_RequireTenant := true; rt_RequireChainNetwork := false; rt_CheckSignPermission := false |}).
Definition ProxyAccountAssets : string * routeSpec := ("/v1/account/assets",
  {| rt_Method := "GET"; rt_Action := "account_assets"; rt_Permission := "read"; rt_IdempotencyOp := "";
     rt_RequireTenant := true; rt_RequireChainNetwork := false; rt_CheckSignPermission := false |}).

(** [NewMux]: the path of the request and the path it is forwarded to are the
    same on every route. *)
Definition NewMux : list (string * routeSpec) := [
  ProxyWithdraw; ProxyWithdrawStatus; ProxyWithdrawOnchainNotify; ProxyDepositNotify; ProxySweepRun;
  ProxySweepOnchainNotify; ProxyTreasuryTransfer; ProxyTreasuryTransferStatus; ProxyTreasuryTransferOnchainNotify;
  ProxyTreasuryWaterline; ProxyBalance; ProxyCreateAddress; ProxyAccountUpsert; ProxyAccountGet; ProxyAccountList;
  ProxyAccountAddresses; ProxyAccountAssets ].

(** ** Pieces of a request *)

Definition maxRequestBodyBytes : Z := 1024 * 1024.

Definition readBody (r : http_request) : option string :=
  body ← rq_Body r;
  if decide (Z.of_nat (String.length body) > maxRequestBodyBytes) then None else Some body.

Record requestContext := { rx_TenantID : string; rx_Chain : string; rx_Network : string; rx_Amount : string }.

Definition contextOf (tenantID chain network amount : string) : requestContext :=
  {| rx_TenantID := TrimSpace tenantID; rx_Chain := ToLower (TrimSpace chain);
     rx_Network := ToLower (TrimSpace network); rx_Amount := TrimSpace amount |}.

Definition contextFields (m : list (string * doc)) : option requestContext :=
  t ← string_field "tenant_id" m; c ← string_field "chain" m; n ← string_field "network" m; a ← string_field "amount" m;
  Some (contextOf t c n a).

Definition parseRequestContext (r : http_request) (body : string) : option requestContext :=
  if decide (rq_Method r = "GET") then
    let get := QueryGet (rq_RawQuery r) in
    Some (contextOf (get "tenant_id") (get "chain") (get "network") (get "amount"))
  else if decide (body = "") then Some (contextOf "" "" "" "")
  else Unmarshal contextFields body.

Definition bearerToken (v : string) : string :=
  let v := TrimSpace v in
  if decide (v = "") then "" else
  if decide (" "%char ∈ to_bytes v) then
    let '(scheme, rest) := Cut v " " in
    if EqualFold scheme "Bearer" then TrimSpace rest else v
  else v.

Definition requestIDFrom (headerValue : string) : string := TrimSpace headerValue.

(** The time and the random part are the source's. *)
Definition generateRequestID (prefix : string) : program gateway_call string :=
  let p := TrimSpace prefix in ask (RandomIDCall (if decide (p = "") then "req" else p)).

Definition hashRequest `{Sha256} (body : string) : string := hexEncode (sha256 (to_bytes body)).

(** ** Steps that can end the request *)

(** [http.Error], or going on. *)
Abbreviation step A := (program gateway_call ((Z * string) + A)).
Definition bind_step {A B} (p : step A) (f : A → step B) : step B :=
  r ← p; match r with inl e => Done (inl e) | inr a => f a end.
Notation "x ⤆ p ; q" := (bind_step p (λ x, q))
  (at level 20, p at level 100, q at level 200, right associativity).
Definition refuse {A} (status : Z) (msg : string) : step A := Done (inl (status, msg)).
Definition proceed {A} (a : A) : step A := Done (inr a).
Definition require (ok : bool) (status : Z) (msg : string) : step () := if ok then proceed () else refuse status msg.
Definition expect {A} (status : Z) (msg : string) (o : option A) : step A :=
  match o with Some a => proceed a | None => refuse status msg end.

Definition permits (permission : string) (scope : Scope) : (Z * string) + Scope :=
  if decide (permission = "withdraw") then
    if sc_CanWithdraw scope then inr scope else inl (403, "withdraw not allowed")
  else if decide (permission = "deposit") then
    if sc_CanDeposit scope then inr scope else inl (403, "deposit not allowed")
  else if decide (permission = "sweep") then
    if sc_CanSweep scope then inr scope else inl (403, "sweep not allowed")
  else if decide (permission = "") then inl (403, "permission not specified")
  else inr scope.

Definition authorize (r : http_request) (tenantID permission : string) : step Scope :=
  let token := bearerToken (rq_Authorization r) in
  if decide (TrimSpace token = "") then refuse 401 "missing token" else
  scope ← ask (ValidateTokenCall token);
  match scope with
  | Err _ => refuse 401 "invalid token"
  | Ok scope =>
      if decide (TrimSpace tenantID ≠ "" ∧ sc_TenantID scope ≠ "*" ∧ sc_TenantID scope ≠ tenantID)
      then refuse 403 "tenant mismatch"
      else Done (permits permission scope)
  end.

Definition keyFields (m : list (string * doc)) : option (list string) :=
  k ← string_field "key_id" m; ks ← slice_field "" into_string "key_ids" m;
  Some (List.filter (λ k, bool_decide (k ≠ "")) (List.map TrimSpace (k :: ks))).

Fixpoint checkKeys (tenantID : string) (seen keys : list string) : step () :=
  match keys with
  | [] => proceed ()
  | key :: keys =>
      if decide (key ∈ seen) then checkKeys tenantID seen keys else
      allowed ← ask (CheckSignPermissionCall tenantID key);
      match allowed with
      | Ok true => checkKeys tenantID (key :: seen) keys
      | _ => refuse 403 "permission denied"
      end
  end.

Definition checkSignPermission (tenantID body : string) : step () :=
  keys ⤆ expect 403 "permission denied" (Unmarshal keyFields body);
  checkKeys tenantID [] keys.

Definition checkPolicy (tenantID chain network operation amount : string) : step () :=
  if decide (TrimSpace chain ≠ "" ∧ TrimSpace network ≠ "") then
    err ← ask (CheckPolicyCall tenantID chain network operation amount);
    require (is_ok err) 403 "chain policy denied"
  else proceed ().

(** ** Forwarding *)

Record ProxyHandler := { ph_WalletCoreAddr : string }.

(** [strings.TrimRight(s, "/")]. *)
Definition trimSlashes (s : string) : string :=
  let fix drop_slashes (l : bytes) := match l with a :: l' => if Ascii.eqb a "/" then drop_slashes l' else l | [] => [] end in
  of_bytes (List.rev (drop_slashes (List.rev (to_bytes s)))).

(** The client's timeout is part of what answers its calls. *)
Definition NewProxyHandler (walletCoreAddr : string) : ProxyHandler := {| ph_WalletCoreAddr := trimSlashes walletCoreAddr |}.

Definition upstreamRequest (h : ProxyHandler) (r : http_request) (upstreamPath requestID body : string) : upstream_request := {|
  ur_Method := rq_Method r;
  ur_URL := ph_WalletCoreAddr h +:+ upstreamPath
            +:+ (if decide (rq_Method r = "GET" ∧ rq_RawQuery r ≠ "") then "?" +:+ rq_RawQuery r else "");
  ur_ContentType := if decide (rq_Method r = "POST") then "application/json" else "";
  ur_Authorization := rq_Authorization r;
  ur_RequestID := requestID;
  ur_Body := body |}.

(** [http.Error]. *)
Definition httpError (requestID : string) (e : Z * string) : http_response :=
  {| rp_Status := fst e; rp_RequestID := requestID; rp_ContentType := "text/plain; charset=utf-8";
     rp_Body := snd e +:+ String (ascii_of_nat 10) "" |}.

(** The end of the reservation, by the status of the answer. *)
Definition finishReservation (op tenantID requestID : string) (resp : upstream_response) : program gateway_call () :=
  if decide (200 ≤ us_StatusCode resp < 300) then
    _ ← ask (CommitCall tenantID requestID op (us_Body resp)); Done ()
  else if decide (400 ≤ us_StatusCode resp < 500) then
    _ ← ask (RejectCall tenantID requestID op ("upstream status=" +:+ BigString (us_StatusCode resp))); Done ()
  else Done ().

Section proxy.
Context `{Sha256}.
Variable h : ProxyHandler.

(** Everything before the idempotency store: the context of a request that may
    be forwarded. *)
Definition admit_request (r : http_request) (body : string) (spec : routeSpec) : step requestContext :=
  parsed ⤆ expect 400 "invalid json" (parseRequestContext r body);
  _ ⤆ require (negb (rt_RequireTenant spec && bool_decide (TrimSpace (rx_TenantID parsed) = ""))) 400 "tenant_id is required";
  _ ⤆ authorize r (rx_TenantID parsed) (rt_Permission spec);
  _ ⤆ (if rt_CheckSignPermission spec then checkSignPermission (rx_TenantID parsed) body else proceed ());
  _ ⤆ require (negb (rt_RequireChainNetwork spec
                     && bool_decide (TrimSpace (rx_Chain parsed) = "" ∨ TrimSpace (rx_Network parsed) = "")))
        400 "chain and network are required";
  _ ⤆ checkPolicy (rx_TenantID parsed) (rx_Chain parsed) (rx_Network parsed) (rt_Permission spec) (rx_Amount parsed);
  proceed parsed.

(** The reservation: nothing for a route without an operation, an answer at
    once ([inl]) or the state to go on with. *)
Definition reserve (tenantID requestID body : string) (spec : routeSpec) : step (http_response + string) :=
  if decide (rt_IdempotencyOp spec = "") then proceed (inr "NONE") else
  idem ← ask (ReserveCall tenantID requestID (rt_IdempotencyOp spec) (hashRequest body));
  match idem with
  | Err _ => refuse 500 "idempotency unavailable"
  | Ok idem =>
      if decide (id_State idem = "REPLAY") then
        proceed (inl {| rp_Status := 200; rp_RequestID := requestID; rp_ContentType := ""; rp_Body := id_Response idem |})
      else if decide (id_State idem = "CONFLICT") then refuse 409 "idempotency conflict"
      else if decide (id_State idem = "REJECTED") then refuse 409 "previous request failed"
      else proceed (inr (id_State idem))
  end.

Definition forward (r : http_request) (upstreamPath requestID body : string) : step upstream_response :=
  resp ← ask (DoCall (upstreamRequest h r upstreamPath requestID body));
  match resp with Ok resp => proceed resp | Err _ => refuse 502 "wallet-core unavailable" end.

(** What follows the answer of wallet-core. *)
Definition record_answer (tenantID requestID idemState upstreamPath : string) (spec : routeSpec) (resp : upstream_response)
    : program gateway_call () :=
  _ ← (if decide (rt_IdempotencyOp spec ≠ "" ∧ idemState = "NEW")
       then finishReservation (rt_IdempotencyOp spec) tenantID requestID resp else Done ());
  if decide (TrimSpace tenantID ≠ "") then
    _ ← ask (AuditCall tenantID (rt_Action spec) requestID
               ("path=" +:+ upstreamPath +:+ " status=" +:+ BigString (us_StatusCode resp))); Done ()
  else Done ().

Definition relayed (requestID : string) (resp : upstream_response) : http_response :=
  {| rp_Status := us_StatusCode resp; rp_RequestID := requestID; rp_ContentType := us_ContentType resp;
     rp_Body := us_Body resp |}.

Definition proxied (r : http_request) (requestID body upstreamPath : string) (spec : routeSpec) : step http_response :=
  parsed ⤆ admit_request r body spec;
  let tenantID := rx_TenantID parsed in
  idem ⤆ reserve tenantID requestID body spec;
  match idem with
  | inl replayed => proceed replayed
  | inr idemState =>
      resp ⤆ forward r upstreamPath requestID body;
      _ ← record_answer tenantID requestID idemState upstreamPath spec resp;
      proceed (relayed requestID resp)
  end.

(** The body the proxy goes on with. *)
Definition body_of (r : http_request) (spec : routeSpec) : option string :=
  if decide (rt_Method spec = "POST") then readBody r else Some "".

Definition proxy (r : http_request) (upstreamPath : string) (spec : routeSpec) : program gateway_call http_response :=
  if decide (rq_Method r ≠ rt_Method spec) then Done (httpError "" (405, "method not allowed")) else
  let given := requestIDFrom (rq_RequestID r) in
  requestID ← (if decide (given = "") then generateRequestID (rt_Action spec) else Done given);
  match body_of r spec with
  | None => Done (httpError requestID (400, "bad request"))
  | Some body =>
      answered ← proxied r requestID body upstreamPath spec;
      Done (match answered with inl e => httpError requestID e | inr resp => resp end)
  end.

Definition Health : http_response :=
  {| rp_Status := 200; rp_RequestID := ""; rp_ContentType := ""; rp_Body := "ok" |}.

(** The mux, for a cleaned path: [/healthz] answers by itself, any other path
    that is not a route is [http.NotFound]. *)
Definition serve (r : http_request) : program gateway_call http_response :=
  if decide (rq_Path r = "/healthz") then Done Health else
  match List.find (λ route, bool_decide (fst route = rq_Path r)) NewMux with
  | Some (path, spec) => proxy r path spec
  | None => Done (httpError "" (404, "404 page not found"))
  end.
End proxy.
