(* ===== verification/CoreServer.v ===== *)
(** * wallet-core's HTTP server

    [transport/http/router.go] and the JSON around the handlers: a request's
    path chooses the handler, its body is decoded into the handler's struct
    ([decodeJSONBody] of [handler_auth.go], with the tags of
    [handler_types.go] and [internal/ports]) and what the handler answers is
    encoded.  Requests and responses are what [net/http] passes. *)
From S2P Require Import Prelude GoStrings GoNumbers GoJson Ports Calls Orchestrator Handlers.
From S2P Require Import TreasuryHandlers HDDerive AddressHandler.

(** ** Decoding requests *)

Definition zero_vin : vin := {| hvin_Hash := ""; hvin_Index := 0; hvin_Amount := 0; hvin_Address := "" |}.
Definition zero_vout : vout := {| hvout_Address := ""; hvout_Amount := 0; hvout_Index := 0 |}.

Definition vin_members (cur : vin) (m : list (string * doc)) : option vin :=
  h ← decode_all into_string (hvin_Hash cur) (members_of "hash" m);
  i ← decode_all into_uint32 (hvin_Index cur) (members_of "index" m);
  a ← decode_all into_int64 (hvin_Amount cur) (members_of "amount" m);
  ad ← decode_all into_string (hvin_Address cur) (members_of "address" m);
  Some {| hvin_Hash := h; hvin_Index := i; hvin_Amount := a; hvin_Address := ad |}.

Definition vout_members (cur : vout) (m : list (string * doc)) : option vout :=
  ad ← decode_all into_string (hvout_Address cur) (members_of "address" m);
  a ← decode_all into_int64 (hvout_Amount cur) (members_of "amount" m);
  i ← decode_all into_uint32 (hvout_Index cur) (members_of "index" m);
  Some {| hvout_Address := ad; hvout_Amount := a; hvout_Index := i |}.

(** A pointer to a bool. *)
Definition into_bool_pointer (cur : option bool) (d : doc) : option (option bool) :=
  match d with DBool b => Some (Some b) | DNull => Some None | _ => None end.
Definition bool_pointer_field : string → list (string * doc) → option (option bool) := decode_field into_bool_pointer None.

Definition CreateWithdrawRequest_fields (m : list (string * doc)) : option CreateWithdrawRequest :=
  TenantID ← string_field "tenant_id" m;
  AccountID ← string_field "account_id" m;
  OrderID ← string_field "order_id" m;
  KeyID ← string_field "key_id" m;
  KeyIDs ← slice_field "" into_string "key_ids" m;
  SignType ← string_field "sign_type" m;
  Chain ← string_field "chain" m;
  Network ← string_field "network" m;
  Coin ← string_field "coin" m;
  From ← string_field "from" m;
  To ← string_field "to" m;
  Amount ← string_field "amount" m;
  ContractAddress ← string_field "contract_address" m;
  AmountUnit ← string_field "amount_unit" m;
  TokenDecimals ← uint32_field "token_decimals" m;
  Base64Tx ← string_field "base64_tx" m;
  Fee ← string_field "fee" m;
  Vin ← slice_field zero_vin (into_struct vin_members) "vin" m;
  Vout ← slice_field zero_vout (into_struct vout_members) "vout" m;
  Some {| cwq_TenantID := TenantID; cwq_AccountID := AccountID; cwq_OrderID := OrderID; cwq_KeyID := KeyID;
    cwq_KeyIDs := KeyIDs; cwq_SignType := SignType; cwq_Chain := Chain; cwq_Network := Network; cwq_Coin := Coin;
    cwq_From := From; cwq_To := To; cwq_Amount := Amount; cwq_ContractAddress := ContractAddress; cwq_AmountUnit :=
    AmountUnit; cwq_TokenDecimals := TokenDecimals; cwq_Base64Tx := Base64Tx; cwq_Fee := Fee; cwq_Vin := Vin;
    cwq_Vout := Vout |}.

Definition DepositNotifyRequest_fields (m : list (string * doc)) : option DepositNotifyRequest :=
  TenantID ← string_field "tenant_id" m;
  AccountID ← string_field "account_id" m;
  OrderID ← string_field "order_id" m;
  Chain ← string_field "chain" m;
  Network ← string_field "network" m;
  Coin ← string_field "coin" m;
  Amount ← string_field "amount" m;
  TxHash ← string_field "tx_hash" m;
  FromAddress ← string_field "from_address" m;
  ToAddress ← string_field "to_address" m;
  Confirmations ← int64_field "confirmations" m;
  RequiredConfs ← int64_field "required_confirmations" m;
  UnlockConfs ← int64_field "unlock_confirmations" m;
  ScanStatus ← string_field "scan_status" m;
  Status ← string_field "status" m;
  Some {| dnq_TenantID := TenantID; dnq_AccountID := AccountID; dnq_OrderID := OrderID; dnq_Chain := Chain;
    dnq_Network := Network; dnq_Coin := Coin; dnq_Amount := Amount; dnq_TxHash := TxHash; dnq_FromAddress :=
    FromAddress; dnq_ToAddress := ToAddress; dnq_Confirmations := Confirmations; dnq_RequiredConfs := RequiredConfs;
    dnq_UnlockConfs := UnlockConfs; dnq_ScanStatus := ScanStatus; dnq_Status := Status |}.

Definition SweepRunRequest_fields (m : list (string * doc)) : option SweepRunRequest :=
  TenantID ← string_field "tenant_id" m;
  SweepOrderID ← string_field "sweep_order_id" m;
  FromAccountID ← string_field "from_account_id" m;
  TreasuryAccountID ← string_field "treasury_account_id" m;
  ColdAccountID ← string_field "cold_account_id" m;
  HotBalanceCap ← string_field "hot_balance_cap" m;
  Chain ← string_field "chain" m;
  Network ← string_field "network" m;
  Asset ← string_field "asset" m;
  Amount ← string_field "amount" m;
  Some {| srq_TenantID := TenantID; srq_SweepOrderID := SweepOrderID; srq_FromAccountID := FromAccountID;
    srq_TreasuryAccountID := TreasuryAccountID; srq_ColdAccountID := ColdAccountID; srq_HotBalanceCap :=
    HotBalanceCap; srq_Chain := Chain; srq_Network := Network; srq_Asset := Asset; srq_Amount := Amount |}.

Definition WithdrawOnchainNotifyRequest_fields (m : list (string * doc)) : option WithdrawOnchainNotifyRequest :=
  TenantID ← string_field "tenant_id" m;
  OrderID ← string_field "order_id" m;
  TxHash ← string_field "tx_hash" m;
  Status ← string_field "status" m;
  Reason ← string_field "reason" m;
  Confirmations ← int64_field "confirmations" m;
  RequiredConfs ← int64_field "required_confirmations" m;
  Some {| wnq_TenantID := TenantID; wnq_OrderID := OrderID; wnq_TxHash := TxHash; wnq_Status := Status; wnq_Reason
    := Reason; wnq_Confirmations := Confirmations; wnq_RequiredConfs := RequiredConfs |}.

Definition SweepOnchainNotifyRequest_fields (m : list (string * doc)) : option SweepOnchainNotifyRequest :=
  TenantID ← string_field "tenant_id" m;
  SweepOrderID ← string_field "sweep_order_id" m;
  TxHash ← string_field "tx_hash" m;
  Status ← string_field "status" m;
  Reason ← string_field "reason" m;
  Confirmations ← int64_field "confirmations" m;
  RequiredConfs ← int64_field "required_confirmations" m;
  Some {| snq_TenantID := TenantID; snq_SweepOrderID := SweepOrderID; snq_TxHash := TxHash; snq_Status := Status;
    snq_Reason := Reason; snq_Confirmations := Confirmations; snq_RequiredConfs := RequiredConfs |}.

Definition TreasuryTransferRequest_fields (m : list (string * doc)) : option TreasuryTransferRequest :=
  TenantID ← string_field "tenant_id" m;
  TransferOrderID ← string_field "transfer_order_id" m;
  FromAccountID ← string_field "from_account_id" m;
  ToAccountID ← string_field "to_account_id" m;
  Chain ← string_field "chain" m;
  Network ← string_field "network" m;
  Asset ← string_field "asset" m;
  Amount ← string_field "amount" m;
  SourceTier ← string_field "source_tier" m;
  DestinationTier ← string_field "destination_tier" m;
  Some {| ttq_TenantID := TenantID; ttq_TransferOrderID := TransferOrderID; ttq_FromAccountID := FromAccountID;
    ttq_ToAccountID := ToAccountID; ttq_Chain := Chain; ttq_Network := Network; ttq_Asset := Asset; ttq_Amount :=
    Amount; ttq_SourceTier := SourceTier; ttq_DestinationTier := DestinationTier |}.

Definition TreasuryTransferOnchainNotifyRequest_fields (m : list (string * doc)) : option
    TreasuryTransferOnchainNotifyRequest :=
  TenantID ← string_field "tenant_id" m;
  TransferOrderID ← string_field "transfer_order_id" m;
  TxHash ← string_field "tx_hash" m;
  Status ← string_field "status" m;
  Reason ← string_field "reason" m;
  Confirmations ← int64_field "confirmations" m;
  RequiredConfs ← int64_field "required_confirmations" m;
  Some {| tnq_TenantID := TenantID; tnq_TransferOrderID := TransferOrderID; tnq_TxHash := TxHash; tnq_Status :=
    Status; tnq_Reason := Reason; tnq_Confirmations := Confirmations; tnq_RequiredConfs := RequiredConfs |}.

Definition CreateAddressRequest_fields (m : list (string * doc)) : option CreateAddressRequest :=
  TenantID ← string_field "tenant_id" m;
  AccountID ← string_field "account_id" m;
  Chain ← string_field "chain" m;
  Coin ← string_field "coin" m;
  Network ← string_field "network" m;
  AddressType ← string_field "address_type" m;
  SignType ← string_field "sign_type" m;
  MinConfirmations ← int64_field "min_confirmations" m;
  TreasuryAccountID ← string_field "treasury_account_id" m;
  ColdAccountID ← string_field "cold_account_id" m;
  AutoSweep ← bool_pointer_field "auto_sweep" m;
  SweepThreshold ← string_field "sweep_threshold" m;
  HotBalanceCap ← string_field "hot_balance_cap" m;
  Model ← string_field "model" m;
  Some {| caq_TenantID := TenantID; caq_AccountID := AccountID; caq_Chain := Chain; caq_Coin := Coin; caq_Network
    := Network; caq_AddressType := AddressType; caq_SignType := SignType; caq_MinConfirmations := MinConfirmations;
    caq_TreasuryAccountID := TreasuryAccountID; caq_ColdAccountID := ColdAccountID; caq_AutoSweep := AutoSweep;
    caq_SweepThreshold := SweepThreshold; caq_HotBalanceCap := HotBalanceCap; caq_Model := Model |}.

Definition AccountUpsertRequest_fields (m : list (string * doc)) : option AccountUpsertRequest :=
  TenantID ← string_field "tenant_id" m;
  AccountID ← string_field "account_id" m;
  AccountTag ← string_field "account_tag" m;
  Status ← string_field "status" m;
  Remark ← string_field "remark" m;
  Some {| auq_TenantID := TenantID; auq_AccountID := AccountID; auq_AccountTag := AccountTag; auq_Status :=
    Status; auq_Remark := Remark |}.

(** ** Encoding answers *)

Definition LedgerStatus_doc (x : LedgerStatus) : doc := DObj (
  [("Status", DStr (ls_Status x)); ("TxHash", DStr (ls_TxHash x)); ("Reason", DStr (ls_Reason x)); ("Amount", DStr
    (ls_Amount x)); ("QueueStatus", DStr (ls_QueueStatus x)); ("AttemptCount", DInt (ls_AttemptCount x));
    ("LastError", DStr (ls_LastError x))]).

Definition TreasuryTransferStatus_doc (x : TreasuryTransferStatus) : doc := DObj (
  [("status", DStr (ts_Status x)); ("tx_hash", DStr (ts_TxHash x)); ("reason", DStr (ts_Reason x)); ("amount",
    DStr (ts_Amount x)); ("from_account_id", DStr (ts_FromAccountID x)); ("to_account_id", DStr (ts_ToAccountID x));
    ("source_tier", DStr (ts_SourceTier x)); ("destination_tier", DStr (ts_DestinationTier x)); ("confirmations",
    DInt (ts_Confirmations x)); ("required_confirmations", DInt (ts_RequiredConfs x))]).

Definition WalletAddress_doc (x : WalletAddress) : doc := DObj (
  [("tenant_id", DStr (wd_TenantID x)); ("account_id", DStr (wd_AccountID x)); ("model", DStr (wd_Model x));
    ("chain", DStr (wd_Chain x)); ("coin", DStr (wd_Coin x)); ("network", DStr (wd_Network x)); ("address", DStr
    (wd_Address x)); ("key_id", DStr (wd_KeyID x)); ("public_key", DStr (wd_PublicKey x)); ("sign_type", DStr
    (wd_SignType x)); ("address_type", DStr (wd_AddressType x)); ("derivation_path", DStr (wd_DerivationPath x));
    ("change_index", DInt (wd_ChangeIndex x)); ("address_index", DInt (wd_AddressIndex x)); ("status", DStr
    (wd_Status x)); ("created_at", DStr (wd_CreatedAt x)); ("updated_at", DStr (wd_UpdatedAt x))]).

Definition AccountAsset_doc (x : AccountAsset) : doc := DObj (
  [("asset", DStr (aa_Asset x)); ("available", DStr (aa_Available x)); ("frozen", DStr (aa_Frozen x));
    ("withdraw_locked", DStr (aa_WithdrawLocked x)); ("withdrawable", DStr (aa_Withdrawable x)); ("vault_available",
    DStr (aa_VaultAvailable x))]).

Definition CreateWithdrawResponse_doc (x : CreateWithdrawResponse) : doc := DObj (
  [("tx_hash", DStr (cwr_TxHash x))] ++ unless_empty "status" (cwr_Status x)).

Definition WithdrawStatusResponse_doc (x : WithdrawStatusResponse) : doc := DObj (
  [("tenant_id", DStr (wsr_TenantID x)); ("order_id", DStr (wsr_OrderID x)); ("ledger", LedgerStatus_doc
    (wsr_Ledger x))]).

Definition SweepRunResponse_doc (x : SweepRunResponse) : doc := DObj (
  [("status", DStr (srr_Status x))] ++ unless_empty "tx_hash" (srr_TxHash x) ++ unless_empty
    "destination_account_id" (srr_DestinationAccountID x) ++ unless_empty "destination_tier" (srr_DestinationTier
    x)).

Definition TreasuryTransferResponse_doc (x : TreasuryTransferResponse) : doc := DObj (
  [("status", DStr (ttr_Status x))] ++ unless_empty "tx_hash" (ttr_TxHash x) ++ unless_empty "transfer_order_id"
    (ttr_TransferOrderID x) ++ unless_empty "source_tier" (ttr_SourceTier x) ++ unless_empty "destination_tier"
    (ttr_DestinationTier x)).

Definition TreasuryTransferStatusResponse_doc (x : TreasuryTransferStatusResponse) : doc := DObj (
  [("tenant_id", DStr (tsr_TenantID x)); ("transfer_order_id", DStr (tsr_TransferOrderID x)); ("transfer",
    TreasuryTransferStatus_doc (tsr_Transfer x))]).

Definition TreasuryWaterlineResponse_doc (x : TreasuryWaterlineResponse) : doc := DObj (
  [("tenant_id", DStr (twr_TenantID x)); ("asset", DStr (twr_Asset x)); ("hot_account_id", DStr (twr_HotAccountID
    x)); ("cold_account_id", DStr (twr_ColdAccountID x)); ("hot_vault_available", DStr (twr_HotVaultAvailable x));
    ("cold_vault_available", DStr (twr_ColdVaultAvailable x)); ("hot_balance_cap", DStr (twr_HotBalanceCap x));
    ("hot_balance_floor", DStr (twr_HotBalanceFloor x)); ("state", DStr (twr_State x)); ("recommended_action", DStr
    (twr_RecommendedAction x)); ("suggested_transfer_amount", DStr (twr_SuggestedTransferAmount x))]).

Definition BalanceResponse_doc (x : BalanceResponse) : doc := DObj (
  [("tenant_id", DStr (blr_TenantID x)); ("account_id", DStr (blr_AccountID x)); ("asset", DStr (blr_Asset x));
    ("available", DStr (blr_Available x)); ("frozen", DStr (blr_Frozen x)); ("withdraw_locked", DStr
    (blr_WithdrawLocked x)); ("withdrawable", DStr (blr_Withdrawable x))]).

Definition CreateAddressResponse_doc (x : CreateAddressResponse) : doc := DObj (
  [("tenant_id", DStr (car_TenantID x)); ("account_id", DStr (car_AccountID x)); ("chain", DStr (car_Chain x));
    ("coin", DStr (car_Coin x)); ("network", DStr (car_Network x)); ("model", DStr (car_Model x)); ("key_id", DStr
    (car_KeyID x)); ("public_key", DStr (car_PublicKey x)); ("address", DStr (car_Address x)); ("sign_type", DStr
    (car_SignType x)); ("address_type", DStr (car_AddressType x)); ("derivation_path", DStr (car_DerivationPath x));
    ("change_index", DInt (car_ChangeIndex x)); ("address_index", DInt (car_AddressIndex x))] ++ unless_empty
    "custody_scheme" (car_CustodyScheme x)).

Definition AccountResponse_doc (x : AccountResponse) : doc := DObj (
  [("tenant_id", DStr (acr_TenantID x)); ("account_id", DStr (acr_AccountID x)); ("account_tag", DStr
    (acr_AccountTag x)); ("status", DStr (acr_Status x)); ("remark", DStr (acr_Remark x)); ("created_at", DStr
    (acr_CreatedAt x)); ("updated_at", DStr (acr_UpdatedAt x))]).

Definition AccountListResponse_doc (x : AccountListResponse) : doc := DObj (
  [("items", DArr (List.map AccountResponse_doc (alr_Items x)))]).

Definition AccountAddressesResponse_doc (x : AccountAddressesResponse) : doc := DObj (
  [("items", DArr (List.map WalletAddress_doc (aar_Items x)))]).

Definition AccountAssetsResponse_doc (x : AccountAssetsResponse) : doc := DObj (
  [("items", DArr (List.map AccountAsset_doc (asr_Items x)))]).

(** ** Requests and responses *)

Record core_request := {
  cr_Method : string;
  cr_Path : string;
  cr_RawQuery : string;
  cr_RequestID : string;
  cr_Body : string;
}.

Record core_response := { cs_Status : Z; cs_ContentType : string; cs_Body : string }.

Definition maxRequestBodyBytes : Z := 1024 * 1024.

(** At most [n] bytes. *)
Fixpoint limited (n : Z) (l : bytes) : bytes :=
  match l with
  | [] => []
  | a :: l => if decide (n ≤ 0) then [] else a :: limited (n - 1) l
  end.

Lemma limited_all n l : Z.of_nat (length l) ≤ n → limited n l = l.
Proof.
  revert n. induction l as [|a l IH]; intros n; cbn [limited length]; [done|]. intros Hn.
  rewrite decide_False by lia. by rewrite IH by lia.
Qed.

(** [Decode] reads the first value of the body, as far as the limit lets it;
    only behind a [null] it has to see that the value is over. *)
Definition decodeBody {A} (fields : list (string * doc) → option A) (body : string) : option A :=
  let whole := to_bytes body in
  let l := limited maxRequestBodyBytes whole in
  '(d, rest) ← parse_value (parse_fuel l) 0 l;
  match d, rest with
  | DObj m, _ => fields m
  | DNull, [] => if decide (length whole = length l) then fields [] else None
  | DNull, a :: _ => if existsb (λ n, is_chr n a) [32; 9; 10; 13]%N then fields [] else None
  | _, _ => None
  end.

(** The request as a handler sees it. *)
Definition received {A} (fields : list (string * doc) → option A) (r : core_request) : http_request A := {|
  hq_Method := cr_Method r; hq_RequestID := cr_RequestID r; hq_Query := QueryGet (cr_RawQuery r);
  hq_Body := decodeBody fields (cr_Body r) |}.
Definition received_query (r : core_request) : http_request () := {|
  hq_Method := cr_Method r; hq_RequestID := cr_RequestID r; hq_Query := QueryGet (cr_RawQuery r); hq_Body := Some () |}.

(** [http.Error]; an encoded value; the text ["ok"], whose type [net/http]
    detects. *)
Definition textPlain : string := "text/plain; charset=utf-8".
Definition sentError (status : Z) (msg : string) : core_response :=
  {| cs_Status := status; cs_ContentType := textPlain; cs_Body := msg +:+ String (ascii_of_nat 10) "" |}.
Definition sentJSON (d : doc) : core_response :=
  {| cs_Status := 200; cs_ContentType := "application/json"; cs_Body := Encode d |}.
Definition sentOk : core_response := {| cs_Status := 200; cs_ContentType := textPlain; cs_Body := "ok" |}.

Definition respond {A} (ok : A → core_response) (p : prog (reply A)) : prog core_response :=
  r ← p; Ret (match r with HttpOk a => ok a | HttpError status msg => sentError status msg end).
Definition respondJSON {A} (encode : A → doc) : prog (reply A) → prog core_response := respond (λ a, sentJSON (encode a)).
Definition respondOk : prog (reply ()) → prog core_response := respond (λ _, sentOk).

Section server.
Context `{Crypto} `{SolanaLib} (h : WithdrawHandler).

(** [NewMux], with the handlers' own decoding and encoding. *)
Definition NewMux : list (string * (core_request → prog core_response)) := [
  ("/healthz", λ _, Ret sentOk);
  ("/v1/withdraw", λ r, respondJSON CreateWithdrawResponse_doc (Create h (received CreateWithdrawRequest_fields r)));
  ("/v1/withdraw/status", λ r, respondJSON WithdrawStatusResponse_doc (Status (received_query r)));
  ("/v1/withdraw/onchain/notify", λ r, respondOk (WithdrawOnchainNotify (received WithdrawOnchainNotifyRequest_fields r)));
  ("/v1/deposit/notify", λ r, respondOk (DepositNotify h (received DepositNotifyRequest_fields r)));
  ("/v1/sweep/run", λ r, respondJSON SweepRunResponse_doc (SweepRun h (received SweepRunRequest_fields r)));
  ("/v1/sweep/onchain/notify", λ r, respondOk (SweepOnchainNotify (received SweepOnchainNotifyRequest_fields r)));
  ("/v1/treasury/transfer", λ r,
     respondJSON TreasuryTransferResponse_doc (TreasuryTransfer h (received TreasuryTransferRequest_fields r)));
  ("/v1/treasury/transfer/status", λ r,
     respondJSON TreasuryTransferStatusResponse_doc (TreasuryTransferStatusHandler (received_query r)));
  ("/v1/treasury/onchain/notify", λ r,
     respondOk (TreasuryTransferOnchainNotify (received TreasuryTransferOnchainNotifyRequest_fields r)));
  ("/v1/treasury/waterline", λ r, respondJSON TreasuryWaterlineResponse_doc (TreasuryWaterline (received_query r)));
  ("/v1/balance", λ r, respondJSON BalanceResponse_doc (Balance (received_query r)));
  ("/v1/address/create", λ r, respondJSON CreateAddressResponse_doc (CreateAddress h (received CreateAddressRequest_fields r)));
  ("/v1/account/upsert", λ r, respondJSON AccountResponse_doc (AccountUpsert h (received AccountUpsertRequest_fields r)));
  ("/v1/account/get", λ r, respondJSON AccountResponse_doc (AccountGet (received_query r)));
  ("/v1/account/list", λ r, respondJSON AccountListResponse_doc (AccountList (received_query r)));
  ("/v1/account/addresses", λ r, respondJSON AccountAddressesResponse_doc (AccountAddresses (received_query r)));
  ("/v1/account/assets", λ r, respondJSON AccountAssetsResponse_doc (AccountAssets (received_query r))) ].

(** A cleaned path that is no pattern is [http.NotFound]. *)
Definition serveCore (r : core_request) : prog core_response :=
  match List.find (λ route, bool_decide (fst route = cr_Path r)) NewMux with
  | Some (_, handler) => handler r
  | None => Ret (sentError 404 "404 page not found")
  end.
End server.
