(* ===== verification/ApiProperties.v ===== *)
(** * api-gateway: what reaches wallet-core

    The proxy in the world of a provider and of wallet-core behind an HTTP
    client ([Upstream]).  A call to wallet-core is made only for a request that
    the tables allow; a chain policy is the most specific one there is. *)
From S2P Require Import Prelude GoStrings GoNumbers GoJson KeyRef Programs ApiSecurity ApiProxy.

(** The HTTP client and the source of request ids. *)
Class Upstream (D : Type) := {
  up_do : upstream_request → D → result upstream_response * D;
  up_random : string → D → string * D;
}.

Section world.
Context {S D : Type} `{!Provider S} `{!Upstream D}.

Definition on_fst {R} (f : S → R * S) (w : S * D) : R * (S * D) := let '(r, s) := f w.1 in (r, (s, w.2)).
Definition on_snd {R} (f : D → R * D) (w : S * D) : R * (S * D) := let '(r, d) := f w.2 in (r, (w.1, d)).

#[export] Instance gateway_answers : Answers gateway_call (S * D) := λ R c,
  match c in gateway_call R return S * D → R * (S * D) with
  | ValidateTokenCall t => on_fst (ValidateToken t)
  | CheckSignPermissionCall t k => on_fst (CheckSignPermission t k)
  | CheckPolicyCall t c n o a => on_fst (CheckTenantChainPolicy t c n o a)
  | AuditCall t a r d => on_fst (Audit t a r d)
  | ReserveCall t r o h => on_fst (Reserve t r o h)
  | CommitCall t r o resp => on_fst (Commit t r o resp)
  | RejectCall t r o reason => on_fst (Reject t r o reason)
  | RandomIDCall p => on_snd (up_random p)
  | DoCall u => on_snd (up_do u)
  end.
End world.

(** ** Demands on calls to wallet-core *)

Section admission.
Context `{Sha256}.
Variable h : ProxyHandler.

Abbreviation log := (list (happening (E := gateway_call))).

(** A call that is not to wallet-core. *)
Definition silent {R} (c : gateway_call R) : Prop := match c with DoCall _ => False | _ => True end.
Definition quiet (x : happening (E := gateway_call)) : Prop := match x with Happened c _ => silent c end.

(** The proxy has made these calls, with these answers. *)
Definition token_accepted (r : http_request) (tenantID permission : string) (l : log) : Prop :=
  ∃ scope, Happened (ValidateTokenCall (bearerToken (rq_Authorization r))) (Ok scope) ∈ l
    ∧ (TrimSpace tenantID ≠ "" → sc_TenantID scope = "*" ∨ sc_TenantID scope = tenantID)
    ∧ permits permission scope = inr scope.
Definition keys_accepted (tenantID body : string) (l : log) : Prop :=
  ∃ keys, Unmarshal keyFields body = Some keys
    ∧ ∀ key, key ∈ keys → Happened (CheckSignPermissionCall tenantID key) (Ok true) ∈ l.
Definition policy_accepted (p : requestContext) (permission : string) (l : log) : Prop :=
  TrimSpace (rx_Chain p) ≠ "" → TrimSpace (rx_Network p) ≠ "" →
  Happened (CheckPolicyCall (rx_TenantID p) (rx_Chain p) (rx_Network p) permission (rx_Amount p)) (Ok ()) ∈ l.
Definition reserved (tenantID requestID body : string) (spec : routeSpec) (l : log) : Prop :=
  rt_IdempotencyOp spec ≠ "" →
  ∃ idem, Happened (ReserveCall tenantID requestID (rt_IdempotencyOp spec) (hashRequest body)) (Ok idem) ∈ l
    ∧ id_State idem ∉ ["REPLAY"; "CONFLICT"; "REJECTED"].

Definition admitted (r : http_request) (body : string) (spec : routeSpec) (p : requestContext) (l : log) : Prop :=
  parseRequestContext r body = Some p
  ∧ (rt_RequireTenant spec = true → TrimSpace (rx_TenantID p) ≠ "")
  ∧ token_accepted r (rx_TenantID p) (rt_Permission spec) l
  ∧ (rt_CheckSignPermission spec = true → keys_accepted (rx_TenantID p) body l)
  ∧ (rt_RequireChainNetwork spec = true → TrimSpace (rx_Chain p) ≠ "" ∧ TrimSpace (rx_Network p) ≠ "")
  ∧ policy_accepted p (rt_Permission spec) l.

(** What has to have happened before a call to wallet-core. *)
Definition forwardable (r : http_request) (u : upstream_request) (l : log) : Prop :=
  Forall quiet l ∧
  ∃ path spec body parsed requestID,
    (path, spec) ∈ NewMux ∧ rq_Path r = path ∧ rq_Method r = rt_Method spec
    ∧ body_of r spec = Some body
    ∧ u = upstreamRequest h r path requestID body
    ∧ admitted r body spec parsed l
    ∧ reserved (rx_TenantID parsed) requestID body spec l.

Variable r : http_request.
Definition Pre R (c : gateway_call R) (l : log) : Prop :=
  match c with DoCall u => forwardable r u l | _ => True end.

(** Finding an entry in a part of the calls. *)
Ltac in_log := intros; repeat (rewrite elem_of_app in * ); first [tauto | eauto].

(** A part of the proxy that makes no call to wallet-core; [F] holds of the
    calls it made when it goes on. *)
Definition stage {A} (p : step A) (F : A → log → Prop) : Prop := ∀ l,
  allowed Pre logs (λ res l', ∃ l1, l' = l ++ l1 ∧ Forall quiet l1
                              ∧ match res with inr a => F a l1 | inl _ => True end) p l.

Lemma stage_done {A} (F : A → log → Prop) a : F a [] → stage (proceed a) F.
Proof. intros HF l. exists []. by rewrite app_nil_r. Qed.

Lemma stage_refuse {A} (F : A → log → Prop) status msg : stage (refuse status msg) F.
Proof. intros l. exists []. by rewrite app_nil_r. Qed.

Lemma stage_require ok status msg : stage (require ok status msg) (λ _ _, ok = true).
Proof. unfold require. destruct ok; [by apply stage_done|apply stage_refuse]. Qed.

Lemma stage_expect {A} status msg (o : option A) : stage (expect status msg o) (λ a _, o = Some a).
Proof. unfold expect. destruct o; [by apply stage_done|apply stage_refuse]. Qed.

Lemma stage_weaken {A} (p : step A) (F G : A → log → Prop) :
  (∀ a l, F a l → G a l) → stage p F → stage p G.
Proof.
  intros HFG Hp l. eapply allowed_weaken; [|apply Hp]. cbn. intros [e|a] l' (l1 & -> & Hq & HF); exists l1; auto.
Qed.

Lemma stage_bind {A B} (p : step A) (f : A → step B) F (G : A → B → log → Prop) :
  stage p F → (∀ a, stage (f a) (G a)) →
  stage (a ⤆ p; f a) (λ b l, ∃ a l1 l2, l = l1 ++ l2 ∧ F a l1 ∧ G a b l2).
Proof.
  intros Hp Hf l. unfold bind_step. apply allowed_bind. eapply allowed_weaken; [|apply Hp]. cbn.
  intros [e|a] l' (l1 & -> & Hq & HF); [by exists l1|].
  eapply allowed_weaken; [|apply Hf]. cbn. intros res l' (l2 & -> & Hq2 & HG).
  exists (l1 ++ l2). rewrite <- app_assoc. split_and!; [done|by apply Forall_app|].
  destruct res; [done|]. naive_solver.
Qed.

(** Asking for something else than wallet-core. *)
Lemma stage_ask {A R} (c : gateway_call R) (f : R → step A) (F : R → A → log → Prop) :
  silent c → (∀ res, stage (f res) (F res)) →
  stage (res ← ask c; f res) (λ a l, ∃ res l', l = Happened c res :: l' ∧ F res a l').
Proof.
  intros Hc Hf l. cbn. split; [by destruct c|].
  intros res l' ->. eapply allowed_weaken; [|apply Hf]. cbn. intros a l' (l1 & -> & Hq & HF).
  exists (Happened c res :: l1). rewrite <- app_assoc. split_and!; [done|by constructor|].
  destruct a; naive_solver.
Qed.

Lemma stage_if {A} (b : bool) (p q : step A) F G :
  stage p F → stage q G → stage (if b then p else q) (λ a l, if b then F a l else G a l).
Proof. by destruct b. Qed.

(** ** The stages *)

Lemma permits_ok permission scope sc : permits permission scope = inr sc → sc = scope ∧ permits permission scope = inr scope.
Proof. unfold permits. repeat case_decide; repeat case_match; intros [= <-]; auto. Qed.

Lemma stage_authorize tenantID permission :
  stage (authorize r tenantID permission) (λ _ l, token_accepted r tenantID permission l).
Proof.
  unfold authorize. cbv zeta. case_decide; [apply stage_refuse|].
  eapply stage_weaken; [|apply (stage_ask _ _ (λ res sc _, res = Ok sc
    ∧ (TrimSpace tenantID ≠ "" → sc_TenantID sc = "*" ∨ sc_TenantID sc = tenantID) ∧ permits permission sc = inr sc)); [done|]].
  - intros sc l (res & l' & -> & -> & Ht & Hp). exists sc. split_and!; [by constructor|done|done].
  - intros [scope|e]; [|apply stage_refuse]. case_decide as Hm; [apply stage_refuse|].
    destruct (permits permission scope) as [[st m]|sc] eqn:Hp; [apply stage_refuse|].
    apply permits_ok in Hp as [-> Hp]. apply stage_done. split_and!; [done| |done].
    intros Ht. destruct (decide (sc_TenantID scope = "*")); [by left|]. right.
    destruct (decide (sc_TenantID scope = tenantID)); [done|]. naive_solver.
Qed.

Lemma stage_checkKeys tenantID seen keys :
  stage (checkKeys tenantID seen keys)
    (λ _ l, ∀ key, key ∈ keys → key ∉ seen → Happened (CheckSignPermissionCall tenantID key) (Ok true) ∈ l).
Proof.
  revert seen. induction keys as [|key keys IH]; intros seen; cbn [checkKeys]; [apply stage_done; by intros ? ?%elem_of_nil|].
  case_decide as Hs.
  - eapply stage_weaken; [|apply IH]. cbn. intros _ l Hl k [->|Hk]%elem_of_cons; [done|by apply Hl].
  - eapply stage_weaken; [|apply (stage_ask _ _ (λ res _ l, res = Ok true
      ∧ ∀ k, k ∈ keys → k ∉ key :: seen → Happened (CheckSignPermissionCall tenantID k) (Ok true) ∈ l)); [done|]].
    + intros _ l (res & l' & -> & -> & Hl) k Hk Hn. apply elem_of_cons.
      destruct (decide (k = key)) as [->|Hne]; [by left|]. right. apply Hl; [|by rewrite not_elem_of_cons].
      by apply elem_of_cons in Hk as [->|Hk].
    + intros [[]|e]; [|apply stage_refuse|apply stage_refuse].
      eapply stage_weaken; [|apply IH]. naive_solver.
Qed.

Lemma stage_checkSignPermission tenantID body :
  stage (checkSignPermission tenantID body) (λ _ l, keys_accepted tenantID body l).
Proof.
  eapply stage_weaken; [|apply stage_bind; [apply stage_expect|intros keys; apply stage_checkKeys]].
  cbn. intros _ l (keys & l1 & l2 & -> & Hk & Hl). exists keys. split; [done|].
  intros key Hin. apply elem_of_app. right. apply Hl; [done|set_solver].
Qed.

Lemma stage_checkPolicy p permission :
  stage (checkPolicy (rx_TenantID p) (rx_Chain p) (rx_Network p) permission (rx_Amount p))
    (λ _ l, policy_accepted p permission l).
Proof.
  unfold checkPolicy. case_decide as Hc; [|apply stage_done; intros ??; tauto].
  eapply stage_weaken; [|apply (stage_ask _ _ (λ res _ _, is_ok res = true)); [done|]].
  - intros _ l ([[]|e] & l' & -> & Hok); [|done]. intros _ _. by constructor.
  - intros res. apply stage_require.
Qed.
Lemma token_accepted_mono rq t perm l l' : l ⊆ l' → token_accepted rq t perm l → token_accepted rq t perm l'.
Proof. intros Hs (sc & Hin & H1). exists sc. eauto. Qed.
Lemma keys_accepted_mono t body l l' : l ⊆ l' → keys_accepted t body l → keys_accepted t body l'.
Proof. intros Hs (keys & Hk & Hin). exists keys. eauto. Qed.

Lemma stage_admit body spec : stage (admit_request r body spec) (λ p l, admitted r body spec p l).
Proof.
  unfold admit_request.
  eapply stage_weaken; [|apply stage_bind; [apply stage_expect|intros p]].
  2:{ apply stage_bind; [apply stage_require|intros ?]. apply stage_bind; [apply stage_authorize|intros ?].
      apply stage_bind; [apply stage_if; [apply stage_checkSignPermission|by apply (stage_done (λ _ _, True))]|intros ?].
      apply stage_bind; [apply stage_require|intros ?]. apply stage_bind; [apply stage_checkPolicy|intros ?].
      by apply (stage_done (λ p' l, p' = p ∧ l = [])). }
  cbn. intros p l (p' & l1 & l2 & -> & Hp & _ & l3 & l4 & -> & Ht & _ & l5 & l6 & -> & Htok & _ & l7 & l8 & -> & Hk
    & _ & l9 & l10 & -> & Hc & _ & l11 & l12 & -> & Hpol & -> & ->).
  split_and!; [done| | | | |].
  - intros Hr. rewrite Hr in Ht. by apply negb_true_iff, bool_decide_eq_false in Ht.
  - eapply token_accepted_mono; [|exact Htok]. intros x Hx. in_log.
  - intros Hs. rewrite Hs in Hk. eapply keys_accepted_mono; [|exact Hk]. intros x Hx. in_log.
  - intros Hr. rewrite Hr in Hc. apply negb_true_iff, bool_decide_eq_false in Hc. tauto.
  - intros Hch Hn. specialize (Hpol Hch Hn). in_log.
Qed.

Lemma stage_reserve tenantID requestID body spec :
  stage (reserve tenantID requestID body spec)
    (λ res l, match res with inl _ => True | inr _ => reserved tenantID requestID body spec l end).
Proof.
  unfold reserve. case_decide as Hop; [apply stage_done; by intros Hne|].
  eapply stage_weaken; [|apply (stage_ask _ _ (λ res st _, match st with inl _ => True | inr _ =>
      ∃ idem, res = Ok idem ∧ id_State idem ∉ ["REPLAY"; "CONFLICT"; "REJECTED"] end)); [done|]].
  - intros [st|st] l (res & l' & -> & Hres); [done|]. intros _. destruct Hres as (idem & -> & Hid).
    exists idem. split; [by constructor|done].
  - intros [idem|e]; [|apply stage_refuse]. repeat case_decide; try apply stage_refuse; apply stage_done; [done|].
    exists idem. rewrite !not_elem_of_cons. by split_and!; try apply not_elem_of_nil.
Qed.

(** ** The whole proxy *)

Abbreviation anything := (λ _ _, True).

Lemma allowed_record tenantID requestID st path spec resp l :
  allowed (Pre) logs anything (record_answer tenantID requestID st path spec resp) l.
Proof.
  unfold record_answer. apply allowed_bind. eapply (allowed_weaken _ _ anything).
  - intros _ k _. case_decide; cbn; auto.
  - unfold finishReservation. repeat case_decide; cbn; auto.
Qed.

Lemma allowed_proxied path spec requestID body l :
  (path, spec) ∈ NewMux → rq_Path r = path → rq_Method r = rt_Method spec →
  body_of r spec = Some body → Forall quiet l →
  allowed Pre logs anything (proxied h r requestID body path spec) l.
Proof.
  intros Hin Hpath Hm Hb Hl. unfold proxied. apply allowed_bind.
  eapply allowed_weaken; [|apply stage_admit]. cbn. intros [e|p] l' (l1 & -> & Hq1 & Hadm); [done|].
  apply allowed_bind.
  eapply allowed_weaken; [|apply stage_reserve]. cbn. intros [e|[|st]] l' (l2 & -> & Hq2 & Hres); [done|done|].
  unfold forward. cbn. split.
  - split; [by rewrite !Forall_app|]. exists path, spec, body, p, requestID. split_and!; try done.
    + destruct Hadm as (? & ? & ? & Hk & ? & Hp). split_and!; [done|done| | |done|].
      * eapply token_accepted_mono; [|done]. intros x Hx. in_log.
      * intros Hs. eapply keys_accepted_mono; [|by apply Hk]. intros x Hx. in_log.
      * intros Hch Hnet. specialize (Hp Hch Hnet). in_log.
    + intros Hop. destruct (Hres Hop) as (idem & Hi & Hn). exists idem. split; [in_log|done].
  - intros [resp|e] l' ->; cbn; [|done]. apply allowed_bind. eapply allowed_weaken; [|apply allowed_record]. done.
Qed.

Lemma allowed_serve : allowed Pre logs anything (serve h r) [].
Proof.
  unfold serve. case_decide; [done|]. destruct (List.find _ _) as [[path spec]|] eqn:Hf; [|done].
  apply List.find_some in Hf as [Hin Hp]. apply bool_decide_eq_true in Hp. cbn in Hp. apply list_elem_of_In in Hin.
  unfold proxy. case_decide as Hm; [done|]. assert (rq_Method r = rt_Method spec) as Hmeth.
  { destruct (decide (rq_Method r = rt_Method spec)); tauto. }
  apply allowed_bind. eapply (allowed_weaken _ _ (λ _ l, Forall quiet l)).
  - intros requestID l Hl. destruct (body_of r spec) as [body|] eqn:Hb; [|done].
    apply allowed_bind. eapply (allowed_weaken _ _ anything); [done|].
    by apply allowed_proxied.
  - case_decide; cbn; [|done]. split; [done|]. intros id l' ->. by constructor.
Qed.
End admission.

(** ** With the tables *)

(** The tables that only the control plane writes. *)
Definition same_rules (s s' : security) : Prop :=
  sy_api_tokens s' = sy_api_tokens s ∧ sy_tenant_keys s' = sy_tenant_keys s
  ∧ sy_tenant_chain_policies s' = sy_tenant_chain_policies s.

#[export] Instance same_rules_preorder : PreOrder same_rules.
Proof. unfold same_rules. split; [done|]. intros s1 s2 s3 (-> & -> & ->) (-> & -> & ->). done. Qed.

(** An answer that the tables give. *)
Definition truthful (s : security) (x : happening (E := gateway_call)) : Prop :=
  match x with
  | Happened c res =>
      match c in gateway_call R return R → Prop with
      | ValidateTokenCall t => λ res, ∀ sc, res = Ok sc → Postgres.ValidateToken t s = Ok sc
      | CheckSignPermissionCall t k => λ res, res = Ok true → sy_tenant_keys s !! (t, k) = Some "ACTIVE"
      | CheckPolicyCall t c n o a => λ res, res = Ok () → Postgres.CheckTenantChainPolicy t c n o a s = Ok ()
      | _ => λ _, True
      end res
  end.

Lemma truthful_same s s' x : same_rules s s' → truthful s' x → truthful s x.
Proof.
  intros (Ht & Hk & Hp). destruct x as [R c res]. destruct c; cbn; try done.
  - unfold Postgres.ValidateToken. by rewrite Ht.
  - by rewrite Hk.
  - unfold Postgres.CheckTenantChainPolicy, Postgres.selectPolicy. by rewrite Hp.
Qed.

Section tables.
Context `{Sha256} {C D : Type} `{!Connection C} `{!Upstream D}.

Abbreviation gateway_world := (security * C * D)%type.

Lemma query_spec {A} (q : security → result A) (w : security * C) :
  (query q w).2.1 = w.1 ∧ ∀ a, (query q w).1 = Ok a → q w.1 = Ok a.
Proof. unfold query. destruct (statement (w.2)) as [[[]|e] c]; cbn; by split. Qed.

Lemma execute_spec {A} (f : security → A * security) (w : security * C) :
  ((∃ e, (execute f w).1 = Err e) ∧ (execute f w).2.1 = w.1) ∨ (execute f w).1 = Ok (f w.1).1 ∧ (execute f w).2.1 = (f w.1).2.
Proof. unfold execute. destruct (statement (w.2)) as [[[]|e] c]; cbn; [by right|left; eauto]. Qed.

Lemma Reserve_rules t r o hash s : same_rules s (Postgres.Reserve t r o hash s).2.
Proof. unfold Postgres.Reserve. by destruct (_ !! _). Qed.

(** One call: the rules stay, and it answers what they say. *)
Lemma answer_truthful {R} (c : gateway_call R) (w : gateway_world) :
  same_rules w.1.1 (answer c w).2.1.1 ∧ truthful w.1.1 (Happened c (answer c w).1).
Proof.
  destruct c; cbn; unfold on_fst, on_snd; cbn.
  - destruct (query_spec (Postgres.ValidateToken token) w.1) as [Hs Hq].
    destruct (query _ _) as [res s'] in *; cbn in *. rewrite Hs. split; [done|]. intros sc ->. by apply Hq.
  - destruct (query_spec (Postgres.CheckSignPermission tenantID keyID) w.1) as [Hs Hq].
    destruct (query _ _) as [res s'] in *; cbn in *. rewrite Hs. split; [done|]. intros ->.
    specialize (Hq _ eq_refl). injection Hq as Hq. by apply bool_decide_eq_true in Hq.
  - destruct (query_spec (Postgres.CheckTenantChainPolicy tenantID chain network operation amount) w.1) as [Hs Hq].
    destruct (query _ _) as [res s'] in *; cbn in *. rewrite Hs. split; [done|]. intros ->. by apply Hq.
  - destruct (execute_spec (λ s, ((), Postgres.Audit tenantID action requestID detail s)) w.1) as [[_ Hs]|[_ Hs]];
      unfold execute_; destruct (execute _ _); cbn in *; by rewrite Hs.
  - destruct (execute_spec (Postgres.Reserve tenantID requestID operation requestHash) w.1) as [[_ Hs]|[_ Hs]];
      destruct (execute _ _); cbn in *; rewrite Hs; split; try done. apply Reserve_rules.
  - destruct (execute_spec (λ s, ((), Postgres.Commit tenantID requestID operation response s)) w.1) as [[_ Hs]|[_ Hs]];
      unfold execute_; destruct (execute _ _); cbn in *; by rewrite Hs.
  - destruct (execute_spec (λ s, ((), Postgres.Reject tenantID requestID operation reason s)) w.1) as [[_ Hs]|[_ Hs]];
      unfold execute_; destruct (execute _ _); cbn in *; by rewrite Hs.
  - by destruct (up_random _ _).
  - by destruct (up_do _ _).
Qed.

Lemma calls_truthful {A} (p : program gateway_call A) (w : gateway_world) x : x ∈ calls_of p w → truthful w.1.1 x.
Proof.
  revert w. induction p as [a|R c k IH]; intros w; cbn; [by intros ?%elem_of_nil|].
  destruct (answer_truthful c w) as [Hs Ht]. destruct (answer c w) as [res w'] eqn:Hc. cbn in *.
  intros [->|Hx]%elem_of_cons; [done|]. apply (truthful_same _ _ _ Hs). by apply (IH res).
Qed.

Lemma runs_rules {A} (p : program gateway_call A) (w : gateway_world) : same_rules w.1.1 (runs p w).2.1.1.
Proof.
  revert w. induction p as [a|R c k IH]; intros w; cbn; [done|].
  destruct (answer_truthful c w) as [Hs _]. destruct (answer c w) as [res w']. cbn in *. etransitivity; [done|apply IH].
Qed.

(** ** Forwarding needs the tables' permission *)

(** The token may do what the permission names, for this tenant. *)
Definition token_permits (s : security) (token tenantID permission : string) : Prop :=
  ∃ row, sy_api_tokens s !! token = Some row ∧ tk_status row = "ACTIVE"
    ∧ (tk_tenant_id row = "*" ∨ tk_tenant_id row = tenantID)
    ∧ (permission = "withdraw" → tk_can_withdraw row = true)
    ∧ (permission = "deposit" → tk_can_deposit row = true)
    ∧ (permission = "sweep" → tk_can_sweep row = true).

#[export] Instance token_permits_dec s tok t p : Decision (token_permits s tok t p).
Proof.
  unfold token_permits. destruct (sy_api_tokens s !! tok) as [row|]; [|right; naive_solver].
  refine (cast_if (decide (tk_status row = "ACTIVE" ∧ (tk_tenant_id row = "*" ∨ tk_tenant_id row = t)
    ∧ (p = "withdraw" → tk_can_withdraw row = true) ∧ (p = "deposit" → tk_can_deposit row = true)
    ∧ (p = "sweep" → tk_can_sweep row = true)))); [by exists row|].
  intros (row' & [= <-] & Hr). auto.
Defined.

Lemma routes_require_tenant path spec : (path, spec) ∈ NewMux → rt_RequireTenant spec = true.
Proof.
  assert (Forall (λ e, rt_RequireTenant (snd e) = true) NewMux) as Hall by (repeat constructor).
  rewrite Forall_forall in Hall. apply (Hall (path, spec)).
Qed.

Lemma token_accepted_permits s rq tenantID permission l :
  (∀ x, x ∈ l → truthful s x) → TrimSpace tenantID ≠ "" → token_accepted rq tenantID permission l →
  token_permits s (bearerToken (rq_Authorization rq)) tenantID permission.
Proof.
  intros Hl Ht (sc & Hin & Hten & Hperm). specialize (Hl _ Hin sc eq_refl). cbn in Hl.
  unfold Postgres.ValidateToken in Hl. destruct (sy_api_tokens s !! _) as [row|] eqn:Hrow; [|done].
  case_decide as Hact; [|done]. injection Hl as <-. cbn in *.
  exists row. split_and!; [done|done|by apply Hten| | |]; intros ->; unfold permits in Hperm; cbn in Hperm;
    by repeat case_match.
Qed.
End tables.

(** What allows the forwarding of [u] for the request [r]: it is [r] as it
    came, for a route of the mux and a named tenant, and the tables let the
    token act for that tenant, let it use every key the request names where
    keys are checked, and have a chain policy for it where it names a chain and
    a network. *)
Definition authorized `{Sha256} (s : security) (h : ProxyHandler) (r : http_request) (u : upstream_request) : Prop :=
  ∃ path spec body parsed requestID,
    (path, spec) ∈ NewMux ∧ rq_Path r = path ∧ rq_Method r = rt_Method spec
    ∧ body_of r spec = Some body ∧ parseRequestContext r body = Some parsed
    ∧ u = upstreamRequest h r path requestID body
    ∧ TrimSpace (rx_TenantID parsed) ≠ ""
    ∧ token_permits s (bearerToken (rq_Authorization r)) (rx_TenantID parsed) (rt_Permission spec)
    ∧ (rt_CheckSignPermission spec = true → ∃ keys, Unmarshal keyFields body = Some keys
        ∧ ∀ key, key ∈ keys → sy_tenant_keys s !! (rx_TenantID parsed, key) = Some "ACTIVE")
    ∧ (rt_RequireChainNetwork spec = true → TrimSpace (rx_Chain parsed) ≠ "" ∧ TrimSpace (rx_Network parsed) ≠ "")
    ∧ (TrimSpace (rx_Chain parsed) ≠ "" → TrimSpace (rx_Network parsed) ≠ "" →
       Postgres.CheckTenantChainPolicy (rx_TenantID parsed) (rx_Chain parsed) (rx_Network parsed)
         (rt_Permission spec) (rx_Amount parsed) s = Ok ()).

(** The calls the proxy made, answered by the tables, authorize what it does
    next. *)
Lemma forwardable_authorized `{Sha256} s h r u l :
  (∀ x, x ∈ l → truthful s x) → forwardable h r u l → authorized s h r u.
Proof.
  intros Hl (_ & path & spec & body & parsed & rid & Hin & Hp & Hm & Hb & Hu & (Hparse & Hten & Htok & Hk & Hcn & Hpol) & _).
  assert (TrimSpace (rx_TenantID parsed) ≠ "") as Ht by by eapply Hten, routes_require_tenant.
  exists path, spec, body, parsed, rid. split_and!; try done.
  - by eapply token_accepted_permits.
  - intros Hs. destruct (Hk Hs) as (keys & Hks & Hall). exists keys. split; [done|].
    intros key Hkey. by apply (Hl _ (Hall key Hkey)).
  - intros Hch Hnet. by apply (Hl _ (Hpol Hch Hnet)).
Qed.

Section forwarding.
Context `{Sha256} {C D : Type} `{!Connection C} `{!Upstream D}.

Lemma calls_forwardable h r (w : security * C * D) tr1 u ans tr2 :
  calls_of (serve h r) w = tr1 ++ Happened (DoCall u) ans :: tr2 →
  forwardable h r u tr1 ∧ ∀ x, x ∈ tr1 → truthful w.1.1 x.
Proof.
  intros Htr. split; [exact (calls_allowed _ _ _ w [] tr1 _ tr2 (allowed_serve h r) Htr)|].
  intros x Hx. apply (calls_truthful (serve h r) w). rewrite Htr. apply elem_of_app. by left.
Qed.

Lemma calls_authorized h r (w : security * C * D) tr1 u ans tr2 :
  calls_of (serve h r) w = tr1 ++ Happened (DoCall u) ans :: tr2 → authorized w.1.1 h r u.
Proof. intros [Hf Hl]%calls_forwardable. by eapply forwardable_authorized. Qed.

(** C16. A request reaches wallet-core at most once, and only if the tables it was
    served with authorize it. *)
Theorem forwarded_requests_are_authorized h r (w : security * C * D) tr1 u ans tr2 :
  calls_of (serve h r) w = tr1 ++ Happened (DoCall u) ans :: tr2 →
  Forall quiet tr1 ∧ authorized w.1.1 h r u.
Proof.
  intros [Hf Hl]%calls_forwardable. split; [by destruct Hf|by eapply forwardable_authorized].
Qed.
End forwarding.
