(* ===== verification/CoreAuth.v ===== *)
(** * wallet-core: tenants' keys and the idempotency store

    [internal/adapters/auth] and [internal/adapters/idempotency], on the tables
    that the api-gateway reads too.  Binding a key is what makes the gateway
    let the tenant sign with it; the store, which no handler of wallet-core
    calls, reserves in two statements where the gateway's does in one. *)
From S2P Require Import Prelude GoStrings GoNumbers Ports KeyRef Programs ApiSecurity ApiProxy.

(** ** Tokens and keys *)

Record AuthScope := {
  as_TenantID : string;
  as_CanWithdraw : bool;
  as_CanDeposit : bool;
  as_CanSweep : bool;
}.

Class AuthPort (S : Type) := {
  auth_ValidateToken (token : string) : S → result AuthScope * S;
  auth_CheckSignPermission (tenantID keyID : string) : S → result bool * S;
  auth_BindTenantKey (tenantID keyID : string) : S → result () * S;
  auth_Audit (tenantID action requestID detail : string) : S → result () * S;
}.

(** Without a database everything is allowed. *)
Definition MockAuth (S : Type) : AuthPort S := {|
  auth_ValidateToken _ s :=
    (Ok {| as_TenantID := "*"; as_CanWithdraw := true; as_CanDeposit := true; as_CanSweep := true |}, s);
  auth_CheckSignPermission _ _ s := (Ok true, s);
  auth_BindTenantKey _ _ s := (Ok (), s);
  auth_Audit _ _ _ _ s := (Ok (), s) |}.

Definition authValidateToken (token : string) (s : security) : result AuthScope :=
  match sy_api_tokens s !! token with
  | Some r =>
      if decide (tk_status r = "ACTIVE") then
        Ok {| as_TenantID := tk_tenant_id r; as_CanWithdraw := tk_can_withdraw r; as_CanDeposit := tk_can_deposit r;
              as_CanSweep := tk_can_sweep r |}
      else Err ErrNoRows
  | None => Err ErrNoRows
  end.

(** [INSERT ... ON CONFLICT DO UPDATE SET status='ACTIVE']. *)
Definition BindTenantKey (tenantID keyID : string) (s : security) : security :=
  s <| sy_tenant_keys ::= <[(tenantID, keyID) := "ACTIVE"]> |>.

Definition authCheckSignPermission (tenantID keyID : string) (s : security) : result bool :=
  Ok (bool_decide (sy_tenant_keys s !! (tenantID, keyID) = Some "ACTIVE")).

Definition authAudit (tenantID action requestID detail : string) (s : security) : security :=
  s <| sy_audit_logs ::= cons {| au_tenant_id := tenantID; au_action := action; au_request_id := requestID;
                                 au_detail := detail |} |>.

Definition PostgresAuth {C} `{!Connection C} : AuthPort (security * C) := {|
  auth_ValidateToken t := query (authValidateToken t);
  auth_CheckSignPermission t k := query (authCheckSignPermission t k);
  auth_BindTenantKey t k := execute_ (BindTenantKey t k);
  auth_Audit t a r d := execute_ (authAudit t a r d) |}.
#[export] Existing Instance PostgresAuth.

(** ** The idempotency store *)

(** One statement of the store. *)
Inductive store_statement : Type → Type :=
  | InsertPending (k : idem_key) (requestHash : string) : store_statement (result ())
  | SelectRequest (k : idem_key) : store_statement (result idem_row)
  | SettleRequest (k : idem_key) (status response : string) : store_statement (result ()).

Definition coreReservation (requestID requestHash : string) (r : idem_row) : Ports.IdemResult :=
  let mk st resp := {| ir_State := st; ir_Response := resp; ir_RequestID := requestID |} in
  if decide (iq_request_hash r ≠ requestHash) then mk "CONFLICT" ""
  else if decide (iq_status r = "SUCCESS") then mk "REPLAY" (iq_response r)
  else if decide (iq_status r = "FAILED") then mk "REJECTED" (iq_response r)
  else mk "NEW" "".

Definition storeReserve (tenantID requestID operation requestHash : string) : program store_statement (result Ports.IdemResult) :=
  let k := (tenantID, requestID, operation) in
  inserted ← ask (InsertPending k requestHash);
  match inserted with
  | Err e => Done (Err e)
  | Ok _ =>
      row ← ask (SelectRequest k);
      Done (match row with Ok r => Ok (coreReservation requestID requestHash r) | Err e => Err e end)
  end.
Definition storeCommit (tenantID requestID operation response : string) : program store_statement (result ()) :=
  ask (SettleRequest (tenantID, requestID, operation) "SUCCESS" response).
Definition storeReject (tenantID requestID operation reason : string) : program store_statement (result ()) :=
  ask (SettleRequest (tenantID, requestID, operation) "FAILED" reason).

(** Without a database every request is new. *)
Definition MockStore (requestID : string) : Ports.IdemResult :=
  {| ir_State := "NEW"; ir_Response := ""; ir_RequestID := requestID |}.

Definition selectRequest (k : idem_key) (s : security) : result idem_row :=
  from_option_err ErrNoRows (sy_idem_requests s !! k).
Definition insertPending (k : idem_key) (requestHash : string) (s : security) : security :=
  s <| sy_idem_requests ::= sql_insert_nothing k (Postgres.pendingRow requestHash) |>.

Section statements.
Context {C : Type} `{!Connection C}.

#[export] Instance store_answers : Answers store_statement (security * C) := λ R c,
  match c in store_statement R return security * C → R * (security * C) with
  | InsertPending k hash => execute_ (insertPending k hash)
  | SelectRequest k => query (selectRequest k)
  | SettleRequest k status response => execute_ (Postgres.settle status k.1.1 k.1.2 k.2 response)
  end.
End statements.

(** ** Laws *)

(** The two statements answer what the gateway's one statement would answer on
    the tables the [SELECT] sees, if the row is still there. *)
Lemma reserve_at_select tenantID requestID operation requestHash s :
  is_Some (sy_idem_requests s !! (tenantID, requestID, operation)) →
  let '(r, s') := Postgres.Reserve tenantID requestID operation requestHash s in
  s' = s ∧ coreReservation requestID requestHash <$> (sy_idem_requests s !! (tenantID, requestID, operation))
           = Some {| ir_State := id_State r; ir_Response := id_Response r; ir_RequestID := requestID |}.
Proof.
  intros [row Hrow]. unfold Postgres.Reserve. rewrite Hrow. split; [done|]. cbn. f_equal.
  unfold coreReservation, Postgres.reservation. by repeat case_decide.
Qed.

(** No statement of the store or of the gateway removes a row or changes its
    hash. *)
Definition keeps_requests (s s' : security) : Prop :=
  ∀ k row, sy_idem_requests s !! k = Some row →
    ∃ row', sy_idem_requests s' !! k = Some row' ∧ iq_request_hash row' = iq_request_hash row.

#[export] Instance keeps_requests_preorder : PreOrder keeps_requests.
Proof.
  split; [intros s k row Hk; eauto|]. intros s1 s2 s3 H12 H23 k row Hk.
  destruct (H12 k row Hk) as (row2 & Hk2 & <-). by apply H23.
Qed.

Lemma insertPending_keeps k hash s : keeps_requests s (insertPending k hash s).
Proof. intros k' row Hk. exists row. split; [|done]. unfold insertPending. upd. by apply sql_insert_nothing_keeps. Qed.

Lemma settle_keeps status t r o resp s : keeps_requests s (Postgres.settle status t r o resp s).
Proof.
  intros k row Hk. unfold Postgres.settle. upd. rewrite lookup_alter. case_decide as Heq; [|by exists row].
  rewrite <- Heq in Hk. rewrite Hk. cbn. eauto.
Qed.

Lemma Reserve_keeps t r o hash s : keeps_requests s (Postgres.Reserve t r o hash s).2.
Proof.
  intros k row Hk. unfold Postgres.Reserve. destruct (_ !! (t, r, o)) eqn:Hnew; [by exists row|]. cbn.
  exists row. split; [|done]. upd. apply lookup_insert_Some. right. split; [|done]. intros <-. congruence.
Qed.

(** [Reserve] of the store with other statements between its two: the same
    answer as the gateway's [Reserve] at the moment of the [SELECT]. *)
Theorem two_statement_reserve_is_one tenantID requestID operation requestHash s s' :
  let k := (tenantID, requestID, operation) in
  keeps_requests (insertPending k requestHash s) s' →
  let '(r, s'') := Postgres.Reserve tenantID requestID operation requestHash s' in
  s'' = s' ∧ coreReservation requestID requestHash <$> selectRequest k s'
             = Ok {| ir_State := id_State r; ir_Response := id_Response r; ir_RequestID := requestID |}.
Proof.
  intros k Hkeep. destruct (sql_insert_nothing_is_Some k (Postgres.pendingRow requestHash) (sy_idem_requests s)) as [row Hrow].
  destruct (Hkeep k row Hrow) as (row' & Hk & _). pose proof (reserve_at_select tenantID requestID operation requestHash s') as Hr.
  fold k in Hr. specialize (Hr (ex_intro _ _ Hk)). destruct (Postgres.Reserve _ _ _ _ s') as [r s''].
  destruct Hr as [-> Hr]. split; [done|]. unfold selectRequest. rewrite Hk in Hr |- *. injection Hr as Hr. cbn. by rewrite Hr.
Qed.

(** * Keys from creation to withdrawal

    The key of an address that wallet-core created is bound to the tenant in
    the table the gateway checks signing keys against. *)
From S2P Require Import LedgerTables LedgerWithdraw LedgerVault.
From S2P Require Import Calls Orchestrator DispatcherTraces Handlers HandlerTraces HDDerive.
From S2P Require Import HdPub AddressHandler.
From S2P Require Import ApiProperties.

Section creation.
Context `{Crypto}.

(** A reply that goes on: the rest of the trace. *)
Lemma exec_reply_ok {A B} (p : prog (reply A)) (f : A → prog (reply B)) tr b :
  exec (x ↢ p; f x) tr (HttpOk b) → ∃ tr1 tr2 a, tr = tr1 ++ tr2 ∧ exec p tr1 (HttpOk a) ∧ exec (f a) tr2 (HttpOk b).
Proof. intros (tr1 & tr2 & [a|st m] & -> & Hp & Hf)%exec_bind_reply; [eauto 6|by destruct Hf]. Qed.

Lemma exec_orHttp_ok {A} status (c : port (result A)) tr a :
  exec (orHttp status (call c)) tr (HttpOk a) → tr = [Ev c (Ok a)].
Proof. intros ([b|e] & Hc%exec_call & Heq)%exec_orHttp; [|done]. by injection Heq as ->. Qed.

(** The answer is for a key that was bound before it. *)
Lemma created_key_is_bound h r tr resp :
  exec (CreateAddress h r) tr (HttpOk resp) →
  Ev (BindTenantKeyCall (car_TenantID resp) (car_KeyID resp)) (Ok ()) ∈ tr.
Proof.
  unfold CreateAddress. cbv zeta. intros Hx.
  repeat match type of Hx with exec (bind_reply ?p _) _ _ =>
    lazymatch p with
    | orHttp 500 (call (BindTenantKeyCall _ _)) => fail
    | _ => let t := fresh in let Hp := fresh in apply exec_reply_ok in Hx as (? & ? & t & -> & Hp & Hx); clear Hp
    end end.
  repeat match type of Hx with exec (let '(_, _) := ?t in _) _ _ => destruct t end.
  apply exec_reply_ok in Hx as (tr1 & tr2 & [] & -> & Hb%exec_orHttp_ok & Hx).
  apply exec_reply_ok in Hx as (tr3 & tr4 & [] & -> & _ & [_ Hx]). injection Hx as ->.
  rewrite Hb. set_solver.
Qed.
End creation.

(** A key the tenant is bound to passes the gateway's check of signing keys. *)
Lemma bound_key_is_active tenantID keyID s : Postgres.CheckSignPermission tenantID keyID (BindTenantKey tenantID keyID s) = Ok true.
Proof. unfold Postgres.CheckSignPermission. rewrite bool_decide_eq_true_2; [done|]. apply lookup_insert_eq. Qed.

Lemma bound_key_is_accepted {C D : Type} `{!Connection C} `{!Upstream D} tenantID keyID s (c : C) (d : D) :
  (∀ c : C, (statement c).1 = Ok ()) →
  (runs (checkKeys tenantID [] [keyID]) (BindTenantKey tenantID keyID s, c, d)).1 = inr ().
Proof.
  intros Hcalm. unfold checkKeys. rewrite decide_False by apply not_elem_of_nil. cbn [mbind program_bind program_bind_ ask runs].
  assert ((answer (CheckSignPermissionCall tenantID keyID) (BindTenantKey tenantID keyID s, c, d)).1 = Ok true) as Ha.
  { unfold answer, gateway_answers, on_fst, CheckSignPermission, postgres_provider, query. cbn [fst snd].
    pose proof (Hcalm c) as Hc. destruct (statement c) as [[[]|e] c']; [|done].
    cbn [fst mbind]. by rewrite bound_key_is_active. }
  destruct (answer _ _) as [res w]. cbn in Ha. by rewrite Ha.
Qed.
