(* ===== verification/ApiPolicies.v ===== *)
(** * api-gateway: which chain policy decides

    The statement of [CheckTenantChainPolicy] sorts the rows that apply; what
    it finds is the most specific row, looked up by key. *)
From S2P Require Import Prelude GoStrings GoNumbers ApiSecurity.
Import ApiSecurity.Postgres.

(** ** The reference *)

(** A value and the wildcard. *)
Definition alternatives (x : string) : list string := if decide (x = "*") then ["*"] else [x; "*"].

(** From the row for tenant, chain and network to the one for everything. *)
Definition policy_keys (t c n : string) : list policy_key :=
  a ← alternatives t; b ← alternatives c; d ← alternatives n; [(a, b, d)].

Definition active_policy (s : security) (k : policy_key) : option policy_row :=
  p ← sy_tenant_chain_policies s !! k; if decide (po_status p = "ACTIVE") then Some p else None.

Definition mostSpecific (t c n : string) (s : security) : option policy_row :=
  head (omap (active_policy s) (policy_keys t c n)).

(** A withdrawal of this amount stays within the row's limit: there is none,
    or both are integers. *)
Definition within_limit (amount maxWithdraw : string) : Prop :=
  TrimSpace amount = "" ∨ TrimSpace maxWithdraw = "" ∨ TrimSpace maxWithdraw = "0" ∨
  ∃ a m, SetString10 (TrimSpace amount) = Some a ∧ SetString10 (TrimSpace maxWithdraw) = Some m ∧ a ≤ m.

Definition policy_allows (operation amount : string) (p : policy_row) : Prop :=
  operation = "deposit" ∧ po_allow_deposit p = true
  ∨ operation = "withdraw" ∧ po_allow_withdraw p = true ∧ within_limit amount (po_max_withdraw_amount p)
  ∨ operation = "sweep" ∧ po_allow_sweep p = true.

(** ** Lexicographic order *)

Lemma lex_ge_refl l : lex_ge l l.
Proof. induction l as [|x l IH]; cbn; [done|]. by rewrite decide_True. Qed.

Lemma lex_ge_total l k : lex_ge l k ∨ lex_ge k l.
Proof.
  revert k. induction l as [|x l IH]; intros [|y k]; cbn; auto.
  destruct (decide (x = y)) as [->|]; [rewrite decide_True by done; apply IH|].
  rewrite (decide_False (P := y = x)) by done. rewrite !bool_decide_spec. lia.
Qed.

Lemma lex_ge_trans l k m : lex_ge l k → lex_ge k m → lex_ge l m.
Proof.
  revert k m. induction l as [|x l IH]; intros [|y k] [|z m]; cbn; try done.
  destruct (decide (x = y)) as [->|].
  - destruct (decide (y = z)) as [->|]; [apply IH|done].
  - rewrite bool_decide_spec. destruct (decide (y = z)) as [->|].
    + intros Hyx _. rewrite decide_False by done. by apply bool_decide_spec.
    + rewrite bool_decide_spec. intros Hyx Hzy. rewrite decide_False by lia. apply bool_decide_spec. lia.
Qed.

(** Two rows of columns that are in front of each other begin alike. *)
Lemma lex_ge_prefix l k l' k' :
  length l = length k → lex_ge (l ++ l') (k ++ k') → lex_ge k l → l = k.
Proof.
  revert k. induction l as [|x l IH]; intros [|y k] Hlen; cbn; try done.
  destruct (decide (x = y)) as [->|].
  - rewrite decide_True by done. injection Hlen as Hlen. intros H1 H2. f_equal. by apply IH.
  - rewrite (decide_False (P := y = x)) by done. rewrite !bool_decide_spec. lia.
Qed.

(** How specific a key is. *)
Definition specificity (t c n : string) (k : policy_key) : list Z :=
  [ (if decide (k.1.1 = t) then 1 else 0); (if decide (k.1.2 = c) then 1 else 0); (if decide (k.2 = n) then 1 else 0) ].

Lemma elem_of_policy_keys t c n a b d :
  (a, b, d) ∈ policy_keys t c n ↔ (a = t ∨ a = "*") ∧ (b = c ∨ b = "*") ∧ (d = n ∨ d = "*").
Proof.
  assert (∀ x y, x ∈ alternatives y ↔ x = y ∨ x = "*") as Ha.
  { intros x y. unfold alternatives. case_decide; set_solver. }
  unfold policy_keys. split.
  - intros (x & (y & (z & Hin%list_elem_of_singleton & Hz)%list_elem_of_bind & Hy)%list_elem_of_bind & Hx)%list_elem_of_bind.
    apply Ha in Hx, Hy, Hz. by simplify_eq.
  - intros (Hx & Hy & Hz). apply list_elem_of_bind. exists a. split; [|by apply Ha].
    apply list_elem_of_bind. exists b. split; [|by apply Ha].
    apply list_elem_of_bind. exists d. split; [by apply list_elem_of_singleton|by apply Ha].
Qed.

(** Decide the equations between strings that are known. *)
Ltac known_strings :=
  repeat match goal with
  | |- context [@decide (@eq string ?x ?y) ?d] =>
      first [rewrite (decide_True (P := x = y)) by congruence | rewrite (decide_False (P := x = y)) by congruence]
  end.

Lemma keys_sorted t c n : StronglySorted (λ k k', lex_ge (specificity t c n k) (specificity t c n k')) (policy_keys t c n).
Proof.
  unfold policy_keys, alternatives.
  destruct (decide (t = "*")) as [->|Ht], (decide (c = "*")) as [->|Hc], (decide (n = "*")) as [->|Hn]; cbn;
    repeat first [apply SSorted_nil | apply SSorted_cons | apply Forall_nil_2 | apply Forall_cons_2];
    unfold specificity; cbn [fst snd]; known_strings; exact I.
Qed.

Section select.
Variables (t c n : string).
Abbreviation order := (policy_order t c n).

#[local] Instance order_total : Total order.
Proof. intros e f. apply lex_ge_total. Qed.
#[local] Instance order_trans : Transitive order.
Proof. intros e f g. apply lex_ge_trans. Qed.

Lemma rank_specificity e : policy_rank t c n e = specificity t c n (fst e) ++ [po_priority (snd e); po_id (snd e)].
Proof. done. Qed.

Lemma applies_key e s :
  e ∈ filter (policy_applies t c n) (map_to_list (sy_tenant_chain_policies s)) ↔
  fst e ∈ policy_keys t c n ∧ active_policy s (fst e) = Some (snd e).
Proof.
  rewrite list_elem_of_filter, elem_of_map_to_list'. unfold policy_applies, active_policy.
  destruct e as [[[a b] d] p]. cbn. split.
  - intros [(Hs & Ha & Hb & Hd) ->]. cbn. rewrite decide_True by done. split; [|done].
    apply elem_of_policy_keys. set_solver.
  - intros [Hk Hp]. destruct (_ !! _) as [q|]; cbn in Hp; [|done]. case_decide as Ha; [|done].
    injection Hp as ->. apply elem_of_policy_keys in Hk. set_solver.
Qed.

(** A key is determined by how specific it is. *)
Lemma specificity_inj k k' :
  k ∈ policy_keys t c n → k' ∈ policy_keys t c n → specificity t c n k = specificity t c n k' → k = k'.
Proof.
  destruct k as [[a b] d], k' as [[a' b'] d']. rewrite !elem_of_policy_keys. unfold specificity. cbn.
  intros H1 H2 [= Ha Hb Hd]. repeat case_decide; try done; naive_solver.
Qed.

(** The first key with an active row. *)
Lemma head_omap_key s keys p :
  head (omap (active_policy s) keys) = Some p →
  ∃ before k after, keys = before ++ k :: after ∧ active_policy s k = Some p ∧ Forall (λ k', active_policy s k' = None) before.
Proof.
  induction keys as [|k keys IH]; cbn; [done|]. destruct (active_policy s k) as [q|] eqn:Hq; cbn.
  - intros [= ->]. by exists [], k, keys.
  - intros Hp. destruct (IH Hp) as (b & k' & a & -> & Hk' & Hb). exists (k :: b), k', a.
    split_and!; [done|done|by constructor].
Qed.

Lemma selectPolicy_mostSpecific s : Postgres.selectPolicy t c n s = mostSpecific t c n s.
Proof.
  unfold Postgres.selectPolicy, mostSpecific. set (rows := filter _ _).
  assert (Sorted order (merge_sort order rows)) as Hsort by apply (Sorted_merge_sort _).
  apply Sorted_StronglySorted in Hsort; [|exact order_trans].
  assert (∀ e, e ∈ merge_sort order rows ↔ fst e ∈ policy_keys t c n ∧ active_policy s (fst e) = Some (snd e)) as Hrows.
  { intros e. rewrite merge_sort_Permutation. apply applies_key. }
  destruct (merge_sort order rows) as [|[k p] rest]; cbn [head fmap option_fmap option_map].
  - destruct (head (omap _ _)) as [p|] eqn:Hh; [|done]. exfalso.
    apply head_omap_key in Hh as (b & k & a & Hkeys & Hp & _).
    apply (not_elem_of_nil (k, p)), Hrows. rewrite Hkeys. split; [apply elem_of_app; right; by constructor|done].
  - destruct (proj1 (Hrows (k, p))) as [Hk Hp]; [by constructor|]. cbn in Hk, Hp.
    destruct (head (omap _ _)) as [q|] eqn:Hh.
    + apply head_omap_key in Hh as (b & k' & a & Hkeys & Hq & Hb). cbn. f_equal.
      assert (k = k') as ->; [|congruence].
      assert (k ∈ k' :: a) as Hin.
      { rewrite Hkeys in Hk. apply elem_of_app in Hk as [Hkb|]; [|done].
        rewrite Forall_forall in Hb. specialize (Hb _ Hkb). congruence. }
      apply elem_of_cons in Hin as [->|Hin]; [done|].
      apply specificity_inj; [done|rewrite Hkeys; apply elem_of_app; right; by constructor|].
      assert (order (k, p) (k', q)) as Hge.
      { apply StronglySorted_inv in Hsort as [_ Hall].
        assert ((k', q) ∈ (k, p) :: rest) as [Heq|Hr]%elem_of_cons.
        { apply Hrows. cbn. rewrite Hkeys. split; [apply elem_of_app; right; by constructor|done]. }
        - rewrite Heq. apply lex_ge_refl.
        - rewrite Forall_forall in Hall. by apply Hall. }
      unfold policy_order in Hge. rewrite !rank_specificity in Hge. cbn [fst snd] in Hge.
      eapply lex_ge_prefix; [done|exact Hge|].
      assert (Hs := keys_sorted t c n). rewrite Hkeys in Hs. apply StronglySorted_app_1_elem_of in Hs || idtac.
      clear -Hs Hin. induction b as [|x b IH]; cbn in Hs; apply StronglySorted_inv in Hs as [Hs Hall]; [|by apply IH].
      rewrite Forall_forall in Hall. by apply Hall.
    + exfalso. rewrite head_None in Hh. revert Hk. clear -Hh Hp.
      induction (policy_keys t c n) as [|x l IH]; [by intros ?%elem_of_nil|]. cbn in Hh.
      destruct (active_policy s x) eqn:Hx; [done|]. intros [->|Hl]%elem_of_cons; [congruence|by apply IH].
Qed.
End select.

(** ** What the check grants *)

Lemma checkWithdrawLimit_spec amount maxWithdraw :
  checkWithdrawLimit amount maxWithdraw = Ok () ↔ within_limit amount maxWithdraw.
Proof.
  unfold checkWithdrawLimit, within_limit. case_decide as Hd.
  - destruct Hd as (Ha & Hm & H0). destruct (SetString10 (TrimSpace amount)) as [a|]; cbn; [|naive_solver].
    destruct (SetString10 (TrimSpace maxWithdraw)) as [m|]; cbn; [|naive_solver].
    case_decide; split; try done; [naive_solver lia|]. intros _. right; right; right. exists a, m. split_and!; auto with lia.
  - split; [|done]. intros _. destruct (decide (TrimSpace amount = "")), (decide (TrimSpace maxWithdraw = "")),
      (decide (TrimSpace maxWithdraw = "0")); tauto.
Qed.

(** The switch over the operation. *)
Lemma decided_by_row op amount p :
  (if decide (op = "deposit") then
     if po_allow_deposit p then Ok () else Err (Errorf "deposit not allowed on chain/network")
   else if decide (op = "withdraw") then
     if po_allow_withdraw p then checkWithdrawLimit amount (po_max_withdraw_amount p)
     else Err (Errorf "withdraw not allowed on chain/network")
   else if decide (op = "sweep") then
     if po_allow_sweep p then Ok () else Err (Errorf "sweep not allowed on chain/network")
   else Err (Errorf "unsupported operation")) = Ok () ↔ policy_allows op amount p.
Proof.
  unfold policy_allows. rewrite <- checkWithdrawLimit_spec.
  destruct (decide (op = "deposit")) as [->|]; [destruct (po_allow_deposit p); split; intuition congruence|].
  destruct (decide (op = "withdraw")) as [->|]; [destruct (po_allow_withdraw p); split; intuition congruence|].
  destruct (decide (op = "sweep")) as [->|]; [destruct (po_allow_sweep p); split; intuition congruence|].
  split; intuition congruence.
Qed.

Lemma policy_allows_named op amount p : policy_allows op amount p → op ≠ "".
Proof. intros [[-> _]|[[-> _]|[-> _]]]; done. Qed.

(** C24. An operation is granted exactly when the most specific active policy for
    tenant, chain and network allows it, a withdrawal within its limit; nothing
    is granted for an operation that is not a deposit, a withdrawal or a
    sweep. *)
Theorem chain_policy_decision tenantID chain network operation amount s :
  let t := TrimSpace tenantID in let c := ToLower (TrimSpace chain) in let n := ToLower (TrimSpace network) in
  CheckTenantChainPolicy tenantID chain network operation amount s = Ok () ↔
  t ≠ "" ∧ c ≠ "" ∧ n ≠ "" ∧ ∃ p, mostSpecific t c n s = Some p ∧ policy_allows (ToLower (TrimSpace operation)) amount p.
Proof.
  intros t c n. unfold CheckTenantChainPolicy. fold t c n. rewrite selectPolicy_mostSpecific.
  case_decide as Hempty; [split; [done|tauto]|].
  case_decide as Hop.
  { split; [done|]. intros (_ & _ & _ & p & _ & Hp). by apply policy_allows_named in Hp. }
  destruct (mostSpecific t c n s) as [p|]; [|split; [done|by intros (_ & _ & _ & p & ? & _)]].
  rewrite decided_by_row. split.
  - intros Hp. split_and!; [tauto..|]. by exists p.
  - intros (_ & _ & _ & q & [= ->] & Hq). done.
Qed.

(** A request that only reads is refused whenever it names a chain and a
    network, though any token may read. *)
Lemma reads_with_chain_refused tenantID chain network amount s :
  CheckTenantChainPolicy tenantID chain network "read" amount s ≠ Ok ().
Proof.
  rewrite chain_policy_decision. unfold policy_allows. intros (_ & _ & _ & p & _ & H).
  vm_compute (ToLower (TrimSpace "read")) in H. naive_solver.
Qed.
