(* ===== verification/ApiIdempotency.v ===== *)
(** * api-gateway: requests with one id

    A request that the idempotency store has settled is not forwarded again,
    whatever runs besides; the first of two requests that succeeds decides the
    answer of the second.  While a request is in flight its id protects
    nothing: duplicates are forwarded, and the last one to finish decides the
    record. *)
From S2P Require Import Prelude GoStrings GoNumbers GoJson KeyRef Programs ApiSecurity ApiProxy.
From S2P Require Import ApiProperties.

(** ** Programs that only read the rules *)

Definition consults_rules {R} (c : gateway_call R) : Prop :=
  match c with ValidateTokenCall _ | CheckSignPermissionCall _ _ | CheckPolicyCall _ _ _ _ _ => True | _ => False end.

(** It makes no other call, and [Q] holds of what it returns. *)
Fixpoint reads_only {A} (Q : A → Prop) (p : program gateway_call A) : Prop :=
  match p with
  | Done a => Q a
  | Ask c k => consults_rules c ∧ ∀ r, reads_only Q (k r)
  end.

(** Of a step, [F] holds when it goes on. *)
Definition going_on {A} (F : A → Prop) (res : (Z * string) + A) : Prop := match res with inr a => F a | inl _ => True end.

Lemma reads_only_step {A B} (F : A → Prop) (G : B → Prop) (p : step A) (f : A → step B) :
  reads_only (going_on F) p → (∀ a, F a → reads_only (going_on G) (f a)) → reads_only (going_on G) (a ⤆ p; f a).
Proof.
  intros Hp Hf. unfold bind_step. induction p as [[e|a]|R c k IH]; cbn in *; [done|by apply Hf|].
  destruct Hp as [Hc Hk]. split; [done|]. intros r. by apply IH.
Qed.

Lemma reads_only_require ok status msg : reads_only (going_on (λ _, ok = true)) (require ok status msg).
Proof. by destruct ok. Qed.

Lemma reads_only_checkKeys tenantID seen keys : reads_only (going_on (λ _, True)) (checkKeys tenantID seen keys).
Proof.
  revert seen. induction keys as [|k keys IH]; intros seen; cbn [checkKeys]; [done|].
  case_decide; [apply IH|]. cbn. split; [done|]. intros [[]|]; cbn; [apply IH|done|done].
Qed.

Lemma reads_only_authorize r tenantID permission : reads_only (going_on (λ _, True)) (authorize r tenantID permission).
Proof.
  unfold authorize. cbv zeta. case_decide; cbn; [done|]. split; [done|].
  intros [sc|]; [|done]. case_decide; [done|]. cbn. by destruct (permits _ _).
Qed.

(** What an admitted request says. *)
Definition says (r : http_request) (body : string) (spec : routeSpec) (p : requestContext) : Prop :=
  parseRequestContext r body = Some p ∧ (rt_RequireTenant spec = true → TrimSpace (rx_TenantID p) ≠ "").

Lemma reads_only_admit r body spec : reads_only (going_on (says r body spec)) (admit_request r body spec).
Proof.
  unfold admit_request. eapply (reads_only_step (λ p, parseRequestContext r body = Some p)).
  { unfold expect. by destruct (parseRequestContext r body). }
  intros p Hp. eapply reads_only_step; [apply reads_only_require|]. intros ? Ht.
  eapply reads_only_step; [apply reads_only_authorize|intros ? ?].
  eapply (reads_only_step (λ _, True)); [|intros ? ?].
  { destruct (rt_CheckSignPermission spec); [|done]. unfold checkSignPermission.
    eapply (reads_only_step (λ _, True)); [|intros; apply reads_only_checkKeys]. unfold expect. by destruct (Unmarshal _ _). }
  eapply reads_only_step; [apply reads_only_require|intros ? ?].
  eapply (reads_only_step (λ _, True)); [|intros ? ?].
  { unfold checkPolicy. destruct (decide (_ ∧ _)); [|done]. cbn. split; [done|]. by intros [[]|]. }
  split; [done|]. intros Hr. rewrite Hr in Ht. by apply negb_true_iff, bool_decide_eq_false in Ht.
Qed.

Section store.
Context `{Sha256} {C D : Type} `{!Connection C} `{!Upstream D}.
Abbreviation gateway_world := (security * C * D)%type.

Definition idem_of (w : gateway_world) : gmap idem_key idem_row := sy_idem_requests w.1.1.




End store.

(** ** A settled request *)

Section settled.
Context `{Sha256} {C D : Type} `{!Connection C} `{!Upstream D}.
Abbreviation gateway_world := (security * C * D)%type.
Variable h : ProxyHandler.
Variables (k : idem_key) (row : idem_row).

Definition is_settled : Prop := iq_status row = "SUCCESS" ∨ iq_status row = "FAILED".

(** The call that forwards a request with this tenant, id and operation. *)
Definition forwards_for (u : upstream_request) : Prop :=
  ur_RequestID u = k.1.2 ∧ ∃ path spec, (path, spec) ∈ NewMux ∧ rt_IdempotencyOp spec = k.2 ∧ rt_IdempotencyOp spec ≠ ""
    ∧ ur_URL u = ph_WalletCoreAddr h +:+ path
    ∧ rx_TenantID <$> (Unmarshal contextFields (ur_Body u)) = Some k.1.1.

(** Calls that leave the record and wallet-core alone, and what the store
    answers while the record stands. *)
Definition may_call R (c : gateway_call R) (_ : ()) : Prop :=
  match c with
  | CommitCall t r o _ | RejectCall t r o _ => (t, r, o) ≠ k
  | DoCall u => ¬ forwards_for u
  | _ => True
  end.
Definition may_answer R (c : gateway_call R) (res : R) (_ _ : ()) : Prop :=
  match c in gateway_call R return R → Prop with
  | ReserveCall t r o hash => λ res,
      (t, r, o) = k → (∃ e, res = Err e) ∨ res = Ok (Postgres.reservation hash row)
  | _ => λ _, True
  end res.

Abbreviation harmless := (allowed may_call may_answer (λ _ _, True)).

Lemma harmless_bind {A B} (p : program gateway_call A) (f : A → program gateway_call B) :
  harmless p () → (∀ a, harmless (f a) ()) → harmless (p ≫= f) ().
Proof. intros Hp Hf. apply allowed_bind. eapply allowed_weaken; [|exact Hp]. by intros a []. Qed.

Lemma harmless_reads_only {A} Q (p : program gateway_call A) :
  reads_only Q p → allowed may_call may_answer (λ a _, Q a) p ().
Proof.
  induction p as [a|R c f IH]; cbn; [done|]. intros [Hc Hf]. split; [by destruct c|]. intros r [] _. by apply IH.
Qed.

(** A reservation of the settled record ends the request. *)
Lemma settled_reservation hash : is_settled →
  id_State (Postgres.reservation hash row) = "CONFLICT" ∨ id_State (Postgres.reservation hash row) = "REPLAY"
  ∨ id_State (Postgres.reservation hash row) = "REJECTED".
Proof.
  intros Hset. unfold Postgres.reservation. destruct (decide (_ ≠ _)); [by left|]. destruct Hset as [-> | ->]; cbn; auto.
Qed.

Lemma append_inj_l s t u : s +:+ t = s +:+ u → t = u.
Proof. induction s as [|a s IH]; cbn; [done|]. intros [= Heq]. by apply IH. Qed.

Lemma append_nil_r s : s +:+ "" = s.
Proof. induction s as [|a s IH]; [done|]. exact (f_equal (String a) IH). Qed.

(** Routes are told apart by their paths. *)
Lemma route_of_path path spec spec' : (path, spec) ∈ NewMux → (path, spec') ∈ NewMux → spec = spec'.
Proof.
  assert (NoDup (fst <$> NewMux)) as Hnd by by (apply (bool_decide_unpack _); by vm_compute).
  intros H1 H2. apply list_elem_of_lookup in H1 as [i Hi], H2 as [j Hj].
  assert (i = j) as ->; [|congruence].
  apply (NoDup_lookup (fst <$> NewMux) i j path); [done|by rewrite list_lookup_fmap, Hi|by rewrite list_lookup_fmap, Hj].
Qed.

Lemma op_routes_post path spec : (path, spec) ∈ NewMux → rt_IdempotencyOp spec ≠ "" → rt_Method spec = "POST".
Proof.
  assert (Forall (λ e, rt_IdempotencyOp (snd e) = "" ∨ rt_Method (snd e) = "POST") NewMux) as Hall
    by (apply (bool_decide_unpack _); by vm_compute).
  rewrite Forall_forall in Hall. intros Hin Hop. by destruct (Hall _ Hin).
Qed.

Lemma parsed_tenant r body p : rq_Method r = "POST" → parseRequestContext r body = Some p → TrimSpace (rx_TenantID p) ≠ "" →
  Unmarshal contextFields body = Some p.
Proof.
  intros Hm. unfold parseRequestContext. rewrite Hm. cbn [decide]. rewrite decide_False by done.
  case_decide; [|done]. intros [= <-]. done.
Qed.
(** Forwarding this request would be forwarding for the record. *)
Lemma forwards_for_key r path spec requestID body p :
  (path, spec) ∈ NewMux → rq_Method r = rt_Method spec → body_of r spec = Some body → says r body spec p →
  forwards_for (upstreamRequest h r path requestID body) →
  k = (rx_TenantID p, requestID, rt_IdempotencyOp spec) ∧ rt_IdempotencyOp spec ≠ "".
Proof.
  intros Hin Hm Hb [Hp Ht] (Hid & path' & spec' & Hin' & Hop & Hne & Hurl & Hten). cbn in Hid, Hurl. change (ur_Body _) with body in Hten.
  assert (rq_Method r = "POST") as Hpost.
  { unfold body_of in Hb. destruct (decide (rt_Method spec = "POST")); [congruence|].
    injection Hb as <-. vm_compute in Hten. discriminate. }
  rewrite Hpost in Hurl. rewrite decide_False in Hurl by (by intros [? _]).
  assert (path = path') as <-.
  { apply append_inj_l in Hurl. by rewrite append_nil_r in Hurl. }
  rewrite (route_of_path _ _ _ Hin Hin'). split; [|done].
  rewrite (parsed_tenant r body p) in Hten; [|done|done|apply Ht; by eapply routes_require_tenant].
  injection Hten as ->. destruct k as [[t rid] op]. cbn in *. congruence.
Qed.
Lemma harmless_finish t rid op resp : (t, rid, op) ≠ k → harmless (finishReservation op t rid resp) ().
Proof.
  intros Hk. unfold finishReservation. destruct (decide (200 ≤ _ < 300)); [by split|].
  destruct (decide (400 ≤ _ < 500)); [by split|done].
Qed.

Lemma harmless_record t rid st path spec resp :
  (t, rid, rt_IdempotencyOp spec) ≠ k ∨ rt_IdempotencyOp spec = "" → harmless (record_answer t rid st path spec resp) ().
Proof.
  intros Hk. unfold record_answer. apply harmless_bind.
  - destruct (decide (_ ∧ _)) as [[Hop _]|]; [|done]. apply harmless_finish. by destruct Hk.
  - intros _. by destruct (decide (TrimSpace t ≠ "")).
Qed.

Lemma harmless_proxied r path spec requestID body :
  is_settled → (path, spec) ∈ NewMux → rq_Method r = rt_Method spec → body_of r spec = Some body →
  harmless (proxied h r requestID body path spec) ().
Proof.
  intros Hset Hin Hm Hb. unfold proxied. apply allowed_bind.
  eapply allowed_weaken; [|apply (harmless_reads_only _ _ (reads_only_admit r body spec))].
  intros [e|p] [] Hsays; cbn in Hsays; [done|]. unfold reserve.
  set (rest := λ st, resp ⤆ forward h r path requestID body; _ ← record_answer (rx_TenantID p) requestID st path spec resp;
                     proceed (relayed requestID resp)).
  assert (∀ st, (rx_TenantID p, requestID, rt_IdempotencyOp spec) ≠ k ∨ rt_IdempotencyOp spec = "" → harmless (rest st) ()) as Hrest.
  { intros st Hk. split.
    - intros Hf. destruct (forwards_for_key r path spec requestID body p) as [-> Hop]; try done. by destruct Hk.
    - intros [resp|e] [] _; cbn; [|done]. apply harmless_bind; [by apply harmless_record|done]. }
  destruct (decide (rt_IdempotencyOp spec = "")) as [Hop|Hop]; [apply (Hrest "NONE"); by right|].
  split; [done|]. intros [idem|e] [] Hres; cbn in Hres; [|done].
  unfold program_bind; cbn [program_bind_].
  destruct (decide ((rx_TenantID p, requestID, rt_IdempotencyOp spec) = k)) as [Hk|Hk].
  - destruct (Hres Hk) as [[e ?]|[= ->]]; [done|]. pose proof (settled_reservation (hashRequest body) Hset) as Hst.
    by destruct Hst as [Hst|[Hst|Hst]]; rewrite Hst.
  - repeat (destruct (decide (id_State _ = _)); [done|]). apply Hrest. by left.
Qed.

Lemma harmless_serve r : is_settled → harmless (serve h r) ().
Proof.
  intros Hset. unfold serve. destruct (decide (_ = _)); [done|].
  destruct (List.find _ _) as [[path spec]|] eqn:Hf; [|done].
  apply List.find_some in Hf as [Hin _]. apply list_elem_of_In in Hin.
  unfold proxy. destruct (decide (rq_Method r ≠ _)) as [|Hm]; [done|].
  assert (rq_Method r = rt_Method spec) as Hmeth by (by destruct (decide (rq_Method r = rt_Method spec))).
  apply harmless_bind; [by destruct (decide (_ = ""))|]. intros requestID.
  destruct (body_of r spec) as [body|] eqn:Hb; [|done].
  apply harmless_bind; [by apply harmless_proxied|done].
Qed.

(** One call of a harmless program keeps the record. *)
Lemma harmless_step {R A} (c : gateway_call R) (f : R → program gateway_call A) (w : gateway_world) :
  harmless (Ask c f) () → idem_of w !! k = Some row →
  idem_of (answer c w).2 !! k = Some row ∧ harmless (f (answer c w).1) ().
Proof.
  unfold idem_of. intros [Hpre Hf] Hrow.
  assert (idem_of (answer c w).2 !! k = Some row ∧ may_answer _ c (answer c w).1 () ()) as [Hk Ha].
  { unfold idem_of. clear Hf. destruct c; cbn in *; unfold on_fst, on_snd, query, execute_, execute; cbn;
      try (destruct (statement _) as [[[]|e] c'] || destruct (up_random _ _) || destruct (up_do _ _)); cbn; try done;
      unfold Postgres.Commit, Postgres.Reject, Postgres.settle; upd.
    - unfold Postgres.Reserve. destruct (decide ((tenantID, requestID, operation) = k)) as [->|Hne].
      + rewrite Hrow. cbn. auto.
      + destruct (_ !! (tenantID, _, _)); upd; [done|]. by rewrite lookup_insert_ne.
    - split; [done|]. eauto.
    - by rewrite lookup_alter_ne.
    - by rewrite lookup_alter_ne. }
  split; [done|]. by apply (Hf _ ()).
Qed.
End settled.

Section replay.
Context `{Sha256} {C D : Type} `{!Connection C} `{!Upstream D}.
Abbreviation gateway_world := (security * C * D)%type.
Variable h : ProxyHandler.

Lemma settled_is_kept k row rs (w : gateway_world) ps' w' :
  is_settled row → idem_of w !! k = Some row → rtc interleave (serve h <$> rs, w) (ps', w') →
  idem_of w' !! k = Some row ∧ Forall (λ p, allowed (may_call h k) (may_answer k row) (λ _ _, True) p ()) ps'.
Proof.
  intros Hset Hrow Hr.
  destruct (interleave_invariant (λ p, allowed (may_call h k) (may_answer k row) (λ _ _, True) p ())
    (λ w, idem_of w !! k = Some row) (serve h <$> rs) w ps' w') as [Hps Hw']; try done.
  - intros R c f w1 Hp Hk. by apply (harmless_step h k row c f w1).
  - apply Forall_fmap, Forall_forall. intros r _. by apply harmless_serve.
Qed.

(** Once the store has settled a request, its record never changes and no
    request with its tenant, id and operation is forwarded, whatever requests
    arrive and however their calls interleave. *)
Theorem settled_request_is_final k row rs (w : gateway_world) ps' w' :
  is_settled row → idem_of w !! k = Some row → rtc interleave (serve h <$> rs, w) (ps', w') →
  idem_of w' !! k = Some row ∧ ∀ i u f, ps' !! i = Some (Ask (DoCall u) f) → ¬ forwards_for h k u.
Proof.
  intros Hset Hrow Hr. destruct (settled_is_kept k row rs w ps' w' Hset Hrow Hr) as [Hk Hps]. split; [done|].
  intros i u f Hi. destruct (Forall_lookup_1 _ _ _ _ Hps Hi) as [Hno _]. exact Hno.
Qed.

(** ** Two requests in a row, on a connection that works *)

Hypothesis calm : ∀ c : C, (statement c).1 = Ok ().














End replay.
