(* ===== verification/TenantScope.v ===== *)
(** * Whose data a request of wallet-core touches

    Every call a handler makes through the ports names a tenant, the one of the
    request, and the ledger writes of a route are of one kind.  [within]
    collects both; the lemmas below walk through the handlers. *)
From S2P Require Import Prelude GoStrings GoNumbers GoJson Ports LedgerTables LedgerWithdraw.
From S2P Require Import LedgerVault.
From S2P Require Import Calls Orchestrator DispatcherTraces Handlers TreasuryHandlers.
From S2P Require Import HandlerTraces.
From S2P Require Import HDDerive HdPub AddressHandler CoreServer.

(** ** Tenants and kinds of calls *)

Definition ledger_tenant (c : ledger_call) : string :=
  match c with
  | FreezeWithdrawCall t _ _ _ _ _ _ _ | MarkQueuedWithdrawDoneCall t _ _ _ | RescheduleQueuedWithdrawCall t _ _ _
  | MarkQueuedWithdrawFailedCall t _ _ | ReplaceBroadcastedWithdrawCall t _ _ _ _ | ResetBroadcastedWithdrawCall t _ _
  | ConfirmWithdrawCall t _ _ _ | ConfirmWithdrawOnChainCall t _ _ _ _ | FailWithdrawOnChainCall t _ _ _ _
  | ReleaseWithdrawCall t _ _ _ | FailSweepOnChainCall t _ _ _ | MarkTreasuryTransferBroadcastedCall t _ _ _
  | FailTreasuryTransferOnChainCall t _ _ _ => t
  | QueueWithdrawCall inp => wq_TenantID inp
  | CreditDepositCall inp => dc_TenantID inp
  | ReserveSweepCall inp => sv_TenantID inp
  | StartSweepCall inp => sc_TenantID inp
  | ConfirmSweepOnChainCall inp => sf_TenantID inp
  | ReserveTreasuryTransferCall inp => tr_TenantID inp
  | ConfirmTreasuryTransferOnChainCall inp => tc_TenantID inp
  end.

(** What a write needs a token for. *)
Definition ledger_permission (c : ledger_call) : string :=
  match c with
  | CreditDepositCall _ => "deposit"
  | ReserveSweepCall _ | StartSweepCall _ | ConfirmSweepOnChainCall _ | FailSweepOnChainCall _ _ _ _
  | ReserveTreasuryTransferCall _ | MarkTreasuryTransferBroadcastedCall _ _ _ _
  | ConfirmTreasuryTransferOnChainCall _ | FailTreasuryTransferOnChainCall _ _ _ _ => "sweep"
  | _ => "withdraw"
  end.

Definition port_tenant {R} (c : port R) : option string :=
  match c with
  | LedgerCall c => Some (ledger_tenant c)
  | WithdrawStatusOf t _ | TransferStatusOf t _ | AssetsOf t _ | BalanceOf t _ _ | SignMessage t _ _ _
  | AccountOf t _ | AddressesOf t _ | AddressByKeyID t _ _ | ListAccounts t _ _ | DeriveKeyCall t _ _
  | BindTenantKeyCall t _ => Some t
  | UpsertAccount inp => Some (wa_TenantID inp)
  | PrepareAddressCall inp => Some (pi_TenantID inp)
  | UpsertWatchAddressCall inp => Some (wi_TenantID inp)
  | _ => None
  end.

(** A call on behalf of the tenant [t], trimmed; a write of the kind [perm].
    The dispatcher's claims are of all tenants. *)
Definition within (t perm : string) R (c : port R) : Prop :=
  match c with
  | LedgerCall c => TrimSpace (ledger_tenant c) = t ∧ ledger_permission c = perm
  | ClaimQueued _ | ClaimStale _ _ _ => False
  | c => ∀ t', port_tenant c = Some t' → TrimSpace t' = t
  end.

Create HintDb scope.

Section parts.
Variables (t perm : string).
Abbreviation scoped := (all_calls (within t perm)).

Lemma scoped_guard ok s m : scoped (guard_http ok s m).
Proof. done. Qed.
Lemma scoped_isMethod {B} (r : http_request B) m : scoped (isMethod r m).
Proof. done. Qed.

Lemma scoped_call {R} (c : port R) : within t perm R c → scoped (call c).
Proof. by split. Qed.

Lemma scoped_or {A} s (p : prog (result A)) : scoped p → scoped (orHttp s p).
Proof. apply all_calls_orHttp. Qed.

Variable h : WithdrawHandler.

Lemma scoped_active t' a action : TrimSpace t' = t → scoped (ensureAccountActive h t' a action).
Proof.
  intros Ht. unfold ensureAccountActive. destruct (negb _); [done|].
  apply all_calls_bind; [apply scoped_call; by intros ? [= <-]|done].
Qed.

Lemma scoped_confirmations ch n : scoped (policyConfirmations h ch n).
Proof.
  unfold policyConfirmations. destruct (negb _); [done|].
  apply all_calls_bind_reply; [by apply scoped_or, scoped_call|]. intros p. by destruct (negb _).
Qed.

Lemma scoped_request_id header fallback : scoped (requestIDFrom header fallback).
Proof. unfold requestIDFrom. cbv zeta. case_decide; [done|]. by case_decide. Qed.

Lemma scoped_find t' a ch n c : TrimSpace t' = t → scoped (findAccountAddress t' a ch n c).
Proof. intros Ht. apply all_calls_bind_ok; [apply scoped_call; by intros ? [= <-]|done]. Qed.

Lemma scoped_find_key t' a k : TrimSpace t' = t → scoped (findAccountAddressByKeyID h t' a k).
Proof.
  intros Ht. unfold findAccountAddressByKeyID. cbv zeta. case_decide; [done|]. destruct (negb _); [done|].
  apply all_calls_bind; [apply scoped_call; by intros ? [= <-]|]. intros [it|e]; [done|].
  apply all_calls_bind; [apply scoped_call; by intros ? [= <-]|]. by intros [].
Qed.

Lemma scoped_signers req : TrimSpace (cwq_TenantID req) = t → scoped (resolveWithdrawSigners h req).
Proof.
  intros Ht. unfold resolveWithdrawSigners. destruct (requestedKeys req) as [|k ks]; [done|].
  generalize (k :: ks). intros l. induction l as [|x l IH]; cbn [signersOf]; [done|].
  apply all_calls_bind_ok; [by apply scoped_find_key|]. intros addr. case_decide; [done|].
  by apply all_calls_bind_ok.
Qed.

Lemma scoped_vault t' a s : TrimSpace t' = t → scoped (getVaultAvailable t' a s).
Proof. intros Ht. apply all_calls_bind_ok; [apply scoped_call; by intros ? [= <-]|done]. Qed.

Lemma scoped_destination req : TrimSpace (srq_TenantID req) = t → scoped (resolveSweepDestinationAccount h req).
Proof.
  intros Ht. unfold resolveSweepDestinationAccount. cbv zeta. case_decide; [done|].
  apply all_calls_bind_ok; [by apply scoped_vault|]. intros v. by apply all_calls_bind_ok.
Qed.

Lemma scoped_notify status c1 c2 :
  within t perm _ (LedgerCall c1) → within t perm _ (LedgerCall c2) → scoped (onchainNotify status c1 c2).
Proof.
  intros H1 H2. unfold onchainNotify. cbv zeta. case_decide; [by apply scoped_or, scoped_call|].
  case_decide; [by apply scoped_or, scoped_call|done].
Qed.

Lemma scoped_retry n c : within t perm _ (LedgerCall c) → scoped (retryFrom n (call (LedgerCall c))).
Proof.
  intros Hc. induction n as [|n IH]; [done|]. cbn [retryFrom]. apply all_calls_bind; [by apply scoped_call|].
  intros [u|e]; [done|]. by destruct n.
Qed.

(** ** The orchestrator *)

Context `{SolanaLib}.

Lemma scoped_funds req : scoped (ensureChainFunds req).
Proof.
  unfold ensureChainFunds. destruct (negb _); [done|]. case_decide; [done|].
  apply all_calls_bind_ok; [done|]. intros amt.
  apply all_calls_bind_ok; [apply all_calls_bind; by try intros|]. intros bal.
  apply all_calls_bind_ok; [done|]. intros []; cbn; [|done].
  split; [done|]. intros [native|]; cbn; [|done].
  apply all_calls_bind_ok.
  - unfold requiredLamports. destruct (solanaAssociatedTokenAddress _ _); [|done]. by cbn.
  - intros lamports. by destruct (gteAmount _ _) as [[]|].
Qed.

Lemma scoped_sign t' st k m : TrimSpace t' = t → scoped (call (SignMessage t' st k m)).
Proof. intros Ht. apply scoped_call. by intros ? [= <-]. Qed.

Lemma scoped_signEach t' st ch signers i hashes : TrimSpace t' = t → scoped (signEach t' st ch signers i hashes).
Proof.
  intros Ht. revert i. induction hashes as [|hash hs IH]; intros i; cbn [signEach]; [done|].
  destruct (signers !! _) as [s|]; [|done].
  apply all_calls_bind_ok; [by apply scoped_sign|]. intros sig. apply all_calls_bind_ok; [apply IH|done].
Qed.

Lemma scoped_broadcast req : TrimSpace (rq_TenantID req) = t → scoped (BroadcastOnly req).
Proof.
  intros Ht. unfold BroadcastOnly. apply all_calls_bind_ok; [apply scoped_funds|intros _].
  unfold buildSignAndBroadcast. apply all_calls_bind_ok; [done|]. intros u.
  apply all_calls_bind_ok; [done|]. intros signers. cbv zeta. case_decide.
  - destruct signers as [|s signers]; [done|]. apply all_calls_bind_ok; [|done].
    unfold signAndBroadcastRaw. apply all_calls_bind_ok; [by apply scoped_sign|]. intros sig. by apply scoped_call.
  - apply all_calls_bind_ok; [|intros sigs; apply all_calls_bind_ok; [by apply scoped_call|done]].
    unfold buildSignatures. do 2 (case_decide; [done|]). by apply scoped_signEach.
Qed.
End parts.
#[export] Hint Resolve scoped_guard scoped_isMethod scoped_active scoped_confirmations scoped_request_id scoped_find
  scoped_find_key scoped_signers scoped_vault scoped_destination scoped_funds scoped_broadcast : scope.

(** ** The handlers *)

(** The steps in front of a handler's writes. *)
Ltac scope :=
  cbv zeta;
  lazymatch goal with
  | |- all_calls _ (bind_reply (decodeJSONBody _) _) =>
      apply all_calls_decode; let req := fresh "req" in let Hreq := fresh "Hreq" in intros req Hreq;
      try match goal with Hb : ∀ q, hq_Body _ = Some q → _ |- _ => specialize (Hb _ Hreq) end; scope
  | |- all_calls _ (bind_reply _ _) => apply all_calls_bind_reply; [scope|let x := fresh "x" in intros x; scope]
  | |- all_calls _ (bind_ok_or _ _) => apply all_calls_bind_ok; [scope|let x := fresh "x" in intros x; scope]
  | |- all_calls _ (mbind _ _) => apply all_calls_bind; [scope|let x := fresh "x" in intros x; scope]
  | |- all_calls _ (orHttp _ _) => apply scoped_or; scope
  | |- all_calls _ (call _) => apply scoped_call; try solve [done | intros ? [= <-]; eauto | split; cbn; eauto]
  | |- all_calls _ (Ret _) => exact I
  | |- all_calls _ (if ?c then _ else _) => destruct c; scope
  | |- all_calls _ (match ?x with _ => _ end) => destruct x; scope
  | |- all_calls _ _ => first [solve [eauto with scope] | idtac]
  end.

Section handlers.
Variables (t perm : string) (h : WithdrawHandler).
Abbreviation scoped := (all_calls (within t perm)).
Context `{SolanaLib} `{Crypto}.

Lemma scoped_Create r : (∀ req, hq_Body r = Some req → TrimSpace (cwq_TenantID req) = t) → perm = "withdraw" → scoped (Create h r).
Proof. intros Ht ->. unfold Create. scope. Qed.

Lemma scoped_WithdrawOnchainNotify r :
  (∀ req, hq_Body r = Some req → TrimSpace (wnq_TenantID req) = t) → perm = "withdraw" → scoped (WithdrawOnchainNotify r).
Proof. intros Ht ->. unfold WithdrawOnchainNotify. scope; apply scoped_notify; split; cbn; eauto. Qed.

Lemma scoped_Status r : TrimSpace (hq_Query r "tenant_id") = t → scoped (Status r).
Proof. intros Ht. unfold Status. scope. Qed.

Lemma scoped_DepositNotify r :
  (∀ req, hq_Body r = Some req → TrimSpace (dnq_TenantID req) = t) → perm = "deposit" → scoped (DepositNotify h r).
Proof. intros Ht ->. unfold DepositNotify. scope. Qed.

Lemma scoped_Balance r : TrimSpace (hq_Query r "tenant_id") = t → scoped (Balance r).
Proof. intros Ht. unfold Balance. scope. Qed.

Lemma scoped_AccountUpsert r : (∀ req, hq_Body r = Some req → TrimSpace (auq_TenantID req) = t) → scoped (AccountUpsert h r).
Proof. intros Ht. unfold AccountUpsert. scope. Qed.

Lemma scoped_AccountGet r : TrimSpace (hq_Query r "tenant_id") = t → scoped (AccountGet r).
Proof. intros Ht. unfold AccountGet. scope. Qed.

Lemma scoped_AccountList r : TrimSpace (hq_Query r "tenant_id") = t → scoped (AccountList r).
Proof. intros Ht. unfold AccountList. scope. Qed.

Lemma scoped_AccountAddresses r : TrimSpace (hq_Query r "tenant_id") = t → scoped (AccountAddresses r).
Proof. intros Ht. unfold AccountAddresses. scope. Qed.

Lemma scoped_AccountAssets r : TrimSpace (hq_Query r "tenant_id") = t → scoped (AccountAssets r).
Proof. intros Ht. unfold AccountAssets. scope. Qed.

Lemma scoped_SweepRun r :
  (∀ req, hq_Body r = Some req → TrimSpace (srq_TenantID req) = t) → perm = "sweep" → scoped (SweepRun h r).
Proof.
  intros Ht ->. unfold SweepRun.
  assert (∀ req, srq_TenantID (setTreasury req) = srq_TenantID req) as Hset by (intros req; unfold setTreasury; by case_decide).
  apply all_calls_bind_reply; [done|intros _]. apply all_calls_bind_reply; [done|intros _].
  apply all_calls_decode. intros req Hreq. specialize (Ht _ Hreq). rewrite <- Hset in Ht.
  apply all_calls_bind_reply; [apply scoped_active; by rewrite <- Hset|intros _]. cbv zeta. generalize (setTreasury req) Ht.
  clear. intros req Ht. scope. unfold sweepReserved. scope; apply scoped_retry; split; cbn; eauto.
Qed.

Lemma scoped_SweepOnchainNotify r :
  (∀ req, hq_Body r = Some req → TrimSpace (snq_TenantID req) = t) → perm = "sweep" → scoped (SweepOnchainNotify r).
Proof. intros Ht ->. unfold SweepOnchainNotify. scope; apply scoped_notify; split; cbn; eauto. Qed.

Lemma scoped_TreasuryTransfer r :
  (∀ req, hq_Body r = Some req → TrimSpace (ttq_TenantID req) = t) → perm = "sweep" → scoped (TreasuryTransfer h r).
Proof. intros Ht ->. unfold TreasuryTransfer, transferNew. scope; apply scoped_retry; split; cbn; eauto. Qed.

Lemma scoped_TreasuryTransferOnchainNotify r :
  (∀ req, hq_Body r = Some req → TrimSpace (tnq_TenantID req) = t) → perm = "sweep" → scoped (TreasuryTransferOnchainNotify r).
Proof. intros Ht ->. unfold TreasuryTransferOnchainNotify. scope; apply scoped_notify; split; cbn; eauto. Qed.

Lemma scoped_TreasuryTransferStatus r : TrimSpace (hq_Query r "tenant_id") = t → scoped (TreasuryTransferStatusHandler r).
Proof. intros Ht. unfold TreasuryTransferStatusHandler. scope. Qed.

Lemma scoped_TreasuryWaterline r : TrimSpace (hq_Query r "tenant_id") = t → scoped (TreasuryWaterline r).
Proof.
  intros Ht. assert (TrimSpace (TrimSpace (hq_Query r "tenant_id")) = t) as Ht' by by rewrite TrimSpace_idem.
  unfold TreasuryWaterline. scope.
Qed.

Lemma scoped_CreateAddress r : (∀ req, hq_Body r = Some req → TrimSpace (caq_TenantID req) = t) → scoped (CreateAddress h r).
Proof. intros Ht. unfold CreateAddress, newAddressKey. scope. Qed.
End handlers.

(** * Writes of one tenant leave the rows of the others alone

    Every table of the ledger has the tenant in its key.  A write names a
    tenant ([ledger_tenant]); every other tenant's rows are what they were. *)
From S2P Require Import LedgerQueue.
From S2P Require Import LedgerDeposit.

(** ** Tables *)

(** Keys with a tenant. *)
Class Tenanted (K : Type) := tenant_of : K → string.
#[export] Instance order_tenanted : Tenanted order_key := fst.
#[export] Instance account_tenanted : Tenanted account_key := λ k, k.1.1.
#[export] Instance journal_tenanted : Tenanted journal_key := λ k, k.1.1.1.1.

Section table.
Context {K V : Type} `{Countable K} `{!Tenanted K}.
Implicit Types (m : gmap K V) (u : string).

(** The rows of a tenant are the same. *)
Definition same_rows u m m' : Prop := ∀ k, tenant_of k = u → m' !! k = m !! k.

#[export] Instance same_rows_preorder u : PreOrder (same_rows u).
Proof. split; [by intros m k|]. intros m1 m2 m3 H1 H2 k Hk. rewrite H2, H1; done. Qed.

Lemma same_rows_insert u m k v : tenant_of k ≠ u → same_rows u m (<[k:=v]> m).
Proof. intros Hk k' Hk'. apply lookup_insert_ne. by intros ->. Qed.

Lemma same_rows_update u m k g : tenant_of k ≠ u → same_rows u m (sql_update k g m).
Proof. intros Hk k' Hk'. apply sql_update_ne. by intros ->. Qed.

Lemma same_rows_insert_nothing u m k v : tenant_of k ≠ u → same_rows u m (sql_insert_nothing k v m).
Proof. intros Hk. unfold sql_insert_nothing. case_match; [done|]. by apply same_rows_insert. Qed.

Lemma same_rows_upsert u m k v g : tenant_of k ≠ u → same_rows u m (sql_upsert k v g m).
Proof. intros Hk. unfold sql_upsert. case_match; by apply same_rows_insert. Qed.
End table.

Create HintDb frame.
#[export] Hint Resolve same_rows_insert same_rows_update same_rows_insert_nothing same_rows_upsert : frame.

(** ** The ledger *)

(** Every row of the tenant [u], in every table, is the same. *)
Record untouched (u : string) (d d' : ledger) : Prop := {
  un_freezes : same_rows u (ledger_freezes d) (ledger_freezes d');
  un_entries : same_rows u (ledger_entries d) (ledger_entries d');
  un_balances : same_rows u (ledger_balances d) (ledger_balances d');
  un_journals : same_rows u (ledger_journals d) (ledger_journals d');
  un_jobs : same_rows u (withdraw_jobs d) (withdraw_jobs d');
  un_attempts : same_rows u (withdraw_tx_attempts d) (withdraw_tx_attempts d');
  un_deposits : same_rows u (deposit_events d) (deposit_events d');
  un_audit : same_rows u (ledger_audit_events d) (ledger_audit_events d');
  un_sweeps : same_rows u (sweep_orders d) (sweep_orders d');
  un_transfers : same_rows u (treasury_transfer_orders d) (treasury_transfer_orders d');
  un_vaults : same_rows u (vault_balances d) (vault_balances d');
  un_vault_journals : same_rows u (vault_journals d) (vault_journals d');
}.

#[export] Instance untouched_preorder u : PreOrder (untouched u).
Proof.
  split; [by intros d; split|].
  intros d1 d2 d3 [] []. split; (etransitivity; eassumption).
Qed.

Section writes.
Variables (t u : string).
Hypothesis other : t ≠ u.

(** What one statement does to one table. *)
Ltac one_table := intros; split; cbn; try reflexivity; auto with frame.

Lemma upsertBalance_untouched a s av fr lo d : untouched u d (upsertBalanceTx t a s av fr lo d).
Proof using other. one_table. Qed.
Lemma insertJournal_untouched ty id a s e am ba d : untouched u d (insertJournal t ty id a s e am ba d).
Proof using other. one_table. Qed.
Lemma insertEntry_untouched a o s ty am st d : untouched u d (insertEntry t a o s ty am st d).
Proof using other. one_table. Qed.
Lemma setFreezeEntryStatus_untouched o st d : untouched u d (setFreezeEntryStatus t o st d).
Proof using other. one_table. Qed.
Lemma updateFreeze_untouched o g d : untouched u d (updateFreeze t o g d).
Proof using other. one_table. Qed.
Lemma updateJob_untouched o g d : untouched u d (updateJob t o g d).
Proof using other. one_table. Qed.
Lemma setAttemptStatus_untouched o h st d : untouched u d (setAttemptStatus t o h st d).
Proof using other. one_table. Qed.
Lemma upsertAttempt_untouched o h un d : untouched u d (upsertAttempt t o h un d).
Proof using other. one_table. Qed.
Lemma upsertVaultBalance_untouched a s av d : untouched u d (upsertVaultBalanceTx t a s av d).
Proof using other. one_table. Qed.
Lemma insertVaultJournal_untouched ty id a s e am ba d : untouched u d (insertVaultJournal t ty id a s e am ba d).
Proof using other. one_table. Qed.
Lemma updateSweep_untouched o g d : untouched u d (updateSweep t o g d).
Proof using other. one_table. Qed.
Lemma updateTransfer_untouched o g d : untouched u d (updateTransfer t o g d).
Proof using other. one_table. Qed.
Lemma cancelEntries_untouched a o f d : untouched u d (cancelEntries t a o f d).
Proof using other. unfold cancelEntries. etransitivity; [apply setFreezeEntryStatus_untouched|apply insertEntry_untouched]. Qed.
Lemma freezes_untouched f d :
  same_rows u (ledger_freezes d) (f (ledger_freezes d)) → untouched u d (d <| ledger_freezes ::= f |>).
Proof using. one_table. Qed.
Lemma attempts_untouched f d :
  same_rows u (withdraw_tx_attempts d) (f (withdraw_tx_attempts d)) → untouched u d (d <| withdraw_tx_attempts ::= f |>).
Proof using. one_table. Qed.
Lemma jobs_untouched f n d :
  same_rows u (withdraw_jobs d) (f (withdraw_jobs d)) →
  untouched u d (d <| withdraw_jobs_id_seq := n |> <| withdraw_jobs ::= f |>).
Proof using. one_table. Qed.
Lemma sweeps_untouched f d :
  same_rows u (sweep_orders d) (f (sweep_orders d)) → untouched u d (d <| sweep_orders ::= f |>).
Proof using. one_table. Qed.
Lemma transfers_untouched f d :
  same_rows u (treasury_transfer_orders d) (f (treasury_transfer_orders d)) →
  untouched u d (d <| treasury_transfer_orders ::= f |>).
Proof using. one_table. Qed.
Lemma deposits_untouched f d :
  same_rows u (deposit_events d) (f (deposit_events d)) → untouched u d (d <| deposit_events ::= f |>).
Proof using. one_table. Qed.
End writes.

#[export] Hint Resolve upsertBalance_untouched insertJournal_untouched insertEntry_untouched
  setFreezeEntryStatus_untouched updateFreeze_untouched updateJob_untouched setAttemptStatus_untouched
  upsertAttempt_untouched upsertVaultBalance_untouched insertVaultJournal_untouched updateSweep_untouched
  updateTransfer_untouched cancelEntries_untouched freezes_untouched attempts_untouched jobs_untouched
  sweeps_untouched transfers_untouched deposits_untouched : frame.

(** Statement by statement, the last one first. *)
Ltac statements :=
  repeat match goal with
  | |- untouched _ ?d ?d => reflexivity
  | |- untouched _ _ (if ?c then _ else _) => destruct c
  | |- untouched _ _ (_ <| ledger_audit_events ::= _ |>) => shelve
  | |- untouched _ _ _ => etransitivity; [|solve [eauto 3 with frame]]
  end.

(** Through the guards of an operation to the end of its branches. *)
Ltac branches Hop :=
  repeat match type of Hop with
         | (_ ≫= _) = Ok _ => mbind_inv Hop
         | (if ?c then _ else _) = Ok _ => destruct c
         | match ?x with _ => _ end = Ok _ => destruct x
         end;
  first [ discriminate Hop | injection Hop as <- ].
Ltac frame_of Hop := branches Hop; statements.

Section operations.
Variables (t u : string).
Hypothesis other : t ≠ u.

Lemma freezeWithdrawTx_untouched a o ch n s amt req d d' :
  freezeWithdrawTx t a o ch n s amt req d = Ok d' → untouched u d d'.
Proof using other. unfold freezeWithdrawTx, freezeNewOrder. cbv zeta. intros Hop. frame_of Hop. Qed.
Lemma FreezeWithdraw_untouched a o ch n s amt req d d' :
  FreezeWithdraw t a o ch n s amt req d = Ok d' → untouched u d d'.
Proof using other. apply freezeWithdrawTx_untouched. Qed.
Lemma ConfirmWithdraw_untouched now a o h d d' : ConfirmWithdraw now t a o h d = Ok d' → untouched u d d'.
Proof using other. unfold ConfirmWithdraw. cbv zeta. intros Hop. frame_of Hop. Qed.
Lemma ConfirmWithdrawOnChain_untouched now o h cf rc d d' :
  ConfirmWithdrawOnChain now t o h cf rc d = Ok d' → untouched u d d'.
Proof using other. unfold ConfirmWithdrawOnChain. cbv zeta. intros Hop. frame_of Hop. Qed.
Lemma unfreezeBalance_untouched a f d av d' : unfreezeBalance t a f d = Ok (av, d') → untouched u d d'.
Proof using other. unfold unfreezeBalance. intros Hop. do 3 mbind_inv Hop. injection Hop as <- <-. statements. Qed.
Lemma FailWithdrawOnChain_untouched now o h r cf d d' :
  FailWithdrawOnChain now t o h r cf d = Ok d' → untouched u d d'.
Proof using other.
  unfold FailWithdrawOnChain. cbv zeta. intros Hop. frame_of Hop. by eapply unfreezeBalance_untouched.
Qed.
Lemma ReleaseWithdraw_untouched now a o r d d' : ReleaseWithdraw now t a o r d = Ok d' → untouched u d d'.
Proof using other.
  unfold ReleaseWithdraw. cbv zeta. intros Hop. frame_of Hop.
  etransitivity; [|by eapply unfreezeBalance_untouched]. statements.
Qed.
Lemma MarkQueuedWithdrawDone_untouched now o h un d d' :
  MarkQueuedWithdrawDone now t o h un d = Ok d' → untouched u d d'.
Proof using other. unfold MarkQueuedWithdrawDone. cbv zeta. intros Hop. frame_of Hop. Qed.
Lemma ReplaceBroadcastedWithdraw_untouched now o h h' un d d' :
  ReplaceBroadcastedWithdraw now t o h h' un d = Ok d' → untouched u d d'.
Proof using other. unfold ReplaceBroadcastedWithdraw. cbv zeta. intros Hop. frame_of Hop. Qed.
End operations.

(** ** Deposits *)

Section deposits.
Variables (inp : DepositCreditInput) (u : string).
Hypothesis other : dc_TenantID inp ≠ u.

Lemma creditStep_untouched d d' : creditStep inp d = Ok d' → untouched u d d'.
Proof using other. unfold creditStep. cbv zeta. intros Hop. frame_of Hop. Qed.
Lemma unlockStep_untouched d d' : unlockStep inp d = Ok d' → untouched u d d'.
Proof using other. unfold unlockStep. cbv zeta. intros Hop. frame_of Hop. Qed.
Lemma recordReorgAuditEvent_untouched d : untouched u d (recordReorgAuditEvent inp d).
Proof using other. split; cbn; try reflexivity. auto with frame. Qed.
Lemma revertStep_untouched old d d' : revertStep inp old d = Ok d' → untouched u d d'.
Proof using other.
  unfold revertStep. cbv zeta. intros Hop. mbind_inv Hop. mbind_inv Hop. mbind_inv Hop. injection Hop as <-.
  etransitivity; [|apply recordReorgAuditEvent_untouched]. statements.
Qed.
Lemma applyDeposit_untouched st c un d d' : applyDeposit inp st c un d = Ok d' → untouched u d d'.
Proof using other.
  unfold applyDeposit. cbv zeta. intros Hop.
  assert (∀ (b : bool) (f : ledger → result ledger) d d', (∀ d d', f d = Ok d' → untouched u d d') →
    (if b then f d else Ok d) = Ok d' → untouched u d d') as Hif.
  { intros [] f e e' Hf He; [by apply Hf|]. by injection He as <-. }
  apply bind_ok_inv in Hop as (d1 & H1 & Hop). apply bind_ok_inv in Hop as (d2 & H2 & Hop).
  apply bind_ok_inv in Hop as (d3 & H3 & Hop). injection Hop as <-.
  apply (Hif _ _ _ _ creditStep_untouched) in H1. apply (Hif _ _ _ _ unlockStep_untouched) in H2.
  apply (Hif _ _ _ _ (revertStep_untouched un)) in H3.
  do 3 (etransitivity; [eassumption|]). unfold depositKey. statements.
Qed.
Lemma CreditDeposit_untouched d d' : CreditDeposit inp d = Ok d' → untouched u d d'.
Proof using other.
  unfold CreditDeposit. case_match; intros Hop%applyDeposit_untouched; [done|].
  etransitivity; [|exact Hop]. unfold depositKey. statements.
Qed.
End deposits.

(** ** Every write *)

Lemma QueueWithdraw_untouched now inp u d d' :
  wq_TenantID inp ≠ u → QueueWithdraw now inp d = Ok d' → untouched u d d'.
Proof.
  intros Hu. unfold QueueWithdraw. cbv zeta. intros Hop. apply bind_ok_inv in Hop as (d1 & H1 & Hop).
  injection Hop as <-. etransitivity; [by eapply freezeWithdrawTx_untouched|]. statements.
Qed.

(** A write leaves the rows of every tenant but its own alone. *)
Lemma run_ledger_untouched now c u d d' :
  ledger_tenant c ≠ u → run_ledger now c d = Ok d' → untouched u d d'.
Proof.
  destruct c; cbn [ledger_tenant run_ledger]; intros Hu Hop;
    try (unfold RescheduleQueuedWithdraw, MarkQueuedWithdrawFailed, ResetBroadcastedWithdraw, FailSweepOnChain,
           StartSweep, ConfirmSweepOnChain, ReserveSweep, ReserveTreasuryTransfer, MarkTreasuryTransferBroadcasted,
           ConfirmTreasuryTransferOnChain, FailTreasuryTransferOnChain in Hop; cbv zeta in Hop; by frame_of Hop).
  all: eauto 3 using FreezeWithdraw_untouched, QueueWithdraw_untouched, ReplaceBroadcastedWithdraw_untouched,
    ConfirmWithdraw_untouched, ConfirmWithdrawOnChain_untouched, FailWithdrawOnChain_untouched, ReleaseWithdraw_untouched,
    CreditDeposit_untouched.
Qed.

(** ** Programs *)

(** What a kind of token may not write: the deposit events, the withdrawals,
    the sweeps and transfers. *)
Definition kept_by (permission : string) (d d' : ledger) : Prop :=
  (permission ≠ "deposit" → deposit_events d' = deposit_events d ∧ ledger_audit_events d' = ledger_audit_events d)
  ∧ (permission ≠ "withdraw" → ledger_freezes d' = ledger_freezes d ∧ ledger_entries d' = ledger_entries d
       ∧ withdraw_jobs d' = withdraw_jobs d ∧ withdraw_tx_attempts d' = withdraw_tx_attempts d)
  ∧ (permission ≠ "sweep" → sweep_orders d' = sweep_orders d ∧ treasury_transfer_orders d' = treasury_transfer_orders d
       ∧ vault_balances d' = vault_balances d ∧ vault_journals d' = vault_journals d)
  ∧ (permission ≠ "withdraw" → permission ≠ "deposit" →
       ledger_balances d' = ledger_balances d ∧ ledger_journals d' = ledger_journals d).

#[export] Instance kept_by_preorder p : PreOrder (kept_by p).
Proof.
  unfold kept_by. split; [by intros d; split_and!|].
  intros d1 d2 d3 (A1 & B1 & C1 & D1) (A2 & B2 & C2 & D2). split_and!; intros;
    repeat match goal with Hi : ?a → _, Ha : ?a |- _ => specialize (Hi Ha) end; destruct_and?; split_and?; congruence.
Qed.

Section kinds.
Ltac kept := solve [split_and!; intros; first [done | split_and!; reflexivity | split; reflexivity]].
Ltac kept_of Hop := branches Hop; kept.

Lemma freezeWithdrawTx_kept t a o ch n s amt req d d' :
  freezeWithdrawTx t a o ch n s amt req d = Ok d' → kept_by "withdraw" d d'.
Proof. unfold freezeWithdrawTx, freezeNewOrder. cbv zeta. intros Hop. kept_of Hop. Qed.
Lemma QueueWithdraw_kept now inp d d' : QueueWithdraw now inp d = Ok d' → kept_by "withdraw" d d'.
Proof.
  unfold QueueWithdraw. cbv zeta. intros Hop. apply bind_ok_inv in Hop as (d1 & H1%freezeWithdrawTx_kept & Hop).
  injection Hop as <-. etransitivity; [exact H1|]. kept.
Qed.
Lemma unfreezeBalance_kept t a f d av d' : unfreezeBalance t a f d = Ok (av, d') → kept_by "withdraw" d d'.
Proof. unfold unfreezeBalance. intros Hop. do 3 mbind_inv Hop. injection Hop as <- <-. kept. Qed.
Lemma FailWithdrawOnChain_kept now t o h r cf d d' :
  FailWithdrawOnChain now t o h r cf d = Ok d' → kept_by "withdraw" d d'.
Proof.
  unfold FailWithdrawOnChain. cbv zeta. intros Hop. branches Hop; try kept.
  etransitivity; [by eapply unfreezeBalance_kept|]. kept.
Qed.
Lemma ReleaseWithdraw_kept now t a o r d d' : ReleaseWithdraw now t a o r d = Ok d' → kept_by "withdraw" d d'.
Proof.
  unfold ReleaseWithdraw. cbv zeta. intros Hop. branches Hop; try kept.
  match goal with Hu : unfreezeBalance _ _ _ _ = Ok _ |- _ => apply unfreezeBalance_kept in Hu; rename Hu into Hk end.
  etransitivity; [|etransitivity; [exact Hk|]]; kept.
Qed.
Lemma revertStep_kept inp old d d' : revertStep inp old d = Ok d' → kept_by "deposit" d d'.
Proof. unfold revertStep. cbv zeta. intros Hop. branches Hop; kept. Qed.
Lemma CreditDeposit_kept inp d d' : CreditDeposit inp d = Ok d' → kept_by "deposit" d d'.
Proof.
  assert (∀ st c un d d', applyDeposit inp st c un d = Ok d' → kept_by "deposit" d d') as Happly.
  { clear d d'. intros st c un d d'. unfold applyDeposit. cbv zeta. intros Hop.
    apply bind_ok_inv in Hop as (d1 & H1 & Hop). apply bind_ok_inv in Hop as (d2 & H2 & Hop).
    apply bind_ok_inv in Hop as (d3 & H3 & Hop). injection Hop as <-.
    assert (kept_by "deposit" d d1) as K1.
    { destruct (_ && _) in H1; [unfold creditStep in H1; cbv zeta in H1; kept_of H1|by injection H1 as <-]. }
    assert (kept_by "deposit" d1 d2) as K2.
    { destruct (_ && _) in H2; [unfold unlockStep in H2; cbv zeta in H2; kept_of H2|by injection H2 as <-]. }
    assert (kept_by "deposit" d2 d3) as K3.
    { destruct (_ && _) in H3; [by eapply revertStep_kept|by injection H3 as <-]. }
    rewrite K1, K2, K3. kept. }
  unfold CreditDeposit. case_match; intros Hop%Happly; [done|]. etransitivity; [|exact Hop]. kept.
Qed.

(** A write changes the tables of its kind. *)
Lemma run_ledger_kept now c d d' : run_ledger now c d = Ok d' → kept_by (ledger_permission c) d d'.
Proof.
  destruct c; cbn [ledger_permission run_ledger]; intros Hop;
    try (unfold MarkQueuedWithdrawDone, ReplaceBroadcastedWithdraw, ConfirmWithdraw, ConfirmWithdrawOnChain,
           RescheduleQueuedWithdraw, MarkQueuedWithdrawFailed, ResetBroadcastedWithdraw, FailSweepOnChain,
           StartSweep, ConfirmSweepOnChain, ReserveSweep, ReserveTreasuryTransfer, MarkTreasuryTransferBroadcasted,
           ConfirmTreasuryTransferOnChain, FailTreasuryTransferOnChain in Hop; cbv zeta in Hop;
         branches Hop; repeat case_decide; kept).
  all: eauto using freezeWithdrawTx_kept, QueueWithdraw_kept, FailWithdrawOnChain_kept, ReleaseWithdraw_kept, CreditDeposit_kept.
Qed.
End kinds.
