(* ===== verification/ApiSystem.v ===== *)
(** * api-gateway in front of wallet-core

    The call that the gateway forwards is received by wallet-core's mux as the
    route the gateway checked, and the handler it runs stays with the tenant
    and the permission the token was checked for. *)
From S2P Require Import Prelude GoStrings GoNumbers GoJson Ports LedgerTables LedgerWithdraw.
From S2P Require Import LedgerVault.
From S2P Require Import Calls Orchestrator DispatcherTraces Handlers TreasuryHandlers.
From S2P Require Import HandlerTraces.
From S2P Require Import HDDerive AddressHandler CoreServer TenantScope.
From S2P Require Import KeyRef Programs ApiSecurity ApiProxy ApiProperties.

(** ** What wallet-core receives *)

Definition received_by (h : ProxyHandler) (u : upstream_request) : core_request :=
  let '(path, query) := Cut (TrimPrefix (ur_URL u) (ph_WalletCoreAddr h)) "?" in
  {| cr_Method := ur_Method u; cr_Path := path; cr_RawQuery := query; cr_RequestID := ur_RequestID u; cr_Body := ur_Body u |}.

Lemma bytes_prefix_app p l : bytes_prefix p (p ++ l) = true.
Proof. induction p as [|a p IH]; cbn; [done|]. by rewrite Ascii.eqb_refl. Qed.

Lemma TrimPrefix_append s t : TrimPrefix (s +:+ t) s = t.
Proof.
  unfold TrimPrefix, HasPrefix. rewrite to_bytes_app, bytes_prefix_app, drop_app_length. apply of_to_bytes.
Qed.

Lemma cut_no_sep sep l : sep ∉ l → cut_bytes sep l = (l, []).
Proof.
  induction l as [|a l IH]; cbn; [done|]. rewrite not_elem_of_cons. intros [Hne Hl].
  destruct (Ascii.eqb_spec a sep) as [->|]; [done|]. by rewrite IH.
Qed.

Lemma cut_sep sep l l' : sep ∉ l → cut_bytes sep (l ++ sep :: l') = (l, l').
Proof.
  induction l as [|a l IH]; cbn; [by rewrite Ascii.eqb_refl|]. rewrite not_elem_of_cons. intros [Hne Hl].
  destruct (Ascii.eqb_spec a sep) as [->|]; [done|]. by rewrite IH.
Qed.

Lemma routes_without_query : Forall (λ e, "?"%char ∉ to_bytes (fst e)) ApiProxy.NewMux.
Proof. apply (bool_decide_unpack _). by vm_compute. Qed.

Lemma received_by_forwarded h r path spec requestID body :
  (path, spec) ∈ ApiProxy.NewMux → rq_Method r = rt_Method spec →
  received_by h (upstreamRequest h r path requestID body) =
  {| cr_Method := rt_Method spec; cr_Path := path;
     cr_RawQuery := if decide (rq_Method r = "GET") then rq_RawQuery r else "";
     cr_RequestID := requestID; cr_Body := body |}.
Proof.
  intros Hin Hm. assert ("?"%char ∉ to_bytes path) as Hq.
  { pose proof routes_without_query as Hall. rewrite Forall_forall in Hall. apply (Hall _ Hin). }
  unfold received_by, upstreamRequest. cbn [ur_URL ur_Method ur_RequestID ur_Body]. rewrite TrimPrefix_append, Hm.
  unfold Cut. rewrite to_bytes_app.
  destruct (decide (rt_Method spec = "GET")) as [Hg|Hg].
  - destruct (decide (rq_RawQuery r = "")) as [->|Hr].
    + rewrite decide_False by tauto. cbn [to_bytes String.list_ascii_of_string]. rewrite app_nil_r, cut_no_sep by done.
      by rewrite of_to_bytes.
    + rewrite decide_True by done. rewrite to_bytes_app. cbn [to_bytes String.list_ascii_of_string app].
      rewrite cut_sep by done. by rewrite !of_to_bytes.
  - rewrite decide_False by tauto. cbn [to_bytes String.list_ascii_of_string]. rewrite app_nil_r, cut_no_sep by done.
    by rewrite of_to_bytes.
Qed.

(** ** The two decodings of a body *)

(** A struct whose field [get] is decoded from the member [tenant_id]. *)
Definition has_tenant {A} (fields : list (string * doc) → option A) (get : A → string) : Prop :=
  ∀ m x, fields m = Some x → string_field "tenant_id" m = Some (get x).

Ltac has_tenant_field :=
  let Hx := fresh in
  intros m x Hx; match type of Hx with ?f _ = _ => unfold f in Hx end;
  repeat match type of Hx with (_ ≫= _) = Some _ => apply bind_Some in Hx as (? & ? & Hx) end;
  injection Hx as <-; assumption.

Lemma withdraw_tenant : has_tenant CreateWithdrawRequest_fields cwq_TenantID. Proof. has_tenant_field. Qed.
Lemma deposit_tenant : has_tenant DepositNotifyRequest_fields dnq_TenantID. Proof. has_tenant_field. Qed.
Lemma sweep_tenant : has_tenant SweepRunRequest_fields srq_TenantID. Proof. has_tenant_field. Qed.
Lemma withdraw_notify_tenant : has_tenant WithdrawOnchainNotifyRequest_fields wnq_TenantID. Proof. has_tenant_field. Qed.
Lemma sweep_notify_tenant : has_tenant SweepOnchainNotifyRequest_fields snq_TenantID. Proof. has_tenant_field. Qed.
Lemma transfer_tenant : has_tenant TreasuryTransferRequest_fields ttq_TenantID. Proof. has_tenant_field. Qed.
Lemma transfer_notify_tenant : has_tenant TreasuryTransferOnchainNotifyRequest_fields tnq_TenantID. Proof. has_tenant_field. Qed.
Lemma address_tenant : has_tenant CreateAddressRequest_fields caq_TenantID. Proof. has_tenant_field. Qed.
Lemma account_tenant : has_tenant AccountUpsertRequest_fields auq_TenantID. Proof. has_tenant_field. Qed.

Lemma context_tenant m p : contextFields m = Some p → ∃ t, string_field "tenant_id" m = Some t ∧ rx_TenantID p = TrimSpace t.
Proof.
  unfold contextFields. intros Hp. apply bind_Some in Hp as (t & Ht & Hp). exists t. split; [done|].
  repeat match type of Hp with (_ ≫= _) = Some _ => apply bind_Some in Hp as (? & ? & Hp) end. by injection Hp as <-.
Qed.

(** What the gateway and wallet-core read from one body comes from one list of
    members. *)
Lemma decoded_members {A B} (F : list (string * doc) → option A) (G : list (string * doc) → option B) r body x y :
  readBody r = Some body → Unmarshal G body = Some y → decodeBody F body = Some x →
  ∃ m, F m = Some x ∧ ∀ B' (G' : list (string * doc) → option B') y', Unmarshal G' body = Some y' → G' m = Some y'.
Proof.
  unfold readBody. intros Hb. apply bind_Some in Hb as (b & _ & Hb). case_decide as Hlen; [done|]. injection Hb as ->.
  unfold Unmarshal, parseText, decodeBody.
  assert (limited CoreServer.maxRequestBodyBytes (to_bytes body) = to_bytes body) as ->.
  { apply limited_all. unfold ApiProxy.maxRequestBodyBytes in Hlen. unfold CoreServer.maxRequestBodyBytes.
    assert (length (to_bytes body) = String.length body) as -> by (clear; induction body; cbn; congruence). lia. }
  destruct (parse_value _ 0 (to_bytes body)) as [[d rest]|]; cbn; [|done].
  destruct (skip_space rest); cbn; [|done]. destruct d; cbn; try done.
  - intros HG. destruct rest as [|a rest].
    + rewrite decide_True by done. by exists [].
    + case_match; [|done]. by exists [].
  - by exists m.
Qed.

Lemma decoded_tenant {A} (F : list (string * doc) → option A) get r body p x :
  has_tenant F get → readBody r = Some body → Unmarshal contextFields body = Some p → decodeBody F body = Some x →
  TrimSpace (get x) = rx_TenantID p.
Proof.
  intros HF Hb Hp Hx. destruct (decoded_members F contextFields r body x p Hb Hp Hx) as (m & Hm & Hc).
  apply Hc in Hp. clear Hc. rename Hp into Hc. apply HF in Hm. apply context_tenant in Hc as (t & Ht & ->). congruence.
Qed.

(** ** The handler of a route *)

Lemma all_calls_respond Q {A} ok (p : prog (reply A)) : all_calls Q p → all_calls Q (respond ok p).
Proof. intros Hp. by apply all_calls_bind. Qed.

Section routes.
Context `{Sha256} `{Crypto} `{SolanaLib} (h : ProxyHandler) (core : WithdrawHandler).

(** The handler of the forwarded request keeps to tenant and permission. *)
Lemma forwarded_scoped r path spec requestID body p :
  (path, spec) ∈ ApiProxy.NewMux → rq_Method r = rt_Method spec →
  body_of r spec = Some body →
  parseRequestContext r body = Some p → TrimSpace (rx_TenantID p) ≠ "" →
  all_calls (within (rx_TenantID p) (rt_Permission spec))
    (serveCore core (received_by h (upstreamRequest h r path requestID body))).
Proof.
  unfold body_of. intros Hin Hm Hb Hp Ht. rewrite (received_by_forwarded h r path spec) by done.
  assert (∀ A (F : list (string * doc) → option A) get, rt_Method spec = "POST" → has_tenant F get →
    ∀ x, decodeBody F body = Some x → TrimSpace (get x) = rx_TenantID p) as Hpost.
  { intros A F get Hpm HF x Hx. rewrite Hpm, decide_True in Hb by done. eapply decoded_tenant; [done|exact Hb| |exact Hx].
    unfold parseRequestContext in Hp. rewrite Hm, Hpm in Hp.
    rewrite decide_False in Hp by done. destruct (decide (body = "")); [|done].
    exfalso. injection Hp as <-. by apply Ht. }
  assert (rt_Method spec = "GET" → TrimSpace (QueryGet (rq_RawQuery r) "tenant_id") = rx_TenantID p) as Hget.
  { intros Hg. unfold parseRequestContext in Hp. rewrite Hm, Hg, decide_True in Hp by done. injection Hp as <-. done. }
  clear Hb Hp Ht. rewrite Hm. clear Hm.
  unfold ApiProxy.NewMux in Hin. repeat (apply elem_of_cons in Hin as [Hin|Hin]; [injection Hin as -> ->|]);
    [..|by apply elem_of_nil in Hin].
  all: apply all_calls_respond;
    lazymatch goal with
    | |- all_calls _ (Create _ _) => apply scoped_Create
    | |- all_calls _ (Status _) => apply scoped_Status
    | |- all_calls _ (WithdrawOnchainNotify _) => apply scoped_WithdrawOnchainNotify
    | |- all_calls _ (DepositNotify _ _) => apply scoped_DepositNotify
    | |- all_calls _ (SweepRun _ _) => apply scoped_SweepRun
    | |- all_calls _ (SweepOnchainNotify _) => apply scoped_SweepOnchainNotify
    | |- all_calls _ (TreasuryTransfer _ _) => apply scoped_TreasuryTransfer
    | |- all_calls _ (TreasuryTransferStatusHandler _) => apply scoped_TreasuryTransferStatus
    | |- all_calls _ (TreasuryTransferOnchainNotify _) => apply scoped_TreasuryTransferOnchainNotify
    | |- all_calls _ (TreasuryWaterline _) => apply scoped_TreasuryWaterline
    | |- all_calls _ (Balance _) => apply scoped_Balance
    | |- all_calls _ (CreateAddress _ _) => apply scoped_CreateAddress
    | |- all_calls _ (AccountUpsert _ _) => apply scoped_AccountUpsert
    | |- all_calls _ (AccountGet _) => apply scoped_AccountGet
    | |- all_calls _ (AccountList _) => apply scoped_AccountList
    | |- all_calls _ (AccountAddresses _) => apply scoped_AccountAddresses
    | |- all_calls _ (AccountAssets _) => apply scoped_AccountAssets
    end;
    first [ reflexivity | exact (Hget eq_refl) | intros req Hreq; eapply Hpost; [reflexivity| |exact Hreq] ];
    first [ exact withdraw_tenant | exact deposit_tenant | exact sweep_tenant | exact withdraw_notify_tenant
          | exact sweep_notify_tenant | exact transfer_tenant | exact transfer_notify_tenant | exact address_tenant
          | exact account_tenant ].
Qed.

(** ** Tenant isolation through the gateway *)

Lemma authorized_scoped s r u :
  authorized s h r u →
  ∃ tenantID permission,
    TrimSpace tenantID ≠ "" ∧ token_permits s (bearerToken (rq_Authorization r)) tenantID permission
    ∧ all_calls (within tenantID permission) (serveCore core (received_by h u)).
Proof.
  intros (path & spec & body & p & rid & Hin & Hp & Hm & Hb & Hparse & -> & Ht & Htok & _).
  exists (rx_TenantID p), (rt_Permission spec). split_and!; [done|done|].
  by eapply (forwarded_scoped r path spec rid body p).
Qed.

(** ** Keys of queued withdrawals *)

(** A call that does not queue a withdrawal. *)
Definition no_queue R (c : port R) : Prop := match c with LedgerCall (QueueWithdrawCall _) => False | _ => True end.

Lemma no_queue_trace {A} (p : prog A) tr a inp x :
  all_calls no_queue p → exec p tr a → (QueueWithdrawCall inp, x) ∉ ledger_calls tr.
Proof.
  intros Hp Hx Hin. pose proof (exec_all_calls _ _ _ _ Hp Hx) as Hall. clear Hx.
  induction Hall as [|[R c res] tr Hc _ IH]; [by apply elem_of_nil in Hin|]. cbn in Hin.
  destruct c; try by apply IH. apply elem_of_cons in Hin as [Heq|Hin]; [|by apply IH]. by injection Heq as <- _.
Qed.

Lemma within_no_queue t perm {A} (p : prog A) : perm ≠ "withdraw" → all_calls (within t perm) p → all_calls no_queue p.
Proof.
  intros Hperm. apply all_calls_mono. intros R c. destruct c; try done. intros [_ Hw]. by destruct c; try done.
Qed.

Lemma notify_no_queue r : all_calls no_queue (respondOk (WithdrawOnchainNotify r)).
Proof.
  apply all_calls_respond. unfold WithdrawOnchainNotify. apply all_calls_bind_reply; [done|intros _].
  unfold decodeJSONBody. destruct (hq_Body r); [|done]. apply all_calls_bind_reply; [done|intros req].
  apply all_calls_bind_reply; [done|intros _]. unfold onchainNotify. cbv zeta. repeat (case_decide; [by repeat split|]). done.
Qed.

(** What the gateway and wallet-core read from the body of a withdrawal. *)
Lemma withdraw_fields m req :
  CreateWithdrawRequest_fields m = Some req →
  string_field "tenant_id" m = Some (cwq_TenantID req) ∧ string_field "chain" m = Some (cwq_Chain req)
  ∧ string_field "network" m = Some (cwq_Network req) ∧ string_field "amount" m = Some (cwq_Amount req)
  ∧ string_field "key_id" m = Some (cwq_KeyID req) ∧ slice_field "" into_string "key_ids" m = Some (cwq_KeyIDs req).
Proof.
  unfold CreateWithdrawRequest_fields. intros Hreq.
  repeat match type of Hreq with (_ ≫= _) = Some _ => apply bind_Some in Hreq as (? & ? & Hreq) end.
  injection Hreq as <-. split_and!; assumption.
Qed.

Lemma withdraw_members m req p keys :
  CreateWithdrawRequest_fields m = Some req → contextFields m = Some p → keyFields m = Some keys →
  keys = requestedKeys req ∧ p = contextOf (cwq_TenantID req) (cwq_Chain req) (cwq_Network req) (cwq_Amount req).
Proof.
  intros (Ht & Hc & Hn & Ha & Hk & Hks)%withdraw_fields. unfold contextFields, keyFields.
  rewrite Ht, Hc, Hn, Ha, Hk, Hks. cbn. intros [= <-] [= <-]. done.
Qed.

Context {C D : Type} `{!Connection C} `{!Upstream D}.

(** C17. A withdrawal that is queued through the gateway is one that the token's
    tenant may make: each of its signing keys is an active key of the tenant,
    and the most specific chain policy allows a withdrawal of that amount. *)
Theorem queued_withdrawal_is_the_tenants r (w : security * C * D) tr1 u ans tr2 tr a inp x :
  calls_of (serve h r) w = tr1 ++ Happened (DoCall u) ans :: tr2 →
  exec (serveCore core (received_by h u)) tr a → (QueueWithdrawCall inp, x) ∈ ledger_calls tr →
  let s := w.1.1 in let t := TrimSpace (wq_TenantID inp) in
  token_permits s (bearerToken (rq_Authorization r)) t "withdraw"
  ∧ wq_Signers inp ≠ [] ∧ (∀ signer, signer ∈ wq_Signers inp → sy_tenant_keys s !! (t, sr_KeyID signer) = Some "ACTIVE")
  ∧ Postgres.CheckTenantChainPolicy t (ToLower (TrimSpace (bp_Chain (wq_Tx inp)))) (ToLower (TrimSpace (bp_Network (wq_Tx inp))))
      "withdraw" (TrimSpace (bp_Amount (wq_Tx inp))) s = Ok ().
Proof.
  intros Htr Hx Hq s t. destruct (calls_authorized h r w tr1 u ans tr2 Htr)
    as (path & spec & body & p & rid & Hin & Hp & Hm & Hb & Hparse & -> & Ht & Htok & Hkeys & Hcn & Hpol).
  pose proof (forwarded_scoped r path spec rid body p Hin Hm Hb Hparse Ht) as Hscope.
  destruct (decide (rt_Permission spec = "withdraw")) as [Hperm|Hperm].
  2:{ exfalso. by eapply no_queue_trace; [eapply within_no_queue|exact Hx|exact Hq]. }
  assert ((path, spec) = ProxyWithdraw ∨ (path, spec) = ProxyWithdrawOnchainNotify) as [Heq|Heq].
  { clear -Hin Hperm. unfold ApiProxy.NewMux in Hin.
    repeat (apply elem_of_cons in Hin as [Hin|Hin]; [injection Hin as -> ->; cbn in Hperm; try discriminate Hperm; auto|]).
    by apply elem_of_nil in Hin. }
  2:{ exfalso. rewrite (received_by_forwarded h r path spec) in Hx by done. injection Heq as -> ->.
      by eapply no_queue_trace; [apply notify_no_queue|exact Hx|exact Hq]. }
  rewrite (received_by_forwarded h r path spec) in Hx by done. injection Heq as -> ->.
  unfold body_of in Hb. rewrite decide_True in Hb by done.
  apply exec_bind in Hx as (tr' & tr'' & rep & -> & Hx & [-> _]). rewrite app_nil_r in Hq.
  apply Create_trace in Hx as [Hobs|(req & confs & signers & y & Hreq & Hsig & Hne & _ & Hobs)].
  { injection Hobs as _ Hobs. rewrite Hobs in Hq. by apply elem_of_nil in Hq. }
  injection Hobs as _ Hobs. rewrite Hobs in Hq. apply list_elem_of_singleton in Hq. injection Hq as -> _.
  destruct (Hkeys eq_refl) as (keys & Hks & Hall). destruct (Hcn eq_refl) as [Hch Hnet]. specialize (Hpol Hch Hnet).
  assert (Unmarshal contextFields body = Some p) as Hctx.
  { unfold parseRequestContext in Hparse. rewrite Hm in Hparse. rewrite decide_False in Hparse by done.
    destruct (decide (body = "")); [|done]. exfalso. injection Hparse as <-. by apply Ht. }
  destruct (decoded_members CreateWithdrawRequest_fields contextFields r body req p Hb Hctx Hreq) as (m & Hmr & Hall').
  destruct (withdraw_members m req p keys Hmr (Hall' _ _ _ Hctx) (Hall' _ _ _ Hks)) as [-> ->].
  split_and!; [exact Htok|exact Hne| |exact Hpol].
  intros signer Hs. apply (Hall (sr_KeyID signer)). rewrite <- Hsig. apply list_elem_of_fmap. by exists signer.
Qed.
End routes.

(** * Tenants of the whole system

    Requests of many clients at the gateway, their proxies interleaved call by
    call, in front of wallet-core with its ledger.  A tenant's rows change only
    through requests whose token is for that tenant, and only in the tables of
    the operations the token permits. *)
From S2P Require Import LedgerQueue.

(** ** The network between gateway and wallet-core *)

Inductive fate : Type :=
  | Delivered
  | AnswerLost (e : error)
  | Lost (e : error).

Class Network (N : Type) := {
  net_random : string → N → string * N;
  net_fate : upstream_request → N → fate * N;
}.

Definition answer_of (r : core_response) : upstream_response :=
  {| us_StatusCode := cs_Status r; us_Body := cs_Body r; us_ContentType := cs_ContentType r |}.

Section network.
Context `{Sha256} `{Crypto} `{SolanaLib} (h : ProxyHandler) (core : WithdrawHandler).
Context {W N : Type} `{!PortHandler W} `{!Network N}.

(** A request that arrives is served to the end, whatever becomes of its
    answer. *)
Definition core_do (u : upstream_request) (w : W * N) : result upstream_response * (W * N) :=
  let '(f, n) := net_fate u w.2 in
  match f with
  | Lost e => (Err e, (w.1, n))
  | AnswerLost e => (Err e, ((run (serveCore core (received_by h u)) w.1).2, n))
  | Delivered =>
      let '(r, w') := run (serveCore core (received_by h u)) w.1 in (Ok (answer_of r), (w', n))
  end.

Definition network_upstream : Upstream (W * N) := {|
  up_do := core_do;
  up_random p w := let '(s, n) := net_random p w.2 in (s, (w.1, n)) |}.

Lemma core_do_state u (w : W * N) :
  (core_do u w).2.1 = w.1 ∨ (core_do u w).2.1 = (run (serveCore core (received_by h u)) w.1).2.
Proof.
  unfold core_do. destruct (net_fate u w.2) as [f n]. destruct f; cbn; [|by right|by left].
  destruct (run _ _) as [r w']. by right.
Qed.
End network.

(** ** What stays of a tenant's rows *)

(** [K] are the kinds of writes that nobody may make for the tenant [u]. *)
Record spared (u : string) (K : string → Prop) (d d' : ledger) : Prop := {
  sp_deposits : K "deposit" → same_rows u (deposit_events d) (deposit_events d')
                ∧ same_rows u (ledger_audit_events d) (ledger_audit_events d');
  sp_withdrawals : K "withdraw" → same_rows u (ledger_freezes d) (ledger_freezes d')
                ∧ same_rows u (ledger_entries d) (ledger_entries d') ∧ same_rows u (withdraw_jobs d) (withdraw_jobs d')
                ∧ same_rows u (withdraw_tx_attempts d) (withdraw_tx_attempts d');
  sp_vaults : K "sweep" → same_rows u (sweep_orders d) (sweep_orders d')
                ∧ same_rows u (treasury_transfer_orders d) (treasury_transfer_orders d')
                ∧ same_rows u (vault_balances d) (vault_balances d') ∧ same_rows u (vault_journals d) (vault_journals d');
  sp_balances : K "withdraw" → K "deposit" → same_rows u (ledger_balances d) (ledger_balances d')
                ∧ same_rows u (ledger_journals d) (ledger_journals d');
}.

#[export] Instance spared_preorder u K : PreOrder (spared u K).
Proof.
  split; [by intros d; split; intros; split_and!|].
  intros d1 d2 d3 [A1 B1 C1 D1] [A2 B2 C2 D2]. split; intros;
    repeat match goal with Hi : ?a → _, Ha : ?a |- _ => specialize (Hi Ha) end; destruct_and?; split_and?;
    (etransitivity; eassumption).
Qed.

Lemma untouched_spared u K d d' : untouched u d d' → spared u K d d'.
Proof. intros []. by split; intros; split_and!. Qed.

Lemma kept_spared u (K : string → Prop) perm d d' : ¬ K perm → kept_by perm d d' → spared u K d d'.
Proof.
  intros HK (A & B & C & D). assert (∀ k, K k → perm ≠ k) as Hne by (intros k Hk ->; done).
  split; intros; [destruct A|destruct B as (? & ? & ? & ?)|destruct C as (? & ? & ? & ?)|destruct D]; auto;
    split_and!; intros k _; congruence.
Qed.

(** A write for another tenant, or of a permitted kind. *)
Lemma run_ledger_spared now c u (K : string → Prop) d d' :
  (ledger_tenant c = u → ¬ K (ledger_permission c)) → run_ledger now c d = Ok d' → spared u K d d'.
Proof.
  intros HK Hop. destruct (decide (ledger_tenant c = u)) as [Hu|Hu].
  - eapply kept_spared; [by apply HK|]. by eapply run_ledger_kept.
  - apply untouched_spared. by eapply run_ledger_untouched.
Qed.

Section runs.
Context `{Postgres} {O : Type} `{!Outside O}.

Lemma on_port_spared {R} (c : port R) (w : world O) t perm u (K : string → Prop) :
  within t perm R c → (TrimSpace u = t → ¬ K perm) → spared u K (w_ledger w) (w_ledger (on_port c w).2).
Proof.
  intros Hc HK. unfold on_port, world_handler. destruct c; try done;
    try (rewrite in_query_ledger; done); try (rewrite outside_ledger; done).
  destruct Hc as [Ht Hp]. destruct (in_tx_ledger (λ now l, l' ← run_ledger now c l; Ok ((), l')) w) as [->|(now & a & Hop)]; [done|].
  apply bind_ok_inv in Hop as (l' & Hop & Heq). injection Heq as _ <-.
  eapply run_ledger_spared; [|exact Hop]. intros <-. rewrite Hp. by apply HK.
Qed.

Lemma run_spared {A} (p : prog A) (w : world O) t perm u (K : string → Prop) :
  all_calls (within t perm) p → (TrimSpace u = t → ¬ K perm) → spared u K (w_ledger w) (w_ledger (run p w).2).
Proof.
  intros Hp HK. revert w. induction p as [a|R c k IH]; intros w; cbn; [done|]. destruct Hp as [Hc Hk].
  pose proof (on_port_spared c w t perm u K Hc HK) as H1. destruct (on_port c w) as [r w1]. cbn in *.
  etransitivity; [exact H1|by apply IH].
Qed.
End runs.

(** ** Interleaved requests *)

Section system.
Context `{Sha256} `{Crypto} `{SolanaLib} `{Postgres}.
Context {C O N : Type} `{!Connection C} `{!Outside O} `{!Network N}.
Variables (h : ProxyHandler) (core : WithdrawHandler).

#[local] Existing Instance network_upstream.
Abbreviation system := (security * C * (world O * N))%type.
Abbreviation system_ledger := (λ w : system, w_ledger w.2.1).
#[local] Instance system_upstream : Upstream (world O * N) := network_upstream h core.

(** A write of the kind [k] that no request may make for the tenant. *)
Definition forbidden (s : security) (rs : list http_request) (u k : string) : Prop :=
  ∀ r, r ∈ rs → ¬ token_permits s (bearerToken (rq_Authorization r)) (TrimSpace u) k.

#[export] Instance forbidden_dec s rs u k : Decision (forbidden s rs u k).
Proof.
  refine (cast_if (decide (Forall (λ r, ¬ token_permits s (bearerToken (rq_Authorization r)) (TrimSpace u) k) rs)));
    unfold forbidden; by rewrite <- Forall_forall.
Defined.

(** A proxy whose answers so far were true. *)
Definition honest (s : security) (rs : list http_request) (p : program gateway_call http_response) : Prop :=
  ∃ r l, r ∈ rs ∧ (∀ x, x ∈ l → truthful s x) ∧ allowed (Pre h r) logs (λ _ _, True) p l.

Lemma on_fst_other {A B R} (f : A → R * A) (w : A * B) : (on_fst f w).2.2 = w.2.
Proof. unfold on_fst. by destruct (f w.1). Qed.

(** Only a forwarded request changes anything behind the gateway. *)
Lemma silent_ledger {R} (c : gateway_call R) (w : system) : silent c → system_ledger (answer c w).2 = system_ledger w.
Proof.
  destruct c; try done; intros _; unfold answer, gateway_answers; try (by rewrite on_fst_other).
  unfold on_snd. cbn. by destruct (net_random _ _).
Qed.

Lemma forwarded_ledger u (w : system) :
  system_ledger (answer (DoCall u) w).2 = system_ledger w
  ∨ system_ledger (answer (DoCall u) w).2 = w_ledger (run (serveCore core (received_by h u)) w.2.1).2.
Proof.
  pose proof (core_do_state h core u w.2) as Hw. unfold answer, gateway_answers, on_snd. cbn.
  destruct (core_do h core u w.2) as [res w2]. cbn in *. destruct Hw as [-> | ->]; auto.
Qed.

Lemma system_step s rs u R (c : gateway_call R) k (w : system) :
  honest s rs (Ask c k) → same_rules s w.1.1 →
  spared u (forbidden s rs u) (system_ledger w) (system_ledger (answer c w).2) ∧ honest s rs (k (answer c w).1).
Proof.
  intros (r & l & Hr & Hl & Hpre & Hk) Hs. destruct (answer_truthful c w) as [Hs' Ht].
  split.
  - destruct c; try (by rewrite silent_ledger).
    destruct (authorized_scoped h core s r req) as (t & perm & _ & Htok & Hall); [by eapply forwardable_authorized|].
    destruct (forwarded_ledger req w) as [Hw|Hw]; rewrite Hw; [done|].
    eapply run_spared; [exact Hall|]. intros Hu Hf. apply (Hf r Hr). by rewrite Hu.
  - exists r, (l ++ [Happened c (answer c w).1]). split_and!; [done| |by apply Hk].
    intros x [Hx|Hx]%elem_of_app; [by apply Hl|]. apply list_elem_of_singleton in Hx as ->. by eapply truthful_same.
Qed.

(** C15. However the proxies of any requests interleave, the ledger's rows of a
    tenant change only in the tables of what some of the requests' tokens
    permit for that tenant. *)
Theorem gateway_isolates_tenants rs (w : system) ps w' u :
  rtc interleave (serve h <$> rs, w) (ps, w') →
  spared u (forbidden w.1.1 rs u) (system_ledger w) (system_ledger w').
Proof.
  intros Hr. edestruct (interleave_invariant (honest w.1.1 rs)
    (λ v, same_rules w.1.1 v.1.1 ∧ spared u (forbidden w.1.1 rs u) (system_ledger w) (system_ledger v)))
    as [_ [_ Hsp]]; [|exact Hr| |by split|exact Hsp].
  - intros R c k v Hh [Hs Hsp]. destruct (system_step w.1.1 rs u R c k v Hh Hs) as [Hsp' Hh'].
    split; [split; [etransitivity; [exact Hs|apply answer_truthful]|by etransitivity]|done].
  - apply Forall_fmap, Forall_forall. intros r Hin. exists r, []. split_and!; [done| |apply allowed_serve].
    by intros x ?%elem_of_nil.
Qed.
End system.
