(* ===== verification/ApiSite.v ===== *)
(** * A concrete gateway

    What the properties of the gateway are instantiated with: a database with
    two tenants' tokens, keys and policies, a network that delivers what it is
    told to, and the wallet-core of [Site] behind it.  Then what a client with
    a restricted token can do, on this gateway. *)
From S2P Require Import Prelude GoStrings GoNumbers GoJson Ports LedgerTables LedgerWithdraw.
From S2P Require Import LedgerQueue LedgerVault.
From S2P Require Import Calls Orchestrator DispatcherTraces Handlers HDDerive SignerProperties.
From S2P Require Import CoreServer.
From S2P Require Import LedgerProperties Site CoreProperties KeyRef Programs ApiSecurity ApiProxy.
From S2P Require Import ApiProperties ApiPolicies ApiIdempotency.
From S2P Require Import ApiSystem.

#[export] Instance siteSha : Sha256 := λ l, take 8 l.
#[export] Instance siteCrypto : Crypto := smallCrypto.

(** A database that always answers. *)
#[export] Instance siteConnection : Connection () := λ c, (Ok (), c).


(** A network with a plan: what becomes of the next requests. *)
Record plan := { pl_ids : Z; pl_fates : list fate }.
#[export] Instance siteNetwork : Network plan := {|
  net_random p n := (p +:+ "-" +:+ BigString (pl_ids n), {| pl_ids := pl_ids n + 1; pl_fates := pl_fates n |});
  net_fate _ n := match pl_fates n with
                  | f :: fs => (f, {| pl_ids := pl_ids n; pl_fates := fs |})
                  | [] => (Delivered, n)
                  end |}.

Definition gateway : ProxyHandler := NewProxyHandler "http://wallet-core:8081/".
#[export] Instance siteUpstream : Upstream (world state * plan) := network_upstream gateway Requests.handler.

(** [token-t] may do everything for tenant [t], [token-w] only withdraw,
    [token-d] only announce deposits; [token-u] is another tenant's. *)
Definition token (tenant : string) (w d s : bool) : token_row :=
  {| tk_tenant_id := tenant; tk_can_withdraw := w; tk_can_deposit := d; tk_can_sweep := s; tk_status := "ACTIVE" |}.
Definition policies : gmap policy_key policy_row :=
  {[ ("t", "ethereum", "mainnet") :=
       {| po_id := 1; po_allow_deposit := true; po_allow_withdraw := true; po_allow_sweep := true;
          po_max_withdraw_amount := "50"; po_priority := 0; po_status := "ACTIVE" |} ]}.
Definition tables : security := {|
  sy_api_tokens := {[ "token-t" := token "t" true true true; "token-w" := token "t" true false false;
                      "token-d" := token "t" false true false; "token-u" := token "u" true true true ]};
  sy_tenant_keys := {[ ("t", "k:alice") := "ACTIVE" ]};
  sy_idem_requests := ∅;
  sy_tenant_chain_policies := policies;
  sy_audit_logs := [] |}.

Definition site (l : ledger) (fates : list fate) : security * () * (world state * plan) :=
  (tables, (), (start [] l, {| pl_ids := 1; pl_fates := fates |})).

(** ** Requests *)

Definition post (path tok id : string) (fields : list (string * doc)) : http_request := {|
  rq_Method := "POST"; rq_Path := path; rq_RawQuery := ""; rq_Authorization := "Bearer " +:+ tok;
  rq_RequestID := id; rq_Body := Some (Marshal (DObj fields)) |}.
Definition str (tag v : string) : string * doc := (tag, DStr v).

(** Alice of tenant [t] withdraws from the address of [Site]. *)
Definition withdraw (tok id order amount : string) : http_request := post "/v1/withdraw" tok id
  [ str "tenant_id" "t"; str "account_id" "alice"; str "order_id" order; str "key_id" "k:alice";
    str "sign_type" "ecdsa"; str "chain" "ethereum"; str "network" "mainnet"; str "coin" "ETH";
    str "from" "0xalice"; str "to" "0xb"; str "amount" amount ].
Definition notifyFailed (tok order : string) : http_request := post "/v1/withdraw/onchain/notify" tok ""
  [ str "tenant_id" "t"; str "order_id" order; str "tx_hash" "0x0"; str "status" "FAILED" ].
Definition notifyDeposit (tok order amount : string) : http_request := post "/v1/deposit/notify" tok ""
  [ str "tenant_id" "t"; str "account_id" "alice"; str "order_id" order; str "chain" "ethereum";
    str "network" "mainnet"; str "coin" "ETH"; str "amount" amount; str "scan_status" "FINALIZED" ].

Definition serveAll (rs : list http_request) (w : security * () * (world state * plan)) :
    list Z * (security * () * (world state * plan)) :=
  foldl (λ '(statuses, w) r, let '(resp, w) := runs (serve gateway r) w in (statuses ++ [rp_Status resp], w)) ([], w) rs.

Definition available (w : security * () * (world state * plan)) : option balance_row :=
  ledger_balances (w_ledger w.2.1) !! ("t", "alice", "ETH").

(** ** The properties, on this gateway *)

Abbreviation site_world := (security * () * (world state * plan))%type.
Definition site_calls (r : http_request) (w : site_world) : list (happening (E := gateway_call)) := calls_of (serve gateway r) w.

(** The [n]th call, when it is one to wallet-core. *)
Definition do_at (n : nat) (l : list (happening (E := gateway_call))) : option (upstream_request * result upstream_response) :=
  match l !! n with
  | Some (Happened c ans) =>
      match c in gateway_call R return R → option (upstream_request * result upstream_response) with
      | DoCall u => λ ans, Some (u, ans)
      | _ => λ _, None
      end ans
  | None => None
  end.

Lemma do_at_split n l u ans : do_at n l = Some (u, ans) → l = take n l ++ Happened (DoCall u) ans :: drop (S n) l.
Proof.
  unfold do_at. destruct (l !! n) as [[R c res]|] eqn:Hl; [|done]. intros Hd.
  destruct c; try done. injection Hd as -> ->. symmetry. by apply take_drop_middle.
Qed.

Lemma scheduled_end s (ps : list (program gateway_call http_response)) (w : site_world) :
  rtc interleave (ps, w) ((scheduled s ps w).1, (scheduled s ps w).2).
Proof. rewrite <- surjective_pairing. apply scheduled_steps. Qed.

(** The first withdrawal, and where it goes. *)
Definition siteWithdraw : http_request := withdraw "token-t" "r1" "w-9" "10".
Definition siteStart : site_world := site Demo.funded [].
Definition siteSent : upstream_request := upstreamRequest gateway siteWithdraw "/v1/withdraw" "r1" (default "" (rq_Body siteWithdraw)).

Lemma siteWithdraw_sent : ∃ ans, do_at 4 (site_calls siteWithdraw siteStart) = Some (siteSent, ans).
Proof. eexists. vm_compute. reflexivity. Qed.

Lemma forwarded_requests_are_authorized_witness : authorized tables gateway siteWithdraw siteSent.
Proof.
  destruct siteWithdraw_sent as [ans Hans]. apply do_at_split in Hans.
  exact (proj2 (forwarded_requests_are_authorized gateway siteWithdraw siteStart _ _ _ _ Hans)).
Defined.

(** Two tenants' requests, one after the other: neither the sweeps nor the
    deposits of [t] change, nor anything of [v]. *)
Lemma gateway_isolates_tenants_witness :
  let rs := [withdraw "token-w" "r1" "w-9" "10"; withdraw "token-u" "r2" "w-9" "10"] in
  let s := concat (replicate 8 [0; 1]%nat) in
  let w := (scheduled s (serve gateway <$> rs) siteStart).2 in
  spared "t" (forbidden tables rs "t") (w_ledger siteStart.2.1) (w_ledger w.2.1)
  ∧ forbidden tables rs "t" "deposit" ∧ forbidden tables rs "t" "sweep"
  ∧ available w ≠ available siteStart.
Proof.
  intros rs s w. split; [|split_and!];
    [|by apply (bool_decide_unpack _); vm_compute..|intros Heq; vm_compute in Heq; discriminate].
  eapply (gateway_isolates_tenants gateway Requests.handler rs siteStart). apply scheduled_end.
Defined.

(** What wallet-core is asked to queue for it. *)
Definition siteQueued : WithdrawQueueInput := {|
  wq_TenantID := "t"; wq_AccountID := "alice"; wq_OrderID := "w-9"; wq_RequiredConfs := 2;
  wq_Signers := [{| sr_KeyID := "k:alice"; sr_PublicKey := "p:alice" |}]; wq_SignType := "ecdsa";
  wq_Tx := {| bp_Chain := "ethereum"; bp_Network := "mainnet"; bp_Coin := "ETH"; bp_From := "0xalice"; bp_To := "0xb";
              bp_Amount := "10"; bp_ContractAddress := ""; bp_AmountUnit := ""; bp_TokenDecimals := 0;
              bp_Base64Tx := ""; bp_Fee := ""; bp_Vin := []; bp_Vout := [] |} |}.

Lemma queued_withdrawal_is_the_tenants_witness :
  token_permits tables "token-t" "t" "withdraw" ∧ sy_tenant_keys tables !! ("t", "k:alice") = Some "ACTIVE"
  ∧ Postgres.CheckTenantChainPolicy "t" "ethereum" "mainnet" "withdraw" "10" tables = Ok ().
Proof.
  destruct siteWithdraw_sent as [ans Hans]. apply do_at_split in Hans.
  pose proof (traced_exec (serveCore Requests.handler (received_by gateway siteSent)) siteStart.2.1) as Hx.
  destruct (queued_withdrawal_is_the_tenants gateway Requests.handler siteWithdraw siteStart _ _ _ _ _ _ siteQueued (Ok ())
    Hans Hx) as (Htok & _ & Hkeys & Hpol).
  { vm_compute. left. }
  split_and!; [exact Htok| |exact Hpol]. apply (Hkeys {| sr_KeyID := "k:alice"; sr_PublicKey := "p:alice" |}). left.
Defined.


Definition settledRow : idem_row :=
  {| iq_request_hash := hashRequest (default "" (rq_Body siteWithdraw)); iq_status := "SUCCESS";
     iq_response := rp_Body (runs (serve gateway siteWithdraw) siteStart).1 |}.

(** Two copies of a request that was answered, side by side. *)
Lemma settled_request_is_final_witness :
  let w := (runs (serve gateway siteWithdraw) siteStart).2 in
  let rs := [siteWithdraw; withdraw "token-t" "r1" "w-9" "20"] in
  let s := concat (replicate 8 [0; 1]%nat) in
  idem_of (scheduled s (serve gateway <$> rs) w).2 !! ("t", "r1", "withdraw") = Some settledRow.
Proof.
  intros w rs s. eapply (settled_request_is_final gateway ("t", "r1", "withdraw") settledRow rs w).
  - by left.
  - by vm_compute.
  - apply scheduled_end.
Defined.

(** ** What the gateway lets through *)

(** Two copies of one request, with one id: the second is forwarded while the
    first is in flight, its failure is recorded over the success of the first,
    and the client is told that the request failed although it is queued. *)
Definition inFlight : list nat := [0; 0; 0; 0; 1; 1; 1; 1; 1; 0; 0; 0; 1; 1]%nat.
Lemma duplicates_in_flight :
  let w := (tables, (), (start [2] Demo.funded, {| pl_ids := 1; pl_fates := [] |})) in
  let '(ps, w') := scheduled inFlight (serve gateway <$> [siteWithdraw; siteWithdraw]) w in
  List.map (λ p, rp_Status (runs p w').1) ps = [200; 400]
  ∧ iq_status <$> sy_idem_requests w'.1.1 !! ("t", "r1", "withdraw") = Some "FAILED"
  ∧ ba_frozen <$> available w' = Some "10"
  ∧ rp_Status (runs (serve gateway siteWithdraw) w').1 = 409.
Proof. vm_compute. by split_and!. Qed.

(** A client that may withdraw gets a withdrawal back that was broadcast: it
    announces the failure of its transaction itself. *)
Definition broadcasted : site_world :=
  let w := (runs (serve gateway (withdraw "token-w" "r1" "w-9" "10")) siteStart).2 in
  (w.1, (dispatchRound (dispatcher 3) w.2.1, w.2.2)).
Lemma client_takes_withdrawal_back :
  let '(resp, w) := runs (serve gateway (notifyFailed "token-w" "w-9")) broadcasted in
  List.length (st_sent (w_out w.2.1)) = 1%nat ∧ ba_available <$> available broadcasted = Some "90"
  ∧ rp_Status resp = 200 ∧ ba_available <$> available w = Some "100" ∧ ba_frozen <$> available w = Some "0".
Proof. vm_compute. by split_and!. Qed.

(** A client that may announce deposits announces one that never happened. *)
Lemma client_credits_itself :
  let '(resp, w) := runs (serve gateway (notifyDeposit "token-d" "made-up" "1000000")) siteStart in
  rp_Status resp = 200 ∧ ba_available <$> available w = Some "1000100" ∧ ba_withdraw_locked <$> available w = Some "0".
Proof. vm_compute. by split_and!. Qed.

(** A read that names a chain and a network is refused. *)
Lemma read_with_chain_is_refused :
  rp_Status (runs (serve gateway {| rq_Method := "GET"; rq_Path := "/v1/balance";
    rq_RawQuery := "tenant_id=t&account_id=alice&asset=ETH&chain=ethereum&network=mainnet";
    rq_Authorization := "token-t"; rq_RequestID := ""; rq_Body := None |}) siteStart).1 = 403
  ∧ rp_Status (runs (serve gateway {| rq_Method := "GET"; rq_Path := "/v1/balance";
    rq_RawQuery := "tenant_id=t&account_id=alice&asset=ETH";
    rq_Authorization := "token-t"; rq_RequestID := ""; rq_Body := None |}) siteStart).1 = 200.
Proof. vm_compute. by split_and!. Qed.
